(* ===== verification/_CoqProject ===== *)
-Q . S2P
Prelude.v
GoStrings.v
Encoding.v
Txn.v
Json.v
JsonFacts.v
GoTime.v
GoTimeFacts.v
JsonTokens.v
Unmarshal.v
Queue.v
Lifecycle.v
QueueRefinement.v
QueueTheorems.v
QueueExamples.v
Records.v
Idempotency.v
Catalog.v
CatalogExamples.v
Worker.v
WorkerPool.v
WorkerExamples.v
Blobstore.v
Streams.v
GoPath.v
Manifests.v
Filesystem.v
FilesystemFacts.v
FilesystemTheorems.v
FilesystemRefinement.v
FilesystemBlobs.v
FilesystemExamples.v
Conformance.v
ConformanceTheorems.v
S3store.v
S3Theorems.v
S3Examples.v
Sarif.v
SarifValidate.v
SarifReading.v
SarifTheorems.v
SarifRoundtrip.v
SarifExamples.v
Finding.v
Normalizer.v
Correlation.v
FindingExamples.v
Uploads.v
UploadExamples.v
Scans.v
Ingestion.v
Processing.v
IngestionService.v
ImportJob.v
Pipeline.v
PipelineTheorems.v
ProcessingTheorems.v
ImportJobFacts.v
ImportJobTheorems.v
IngestionTheorems.v
UploadTheorems.v
IngestionExamples.v
ImportJobExamples.v
Authorization.v
Base64.v
Authentication.v
Bootstrap.v
BootstrapTheorems.v
BootstrapExamples.v
Server.v
ServerTheorems.v
Migrations.v
Command.v
CommandTheorems.v
CommandExamples.v
