(* ===== verification/Prelude.v ===== *)
(** * Open ASPM: a verification development

    Open ASPM ingests the reports of security scanners.  A client reserves an
    import, uploads the report, completes the import; a job processes the
    report into scans, observations and normalizations; nothing that was
    accepted may be lost, duplicated or attributed to another workspace.  The
    state is in PostgreSQL and in a blob store; the Go code under
    src/internal is a set of packages, each with a service and a store.

    ** How the program is modelled

    A Go function is a Rocq function with the same name; where two packages
    use one name, the Module tells them apart, and where a service and a store
    of one package do, the service's has the prefix [Service].  Validators
    are [bool] functions, fallible functions return [result] (this file),
    structs are records, string enumerations are inductive types, times and
    durations are integers of nanoseconds, 64-bit arithmetic wraps around
    where it can overflow.

    A function that talks to the database is a [prog] (Txn.v): begin,
    statements, commit, early return with the deferred rollback.  Every call
    of the connection can fail, and a failed commit may have taken effect or
    not: [run] takes the list of faults, and the theorems hold for all of
    them unless they say that the connection is healthy.  A statement and the
    [RowsAffected] of its result are one such call: an error of either ends
    the function with the deferred rollback.  Concurrency is the
    interleaving of these programs at transaction boundaries; rows that other
    transactions hold (SKIP LOCKED) and advisory locks are inputs of a call.
    The tables are finite maps with the constraints of
    src/internal/database/migrations as [bool] functions, checked by the
    statements in PostgreSQL's order.  The foreign key from jobs to
    operations is deferred, and Complete inserts the operation in the same
    transaction as the job, so no commit can violate it.

    What is outside the repository is a parameter: what PostgreSQL does that
    the repository does not define ([Postgres], Queue.v: the rounding of
    timestamps, jsonb values, the order of text), the clock, the random source, the
    executor's scan order, the reader behind a request body, the authorizer
    and the blob store as interfaces; the answers of the operating system, of
    the S3 service ([ObjectService], with its laws [ObjectLaws]), of the
    database driver and of goose ([Provider]); what other processes do between
    two calls.  Each theorem with such a parameter has a witness on a concrete
    instance.

    ** Files

    - Prelude.v (this file): results, 64-bit integers, tactics and lemmas
      every file shares.
    - GoStrings.v, Encoding.v, Base64.v, Json.v, JsonFacts.v, JsonTokens.v,
      Unmarshal.v, GoTime.v, GoTimeFacts.v, GoPath.v: what the program uses of
      the Go standard library (UTF-8, patterns, base32, hexadecimal, SHA-256,
      HMAC, base64, JSON as values, as tokens and into structs, RFC 3339,
      package path).  JsonFacts.v and GoTimeFacts.v prove that parsing undoes
      printing.
    - Txn.v, Records.v, Idempotency.v: database programs; the insert-or-replay
      idiom of every immutable record; the claims of the idempotent writes.
    - Queue.v ([JobQueue], jobqueue/queue.go): the tables jobs and
      job_attempts and the operations of the queue.  Lifecycle.v is the
      abstract specification, events on one job; QueueRefinement.v shows that
      every operation performs exactly such events; QueueTheorems.v draws the
      conclusions; QueueExamples.v has the witnesses.
    - Worker.v, WorkerPool.v, WorkerExamples.v (jobqueue/worker.go): a worker
      slot against the interface [queueBackend], which the queue implements,
      and Run with all its slots.
    - Catalog.v, CatalogExamples.v (internal/catalog): repositories, their
      links to applications and the resolution of an active link.
    - Uploads.v, UploadExamples.v (ingestion/postgres.go, the three upload
      operations); Streams.v (request bodies, the interface of the blob
      store, an instance in memory); Blobstore.v (blobstore/blobstore.go and
      stream.go: keys, options, bounded and verified streams).
    - Manifests.v: the record both stores publish.  Filesystem.v
      (blobstore/filesystem), call by call of the operating system;
      FilesystemFacts.v, FilesystemTheorems.v, FilesystemRefinement.v (the
      store against a store of immutable versions), FilesystemBlobs.v (as an
      instance of the interface the ingestion uses), FilesystemExamples.v.
      S3store.v (blobstore/s3store), request by request; S3Theorems.v,
      S3Examples.v.  Conformance.v (blobstoretest) is the suite of the stores
      as a program; ConformanceTheorems.v runs it on the filesystem store.
    - Ingestion.v (ingestion/types.go, postgres.go: Reserve,
      ReplayReservation, Complete), Scans.v (scan.go, the validation of
      processing.go), Processing.v (processing_postgres.go,
      scan_postgres.go), IngestionService.v (service.go).
    - Pipeline.v, PipelineTheorems.v, ProcessingTheorems.v,
      IngestionTheorems.v, UploadTheorems.v, IngestionExamples.v: the
      operations of the ingestion package, of the catalog and of the queue on
      one database.
    - Finding.v, Normalizer.v, Correlation.v, FindingExamples.v
      (internal/finding, normalization/sarif, correlation).
    - Sarif.v, SarifValidate.v, SarifReading.v, SarifTheorems.v,
      SarifRoundtrip.v, SarifExamples.v (parsing/sarif): the parser of
      reports.  ImportJob.v, ImportJobFacts.v, ImportJobTheorems.v,
      ImportJobExamples.v (processing/importjob): the handler that composes
      the parser, the stores, the normalizer and the lifecycle.
    - Authorization.v, Authentication.v (internal/authorization,
      internal/authentication).  Bootstrap.v, BootstrapTheorems.v,
      BootstrapExamples.v (internal/bootstrap, identity, tenancy).
    - Server.v, ServerTheorems.v (internal/server): the handler and the two
      goroutines of Serve.  Migrations.v (internal/database).  Command.v,
      CommandTheorems.v, CommandExamples.v (internal/command, version): the
      program from its arguments to its exit code.

    ** What the theorems show

    Pipeline.  Whatever sequence of calls runs on whatever connections, an
    import, its artifact, its analysis context, its operation and its job
    agree ([pipeline_consistent]), and no call takes back what was accepted
    ([pipeline_keeps]).  A fresh completion publishes exactly its rows
    ([completion_publishes]); retries of a completion or a reservation are
    answered with the original, whatever happened in between
    ([completion_idempotent]) or with the import in its present state
    ([reservation_idempotent]); requests with equal fingerprints ask for the
    same, unless their two texts collide ([fingerprint_faithful]).  A receipt of an upload
    speaks of the bytes that were sent and stored ([upload_evidence]), and a
    failed upload leaves no lease behind ([upload_no_leak]).  A result can be
    published again and nothing else ([result_final]); a scan is stored once
    and redelivery finds it ([scan_replay]).

    Queue.  Every operation refines the lifecycle and takes effect entirely
    or not at all ([operations_atomic]); every reachable database satisfies
    the invariant ([reachable_invariant]); no job is lost, and each operation
    makes only its own transitions, of the jobs it names ([job_history]), attempts are recorded exactly ([attempt_history_exact]),
    stale workers are fenced ([stale_token_fenced]), cancellation is durable
    ([cancellation_durable]), acquisition is exclusive and finds work
    ([acquire_exclusive], [acquire_finds_work]), recovery and enqueueing do
    what they promise ([recovery_exact], [enqueue_idempotent]).

    Worker.  The calls of one job follow the protocol ([process_protocol]); a
    worker that keeps its lease by heartbeats settles the job as its handler's
    outcome calls for, whatever others do that leaves the lease alone
    ([process_settles]); the retry delay is the capped
    exponential ([retryDelay_exponential]), and the worker with all its slots
    only performs queue operations, loses no error and answers for them; the
    iterations of the slots follow each other, and the operations of other
    slots and processes come between the calls of an iteration as the
    [moment]s of the world it runs in ([worker_run], [worker_simulates_queue] for one slot).

    Blob stores.  Whatever calls fail and whatever other processes do, a put
    publishes all of its verified bytes or nothing ([put_publishes],
    [s3_put_publishes]); histories of calls on the filesystem store are
    histories of a store of immutable versions ([filesystem_refines]), what was
    put is read ([blob_roundtrip], [s3_reads_back]), and the store passes the
    conformance suite ([filesystem_conforms]).  Streams: [bounded_copy_total],
    [unbounded_limit_panics], [verified_content], [stored_content_roundtrip].

    Reports.  The streaming check of the parser accepts exactly the documents
    within its limits ([validate_exact]); a printed document parses to what was
    printed ([parse_roundtrip]); source pointers resolve ([pointers_resolve]);
    no more is read than the limit ([parse_bounded]).  The import job records
    what the report says and ends the operation ([import_recorded]), an
    operation whose job is given up with a permanent outcome has ended for
    good ([import_abandoned]), and no delivery breaks the
    invariants ([import_safe]).

    Access.  The installation grants one operator what it should and nothing
    else ([initialize_grants]), happens once ([bootstrap_once]), and a rotation
    revokes the other tokens ([rotate_revokes]); [authorize_iff],
    [workspace_isolation] (a decision reads only the rows of the request's
    principal, workspace and token), [authentication_sound],
    [generated_token_authenticates].

    Program.  The token that the command line prints works
    ([printed_token_works]); every run that ends closes its connections and
    prints nothing unless it succeeds ([command_orderly]); the server ends once
    it is told to or its listener fails, and says which ([serve_ends]); every response has
    the protecting headers ([handler_surface]).

    Catalog: [repository_idempotent], [link_resolves].  Findings:
    [observation_replay], [observation_complete], [records_immutable],
    [normalization_accepted] (the mapping of docs/normalization/sarif.md),
    [dispatch_reports_blockers].

    ** Fuel and bounds

    Every definition terminates by its structure or by a bound that is shown
    or argued to be enough where it is used.  The JSON parser has fuel for
    three calls per byte of its input and some more, which [decode_print]
    shows to be enough for every printed value up to the depth limit of
    encoding/json; decimal digits are counted by the binary logarithm, the
    blocks of SHA-256 by the length of the padded message.  A copy of a stream
    has one step per byte and per piece of the body ([Streams.reads]), and
    [bounded_copy_total] shows that it ends.  The retry delay is doubled as
    often as the attempt number says and stops at its cap.  The streaming
    check of a report has two steps per byte and two more, the decoders of its
    structures follow the tokens; reading a source takes a buffer per read,
    and the theorems ask for as many as the source has reads.  The filesystem
    store copies with as many steps as its source has reads; the S3 uploader
    reads with the buffers it brings.  The server is a machine whose every run
    has five events of its own at most ([serve_ends]).

    ** Not modelled

    The main function connects the process with [Run] of Command.v: signals,
    standard streams, exit.  Of the filesystem store, the loss of bytes that
    were not synced is left out, and of both stores the closing of readers; of
    the database, that it refuses text that is not valid UTF-8 (the stores
    then answer with the error of a failed statement, and change nothing); of
    the worker, the time it waits; of the server, the time limits of
    connections and the text of a redirect; of the command line, the zone in
    which a time is printed and the quoting of an argument.  The migrations run
    in goose, a third-party library: the tables they create are modelled where
    they are used.  The OpenAPI documents, the SQL of the migrations beyond
    tables and constraints, and the tests are not code of the program. *)

From stdpp Require Export base tactics decidable numbers option list gmap fin_maps
  strings sorting relations.
From Stdlib Require Export Lia ZArith.

#[global] Set Default Proof Using "Type".

(** ** Results: Go's [(value, error)] pairs

    A Go function that returns [(T, error)] either succeeds with a value or
    fails with an error and a zero value that callers ignore; [result] keeps
    exactly that information. *)

Inductive result (E A : Type) : Type :=
| Ok (a : A)
| Err (e : E).
Arguments Ok {E A} a.
Arguments Err {E A} e.

Declare Scope aspm_scope.
Delimit Scope aspm_scope with aspm.
#[global] Open Scope aspm_scope.

Definition rbind {E A B} (m : result E A) (k : A -> result E B) : result E B :=
  match m with Ok a => k a | Err e => Err e end.

Notation "'try!' x := m 'in' k" := (rbind m (fun x => k))
  (at level 10, x name, m at level 100, k at level 200,
   format "'[v' 'try!'  x  :=  m  'in' '/' k ']'") : aspm_scope.

Notation "'guard!' b 'else' e 'in' k" := (if b then k else Err e)
  (at level 10, b at level 100, e at level 100, k at level 200) : aspm_scope.

Definition is_ok {E A} (r : result E A) : bool :=
  match r with Ok _ => true | Err _ => false end.

(** ** Machine integers: Go's [int] and [int64] *)

Definition min_int64 : Z := - 2 ^ 63.
Definition max_int64 : Z := 2 ^ 63 - 1.

(** Two's complement wrap-around of a 64-bit signed result. *)
Definition wrap64 (z : Z) : Z := (z + 2 ^ 63) `mod` 2 ^ 64 - 2 ^ 63.

Definition in_int64 (z : Z) : Prop := (min_int64 <= z <= max_int64)%Z.

Lemma wrap64_id z : in_int64 z -> wrap64 z = z.
Proof.
  unfold in_int64, min_int64, max_int64, wrap64. intros H.
  rewrite Z.mod_small; lia.
Qed.

Lemma wrap64_range z : in_int64 (wrap64 z).
Proof.
  unfold in_int64, min_int64, max_int64, wrap64.
  pose proof (Z.mod_pos_bound (z + 2 ^ 63) (2 ^ 64)). lia.
Qed.

(** Columns of type [integer]. *)
Definition int4 (z : Z) : bool := ((- 2 ^ 31 <=? z) && (z <? 2 ^ 31))%Z.
Definition int4_opt (o : option Z) : bool := match o with Some z => int4 z | None => true end.

(** ** Time

    [time.Time] is an instant in nanoseconds counted from Go's zero time
    (January 1, year 1, UTC), so [IsZero] is equality with [0]; a
    [time.Duration] is a signed 64-bit count of nanoseconds. *)

Abbreviation time := Z.
Abbreviation duration := Z.

Definition IsZero (t : time) : bool := (t =? 0)%Z.
Definition Microsecond : duration := 1000.
Definition Second : duration := 1000000000.
Definition Hour : duration := 3600 * Second.

(** ** Optional columns *)

Definition is_null {A} (o : option A) : bool :=
  match o with None => true | Some _ => false end.
Definition coalesce {A} (o : option A) (d : A) : A := default d o.
Definition nullif_empty (s : string) : option string :=
  if String.eqb s "" then None else Some s.
Definition null_string (o : option string) : string := default "" o.

Lemma null_string_nullif s : null_string (nullif_empty s) = s.
Proof. unfold nullif_empty. destruct (String.eqb_spec s ""); by subst. Qed.

(** ** Boolean reflection used by every component *)

Lemma negb_orb_true a b : negb (a || b) = true <-> negb a = true /\ negb b = true.
Proof. destruct a, b; simpl; intuition. Qed.

Ltac simp_bool :=
  repeat match goal with
  | H : context [negb true] |- _ => progress simpl in H
  | H : context [negb false] |- _ => progress simpl in H
  | H : andb _ _ = true |- _ => apply andb_prop in H as [? ?]
  | H : orb _ _ = false |- _ => apply orb_false_elim in H as [? ?]
  | H : negb _ = true |- _ => apply negb_true_iff in H
  | H : negb _ = false |- _ => apply negb_false_iff in H
  | H : Z.eqb _ _ = true |- _ => apply Z.eqb_eq in H
  | H : Z.eqb _ _ = false |- _ => apply Z.eqb_neq in H
  | H : Z.ltb _ _ = true |- _ => apply Z.ltb_lt in H
  | H : Z.ltb _ _ = false |- _ => apply Z.ltb_ge in H
  | H : Z.leb _ _ = true |- _ => apply Z.leb_le in H
  | H : Z.leb _ _ = false |- _ => apply Z.leb_gt in H
  | H : Z.gtb _ _ = _ |- _ => rewrite Z.gtb_ltb in H
  | H : Z.geb _ _ = _ |- _ => rewrite Z.geb_leb in H
  | H : String.eqb _ _ = true |- _ => apply String.eqb_eq in H
  | H : String.eqb _ _ = false |- _ => apply String.eqb_neq in H
  | H : bool_decide _ = true |- _ => apply bool_decide_eq_true in H
  | H : bool_decide _ = false |- _ => apply bool_decide_eq_false in H
  end.

(** Case analysis on the scrutinee of every [if] and [match] of the goal. *)
Ltac split_cases :=
  repeat match goal with
  | |- context [if ?b then _ else _] => destruct b eqn:?
  | |- context [match ?x with _ => _ end] => destruct x eqn:?
  end.

Create HintDb aspm.

(** ** Lists *)

Section filter_bool.
Context {A : Type}.
Implicit Types (f : A -> bool) (l : list A).

(** Counting rows that satisfy a boolean condition: SQL's
    [count( * ) FILTER (WHERE ...)]. *)
Definition countb f l : Z := Z.of_nat (length (List.filter f l)).

Lemma countb_nonneg f l : (0 <= countb f l)%Z.
Proof. unfold countb. lia. Qed.

Lemma countb_cons f x l :
  countb f (x :: l) = ((if f x then 1 else 0) + countb f l)%Z.
Proof. unfold countb. simpl. destruct (f x); simpl; lia. Qed.

Lemma countb_perm f l1 l2 : l1 ≡ₚ l2 -> countb f l1 = countb f l2.
Proof. induction 1; rewrite ?countb_cons; lia. Qed.

Lemma countb_ext f g l : (forall x, x ∈ l -> f x = g x) -> countb f l = countb g l.
Proof.
  induction l as [|x l IH]; [done|]. intros H. rewrite !countb_cons.
  rewrite H by set_solver. rewrite IH; [done|]. set_solver.
Qed.

(** The first element that no later element beats strictly. *)
Fixpoint argmin (lt : A -> A -> bool) (best : A) (l : list A) : A :=
  match l with
  | [] => best
  | x :: l => argmin lt (if lt x best then x else best) l
  end.

Lemma argmin_elem lt b l : argmin lt b l = b \/ argmin lt b l ∈ l.
Proof.
  revert b. induction l as [|x l IH]; intros b; simpl; [by left|].
  destruct (IH (if lt x b then x else b)) as [E|E]; [|right; set_solver].
  rewrite E. destruct (lt x b); [right; set_solver|by left].
Qed.

Lemma argmin_minimal (lt : A -> A -> bool) b l :
  (forall x y z, lt x y = false -> lt y z = false -> lt x z = false) ->
  (forall x y, lt x y = true -> lt y x = false) ->
  lt b (argmin lt b l) = false /\ Forall (fun x => lt x (argmin lt b l) = false) l.
Proof.
  intros Htrans Hasym. revert b. induction l as [|x l IH]; intros b; simpl.
  - split; [|constructor]. destruct (lt b b) eqn:E; [|done]. by rewrite (Hasym _ _ E) in E.
  - destruct (lt x b) eqn:E; destruct (IH (if lt x b then x else b)) as [H1 H2];
      rewrite E in H1, H2; split; eauto.
Qed.
End filter_bool.

(** A map restricted to the rows that satisfy a boolean condition, as a list:
    the rows an SQL [SELECT ... WHERE] visits. *)
Definition rows_where `{Countable K} {A} (f : A -> bool) (m : gmap K A) : list A :=
  List.filter f (map snd (map_to_list m)).

Lemma elem_of_rows_where `{Countable K} {A} (f : A -> bool) (m : gmap K A) x :
  x ∈ rows_where f m <-> (exists k, m !! k = Some x) /\ f x = true.
Proof.
  unfold rows_where. rewrite list_elem_of_In, filter_In, <- list_elem_of_In.
  split; intros [Hx Hf]; split; [|done| |done].
  - apply list_elem_of_fmap in Hx as [[k y] [-> Hx]]. apply elem_of_map_to_list in Hx. eauto.
  - destruct Hx as [k Hx]. apply list_elem_of_fmap. exists (k, x).
    split; [done|]. by apply elem_of_map_to_list.
Qed.

(** Number of rows of a table that satisfy a condition. *)
Definition count_rows `{Countable K} {A} (f : A -> bool) (m : gmap K A) : Z :=
  countb f (map snd (map_to_list m)).

Lemma count_rows_insert_new `{Countable K} {A} (f : A -> bool) (m : gmap K A) k x :
  m !! k = None ->
  count_rows f (<[k := x]> m) = ((if f x then 1 else 0) + count_rows f m)%Z.
Proof.
  intros Hk. unfold count_rows.
  erewrite countb_perm; [|apply fmap_Permutation, map_to_list_insert, Hk].
  simpl. by rewrite countb_cons.
Qed.

Lemma count_rows_split `{Countable K} {A} (f : A -> bool) (m : gmap K A) k x :
  m !! k = Some x ->
  count_rows f m = ((if f x then 1 else 0) + count_rows f (delete k m))%Z.
Proof.
  intros Hk. rewrite <- (insert_delete_id m k x Hk) at 1.
  rewrite count_rows_insert_new; [done|]. apply lookup_delete_eq.
Qed.

Lemma count_rows_update `{Countable K} {A} (f : A -> bool) (m : gmap K A) k x y :
  m !! k = Some x ->
  count_rows f (<[k := y]> m)
  = (count_rows f m - (if f x then 1 else 0) + (if f y then 1 else 0))%Z.
Proof.
  intros Hk. rewrite (count_rows_split f m k x Hk).
  rewrite <- insert_delete_eq, count_rows_insert_new by apply lookup_delete_eq. lia.
Qed.

(** Adding a row to what a condition selects. *)
Lemma rows_where_insert `{Countable K} {A} (f : A -> bool) (m : gmap K A) k x : m !! k = None ->
  rows_where f (<[k := x]> m) ≡ₚ (if f x then [x] else []) ++ rows_where f m.
Proof.
  intros Hk. unfold rows_where.
  assert (forall l l' : list A, l ≡ₚ l' -> List.filter f l ≡ₚ List.filter f l') as Hp.
  { induction 1; simpl; repeat case_match; eauto using Permutation. }
  etrans; [apply Hp, fmap_Permutation, map_to_list_insert, Hk|]. simpl. by destruct (f x).
Qed.
