(* ===== verification/GoStrings.v ===== *)
(** * Go strings

    A Go [string] is a sequence of bytes.  This file models the parts of the
    language and of the packages [unicode/utf8], [strings] and [regexp] that
    the program's validators use: UTF-8 decoding and rune counting,
    [TrimSpace], the search for a NUL byte, and the anchored character-class
    patterns; then the identifier validators that several packages repeat
    verbatim ([validOpaqueID], [validText], [validDisplayName]). *)

From S2P Require Import Prelude.
From Stdlib Require Import Ascii.

Local Open Scope Z_scope.

Definition byte_val (c : ascii) : Z := Z.of_N (N_of_ascii c).

Lemma byte_val_range c : 0 <= byte_val c < 256.
Proof. unfold byte_val. pose proof (N_ascii_bounded c). lia. Qed.

Definition slen (s : string) : Z := Z.of_nat (String.length s).

Fixpoint sforallb (f : ascii -> bool) (s : string) : bool :=
  match s with "" => true | String c s => f c && sforallb f s end.

Lemma slen_app s t : slen (s +:+ t) = slen s + slen t.
Proof.
  unfold slen. induction s as [|c s IH]; [done|].
  change (String c s +:+ t) with (String c (s +:+ t)). simpl String.length. lia.
Qed.

Lemma sforallb_app f s t : sforallb f (s +:+ t) = sforallb f s && sforallb f t.
Proof.
  induction s as [|c s IH]; [done|].
  change (String c s +:+ t) with (String c (s +:+ t)). simpl. by rewrite IH, andb_assoc.
Qed.

Lemma sforallb_impl (f g : ascii -> bool) s :
  (forall c, f c = true -> g c = true) -> sforallb f s = true -> sforallb g s = true.
Proof.
  intros H. induction s as [|c s IH]; [done|]. simpl. intros Hs. simp_bool.
  by rewrite H, IH.
Qed.

Lemma append_nil_r (s : string) : s +:+ "" = s.
Proof. induction s as [|c s IH]; [done|]. change (String c (s +:+ "") = String c s). by rewrite IH. Qed.

Lemma append_assoc (s t u : string) : (s +:+ t) +:+ u = s +:+ (t +:+ u).
Proof.
  induction s as [|c s IH]; [done|].
  change (String c ((s +:+ t) +:+ u) = String c (s +:+ (t +:+ u))). by rewrite IH.
Qed.

Lemma append_inj_l (s t u : string) : s +:+ t = s +:+ u -> t = u.
Proof.
  induction s as [|c s IH]; [done|].
  change (String c (s +:+ t) = String c (s +:+ u) -> t = u). intros [= H]. auto.
Qed.

Lemma slen_nonneg s : 0 <= slen s.
Proof. unfold slen. lia. Qed.
#[export] Hint Resolve slen_nonneg : aspm.

(** [strings.HasPrefix]. *)
Definition HasPrefix (s p : string) : bool := String.prefix p s.

Lemma HasPrefix_app p s : HasPrefix (p +:+ s) p = true.
Proof.
  unfold HasPrefix. induction p as [|c p IH]; [by destruct s|].
  change (String c p +:+ s) with (String c (p +:+ s)). simpl.
  destruct (ascii_dec c c); [done|congruence].
Qed.

(** [strings.IndexByte(s, 0) >= 0]. *)
Definition has_nul (s : string) : bool := negb (sforallb (fun c => negb (byte_val c =? 0)) s).

(** ** UTF-8 *)

(** One decoding step of a Go string: a rune together with the bytes that
    encode it, or a byte that starts no valid encoding (which Go reports as
    U+FFFD of width 1). *)
Inductive rune :=
| Rune (cp : Z) (enc : string)
| Bad (c : ascii).

Definition rune_bytes (r : rune) : string :=
  match r with Rune _ enc => enc | Bad c => String c "" end.

Definition is_rune (r : rune) : bool := match r with Rune _ _ => true | Bad _ => false end.

Definition between (lo hi z : Z) : bool := (lo <=? z) && (z <=? hi).

(** The first continuation byte's range, from the leading byte
    ([utf8.acceptRanges]). *)
Definition second_lo (a : Z) : Z := if a =? 224 then 160 else if a =? 240 then 144 else 128.
Definition second_hi (a : Z) : Z := if a =? 237 then 159 else if a =? 244 then 143 else 191.

Fixpoint runes (s : string) : list rune :=
  match s with
  | "" => []
  | String c1 s1 =>
      let a := byte_val c1 in
      if a <? 128 then Rune a (String c1 "") :: runes s1
      else if between 194 244 a then
        match s1 with
        | "" => Bad c1 :: runes s1
        | String c2 s2 =>
            let b := byte_val c2 in
            if negb (between (second_lo a) (second_hi a) b) then Bad c1 :: runes s1
            else if a <? 224 then
              Rune ((a - 192) * 64 + (b - 128)) (String c1 (String c2 "")) :: runes s2
            else
              match s2 with
              | "" => Bad c1 :: runes s1
              | String c3 s3 =>
                  let c := byte_val c3 in
                  if negb (between 128 191 c) then Bad c1 :: runes s1
                  else if a <? 240 then
                    Rune ((a - 224) * 4096 + (b - 128) * 64 + (c - 128))
                         (String c1 (String c2 (String c3 ""))) :: runes s3
                  else
                    match s3 with
                    | "" => Bad c1 :: runes s1
                    | String c4 s4 =>
                        let d := byte_val c4 in
                        if negb (between 128 191 d) then Bad c1 :: runes s1
                        else
                          Rune ((a - 240) * 262144 + (b - 128) * 4096 + (c - 128) * 64 + (d - 128))
                               (String c1 (String c2 (String c3 (String c4 "")))) :: runes s4
                    end
              end
        end
      else Bad c1 :: runes s1
  end.

Definition concat_runes (l : list rune) : string :=
  foldr (fun r acc => rune_bytes r +:+ acc) "" l.

(** [utf8.ValidString] and [utf8.RuneCountInString]. *)
Definition ValidString (s : string) : bool := forallb is_rune (runes s).
Definition RuneCountInString (s : string) : Z := Z.of_nat (length (runes s)).

Lemma string_ind_lt (P : string -> Prop) :
  (forall s, (forall t, (String.length t < String.length s)%nat -> P t) -> P s) -> forall s, P s.
Proof.
  intros H s. remember (String.length s) as n eqn:Hn. revert s Hn.
  induction n as [n IH] using lt_wf_ind. intros s ->. apply H. intros t Ht.
  by apply (IH (String.length t)).
Qed.

Lemma concat_runes_cons r l : concat_runes (r :: l) = rune_bytes r +:+ concat_runes l.
Proof. done. Qed.

(** Decoding loses no byte. *)
Lemma concat_runes_runes s : concat_runes (runes s) = s.
Proof.
  induction s as [s IH] using string_ind_lt.
  destruct s as [|c1 s1]; [done|]. cbn [runes].
  repeat match goal with
  | |- context [if ?b then _ else _] => destruct b
  | |- context [match ?x with "" => _ | String _ _ => _ end] => destruct x as [|? ?]
  end; rewrite concat_runes_cons, IH by (simpl; lia); done.
Qed.

Lemma runes_ascii s :
  sforallb (fun c => byte_val c <? 128) s = true ->
  ValidString s = true /\ RuneCountInString s = slen s.
Proof.
  unfold ValidString, RuneCountInString, slen.
  induction s as [|c s IH]; [done|]. cbn [sforallb runes]. intros H. simp_bool.
  rewrite (proj2 (Z.ltb_lt _ _)) by done. destruct IH as [IH1 IH2]; [done|].
  cbn [forallb is_rune length String.length]. split; [done|]. lia.
Qed.

(** A string has at most as many runes as bytes, and a non-empty one has one. *)
Lemma RuneCount_bounds s : RuneCountInString s <= slen s /\ (s <> "" -> 1 <= RuneCountInString s).
Proof.
  unfold RuneCountInString, slen. split.
  - induction s as [s IH] using string_ind_lt.
    destruct s as [|c1 s1]; [done|]. cbn [runes].
    repeat match goal with
    | |- context [if ?b then _ else _] => destruct b
    | |- context [match ?x with "" => _ | String _ _ => _ end] => destruct x as [|? ?]
    end; cbn [length String.length];
    match goal with |- context [runes ?t] =>
      pose proof (IH t ltac:(cbn [String.length]; lia)); cbn [String.length] in *; lia end.
  - destruct s as [|c1 s1]; [done|]. intros _. cbn [runes]. split_cases; simpl; lia.
Qed.

(** ** [strings.TrimSpace] *)

(** [unicode.IsSpace]. *)
Definition IsSpace (r : rune) : bool :=
  match r with
  | Bad _ => false
  | Rune z _ =>
      between 9 13 z || (z =? 32) || (z =? 133) || (z =? 160) || (z =? 5760) ||
      between 8192 8202 z || (z =? 8232) || (z =? 8233) || (z =? 8239) || (z =? 8287) ||
      (z =? 12288)
  end.

Fixpoint drop_spaces (l : list rune) : list rune :=
  match l with
  | [] => []
  | r :: l' => if IsSpace r then drop_spaces l' else l
  end.

Definition TrimSpace (s : string) : string :=
  concat_runes (rev (drop_spaces (rev (drop_spaces (runes s))))).

(** A string that starts and ends with a non-space rune is left alone. *)
Lemma drop_spaces_length l : (length (drop_spaces l) <= length l)%nat.
Proof. induction l as [|r l IH]; simpl; [lia|]. destruct (IsSpace r); simpl; lia. Qed.

Lemma drop_spaces_none l : forallb (fun r => negb (IsSpace r)) l = true -> drop_spaces l = l.
Proof. destruct l as [|r l]; [done|]. simpl. intros H. simp_bool. by rewrite H. Qed.

Lemma TrimSpace_none s :
  forallb (fun r => negb (IsSpace r)) (runes s) = true -> TrimSpace s = s.
Proof.
  intros H. unfold TrimSpace. rewrite (drop_spaces_none _ H).
  rewrite drop_spaces_none.
  - by rewrite rev_involutive, concat_runes_runes.
  - apply forallb_forall. intros r Hr. apply in_rev in Hr.
    rewrite forallb_forall in H. auto.
Qed.

Lemma plain_runes t : sforallb (fun c => (byte_val c <? 128) && (32 <? byte_val c)) t = true ->
  forallb (fun r => negb (IsSpace r)) (runes t) = true.
Proof.
  induction t as [|c s IH]; [done|]. cbn [sforallb runes]. intros H. simp_bool.
  rewrite (proj2 (Z.ltb_lt _ _)) by done. cbn [forallb]. rewrite IH by done.
  rewrite andb_true_r. unfold IsSpace, between.
  repeat match goal with |- context [?a =? ?b] => destruct (Z.eqb_spec a b); [lia|] end.
  repeat match goal with |- context [?a <=? ?b] => destruct (Z.leb_spec a b) end; try lia; done.
Qed.

Lemma TrimSpace_ascii s :
  sforallb (fun c => (byte_val c <? 128) && (32 <? byte_val c)) s = true -> TrimSpace s = s.
Proof. intros H. by apply TrimSpace_none, plain_runes. Qed.

(** Appending printable ASCII to a trimmed string leaves it trimmed. *)
Definition first_rune (c1 : ascii) (s1 : string) : rune * string :=
  let a := byte_val c1 in
  let bad := (Bad c1, s1) in
  if a <? 128 then (Rune a (String c1 ""), s1)
  else if negb (between 194 244 a) then bad
  else match s1 with
  | "" => bad
  | String c2 s2 =>
      let b := byte_val c2 in
      if negb (between (second_lo a) (second_hi a) b) then bad
      else if a <? 224 then (Rune ((a - 192) * 64 + (b - 128)) (String c1 (String c2 "")), s2)
      else match s2 with
      | "" => bad
      | String c3 s3 =>
          let c := byte_val c3 in
          if negb (between 128 191 c) then bad
          else if a <? 240 then
            (Rune ((a - 224) * 4096 + (b - 128) * 64 + (c - 128)) (String c1 (String c2 (String c3 ""))), s3)
          else match s3 with
          | "" => bad
          | String c4 s4 =>
              let d := byte_val c4 in
              if negb (between 128 191 d) then bad
              else (Rune ((a - 240) * 262144 + (b - 128) * 4096 + (c - 128) * 64 + (d - 128))
                         (String c1 (String c2 (String c3 (String c4 "")))), s4)
          end
      end
  end.

Lemma runes_cons c s : runes (String c s) = fst (first_rune c s) :: runes (snd (first_rune c s)).
Proof.
  cbn [runes]. unfold first_rune. cbv zeta.
  destruct (byte_val c <? 128); [done|]. destruct (between 194 244 (byte_val c)); [|done]. cbn [negb].
  destruct s as [|c2 s2]; [done|]. destruct (between _ _ (byte_val c2)); [|done]. cbn [negb].
  destruct (byte_val c <? 224); [done|]. destruct s2 as [|c3 s3]; [done|].
  destruct (between _ _ (byte_val c3)); [|done]. cbn [negb].
  destruct (byte_val c <? 240); [done|]. destruct s3 as [|c4 s4]; [done|].
  by destruct (between _ _ (byte_val c4)).
Qed.

Lemma first_rune_shorter c s : (String.length (snd (first_rune c s)) <= String.length s)%nat.
Proof. unfold first_rune. cbv zeta. split_cases; subst; simpl; lia. Qed.

(** An ASCII byte continues no encoding, so it does not change what was
    decoded before it. *)
Lemma first_rune_app c s b t : byte_val b < 128 ->
  first_rune c (s +:+ String b t) = (fst (first_rune c s), snd (first_rune c s) +:+ String b t).
Proof.
  intros Hb.
  assert (forall a, between (second_lo a) (second_hi a) (byte_val b) = false) as Hlo.
  { intros a. unfold between, second_lo. split_cases; apply andb_false_iff; left; apply Z.leb_gt; lia. }
  assert (between 128 191 (byte_val b) = false) as Hmid.
  { unfold between. apply andb_false_iff. left. apply Z.leb_gt. lia. }
  unfold first_rune. cbv zeta.
  destruct (byte_val c <? 128); [done|]. destruct (between 194 244 (byte_val c)); [|done]. cbn [negb].
  destruct s as [|c2 s2]; simpl; [by rewrite Hlo|]. destruct (between _ _ (byte_val c2)); [|done].
  simpl. destruct (byte_val c <? 224); [done|]. destruct s2 as [|c3 s3]; simpl; [by rewrite Hmid|].
  destruct (between _ _ (byte_val c3)); [|done]. simpl.
  destruct (byte_val c <? 240); [done|]. destruct s3 as [|c4 s4]; simpl; [by rewrite Hmid|].
  by destruct (between _ _ (byte_val c4)).
Qed.

Lemma runes_app_ascii s b t : byte_val b < 128 -> runes (s +:+ String b t) = runes s ++ runes (String b t).
Proof.
  intros Hb. induction s as [s IH] using string_ind_lt. destruct s as [|c s]; [done|].
  change (String c s +:+ String b t) with (String c (s +:+ String b t)).
  rewrite !(runes_cons c), first_rune_app by done. cbn [fst snd].
  rewrite IH by (pose proof (first_rune_shorter c s); simpl; lia). done.
Qed.

Lemma concat_runes_app l l' : concat_runes (l ++ l') = concat_runes l +:+ concat_runes l'.
Proof.
  induction l as [|r l IH]; [done|]. rewrite <- app_comm_cons, !concat_runes_cons, IH.
  by rewrite append_assoc.
Qed.

Lemma concat_rev_length l : slen (concat_runes (rev l)) = slen (concat_runes l).
Proof.
  induction l as [|r l IH]; [done|]. simpl rev. rewrite concat_runes_app, !concat_runes_cons.
  rewrite !slen_app, IH. change (slen (concat_runes [])) with 0. lia.
Qed.

Lemma drop_spaces_bytes l : slen (concat_runes (drop_spaces l)) <= slen (concat_runes l).
Proof.
  induction l as [|r l IH]; [done|]. simpl drop_spaces. rewrite concat_runes_cons.
  destruct (IsSpace r); rewrite ?concat_runes_cons, slen_app; pose proof (slen_nonneg (rune_bytes r)); lia.
Qed.

Lemma first_rune_bytes c s : 1 <= slen (rune_bytes (fst (first_rune c s))).
Proof. unfold first_rune. cbv zeta. split_cases; unfold slen; simpl; lia. Qed.

(** A trimmed string does not start with a space. *)
Lemma TrimSpace_head s r l : TrimSpace s = s -> runes s = r :: l -> IsSpace r = false.
Proof.
  intros Ht Hr. destruct (IsSpace r) eqn:Hsp; [|done]. exfalso.
  assert (1 <= slen (rune_bytes r)) as Hb.
  { destruct s as [|c s]; [done|]. rewrite runes_cons in Hr. injection Hr as <- _. apply first_rune_bytes. }
  assert (slen s = slen (rune_bytes r) + slen (concat_runes l)) as Hs.
  { by rewrite <- (concat_runes_runes s), Hr, concat_runes_cons, slen_app at 1. }
  unfold TrimSpace in Ht. rewrite Hr in Ht. simpl in Ht. rewrite Hsp in Ht.
  apply (f_equal slen) in Ht. rewrite concat_rev_length in Ht.
  pose proof (drop_spaces_bytes (rev (drop_spaces l))) as H1. rewrite concat_rev_length in H1.
  pose proof (drop_spaces_bytes l). lia.
Qed.

Lemma drop_spaces_app_none l l' : drop_spaces l = l -> l <> [] -> drop_spaces (l ++ l') = l ++ l'.
Proof.
  destruct l as [|r l]; [done|]. simpl. destruct (IsSpace r); [|done].
  intros H _. pose proof (drop_spaces_length l). rewrite H in H0. simpl in H0. lia.
Qed.

Lemma TrimSpace_app s t : TrimSpace s = s -> t <> "" ->
  sforallb (fun c => (byte_val c <? 128) && (32 <? byte_val c)) t = true ->
  TrimSpace (s +:+ t) = s +:+ t.
Proof.
  intros Hs Hne Ht. destruct t as [|b t]; [done|].
  assert (byte_val b < 128) as Hb by (simpl in Ht; simp_bool; done).
  assert (runes (String b t) <> []) as Hn by (by rewrite runes_cons).
  pose proof (plain_runes _ Ht) as Hp.
  unfold TrimSpace. rewrite runes_app_ascii by done. set (rt := runes (String b t)) in *.
  assert (drop_spaces (runes s ++ rt) = runes s ++ rt) as ->.
  { destruct (runes s) as [|r l] eqn:Hr; [by apply drop_spaces_none|].
    simpl. by rewrite (TrimSpace_head s r l Hs Hr). }
  rewrite rev_app_distr, drop_spaces_app_none.
  - rewrite <- rev_app_distr, rev_involutive, concat_runes_app. unfold rt. by rewrite !concat_runes_runes.
  - apply drop_spaces_none. apply forallb_forall. intros r Hr. apply in_rev in Hr.
    rewrite forallb_forall in Hp. auto.
  - intros E. apply (f_equal length) in E. rewrite length_rev in E. by destruct rt.
Qed.

(** ** Patterns

    The program's regular expressions are all anchored: one optional literal
    prefix, one character class, and a bounded number of characters of a
    second class. *)

Definition is_lower (c : ascii) : bool := between 97 122 (byte_val c).
Definition is_upper (c : ascii) : bool := between 65 90 (byte_val c).
Definition is_digit (c : ascii) : bool := between 48 57 (byte_val c).
Definition is_byte (n : Z) (c : ascii) : bool := byte_val c =? n.

(** [[a-z0-9._-]] *)
Definition name_char (c : ascii) : bool :=
  is_lower c || is_digit c || is_byte 46 c || is_byte 95 c || is_byte 45 c.
(** [[a-z0-9.-]] *)
Definition failure_char (c : ascii) : bool := is_lower c || is_digit c || is_byte 46 c || is_byte 45 c.
(** [[a-z0-9._:-]] *)
Definition capability_char (c : ascii) : bool := name_char c || is_byte 58 c.
(** [[A-Za-z0-9._:-]] *)
Definition key_char (c : ascii) : bool := capability_char c || is_upper c.
(** [[a-z2-7]] *)
Definition base32_char (c : ascii) : bool := is_lower c || between 50 55 (byte_val c).

(** [^[first][rest]{0,max}$] *)
Definition match_head (first rest : ascii -> bool) (max : Z) (s : string) : bool :=
  match s with
  | "" => false
  | String c s => first c && sforallb rest s && (slen s <=? max)
  end.

(** [^[cls]{lo,hi}$] *)
Definition match_class (cls : ascii -> bool) (lo hi : Z) (s : string) : bool :=
  sforallb cls s && (lo <=? slen s) && (slen s <=? hi).

Lemma match_head_mono first rest max max' s :
  max <= max' -> match_head first rest max s = true -> match_head first rest max' s = true.
Proof.
  destruct s as [|c s]; [done|]. simpl. intros Hm H. simp_bool.
  rewrite !andb_true_iff, Z.leb_le. repeat split; [done..|lia].
Qed.

Fixpoint strip_prefix (p s : string) : option string :=
  match p, s with
  | "", _ => Some s
  | String c p, String d s => if Ascii.eqb c d then strip_prefix p s else None
  | String _ _, "" => None
  end.

(** [^prefix[cls]{n}$] *)
Definition match_prefixed (p : string) (cls : ascii -> bool) (n : Z) (s : string) : bool :=
  match strip_prefix p s with
  | Some r => sforallb cls r && (slen r =? n)
  | None => false
  end.

Lemma strip_prefix_app p s : strip_prefix p (p +:+ s) = Some s.
Proof.
  induction p as [|c p IH]; [done|].
  change (String c p +:+ s) with (String c (p +:+ s)). simpl. by rewrite Ascii.eqb_refl.
Qed.

Lemma strip_prefix_Some p s r : strip_prefix p s = Some r -> s = p +:+ r.
Proof.
  revert s. induction p as [|c p IH]; intros s; simpl; [by intros [= ->]|].
  destruct s as [|d s]; [done|]. destruct (Ascii.eqb_spec c d) as [->|]; [|done].
  intros ->%IH. done.
Qed.

(** ** Byte order

    Go compares strings byte by byte; so does the "C" collation. *)

Fixpoint bytewise_leb (a b : string) : bool :=
  match a, b with
  | "", _ => true
  | String _ _, "" => false
  | String c a, String d b => (byte_val c <? byte_val d) || ((byte_val c =? byte_val d) && bytewise_leb a b)
  end.

Lemma bytewise_total a b : bytewise_leb a b = true \/ bytewise_leb b a = true.
Proof.
  revert b. induction a as [|c a IH]; intros [|d b]; simpl; auto.
  rewrite !orb_true_iff, !andb_true_iff, !Z.ltb_lt, !Z.eqb_eq.
  destruct (IH b), (Z.lt_trichotomy (byte_val c) (byte_val d)) as [?|[?|?]]; auto.
Qed.

Lemma bytewise_trans a b c :
  bytewise_leb a b = true -> bytewise_leb b c = true -> bytewise_leb a c = true.
Proof.
  revert b c. induction a as [|x a IH]; intros [|y b] [|z c]; simpl; try done.
  rewrite !orb_true_iff, !andb_true_iff, !Z.ltb_lt, !Z.eqb_eq.
  intros [?|[? ?]] [?|[? ?]]; try (left; lia). right. split; [lia|eauto].
Qed.

Lemma byte_val_inj c d : byte_val c = byte_val d -> c = d.
Proof.
  unfold byte_val. intros H. apply N2Z.inj in H.
  by rewrite <- (ascii_N_embedding c), <- (ascii_N_embedding d), H.
Qed.

Lemma bytewise_antisym a b : bytewise_leb a b = true -> bytewise_leb b a = true -> a = b.
Proof.
  revert b. induction a as [|x a IH]; intros [|y b]; simpl; try done.
  rewrite !orb_true_iff, !andb_true_iff, !Z.ltb_lt, !Z.eqb_eq.
  intros [?|[Hx ?]] [?|[? ?]]; try lia. apply byte_val_inj in Hx as ->. by rewrite (IH b).
Qed.

(** ** Shared validators *)

(** [validOpaqueID] of the ingestion, finding, correlation, authorization,
    catalog, identity and tenancy packages. *)
Definition validOpaqueID (value : string) : bool :=
  let length := RuneCountInString value in
  ValidString value && (3 <=? length) && (length <=? 128) &&
  String.eqb (TrimSpace value) value && negb (has_nul value).

(** [validText] of the ingestion, finding and correlation packages. *)
Definition validText (value : string) (minRunes maxRunes : Z) : bool :=
  let length := RuneCountInString value in
  ValidString value && (minRunes <=? length) && (length <=? maxRunes) && negb (has_nul value).

Definition validOptionalText (value : string) (maxRunes : Z) : bool :=
  String.eqb value "" || validText value 1 maxRunes.

(** [finding.validOptionalBytes]. *)
Definition validOptionalBytes (value : string) (maxBytes : Z) : bool :=
  String.eqb value "" || (ValidString value && (slen value <=? maxBytes) && negb (has_nul value)).

(** [validDisplayName] of the catalog and identity packages. *)
Definition validDisplayName (value : string) : bool :=
  let length := RuneCountInString value in
  ValidString value && (1 <=? length) && (length <=? 255) &&
  String.eqb (TrimSpace value) value && negb (has_nul value).

(** Printable ASCII without spaces: the alphabet of every generated
    identifier. *)
Definition plain_char (c : ascii) : bool := (byte_val c <? 128) && (32 <? byte_val c).

Lemma plain_no_nul s : sforallb plain_char s = true -> has_nul s = false.
Proof.
  unfold has_nul. intros H. rewrite negb_false_iff. revert H. apply sforallb_impl.
  unfold plain_char. intros c Hc. simp_bool. rewrite negb_true_iff, Z.eqb_neq. lia.
Qed.

Lemma plain_ascii s : sforallb plain_char s = true -> sforallb (fun c => byte_val c <? 128) s = true.
Proof. apply sforallb_impl. unfold plain_char. intros c Hc. by apply andb_prop in Hc as [? _]. Qed.

Lemma plain_valid_id s :
  sforallb plain_char s = true -> 3 <= slen s <= 128 -> validOpaqueID s = true.
Proof.
  intros H Hlen. unfold validOpaqueID.
  destruct (runes_ascii s (plain_ascii s H)) as [-> ->].
  rewrite (TrimSpace_ascii s H), String.eqb_refl, (plain_no_nul s H).
  rewrite (proj2 (Z.leb_le 3 (slen s))), (proj2 (Z.leb_le (slen s) 128)) by lia. done.
Qed.

#[export] Hint Resolve plain_valid_id plain_no_nul plain_ascii TrimSpace_ascii : aspm.
