(* ===== verification/Encoding.v ===== *)
(** * Encodings: base32, hexadecimal, SHA-256

    The identifiers, keys and lease tokens of the program are random bytes in
    lower-case unpadded base32 behind a literal prefix; digests are SHA-256,
    shown in lower-case hexadecimal.  The functions below are executable
    definitions of the [encoding/base32], [encoding/hex] and [crypto/sha256]
    operations the source calls. *)

From S2P Require Import Prelude GoStrings.
From Stdlib Require Import Ascii.

Local Open Scope Z_scope.

(** ** Bits of a byte string, most significant bit first *)

Definition byte_bits (c : ascii) : list bool :=
  match c with Ascii b0 b1 b2 b3 b4 b5 b6 b7 => [b7; b6; b5; b4; b3; b2; b1; b0] end.

Fixpoint string_bits (s : string) : list bool :=
  match s with "" => [] | String c s => byte_bits c ++ string_bits s end.

Lemma string_bits_length s : Z.of_nat (length (string_bits s)) = 8 * slen s.
Proof.
  unfold slen. induction s as [|c s IH]; [done|]. cbn [string_bits String.length].
  rewrite length_app. destruct c. simpl length. lia.
Qed.

Lemma string_bits_inj s t : string_bits s = string_bits t -> s = t.
Proof.
  revert t. induction s as [|[] s IH]; intros [|[] t]; cbn; try done.
  intros [= -> -> -> -> -> -> -> -> H]. by rewrite (IH t).
Qed.

(** ** Base32 without padding *)

Definition bit (b : bool) : Z := if b then 1 else 0.

(** The symbol of [base32.StdEncoding] for five bits. *)
Definition base32_symbol (b4 b3 b2 b1 b0 : bool) : ascii :=
  let v := 16 * bit b4 + 8 * bit b3 + 4 * bit b2 + 2 * bit b1 + bit b0 in
  ascii_of_N (Z.to_N (if v <? 26 then 65 + v else 50 + (v - 26))).

Fixpoint base32_bits (l : list bool) : string :=
  match l with
  | [] => ""
  | a :: b :: c :: d :: e :: l => String (base32_symbol a b c d e) (base32_bits l)
  | [a; b; c; d] => String (base32_symbol a b c d false) ""
  | [a; b; c] => String (base32_symbol a b c false false) ""
  | [a; b] => String (base32_symbol a b false false false) ""
  | [a] => String (base32_symbol a false false false false) ""
  end.

(** [base32.StdEncoding.WithPadding(base32.NoPadding).EncodeToString]. *)
Definition base32_encode (s : string) : string := base32_bits (string_bits s).

Definition lower_byte (c : ascii) : ascii :=
  if is_upper c then ascii_of_N (N_of_ascii c + 32) else c.

Fixpoint smap (f : ascii -> ascii) (s : string) : string :=
  match s with "" => "" | String c s => String (f c) (smap f s) end.

(** [strings.ToLower] on ASCII text. *)
Definition ToLower (s : string) : string := smap lower_byte s.

(** The common shape of [randomID], [encodeRandomID] and [identifier]. *)
Definition encode_id (prefix random : string) : string :=
  prefix +:+ ToLower (base32_encode random).

Lemma five_ind (P : list bool -> Prop) :
  (forall l, (length l < 5)%nat -> P l) ->
  (forall a b c d e l, P l -> P (a :: b :: c :: d :: e :: l)) -> forall l, P l.
Proof.
  intros Hs Hl l. remember (length l) as n eqn:Hn. revert l Hn.
  induction n as [n IH] using lt_wf_ind. intros l ->.
  destruct l as [|a [|b [|c [|d [|e l]]]]]; try (apply Hs; simpl; lia).
  apply Hl, (IH (length l)); simpl; [lia|done].
Qed.

Lemma base32_bits_length l :
  slen (base32_bits l) = (Z.of_nat (length l) + 4) / 5.
Proof.
  induction l as [l Hl|a b c d e l IH] using five_ind.
  - destruct l as [|a [|b [|c [|d [|e l]]]]]; try done. simpl in Hl. lia.
  - cbn [base32_bits]. unfold slen in *. cbn [String.length length].
    replace (Z.of_nat (S (S (S (S (S (length l)))))) + 4)
      with (Z.of_nat (length l) + 4 + 1 * 5) by lia.
    rewrite Z.div_add, <- IH by lia. lia.
Qed.

Lemma smap_length f s : slen (smap f s) = slen s.
Proof. unfold slen. induction s as [|c s IH]; [done|]. cbn [smap String.length]. lia. Qed.

Lemma base32_encode_length s : slen (ToLower (base32_encode s)) = (8 * slen s + 4) / 5.
Proof.
  unfold ToLower, base32_encode.
  by rewrite smap_length, base32_bits_length, string_bits_length.
Qed.

Lemma encode_id_length p r : slen (encode_id p r) = slen p + (8 * slen r + 4) / 5.
Proof. unfold encode_id. by rewrite slen_app, base32_encode_length. Qed.

Lemma base32_symbol_class a b c d e : base32_char (lower_byte (base32_symbol a b c d e)) = true.
Proof. by destruct a, b, c, d, e. Qed.

Lemma base32_lower_class l : sforallb base32_char (smap lower_byte (base32_bits l)) = true.
Proof.
  induction l as [l Hl|a b c d e l IH] using five_ind.
  - destruct l as [|a [|b [|c [|d [|e l]]]]]; try (simpl in Hl; lia);
      cbn [base32_bits smap sforallb]; rewrite ?base32_symbol_class; done.
  - cbn [base32_bits smap sforallb]. by rewrite base32_symbol_class, IH.
Qed.

(** Every generated identifier is a literal prefix followed by characters of
    [[a-z2-7]]. *)
Lemma encode_id_class s : sforallb base32_char (ToLower (base32_encode s)) = true.
Proof. apply base32_lower_class. Qed.

Lemma base32_char_plain c : base32_char c = true -> plain_char c = true.
Proof.
  unfold base32_char, plain_char, is_lower, between. intros H.
  apply orb_prop in H as [H|H]; simp_bool; rewrite andb_true_iff, !Z.ltb_lt; lia.
Qed.

Lemma encode_id_plain p r :
  sforallb plain_char p = true -> sforallb plain_char (encode_id p r) = true.
Proof.
  intros Hp. unfold encode_id. rewrite sforallb_app, Hp. simpl.
  eapply sforallb_impl; [apply base32_char_plain|apply encode_id_class].
Qed.

Lemma base32_symbol_inj a b c d e a' b' c' d' e' :
  lower_byte (base32_symbol a b c d e) = lower_byte (base32_symbol a' b' c' d' e') ->
  a = a' /\ b = b' /\ c = c' /\ d = d' /\ e = e'.
Proof.
  destruct a, b, c, d, e, a', b', c', d', e'; vm_compute; intros H;
    first [by repeat split | discriminate H].
Qed.

Lemma base32_lower_inj l l' :
  length l = length l' ->
  smap lower_byte (base32_bits l) = smap lower_byte (base32_bits l') -> l = l'.
Proof.
  revert l'. induction l as [l Hl|a b c d e l IH] using five_ind; intros l' Hlen Heq.
  - destruct l as [|a [|b [|c [|d [|e l]]]]], l' as [|a' [|b' [|c' [|d' [|e' l']]]]];
      simpl in Hl, Hlen; try lia; try done;
      cbn [base32_bits smap] in Heq; injection Heq as H;
      apply base32_symbol_inj in H; naive_solver.
  - destruct l' as [|a' [|b' [|c' [|d' [|e' l']]]]]; simpl in Hlen; try lia.
    cbn [base32_bits smap] in Heq. injection Heq as H Ht.
    apply base32_symbol_inj in H as (-> & -> & -> & -> & ->).
    by rewrite (IH l') by (done || lia).
Qed.

(** Different random bytes of the same length give different identifiers. *)
Lemma encode_id_inj p r r' : slen r = slen r' -> encode_id p r = encode_id p r' -> r = r'.
Proof.
  unfold encode_id, ToLower, base32_encode. intros Hlen H%append_inj_l.
  apply string_bits_inj, base32_lower_inj; [|done].
  apply Nat2Z.inj. by rewrite !string_bits_length, Hlen.
Qed.

(** ** Hexadecimal *)

Definition hex_digit (v : Z) : ascii := ascii_of_N (Z.to_N (if v <? 10 then 48 + v else 87 + v)).

Definition hex_value (c : ascii) : option Z :=
  let v := byte_val c in
  if between 48 57 v then Some (v - 48)
  else if between 97 102 v then Some (v - 87)
  else if between 65 70 v then Some (v - 55) else None.

(** [hex.EncodeToString]. *)
Fixpoint hex_encode (s : string) : string :=
  match s with
  | "" => ""
  | String c s => String (hex_digit (byte_val c / 16)) (String (hex_digit (byte_val c `mod` 16)) (hex_encode s))
  end.

(** [hex.DecodeString]: an error for a non-hexadecimal byte or an odd length. *)
Fixpoint hex_decode (s : string) : option string :=
  match s with
  | "" => Some ""
  | String c (String d s) =>
      match hex_value c, hex_value d, hex_decode s with
      | Some hi, Some lo, Some r => Some (String (ascii_of_N (Z.to_N (16 * hi + lo))) r)
      | _, _, _ => None
      end
  | String _ "" => None
  end.

Lemma hex_byte_roundtrip c :
  hex_value (hex_digit (byte_val c / 16)) = Some (byte_val c / 16) /\
  hex_value (hex_digit (byte_val c `mod` 16)) = Some (byte_val c `mod` 16) /\
  ascii_of_N (Z.to_N (16 * (byte_val c / 16) + byte_val c `mod` 16)) = c.
Proof. destruct c as [[] [] [] [] [] [] [] []]; vm_compute; done. Qed.

Lemma hex_decode_encode s : hex_decode (hex_encode s) = Some s.
Proof.
  induction s as [|c s IH]; [done|]. cbn [hex_encode hex_decode].
  destruct (hex_byte_roundtrip c) as (-> & -> & E). by rewrite IH, E.
Qed.

Lemma hex_digits_lower c d hi lo : hex_value c = Some hi -> hex_value d = Some lo ->
  lower_byte c = c -> lower_byte d = d ->
  hex_encode (String (ascii_of_N (Z.to_N (16 * hi + lo))) "") = String c (String d "").
Proof.
  assert (forall c v, hex_value c = Some v -> lower_byte c = c -> 0 <= v < 16 /\ hex_digit v = c) as H1.
  { intros [[] [] [] [] [] [] [] []] v; vm_compute; intros [= <-]; intros [=]; repeat split; discriminate. }
  intros Hc Hd Lc Ld. destruct (H1 _ _ Hc Lc) as [Rc <-], (H1 _ _ Hd Ld) as [Rd <-]. clear -Rc Rd.
  unfold hex_encode, byte_val. rewrite N_ascii_embedding by lia. rewrite Z2N.id by lia.
  rewrite (Z.add_comm (16 * hi)), (Z.mul_comm 16), Z.div_add, Z.mod_add, Z.div_small, Z.mod_small by lia. done.
Qed.

(** Lower-case digits are the ones that encoding gives back. *)
Lemma hex_encode_decode s t : hex_decode s = Some t -> ToLower s = s -> hex_encode t = s.
Proof.
  revert t. induction s as [s IH] using (well_founded_induction (Wf_nat.well_founded_ltof _ String.length)).
  intros t. destruct s as [|c [|d s]]; cbn [hex_decode]; [by intros [= <-]|done|].
  destruct (hex_value c) as [hi|] eqn:Hc; [|done]. destruct (hex_value d) as [lo|] eqn:Hd; [|done].
  destruct (hex_decode s) as [r|] eqn:Hr; [|done]. intros [= <-]. unfold ToLower. cbn [smap]. intros [= Lc Ld Ls].
  pose proof (hex_digits_lower _ _ _ _ Hc Hd Lc Ld) as H. cbn [hex_encode] in H |- *. injection H as -> ->.
  rewrite (IH s) with (t := r); [done| |done|exact Ls]. unfold ltof. simpl. lia.
Qed.

Lemma hex_encode_length s : slen (hex_encode s) = 2 * slen s.
Proof. unfold slen. induction s as [|c s IH]; [done|]. cbn [hex_encode String.length]. lia. Qed.

Lemma hex_encode_inj s t : hex_encode s = hex_encode t -> s = t.
Proof. intros H. apply (f_equal hex_decode) in H. rewrite !hex_decode_encode in H. congruence. Qed.

(** [[0-9a-f]], the alphabet [blobstore.validSHA256] accepts. *)
Definition hex_lower (c : ascii) : bool := between 48 57 (byte_val c) || between 97 102 (byte_val c).

Lemma hex_encode_class s : sforallb hex_lower (hex_encode s) = true.
Proof.
  induction s as [|c s IH]; [done|]. cbn [hex_encode sforallb].
  rewrite IH, andb_true_r. destruct c as [[] [] [] [] [] [] [] []]; vm_compute; done.
Qed.

(** ** SHA-256 *)

Definition mask32 (z : Z) : Z := z `mod` 2 ^ 32.
Definition add32 (x y : Z) : Z := mask32 (x + y).
Definition rotr (n x : Z) : Z := Z.lor (Z.shiftr x n) (mask32 (Z.shiftl x (32 - n))).
Definition not32 (x : Z) : Z := Z.lxor x (2 ^ 32 - 1).

(** The round constants are the first 32 bits of the fractional parts of the
    cube roots of the first 64 primes (FIPS 180-4, 4.2.2); computed here once,
    bit by bit. *)
Fixpoint cube_root (bits : nat) (r n : Z) : Z :=
  match bits with
  | O => r
  | S k =>
      let r' := r + 2 ^ Z.of_nat k in
      cube_root k (if r' * r' * r' <=? n then r' else r) n
  end.

Definition is_prime (n : nat) : bool :=
  forallb (fun k => negb (Nat.eqb (n mod k) 0)) (seq 2 (n - 2)).

Definition sha_k : list Z := Eval vm_compute in
  map (fun p => mask32 (cube_root 36 0 (Z.of_nat p * 2 ^ 96)))
      (List.filter is_prime (seq 2 310)).

Record sha_state := ShaState { sa : Z; sb : Z; sc : Z; sd : Z; se : Z; sf : Z; sg : Z; sh : Z }.

Definition sha_init : sha_state :=
  ShaState 0x6a09e667 0xbb67ae85 0x3c6ef372 0xa54ff53a 0x510e527f 0x9b05688c 0x1f83d9ab 0x5be0cd19.

(** The message schedule, most recent word first. *)
Fixpoint sha_schedule (n : nat) (w : list Z) : list Z :=
  match n with
  | O => w
  | S n =>
      let at_ i := nth i w 0 in
      let s1 := Z.lxor (Z.lxor (rotr 17 (at_ 1%nat)) (rotr 19 (at_ 1%nat))) (Z.shiftr (at_ 1%nat) 10) in
      let s0 := Z.lxor (Z.lxor (rotr 7 (at_ 14%nat)) (rotr 18 (at_ 14%nat))) (Z.shiftr (at_ 14%nat) 3) in
      sha_schedule n (add32 (add32 s1 (at_ 6%nat)) (add32 s0 (at_ 15%nat)) :: w)
  end.

Definition sha_round (st : sha_state) (kw : Z * Z) : sha_state :=
  let 'ShaState a b c d e f g h := st in
  let s1 := Z.lxor (Z.lxor (rotr 6 e) (rotr 11 e)) (rotr 25 e) in
  let ch := Z.lxor (Z.land e f) (Z.land (not32 e) g) in
  let t1 := add32 (add32 (add32 h s1) (add32 ch (fst kw))) (snd kw) in
  let s0 := Z.lxor (Z.lxor (rotr 2 a) (rotr 13 a)) (rotr 22 a) in
  let maj := Z.lxor (Z.lxor (Z.land a b) (Z.land a c)) (Z.land b c) in
  ShaState (add32 t1 (add32 s0 maj)) a b c (add32 d t1) e f g.

Definition sha_block (st : sha_state) (block : list Z) : sha_state :=
  let w := rev (sha_schedule 48 (rev block)) in
  let r := foldl sha_round st (zip sha_k w) in
  ShaState (add32 (sa st) (sa r)) (add32 (sb st) (sb r)) (add32 (sc st) (sc r)) (add32 (sd st) (sd r))
           (add32 (se st) (se r)) (add32 (sf st) (sf r)) (add32 (sg st) (sg r)) (add32 (sh st) (sh r)).

Fixpoint bytes_of (s : string) : list Z :=
  match s with "" => [] | String c s => byte_val c :: bytes_of s end.

Fixpoint be_words (l : list Z) : list Z :=
  match l with
  | a :: b :: c :: d :: l => (((a * 256 + b) * 256 + c) * 256 + d) :: be_words l
  | _ => []
  end.

Definition be_bytes (n : nat) (z : Z) : list Z :=
  map (fun i => Z.shiftr z (8 * Z.of_nat i) `mod` 256) (rev (seq 0 n)).

Definition sha_pad (l : list Z) : list Z :=
  let n := Z.of_nat (length l) in
  l ++ [128] ++ repeat 0 (Z.to_nat ((55 - n) `mod` 64)) ++ be_bytes 8 (8 * n).

Fixpoint sha_blocks (fuel : nat) (st : sha_state) (words : list Z) : sha_state :=
  match fuel, words with
  | O, _ => st
  | _, [] => st
  | S fuel, _ => sha_blocks fuel (sha_block st (take 16 words)) (drop 16 words)
  end.

Definition word_string (z : Z) (rest : string) : string :=
  let byte i := ascii_of_N (Z.to_N (Z.shiftr z (8 * i) `mod` 256)) in
  String (byte 3) (String (byte 2) (String (byte 1) (String (byte 0) rest))).

(** [sha256.Sum256], the digest as a 32-byte string. *)
Definition sha256 (s : string) : string :=
  let words := be_words (sha_pad (bytes_of s)) in
  let r := sha_blocks (length words) sha_init words in
  word_string (sa r) (word_string (sb r) (word_string (sc r) (word_string (sd r)
    (word_string (se r) (word_string (sf r) (word_string (sg r) (word_string (sh r) ""))))))).

#[global] Arguments sha256 : simpl never.

Example sha256_abc :
  hex_encode (sha256 "abc") = "ba7816bf8f01cfea414140de5dae2223b00361a396177a9cb410ff61f20015ad".
Proof. vm_compute. reflexivity. Qed.

Example sha256_two_blocks :
  hex_encode (sha256 "abcdbcdecdefdefgefghfghighijhijkijkljklmklmnlmnomnopnopq")
  = "248d6a61d20638b8e5c026930c3e6039a33ce45964ff2167f6ecedd419db06c1".
Proof. vm_compute. reflexivity. Qed.

Lemma sha256_length s : slen (sha256 s) = 32.
Proof. reflexivity. Qed.

#[export] Hint Resolve sha256_length encode_id_plain encode_id_class : aspm.
