(* ===== verification/Txn.v ===== *)
(** * Database programs

    The Go stores talk to PostgreSQL through [database/sql]: they begin a
    transaction, run statements, return early on errors (a deferred
    [Rollback] then discards the transaction) and commit; single statements
    outside a transaction commit by themselves.  Any of these calls can fail
    because the connection fails, and a failed commit may or may not have
    taken effect.

    [prog D E A] is a program over a database of type [D] that returns a
    result of type [A] or an error of type [E]; [run] executes it against a
    committed database, a transaction's working copy and a list of faults.
    [atomic_run] says what faults can do to a program that uses one
    transaction, and [zoom] runs a component's program on its part of a
    larger database. *)

From S2P Require Import Prelude.

(** What the connection does at one call: it works, it fails and the call has
    no effect, or the effect happens and the acknowledgement is lost. *)
Inductive fault := Healthy | Broken | Lost.

Section Programs.
Context {D E : Type}.

Inductive prog (A : Type) : Type :=
| Ret (r : result E A)
| Begin (e : E) (k : prog A)
| Stmt (B : Type) (e : E) (f : D -> option (B * D)) (k : B -> prog A)
| Auto (B : Type) (e : E) (f : D -> option (B * D)) (k : B -> prog A)
| Commit (e : E) (k : prog A).

Arguments Ret {A} r.
Arguments Begin {A} e k.
Arguments Stmt {A B} e f k.
Arguments Auto {A B} e f k.
Arguments Commit {A} e k.

Fixpoint bind {A B} (p : prog A) (k : A -> prog B) : prog B :=
  match p with
  | Ret (Ok a) => k a
  | Ret (Err e) => Ret (Err e)
  | Begin e p => Begin e (bind p k)
  | Stmt e f p => Stmt e f (fun b => bind (p b) k)
  | Auto e f p => Auto e f (fun b => bind (p b) k)
  | Commit e p => Commit e (bind p k)
  end.

Record session := Session {
  committed : D;        (* what every other connection sees *)
  working : D;          (* the open transaction's view *)
  faults : list fault   (* what the connection will do, call by call *)
}.

Definition next_fault (s : session) : fault :=
  match faults s with [] => Healthy | x :: _ => x end.
Definition tick (s : session) : session := Session (committed s) (working s) (tail (faults s)).

Fixpoint run {A} (p : prog A) (s : session) : result E A * session :=
  match p with
  | Ret r => (r, s)
  | Begin e k =>
      let s' := tick s in
      match next_fault s with
      | Healthy => run k (Session (committed s') (committed s') (faults s'))
      | _ => (Err e, s')
      end
  | Stmt e f k =>
      let s' := tick s in
      match next_fault s, f (working s') with
      | Healthy, Some (b, w) => run (k b) (Session (committed s') w (faults s'))
      | _, _ => (Err e, s')
      end
  | Auto e f k =>
      let s' := tick s in
      match next_fault s, f (committed s') with
      | Healthy, Some (b, c) => run (k b) (Session c c (faults s'))
      | Lost, Some (_, c) => (Err e, Session c c (faults s'))
      | _, _ => (Err e, s')
      end
  | Commit e k =>
      let s' := tick s in
      match next_fault s with
      | Healthy => run k (Session (working s') (working s') (faults s'))
      | Broken => (Err e, s')
      | Lost => (Err e, Session (working s') (working s') (faults s'))
      end
  end.

(** Running a program on a database with a given fault plan, and with a
    connection that never fails. *)
Definition run_on {A} (p : prog A) (d : D) (fs : list fault) : result E A * D :=
  let '(r, s) := run p (Session d d fs) in (r, committed s).
Definition exec {A} (p : prog A) (d : D) : result E A * D := run_on p d [].

Lemma run_bind {A B} (p : prog A) (k : A -> prog B) s :
  run (bind p k) s =
  match run p s with
  | (Ok a, s') => run (k a) s'
  | (Err e, s') => (Err e, s')
  end.
Proof.
  revert s. induction p as [[a|e]|e p IH|X e f p IH|X e f p IH|e p IH]; intros s; simpl; try done.
  - destruct (next_fault s); auto.
  - destruct (next_fault s), (f (working s)) as [[b w]|]; auto.
  - destruct (next_fault s), (f (committed s)) as [[b w]|]; auto.
  - destruct (next_fault s); auto.
Qed.

(** Statements that only read, and statements that cannot violate a
    constraint. *)
Definition query {A} (e : E) (f : D -> A) : prog A :=
  Stmt e (fun d => Some (f d, d)) (fun a => Ret (Ok a)).
Definition update {A} (e : E) (f : D -> A * D) : prog A :=
  Stmt e (fun d => Some (f d)) (fun a => Ret (Ok a)).
Definition statement {A} (e : E) (f : D -> option (A * D)) : prog A :=
  Stmt e f (fun a => Ret (Ok a)).
Definition begin (e : E) : prog unit := Begin e (Ret (Ok tt)).
Definition commit (e : E) : prog unit := Commit e (Ret (Ok tt)).
Definition autocommit {A} (e : E) (f : D -> option (A * D)) : prog A :=
  Auto e f (fun a => Ret (Ok a)).
Definition fail {A} (e : E) : prog A := Ret (Err e).
Definition done_with {A} (a : A) : prog A := Ret (Ok a).

(** One healthy statement at a time. *)
Lemma run_autocommit {A B} (e : E) (f : D -> option (B * D)) (k : B -> prog A) c w :
  run (bind (autocommit e f) k) (Session c w []) =
  match f c with Some (b, c') => run (k b) (Session c' c' []) | None => (Err e, Session c w []) end.
Proof. simpl. by destruct (f c) as [[b c']|]. Qed.

Lemma run_begin {A} (e : E) (k : unit -> prog A) c w :
  run (bind (begin e) k) (Session c w []) = run (k tt) (Session c c []).
Proof. done. Qed.

Lemma run_statement {A B} (e : E) (f : D -> option (B * D)) (k : B -> prog A) c w :
  run (bind (statement e f) k) (Session c w []) =
  match f w with Some (b, w') => run (k b) (Session c w' []) | None => (Err e, Session c w []) end.
Proof. simpl. by destruct (f w) as [[b w']|]. Qed.

(** The same program with its errors renamed: [fmt.Errorf] around a call. *)
Fixpoint map_error {A} (g : E -> E) (p : prog A) : prog A :=
  match p with
  | Ret (Ok a) => Ret (Ok a)
  | Ret (Err e) => Ret (Err (g e))
  | Begin e k => Begin (g e) (map_error g k)
  | Stmt e f k => Stmt (g e) f (fun b => map_error g (k b))
  | Auto e f k => Auto (g e) f (fun b => map_error g (k b))
  | Commit e k => Commit (g e) (map_error g k)
  end.

Lemma run_map_error {A} g (p : prog A) s :
  run (map_error g p) s =
  (match fst (run p s) with Ok a => Ok a | Err e => Err (g e) end, snd (run p s)).
Proof.
  revert s. induction p as [[a|e]|e p IH|X e f p IH|X e f p IH|e p IH]; intros s; simpl; try done.
  - destruct (next_fault s); auto.
  - destruct (next_fault s), (f (working s)) as [[b w]|]; auto.
  - destruct (next_fault s), (f (committed s)) as [[b w]|]; auto.
  - destruct (next_fault s); auto.
Qed.

(** [result, err := p(); ...]: the caller looks at the result.  A call that the
    connection fails still ends the program with its own error, which callers
    pass on. *)
Fixpoint with_result {A B} (p : prog A) (k : result E A -> prog B) : prog B :=
  match p with
  | Ret r => k r
  | Begin e p => Begin e (with_result p k)
  | Stmt e f p => Stmt e f (fun b => with_result (p b) k)
  | Auto e f p => Auto e f (fun b => with_result (p b) k)
  | Commit e p => Commit e (with_result p k)
  end.

(** A program that answers met no fault: its answer and its effect are those
    of a healthy connection. *)
Lemma run_ok_healthy {A} (p : prog A) c w fs a :
  fst (run p (Session c w fs)) = Ok a ->
  fst (run p (Session c w [])) = Ok a /\
  committed (snd (run p (Session c w []))) = committed (snd (run p (Session c w fs))).
Proof.
  revert c w fs. induction p as [[a'|e]|e p IH|X e f p IH|X e f p IH|e p IH]; intros c w fs; simpl; try done;
    unfold next_fault, tick; simpl.
  - destruct (match fs with [] => Healthy | x :: _ => x end); simpl; [apply IH|done..].
  - destruct (match fs with [] => Healthy | x :: _ => x end), (f w) as [[b w']|]; simpl; try done. apply IH.
  - destruct (match fs with [] => Healthy | x :: _ => x end), (f c) as [[b c']|]; simpl; try done. apply IH.
  - destruct (match fs with [] => Healthy | x :: _ => x end); simpl; [apply IH|done..].
Qed.

Lemma run_on_ok {A} (p : prog A) d fs a d' : run_on p d fs = (Ok a, d') -> exec p d = (Ok a, d').
Proof.
  unfold exec, run_on. intros H. destruct (run_ok_healthy p d d fs a) as [H1 H2].
  - destruct (run p (Session d d fs)). simpl. congruence.
  - destruct (run p (Session d d fs)), (run p (Session d d [])); simpl in *. congruence.
Qed.

(** The errors that a program's calls report, as opposed to those it returns
    after looking at what it read. *)
Inductive calls_report {A} (P : E -> Prop) : prog A -> Prop :=
| report_ret r : calls_report P (Ret r)
| report_begin e k : P e -> calls_report P k -> calls_report P (Begin e k)
| report_stmt B e f (k : B -> prog A) : P e -> (forall b, calls_report P (k b)) -> calls_report P (Stmt e f k)
| report_auto B e f (k : B -> prog A) : P e -> (forall b, calls_report P (k b)) -> calls_report P (Auto e f k)
| report_commit e k : P e -> calls_report P k -> calls_report P (Commit e k).

(** An error is one of a call, or it would have been returned on a healthy
    connection. *)
Lemma run_error {A} (P : E -> Prop) (p : prog A) c w fs e : calls_report P p ->
  fst (run p (Session c w fs)) = Err e -> P e \/ fst (run p (Session c w [])) = Err e.
Proof.
  intros H. revert c w fs. induction H as [r|e' k He Hk IH|X e' f k He Hk IH|X e' f k He Hk IH|e' k He Hk IH];
    intros c w fs; simpl; [auto|..]; unfold next_fault, tick; simpl;
    destruct (match fs with [] => Healthy | x :: _ => x end); simpl; repeat case_match; simpl;
    try (intros [= <-]; by left); eauto.
Qed.

Lemma run_on_error {A} (P : E -> Prop) (p : prog A) d fs e d' : calls_report P p -> run_on p d fs = (Err e, d') ->
  P e \/ exists d'', exec p d = (Err e, d'').
Proof.
  unfold exec, run_on. intros Hp Hx. destruct (run_error P p d d fs e Hp) as [?|Hr]; [|by left|right].
  - destruct (run p (Session d d fs)). simpl. congruence.
  - destruct (run p (Session d d [])). simpl in *. subst. eauto.
Qed.

(** ** Atomicity

    [in_tx] programs run inside an open transaction and commit at most once,
    as their last call; [read_only] programs run single statements that
    change nothing; an [atomic] program opens one transaction, or makes one
    statement on the pool and only reads afterwards. *)
Inductive in_tx {A} : prog A -> Prop :=
| in_tx_ret r : in_tx (Ret r)
| in_tx_stmt B e f (k : B -> prog A) : (forall b, in_tx (k b)) -> in_tx (Stmt e f k)
| in_tx_commit e r : in_tx (Commit e (Ret r)).

Inductive no_commit {A} : prog A -> Prop :=
| no_commit_ret r : no_commit (Ret r)
| no_commit_stmt B e f (k : B -> prog A) : (forall b, no_commit (k b)) -> no_commit (Stmt e f k).

Inductive read_only {A} : prog A -> Prop :=
| read_only_ret r : read_only (Ret r)
| read_only_auto B e f (k : B -> prog A) :
    (forall d b d', f d = Some (b, d') -> d' = d) -> (forall b, read_only (k b)) ->
    read_only (Auto e f k).

Inductive atomic {A} : prog A -> Prop :=
| atomic_ret r : atomic (Ret r)
| atomic_begin e k : in_tx k -> atomic (Begin e k)
| atomic_auto B e f (k : B -> prog A) : (forall b, read_only (k b)) -> atomic (Auto e f k).

Lemma no_commit_in_tx {A} (p : prog A) : no_commit p -> in_tx p.
Proof. induction 1; constructor; auto. Qed.

Lemma no_commit_bind {A B} (p : prog A) (k : A -> prog B) :
  no_commit p -> (forall a, no_commit (k a)) -> no_commit (bind p k).
Proof. intros H Hk. induction H as [[a|e]|]; simpl; [auto|constructor..]; auto. Qed.

Lemma in_tx_bind {A B} (p : prog A) (k : A -> prog B) :
  no_commit p -> (forall a, in_tx (k a)) -> in_tx (bind p k).
Proof. intros H Hk. induction H as [[a|e]|]; simpl; [auto|constructor..]; auto. Qed.

(** The statements of a program that does not commit, on the working copy
    alone. *)
Definition run_in {A} (p : prog A) (w : D) : result E A * D :=
  let '(r, s) := run p (Session w w []) in (r, working s).

Lemma no_commit_run {A} (p : prog A) c w : no_commit p ->
  run p (Session c w []) = (fst (run_in p w), Session c (snd (run_in p w)) []).
Proof.
  intros H. unfold run_in.
  assert (forall c w w0, run p (Session c w []) =
    (fst (run p (Session w0 w [])), Session c (working (snd (run p (Session w0 w [])))) [])) as Hr.
  { induction H as [r|B e f k Hk IH]; intros c' w' w0; simpl; [done|].
    destruct (f w') as [[b w'']|]; [apply IH|done]. }
  rewrite (Hr c w w). by destruct (run p (Session w w [])).
Qed.

Lemma run_in_statement {A} (e : E) (f : D -> option (A * D)) w :
  run_in (statement e f) w = match f w with Some (a, w') => (Ok a, w') | None => (Err e, w) end.
Proof. unfold run_in. simpl. by destruct (f w) as [[a w']|]. Qed.

Lemma run_in_done {A} (a : A) w : run_in (done_with a) w = (Ok a, w).
Proof. done. Qed.

Lemma run_in_query {A} (e : E) (f : D -> A) w : run_in (query e f) w = (Ok (f w), w).
Proof. done. Qed.

Lemma run_in_bind {A B} (p : prog A) (k : A -> prog B) w : no_commit p -> (forall a, no_commit (k a)) ->
  run_in (bind p k) w = match run_in p w with (Ok a, w') => run_in (k a) w' | (Err e, w') => (Err e, w') end.
Proof.
  intros Hp Hk. unfold run_in at 1. rewrite run_bind, no_commit_run by done.
  destruct (run_in p w) as [[a|e] w']; simpl; [|done].
  rewrite no_commit_run by done. simpl. by destruct (run_in (k a) w').
Qed.

(** What faults can do to a program: nothing happened, it ran as on a healthy
    connection, or it took effect and only the answer is lost. *)
Definition fault_outcome {A} (healthy : result E A * D) (d : D) (actual : result E A * D) : Prop :=
  actual = healthy \/
  (exists e, fst actual = Err e) /\ (snd actual = d \/ snd actual = snd healthy).

Lemma in_tx_run {A} (p : prog A) c w fs : in_tx p ->
  let out s := (fst (run p s), committed (snd (run p s))) in
  fault_outcome (out (Session c w [])) c (out (Session c w fs)).
Proof.
  intros H. revert w fs. induction H as [r|B e f k Hk IH|e r]; intros w fs; simpl.
  - by left.
  - unfold next_fault, tick; simpl.
    destruct (match fs with [] => Healthy | x :: _ => x end), (f w) as [[b w']|];
      simpl; try (right; split; eauto; fail). apply IH.
  - unfold next_fault, tick; simpl.
    destruct (match fs with [] => Healthy | x :: _ => x end); simpl; [by left|right; eauto..].
Qed.

Lemma read_only_run {A} (p : prog A) d w fs : read_only p ->
  committed (snd (run p (Session d w fs))) = d /\
  (fst (run p (Session d w fs)) = fst (run p (Session d w [])) \/
   exists e, fst (run p (Session d w fs)) = Err e).
Proof.
  intros H. revert w fs. induction H as [r|B e f k Hf Hk IH]; intros w fs; simpl; [auto|].
  unfold next_fault, tick; simpl.
  destruct (match fs with [] => Healthy | x :: _ => x end), (f d) as [[b d']|] eqn:Ef;
    simpl; try (split; eauto; fail); apply Hf in Ef as ->.
  apply IH.
Qed.

Theorem atomic_run {A} (p : prog A) d fs : atomic p -> fault_outcome (exec p d) d (run_on p d fs).
Proof.
  intros H. unfold exec, run_on. destruct H as [r|e k Hk|B e f k Hk]; simpl.
  - by left.
  - unfold next_fault, tick; simpl.
    destruct (match fs with [] => Healthy | x :: _ => x end); simpl; [|right; eauto..].
    pose proof (in_tx_run k d d (tail fs) Hk) as H. simpl in H. revert H.
    by destruct (run k (Session d d [])), (run k (Session d d (tail fs))).
  - unfold next_fault, tick; simpl.
    destruct (match fs with [] => Healthy | x :: _ => x end), (f d) as [[b d']|];
      simpl; try (right; eauto; fail).
    + destruct (read_only_run (k b) d' d' (tail fs) (Hk b)) as [Hc Hr].
      destruct (read_only_run (k b) d' d' [] (Hk b)) as [Hc' _].
      destruct (run (k b) (Session d' d' [])), (run (k b) (Session d' d' (tail fs))); simpl in *.
      rewrite Hc, Hc'. destruct Hr as [->|[e' ->]]; [by left|right; simpl; eauto].
    + destruct (read_only_run (k b) d' d' [] (Hk b)) as [Hc' _].
      destruct (run (k b) (Session d' d' [])); simpl in *. rewrite Hc'. right. simpl. eauto.
Qed.

Lemma atomic_db {A} (p : prog A) d fs : atomic p ->
  snd (run_on p d fs) = d \/ snd (run_on p d fs) = snd (exec p d).
Proof. intros H. destruct (atomic_run p d fs H) as [->|[_ ?]]; auto. Qed.

End Programs.

Arguments prog D E A : clear implicits.
Arguments session D : clear implicits.
Arguments Ret {D E A} r.
Arguments Begin {D E A} e k.
Arguments Stmt {D E A B} e f k.
Arguments Auto {D E A B} e f k.
Arguments Commit {D E A} e k.

(** ** Programs on a part of a database

    A component's program runs inside a larger database through a lens on its
    tables; its errors are wrapped on the way. *)
Class Lens (S D : Type) := {
  view : S -> D;
  put_back : D -> S -> S;
  view_put : forall d s, view (put_back d s) = d;
  put_view : forall s, put_back (view s) s = s;
  put_put : forall d d' s, put_back d (put_back d' s) = put_back d s
}.

Definition map_err {E E' A} (g : E -> E') (r : result E A) : result E' A :=
  match r with Ok a => Ok a | Err e => Err (g e) end.

Section Zoom.
Context {S D E E' : Type} {L : Lens S D} (g : E -> E').

Definition zoom_statement {B} (f : D -> option (B * D)) (s : S) : option (B * S) :=
  match f (view s) with Some (b, d) => Some (b, put_back d s) | None => None end.

Fixpoint zoom {A} (p : prog D E A) : prog S E' A :=
  match p with
  | Ret r => Ret (map_err g r)
  | Begin e k => Begin (g e) (zoom k)
  | Stmt e f k => Stmt (g e) (zoom_statement f) (fun b => zoom (k b))
  | Auto e f k => Auto (g e) (zoom_statement f) (fun b => zoom (k b))
  | Commit e k => Commit (g e) (zoom k)
  end.

Lemma zoom_no_commit {A} (p : prog D E A) : no_commit p -> no_commit (zoom p).
Proof. induction 1; simpl; constructor; auto. Qed.

(** Everything outside the lens is left alone. *)
Lemma run_zoom {A} (p : prog D E A) s c w fs :
  run (zoom p) (Session (put_back c s) (put_back w s) fs) =
  let '(r, x) := run p (Session c w fs) in
  (map_err g r, Session (put_back (committed x) s) (put_back (working x) s) (faults x)).
Proof.
  revert c w fs. induction p as [r|e p IH|X e f p IH|X e f p IH|e p IH]; intros c w fs; simpl; try done;
    unfold next_fault, tick, zoom_statement; simpl.
  - destruct (match fs with [] => Healthy | x :: _ => x end); simpl; [apply IH|done..].
  - rewrite view_put. destruct (match fs with [] => Healthy | x :: _ => x end), (f w) as [[b w']|]; simpl;
      rewrite ?put_put; [apply IH|done..].
  - rewrite view_put. destruct (match fs with [] => Healthy | x :: _ => x end), (f c) as [[b c']|]; simpl;
      rewrite ?put_put; [apply IH|done..].
  - destruct (match fs with [] => Healthy | x :: _ => x end); simpl; [apply IH|done..].
Qed.

Lemma run_on_zoom {A} (p : prog D E A) s fs :
  run_on (zoom p) s fs =
  (map_err g (fst (run_on p (view s) fs)), put_back (snd (run_on p (view s) fs)) s).
Proof.
  unfold run_on. rewrite <- (put_view s) at 1 2. rewrite run_zoom.
  by destruct (run p (Session (view s) (view s) fs)).
Qed.

Lemma run_in_zoom {A} (p : prog D E A) s :
  run_in (zoom p) s = (map_err g (fst (run_in p (view s))), put_back (snd (run_in p (view s))) s).
Proof.
  unfold run_in. rewrite <- (put_view s) at 1 2. rewrite run_zoom.
  by destruct (run p (Session (view s) (view s) [])).
Qed.
End Zoom.

Notation "'let!' x := p 'in' k" := (bind p (fun x => k))
  (at level 10, x name, p at level 100, k at level 200,
   format "'[v' 'let!'  x  :=  p  'in' '/' k ']'") : aspm_scope.
Notation "'do!' p 'in' k" := (bind p (fun _ => k))
  (at level 10, p at level 100, k at level 200,
   format "'[v' 'do!'  p  'in' '/' k ']'") : aspm_scope.

(** The connection a statement runs on: the pool, where it commits at once, or
    a caller's transaction (the [sqlExecutor] interface, implemented by
    [*sql.DB] and [*sql.Tx]). *)
Class Executor := { on_connection : forall {D E A : Type}, E -> (D -> option (A * D)) -> prog D E A }.

Definition OnPool : Executor := {| on_connection D E A := @autocommit D E A |}.
Definition OnTx : Executor := {| on_connection D E A := @statement D E A |}.

(** An answer that passes a test, by evaluation. *)
Lemma run_answer {D E A} (p : prog D E A) d fs (f : A -> bool) :
  match fst (run_on p d fs) with Ok a => f a | Err _ => false end = true ->
  exists a, run_on p d fs = (Ok a, snd (run_on p d fs)) /\ f a = true.
Proof. destruct (run_on p d fs) as [[a|e] d']; simpl; [eauto|done]. Qed.
