(* ===== verification/Json.v ===== *)
(** * JSON and time formatting

    The parts of [encoding/json] and [time] the program relies on: decoding
    one value with [UseNumber] (numbers keep their text, invalid UTF-8 is
    replaced, lone surrogates are replaced), [json.Valid], decoding into a
    [map[string]any] (the last duplicate of a key wins), [json.Marshal]
    (sorted map keys, HTML-safe string escapes) and the RFC 3339 layout with
    nanoseconds. *)

From S2P Require Import Prelude GoStrings Encoding.
From Stdlib Require Import Ascii.

Local Open Scope Z_scope.

Inductive json :=
| JNull
| JBool (b : bool)
| JNum (literal : string)
| JStr (s : string)
| JArr (l : list json)
| JObj (members : list (string * json)).

(** ** Decoding *)

Definition is_ws (c : ascii) : bool := is_byte 32 c || is_byte 9 c || is_byte 10 c || is_byte 13 c.

Fixpoint skip_ws (s : string) : string :=
  match s with
  | String c s' => if is_ws c then skip_ws s' else s
  | "" => ""
  end.

Definition chr (z : Z) : ascii := ascii_of_N (Z.to_N z).

(** [utf8.AppendRune] for a valid code point. *)
Definition encode_rune (cp : Z) : string :=
  if cp <? 128 then String (chr cp) ""
  else if cp <? 2048 then
    String (chr (192 + cp / 64)) (String (chr (128 + cp `mod` 64)) "")
  else if cp <? 65536 then
    String (chr (224 + cp / 4096))
      (String (chr (128 + (cp / 64) `mod` 64)) (String (chr (128 + cp `mod` 64)) ""))
  else
    String (chr (240 + cp / 262144)) (String (chr (128 + (cp / 4096) `mod` 64))
      (String (chr (128 + (cp / 64) `mod` 64)) (String (chr (128 + cp `mod` 64)) ""))).

Definition replacement : string := encode_rune 65533.

(** Go replaces every byte that is not part of a valid encoding by U+FFFD. *)
Definition sanitize (s : string) : string :=
  foldr (fun r acc => match r with Rune _ enc => enc | Bad _ => replacement end +:+ acc) "" (runes s).

Definition hex4 (a b c d : ascii) : option Z :=
  match hex_value a, hex_value b, hex_value c, hex_value d with
  | Some a, Some b, Some c, Some d => Some (((a * 16 + b) * 16 + c) * 16 + d)
  | _, _, _, _ => None
  end.

Definition high_surrogate (z : Z) : bool := between 55296 56319 z.
Definition low_surrogate (z : Z) : bool := between 56320 57343 z.

(** The characters after a backslash that stand for one byte. *)
Definition simple_escape (c : ascii) : option ascii :=
  let v := byte_val c in
  if (v =? 34) || (v =? 92) || (v =? 47) then Some c
  else if v =? 98 then Some (chr 8)
  else if v =? 102 then Some (chr 12)
  else if v =? 110 then Some (chr 10)
  else if v =? 114 then Some (chr 13)
  else if v =? 116 then Some (chr 9)
  else None.

Definition app_fst (p : string) (r : option (string * string)) : option (string * string) :=
  match r with Some (a, b) => Some (p +:+ a, b) | None => None end.

(** The body of a string literal after its opening quote: the text with
    escapes resolved, and the input after the closing quote. *)
Fixpoint string_body (s : string) : option (string * string) :=
  match s with
  | "" => None
  | String c s1 =>
      if is_byte 34 c then Some ("", s1)
      else if is_byte 92 c then
        match s1 with
        | "" => None
        | String e s2 =>
            if is_byte 117 e then
              match s2 with
              | String h1 (String h2 (String h3 (String h4 s3))) =>
                  match hex4 h1 h2 h3 h4 with
                  | None => None
                  | Some u =>
                      if high_surrogate u then
                        match s3 with
                        | String b (String v (String k1 (String k2 (String k3 (String k4 s4))))) =>
                            match hex4 k1 k2 k3 k4 with
                            | Some l =>
                                if is_byte 92 b && is_byte 117 v && low_surrogate l
                                then app_fst (encode_rune (65536 + (u - 55296) * 1024 + (l - 56320)))
                                             (string_body s4)
                                else app_fst replacement (string_body s3)
                            | None => app_fst replacement (string_body s3)
                            end
                        | _ => app_fst replacement (string_body s3)
                        end
                      else if low_surrogate u then app_fst replacement (string_body s3)
                      else app_fst (encode_rune u) (string_body s3)
                  end
              | _ => None
              end
            else
              match simple_escape e with
              | Some x => app_fst (String x "") (string_body s2)
              | None => None
              end
        end
      else if byte_val c <? 32 then None
      else app_fst (String c "") (string_body s1)
  end.

Definition parse_string (s : string) : option (string * string) :=
  match string_body s with Some (a, r) => Some (sanitize a, r) | None => None end.

Fixpoint span_digits (s : string) : string * string :=
  match s with
  | String c s' => if is_digit c then let '(a, r) := span_digits s' in (String c a, r) else ("", s)
  | "" => ("", "")
  end.

Definition number_integer (s : string) : option (string * string) :=
  match s with
  | String c s' =>
      if is_byte 48 c then Some (String c "", s')
      else if is_digit c then Some (span_digits s) else None
  | "" => None
  end.

Definition number_fraction (s : string) : option (string * string) :=
  match s with
  | String c s' =>
      if is_byte 46 c then
        match span_digits s' with
        | ("", _) => None
        | (d, r) => Some (String c d, r)
        end
      else Some ("", s)
  | "" => Some ("", s)
  end.

Definition number_exponent (s : string) : option (string * string) :=
  match s with
  | String c s' =>
      if is_byte 101 c || is_byte 69 c then
        let '(sign, rest) :=
          match s' with
          | String d r => if is_byte 43 d || is_byte 45 d then (String d "", r) else ("", s')
          | "" => ("", s')
          end in
        match span_digits rest with
        | ("", _) => None
        | (d, r) => Some (String c (sign +:+ d), r)
        end
      else Some ("", s)
  | "" => Some ("", s)
  end.

Definition parse_number (s : string) : option (string * string) :=
  let '(sign, s0) :=
    match s with
    | String c s' => if is_byte 45 c then (String c "", s') else ("", s)
    | "" => ("", s)
    end in
  match number_integer s0 with
  | None => None
  | Some (i, s1) =>
      match number_fraction s1 with
      | None => None
      | Some (f, s2) =>
          match number_exponent s2 with
          | None => None
          | Some (e, s3) => Some (sign +:+ i +:+ f +:+ e, s3)
          end
      end
  end.

Definition max_nesting : Z := 10000.

(** Recursive descent.  Every call either consumes a byte or is followed by
    one that does, so three times the length of the input is enough fuel. *)
Fixpoint parse_value (fuel : nat) (depth : Z) (s : string) : option (json * string) :=
  match fuel with
  | O => None
  | S fuel =>
      match skip_ws s with
      | "" => None
      | String c s' =>
          if is_byte 123 c then
            if max_nesting <=? depth then None
            else match skip_ws s' with
                 | String d r =>
                     if is_byte 125 d then Some (JObj [], r)
                     else match parse_members fuel (depth + 1) s' with
                          | Some (l, r) => Some (JObj l, r)
                          | None => None
                          end
                 | "" => None
                 end
          else if is_byte 91 c then
            if max_nesting <=? depth then None
            else match skip_ws s' with
                 | String d r =>
                     if is_byte 93 d then Some (JArr [], r)
                     else match parse_elements fuel (depth + 1) s' with
                          | Some (l, r) => Some (JArr l, r)
                          | None => None
                          end
                 | "" => None
                 end
          else if is_byte 34 c then
            match parse_string s' with Some (a, r) => Some (JStr a, r) | None => None end
          else match strip_prefix "null" (String c s') with
               | Some r => Some (JNull, r)
               | None =>
                   match strip_prefix "true" (String c s') with
                   | Some r => Some (JBool true, r)
                   | None =>
                       match strip_prefix "false" (String c s') with
                       | Some r => Some (JBool false, r)
                       | None =>
                           match parse_number (String c s') with
                           | Some (n, r) => Some (JNum n, r)
                           | None => None
                           end
                       end
                   end
               end
      end
  end
with parse_elements (fuel : nat) (depth : Z) (s : string) : option (list json * string) :=
  match fuel with
  | O => None
  | S fuel =>
      match parse_value fuel depth s with
      | None => None
      | Some (v, r) =>
          match skip_ws r with
          | String c r' =>
              if is_byte 44 c then
                match parse_elements fuel depth r' with
                | Some (l, r'') => Some (v :: l, r'')
                | None => None
                end
              else if is_byte 93 c then Some ([v], r') else None
          | "" => None
          end
      end
  end
with parse_members (fuel : nat) (depth : Z) (s : string) : option (list (string * json) * string) :=
  match fuel with
  | O => None
  | S fuel =>
      match skip_ws s with
      | String q s1 =>
          if negb (is_byte 34 q) then None
          else match parse_string s1 with
               | None => None
               | Some (k, s2) =>
                   match skip_ws s2 with
                   | String colon s3 =>
                       if negb (is_byte 58 colon) then None
                       else match parse_value fuel depth s3 with
                            | None => None
                            | Some (v, r) =>
                                match skip_ws r with
                                | String c r' =>
                                    if is_byte 44 c then
                                      match parse_members fuel depth r' with
                                      | Some (l, r'') => Some ((k, v) :: l, r'')
                                      | None => None
                                      end
                                    else if is_byte 125 c then Some ([(k, v)], r') else None
                                | "" => None
                                end
                            end
                   | "" => None
                   end
               end
      | "" => None
      end
  end.

(** [Decoder.Decode] of the first value of a stream. *)
Definition decode_value (s : string) : option (json * string) :=
  parse_value (3 * String.length s + 3) 0 s.

(** The one value that makes up a whole text. *)
Definition decode_text (s : string) : option json :=
  match decode_value s with
  | Some (v, r) => if String.eqb (skip_ws r) "" then Some v else None
  | None => None
  end.

(** [json.Valid]. *)
Definition json_valid (s : string) : bool :=
  match decode_text s with Some _ => true | None => false end.

(** ** Maps: sorted, without duplicates *)

Definition string_ltb (a b : string) : bool :=
  match String.compare a b with Lt => true | _ => false end.

(** Insert a member into a list sorted by key; an existing key keeps the new
    value. *)
Fixpoint put_member {A} (k : string) (v : A) (l : list (string * A)) : list (string * A) :=
  match l with
  | [] => [(k, v)]
  | (k', v') :: l' =>
      if String.eqb k k' then (k, v) :: l'
      else if string_ltb k k' then (k, v) :: l
      else (k', v') :: put_member k v l'
  end.

Definition sort_members {A} (l : list (string * A)) : list (string * A) :=
  foldl (fun acc kv => put_member (fst kv) (snd kv) acc) [] l.

(** The value that decoding into [any] builds and [Marshal] prints back. *)
Fixpoint to_any (v : json) : json :=
  match v with
  | JArr l => JArr (map to_any l)
  | JObj l => JObj (sort_members (map (fun kv => (fst kv, to_any (snd kv))) l))
  | _ => v
  end.

(** ** Encoding *)

Definition quoted (s : string) : string := String (chr 34) (s +:+ String (chr 34) "").

Definition escape_u (cp : Z) : string :=
  "\u" +:+ String (hex_digit ((cp / 4096) `mod` 16)) (String (hex_digit ((cp / 256) `mod` 16))
    (String (hex_digit ((cp / 16) `mod` 16)) (String (hex_digit (cp `mod` 16)) ""))).

Definition escape_rune (r : rune) : string :=
  match r with
  | Bad _ => "\ufffd"
  | Rune cp enc =>
      if cp =? 34 then String (chr 92) (String (chr 34) "")
      else if cp =? 92 then "\\"
      else if cp =? 8 then "\b"
      else if cp =? 12 then "\f"
      else if cp =? 10 then "\n"
      else if cp =? 13 then "\r"
      else if cp =? 9 then "\t"
      else if (cp <? 32) || (cp =? 60) || (cp =? 62) || (cp =? 38) || (cp =? 8232) || (cp =? 8233)
      then escape_u cp
      else enc
  end.

Definition encode_string (s : string) : string :=
  quoted (foldr (fun r acc => escape_rune r +:+ acc) "" (runes s)).

Fixpoint join (sep : string) (l : list string) : string :=
  match l with
  | [] => ""
  | [x] => x
  | x :: l => x +:+ sep +:+ join sep l
  end.

(** [json.Marshal] of a value built by [to_any] or of a struct whose fields
    are listed in order. *)
Fixpoint print (v : json) : string :=
  match v with
  | JNull => "null"
  | JBool b => if b then "true" else "false"
  | JNum n => n
  | JStr s => encode_string s
  | JArr l => "[" +:+ join "," (map print l) +:+ "]"
  | JObj l => "{" +:+ join "," (map (fun kv => encode_string (fst kv) +:+ ":" +:+ print (snd kv)) l) +:+ "}"
  end.

(** Decimal text of an integer ([strconv.Itoa]). *)
Fixpoint digits (fuel : nat) (n : Z) (acc : string) : string :=
  match fuel with
  | O => acc
  | S fuel =>
      let acc := String (chr (48 + n `mod` 10)) acc in
      if n <? 10 then acc else digits fuel (n / 10) acc
  end.

(** One digit per recursive call; a number has at most as many digits as
    bits. *)
Definition itoa (n : Z) : string :=
  let fuel := S (Z.to_nat (Z.log2 (Z.abs n))) in
  if n <? 0 then "-" +:+ digits fuel (- n) "" else digits fuel n "".

(** [strconv.ParseInt] of a JSON number: 64 bits, no fraction, no exponent. *)
Fixpoint parse_digits (acc : Z) (s : string) : option Z :=
  match s with
  | "" => Some acc
  | String c s => if is_digit c then parse_digits (acc * 10 + (byte_val c - 48)) s else None
  end.
Definition parse_int (literal : string) : option Z :=
  let value := match literal with
               | String c s => if is_byte 45 c then option_map Z.opp (parse_digits 0 s) else parse_digits 0 literal
               | "" => None
               end in
  match value with
  | Some z => if (min_int64 <=? z) && (z <=? max_int64) then Some z else None
  | None => None
  end.

Definition JInt (n : Z) : json := JNum (itoa n).

(** A struct field tagged [omitempty]. *)
Definition omit_empty (k s : string) : list (string * json) :=
  if String.eqb s "" then [] else [(k, JStr s)].

Definition omit_none {A} (k : string) (f : A -> json) (o : option A) : list (string * json) :=
  match o with Some a => [(k, f a)] | None => [] end.

(** A [json.RawMessage]: text that is printed as it is. *)
Definition JRaw (text : string) : json := JNum text.

(** The name under which [json.Unmarshal] looks a member up among the fields
    of a struct: case is ignored, and two letters outside ASCII fold to one
    inside. *)
Definition fold_rune (r : rune) : string :=
  match r with
  | Rune cp enc => if cp =? 8490 then "k" else if cp =? 383 then "s" else ToLower enc
  | Bad b => String b ""
  end.
Definition fold_name (key : string) : string := foldr (fun r acc => fold_rune r +:+ acc) "" (runes key).

(** ** [json.RawMessage] members

    Decoding an object into [map[string]json.RawMessage] keeps the text of the
    values; encoding such a map compacts them: white space outside strings is
    dropped and the characters that [json.Marshal] escapes for HTML are
    escaped, everything else is kept. *)

Fixpoint compact (in_string escaped : bool) (s : string) : string :=
  match s with
  | "" => ""
  | String c s1 =>
      let rest := if escaped then compact true false s1
                  else if in_string then compact (negb (is_byte 34 c)) (is_byte 92 c) s1
                  else compact (is_byte 34 c) false s1 in
      if is_byte 60 c || is_byte 62 c || is_byte 38 c then escape_u (byte_val c) +:+ rest
      else if negb in_string && is_ws c then rest
      else match s1 with
      | String d (String e s3) =>
          if is_byte 226 c && is_byte 128 d && (is_byte 168 e || is_byte 169 e)
          then escape_u (8232 + (byte_val e - 168)) +:+ compact in_string false s3
          else String c rest
      | _ => String c rest
      end
  end.

Fixpoint string_take (n : nat) (s : string) : string :=
  match n, s with S n, String c s => String c (string_take n s) | _, _ => "" end.

(** The members of an object after its opening brace, with the text of their
    values; one unit of fuel per member. *)
Fixpoint raw_members (fuel : nat) (s : string) : option (list (string * string)) :=
  match fuel with
  | O => None
  | S fuel =>
      match skip_ws s with
      | String q s1 =>
          if negb (is_byte 34 q) then None
          else match parse_string s1 with
          | None => None
          | Some (k, s2) =>
              match skip_ws s2 with
              | String _ s3 =>
                  let value := skip_ws s3 in
                  match decode_value value with
                  | None => None
                  | Some (_, r) =>
                      let text := string_take (String.length value - String.length r) value in
                      match skip_ws r with
                      | String c r' =>
                          if is_byte 44 c
                          then match raw_members fuel r' with Some l => Some ((k, text) :: l) | None => None end
                          else Some [(k, text)]
                      | "" => None
                      end
                  end
              | "" => None
              end
          end
      | "" => None
      end
  end.

(** The members of a text that is one JSON object. *)
Definition raw_object (s : string) : option (list (string * string)) :=
  match decode_text s with
  | Some (JObj []) => Some []
  | Some (JObj _) => match skip_ws s with String _ r => raw_members (String.length s) r | "" => None end
  | _ => None
  end.

(** [json.Marshal] of the map. *)
Definition print_raw (l : list (string * string)) : string :=
  print (JObj (map (fun kv => (fst kv, JRaw (compact false false (snd kv)))) (sort_members l))).

(** ** [time.Format(time.RFC3339Nano)] of a UTC time *)

Definition zero_pad (width : nat) (n : Z) : string :=
  let s := itoa n in
  Nat.iter (width - String.length s) (fun acc => String (chr 48) acc) s.

Definition is_leap (y : Z) : bool :=
  (y `mod` 4 =? 0) && (negb (y `mod` 100 =? 0) || (y `mod` 400 =? 0)).

Definition month_lengths (leap : bool) : list Z :=
  [31; if leap then 29 else 28; 31; 30; 31; 30; 31; 31; 30; 31; 30; 31].

(** Month and day of a day-of-year, both counted from 1. *)
Fixpoint month_day (ms : list Z) (month day : Z) : Z * Z :=
  match ms with
  | [] => (month, day + 1)
  | m :: ms => if day <? m then (month, day + 1) else month_day ms (month + 1) (day - m)
  end.

(** Year and day-of-year of a day counted from January 1, year 1. *)
Definition year_yday (d : Z) : Z * Z :=
  let n400 := d / 146097 in
  let d := d `mod` 146097 in
  let n100 := Z.min 3 (d / 36524) in
  let d := d - n100 * 36524 in
  let n4 := d / 1461 in
  let d := d - n4 * 1461 in
  let n1 := Z.min 3 (d / 365) in
  (400 * n400 + 100 * n100 + 4 * n4 + n1 + 1, d - n1 * 365).

Fixpoint trim_zeros (l : list ascii) : list ascii :=
  match l with
  | c :: l' => if is_byte 48 c then trim_zeros l' else l
  | [] => []
  end.

Fixpoint string_of (l : list ascii) : string :=
  match l with [] => "" | c :: l => String c (string_of l) end.
Fixpoint chars_of (s : string) : list ascii :=
  match s with "" => [] | String c s => c :: chars_of s end.

(** [.999999999]: the fraction without trailing zeros, nothing when zero. *)
Definition fraction (ns : Z) : string :=
  let ds := string_of (rev (trim_zeros (rev (chars_of (zero_pad 9 ns))))) in
  if String.eqb ds "" then "" else "." +:+ ds.

Definition rfc3339nano (t : time) : string :=
  let secs := t / Second in
  let day := secs / 86400 in
  let sod := secs `mod` 86400 in
  let '(year, yday) := year_yday day in
  let '(month, mday) := month_day (month_lengths (is_leap year)) 1 yday in
  zero_pad 4 year +:+ "-" +:+ zero_pad 2 month +:+ "-" +:+ zero_pad 2 mday +:+ "T" +:+
  zero_pad 2 (sod / 3600) +:+ ":" +:+ zero_pad 2 ((sod / 60) `mod` 60) +:+ ":" +:+
  zero_pad 2 (sod `mod` 60) +:+ fraction (t `mod` Second) +:+ "Z".

(** [time.Time.MarshalJSON] fails outside the years 0 to 9999. *)
Definition year_zero : time := - (366 * 86400 * Second).
Definition year_10000 : time := 3652059 * 86400 * Second.
Definition marshals (o : option time) : bool :=
  match o with Some t => (year_zero <=? t) && (t <? year_10000) | None => true end.

(** ** Examples that fix the conventions

    Texts are written with single quotes in place of the JSON quotes. *)

Definition dq (s : string) : string :=
  smap (fun c => if is_byte 39 c then chr 34 else c) s.

Example print_sorted :
  (fun v => print (to_any v)) <$>
    decode_text (dq "{ 'b' : [1, 2.50, -3e+7], 'a':'x\u003cy\n', 'b': true }")
  = Some (dq "{'a':'x\u003cy\n','b':true}").
Proof. vm_compute. reflexivity. Qed.

Example decode_surrogates :
  decode_text (dq "'\ud83d\ude00\ud800!'")
  = Some (JStr (encode_rune 128512 +:+ replacement +:+ "!")).
Proof. vm_compute. reflexivity. Qed.

Example decode_rejects :
  decode_text (dq "{'a':1,}") = None /\ decode_text "01" = None /\ decode_text "[1] 2" = None.
Proof. vm_compute. done. Qed.

Example format_known :
  rfc3339nano (63871200000 * Second + 120000000) = "2024-12-31T00:00:00.12Z" /\
  rfc3339nano 0 = "0001-01-01T00:00:00Z".
Proof. vm_compute. done. Qed.

Example compact_raw :
  option_map print_raw (raw_object (dq "{ 'b' : [1, 'x  \\u0041<'], 'a':{'z' : 1,'y':2} , 'b':3.0 }")) =
    Some (dq "{'a':{'z':1,'y':2},'b':3.0}") /\
  option_map print_raw (raw_object (dq " {'k' : [1, 'x  \\u0041<'] } ")) = Some (dq "{'k':[1,'x  \\u0041\u003c']}") /\
  raw_object "[]" = None /\ raw_object "null" = None /\ option_map print_raw (raw_object "{ }") = Some "{}".
Proof. vm_compute. done. Qed.
