(* ===== verification/JsonFacts.v ===== *)
(** * Printing and parsing JSON

    [json.Unmarshal] undoes [json.Marshal]: parsing the text of any value
    gives the value back, provided its strings are valid UTF-8, its numbers are
    JSON numbers and it is nested at most as deep as the parser goes.  The
    program relies on it wherever it reads back what it wrote: job payloads
    and operation results. *)

From S2P Require Import Prelude GoStrings Encoding Json.
From Stdlib Require Import Ascii.

Local Open Scope Z_scope.

(** ** Strings *)

Lemma chr_byte_val c : chr (byte_val c) = c.
Proof. unfold chr, byte_val. by rewrite N2Z.id, ascii_N_embedding. Qed.

Lemma byte_val_chr z : 0 <= z < 256 -> byte_val (chr z) = z.
Proof. intros H. unfold chr, byte_val. rewrite N_ascii_embedding by lia. lia. Qed.

Lemma byte_val_eq c z : byte_val c = z -> c = chr z.
Proof. intros <-. by rewrite chr_byte_val. Qed.

(** What a decoded rune looks like. *)
Definition good_rune (r : rune) : Prop :=
  match r with
  | Rune cp enc =>
      (0 <= cp < 128 /\ enc = String (chr cp) "") \/
      (128 <= cp /\ sforallb (fun c => 128 <=? byte_val c) enc = true /\
       (cp = 8232 \/ cp = 8233 -> enc = encode_rune cp))
  | Bad _ => True
  end.

Lemma first_rune_good c s : good_rune (fst (first_rune c s)).
Proof.
  unfold first_rune. pose proof (byte_val_range c).
  destruct (byte_val c <? 128) eqn:E; [simpl; left; simp_bool; split; [lia|by rewrite chr_byte_val]|].
  destruct (between 194 244 (byte_val c)) eqn:Eb; [|done]. unfold between in Eb. simp_bool. simpl.
  destruct s as [|c2 s2]; [done|]. destruct (between _ _ (byte_val c2)) eqn:E2; [|done]. simpl.
  assert (128 <= byte_val c2 <= 191 /\ (byte_val c = 240 -> 144 <= byte_val c2)) as [H2 H2'].
  { unfold between, second_lo, second_hi in E2. repeat case_match; simp_bool; lia. }
  destruct (byte_val c <? 224) eqn:E3.
  { simp_bool. right. cbn [sforallb]. rewrite !(proj2 (Z.leb_le _ _)) by lia. split_and!; [lia|done|lia]. }
  destruct s2 as [|c3 s3]; [done|]. destruct (between _ _ (byte_val c3)) eqn:E4; [|done]. simpl.
  unfold between in E4. destruct (byte_val c <? 240) eqn:E5.
  { simp_bool. right. cbn [sforallb]. rewrite !(proj2 (Z.leb_le _ _)) by lia. split_and!; [|done|].
    - destruct (decide (byte_val c = 224)) as [Ec|]; [|lia]. unfold between, second_lo in E2. rewrite Ec in E2.
      simpl in E2. simp_bool. lia.
    - intros Hcp. assert (byte_val c = 226 /\ byte_val c2 = 128) as [Ha%byte_val_eq Hb%byte_val_eq] by lia.
      assert (byte_val c3 = (if decide (byte_val c3 = 168) then 168 else 169)) as Hc.
      { destruct (decide _); [done|]. rewrite Ha, Hb in Hcp. change (byte_val (chr 226)) with 226 in Hcp.
        change (byte_val (chr 128)) with 128 in Hcp. lia. }
      destruct (decide _); apply byte_val_eq in Hc; subst c c2 c3; reflexivity. }
  destruct s3 as [|c4 s4]; [done|]. destruct (between _ _ (byte_val c4)) eqn:E6; [|done]. simpl.
  unfold between in E6. simp_bool. right. cbn [sforallb]. rewrite !(proj2 (Z.leb_le _ _)) by lia.
  assert (240 <= byte_val c) by lia.
  assert (65536 <= (byte_val c - 240) * 262144 + (byte_val c2 - 128) * 4096 + (byte_val c3 - 128) * 64 +
          (byte_val c4 - 128)) by (destruct (decide (byte_val c = 240)); lia).
  split_and!; [lia|done|lia].
Qed.

Lemma runes_good s : Forall good_rune (runes s).
Proof.
  induction s as [s IH] using string_ind_lt. destruct s as [|c s]; [constructor|].
  rewrite runes_cons. constructor; [apply first_rune_good|].
  apply IH. pose proof (first_rune_shorter c s). simpl. lia.
Qed.

Lemma sanitize_valid s : ValidString s = true -> sanitize s = s.
Proof.
  unfold ValidString, sanitize. intros H. rewrite <- (concat_runes_runes s) at 2.
  induction (runes s) as [|[cp enc|c] l IH]; [done|..]; simpl in *; [by rewrite IH|done].
Qed.

Lemma app_fst_app p q r : app_fst p (app_fst q r) = app_fst (p +:+ q) r.
Proof. destruct r as [[a b]|]; simpl; [by rewrite append_assoc|done]. Qed.

(** Bytes that need no escape. *)
Lemma string_body_high enc x : sforallb (fun c => 128 <=? byte_val c) enc = true ->
  string_body (enc +:+ x) = app_fst enc (string_body x).
Proof.
  induction enc as [|c enc IH]; [intros _; change ("" +:+ x) with x; by destruct (string_body x) as [[? ?]|]|].
  cbn [sforallb]. intros H. simp_bool. change (string_body (String c (enc +:+ x)) = app_fst (String c enc) (string_body x)).
  cbn [string_body]. unfold is_byte. rewrite !(proj2 (Z.eqb_neq _ _)) by lia.
  rewrite (proj2 (Z.ltb_ge _ _)) by lia. rewrite IH by done. apply app_fst_app.
Qed.

Lemma hex4_escape cp : 0 <= cp < 65536 ->
  hex4 (hex_digit ((cp / 4096) `mod` 16)) (hex_digit ((cp / 256) `mod` 16)) (hex_digit ((cp / 16) `mod` 16))
       (hex_digit (cp `mod` 16)) = Some cp.
Proof.
  intros H. assert (forall z, 0 <= z < 16 -> hex_value (hex_digit z) = Some z) as Hd.
  { intros z Hz. unfold hex_value, hex_digit. fold (chr (if z <? 10 then 48 + z else 87 + z)).
    rewrite byte_val_chr by (case_match; simp_bool; lia). unfold between. repeat case_match; simp_bool; f_equal; lia. }
  unfold hex4. rewrite !Hd by (apply Z.mod_pos_bound; lia). f_equal.
  rewrite (Z.mod_small (cp / 4096)) by (split; [apply Z.div_pos|apply Z.div_lt_upper_bound]; lia).
  pose proof (Z.div_mod cp 16). pose proof (Z.div_mod (cp / 16) 16). pose proof (Z.div_mod (cp / 256) 16).
  assert (cp / 16 / 16 = cp / 256 /\ cp / 256 / 16 = cp / 4096) as [] by (by rewrite !Z.div_div). lia.
Qed.

Lemma string_body_u cp x : 0 <= cp < 55296 ->
  string_body (escape_u cp +:+ x) = app_fst (encode_rune cp) (string_body x).
Proof.
  intros H. unfold escape_u.
  change (string_body (String (chr 92) (String (chr 117) (String (hex_digit ((cp / 4096) `mod` 16))
    (String (hex_digit ((cp / 256) `mod` 16)) (String (hex_digit ((cp / 16) `mod` 16))
    (String (hex_digit (cp `mod` 16)) x)))))) = app_fst (encode_rune cp) (string_body x)).
  cbn [string_body]. change (is_byte 34 (chr 92)) with false. change (is_byte 92 (chr 92)) with true.
  change (is_byte 117 (chr 117)) with true. cbn iota. rewrite hex4_escape by lia.
  unfold high_surrogate, low_surrogate, between.
  rewrite (proj2 (Z.leb_gt 55296 cp)), (proj2 (Z.leb_gt 56320 cp)) by lia. done.
Qed.

Lemma string_body_rune r x : good_rune r -> is_rune r = true ->
  string_body (escape_rune r +:+ x) = app_fst (rune_bytes r) (string_body x).
Proof.
  destruct r as [cp enc|c]; [|done]. intros Hg _. cbn [escape_rune rune_bytes].
  destruct Hg as [[Hcp ->]|(Hcp & Henc & Hsep)].
  - repeat match goal with
    | |- context [if cp =? ?n then _ else _] => destruct (Z.eqb_spec cp n) as [->|?]; [reflexivity|]
    end.
    destruct (_ || _) eqn:Eu.
    + rewrite string_body_u by lia. unfold encode_rune. by rewrite (proj2 (Z.ltb_lt _ _)) by lia.
    + change (string_body (String (chr cp) x) = app_fst (String (chr cp) "") (string_body x)).
      cbn [string_body]. unfold is_byte. rewrite byte_val_chr by lia. simp_bool.
      rewrite !(proj2 (Z.eqb_neq _ _)), (proj2 (Z.ltb_ge _ _)) by lia. done.
  - rewrite !(proj2 (Z.eqb_neq cp _)) by lia.
    destruct (_ || _) eqn:Eu; [|by apply string_body_high].
    assert (cp = 8232 \/ cp = 8233) as Hc.
    { rewrite !orb_true_iff in Eu. destruct Eu as [[[[[Eu|Eu]|Eu]|Eu]|Eu]|Eu]; simp_bool; lia. }
    rewrite (Hsep Hc). apply string_body_u. lia.
Qed.

Lemma string_body_encode s x : ValidString s = true ->
  string_body (foldr (fun r acc => escape_rune r +:+ acc) "" (runes s) +:+ String (chr 34) x) = Some (s, x).
Proof.
  unfold ValidString. intros H. rewrite <- (concat_runes_runes s) at 2. pose proof (runes_good s) as Hg.
  induction Hg as [|r l Hr Hl IH]; [done|]. simpl in H. apply andb_prop in H as [H1 H2].
  simpl foldr. rewrite append_assoc, string_body_rune, IH by done. done.
Qed.

Lemma parse_string_encode s x : ValidString s = true ->
  exists q, encode_string s +:+ x = String (chr 34) q /\ parse_string q = Some (s, x).
Proof.
  intros H. set (body := foldr (fun r acc => escape_rune r +:+ acc) "" (runes s)).
  exists (body +:+ String (chr 34) x). split.
  - unfold encode_string, quoted. fold body.
    change (String (chr 34) ((body +:+ String (chr 34) "") +:+ x) = String (chr 34) (body +:+ String (chr 34) x)).
    by rewrite append_assoc.
  - unfold parse_string, body. rewrite string_body_encode by done. by rewrite sanitize_valid.
Qed.

(** ** Numbers *)

(** What follows a value inside an array or object, or at the end. *)
Definition stops (x : string) : bool :=
  match x with "" => true | String c _ => is_byte 44 c || is_byte 93 c || is_byte 125 c end.

Definition number_literal (n : string) : bool :=
  match parse_number n with Some (m, r) => String.eqb m n && String.eqb r "" | None => false end.

Lemma stops_byte c x : stops (String c x) = true ->
  is_digit c = false /\ is_byte 46 c = false /\ is_byte 101 c = false /\ is_byte 69 c = false.
Proof.
  unfold stops, is_digit, is_byte, between. rewrite !orb_true_iff, !Z.eqb_eq.
  intros [[H|H]|H]; rewrite H; vm_compute; done.
Qed.

Lemma span_digits_app s x a r : stops x = true -> span_digits s = (a, r) -> span_digits (s +:+ x) = (a, r +:+ x).
Proof.
  intros Hx. revert a r. induction s as [|c s IH]; intros a r.
  - intros [= <- <-]. change ("" +:+ x) with x. destruct x as [|c x]; [done|].
    destruct (stops_byte c x Hx) as (Hd & _). simpl. by rewrite Hd.
  - change (String c s +:+ x) with (String c (s +:+ x)). cbn [span_digits]. destruct (is_digit c).
    + destruct (span_digits s) as [a' r']. intros [= <- <-]. by rewrite (IH a' r').
    + by intros [= <- <-].
Qed.

Lemma number_integer_app s x a r : stops x = true -> number_integer s = Some (a, r) ->
  number_integer (s +:+ x) = Some (a, r +:+ x).
Proof.
  intros Hx. destruct s as [|c s]; [done|]. change (String c s +:+ x) with (String c (s +:+ x)).
  unfold number_integer. destruct (is_byte 48 c); [by intros [= <- <-]|]. destruct (is_digit c); [|done].
  intros [= H]. f_equal. by apply (span_digits_app (String c s)).
Qed.

Lemma number_fraction_app s x a r : stops x = true -> number_fraction s = Some (a, r) ->
  number_fraction (s +:+ x) = Some (a, r +:+ x).
Proof.
  intros Hx. destruct s as [|c s].
  - intros [= <- <-]. change ("" +:+ x) with x. destruct x as [|c x]; [done|].
    destruct (stops_byte c x Hx) as (_ & Hd & _). simpl. by rewrite Hd.
  - change (String c s +:+ x) with (String c (s +:+ x)). unfold number_fraction.
    destruct (is_byte 46 c); [|by intros [= <- <-]]. destruct (span_digits s) as [d r'] eqn:E.
    rewrite (span_digits_app _ _ _ _ Hx E). destruct d; [done|]. by intros [= <- <-].
Qed.

Lemma number_exponent_app s x a r : stops x = true -> number_exponent s = Some (a, r) ->
  number_exponent (s +:+ x) = Some (a, r +:+ x).
Proof.
  intros Hx. destruct s as [|c s].
  - intros [= <- <-]. change ("" +:+ x) with x. destruct x as [|c x]; [done|].
    destruct (stops_byte c x Hx) as (_ & _ & Hd & He). simpl. by rewrite Hd, He.
  - change (String c s +:+ x) with (String c (s +:+ x)). unfold number_exponent.
    destruct (is_byte 101 c || is_byte 69 c); [|by intros [= <- <-]].
    destruct s as [|d s']; [done|]. change (String d s' +:+ x) with (String d (s' +:+ x)).
    cbv beta iota. destruct (is_byte 43 d || is_byte 45 d); cbv beta iota.
    + destruct (span_digits s') as [e r'] eqn:E. rewrite (span_digits_app _ _ _ _ Hx E).
      destruct e; [done|]. by intros [= <- <-].
    + destruct (span_digits (String d s')) as [e r'] eqn:E.
      change (String d (s' +:+ x)) with (String d s' +:+ x). rewrite (span_digits_app _ _ _ _ Hx E).
      destruct e; [done|]. by intros [= <- <-].
Qed.

Lemma parse_number_app n x a r : stops x = true -> parse_number n = Some (a, r) ->
  parse_number (n +:+ x) = Some (a, r +:+ x).
Proof.
  intros Hx. unfold parse_number. destruct n as [|c n]; [done|].
  change (String c n +:+ x) with (String c (n +:+ x)). cbv beta iota.
  assert (forall sign s0, match number_integer s0 with
    | None => None
    | Some (i, s1) => match number_fraction s1 with None => None | Some (f, s2) =>
        match number_exponent s2 with None => None | Some (e, s3) => Some (sign +:+ i +:+ f +:+ e, s3) end end end
    = Some (a, r) -> match number_integer (s0 +:+ x) with
    | None => None
    | Some (i, s1) => match number_fraction s1 with None => None | Some (f, s2) =>
        match number_exponent s2 with None => None | Some (e, s3) => Some (sign +:+ i +:+ f +:+ e, s3) end end end
    = Some (a, r +:+ x)) as Hs.
  { intros sign s0. destruct (number_integer s0) as [[i s1]|] eqn:E1; [|done].
    rewrite (number_integer_app _ _ _ _ Hx E1). destruct (number_fraction s1) as [[f s2]|] eqn:E2; [|done].
    rewrite (number_fraction_app _ _ _ _ Hx E2). destruct (number_exponent s2) as [[e s3]|] eqn:E3; [|done].
    rewrite (number_exponent_app _ _ _ _ Hx E3). by intros [= <- <-]. }
  destruct (is_byte 45 c); cbv beta iota; [apply Hs|apply (Hs "" (String c n))].
Qed.

Lemma number_literal_app n x : number_literal n = true -> stops x = true -> parse_number (n +:+ x) = Some (n, x).
Proof.
  unfold number_literal. destruct (parse_number n) as [[m r]|] eqn:E; [|done]. intros H Hx. simp_bool. subst m r.
  by rewrite (parse_number_app _ _ _ _ Hx E).
Qed.

Lemma number_literal_head n : number_literal n = true ->
  exists c s, n = String c s /\ (is_digit c || is_byte 45 c) = true.
Proof.
  unfold number_literal, parse_number. destruct n as [|c s]; [done|].
  destruct (is_byte 45 c) eqn:E; [intros _; exists c, s; by rewrite E, orb_true_r|].
  unfold number_integer. destruct (is_byte 48 c) eqn:E0.
  - intros _. exists c, s. unfold is_byte, is_digit, between in *. simp_bool. by rewrite E0.
  - destruct (is_digit c) eqn:Ed; [|done]. intros _. exists c, s. by rewrite Ed.
Qed.

(** ** Integers *)

Lemma digit_char n : 0 <= n < 10 -> is_digit (chr (48 + n)) = true /\ byte_val (chr (48 + n)) = 48 + n.
Proof.
  intros H. unfold is_digit, between. rewrite byte_val_chr by lia. split; [|done].
  by rewrite !(proj2 (Z.leb_le _ _)) by lia.
Qed.

(** The digits of a number: what they are, and that reading them gives the
    number back. *)
Lemma digits_spec fuel n acc : (0 < fuel)%nat -> 0 <= n < 2 ^ Z.of_nat fuel ->
  exists ds m c t, digits fuel n acc = ds +:+ acc /\ ds = String c t /\ sforallb is_digit ds = true /\
    (is_byte 48 c = true -> ds = "0") /\
    forall k x, parse_digits k (ds +:+ x) = parse_digits (k * m + n) x.
Proof.
  revert n acc. induction fuel as [|fuel IH]; intros n acc Hf Hn; [lia|]. cbn [digits].
  pose proof (Z.mod_pos_bound n 10 ltac:(lia)) as Hm. destruct (digit_char (n `mod` 10) Hm) as [Hd Hv].
  destruct (n <? 10) eqn:E; simp_bool.
  - rewrite Z.mod_small in * by lia. exists (String (chr (48 + n)) ""), 10, (chr (48 + n)), "".
    split_and!; [done..|simpl; by rewrite Hd| |].
    + unfold is_byte. rewrite Hv. intros. simp_bool. by replace n with 0 by lia.
    + intros k x. change (String (chr (48 + n)) "" +:+ x) with (String (chr (48 + n)) x). simpl.
      rewrite Hd, Hv. f_equal. lia.
  - assert (1 <= n / 10) by (apply Z.div_le_lower_bound; lia).
    assert (n / 10 < 2 ^ Z.of_nat fuel) as Hlt.
    { apply Z.div_lt_upper_bound; [lia|]. rewrite Nat2Z.inj_succ, Z.pow_succ_r in Hn by lia. lia. }
    assert (0 < fuel)%nat as Hf' by (destruct fuel; [simpl in Hlt; lia|lia]).
    destruct (IH (n / 10) (String (chr (48 + n `mod` 10)) acc) Hf' ltac:(lia)) as (ds & m & c & t & -> & -> & Hall & H0 & Hp).
    exists (String c t +:+ String (chr (48 + n `mod` 10)) ""), (m * 10), c, (t +:+ String (chr (48 + n `mod` 10)) "").
    split_and!; [by rewrite append_assoc|done| | |].
    + rewrite sforallb_app, Hall. simpl. by rewrite Hd.
    + intros Hc. apply H0 in Hc as [= -> ->]. specialize (Hp 0 "").
      change (Some 0 = Some (0 * m + n / 10)) in Hp. injection Hp as Hp. lia.
    + intros k x. rewrite append_assoc, Hp.
      change (String (chr (48 + n `mod` 10)) "" +:+ x) with (String (chr (48 + n `mod` 10)) x). simpl.
      rewrite Hd, Hv. f_equal. pose proof (Z.div_mod n 10). lia.
Qed.

Lemma itoa_spec n : 0 <= n -> exists c t, itoa n = String c t /\ sforallb is_digit (String c t) = true /\
  (is_byte 48 c = true -> String c t = "0") /\ parse_digits 0 (String c t) = Some n.
Proof.
  intros Hn. unfold itoa. rewrite (proj2 (Z.ltb_ge n 0)), Z.abs_eq by lia.
  destruct (digits_spec (S (Z.to_nat (Z.log2 n))) n "" ltac:(lia)) as (ds & m & c & t & E & -> & H1 & H2 & H3).
  - split; [done|]. rewrite Nat2Z.inj_succ, Z2Nat.id by apply Z.log2_nonneg.
    destruct (decide (n = 0)) as [->|]; [vm_compute; done|]. apply Z.log2_spec. lia.
  - exists c, t. rewrite E, append_nil_r. split_and!; [done..|]. specialize (H3 0 "").
    rewrite append_nil_r in H3. by rewrite H3.
Qed.

Lemma span_digits_all s : sforallb is_digit s = true -> span_digits s = (s, "").
Proof. induction s as [|c s IH]; [done|]. simpl. intros H. simp_bool. by rewrite H, IH. Qed.

Lemma number_integer_digits c t : sforallb is_digit (String c t) = true ->
  (is_byte 48 c = true -> String c t = "0") -> number_integer (String c t) = Some (String c t, "").
Proof.
  intros Hd H0. unfold number_integer. destruct (is_byte 48 c) eqn:E; [by injection (H0 eq_refl) as -> ->|].
  rewrite (span_digits_all _ Hd). cbn [sforallb] in Hd. by apply andb_prop in Hd as [-> _].
Qed.

Lemma itoa_neg n : n < 0 -> itoa n = String (chr 45) (itoa (- n)).
Proof.
  intros H. unfold itoa. rewrite (proj2 (Z.ltb_lt n 0)), (proj2 (Z.ltb_ge (- n) 0)) by lia. by rewrite Z.abs_opp.
Qed.

Lemma itoa_literal n : number_literal (itoa n) = true.
Proof.
  assert (forall n, 0 <= n -> number_integer (itoa n) = Some (itoa n, "") /\
    exists c t, itoa n = String c t /\ is_digit c = true) as H.
  { intros k Hk. destruct (itoa_spec k Hk) as (c & t & -> & Hd & H0 & _). split; [by apply number_integer_digits|].
    cbn [sforallb] in Hd. apply andb_prop in Hd as [? _]. eauto. }
  assert (forall c, is_digit c = true -> is_byte 45 c = false) as H45.
  { intros c. unfold is_digit, is_byte, between. intros Hc. simp_bool. apply Z.eqb_neq. lia. }
  unfold number_literal, parse_number. destruct (Z.ltb_spec n 0) as [Hneg|Hpos].
  - rewrite itoa_neg by done. change (is_byte 45 (chr 45)) with true. cbv iota beta.
    destruct (H (- n) ltac:(lia)) as [-> _]. cbn [number_fraction number_exponent].
    change (String (chr 45) "" +:+ itoa (- n) +:+ "" +:+ "") with (String (chr 45) (itoa (- n) +:+ "" +:+ "")).
    change ("" +:+ "") with "". by rewrite append_nil_r, !String.eqb_refl.
  - destruct (H n Hpos) as [Hi (c & t & E & Hc)]. rewrite E in *. rewrite (H45 _ Hc), Hi.
    cbn [number_fraction number_exponent]. change ("" +:+ String c t +:+ "" +:+ "") with (String c t +:+ "").
    by rewrite append_nil_r, !String.eqb_refl.
Qed.

(** [strconv.ParseInt] undoes [strconv.Itoa]. *)
Lemma parse_int_itoa n : in_int64 n -> parse_int (itoa n) = Some n.
Proof.
  unfold in_int64. intros Hn. unfold parse_int. destruct (Z.ltb_spec n 0) as [Hneg|Hpos].
  - rewrite itoa_neg by done. change (is_byte 45 (chr 45)) with true. cbv iota beta.
    destruct (itoa_spec (- n) ltac:(lia)) as (c & t & -> & _ & _ & ->). simpl option_map.
    cbv zeta. rewrite Z.opp_involutive, !(proj2 (Z.leb_le _ _)) by lia. done.
  - destruct (itoa_spec n Hpos) as (c & t & -> & Hd & _ & ->). cbn [sforallb] in Hd.
    assert (is_byte 45 c = false) as ->.
    { apply andb_prop in Hd as [Hd _]. unfold is_digit, is_byte, between in *. simp_bool. apply Z.eqb_neq. lia. }
    cbv zeta. by rewrite !(proj2 (Z.leb_le _ _)) by lia.
Qed.

(** ** Values *)

Section json_induction.
Context (P : json -> Prop).
Hypothesis H_null : P JNull.
Hypothesis H_bool : forall b, P (JBool b).
Hypothesis H_num : forall n, P (JNum n).
Hypothesis H_str : forall s, P (JStr s).
Hypothesis H_arr : forall l, Forall P l -> P (JArr l).
Hypothesis H_obj : forall l, Forall (fun kv => P (snd kv)) l -> P (JObj l).

Fixpoint json_nested_ind (v : json) : P v :=
  match v with
  | JNull => H_null
  | JBool b => H_bool b
  | JNum n => H_num n
  | JStr s => H_str s
  | JArr l => H_arr l ((fix go l : Forall P l := match l with
                         | [] => Forall_nil_2 _
                         | v :: l => Forall_cons_2 _ _ _ (json_nested_ind v) (go l)
                         end) l)
  | JObj l => H_obj l ((fix go l : Forall (fun kv => P (snd kv)) l := match l with
                         | [] => Forall_nil_2 _
                         | kv :: l => Forall_cons_2 _ kv l (json_nested_ind (snd kv)) (go l)
                         end) l)
  end.
End json_induction.

(** The values whose text is JSON, and how deep they are nested. *)
Fixpoint encodable (v : json) : bool :=
  match v with
  | JNull | JBool _ => true
  | JNum n => number_literal n
  | JStr s => ValidString s
  | JArr l => forallb encodable l
  | JObj l => forallb (fun kv => ValidString (fst kv) && encodable (snd kv)) l
  end.

Fixpoint nesting (v : json) : Z :=
  match v with
  | JArr l => 1 + foldr Z.max 0 (map nesting l)
  | JObj l => 1 + foldr Z.max 0 (map (fun kv => nesting (snd kv)) l)
  | _ => 0
  end.

(** The first byte of a value. *)
Definition leads (c : ascii) : bool :=
  negb (is_ws c || is_byte 93 c || is_byte 125 c).

Lemma print_leads v : encodable v = true -> exists c s, print v = String c s /\ leads c = true.
Proof.
  destruct v as [|[]|n|s|l|l]; intros He; try (eexists _, _; split; [reflexivity|reflexivity]).
  destruct (number_literal_head n He) as (c & t & E & Hc). exists c, t. split; [done|].
  unfold leads, is_ws, is_digit, is_byte, between in *. apply negb_true_iff.
  rewrite !orb_false_iff, !Z.eqb_neq. rewrite orb_true_iff in Hc. destruct Hc; simp_bool; lia.
Qed.

Lemma skip_ws_leads c s : leads c = true -> skip_ws (String c s) = String c s.
Proof.
  unfold leads. rewrite negb_true_iff, !orb_false_iff. intros [[H _] _]. simpl. by rewrite H.
Qed.

Definition member (kv : string * json) : string := encode_string (fst kv) +:+ ":" +:+ print (snd kv).

Lemma print_obj l : print (JObj l) = "{" +:+ join "," (map member l) +:+ "}".
Proof. done. Qed.

Lemma join_cons x y l : join "," (x :: y :: l) = x +:+ "," +:+ join "," (y :: l).
Proof. done. Qed.

Lemma length_append (s t : string) : String.length (s +:+ t) = (String.length s + String.length t)%nat.
Proof. pose proof (slen_app s t). unfold slen in *. lia. Qed.

(** What the recursive calls of the parser have to do for one value. *)
Definition parses (v : json) : Prop := forall fuel depth x,
  encodable v = true -> stops x = true -> depth + nesting v <= max_nesting ->
  (2 * String.length (print v) <= fuel)%nat -> parse_value fuel depth (print v +:+ x) = Some (v, x).

Lemma parse_elements_ok l : Forall parses l -> l <> [] -> forall fuel depth x,
  forallb encodable l = true -> depth + foldr Z.max 0 (map nesting l) <= max_nesting ->
  (2 * String.length (join "," (map print l)) + 1 <= fuel)%nat ->
  parse_elements fuel depth (join "," (map print l) +:+ "]" +:+ x) = Some (l, x).
Proof.
  induction 1 as [|v l Hv Hl IH]; [done|]. intros _ fuel depth x He Hd Hf.
  simpl in He. apply andb_prop in He as [He1 He2]. cbn [map foldr] in Hd.
  destruct fuel as [|fuel]; [lia|]. destruct l as [|w l].
  - cbn [map join] in *. cbn [parse_elements].
    rewrite (Hv fuel depth ("]" +:+ x)) by (done || lia). done.
  - cbn [map] in *. rewrite join_cons in *. rewrite !length_append in Hf. simpl (String.length ",") in Hf.
    rewrite !append_assoc. cbn [parse_elements].
    rewrite (Hv fuel depth) by (done || lia).
    change (skip_ws ("," +:+ join "," (print w :: map print l) +:+ "]" +:+ x))
      with (String (chr 44) (join "," (print w :: map print l) +:+ "]" +:+ x)).
    cbv iota. change (is_byte 44 (chr 44)) with true. cbv iota.
    rewrite IH by (done || lia). done.
Qed.

Lemma parse_members_ok l : Forall (fun kv => parses (snd kv)) l -> l <> [] -> forall fuel depth x,
  forallb (fun kv => ValidString (fst kv) && encodable (snd kv)) l = true ->
  depth + foldr Z.max 0 (map (fun kv => nesting (snd kv)) l) <= max_nesting ->
  (2 * String.length (join "," (map member l)) + 1 <= fuel)%nat ->
  parse_members fuel depth (join "," (map member l) +:+ "}" +:+ x) = Some (l, x).
Proof.
  induction 1 as [|[k v] l Hv Hl IH]; [done|]. intros _ fuel depth x He Hd Hf.
  simpl in He. apply andb_prop in He as [[Hk He1]%andb_prop He2]. cbn [map foldr snd] in *.
  destruct fuel as [|fuel]; [lia|].
  assert (forall y z, stops y = true -> (2 * String.length (print v) <= fuel)%nat -> skip_ws y = y ->
    member (k, v) +:+ y = z ->
    parse_members (S fuel) depth z =
      match y with
      | String c r' =>
          if is_byte 44 c then
            match parse_members fuel depth r' with Some (l, r'') => Some ((k, v) :: l, r'') | None => None end
          else if is_byte 125 c then Some ([(k, v)], r') else None
      | "" => None
      end) as Hone.
  { intros y z Hy Hfu Hws <-. unfold member. rewrite !append_assoc. cbn [fst snd parse_members].
    destruct (parse_string_encode k (":" +:+ print v +:+ y) Hk) as (q & -> & Hq).
    change (skip_ws (String (chr 34) q)) with (String (chr 34) q). cbv iota.
    change (negb (is_byte 34 (chr 34))) with false. cbv iota. rewrite Hq.
    change (skip_ws (":" +:+ print v +:+ y)) with (String (chr 58) (print v +:+ y)). cbv iota.
    change (negb (is_byte 58 (chr 58))) with false. cbv iota.
    rewrite (Hv fuel depth y) by (done || lia). by rewrite Hws. }
  assert (String.length (print v) <= String.length (member (k, v)))%nat as Hlen.
  { unfold member. rewrite !length_append. cbn [fst snd]. lia. }
  destruct l as [|kv l].
  - cbn [map join] in *. erewrite (Hone ("}" +:+ x)) by (reflexivity || lia || done). done.
  - cbn [map] in *. rewrite join_cons in *. rewrite !length_append in Hf. simpl (String.length ",") in Hf.
    rewrite !append_assoc.
    rewrite (Hone ("," +:+ join "," (member kv :: map member l) +:+ "}" +:+ x) _ eq_refl ltac:(lia) eq_refl eq_refl).
    change ("," +:+ join "," (member kv :: map member l) +:+ "}" +:+ x)
      with (String (chr 44) (join "," (member kv :: map member l) +:+ "}" +:+ x)).
    cbv iota. change (is_byte 44 (chr 44)) with true. cbv iota.
    rewrite IH by (done || lia). done.
Qed.

Lemma strip_prefix_head p c s d q : p = String d q -> Ascii.eqb d c = false -> strip_prefix p (String c s) = None.
Proof. intros -> H. simpl. by rewrite H. Qed.

Lemma join_leads x l y : (exists c s, x = String c s /\ leads c = true) ->
  exists c s, join "," (x :: l) +:+ y = String c s /\ leads c = true.
Proof.
  intros (c & s & -> & Hc). destruct l as [|z l]; [exists c, (s +:+ y)|rewrite join_cons, !append_assoc; eexists _, _]; done.
Qed.

Lemma max_nonneg l : 0 <= foldr Z.max 0 l.
Proof. induction l; simpl; lia. Qed.

Lemma leads_not_close c : leads c = true -> is_byte 93 c = false /\ is_byte 125 c = false.
Proof. unfold leads. rewrite negb_true_iff, !orb_false_iff. tauto. Qed.

Lemma parses_number n : parses (JNum n).
Proof.
  intros fuel depth x He Hx _ Hf. cbn [print encodable] in *.
  destruct (number_literal_head n He) as (c & t & En & Hc).
  destruct fuel as [|fuel]; [rewrite En in Hf; simpl in Hf; lia|].
  destruct (print_leads (JNum n) He) as (c' & t' & En' & Hl). cbn [print] in En'.
  assert (c' = c) as -> by congruence. cbn [parse_value].
  assert (forall z, z = 123 \/ z = 91 \/ z = 34 \/ z = 110 \/ z = 116 \/ z = 102 -> is_byte z c = false) as Hz.
  { intros z Hz. unfold is_digit, is_byte, between in *. rewrite orb_true_iff in Hc. apply Z.eqb_neq.
    destruct Hc; simp_bool; lia. }
  assert (forall z, z = 110 \/ z = 116 \/ z = 102 -> Ascii.eqb (chr z) c = false) as Ha.
  { intros z Hzz. apply Ascii.eqb_neq. intros <-. assert (is_byte z (chr z) = false) as E by (apply Hz; lia).
    unfold is_byte in E. rewrite byte_val_chr in E by lia. by rewrite Z.eqb_refl in E. }
  pose proof (number_literal_app n x He Hx) as Hp. rewrite En in Hp |- *.
  change (String c t +:+ x) with (String c (t +:+ x)) in *. rewrite skip_ws_leads by done.
  rewrite !Hz by tauto. rewrite (strip_prefix_head "null" _ _ (chr 110) "ull"), (strip_prefix_head "true" _ _ (chr 116) "rue"),
    (strip_prefix_head "false" _ _ (chr 102) "alse") by (done || apply Ha; tauto). by rewrite Hp.
Qed.

Lemma parses_all v : parses v.
Proof.
  induction v as [|b|n|s|l IH|l IH] using json_nested_ind; [| |apply parses_number| | |];
    intros fuel depth x He Hx Hd Hf; (destruct fuel as [|fuel]; [simpl in Hf; try destruct b; simpl in Hf; lia|]).
  - done.
  - by destruct b.
  - cbn [print encodable] in *. destruct (parse_string_encode s x He) as (q & -> & Hq).
    cbn [parse_value]. change (skip_ws (String (chr 34) q)) with (String (chr 34) q). cbv iota.
    change (is_byte 123 (chr 34)) with false. change (is_byte 91 (chr 34)) with false.
    change (is_byte 34 (chr 34)) with true. cbv iota. by rewrite Hq.
  - cbn [nesting encodable print] in *. rewrite !length_append in Hf. simpl (String.length "[") in Hf.
    simpl (String.length "]") in Hf. pose proof (max_nonneg (map nesting l)).
    rewrite !append_assoc. cbn [parse_value]. set (body := join "," (map print l) +:+ "]" +:+ x).
    change (skip_ws ("[" +:+ body)) with (String (chr 91) body). cbv iota.
    change (is_byte 123 (chr 91)) with false. change (is_byte 91 (chr 91)) with true. cbv iota.
    rewrite (proj2 (Z.leb_gt max_nesting depth)) by lia. destruct l as [|v l]; [done|].
    pose proof (parse_elements_ok (v :: l) IH ltac:(done) fuel (depth + 1) x He ltac:(lia) ltac:(lia)) as Hp.
    fold body in Hp. rewrite Hp. destruct (join_leads (print v) (map print l) ("]" +:+ x)) as (c & t & Eb & Hc).
    { apply print_leads. simpl in He. by apply andb_prop in He as [? _]. }
    subst body. cbn [map]. rewrite Eb, skip_ws_leads by done. by destruct (leads_not_close c Hc) as [-> _].
  - rewrite print_obj in *. cbn [nesting encodable] in *. rewrite !length_append in Hf.
    simpl (String.length "{") in Hf. simpl (String.length "}") in Hf.
    pose proof (max_nonneg (map (fun kv => nesting (snd kv)) l)).
    rewrite !append_assoc. cbn [parse_value]. set (body := join "," (map member l) +:+ "}" +:+ x).
    change (skip_ws ("{" +:+ body)) with (String (chr 123) body). cbv iota.
    change (is_byte 123 (chr 123)) with true. cbv iota.
    rewrite (proj2 (Z.leb_gt max_nesting depth)) by lia. destruct l as [|[k v] l]; [done|].
    pose proof (parse_members_ok ((k, v) :: l) IH ltac:(done) fuel (depth + 1) x He ltac:(lia) ltac:(lia)) as Hp.
    fold body in Hp. rewrite Hp.
    destruct (join_leads (member (k, v)) (map member l) ("}" +:+ x)) as (c & t & Eb & Hc).
    { eexists _, _. split; reflexivity. }
    subst body. cbn [map]. rewrite Eb, skip_ws_leads by done. by destruct (leads_not_close c Hc) as [_ ->].
Qed.

(** Parsing undoes printing. *)
Lemma decode_print v : encodable v = true -> nesting v <= max_nesting -> decode_text (print v) = Some v.
Proof.
  intros He Hn. unfold decode_text, decode_value.
  pose proof (parses_all v (3 * String.length (print v) + 3)%nat 0 "" He eq_refl ltac:(lia) ltac:(lia)) as H.
  rewrite append_nil_r in H. by rewrite H.
Qed.

(** Two values with the same text are the same value. *)
Corollary print_inj v w : encodable v = true -> encodable w = true -> nesting v <= max_nesting ->
  nesting w <= max_nesting -> print v = print w -> v = w.
Proof. intros Hv Hw Nv Nw E. pose proof (decode_print v Hv Nv). pose proof (decode_print w Hw Nw). congruence. Qed.

(** Canonical text is faithful: parsing the text that is printed for a value
    gives the value back, so that two values with the same text, and hence
    requests whose fingerprinted text is the same, are the same. *)
Theorem json_roundtrip v w : encodable v = true -> encodable w = true -> nesting v <= max_nesting ->
  nesting w <= max_nesting -> decode_text (print v) = Some v /\ (print v = print w <-> v = w).
Proof.
  intros Hv Hw Nv Nw. split; [by apply decode_print|]. split; [by apply print_inj|by intros ->].
Qed.

Lemma json_roundtrip_witness :
  let v := JObj [("import_id", JStr "imp_1"); ("runs", JArr [JInt 3; JBool true; JNull; JStr "a\b"])] in
  decode_text (print v) = Some v /\ (print v = print (JArr []) <-> v = JArr []).
Proof.
  intros v. apply (json_roundtrip v (JArr [])); [vm_compute; reflexivity|reflexivity|vm_compute; discriminate|vm_compute; discriminate].
Defined.

(** ** What is printed is UTF-8 *)

Lemma runes_app s t : ValidString s = true -> runes (s +:+ t) = runes s ++ runes t.
Proof.
  unfold ValidString. induction s as [s IH] using string_ind_lt. destruct s as [|c1 s1]; [done|].
  change (String c1 s1 +:+ t) with (String c1 (s1 +:+ t)). cbn [runes].
  destruct (byte_val c1 <? 128) eqn:E1.
  { cbn [forallb is_rune app]. intros H. by rewrite IH by (simpl; done || lia). }
  destruct (between 194 244 (byte_val c1)) eqn:E2; [|done].
  destruct s1 as [|c2 s2]; [done|]. change (String c2 s2 +:+ t) with (String c2 (s2 +:+ t)). cbv beta iota zeta.
  destruct (negb (between (second_lo _) _ _)) eqn:E3; [done|].
  destruct (byte_val c1 <? 224) eqn:E4; [cbn [forallb is_rune app]; intros H; by rewrite IH by (simpl; done || lia)|].
  destruct s2 as [|c3 s3]; [done|]. change (String c3 s3 +:+ t) with (String c3 (s3 +:+ t)). cbv beta iota zeta.
  destruct (negb (between 128 191 (byte_val c3))) eqn:E5; [done|].
  destruct (byte_val c1 <? 240) eqn:E6; [cbn [forallb is_rune app]; intros H; by rewrite IH by (simpl; done || lia)|].
  destruct s3 as [|c4 s4]; [done|]. change (String c4 s4 +:+ t) with (String c4 (s4 +:+ t)). cbv beta iota zeta.
  destruct (negb (between 128 191 (byte_val c4))) eqn:E7; [done|].
  cbn [forallb is_rune app]. intros H. by rewrite IH by (simpl; done || lia).
Qed.

Lemma valid_app s t : ValidString s = true -> ValidString t = true -> ValidString (s +:+ t) = true.
Proof. intros Hs Ht. unfold ValidString in *. by rewrite runes_app, forallb_app, Hs, Ht. Qed.

Lemma rune_valid s : Forall (fun r => is_rune r = true -> ValidString (rune_bytes r) = true) (runes s).
Proof.
  induction s as [s IH] using string_ind_lt. destruct s as [|c1 s1]; [constructor|]. cbn [runes].
  destruct (byte_val c1 <? 128) eqn:E1.
  { constructor; [|apply IH; simpl; lia]. intros _. unfold ValidString. cbn [rune_bytes runes]. by rewrite E1. }
  destruct (between 194 244 (byte_val c1)) eqn:E2; [|constructor; [done|apply IH; simpl; lia]].
  destruct s1 as [|c2 s2]; [constructor; [done|apply IH; simpl; lia]|].
  destruct (negb (between (second_lo _) _ _)) eqn:E3; [constructor; [done|apply IH; simpl; lia]|].
  destruct (byte_val c1 <? 224) eqn:E4.
  { constructor; [|apply IH; simpl; lia]. intros _. unfold ValidString. cbn [rune_bytes runes]. by rewrite E1, E2, E3, E4. }
  destruct s2 as [|c3 s3]; [constructor; [done|apply IH; simpl; lia]|].
  destruct (negb (between 128 191 (byte_val c3))) eqn:E5; [constructor; [done|apply IH; simpl; lia]|].
  destruct (byte_val c1 <? 240) eqn:E6.
  { constructor; [|apply IH; simpl; lia]. intros _. unfold ValidString. cbn [rune_bytes runes]. by rewrite E1, E2, E3, E4, E5, E6. }
  destruct s3 as [|c4 s4]; [constructor; [done|apply IH; simpl; lia]|].
  destruct (negb (between 128 191 (byte_val c4))) eqn:E7; [constructor; [done|apply IH; simpl; lia]|].
  constructor; [|apply IH; simpl; lia]. intros _. unfold ValidString. cbn [rune_bytes runes]. by rewrite E1, E2, E3, E4, E5, E6, E7.
Qed.

Lemma escape_valid r : (is_rune r = true -> ValidString (rune_bytes r) = true) -> ValidString (escape_rune r) = true.
Proof.
  destruct r as [cp enc|c]; [|done]. intros H. specialize (H eq_refl). cbn [escape_rune rune_bytes] in *.
  assert (ValidString (escape_u cp) = true) as Hu.
  { unfold escape_u. apply valid_app; [done|]. apply runes_ascii. cbn [sforallb].
    assert (forall z, 0 <= z < 16 -> byte_val (hex_digit z) <? 128 = true) as Hd.
    { intros z Hz. assert (exists n, z = Z.of_nat n /\ (n < 16)%nat) as (n & -> & Hn) by (exists (Z.to_nat z); lia).
      do 16 (destruct n as [|n]; [reflexivity|]). lia. }
    by rewrite !Hd by (apply Z.mod_pos_bound; lia). }
  repeat case_match; done.
Qed.

Lemma encode_string_valid s : ValidString (encode_string s) = true.
Proof.
  unfold encode_string, quoted. change (ValidString (String (chr 34) "" +:+ (foldr (fun r acc => escape_rune r +:+ acc) "" (runes s) +:+ String (chr 34) "")) = true).
  apply valid_app; [done|]. apply valid_app; [|done].
  induction (rune_valid s) as [|r l Hr _ IH]; [done|]. cbn [foldr]. apply valid_app; [by apply escape_valid|done].
Qed.

Definition ascii_byte (c : ascii) : bool := byte_val c <? 128.

Lemma is_byte_ascii b c : is_byte b c = true -> b < 128 -> ascii_byte c = true.
Proof. unfold is_byte, ascii_byte. intros H Hb. simp_bool. apply Z.ltb_lt. lia. Qed.

Lemma digit_ascii c : is_digit c = true -> ascii_byte c = true.
Proof. unfold is_digit, ascii_byte, between. intros H. simp_bool. apply Z.ltb_lt. lia. Qed.

Lemma span_digits_ascii s : sforallb ascii_byte (fst (span_digits s)) = true.
Proof.
  induction s as [|c s IH]; [done|]. cbn [span_digits]. destruct (is_digit c) eqn:E; [|done].
  destruct (span_digits s) as [a r]. cbn [fst sforallb] in *. by rewrite (digit_ascii c E).
Qed.

Lemma number_integer_ascii s a r : number_integer s = Some (a, r) -> sforallb ascii_byte a = true.
Proof.
  destruct s as [|c s]; [done|]. unfold number_integer. destruct (is_byte 48 c) eqn:E.
  - intros [= <- _]. cbn [sforallb]. by rewrite (is_byte_ascii 48 c).
  - destruct (is_digit c); [|done]. intros H. assert (span_digits (String c s) = (a, r)) as H' by congruence.
    pose proof (span_digits_ascii (String c s)) as Hd. by rewrite H' in Hd.
Qed.

Lemma number_fraction_ascii s a r : number_fraction s = Some (a, r) -> sforallb ascii_byte a = true.
Proof.
  destruct s as [|c s]; [by intros [= <- _]|]. unfold number_fraction. destruct (is_byte 46 c) eqn:E; [|by intros [= <- _]].
  pose proof (span_digits_ascii s) as Hd. destruct (span_digits s) as [[|x d] t]; [done|]. intros [= <- _].
  change (ascii_byte c && sforallb ascii_byte (String x d) = true). by rewrite (is_byte_ascii 46 c).
Qed.

Lemma number_exponent_ascii s a r : number_exponent s = Some (a, r) -> sforallb ascii_byte a = true.
Proof.
  destruct s as [|c s]; [by intros [= <- _]|]. unfold number_exponent.
  destruct (is_byte 101 c || is_byte 69 c) eqn:E; [|by intros [= <- _]].
  assert (ascii_byte c = true) as Hc by (apply orb_true_iff in E as [E|E]; by apply (is_byte_ascii _ c E)).
  destruct (match s with String _ _ => _ | _ => _ end) as [sign rest] eqn:Es.
  assert (sforallb ascii_byte sign = true) as Hs.
  { destruct s as [|d s]; [by injection Es as <- _|]. destruct (is_byte 43 d || is_byte 45 d) eqn:Ed; injection Es as <- _; [|done].
    cbn [sforallb]. rewrite andb_true_r. apply orb_true_iff in Ed as [Ed|Ed]; by apply (is_byte_ascii _ d Ed). }
  pose proof (span_digits_ascii rest) as Hd. destruct (span_digits rest) as [[|x d] t]; [done|]. intros [= <- _].
  change (ascii_byte c && sforallb ascii_byte (sign +:+ String x d) = true). rewrite Hc, sforallb_app, Hs. exact Hd.
Qed.

Lemma parse_number_ascii s a r : parse_number s = Some (a, r) -> sforallb ascii_byte a = true.
Proof.
  unfold parse_number. destruct (match s with String _ _ => _ | _ => _ end) as [sign s0] eqn:Es.
  assert (sforallb ascii_byte sign = true) as Hs.
  { destruct s as [|d s]; [by injection Es as <- _|]. destruct (is_byte 45 d) eqn:Ed; injection Es as <- _; [|done].
    cbn [sforallb]. by rewrite (is_byte_ascii 45 d). }
  destruct (number_integer s0) as [[i s1]|] eqn:E1; [|done]. destruct (number_fraction s1) as [[f s2]|] eqn:E2; [|done].
  destruct (number_exponent s2) as [[e s3]|] eqn:E3; [|done]. intros [= <- _]. rewrite !sforallb_app, Hs.
  by rewrite (number_integer_ascii _ _ _ E1), (number_fraction_ascii _ _ _ E2), (number_exponent_ascii _ _ _ E3).
Qed.

Lemma join_valid l : Forall (fun s => ValidString s = true) l -> ValidString (join "," l) = true.
Proof.
  induction 1 as [|s l Hs Hl IH]; [done|]. destruct l as [|t l]; [done|]. rewrite join_cons.
  apply valid_app; [done|]. by apply valid_app.
Qed.

(** The text of a value is valid UTF-8. *)
Lemma print_valid v : encodable v = true -> ValidString (print v) = true.
Proof.
  induction v as [|b|n|s|l IH|l IH] using json_nested_ind; intros He; try done.
  - by destruct b.
  - cbn [encodable] in He. unfold number_literal in He. destruct (parse_number n) as [[m r]|] eqn:E; [|done]. simp_bool. subst.
    apply runes_ascii, (parse_number_ascii _ _ _ E).
  - apply encode_string_valid.
  - cbn [encodable print] in *. rewrite forallb_forall in He. apply valid_app; [done|]. apply valid_app; [|done]. apply join_valid.
    rewrite Forall_forall in IH. apply Forall_forall. intros s (v & <- & Hv)%list_elem_of_In%in_map_iff. apply IH; [by apply list_elem_of_In|by apply He].
  - cbn [encodable print] in *. rewrite forallb_forall in He. apply valid_app; [done|]. apply valid_app; [|done]. apply join_valid.
    rewrite Forall_forall in IH. apply Forall_forall. intros s (v & <- & Hv)%list_elem_of_In%in_map_iff. specialize (He v Hv). cbn beta in He. simp_bool.
    apply valid_app; [apply encode_string_valid|]. apply valid_app; [done|]. apply IH; [by apply list_elem_of_In|done].
Qed.
