(* ===== verification/GoTime.v ===== *)
(** * [time.Parse(time.RFC3339Nano, value)]

    The general parser of package time on the layout
    2006-01-02T15:04:05.999999999Z07:00: the hour may have one digit, the
    fraction starts with a point or a comma and keeps nine digits, and the
    offset is Z or a signed number of hours and minutes.  The shortcut the
    package has for this layout accepts fewer texts, with the same results.
    Instants are nanoseconds since January 1, year 1, as everywhere. *)

From S2P Require Import Prelude GoStrings Encoding Json.
From Stdlib Require Import Ascii.

Local Open Scope Z_scope.

Definition digit_value (c : ascii) : Z := byte_val c - 48.

(** [getnum]: two digits, or one where the layout allows it. *)
Definition getnum (fixed : bool) (s : string) : option (Z * string) :=
  match s with
  | "" => None
  | String a r =>
      if negb (is_digit a) then None
      else match r with
      | String b r' =>
          if is_digit b then Some (10 * digit_value a + digit_value b, r')
          else if fixed then None else Some (digit_value a, r)
      | "" => if fixed then None else Some (digit_value a, "")
      end
  end.

(** [skip] of one byte of the layout. *)
Definition skip (code : Z) (s : string) : option string :=
  match s with
  | String c r => if is_byte code c then Some r else None
  | "" => None
  end.

(** A number of exactly four digits. *)
Definition getyear (s : string) : option (Z * string) :=
  match s with
  | String a (String b (String c (String d r))) =>
      if is_digit a && is_digit b && is_digit c && is_digit d
      then Some (1000 * digit_value a + 100 * digit_value b + 10 * digit_value c + digit_value d, r) else None
  | _ => None
  end.

Fixpoint digits (s : string) : string * string :=
  match s with
  | String c r => if is_digit c then let '(ds, rest) := digits r in (String c ds, rest) else ("", s)
  | "" => ("", "")
  end.

Fixpoint digits_value (acc : Z) (s : string) : Z :=
  match s with String c r => digits_value (10 * acc + digit_value c) r | "" => acc end.

(** Nanoseconds: the first nine digits, scaled. *)
Definition parseNanoseconds (ds : string) : Z :=
  let kept := String.substring 0 9 ds in
  digits_value 0 kept * 10 ^ (9 - slen kept).

Definition parse_fraction (s : string) : Z * string :=
  match s with
  | String c r =>
      if is_byte 46 c || is_byte 44 c then
        match digits r with
        | ("", _) => (0, s)
        | (ds, rest) => (parseNanoseconds ds, rest)
        end
      else (0, s)
  | "" => (0, s)
  end.

(** The offset in seconds; Z is UTC. *)
Definition parse_zone (s : string) : option (Z * string) :=
  match s with
  | "" => None
  | String sign r =>
      if is_byte 90 sign then Some (0, r)
      else
        match getnum true r with
        | None => None
        | Some (hr, r) =>
            match skip 58 r with
            | None => None
            | Some r =>
                match getnum true r with
                | None => None
                | Some (mm, r) =>
                    if (24 <? hr) || (60 <? mm) then None
                    else if is_byte 43 sign then Some (60 * (60 * hr + mm), r)
                    else if is_byte 45 sign then Some (- (60 * (60 * hr + mm)), r)
                    else None
                end
            end
        end
  end.

(** Days from January 1, year 1 to January 1 of a year, and to a date. *)
Definition days_before_year (y : Z) : Z :=
  let n := y - 1 in 365 * n + n / 4 - n / 100 + n / 400.

Definition days_in (year month : Z) : Z := nth (Z.to_nat (month - 1)) (month_lengths (is_leap year)) 0.

Definition days_before_month (year month : Z) : Z :=
  foldr Z.add 0 (take (Z.to_nat (month - 1)) (month_lengths (is_leap year))).

Definition date (year month day hour min sec nsec : Z) : time :=
  (((days_before_year year + days_before_month year month + (day - 1)) * 86400 + hour * 3600 + min * 60 + sec)
     * Second) + nsec.

(** A piece of the layout that must be there. *)
Notation "'piece!' ' p := m 'in' k" := (match m with Some p => k | None => None end)
  (at level 10, p pattern, m at level 100, k at level 200) : aspm_scope.

Definition parse_rfc3339 (value : string) : option time :=
  piece! '(year, s) := getyear value in
  piece! 's := skip 45 s in
  piece! '(month, s) := getnum true s in
  piece! 's := skip 45 s in
  piece! '(day, s) := getnum true s in
  piece! 's := skip 84 s in
  piece! '(hour, s) := getnum false s in
  piece! 's := skip 58 s in
  piece! '(min, s) := getnum true s in
  piece! 's := skip 58 s in
  piece! '(sec, s) := getnum true s in
  let '(nsec, s) := parse_fraction s in
  piece! '(offset, s) := parse_zone s in
  if negb (String.eqb s "") then None
  else if (month <? 1) || (12 <? month) || (day <? 1) || (days_in year month <? day) ||
          (24 <=? hour) || (60 <=? min) || (60 <=? sec) then None
  else Some (date year month day hour min sec nsec - offset * Second).

Example parse_known :
  parse_rfc3339 "2024-12-31T00:00:00.12Z" = Some (63871200000 * Second + 120000000) /\
  parse_rfc3339 "2024-12-31T1:30:00,12+01:30" = Some (63871200000 * Second + 120000000) /\
  parse_rfc3339 "0001-01-01T00:00:00Z" = Some 0 /\ parse_rfc3339 "2023-02-29T00:00:00Z" = None /\
  parse_rfc3339 "2024-02-29T23:59:59.1234567899-00:00" = Some (63844847999 * Second + 123456789) /\
  parse_rfc3339 "2024-01-01 00:00:00Z" = None /\ parse_rfc3339 "2024-01-01T00:00:00.Z" = None.
Proof. vm_compute. done. Qed.
