(* ===== verification/GoTimeFacts.v ===== *)
(** * Times survive their text

    [time.Parse] of the text [time.Format] writes in the layout RFC3339Nano
    gives the time back, for the years a JSON time may have: the calendar is
    inverted exactly and no digit of the fraction is lost. *)

From S2P Require Import Prelude GoStrings Encoding Json JsonFacts GoTime.
From Stdlib Require Import Ascii.

Local Open Scope Z_scope.

(** ** The calendar *)

Lemma year_yday_inverse d y yd : year_yday d = (y, yd) ->
  days_before_year y + yd = d /\ 0 <= yd /\ yd < (if is_leap y then 366 else 365).
Proof.
  unfold year_yday, days_before_year. cbv zeta. intros [= <- <-].
  pose proof (Z.div_mod d 146097 ltac:(done)) as H0. pose proof (Z.mod_pos_bound d 146097 ltac:(done)) as H1.
  set (a := d / 146097) in *. set (r := d mod 146097) in *.
  pose proof (Z.div_mod r 36524 ltac:(done)) as H2. pose proof (Z.mod_pos_bound r 36524 ltac:(done)) as H3.
  set (b := Z.min 3 (r / 36524)). assert (0 <= b <= 3 /\ 0 <= r - b * 36524 <= 36524 /\ (b < 3 -> r - b * 36524 < 36524)) as (Hb & Hr & Hr') by lia.
  set (s := r - b * 36524) in *.
  pose proof (Z.div_mod s 1461 ltac:(done)) as H4. pose proof (Z.mod_pos_bound s 1461 ltac:(done)) as H5.
  set (c := s / 1461) in *. assert (0 <= c <= 24) as Hc by lia. set (u := s - c * 1461).
  assert (u = s - c * 1461) as Eu by done. assert (0 <= u < 1461) as Hu by lia.
  pose proof (Z.div_mod u 365 ltac:(done)) as H6. pose proof (Z.mod_pos_bound u 365 ltac:(done)) as H7.
  set (e := Z.min 3 (u / 365)). assert (0 <= e <= 3 /\ 0 <= u - e * 365 <= 365 /\ (e < 3 -> u - e * 365 < 365)) as (He & Hv & Hv') by lia.
  assert (s = r - b * 36524) as Es by done.
  set (n := 400 * a + 100 * b + 4 * c + e + 1 - 1).
  assert (n / 4 = 100 * a + 25 * b + c) as -> by (symmetry; apply (Z.div_unique n 4 _ e); lia).
  assert (n / 100 = 4 * a + b) as -> by (symmetry; apply (Z.div_unique n 100 _ (4 * c + e)); lia).
  assert (n / 400 = a) as -> by (symmetry; apply (Z.div_unique n 400 _ (100 * b + 4 * c + e)); lia).
  split_and!; [unfold n, u, s; lia|lia|].
  unfold is_leap. set (y := 400 * a + 100 * b + 4 * c + e + 1). assert (y = 400 * a + 100 * b + 4 * c + e + 1) as Ey by done.
  clearbody u s y.
  destruct (decide (u - e * 365 = 365)) as [E|E]; [|destruct (_ && _); lia].
  assert (e = 3) as Ee by lia. assert (y mod 4 = 0) as -> by (symmetry; apply (Z.mod_unique y 4 (100 * a + 25 * b + c + 1)); lia).
  destruct (decide (c = 24)) as [Ec|Ec].
  - assert (b = 3) as Eb by lia. assert (y mod 400 = 0) as -> by (symmetry; apply (Z.mod_unique y 400 (a + 1)); lia).
    rewrite orb_true_r. simpl. lia.
  - assert (y mod 100 = 4 * c + 4) as -> by (symmetry; apply (Z.mod_unique y 100 (4 * a + b)); lia).
    rewrite (proj2 (Z.eqb_neq (4 * c + 4) 0)) by lia. simpl. lia.
Qed.

Lemma month_day_inverse ms m0 d m md : month_day ms m0 d = (m, md) -> 0 <= d < foldr Z.add 0 ms ->
  exists k, m = m0 + Z.of_nat k /\ (k < length ms)%nat /\ foldr Z.add 0 (take k ms) + (md - 1) = d /\
    1 <= md <= nth k ms 0.
Proof.
  revert m0 d. induction ms as [|l ms IH]; intros m0 d; simpl; [lia|]. destruct (Z.ltb_spec d l) as [Hl|Hl].
  - intros [= <- <-] Hd. exists 0%nat. simpl. split_and!; lia.
  - intros Hm Hd. apply IH in Hm as (k & -> & Hk & Hs & Hmd); [|lia]. exists (S k). simpl. split_and!; lia.
Qed.

Lemma month_lengths_sum leap : foldr Z.add 0 (month_lengths leap) = if leap then 366 else 365.
Proof. by destruct leap. Qed.

(** ** Digits *)

Lemma parse_digits_app a b acc : parse_digits acc (a +:+ b) = parse_digits acc a ≫= fun n => parse_digits n b.
Proof.
  revert acc. induction a as [|c a IH]; intros acc; [done|]. change (String c a +:+ b) with (String c (a +:+ b)).
  cbn [parse_digits]. destruct (is_digit c); [apply IH|done].
Qed.

(** Digits that follow others scale them. *)
Lemma parse_digits_shift s acc : sforallb is_digit s = true ->
  exists n, parse_digits 0 s = Some n /\ parse_digits acc s = Some (acc * 10 ^ slen s + n) /\ 0 <= n < 10 ^ slen s.
Proof.
  revert acc. induction s as [|c s IH]; intros acc Hs; [exists 0; change (slen "") with 0; rewrite Z.pow_0_r; split_and!; [done|cbn [parse_digits]; f_equal; lia|lia..]|].
  cbn [sforallb] in Hs. apply andb_prop in Hs as [Hc Hs]. cbn [parse_digits]. rewrite Hc.
  destruct (IH (0 * 10 + (byte_val c - 48)) Hs) as (n & H1 & H2 & H3).
  destruct (IH (acc * 10 + (byte_val c - 48)) Hs) as (n' & H1' & H2' & _). assert (n' = n) as -> by congruence.
  pose proof (slen_nonneg s) as Hl. replace (slen (String c s)) with (slen s + 1) by (unfold slen; simpl String.length; lia).
  rewrite Z.pow_add_r by lia. eexists. split; [exact H2|]. unfold is_digit, between in Hc. simp_bool. split; [|nia].
  rewrite H2'. f_equal. lia.
Qed.

(** A number that fits is written with leading zeros to the width. *)
Lemma zero_pad_digits w n : 0 <= n < 10 ^ Z.of_nat w -> (0 < w)%nat ->
  sforallb is_digit (zero_pad w n) = true /\ slen (zero_pad w n) = Z.of_nat w /\ parse_digits 0 (zero_pad w n) = Some n.
Proof.
  intros Hn Hw. destruct (itoa_spec n ltac:(lia)) as (c & t & E & Hd & H0 & Hp).
  assert (forall k s, sforallb is_digit s = true -> let z := Nat.iter k (fun acc => String (chr 48) acc) s in
    sforallb is_digit z = true /\ slen z = Z.of_nat k + slen s /\ parse_digits 0 z = parse_digits 0 s) as Hiter.
  { induction k as [|k IH]; intros s Hs; simpl; [done|]. destruct (IH s Hs) as (H1 & H2 & H3). split_and!; [done| |done].
    unfold slen in *. simpl String.length. lia. }
  unfold zero_pad. rewrite E. destruct (Hiter (w - String.length (String c t))%nat _ Hd) as (H1 & H2 & H3).
  split; [done|]. rewrite H2, H3. split; [|done].
  assert (slen (String c t) <= Z.of_nat w) as Hle; [|unfold slen in *; lia].
  destruct (is_byte 48 c) eqn:E0; [rewrite (H0 eq_refl); simpl; unfold slen; simpl; lia|].
  cbn [sforallb] in Hd. apply andb_prop in Hd as [Hc Ht]. cbn [parse_digits] in Hp. rewrite Hc in Hp.
  destruct (parse_digits_shift t (0 * 10 + (byte_val c - 48)) Ht) as (m & _ & Hm & Hm').
  rewrite Hm in Hp. injection Hp as Hp. unfold is_byte in E0. unfold is_digit, between in Hc. simp_bool.
  assert (1 <= byte_val c - 48) by lia. assert (10 ^ slen t <= n) as Hge by nia.
  assert (slen t < Z.of_nat w) as Hlt; [|unfold slen in *; simpl String.length; lia].
  apply (Z.pow_lt_mono_r_iff 10); lia.
Qed.

Lemma zero_pad_2 n : 0 <= n < 100 -> exists a b, zero_pad 2 n = String a (String b "") /\ is_digit a = true /\
  is_digit b = true /\ 10 * digit_value a + digit_value b = n.
Proof.
  intros Hn. destruct (zero_pad_digits 2 n Hn ltac:(lia)) as (Hd & Hl & Hp).
  destruct (zero_pad 2 n) as [|a [|b [|c s]]]; try (unfold slen in Hl; simpl in Hl; lia).
  exists a, b. simpl in Hd, Hp. simp_bool. rewrite H, H0 in Hp. injection Hp as Hp. unfold digit_value. split_and!; try done. lia.
Qed.

Lemma getnum_pad fixed n r : 0 <= n < 100 -> getnum fixed (zero_pad 2 n +:+ r) = Some (n, r).
Proof. intros Hn. destruct (zero_pad_2 n Hn) as (a & b & -> & Ha & Hb & <-). simpl. by rewrite Ha, Hb. Qed.

Lemma getyear_pad n r : 0 <= n < 10000 -> getyear (zero_pad 4 n +:+ r) = Some (n, r).
Proof.
  intros Hn. destruct (zero_pad_digits 4 n Hn ltac:(lia)) as (Hd & Hl & Hp).
  destruct (zero_pad 4 n) as [|a [|b [|c [|e [|x s]]]]]; try (unfold slen in Hl; simpl in Hl; lia).
  simpl in Hd, Hp. apply andb_prop in Hd as [Ha Hd]. apply andb_prop in Hd as [Hb Hd].
  apply andb_prop in Hd as [Hc He]. apply andb_prop in He as [He _]. rewrite Ha, Hb, Hc, He in Hp. injection Hp as Hp.
  simpl. rewrite Ha, Hb, Hc, He. simpl. unfold digit_value. do 2 f_equal. lia.
Qed.

(** ** The fraction *)

Lemma trim_zeros_spec l : exists k, l = repeat (chr 48) k ++ trim_zeros l.
Proof.
  induction l as [|c l [k IH]]; [by exists 0%nat|]. simpl. destruct (is_byte 48 c) eqn:E; [|by exists 0%nat].
  exists (S k). simpl. rewrite <- IH. f_equal. unfold is_byte in E. simp_bool. apply byte_val_inj. by rewrite E.
Qed.

Lemma string_of_chars s : string_of (chars_of s) = s.
Proof. induction s as [|c s IH]; simpl; congruence. Qed.

Lemma string_of_app a b : string_of (a ++ b) = string_of a +:+ string_of b.
Proof. induction a as [|c a IH]; [done|]. simpl. by rewrite IH. Qed.

Lemma zeros_value k : parse_digits 0 (string_of (repeat (chr 48) k)) = Some 0 /\ slen (string_of (repeat (chr 48) k)) = Z.of_nat k /\
  sforallb is_digit (string_of (repeat (chr 48) k)) = true.
Proof.
  induction k as [|k (H1 & H2 & H3)]; [done|]. simpl. split_and!; [done| |done]. unfold slen in *. simpl String.length. lia.
Qed.

Lemma digits_span ds r : sforallb is_digit ds = true -> GoTime.digits (ds +:+ "Z" +:+ r) = (ds, "Z" +:+ r).
Proof.
  induction ds as [|c ds IH]; intros Hd; [done|]. cbn [sforallb] in Hd. apply andb_prop in Hd as [Hc Hd].
  change (String c ds +:+ "Z" +:+ r) with (String c (ds +:+ "Z" +:+ r)). cbn [GoTime.digits]. by rewrite Hc, IH.
Qed.

Lemma digits_value_parse s acc : sforallb is_digit s = true -> parse_digits acc s = Some (digits_value acc s).
Proof.
  revert acc. induction s as [|c s IH]; intros acc Hs; [done|]. cbn [sforallb] in Hs. apply andb_prop in Hs as [Hc Hs].
  cbn [parse_digits digits_value]. rewrite Hc, IH by done. do 2 f_equal. unfold digit_value. lia.
Qed.

(** The fraction is the nine digits less the zeros at their end. *)
Lemma fraction_digits ns : exists ds k, zero_pad 9 ns = ds +:+ string_of (repeat (chr 48) k) /\
  fraction ns = if String.eqb ds "" then "" else "." +:+ ds.
Proof.
  set (z := zero_pad 9 ns). destruct (trim_zeros_spec (rev (chars_of z))) as [k Ek].
  set (ds := string_of (rev (trim_zeros (rev (chars_of z))))). exists ds, k. split; [|done].
  rewrite <- (string_of_chars z), <- (rev_involutive (chars_of z)), Ek, rev_app_distr, string_of_app, rev_repeat. done.
Qed.

Lemma fraction_inverse ns r : 0 <= ns < Second -> parse_fraction (fraction ns +:+ "Z" +:+ r) = (ns, "Z" +:+ r).
Proof.
  intros Hn. destruct (zero_pad_digits 9 ns Hn ltac:(lia)) as (Hd & Hl & Hp).
  destruct (fraction_digits ns) as (ds & k & Ez & ->).
  destruct (zeros_value k) as (Hz & Hzl & Hzd). rewrite Ez in Hd, Hl, Hp. rewrite sforallb_app in Hd. apply andb_prop in Hd as [Hd _].
  rewrite slen_app, Hzl in Hl. rewrite parse_digits_app in Hp.
  destruct (parse_digits 0 ds) as [v|] eqn:Ev; [|done]. simpl in Hp.
  destruct (parse_digits_shift _ v Hzd) as (m & Hm & Hv & _). rewrite Hz in Hm. injection Hm as <-.
  rewrite Hv, Hzl in Hp. injection Hp as Hp. rewrite (digits_value_parse _ _ Hd) in Ev. injection Ev as Ev.
  destruct ds as [|c ds].
  - simpl in Ev. subst v. simpl. replace ns with 0 by lia. done.
  - cbn [String.eqb]. change ("." +:+ String c ds) with (String (chr 46) (String c ds)).
    change (String (chr 46) (String c ds) +:+ "Z" +:+ r) with (String (chr 46) (String c ds +:+ "Z" +:+ r)).
    cbn [parse_fraction]. change (is_byte 46 (chr 46) || is_byte 44 (chr 46)) with true. cbv iota.
    rewrite digits_span by done. f_equal. unfold parseNanoseconds.
    assert (String.substring 0 9 (String c ds) = String c ds) as ->.
    { assert (String.length (String c ds) <= 9)%nat as Hle by (unfold slen in Hl; lia). revert Hle. generalize (String c ds). generalize 9%nat.
      intros n s. revert n. induction s as [|x s IH]; intros [|n] Hs; simpl in *; try done; [lia|]. rewrite IH; [done|lia]. }
    rewrite Ev. replace (9 - slen (String c ds)) with (Z.of_nat k) by lia. lia.
Qed.

(** ** The whole text *)

Lemma year_bounds y yd : 0 <= yd -> yd < (if is_leap y then 366 else 365) ->
  -366 <= days_before_year y + yd < 3652059 -> 0 <= y < 10000.
Proof.
  unfold days_before_year. cbv zeta. intros H1 H2 H3. assert (yd < 366) by (destruct (is_leap y); lia).
  destruct (decide (y = -1)) as [->|]; [change (yd < 365) in H2; change (-366 <= -731 + yd < 3652059) in H3; lia|].
  destruct (decide (y = 10000)) as [->|]; [change (-366 <= 3652059 + yd < 3652059) in H3; lia|].
  pose proof (Z.div_mod (y - 1) 4 ltac:(done)). pose proof (Z.mod_pos_bound (y - 1) 4 ltac:(done)).
  pose proof (Z.div_mod (y - 1) 100 ltac:(done)). pose proof (Z.mod_pos_bound (y - 1) 100 ltac:(done)).
  pose proof (Z.div_mod (y - 1) 400 ltac:(done)). pose proof (Z.mod_pos_bound (y - 1) 400 ltac:(done)).
  lia.
Qed.

(** The fields of a time that a JSON document can hold. *)
Lemma format_fields t : year_zero <= t < year_10000 -> exists y m d h mi sec ns,
  rfc3339nano t = zero_pad 4 y +:+ "-" +:+ zero_pad 2 m +:+ "-" +:+ zero_pad 2 d +:+ "T" +:+ zero_pad 2 h +:+ ":" +:+
    zero_pad 2 mi +:+ ":" +:+ zero_pad 2 sec +:+ fraction ns +:+ "Z" /\
  0 <= y < 10000 /\ 1 <= m <= 12 /\ 1 <= d <= days_in y m /\ days_in y m <= 31 /\ 0 <= h < 24 /\ 0 <= mi < 60 /\
  0 <= sec < 60 /\ 0 <= ns < Second /\ date y m d h mi sec ns = t.
Proof.
  unfold year_zero, year_10000. intros Ht. unfold rfc3339nano. cbv zeta.
  set (secs := t / Second). set (day := secs / 86400). set (sod := secs mod 86400).
  assert (t = secs * Second + t mod Second /\ 0 <= t mod Second < Second) as [Et Hns].
  { pose proof (Z.div_mod t Second ltac:(done)). pose proof (Z.mod_pos_bound t Second ltac:(done)). unfold secs. lia. }
  assert (secs = day * 86400 + sod /\ 0 <= sod < 86400) as [Es Hs].
  { pose proof (Z.div_mod secs 86400 ltac:(done)). pose proof (Z.mod_pos_bound secs 86400 ltac:(done)). unfold day, sod. lia. }
  destruct (year_yday day) as [y yd] eqn:Ey. apply year_yday_inverse in Ey as (Hd & Hyd & Hyd').
  assert (0 <= y < 10000) as Hy.
  { apply (year_bounds y yd); [done..|]. rewrite Hd. unfold Second in *. lia. }
  destruct (month_day _ 1 yd) as [m md] eqn:Em.
  apply month_day_inverse in Em as (k & -> & Hk & Hsum & Hmd); [|by rewrite month_lengths_sum].
  assert (length (month_lengths (is_leap y)) = 12%nat) as Hlen by done. rewrite Hlen in Hk.
  assert (nth k (month_lengths (is_leap y)) 0 <= 31) as Hmax.
  { destruct (is_leap y); do 12 (destruct k as [|k]; [simpl; lia|]); lia. }
  assert (0 <= sod / 3600 < 24 /\ 0 <= (sod / 60) mod 60 < 60 /\ 0 <= sod mod 60 < 60 /\
    sod = sod / 3600 * 3600 + (sod / 60) mod 60 * 60 + sod mod 60) as (Hh & Hmi & Hse & Esod).
  { clear -Hs. Z.div_mod_to_equations. lia. }
  eexists _, _, _, _, _, _, _. split; [reflexivity|]. unfold date, days_before_month, days_in.
  replace (Z.to_nat (1 + Z.of_nat k - 1)) with k by lia. unfold Second in *. split_and!; lia.
Qed.

(** A time that a JSON document can hold is read back from its text. *)
Theorem parse_format t : year_zero <= t < year_10000 -> parse_rfc3339 (rfc3339nano t) = Some t.
Proof.
  intros Ht. destruct (format_fields t Ht) as (y & m & d & h & mi & sec & ns & -> & Hy & Hm & Hd & Hmax & Hh & Hmi & Hse & Hns & <-).
  unfold parse_rfc3339. rewrite getyear_pad by done.
  change (skip 45 ("-" +:+ ?r)) with (Some r). cbv iota beta. rewrite getnum_pad by lia.
  change (skip 45 ("-" +:+ ?r)) with (Some r). cbv iota beta. rewrite getnum_pad by lia.
  change (skip 84 ("T" +:+ ?r)) with (Some r). cbv iota beta. rewrite getnum_pad by lia.
  change (skip 58 (":" +:+ ?r)) with (Some r). cbv iota beta. rewrite getnum_pad by lia.
  change (skip 58 (":" +:+ ?r)) with (Some r). cbv iota beta. rewrite getnum_pad by lia.
  rewrite <- (append_nil_r "Z"), fraction_inverse by done. change (parse_zone ("Z" +:+ "")) with (Some (0, "")).
  cbv iota beta. cbn [String.eqb negb].
  rewrite !(proj2 (Z.ltb_ge _ _)), !(proj2 (Z.leb_gt _ _)) by lia. cbn [orb]. f_equal. lia.
Qed.

(** The text has at most 30 bytes, none of which JSON would escape. *)
Definition time_char (c : ascii) : bool :=
  is_digit c || is_byte 45 c || is_byte 46 c || is_byte 58 c || is_byte 84 c || is_byte 90 c.

Lemma digits_time_chars s : sforallb is_digit s = true -> sforallb time_char s = true.
Proof. apply sforallb_impl. intros c Hc. unfold time_char. by rewrite Hc. Qed.

Lemma fraction_shape ns : 0 <= ns < Second -> sforallb time_char (fraction ns) = true /\ slen (fraction ns) <= 10.
Proof.
  intros Hn. destruct (zero_pad_digits 9 ns Hn ltac:(lia)) as (Hd & Hl & _).
  destruct (fraction_digits ns) as (ds & k & Ez & ->).
  rewrite Ez in Hd, Hl. rewrite sforallb_app in Hd. rewrite slen_app in Hl. apply andb_prop in Hd as [Hd _].
  pose proof (slen_nonneg (string_of (repeat (chr 48) k))). destruct (String.eqb ds ""); [by split; [|unfold slen; simpl; lia]|].
  rewrite sforallb_app, slen_app. change (slen ".") with 1. rewrite (digits_time_chars ds) by done. split; [done|lia].
Qed.

Lemma format_shape t : year_zero <= t < year_10000 ->
  sforallb time_char (rfc3339nano t) = true /\ slen (rfc3339nano t) <= 30.
Proof.
  intros Ht. destruct (format_fields t Ht) as (y & m & d & h & mi & sec & ns & -> & Hy & Hm & Hd & Hmax & Hh & Hmi & Hse & Hns & _).
  destruct (zero_pad_digits 4 y) as (Hy1 & Hy2 & _); [lia..|]. destruct (zero_pad_digits 2 m) as (Hm1 & Hm2 & _); [lia..|].
  destruct (zero_pad_digits 2 d) as (Hd1 & Hd2 & _); [lia..|]. destruct (zero_pad_digits 2 h) as (Hh1 & Hh2 & _); [lia..|].
  destruct (zero_pad_digits 2 mi) as (Hi1 & Hi2 & _); [lia..|]. destruct (zero_pad_digits 2 sec) as (Hs1 & Hs2 & _); [lia..|].
  destruct (fraction_shape ns Hns) as [Hf1 Hf2].
  apply digits_time_chars in Hy1, Hm1, Hd1, Hh1, Hi1, Hs1.
  rewrite !sforallb_app, !slen_app, Hy1, Hm1, Hd1, Hh1, Hi1, Hs1, Hf1, Hy2, Hm2, Hd2, Hh2, Hi2, Hs2. split; [done|].
  change (slen "-") with 1. change (slen "T") with 1. change (slen ":") with 1. change (slen "Z") with 1. lia.
Qed.
