(* ===== verification/JsonTokens.v ===== *)
(** * Streaming JSON: [json.Decoder.Token] and [More]

    The token stream of [encoding/json]: a decoder is the text that is still
    to be read and the state machine that tells values, keys and separators
    apart.  [reads_value] is the grammar both ways of reading JSON follow; the
    last part relates it to the recursive descent of Json.v. *)

From S2P Require Import Prelude GoStrings Encoding Json JsonFacts.
From Stdlib Require Import Ascii.

Local Open Scope Z_scope.

(** ** The decoder *)

Inductive token_state :=
| tokenTopValue | tokenArrayStart | tokenArrayValue | tokenArrayComma
| tokenObjectStart | tokenObjectKey | tokenObjectColon | tokenObjectValue | tokenObjectComma.
#[global] Instance token_state_eq_dec : EqDecision token_state.
Proof. solve_decision. Defined.

Record decoder := Decoder { unread : string; tokenState : token_state; tokenStack : list token_state }.

Definition NewDecoder (data : string) : decoder := Decoder data tokenTopValue [].

Inductive token := Delim (c : ascii) | TString (s : string) | TScalar.

(** What one call of [Token] gives: a token, the end of the text, or an
    error. *)
Inductive token_result :=
| Token_ok (t : token) (d : decoder)
| Token_EOF
| Token_error.

Definition tokenValueAllowed (s : token_state) : bool :=
  match s with tokenTopValue | tokenArrayStart | tokenArrayValue | tokenObjectValue => true | _ => false end.

Definition tokenValueEnd (s : token_state) : token_state :=
  match s with
  | tokenArrayStart | tokenArrayValue => tokenArrayComma
  | tokenObjectValue => tokenObjectComma
  | _ => s
  end.

(** [Decode] of a value that is no object and no array: one unit of fuel is
    enough for it. *)
Definition decode_scalar (s : string) : option (json * string) := parse_value 1 0 s.

(** A closing bracket: the state under the container, one value further. *)
Definition close (c : ascii) (rest : string) (stack : list token_state) : token_result :=
  match stack with
  | s :: stack => Token_ok (Delim c) (Decoder rest (tokenValueEnd s) stack)
  | [] => Token_error
  end.

(** One round of the loop of [Token] on the character [c] that comes next;
    [None] says that a separator was consumed and the loop goes on. *)
Definition token_on (c : ascii) (rest : string) (d : decoder) : option token_result :=
  let s := tokenState d in
  if is_byte 91 c || is_byte 123 c then
    Some (if tokenValueAllowed s
          then Token_ok (Delim c) (Decoder rest (if is_byte 91 c then tokenArrayStart else tokenObjectStart)
                                           (s :: tokenStack d))
          else Token_error)
  else if is_byte 93 c then
    Some (match s with tokenArrayStart | tokenArrayComma => close c rest (tokenStack d) | _ => Token_error end)
  else if is_byte 125 c then
    Some (match s with tokenObjectStart | tokenObjectComma => close c rest (tokenStack d) | _ => Token_error end)
  else if is_byte 58 c then
    match s with tokenObjectColon => None | _ => Some Token_error end
  else if is_byte 44 c then
    match s with tokenArrayComma | tokenObjectComma => None | _ => Some Token_error end
  else if is_byte 34 c && (bool_decide (s = tokenObjectStart) || bool_decide (s = tokenObjectKey)) then
    Some (match parse_string rest with
          | Some (key, rest) => Token_ok (TString key) (Decoder rest tokenObjectColon (tokenStack d))
          | None => Token_error
          end)
  else Some (if tokenValueAllowed s
             then match decode_scalar (String c rest) with
                  | Some (JStr x, rest) => Token_ok (TString x) (Decoder rest (tokenValueEnd s) (tokenStack d))
                  | Some (_, rest) => Token_ok TScalar (Decoder rest (tokenValueEnd s) (tokenStack d))
                  | None => Token_error
                  end
             else Token_error).

Definition token_round (d : decoder) : option token_result :=
  match skip_ws (unread d) with
  | "" => Some Token_EOF
  | String c rest => token_on c rest d
  end.

(** The state after a separator. *)
Definition after_separator (d : decoder) : decoder :=
  Decoder (match skip_ws (unread d) with String _ rest => rest | "" => "" end)
    (match tokenState d with
     | tokenObjectColon => tokenObjectValue
     | tokenArrayComma => tokenArrayValue
     | tokenObjectComma => tokenObjectKey
     | s => s
     end) (tokenStack d).

(** A separator is never followed by a second one ([no_second_separator]), so
    the loop has at most two rounds. *)
Definition Token (d : decoder) : token_result :=
  match token_round d with
  | Some r => r
  | None => default Token_error (token_round (after_separator d))
  end.

Definition More (d : decoder) : bool :=
  match skip_ws (unread d) with
  | "" => false
  | String c _ => negb (is_byte 93 c || is_byte 125 c)
  end.

Lemma no_second_separator d : token_round d = None -> token_round (after_separator d) <> None.
Proof.
  unfold token_round. destruct (skip_ws (unread d)) as [|c rest] eqn:E; [done|]. unfold token_on at 1, after_separator.
  rewrite E. cbn [unread tokenState]. intros H.
  assert (tokenState d = tokenObjectColon \/ tokenState d = tokenArrayComma \/ tokenState d = tokenObjectComma) as Hs.
  { repeat case_match; try done; auto. }
  destruct (skip_ws rest) as [|c' rest']; [done|]. unfold token_on. cbn [tokenState tokenStack].
  destruct Hs as [-> |[-> | ->]]; repeat case_match; done.
Qed.

(** ** The grammar

    [reads_value s v r]: the text [s] starts with the value [v] and goes on
    with [r]. *)
Inductive reads_value : string -> json -> string -> Prop :=
| reads_scalar s c t v r : skip_ws s = String c t -> is_byte 91 c = false -> is_byte 123 c = false ->
    decode_scalar (String c t) = Some (v, r) -> reads_value s v r
| reads_empty_object s c t d r : skip_ws s = String c t -> is_byte 123 c = true ->
    skip_ws t = String d r -> is_byte 125 d = true -> reads_value s (JObj []) r
| reads_object s c t l r : skip_ws s = String c t -> is_byte 123 c = true ->
    reads_members t l r -> reads_value s (JObj l) r
| reads_empty_array s c t d r : skip_ws s = String c t -> is_byte 91 c = true ->
    skip_ws t = String d r -> is_byte 93 d = true -> reads_value s (JArr []) r
| reads_array s c t l r : skip_ws s = String c t -> is_byte 91 c = true ->
    reads_elements t l r -> reads_value s (JArr l) r
with reads_elements : string -> list json -> string -> Prop :=
| reads_last_element s v r c r' : reads_value s v r -> skip_ws r = String c r' -> is_byte 93 c = true ->
    reads_elements s [v] r'
| reads_element s v r c r' l r'' : reads_value s v r -> skip_ws r = String c r' -> is_byte 44 c = true ->
    reads_elements r' l r'' -> reads_elements s (v :: l) r''
with reads_members : string -> list (string * json) -> string -> Prop :=
| reads_last_member s kv r c r' : reads_member s kv r -> skip_ws r = String c r' -> is_byte 125 c = true ->
    reads_members s [kv] r'
| reads_more_members s kv r c r' l r'' : reads_member s kv r -> skip_ws r = String c r' -> is_byte 44 c = true ->
    reads_members r' l r'' -> reads_members s (kv :: l) r''
with reads_member : string -> string * json -> string -> Prop :=
| reads_one_member s q s1 k s2 c s3 v r : skip_ws s = String q s1 -> is_byte 34 q = true ->
    parse_string s1 = Some (k, s2) -> skip_ws s2 = String c s3 -> is_byte 58 c = true ->
    reads_value s3 v r -> reads_member s (k, v) r.

Scheme reads_value_mut := Induction for reads_value Sort Prop
  with reads_elements_mut := Induction for reads_elements Sort Prop
  with reads_members_mut := Induction for reads_members Sort Prop
  with reads_member_mut := Induction for reads_member Sort Prop.
Combined Scheme reads_ind from reads_value_mut, reads_elements_mut, reads_members_mut, reads_member_mut.

Lemma byte_differs a b c : is_byte a c = true -> a <> b -> is_byte b c = false.
Proof. unfold is_byte. intros H Hne. simp_bool. lia. Qed.

Lemma skip_ws_head s c t : skip_ws s = String c t -> is_ws c = false.
Proof.
  induction s as [|d s IH]; [done|]. simpl. destruct (is_ws d) eqn:E; [done|]. by intros [= <- _].
Qed.

Lemma skip_ws_idem s : skip_ws (skip_ws s) = skip_ws s.
Proof.
  induction s as [|c s IH]; [done|]. simpl. destruct (is_ws c) eqn:E; [done|]. simpl. by rewrite E.
Qed.

Lemma skip_ws_length s : (String.length (skip_ws s) <= String.length s)%nat.
Proof. induction s as [|c s IH]; [done|]. simpl. destruct (is_ws c); simpl; lia. Qed.

Lemma skip_ws_shorter s c t : skip_ws s = String c t -> (String.length t < String.length s)%nat.
Proof. intros E. pose proof (skip_ws_length s) as H. rewrite E in H. simpl in H. lia. Qed.

(** A value that does not start with a bracket does not depend on the fuel
    or the depth. *)
Lemma scalar_fuel f d s c t : skip_ws s = String c t -> is_byte 91 c = false -> is_byte 123 c = false ->
  parse_value (S f) d s = decode_scalar (String c t).
Proof.
  intros E H1 H2. unfold decode_scalar. cbn [parse_value].
  assert (skip_ws (String c t) = String c t) as -> by (rewrite <- E; apply skip_ws_idem).
  by rewrite E, H1, H2.
Qed.

(** *** The recursive descent follows the grammar *)

Lemma parse_reads f : (forall d s v r, parse_value f d s = Some (v, r) -> reads_value s v r) /\
  (forall d s l r, parse_elements f d s = Some (l, r) -> reads_elements s l r) /\
  (forall d s l r, parse_members f d s = Some (l, r) -> reads_members s l r).
Proof.
  induction f as [|f (IHv & IHe & IHm)]; [done|]. split_and!.
  - intros d s v r. destruct (skip_ws s) as [|c t] eqn:E; [cbn [parse_value]; by rewrite E|].
    destruct (is_byte 123 c) eqn:H1; [|destruct (is_byte 91 c) eqn:H2].
    + cbn [parse_value]. rewrite E, H1. destruct (max_nesting <=? d); [done|].
      destruct (skip_ws t) as [|b u] eqn:Et; [done|]. destruct (is_byte 125 b) eqn:Hb.
      * intros [= <- <-]. by eapply reads_empty_object.
      * destruct (parse_members f (d + 1) t) as [[l u']|] eqn:Em; [|done]. intros [= <- <-]. eapply reads_object; eauto.
    + cbn [parse_value]. rewrite E, H1, H2. destruct (max_nesting <=? d); [done|].
      destruct (skip_ws t) as [|b u] eqn:Et; [done|]. destruct (is_byte 93 b) eqn:Hb.
      * intros [= <- <-]. by eapply reads_empty_array.
      * destruct (parse_elements f (d + 1) t) as [[l u']|] eqn:Em; [|done]. intros [= <- <-]. eapply reads_array; eauto.
    + rewrite (scalar_fuel _ _ _ _ _ E H2 H1). by apply reads_scalar.
  - intros d s l r. cbn [parse_elements]. destruct (parse_value f d s) as [[v r0]|] eqn:Ev; [|done].
    destruct (skip_ws r0) as [|c r'] eqn:E; [done|]. destruct (is_byte 44 c) eqn:Hc.
    + destruct (parse_elements f d r') as [[l' r'']|] eqn:Ee; [|done]. intros [= <- <-]. eapply reads_element; eauto.
    + destruct (is_byte 93 c) eqn:Hb; [|done]. intros [= <- <-]. eapply reads_last_element; eauto.
  - intros d s l r. cbn [parse_members]. destruct (skip_ws s) as [|q s1] eqn:Es; [done|].
    destruct (is_byte 34 q) eqn:Hq; [|done]. cbn [negb]. destruct (parse_string s1) as [[k s2]|] eqn:Ek; [|done].
    destruct (skip_ws s2) as [|c s3] eqn:E2; [done|]. destruct (is_byte 58 c) eqn:Hc; [|done]. cbn [negb].
    destruct (parse_value f d s3) as [[v r0]|] eqn:Ev; [|done]. destruct (skip_ws r0) as [|b r'] eqn:E; [done|].
    assert (reads_member s (k, v) r0) by (econstructor; eauto). destruct (is_byte 44 b) eqn:Hb.
    + destruct (parse_members f d r') as [[l' r'']|] eqn:Ee; [|done]. intros [= <- <-]. eapply reads_more_members; eauto.
    + destruct (is_byte 125 b) eqn:Hb'; [|done]. intros [= <- <-]. eapply reads_last_member; eauto.
Qed.

(** *** Every part of the grammar consumes something *)

Lemma app_fst_some p o a r : app_fst p o = Some (a, r) -> exists b, o = Some (b, r).
Proof. destruct o as [[b r']|]; [|done]. intros [= _ <-]. eauto. Qed.

(** Every part of the grammar consumes something. *)
Lemma string_body_shorter s : forall a r, string_body s = Some (a, r) -> (String.length r < String.length s)%nat.
Proof.
  induction s as [s IH] using string_ind_lt. intros a r. destruct s as [|c s]; [done|].
  assert (forall p t, (String.length t <= String.length s)%nat -> app_fst p (string_body t) = Some (a, r) ->
    (String.length r < String.length (String c s))%nat) as Hgo.
  { intros p t Ht E. apply app_fst_some in E as [b E]. apply IH in E; simpl in *; lia. }
  cbn [string_body]. destruct (is_byte 34 c); [intros [= _ <-]; simpl; lia|].
  destruct (is_byte 92 c).
  - destruct s as [|e s2]; [done|]. destruct (is_byte 117 e).
    + destruct s2 as [|h1 [|h2 [|h3 [|h4 s3]]]]; try done. destruct (hex4 h1 h2 h3 h4); [|done].
      assert (forall p, app_fst p (string_body s3) = Some (a, r) ->
        (String.length r < String.length (String c (String e (String h1 (String h2 (String h3 (String h4 s3)))))))%nat) as H3.
      { intros p. apply Hgo. simpl. lia. }
      destruct (high_surrogate z).
      * destruct s3 as [|b0 [|v [|k1 [|k2 [|k3 [|k4 s4]]]]]]; try apply H3.
        destruct (hex4 k1 k2 k3 k4); [|apply H3]. case_match; [|apply H3]. apply Hgo. simpl. lia.
      * destruct (low_surrogate z); apply H3.
    + destruct (simple_escape e); [|done]. apply Hgo. simpl. lia.
  - destruct (byte_val c <? 32); [done|]. by apply Hgo.
Qed.
Lemma parse_string_shorter s a r : parse_string s = Some (a, r) -> (String.length r < String.length s)%nat.
Proof.
  unfold parse_string. destruct (string_body s) as [[b r']|] eqn:E; [|done]. intros [= _ <-].
  by eapply string_body_shorter.
Qed.

Lemma span_digits_length s a r : span_digits s = (a, r) -> String.length s = (String.length a + String.length r)%nat.
Proof.
  revert a r. induction s as [|c s IH]; intros a r; [by intros [= <- <-]|]. simpl. destruct (is_digit c).
  - destruct (span_digits s) as [a' r'] eqn:E. intros [= <- <-]. simpl. by rewrite (IH a' r').
  - by intros [= <- <-].
Qed.

Lemma number_integer_length s a r : number_integer s = Some (a, r) ->
  String.length s = (String.length a + String.length r)%nat /\ a <> "".
Proof.
  destruct s as [|c s]; [done|]. unfold number_integer. destruct (is_byte 48 c); [by intros [= <- <-]|].
  destruct (is_digit c) eqn:E; [|done]. intros [= H]. split; [by apply span_digits_length|].
  simpl in H. rewrite E in H. destruct (span_digits s). by injection H as <- _.
Qed.

Lemma number_fraction_length s a r : number_fraction s = Some (a, r) -> (String.length r <= String.length s)%nat.
Proof.
  destruct s as [|c s]; [by intros [= _ <-]|]. unfold number_fraction. destruct (is_byte 46 c); [|by intros [= _ <-]].
  destruct (span_digits s) as [d t] eqn:E. apply span_digits_length in E. destruct d; [done|]. intros [= _ <-]. simpl. lia.
Qed.

Lemma number_exponent_length s a r : number_exponent s = Some (a, r) -> (String.length r <= String.length s)%nat.
Proof.
  destruct s as [|c s]; [by intros [= _ <-]|]. unfold number_exponent. destruct (is_byte 101 c || is_byte 69 c); [|by intros [= _ <-]].
  destruct (match s with String _ _ => _ | _ => _ end) as [sign rest] eqn:E.
  assert (String.length rest <= String.length s)%nat as Hr.
  { destruct s as [|d s]; [by injection E as _ <-|]. destruct (is_byte 43 d || is_byte 45 d); injection E as _ <-; simpl; lia. }
  destruct (span_digits rest) as [d t] eqn:Ed. apply span_digits_length in Ed. destruct d; [done|]. intros [= _ <-]. simpl. lia.
Qed.

Lemma parse_number_shorter s a r : parse_number s = Some (a, r) -> (String.length r < String.length s)%nat.
Proof.
  unfold parse_number. destruct (match s with String _ _ => _ | _ => _ end) as [sign s0] eqn:E.
  assert (String.length s0 <= String.length s)%nat as Hr.
  { destruct s as [|d s]; [by injection E as _ <-|]. destruct (is_byte 45 d); injection E as _ <-; simpl; lia. }
  destruct (number_integer s0) as [[i s1]|] eqn:E1; [|done]. apply number_integer_length in E1 as [E1 Hi].
  destruct (number_fraction s1) as [[f s2]|] eqn:E2; [|done]. apply number_fraction_length in E2.
  destruct (number_exponent s2) as [[e s3]|] eqn:E3; [|done]. apply number_exponent_length in E3. intros [= _ <-].
  destruct i; [done|]. simpl in *. lia.
Qed.

Lemma strip_prefix_length p s r : strip_prefix p s = Some r -> String.length s = (String.length p + String.length r)%nat.
Proof. intros E. apply strip_prefix_Some in E as ->. apply length_append. Qed.


Definition is_scalar (v : json) : bool := match v with JArr _ | JObj _ => false | _ => true end.

Lemma decode_scalar_spec c t v r : is_ws c = false -> is_byte 91 c = false -> is_byte 123 c = false ->
  decode_scalar (String c t) = Some (v, r) -> (String.length r < String.length (String c t))%nat /\ is_scalar v = true.
Proof.
  intros Hw H1 H2. unfold decode_scalar. cbn [parse_value skip_ws]. rewrite Hw, H1, H2. destruct (is_byte 34 c).
  - destruct (parse_string t) as [[a r']|] eqn:E; [|done]. intros [= <- <-]. apply parse_string_shorter in E. simpl. lia.
  - destruct (strip_prefix "null" _) as [u|] eqn:E1;
      [|destruct (strip_prefix "true" _) as [u|] eqn:E2; [|destruct (strip_prefix "false" _) as [u|] eqn:E3]];
      [intros [= <- <-]..|]; try (apply strip_prefix_length in E1 || apply strip_prefix_length in E2 || apply strip_prefix_length in E3;
        split; [simpl in *; lia|done]).
    destruct (parse_number _) as [[n u]|] eqn:E; [|done]. intros [= <- <-]. split; [|done]. by eapply parse_number_shorter.
Qed.

Lemma reads_shorter :
  (forall s v r, reads_value s v r -> (String.length r < String.length s)%nat) /\
  (forall s l r, reads_elements s l r -> (String.length r < String.length s)%nat) /\
  (forall s l r, reads_members s l r -> (String.length r < String.length s)%nat) /\
  (forall s kv r, reads_member s kv r -> (String.length r < String.length s)%nat).
Proof.
  apply reads_ind; intros; repeat match goal with
    | H : skip_ws _ = String _ _ |- _ => let E := fresh in pose proof (skip_ws_head _ _ _ H) as E; apply skip_ws_shorter in H
    | H : decode_scalar _ = _ |- _ => apply decode_scalar_spec in H as [H _]; [|done..]
    | H : parse_string _ = _ |- _ => apply parse_string_shorter in H
    end; simpl in *; lia.
Qed.

(** *** The recursive descent finds whatever the grammar allows *)

Lemma delimiter_no_scalar c t : is_byte 93 c || is_byte 125 c || is_byte 58 c || is_byte 44 c = true ->
  decode_scalar (String c t) = None.
Proof.
  unfold is_byte. rewrite !orb_true_iff, !Z.eqb_eq. intros [[[E|E]|E]|E]; apply byte_val_eq in E as ->; reflexivity.
Qed.

Lemma value_leads s v r : reads_value s v r -> exists c t, skip_ws s = String c t /\ leads c = true.
Proof.
  intros H. assert (exists c t, skip_ws s = String c t) as (c & t & E) by (inversion H; eauto). exists c, t. split; [done|].
  unfold leads. rewrite (skip_ws_head _ _ _ E). cbn [orb]. apply negb_true_iff.
  destruct (is_byte 93 c || is_byte 125 c) eqn:Hb; [exfalso|done]. inversion H as [? ? ? ? ? E' | ? ? ? ? ? E' | ? ? ? ? ? E' | ? ? ? ? ? E' | ? ? ? ? ? E'];
    rewrite E in E'; injection E' as <- <-.
  - match goal with Hd : decode_scalar _ = Some _ |- _ => by rewrite delimiter_no_scalar in Hd by (by rewrite Hb) end.
  - unfold is_byte in *. simp_bool. lia.
  - unfold is_byte in *. simp_bool. lia.
  - unfold is_byte in *. simp_bool. lia.
  - unfold is_byte in *. simp_bool. lia.
Qed.

Lemma elements_lead s l r : reads_elements s l r -> exists c t, skip_ws s = String c t /\ leads c = true.
Proof. intros H. inversion H; by eapply value_leads. Qed.

Lemma members_lead s l r : reads_members s l r -> exists c t, skip_ws s = String c t /\ is_byte 34 c = true.
Proof. intros H. inversion H as [? ? ? ? ? H'|? ? ? ? ? ? ? H']; inversion H'; eauto. Qed.

Lemma reads_parse :
  (forall s v r, reads_value s v r -> forall f d, d + nesting v <= max_nesting -> (2 * String.length s <= f)%nat ->
     parse_value f d s = Some (v, r)) /\
  (forall s l r, reads_elements s l r -> forall f d, d + foldr Z.max 0 (map nesting l) <= max_nesting ->
     (2 * String.length s + 1 <= f)%nat -> parse_elements f d s = Some (l, r)) /\
  (forall s l r, reads_members s l r -> forall f d,
     d + foldr Z.max 0 (map (fun kv => nesting (snd kv)) l) <= max_nesting ->
     (2 * String.length s + 1 <= f)%nat -> parse_members f d s = Some (l, r)) /\
  (forall s kv r, reads_member s kv r -> exists q s1 s2 c s3, skip_ws s = String q s1 /\ is_byte 34 q = true /\
     parse_string s1 = Some (fst kv, s2) /\ skip_ws s2 = String c s3 /\ is_byte 58 c = true /\
     (String.length s3 < String.length s)%nat /\ forall f d, d + nesting (snd kv) <= max_nesting ->
     (2 * String.length s3 <= f)%nat -> parse_value f d s3 = Some (snd kv, r)).
Proof.
  apply reads_ind.
  - intros s c t v r E H1 H2 Ed f d _ Hf. pose proof (skip_ws_shorter _ _ _ E). destruct f as [|f]; [lia|].
    by rewrite (scalar_fuel _ _ _ _ _ E).
  - intros s c t b r E H1 Et Hb f d Hd Hf. pose proof (skip_ws_shorter _ _ _ E). destruct f as [|f]; [lia|].
    cbn [nesting map foldr] in Hd. cbn [parse_value]. rewrite E, H1, Et, Hb.
    by rewrite (proj2 (Z.leb_gt _ _)) by lia.
  - intros s c t l r E H1 Hm IH f d Hd Hf. pose proof (skip_ws_shorter _ _ _ E) as Hs. destruct f as [|f]; [lia|].
    cbn [nesting] in Hd. cbn [parse_value]. rewrite E, H1.
    pose proof (max_nonneg (map (fun kv => nesting (snd kv)) l)).
    rewrite (proj2 (Z.leb_gt _ _)) by lia. destruct (members_lead _ _ _ Hm) as (q & u & -> & Hq).
    rewrite (byte_differs 34 125 q) by done. by rewrite IH by lia.
  - intros s c t b r E H1 Et Hb f d Hd Hf. pose proof (skip_ws_shorter _ _ _ E). destruct f as [|f]; [lia|].
    cbn [nesting map foldr] in Hd. cbn [parse_value]. rewrite E, H1, Et, Hb, (byte_differs 91 123 c) by done.
    by rewrite (proj2 (Z.leb_gt _ _)) by lia.
  - intros s c t l r E H1 He IH f d Hd Hf. pose proof (skip_ws_shorter _ _ _ E) as Hs. destruct f as [|f]; [lia|].
    cbn [nesting] in Hd. cbn [parse_value]. rewrite E, H1, (byte_differs 91 123 c) by done.
    pose proof (max_nonneg (map nesting l)).
    rewrite (proj2 (Z.leb_gt _ _)) by lia. destruct (elements_lead _ _ _ He) as (q & u & -> & Hq).
    apply leads_not_close in Hq as [-> _]. by rewrite IH by lia.
  - intros s v r c r' _ IH E Hc f d Hd Hf. cbn [map foldr] in Hd. destruct f as [|f]; [lia|]. cbn [parse_elements].
    rewrite IH, E, (byte_differs 93 44 c), Hc by (done || lia). done.
  - intros s v r c r' l r'' Hv IH E Hc He IHe f d Hd Hf. cbn [map foldr] in Hd. destruct f as [|f]; [lia|].
    apply reads_shorter in Hv. pose proof (skip_ws_shorter _ _ _ E).
    cbn [parse_elements]. rewrite IH, E, Hc, IHe by lia. done.
  - intros s [k v] r c r' _ (q & s1 & s2 & b & s3 & Es & Hq & Ek & E2 & Hb & Hl & IH) E Hc f d Hd Hf.
    cbn [map foldr fst snd] in *. destruct f as [|f]; [lia|]. cbn [parse_members].
    rewrite Es, Hq, Ek, E2, Hb. cbn [negb]. rewrite IH, E, (byte_differs 125 44 c), Hc by (done || lia). done.
  - intros s [k v] r c r' l r'' Hm (q & s1 & s2 & b & s3 & Es & Hq & Ek & E2 & Hb & Hl & IH) E Hc He IHe f d Hd Hf.
    cbn [map foldr fst snd] in *. destruct f as [|f]; [lia|]. apply reads_shorter in Hm.
    pose proof (skip_ws_shorter _ _ _ E). cbn [parse_members].
    rewrite Es, Hq, Ek, E2, Hb. cbn [negb]. rewrite IH, E, Hc, IHe by lia. done.
  - intros s q s1 k s2 c s3 v r Es Hq Ek E2 Hc _ IH. exists q, s1, s2, c, s3. split_and!; try done.
    apply skip_ws_shorter in Es, E2. apply parse_string_shorter in Ek. lia.
Qed.

(** A text is one value iff the grammar says so. *)
Lemma decode_text_iff s v : nesting v <= max_nesting ->
  decode_text s = Some v <-> exists r, reads_value s v r /\ skip_ws r = "".
Proof.
  intros Hn. unfold decode_text, decode_value. split.
  - destruct (parse_value _ _ _) as [[v' r]|] eqn:E; [|done]. destruct (String.eqb_spec (skip_ws r) ""); [|done].
    intros [= ->]. apply parse_reads in E. eauto.
  - intros (r & Hr & E). apply (proj1 reads_parse _ _ _) with (f := (3 * String.length s + 3)%nat) (d := 0) in Hr; [|lia..].
    by rewrite Hr, E.
Qed.

(** ** What [Token] does where a value may come *)

Section Values.
Variables (u : string) (st : token_state) (stack : list token_state).
Hypothesis allowed : tokenValueAllowed st = true.

Lemma Token_open c t : skip_ws u = String c t -> is_byte 91 c || is_byte 123 c = true ->
  Token (Decoder u st stack) =
    Token_ok (Delim c) (Decoder t (if is_byte 91 c then tokenArrayStart else tokenObjectStart) (st :: stack)).
Proof using allowed.
  intros E Hc. unfold Token, token_round. cbn [unread]. rewrite E. unfold token_on. cbn [tokenState tokenStack].
  by rewrite Hc, allowed.
Qed.

Definition scalar_token (v : json) : token := match v with JStr s => TString s | _ => TScalar end.

(** A character that starts a value which is no container. *)
Lemma token_on_scalar c t : is_byte 91 c || is_byte 123 c = false ->
  is_byte 93 c || is_byte 125 c || is_byte 58 c || is_byte 44 c = false ->
  token_on c t (Decoder u st stack) =
    Some match decode_scalar (String c t) with
         | Some (v, r) => Token_ok (scalar_token v) (Decoder r (tokenValueEnd st) stack)
         | None => Token_error
         end.
Proof using allowed.
  intros H1 H2. rewrite !orb_false_iff in H2. destruct H2 as [[[H93 H125] H58] H44].
  unfold token_on. cbn [tokenState tokenStack]. rewrite H1, H93, H125, H58, H44, allowed.
  rewrite (bool_decide_eq_false_2 (st = tokenObjectStart)), (bool_decide_eq_false_2 (st = tokenObjectKey)),
    andb_false_r by (by intros ->).
  by destruct (decode_scalar (String c t)) as [[[] r]|].
Qed.

Lemma Token_scalar c t v r : skip_ws u = String c t -> is_byte 91 c = false -> is_byte 123 c = false ->
  decode_scalar (String c t) = Some (v, r) ->
  Token (Decoder u st stack) = Token_ok (scalar_token v) (Decoder r (tokenValueEnd st) stack).
Proof using allowed.
  intros E H1 H2 Hd. unfold Token, token_round. cbn [unread]. rewrite E, token_on_scalar; [by rewrite Hd|by rewrite H1, H2|].
  apply not_true_iff_false. intros Hc. by rewrite delimiter_no_scalar in Hd.
Qed.

(** The only tokens there are. *)
Lemma Token_value_cases tok d : Token (Decoder u st stack) = Token_ok tok d ->
  (exists c t, skip_ws u = String c t /\ is_byte 91 c || is_byte 123 c = true /\ tok = Delim c /\
     d = Decoder t (if is_byte 91 c then tokenArrayStart else tokenObjectStart) (st :: stack)) \/
  (exists c t v r, skip_ws u = String c t /\ is_byte 91 c = false /\ is_byte 123 c = false /\
     decode_scalar (String c t) = Some (v, r) /\ tok = scalar_token v /\ d = Decoder r (tokenValueEnd st) stack) \/
  (exists c, tok = Delim c /\ is_byte 91 c = false /\ is_byte 123 c = false).
Proof using allowed.
  destruct (skip_ws u) as [|c t] eqn:E; [unfold Token, token_round; cbn [unread]; by rewrite E|].
  destruct (is_byte 91 c || is_byte 123 c) eqn:H1.
  { rewrite (Token_open c t) by done. intros [= <- <-]. left. eauto 10. }
  pose proof H1 as Hop. apply orb_false_iff in Hop as [H91 H123].
  destruct (is_byte 93 c || is_byte 125 c || is_byte 58 c || is_byte 44 c) eqn:H2.
  - unfold Token, token_round. cbn [unread]. rewrite E. unfold token_on. cbn [tokenState tokenStack]. rewrite H1.
    intros H. right. right. exists c. split_and!; try done. revert H.
    destruct (is_byte 93 c); [|destruct (is_byte 125 c)]; [| |destruct (is_byte 58 c); [|destruct (is_byte 44 c); [|done]]];
      destruct st; try done; destruct stack; try done; by intros [= <- _].
  - unfold Token, token_round. cbn [unread]. rewrite E, token_on_scalar by done.
    destruct (decode_scalar (String c t)) as [[v r]|] eqn:Ed; [|done]. intros [= <- <-]. right. left. eauto 12.
Qed.
End Values.

(** ** Keys, separators and closing brackets *)

(** A consumed separator does not change what [Token] gives. *)
Lemma Token_separator d : token_round d = None -> Token d = Token (after_separator d).
Proof.
  intros H. unfold Token at 1. rewrite H. pose proof (no_second_separator _ H). unfold Token.
  by destruct (token_round (after_separator d)).
Qed.

(** The states in which a separator may come, the separator and what follows. *)
Definition separated (s : token_state) : option (Z * token_state) :=
  match s with
  | tokenObjectColon => Some (58, tokenObjectValue)
  | tokenArrayComma => Some (44, tokenArrayValue)
  | tokenObjectComma => Some (44, tokenObjectKey)
  | _ => None
  end.

Lemma Token_after s b s' u c t stack : separated s = Some (b, s') -> skip_ws u = String c t -> is_byte b c = true ->
  Token (Decoder u s stack) = Token (Decoder t s' stack).
Proof.
  intros Hs E Hb. assert (after_separator (Decoder u s stack) = Decoder t s' stack) as <-.
  { unfold after_separator. cbn [unread tokenState tokenStack]. rewrite E. by destruct s; try done; injection Hs as <- <-. }
  apply Token_separator. unfold token_round. cbn [unread]. rewrite E. unfold token_on. cbn [tokenState tokenStack].
  destruct s; try done; injection Hs as <- <-;
    repeat match goal with |- context [is_byte ?a c] => first [rewrite Hb | rewrite (byte_differs _ a c Hb) by done] end; done.
Qed.

(** In such a state a token other than a closing bracket follows its
    separator. *)
Lemma Token_needs_separator s b s' u stack tok d : separated s = Some (b, s') ->
  Token (Decoder u s stack) = Token_ok tok d ->
  (exists c t, skip_ws u = String c t /\ is_byte b c = true /\ Token (Decoder t s' stack) = Token_ok tok d) \/
  (exists c, tok = Delim c /\ (is_byte 93 c || is_byte 125 c) = true).
Proof.
  intros Hs H. destruct (skip_ws u) as [|c t] eqn:E; [unfold Token, token_round in H; cbn [unread] in H; by rewrite E in H|].
  destruct (is_byte b c) eqn:Hb; [left; exists c, t; split_and!; [done..|]; by rewrite <- (Token_after s b s' u c t stack)|].
  right. revert H. unfold Token, token_round. cbn [unread]. rewrite E. unfold token_on. cbn [tokenState tokenStack].
  destruct (is_byte 91 c || is_byte 123 c); [destruct s; done|].
  destruct (is_byte 93 c) eqn:H93; [destruct s; try done; destruct stack; try done; intros [= <- _]; exists c; by rewrite H93|].
  destruct (is_byte 125 c) eqn:H125; [destruct s; try done; destruct stack; try done; intros [= <- _]; exists c; by rewrite H125, orb_true_r|].
  destruct s; try done; injection Hs as <- <-; rewrite ?Hb, !bool_decide_eq_false_2, andb_false_r by done; cbn;
    repeat match goal with |- context [is_byte ?a c] => destruct (is_byte a c) end; done.
Qed.

Definition at_key (s : token_state) : bool := match s with tokenObjectStart | tokenObjectKey => true | _ => false end.

Lemma Token_key u s stack q t k r : at_key s = true -> skip_ws u = String q t -> is_byte 34 q = true ->
  parse_string t = Some (k, r) ->
  Token (Decoder u s stack) = Token_ok (TString k) (Decoder r tokenObjectColon stack).
Proof.
  intros Hs E Hq Hp. unfold Token, token_round. cbn [unread]. rewrite E. unfold token_on. cbn [tokenState tokenStack].
  rewrite !(byte_differs 34 _ q Hq) by done. rewrite Hq, Hp. by destruct s.
Qed.

(** At the start of an object and after a comma in it only a key is a string. *)
Lemma Token_key_inv u s stack k d : at_key s = true -> Token (Decoder u s stack) = Token_ok (TString k) d ->
  exists q t r, skip_ws u = String q t /\ is_byte 34 q = true /\ parse_string t = Some (k, r) /\
    d = Decoder r tokenObjectColon stack.
Proof.
  intros Hs. unfold Token, token_round. cbn [unread]. destruct (skip_ws u) as [|q t] eqn:E; [done|].
  destruct (is_byte 34 q) eqn:Hq.
  - unfold token_on. cbn [tokenState tokenStack]. rewrite !(byte_differs 34 _ q Hq) by done. rewrite Hq.
    assert (bool_decide (s = tokenObjectStart) || bool_decide (s = tokenObjectKey) = true) as -> by (by destruct s).
    cbn [andb orb]. destruct (parse_string t) as [[k' r]|] eqn:Hp; [|done]. intros [= -> <-]. eauto 10.
  - unfold token_on. cbn [tokenState tokenStack]. rewrite Hq. cbn [andb].
    destruct (is_byte 91 q || is_byte 123 q); [destruct s; done|].
    destruct (is_byte 93 q); [destruct s; done|].
    destruct (is_byte 125 q); [destruct s; try done; destruct stack; done|].
    destruct (is_byte 58 q); [destruct s; done|]. destruct (is_byte 44 q); destruct s; done.
Qed.

(** The state in which a container can be closed. *)
Definition closable (b : Z) (s : token_state) : bool :=
  match s with
  | tokenArrayStart | tokenArrayComma => b =? 93
  | tokenObjectStart | tokenObjectComma => b =? 125
  | _ => false
  end.

Lemma Token_close b u s s' stack c t : closable b s = true -> skip_ws u = String c t -> is_byte b c = true ->
  Token (Decoder u s (s' :: stack)) = Token_ok (Delim c) (Decoder t (tokenValueEnd s') stack).
Proof.
  intros Hs E Hb. unfold Token, token_round. cbn [unread]. rewrite E. unfold token_on. cbn [tokenState tokenStack].
  destruct s; try done; cbn [closable] in Hs; apply Z.eqb_eq in Hs as ->;
    rewrite !(byte_differs _ 91 c Hb), !(byte_differs _ 123 c Hb) by done;
    rewrite ?(byte_differs _ 93 c Hb) by done; by rewrite Hb.
Qed.

Lemma Token_close_inv b u s s' stack c d : b = 93 \/ b = 125 -> More (Decoder u s (s' :: stack)) = false ->
  Token (Decoder u s (s' :: stack)) = Token_ok (Delim c) d -> is_byte b c = true ->
  exists t, skip_ws u = String c t /\ d = Decoder t (tokenValueEnd s') stack.
Proof.
  unfold More, Token, token_round. cbn [unread]. intros Hb Hm. destruct (skip_ws u) as [|c' t]; [done|].
  apply negb_false_iff in Hm. unfold token_on. cbn [tokenState tokenStack].
  assert (is_byte 91 c' || is_byte 123 c' = false) as ->.
  { apply orb_true_iff in Hm as [Hm|Hm]; by rewrite !(byte_differs _ _ c' Hm). }
  destruct (is_byte 93 c'); [|destruct (is_byte 125 c'); [|done]]; destruct s; try done; intros [= <- <-] _; eauto.
Qed.

Lemma More_leads u s stack c t : skip_ws u = String c t -> is_byte 93 c = false -> is_byte 125 c = false ->
  More (Decoder u s stack) = true.
Proof. intros E H1 H2. unfold More. cbn [unread]. by rewrite E, H1, H2. Qed.

Lemma More_close b u s stack c t : b = 93 \/ b = 125 -> skip_ws u = String c t -> is_byte b c = true ->
  More (Decoder u s stack) = false.
Proof.
  intros [-> | ->] E Hb; unfold More; cbn [unread]; rewrite E, Hb; [done|by rewrite orb_true_r].
Qed.

Lemma token_on_not_EOF c t d : token_on c t d <> Some Token_EOF.
Proof. unfold token_on, close. repeat case_match; congruence. Qed.

(** After the value of a text the end comes when nothing is left. *)
Lemma Token_end u : Token (Decoder u tokenTopValue []) = Token_EOF <-> skip_ws u = "".
Proof.
  unfold Token, token_round. cbn [unread]. destruct (skip_ws u) as [|c t] eqn:E; [done|]. split; [|done].
  pose proof (token_on_not_EOF c t (Decoder u tokenTopValue [])) as Hne.
  destruct (token_on c t _) as [r|] eqn:Et; [congruence|]. revert Et. unfold token_on. cbn [tokenState].
  destruct (is_byte 91 c || is_byte 123 c); [done|]. destruct (is_byte 93 c); [done|]. destruct (is_byte 125 c); [done|].
  destruct (is_byte 58 c); [done|]. destruct (is_byte 44 c); [done|]. by destruct (_ && _).
Qed.
