(* ===== verification/Unmarshal.v ===== *)
(** * [json.Unmarshal] into Go structs

    What [encoding/json] does with the types the SARIF wire structs use.  A
    [json.RawMessage] is kept as the value its text denotes: the text is the
    text of a JSON value, every use of it decodes it again, and the only text
    compared literally is null.  Members are matched to fields without regard
    to case; a member that comes later is decoded into what the earlier one
    left behind.  A value of the wrong type makes the whole call fail, after
    the rest was decoded, so [None] loses nothing the callers look at. *)

From S2P Require Import Prelude GoStrings Encoding Json.

Local Open Scope Z_scope.

(** The members of a value that is decoded into a struct or a map; null leaves
    it empty. *)
Definition members (v : json) : option (list (string * json)) :=
  match v with JObj l => Some l | JNull => Some [] | _ => None end.

(** The values decoded into the field [name], in order. *)
Definition values_of (name : string) (m : list (string * json)) : list json :=
  map snd (List.filter (fun kv => String.eqb (fold_name (fst kv)) (fold_name name)) m).

(** One field: its values decoded one after the other. *)
Definition field {A} (decode : json -> A -> option A) (zero : A) (name : string) (m : list (string * json)) : option A :=
  foldl (fun acc v => acc ≫= decode v) (Some zero) (values_of name m).

(** [string] *)
Definition into_string (v : json) (old : string) : option string :=
  match v with JNull => Some old | JStr s => Some s | _ => None end.

(** [json.RawMessage]; [None] is the empty message. *)
Definition into_raw (v : json) (_ : option json) : option (option json) := Some (Some v).

(** [[]json.RawMessage] *)
Definition into_raws (v : json) (_ : list json) : option (list json) :=
  match v with JNull => Some [] | JArr l => Some l | _ => None end.

(** [*bool] and [*int] *)
Definition into_bool (v : json) (_ : option bool) : option (option bool) :=
  match v with JNull => Some None | JBool b => Some (Some b) | _ => None end.

Definition into_int (v : json) (_ : option Z) : option (option Z) :=
  match v with JNull => Some None | JNum n => Some <$> parse_int n | _ => None end.

(** [[]string]: the array behind the slice and the length of the slice.  An
    element is decoded over what the array holds, which null keeps. *)
Record string_slice := Slice { backing : list string; slice_len : nat }.
Definition slice (s : string_slice) : list string := take (slice_len s) (backing s).

Definition into_element (i : nat) (v : json) (s : list string) : option string :=
  into_string v (default "" (s !! i)).

Definition into_strings (v : json) (old : string_slice) : option string_slice :=
  match v with
  | JNull | JArr [] => Some (Slice [] 0)
  | JArr l =>
      (fun new => Slice (new ++ drop (length l) (backing old)) (length l)) <$>
        mapM id (imap (fun i v => into_element i v (backing old)) l)
  | _ => None
  end.

(** [map[string]string], kept sorted by key: entries are added to the map
    that is there, null empties it. *)
Definition into_entry (acc : option (list (string * string))) (kv : string * json) : option (list (string * string)) :=
  m ← acc; s ← into_string (snd kv) ""; Some (put_member (fst kv) s m).

Definition into_map (v : json) (old : list (string * string)) : option (list (string * string)) :=
  match v with
  | JNull => Some []
  | JObj l => foldl into_entry (Some old) l
  | _ => None
  end.

(** [map[string]json.RawMessage], sorted by key. *)
Definition raw_map (v : json) : option (list (string * json)) := sort_members <$> members v.

Definition string_field := field into_string "".
Definition raw_field := field into_raw None.
Definition raws_field := field into_raws [].
Definition bool_field := field into_bool None.
Definition int_field := field into_int None.
Definition strings_field := field into_strings (Slice [] 0).
Definition map_field := field into_map [].

Definition field_of {A} (get : list (string * json) -> option A) (text : string) : option A :=
  v ← decode_text (dq text); m ← members v; get m.

Example later_members :
  field_of (string_field "id") "{'Id':'a','ID':null,'id':'b','iD':null}" = Some "b" /\
  field_of (strings_field "arguments") "{'arguments':['a','b'],'Arguments':[null,null,'c']}"
    = Some (Slice ["a"; "b"; "c"] 3) /\
  field_of (int_field "index") "{'index':1.5}" = None.
Proof. vm_compute. done. Qed.
