(* ===== verification/Queue.v ===== *)
(** * The PostgreSQL job queue (src/internal/jobqueue/queue.go)

    [Module JobQueue] holds the queue's tables, the validators, and one
    definition per queue operation, each a database program ([Txn.prog]) with
    the statements, guards and early returns of the Go method.  What the
    outside world decides during one call (the transaction's [now()],
    [clock_timestamp()], rows locked by other transactions, the executor's
    scan order, random bytes) is the argument [env]; what PostgreSQL and its
    driver do that the repository does not define is the class [Postgres]. *)

From S2P Require Import Prelude GoStrings Encoding Txn Json.
From Stdlib Require Import Ascii SpecFloat.

Local Open Scope Z_scope.

(** The database server and its driver, as far as the queue depends on them:
    the resolution of stored times, the [jsonb] type, and text collation. *)
Class Postgres := {
  store_time : time -> time;
  store_time_mono : forall a b, a <= b -> store_time a <= store_time b;
  store_time_exact : forall t, t mod Microsecond = 0 -> store_time t = t;
  jsonb_in : string -> option string;
  jsonb_is_object : string -> bool;
  jsonb_size : string -> Z;
  text_leb : string -> string -> bool;
  text_leb_total : forall a b, text_leb a b = true \/ text_leb b a = true;
  text_leb_trans : forall a b c, text_leb a b = true -> text_leb b c = true -> text_leb a c = true
}.

Module JobQueue.

Definition maxPayloadBytes : Z := Z.shiftl 60 10.
Definition minLease : duration := Second.
Definition maxLease : duration := Hour.

Inductive error :=
| ErrConflict
| ErrCancellationRequested
| ErrInvalid
| ErrLeaseLost
| ErrNotFound
| ErrNotCancellable
| ErrDatabase (action : string)   (* fmt.Errorf("action: %w", err) of a failed call *)
| ErrRandom.                      (* crypto/rand failed *)

#[global] Instance error_eq_dec : EqDecision error.
Proof. solve_decision. Defined.

Inductive State := Queued | Leased | Running | RetryWait | Succeeded | DeadLetter | Cancelled.

#[global] Instance State_eq_dec : EqDecision State.
Proof. solve_decision. Defined.

Definition state_eqb (a b : State) : bool := bool_decide (a = b).

(** state IN ('leased', 'running') and state IN ('queued', 'retry_wait') *)
Definition active (s : State) : bool := match s with Leased | Running => true | _ => false end.
Definition waiting (s : State) : bool := match s with Queued | RetryWait => true | _ => false end.
Definition terminal (s : State) : bool :=
  match s with Succeeded | DeadLetter | Cancelled => true | _ => false end.

(** [ErrorClass] is a string type: a caller can pass any value. *)
Definition ErrorRetryable : string := "retryable".
Definition ErrorPermanent : string := "permanent".

Record Spec := {
  s_WorkspaceID : string;
  s_OperationID : string;
  s_InitiatingPrincipalID : string;
  s_SystemCapability : string;
  s_Queue : string;
  s_Kind : string;
  s_SchemaVersion : Z;
  s_Payload : string;
  s_IdempotencyKey : string;
  s_Priority : Z;
  s_AvailableAt : time;
  s_MaxAttempts : Z
}.

(** The columns of [open_aspm.jobs] that INSERT sets and no UPDATE names. *)
Record job_core := JobCore {
  c_id : string;
  c_workspace_id : string;
  c_operation_id : option string;
  c_initiating_principal_id : string;
  c_system_capability : string;
  c_queue : string;
  c_kind : string;
  c_schema_version : Z;
  c_payload : string;
  c_idempotency_key : string;
  c_request_fingerprint : string;
  c_priority : Z;
  c_max_attempts : Z;
  c_created_at : time
}.

Record row := Row {
  core : job_core;
  state : State;
  available_at : time;
  attempt_count : Z;
  lease_owner : option string;
  lease_token_hash : option string;
  lease_expires_at : option time;
  heartbeat_at : option time;
  cancellation_requested_at : option time;
  last_error_class : option string;
  last_error_code : option string;
  started_at : option time;
  completed_at : option time
}.

#[global] Instance job_core_eq_dec : EqDecision job_core.
Proof. solve_decision. Defined.
#[global] Instance row_eq_dec : EqDecision row.
Proof. solve_decision. Defined.

(** [open_aspm.job_attempts]. *)
Record attempt := Attempt {
  a_workspace_id : string;
  a_lease_owner : string;
  a_leased_at : time;
  a_started_at : option time;
  a_last_heartbeat_at : time;
  a_finished_at : option time;
  a_outcome : option string;
  a_safe_error_code : option string
}.

Record database := Database {
  workspaces : gset string;
  jobs : gmap string row;
  attempts : gmap (string * Z) attempt
}.

Definition set_jobs (d : database) (j : gmap string row) : database :=
  Database (workspaces d) j (attempts d).
Definition set_attempts (d : database) (a : gmap (string * Z) attempt) : database :=
  Database (workspaces d) (jobs d) a.

(** What the outside world decides during one call. *)
Record env := {
  tx_now : time;                       (* now() *)
  clock : nat -> time;                 (* successive clock_timestamp() readings *)
  row_locked : string -> bool;         (* rows SKIP LOCKED passes over *)
  scan_rank : string -> Z;             (* order of rows whose ORDER BY keys tie *)
  random_bytes : Z -> option string    (* rand.Read into a buffer of that size *)
}.

Record Job := {
  ID : string; WorkspaceID : string; OperationID : string; InitiatingPrincipalID : string;
  SystemCapability : string; Queue : string; Kind : string; SchemaVersion : Z; Payload : string;
  IdempotencyKey : string; JobState : State; Priority : Z; AvailableAt : time; AttemptCount : Z;
  MaxAttempts : Z; LeaseOwner : string; LeaseExpiresAt : option time; HeartbeatAt : option time;
  CancellationRequestedAt : option time; LastErrorClass : string; LastErrorCode : string;
  CreatedAt : time; StartedAt : option time; CompletedAt : option time;
  requestFingerprint : string
}.

(** [scanJob] over [jobColumns]: every column but the token hash. *)
Definition scanJob (r : row) : Job :=
  let c := core r in
  {| ID := c_id c; WorkspaceID := c_workspace_id c; OperationID := null_string (c_operation_id c);
     InitiatingPrincipalID := c_initiating_principal_id c; SystemCapability := c_system_capability c;
     Queue := c_queue c; Kind := c_kind c; SchemaVersion := c_schema_version c;
     Payload := c_payload c; IdempotencyKey := c_idempotency_key c; JobState := state r;
     Priority := c_priority c; AvailableAt := available_at r; AttemptCount := attempt_count r;
     MaxAttempts := c_max_attempts c; LeaseOwner := null_string (lease_owner r);
     LeaseExpiresAt := lease_expires_at r; HeartbeatAt := heartbeat_at r;
     CancellationRequestedAt := cancellation_requested_at r;
     LastErrorClass := null_string (last_error_class r);
     LastErrorCode := null_string (last_error_code r);
     CreatedAt := c_created_at c; StartedAt := started_at r; CompletedAt := completed_at r;
     requestFingerprint := c_request_fingerprint c |}.

Record Lease := { lease_job : Job; token : string }.

Record Failure := { Class : string; Code : string }.

(** ** Validation *)

Definition validName (value : string) : bool := match_head is_lower name_char 62 value.
Definition validKey (value : string) : bool := match_class key_char 1 128 value.
Definition validCapability (value : string) : bool := match_head is_lower capability_char 127 value.

Definition validCode (value : string) : bool :=
  negb (String.eqb value "") && (slen value <=? 128) && match_head is_lower name_char 62 value.

(** [validateOpaqueID] of this package counts bytes, not runes. *)
Definition validateOpaqueID (value : string) : bool :=
  negb ((slen value <? 3) || (128 <? slen value) || negb (String.eqb (TrimSpace value) value) ||
        has_nul value).

Definition validateResourceIdentity (workspaceID id : string) : bool :=
  validateOpaqueID workspaceID && validateOpaqueID id.

Definition validateLeaseIdentity (workspaceID id token : string) : bool :=
  validateResourceIdentity workspaceID id && HasPrefix token "lease_" &&
  (slen token =? slen "lease_" + 52).

Definition hashLeaseToken (token : string) : string := sha256 token.

Definition validateSpec (spec : Spec) : bool :=
  validateOpaqueID (s_WorkspaceID spec) &&
  (String.eqb (s_OperationID spec) "" || validateOpaqueID (s_OperationID spec)) &&
  validateOpaqueID (s_InitiatingPrincipalID spec) &&
  validCapability (s_SystemCapability spec) && validName (s_Queue spec) &&
  validName (s_Kind spec) && (0 <? s_SchemaVersion spec) &&
  validKey (s_IdempotencyKey spec) &&
  (-1000 <=? s_Priority spec) && (s_Priority spec <=? 1000) &&
  (0 <? s_MaxAttempts spec) && (s_MaxAttempts spec <=? 100) &&
  negb (slen (s_Payload spec) =? 0) && (slen (s_Payload spec) <=? maxPayloadBytes) &&
  json_valid (s_Payload spec).

(** The canonical payload and the JSON text that is fingerprinted. *)
Definition fingerprint_input (spec : Spec) (payload : json) : json :=
  JObj ([("workspace_id", JStr (s_WorkspaceID spec))] ++
        omit_empty "operation_id" (s_OperationID spec) ++
        [("initiating_principal_id", JStr (s_InitiatingPrincipalID spec));
         ("system_capability", JStr (s_SystemCapability spec));
         ("queue", JStr (s_Queue spec));
         ("kind", JStr (s_Kind spec));
         ("schema_version", JInt (s_SchemaVersion spec));
         ("payload", payload);
         ("priority", JInt (s_Priority spec));
         ("available_at",
            JStr (if IsZero (s_AvailableAt spec) then "" else rfc3339nano (s_AvailableAt spec)));
         ("max_attempts", JInt (s_MaxAttempts spec))]).

Definition fingerprintSpec (spec : Spec) : result error (string * string) :=
  guard! validateSpec spec else ErrInvalid in
  match decode_value (s_Payload spec) with
  | Some (JObj members, rest) =>
      guard! String.eqb (skip_ws rest) "" else ErrInvalid in
      let payload := to_any (JObj members) in
      guard! slen (print payload) <=? maxPayloadBytes else ErrInvalid in
      Ok (print payload, sha256 (print (fingerprint_input spec payload)))
  | _ => Err ErrInvalid
  end.

(** [sameSpec]: the payloads are compared after decoding and re-encoding. *)
Definition sameSpec (job : Job) (spec : Spec) : bool :=
  match decode_value (Payload job), decode_value (s_Payload spec) with
  | Some (existing, _), Some (requested, _) =>
      String.eqb (OperationID job) (s_OperationID spec) &&
      String.eqb (InitiatingPrincipalID job) (s_InitiatingPrincipalID spec) &&
      String.eqb (SystemCapability job) (s_SystemCapability spec) &&
      (SchemaVersion job =? s_SchemaVersion spec) &&
      String.eqb (print (to_any existing)) (print (to_any requested)) &&
      (Priority job =? s_Priority spec) && (MaxAttempts job =? s_MaxAttempts spec)
  | _, _ => false
  end.

(** ** The schema (migration 00002_job_queue.sql) *)

Definition char_length_between (lo hi : Z) (s : string) : bool :=
  (lo <=? RuneCountInString s) && (RuneCountInString s <=? hi).

Definition opt_check {A} (f : A -> bool) (o : option A) : bool :=
  match o with Some a => f a | None => true end.

Section WithPostgres.
Context {pg : Postgres}.

(** The CHECK constraints on the columns INSERT sets. *)
Definition check_core (c : job_core) : bool :=
  opt_check (char_length_between 3 128) (c_operation_id c) &&
  char_length_between 3 128 (c_initiating_principal_id c) &&
  match_head is_lower capability_char 127 (c_system_capability c) &&
  match_head is_lower name_char 127 (c_queue c) &&
  match_head is_lower name_char 127 (c_kind c) &&
  (0 <? c_schema_version c) && (c_schema_version c <? 2 ^ 31) &&
  jsonb_is_object (c_payload c) && (jsonb_size (c_payload c) <=? 65536) &&
  match_class key_char 1 128 (c_idempotency_key c) &&
  (slen (c_request_fingerprint c) =? 32) &&
  (-1000 <=? c_priority c) && (c_priority c <=? 1000) &&
  (1 <=? c_max_attempts c) && (c_max_attempts c <=? 100).

(** jobs_attempts_valid and jobs_attempt_state_valid *)
Definition check_attempts (r : row) : bool :=
  (0 <=? attempt_count r) && (attempt_count r <=? c_max_attempts (core r)) &&
  (negb (waiting (state r)) || (attempt_count r <? c_max_attempts (core r))) &&
  (negb (active (state r)) || (0 <? attempt_count r)).

(** jobs_lease_owner_length, jobs_lease_token_hash_length and
    jobs_lease_fields_consistent *)
Definition check_lease (r : row) : bool :=
  opt_check (char_length_between 1 128) (lease_owner r) &&
  opt_check (fun h => slen h =? 32) (lease_token_hash r) &&
  ((active (state r) && negb (is_null (lease_owner r)) && negb (is_null (lease_token_hash r)) &&
    negb (is_null (lease_expires_at r)) && negb (is_null (heartbeat_at r))) ||
   (negb (active (state r)) && is_null (lease_owner r) && is_null (lease_token_hash r) &&
    is_null (lease_expires_at r) && is_null (heartbeat_at r))).

(** jobs_running_started, jobs_completed_at_consistent and the constraints on
    the error columns *)
Definition check_lifecycle (r : row) : bool :=
  (negb (state_eqb (state r) Running) || negb (is_null (started_at r))) &&
  Bool.eqb (terminal (state r)) (negb (is_null (completed_at r))) &&
  opt_check (fun c => String.eqb c "retryable" || String.eqb c "permanent" || String.eqb c "worker")
            (last_error_class r) &&
  opt_check (match_head is_lower name_char 127) (last_error_code r).

Definition check_row (r : row) : bool :=
  check_core (core r) && check_attempts r && check_lease r && check_lifecycle r.

(** The constraints of job_attempts. *)
Definition check_attempt (number : Z) (a : attempt) : bool :=
  (0 <? number) && char_length_between 1 128 (a_lease_owner a) &&
  opt_check (fun o => String.eqb o "succeeded" || String.eqb o "retry" || String.eqb o "dead_letter" ||
                      String.eqb o "cancelled" || String.eqb o "lease_expired") (a_outcome a) &&
  Bool.eqb (is_null (a_finished_at a)) (is_null (a_outcome a)) &&
  opt_check (match_head is_lower name_char 127) (a_safe_error_code a).

(** Writing a row back: the statement fails when a constraint does. *)
Definition put_row (r : row) (d : database) : option database :=
  if check_row r then Some (set_jobs d (<[c_id (core r) := r]> (jobs d))) else None.

Definition put_attempt (id : string) (number : Z) (a : attempt) (d : database) : option database :=
  if check_attempt number a then Some (set_attempts d (<[(id, number) := a]> (attempts d))) else None.

(** UPDATE jobs ... WHERE workspace_id = $1 AND id = $2 AND [cond]: the row it
    touches, if any. *)
Definition target (d : database) (workspaceID id : string) (cond : row -> bool) : option row :=
  match jobs d !! id with
  | Some r => if String.eqb (c_workspace_id (core r)) workspaceID && cond r then Some r else None
  | None => None
  end.

(** An UPDATE of at most one job row, with the number of rows affected. *)
Definition update_job (workspaceID id : string) (cond : row -> bool) (change : row -> row)
  (d : database) : option (Z * database) :=
  match target d workspaceID id cond with
  | None => Some (0, d)
  | Some r => match put_row (change r) d with Some d' => Some (1, d') | None => None end
  end.

(** UPDATE job_attempts ... WHERE workspace_id = $1 AND job_id = $2 AND
    attempt_number = $3. *)
Definition update_attempt (workspaceID id : string) (number : Z) (change : attempt -> attempt)
  (d : database) : option (unit * database) :=
  match attempts d !! (id, number) with
  | Some a =>
      if String.eqb (a_workspace_id a) workspaceID
      then match put_attempt id number (change a) d with Some d' => Some (tt, d') | None => None end
      else Some (tt, d)
  | None => Some (tt, d)
  end.

(** UPDATE job_attempts ... FROM jobs WHERE the job still carries the token
    hash and the attempt is its current one. *)
Definition update_current_attempt (workspaceID id hash : string) (change : attempt -> attempt)
  (d : database) : option (unit * database) :=
  match target d workspaceID id (fun r => bool_decide (lease_token_hash r = Some hash)) with
  | Some r => update_attempt workspaceID id (attempt_count r) change d
  | None => Some (tt, d)
  end.

Definition holds (hash : string) (r : row) : bool := bool_decide (lease_token_hash r = Some hash).
Definition unexpired (now : time) (r : row) : bool := opt_check (fun e => now <? e) (lease_expires_at r)
  && negb (is_null (lease_expires_at r)).
Definition expired (now : time) (r : row) : bool := opt_check (fun e => e <=? now) (lease_expires_at r)
  && negb (is_null (lease_expires_at r)).
Definition not_cancelling (r : row) : bool := is_null (cancellation_requested_at r).

(** ** Enqueue *)

Definition same_key (spec : Spec) (c : job_core) : bool :=
  String.eqb (c_workspace_id c) (s_WorkspaceID spec) && String.eqb (c_queue c) (s_Queue spec) &&
  String.eqb (c_kind c) (s_Kind spec) && String.eqb (c_idempotency_key c) (s_IdempotencyKey spec).

Definition find_by_key (spec : Spec) (d : database) : option row :=
  head (rows_where (fun r => same_key spec (core r)) (jobs d)).

(** The row INSERT builds: defaults, NULLIF and COALESCE included. *)
Definition new_row (e : env) (id : string) (spec : Spec) (payload fingerprint : string) : row :=
  Row (JobCore id (s_WorkspaceID spec) (nullif_empty (s_OperationID spec))
         (s_InitiatingPrincipalID spec) (s_SystemCapability spec) (s_Queue spec) (s_Kind spec)
         (s_SchemaVersion spec) payload (s_IdempotencyKey spec) fingerprint (s_Priority spec)
         (s_MaxAttempts spec) (clock e 1%nat))
      Queued
      (if IsZero (s_AvailableAt spec) then clock e 0%nat else store_time (s_AvailableAt spec))
      0 None None None None None None None None None.

(** INSERT ... ON CONFLICT (idempotency key) DO NOTHING: constraints are
    checked first, then the conflict, then the primary and foreign keys. *)
Definition insert_job (e : env) (id : string) (spec : Spec) (canonical fingerprint : string)
  (d : database) : option (Z * database) :=
  match jsonb_in canonical with
  | None => None
  | Some payload =>
      let r := new_row e id spec payload fingerprint in
      if negb (check_row r) then None
      else if negb (is_null (find_by_key spec d)) then Some (0, d)
      else if negb (is_null (jobs d !! id)) then None
      else if negb (bool_decide (s_WorkspaceID spec ∈ workspaces d)) then None
      else Some (1, set_jobs d (<[id := r]> (jobs d)))
  end.

Definition byIdempotencyKey (ex : Executor) (spec : Spec) : prog database error Job :=
  let! found := on_connection (Executor := ex) (ErrDatabase "read enqueued job")
                  (fun d => Some (find_by_key spec d, d)) in
  match found with
  | Some r => done_with (scanJob r)
  | None => fail ErrNotFound
  end.

Definition randomID (e : env) (prefix : string) (byteCount : Z) : result error string :=
  match random_bytes e byteCount with
  | Some value => Ok (encode_id prefix value)
  | None => Err ErrRandom
  end.

(** [enqueue], the common part of [Enqueue] (on the pool) and [EnqueueTx] (in
    the caller's transaction). *)
Definition enqueue (ex : Executor) (e : env) (spec : Spec) : prog database error (Job * bool) :=
  match fingerprintSpec spec with
  | Err err => fail err
  | Ok (canonical, fingerprint) =>
      match randomID e "job_" 20 with
      | Err err => fail err
      | Ok id =>
          let! rows := on_connection (Executor := ex) (ErrDatabase "enqueue job")
                         (insert_job e id spec canonical fingerprint) in
          let! job := byIdempotencyKey ex spec in
          let created := rows =? 1 in
          if negb created && negb (String.eqb (requestFingerprint job) fingerprint)
          then fail ErrConflict
          else done_with (job, created)
      end
  end.

Definition Enqueue := enqueue OnPool.
Definition EnqueueTx := enqueue OnTx.

(** ** Acquire *)

Definition active_count (d : database) (workspaceID queue : string) : Z :=
  count_rows (fun r => String.eqb (c_workspace_id (core r)) workspaceID &&
                       String.eqb (c_queue (core r)) queue && active (state r)) (jobs d).

Definition eligible (e : env) (d : database) (queue : string) (maxInFlight : Z) (r : row) : bool :=
  String.eqb (c_queue (core r)) queue && waiting (state r) && (available_at r <=? tx_now e) &&
  not_cancelling r && (active_count d (c_workspace_id (core r)) (c_queue (core r)) <? maxInFlight) &&
  negb (row_locked e (c_id (core r))).

(** ORDER BY active count, priority DESC, available_at, created_at; ties in
    the executor's scan order. *)
Definition acquire_key (e : env) (d : database) (r : row) : list Z :=
  [active_count d (c_workspace_id (core r)) (c_queue (core r)); - c_priority (core r);
   available_at r; c_created_at (core r); scan_rank e (c_id (core r))].

Fixpoint lex_ltb (a b : list Z) : bool :=
  match a, b with
  | x :: a, y :: b => (x <? y) || ((x =? y) && lex_ltb a b)
  | [], _ :: _ => true
  | _, [] => false
  end.

Definition acquire_ltb (e : env) (d : database) (a b : row) : bool :=
  lex_ltb (acquire_key e d a) (acquire_key e d b).

Definition candidate (e : env) (d : database) (queue : string) (maxInFlight : Z) : option row :=
  match rows_where (eligible e d queue maxInFlight) (jobs d) with
  | [] => None
  | r :: l => Some (argmin (acquire_ltb e d) r l)
  end.

Definition Microseconds (d : duration) : Z := Z.quot d Microsecond.

Definition lease_row (e : env) (owner hash : string) (leaseDuration : duration) (r : row) : row :=
  Row (core r) Leased (available_at r) (attempt_count r + 1) (Some owner) (Some hash)
      (Some (tx_now e + Microseconds leaseDuration * Microsecond)) (Some (tx_now e))
      (cancellation_requested_at r) (last_error_class r) (last_error_code r)
      (started_at r) (completed_at r).

(** WITH candidate ... UPDATE ... RETURNING. *)
Definition acquire_update (e : env) (queue owner hash : string) (leaseDuration : duration)
  (maxInFlight : Z) (d : database) : option (option row * database) :=
  match candidate e d queue maxInFlight with
  | None => Some (None, d)
  | Some r =>
      let r' := lease_row e owner hash leaseDuration r in
      match put_row r' d with Some d' => Some (Some r', d') | None => None end
  end.

Definition insert_attempt (e : env) (job : Job) (owner : string) (d : database)
  : option (unit * database) :=
  let a := Attempt (WorkspaceID job) owner (tx_now e) None (tx_now e) None None None in
  if negb (is_null (attempts d !! (ID job, AttemptCount job))) then None
  else match jobs d !! ID job with
       | None => None
       | Some _ => match put_attempt (ID job) (AttemptCount job) a d with
                   | Some d' => Some (tt, d')
                   | None => None
                   end
       end.

Definition validAcquire (queue owner : string) (leaseDuration : duration) (maxInFlight : Z) : bool :=
  negb (negb (validName queue) || negb (String.eqb (TrimSpace owner) owner) || String.eqb owner "" ||
        has_nul owner || (128 <? slen owner) ||
        (leaseDuration <? minLease) || (maxLease <? leaseDuration) ||
        (maxInFlight <? 1) || (100 <? maxInFlight)).

Definition Acquire (e : env) (queue owner : string) (leaseDuration : duration)
  (maxInFlightPerWorkspace : Z) : prog database error (option Lease) :=
  if negb (validAcquire queue owner leaseDuration maxInFlightPerWorkspace) then fail ErrInvalid
  else match randomID e "lease_" 32 with
  | Err err => fail err
  | Ok token =>
      do! begin (ErrDatabase "begin lease") in
      do! query (ErrDatabase "lock job acquisition") (fun _ => tt) in
      let! found := statement (ErrDatabase "acquire job")
                      (acquire_update e queue owner (hashLeaseToken token) leaseDuration
                                      maxInFlightPerWorkspace) in
      match found with
      | None => done_with None
      | Some r =>
          let job := scanJob r in
          do! statement (ErrDatabase "record job attempt") (insert_attempt e job owner) in
          do! commit (ErrDatabase "commit lease") in
          done_with (Some {| lease_job := job; token := token |})
      end
  end.

(** ** Start and Heartbeat *)

Definition classifyLeaseMiss (e : env) (workspaceID id hash : string) : prog database error unit :=
  let! found := query (ErrDatabase "classify lease loss")
                  (fun d => target d workspaceID id
                     (fun r => holds hash r && active (state r) && unexpired (tx_now e) r)) in
  match found with
  | Some r => if not_cancelling r then fail ErrLeaseLost else fail ErrCancellationRequested
  | None => fail ErrLeaseLost
  end.

Definition start_row (e : env) (r : row) : row :=
  Row (core r) Running (available_at r) (attempt_count r) (lease_owner r) (lease_token_hash r)
      (lease_expires_at r) (heartbeat_at r) (cancellation_requested_at r) (last_error_class r)
      (last_error_code r) (Some (coalesce (started_at r) (tx_now e))) (completed_at r).

Definition start_attempt (e : env) (a : attempt) : attempt :=
  Attempt (a_workspace_id a) (a_lease_owner a) (a_leased_at a)
          (Some (coalesce (a_started_at a) (tx_now e))) (a_last_heartbeat_at a)
          (a_finished_at a) (a_outcome a) (a_safe_error_code a).

Definition can_start (e : env) (hash : string) (r : row) : bool :=
  holds hash r && state_eqb (state r) Leased && unexpired (tx_now e) r && not_cancelling r.

Definition Start (e : env) (workspaceID id token : string) : prog database error unit :=
  if negb (validateLeaseIdentity workspaceID id token) then fail ErrInvalid
  else
    let hash := hashLeaseToken token in
    do! begin (ErrDatabase "begin job start") in
    let! rows := statement (ErrDatabase "start job")
                   (update_job workspaceID id (can_start e hash) (start_row e)) in
    if negb (rows =? 1) then classifyLeaseMiss e workspaceID id hash
    else
      do! statement (ErrDatabase "record job start")
            (update_current_attempt workspaceID id hash (start_attempt e)) in
      commit (ErrDatabase "commit job start").

Definition heartbeat_row (e : env) (leaseDuration : duration) (r : row) : row :=
  Row (core r) (state r) (available_at r) (attempt_count r) (lease_owner r) (lease_token_hash r)
      (Some (tx_now e + Microseconds leaseDuration * Microsecond)) (Some (tx_now e))
      (cancellation_requested_at r) (last_error_class r) (last_error_code r)
      (started_at r) (completed_at r).

Definition heartbeat_attempt (e : env) (a : attempt) : attempt :=
  Attempt (a_workspace_id a) (a_lease_owner a) (a_leased_at a) (a_started_at a) (tx_now e)
          (a_finished_at a) (a_outcome a) (a_safe_error_code a).

Definition can_heartbeat (e : env) (hash : string) (r : row) : bool :=
  holds hash r && active (state r) && unexpired (tx_now e) r && not_cancelling r.

Definition Heartbeat (e : env) (workspaceID id token : string) (leaseDuration : duration)
  : prog database error unit :=
  if (leaseDuration <? minLease) || (maxLease <? leaseDuration) then fail ErrInvalid
  else if negb (validateLeaseIdentity workspaceID id token) then fail ErrInvalid
  else
    let hash := hashLeaseToken token in
    do! begin (ErrDatabase "begin heartbeat") in
    let! rows := statement (ErrDatabase "heartbeat job")
                   (update_job workspaceID id (can_heartbeat e hash) (heartbeat_row e leaseDuration)) in
    if negb (rows =? 1) then classifyLeaseMiss e workspaceID id hash
    else
      do! statement (ErrDatabase "record heartbeat")
            (update_current_attempt workspaceID id hash (heartbeat_attempt e)) in
      commit (ErrDatabase "commit heartbeat").

(** ** Succeed and CancelActive *)

Definition finish_row (e : env) (st : State) (r : row) : row :=
  Row (core r) st (available_at r) (attempt_count r) None None None None
      (cancellation_requested_at r) (last_error_class r) (last_error_code r)
      (started_at r) (Some (tx_now e)).

Definition finish_attempt (e : env) (outcome : string) (a : attempt) : attempt :=
  Attempt (a_workspace_id a) (a_lease_owner a) (a_leased_at a) (a_started_at a)
          (a_last_heartbeat_at a) (Some (tx_now e)) (Some outcome) (a_safe_error_code a).

Definition can_finish (e : env) (hash : string) (st : State) (r : row) : bool :=
  holds hash r &&
  (state_eqb (state r) Running || (state_eqb st Cancelled && state_eqb (state r) Leased)) &&
  unexpired (tx_now e) r && (state_eqb st Cancelled || not_cancelling r).

(** UPDATE ... RETURNING attempt_count. *)
Definition finish_update (e : env) (workspaceID id hash : string) (st : State) (d : database)
  : option (option Z * database) :=
  match target d workspaceID id (can_finish e hash st) with
  | None => Some (None, d)
  | Some r => match put_row (finish_row e st r) d with
              | Some d' => Some (Some (attempt_count r), d')
              | None => None
              end
  end.

Definition state_name (st : State) : string :=
  match st with
  | Queued => "queued" | Leased => "leased" | Running => "running" | RetryWait => "retry_wait"
  | Succeeded => "succeeded" | DeadLetter => "dead_letter" | Cancelled => "cancelled"
  end.

Definition finishTx (e : env) (workspaceID id token : string) (st : State) : prog database error unit :=
  if negb (state_eqb st Succeeded) && negb (state_eqb st Cancelled) then fail ErrInvalid
  else if negb (validateLeaseIdentity workspaceID id token) then fail ErrInvalid
  else
    let hash := hashLeaseToken token in
    let! found := statement (ErrDatabase "complete job") (finish_update e workspaceID id hash st) in
    match found with
    | None =>
        if state_eqb st Succeeded then classifyLeaseMiss e workspaceID id hash
        else fail ErrLeaseLost
    | Some number =>
        statement (ErrDatabase "finish job attempt")
          (update_attempt workspaceID id number (finish_attempt e (state_name st)))
    end.

Definition finish (e : env) (workspaceID id token : string) (st : State) : prog database error unit :=
  do! begin (ErrDatabase "begin job completion") in
  do! finishTx e workspaceID id token st in
  commit (ErrDatabase "commit job completion").

Definition Succeed (e : env) (workspaceID id token : string) := finish e workspaceID id token Succeeded.
Definition SucceedTx (e : env) (workspaceID id token : string) := finishTx e workspaceID id token Succeeded.
Definition CancelActive (e : env) (workspaceID id token : string) := finish e workspaceID id token Cancelled.

(** ** Fail *)

(** The state and attempt outcome of a failed job. *)
Definition fail_decision (cancellationRequested : bool) (class : string) (attemptCount maxAttempts : Z)
  : State * string :=
  if cancellationRequested then (Cancelled, "cancelled")
  else if String.eqb class ErrorRetryable && (attemptCount <? maxAttempts) then (RetryWait, "retry")
  else (DeadLetter, "dead_letter").

Definition fail_row (e : env) (st : State) (availableAt : time) (failure : Failure) (r : row) : row :=
  Row (core r) st
      (if state_eqb st RetryWait then store_time availableAt else available_at r)
      (attempt_count r) None None None None (cancellation_requested_at r)
      (if state_eqb st Cancelled then last_error_class r else Some (Class failure))
      (if state_eqb st Cancelled then last_error_code r else Some (Code failure))
      (started_at r)
      (if state_eqb st DeadLetter || state_eqb st Cancelled then Some (tx_now e) else None).

Definition fail_attempt (e : env) (outcome code : string) (a : attempt) : attempt :=
  Attempt (a_workspace_id a) (a_lease_owner a) (a_leased_at a) (a_started_at a)
          (a_last_heartbeat_at a) (Some (tx_now e)) (Some outcome)
          (if String.eqb outcome "cancelled" then None else Some code).

Definition can_fail (e : env) (hash : string) (r : row) : bool :=
  holds hash r && state_eqb (state r) Running && unexpired (tx_now e) r.

Definition Fail (e : env) (workspaceID id token : string) (failure : Failure) (availableAt : time)
  : prog database error State :=
  if (negb (String.eqb (Class failure) ErrorRetryable) &&
      negb (String.eqb (Class failure) ErrorPermanent)) || negb (validCode (Code failure))
  then fail ErrInvalid
  else if negb (validateLeaseIdentity workspaceID id token) then fail ErrInvalid
  else
    let hash := hashLeaseToken token in
    do! begin (ErrDatabase "begin job failure") in
    let! found := query (ErrDatabase "lock failed job")
                    (fun d => target d workspaceID id (can_fail e hash)) in
    match found with
    | None => fail ErrLeaseLost
    | Some r =>
        let attemptCount := attempt_count r in
        let '(st, outcome) :=
          fail_decision (negb (not_cancelling r)) (Class failure) attemptCount
                        (c_max_attempts (core r)) in
        if state_eqb st RetryWait && IsZero availableAt then fail ErrInvalid
        else
          do! statement (ErrDatabase "fail job")
                (update_job workspaceID id (holds hash) (fail_row e st availableAt failure)) in
          do! statement (ErrDatabase "finish failed attempt")
                (update_attempt workspaceID id attemptCount (fail_attempt e outcome (Code failure))) in
          do! commit (ErrDatabase "commit job failure") in
          done_with st
    end.

(** ** RequestCancellation *)

Definition cancel_row (e : env) (r : row) : row :=
  Row (core r) (if waiting (state r) then Cancelled else state r) (available_at r) (attempt_count r)
      (lease_owner r) (lease_token_hash r) (lease_expires_at r) (heartbeat_at r)
      (Some (coalesce (cancellation_requested_at r) (tx_now e)))
      (last_error_class r) (last_error_code r) (started_at r)
      (if waiting (state r) then Some (tx_now e) else completed_at r).

Definition cancel_update (e : env) (workspaceID id : string) (d : database)
  : option (option State * database) :=
  match target d workspaceID id (fun r => negb (terminal (state r))) with
  | None => Some (None, d)
  | Some r => let r' := cancel_row e r in
              match put_row r' d with Some d' => Some (Some (state r'), d') | None => None end
  end.

Definition RequestCancellation (e : env) (workspaceID id : string) : prog database error State :=
  if negb (validateResourceIdentity workspaceID id) then fail ErrInvalid
  else
    let! found := autocommit (ErrDatabase "request job cancellation") (cancel_update e workspaceID id) in
    match found with
    | Some st => done_with st
    | None =>
        let! exists_ := autocommit (ErrDatabase "check cancellation target")
                          (fun d => Some (negb (is_null (target d workspaceID id (fun _ => true))), d)) in
        if exists_ then fail ErrNotCancellable else fail ErrNotFound
    end.

(** ** RecoverExpired *)

Definition is_expired (e : env) (queue : string) (r : row) : bool :=
  String.eqb (c_queue (core r)) queue && active (state r) && expired (tx_now e) r.

(** ORDER BY lease_expires_at, id within one workspace. *)
Definition expiry_leb (a b : row) : bool :=
  let x := default 0 (lease_expires_at a) in
  let y := default 0 (lease_expires_at b) in
  (x <? y) || ((x =? y) && text_leb (c_id (core a)) (c_id (core b))).

(** row_number() OVER (PARTITION BY workspace_id ORDER BY lease_expires_at, id). *)
Definition workspace_rank (e : env) (d : database) (queue : string) (r : row) : Z :=
  1 + count_rows (fun r' => is_expired e queue r' &&
                            String.eqb (c_workspace_id (core r')) (c_workspace_id (core r)) &&
                            negb (expiry_leb r r')) (jobs d).

(** ORDER BY workspace_rank, lease_expires_at, workspace_id, id. *)
Definition recovery_leb (e : env) (d : database) (queue : string) (a b : row) : bool :=
  let ra := workspace_rank e d queue a in
  let rb := workspace_rank e d queue b in
  let xa := default 0 (lease_expires_at a) in
  let xb := default 0 (lease_expires_at b) in
  let wa := c_workspace_id (core a) in
  let wb := c_workspace_id (core b) in
  (ra <? rb) || ((ra =? rb) &&
  ((xa <? xb) || ((xa =? xb) &&
  ((text_leb wa wb && negb (text_leb wb wa)) ||
   (text_leb wa wb && text_leb wb wa && text_leb (c_id (core a)) (c_id (core b))))))).

#[global] Instance recovery_dec e d queue : RelDecision (fun a b => recovery_leb e d queue a b = true).
Proof. intros a b. apply _. Defined.

Definition expired_batch (e : env) (queue : string) (limit : nat) (d : database) : list row :=
  take limit (merge_sort (fun a b => recovery_leb e d queue a b = true)
    (rows_where (fun r => is_expired e queue r && negb (row_locked e (c_id (core r)))) (jobs d))).

(** The new state, the attempt outcome and whether the job is complete. *)
Definition recover_decision (r : row) : State * string * bool :=
  if negb (not_cancelling r) then (Cancelled, "cancelled", true)
  else if c_max_attempts (core r) <=? attempt_count r then (DeadLetter, "dead_letter", true)
  else if state_eqb (state r) Running then (RetryWait, "lease_expired", false)
  else (Queued, "lease_expired", false).

Definition recover_row (e : env) (st : State) (availableAt : time) (completed : bool) (r : row) : row :=
  Row (core r) st (store_time availableAt) (attempt_count r) None None None None
      (cancellation_requested_at r)
      (if state_eqb st Cancelled then last_error_class r
       else if state_eqb st DeadLetter then Some "worker" else Some "retryable")
      (if state_eqb st Cancelled then last_error_code r else Some "lease_expired")
      (started_at r) (if completed then Some (tx_now e) else None).

Definition recover_attempt (e : env) (outcome : string) (a : attempt) : attempt :=
  Attempt (a_workspace_id a) (a_lease_owner a) (a_leased_at a) (a_started_at a)
          (a_last_heartbeat_at a) (Some (tx_now e)) (Some outcome)
          (if String.eqb outcome "cancelled" then None else Some "lease_expired").

(** The body of the loop over the selected rows. *)
Definition recover_one (e : env) (retryDelay : duration) (index : nat) (job : row)
  : prog database error unit :=
  let! clk := query (ErrDatabase "read database time for lease recovery") (fun _ => clock e index) in
  let '(st, outcome, completed) := recover_decision job in
  let availableAt := if state_eqb st RetryWait then clk + retryDelay else clk in
  let workspace := c_workspace_id (core job) in
  let id := c_id (core job) in
  do! statement (ErrDatabase "recover expired lease")
        (update_job workspace id (fun _ => true) (recover_row e st availableAt completed)) in
  statement (ErrDatabase "finish expired attempt")
    (update_attempt workspace id (attempt_count job) (recover_attempt e outcome)).

Fixpoint recover_all (e : env) (retryDelay : duration) (index : nat) (l : list row)
  : prog database error unit :=
  match l with
  | [] => done_with tt
  | r :: l => do! recover_one e retryDelay index r in recover_all e retryDelay (S index) l
  end.

Definition RecoverExpired (e : env) (queue : string) (limit : Z) (retryDelay : duration)
  : prog database error Z :=
  if negb (validName queue) || (limit <=? 0) || (1000 <? limit) || (retryDelay <? 0) then fail ErrInvalid
  else
    do! begin (ErrDatabase "begin lease recovery") in
    let! batch := query (ErrDatabase "select expired leases") (expired_batch e queue (Z.to_nat limit)) in
    do! recover_all e retryDelay 0 batch in
    do! commit (ErrDatabase "commit lease recovery") in
    done_with (Z.of_nat (length batch)).

End WithPostgres.

(** ** Metrics *)

Record Metrics := {
  m_Queued : Z; m_Running : Z; m_RetryWait : Z; m_DeadLetter : Z; m_Succeeded : Z; m_Cancelled : Z;
  m_OldestQueuedAge : duration; m_AverageRunDuration : duration;
  m_ExpiredLeases : Z; m_SaturatedWorkspaces : Z; m_Retries : Z
}.

(** Go's conversion of a float64 to a 64-bit integer: truncation towards zero
    ([min_int64], what the hardware gives, when the value does not fit). *)
Definition float_int64 (x : spec_float) : Z :=
  match x with
  | S754_zero _ => 0
  | S754_finite s m e =>
      let v := if 0 <=? e then Zpos m * 2 ^ e else Zpos m / 2 ^ (- e) in
      let v := if s then - v else v in
      if (min_int64 <=? v) && (v <=? max_int64) then v else min_int64
  | _ => min_int64
  end.

(** [time.Duration(seconds * float64(time.Second))]. *)
Definition float_seconds (x : spec_float) : duration :=
  float_int64 (SFmul 53 1024 x (binary_normalize 53 1024 Second 0 false)).

Definition in_queue (queue : string) (f : row -> bool) (d : database) : Z :=
  count_rows (fun r => String.eqb (c_queue (core r)) queue && f r) (jobs d).

Definition job_workspaces (d : database) : gset string :=
  list_to_set (map (fun r => c_workspace_id (core r)) (map snd (map_to_list (jobs d)))).

Definition saturated (queue : string) (maxInFlight : Z) (d : database) : Z :=
  countb (fun w => (0 <? active_count d w queue) && (maxInFlight <=? active_count d w queue))
         (elements (job_workspaces d)).

(** Attempts after the first, joined with their jobs. *)
Definition retries (queue : string) (d : database) : Z :=
  countb (fun kv : (string * Z) * attempt =>
    let '((id, number), a) := kv in
    (1 <? number) &&
    match jobs d !! id with
    | Some r => String.eqb (c_queue (core r)) queue &&
                String.eqb (c_workspace_id (core r)) (a_workspace_id a)
    | None => false
    end) (map_to_list (attempts d)).

(** min(created_at) of the queued jobs, as an age. *)
Definition oldest_age (e : env) (queue : string) (d : database) : option duration :=
  match rows_where (fun r => String.eqb (c_queue (core r)) queue && state_eqb (state r) Queued) (jobs d) with
  | [] => None
  | r :: l => Some (tx_now e - foldr (fun x m => Z.min (c_created_at (core x)) m) (c_created_at (core r)) l)
  end.

(** avg over a list of durations: its sum and its length. *)
Definition average (l : list duration) : option (Z * Z) :=
  match l with [] => None | _ => Some (foldr Z.add 0 l, Z.of_nat (length l)) end.

(** The run times of the finished attempts of the queue. *)
Definition run_times (queue : string) (d : database) : list duration :=
  omap (fun kv : (string * Z) * attempt =>
    let '((id, _), a) := kv in
    match jobs d !! id, a_finished_at a, a_started_at a with
    | Some r, Some finished, Some started =>
        if String.eqb (c_queue (core r)) queue && String.eqb (c_workspace_id (core r)) (a_workspace_id a)
        then Some (finished - started) else None
    | _, _, _ => None
    end) (map_to_list (attempts d)).

(** A snapshot; [numeric_float n k] is the float64 the driver delivers for the
    numeric that PostgreSQL computes for [n / k] nanoseconds, in seconds. *)
Section Snapshot.
Context (numeric_float : Z -> Z -> spec_float).

Definition metrics_snapshot (e : env) (queue : string) (maxInFlight : Z) (d : database) : Metrics :=
  {| m_Queued := in_queue queue (fun r => state_eqb (state r) Queued) d;
     m_Running := in_queue queue (fun r => active (state r)) d;
     m_RetryWait := in_queue queue (fun r => state_eqb (state r) RetryWait) d;
     m_DeadLetter := in_queue queue (fun r => state_eqb (state r) DeadLetter) d;
     m_Succeeded := in_queue queue (fun r => state_eqb (state r) Succeeded) d;
     m_Cancelled := in_queue queue (fun r => state_eqb (state r) Cancelled) d;
     m_OldestQueuedAge := float_seconds (numeric_float (coalesce (oldest_age e queue d) 0) 1);
     m_AverageRunDuration :=
       float_seconds (uncurry numeric_float (coalesce (average (run_times queue d)) (0, 1)));
     m_ExpiredLeases := in_queue queue (fun r => active (state r) && expired (tx_now e) r) d;
     m_SaturatedWorkspaces := saturated queue maxInFlight d;
     m_Retries := retries queue d |}.

Definition read_metrics (e : env) (queue : string) (maxInFlightPerWorkspace : Z)
  : prog database error Metrics :=
  if negb (validName queue) || (maxInFlightPerWorkspace <? 1) || (100 <? maxInFlightPerWorkspace)
  then fail ErrInvalid
  else autocommit (ErrDatabase "read queue metrics")
         (fun d => Some (metrics_snapshot e queue maxInFlightPerWorkspace d, d)).

End Snapshot.

End JobQueue.
