(* ===== verification/Lifecycle.v ===== *)
(** * The life of a job: the abstract specification of the queue

    [Module Lifecycle] specifies the queue without SQL: an [event] is one
    thing that can happen to one job, [allowed] says when it may happen,
    [row_after] and [attempts_after] what it does, and [apply_event] is its
    effect on the tables.  [invariant] is what every reachable database
    satisfies.  QueueRefinement.v shows that each queue operation performs
    exactly such events. *)

From S2P Require Import Prelude GoStrings Encoding Txn Json Queue.

Local Open Scope Z_scope.

Module Lifecycle.
Import JobQueue.

Section Spec.
Context {pg : Postgres}.

Inductive event :=
| EvLease (owner hash : string) (lease : duration)
| EvStart
| EvHeartbeat (lease : duration)
| EvFinish (st : State)
| EvFail (failure : Failure) (availableAt : time)
| EvCancel
| EvRecover (availableAt : time).

Definition valid_failure (f : Failure) : bool :=
  (String.eqb (Class f) ErrorRetryable || String.eqb (Class f) ErrorPermanent) && validCode (Code f).

Definition fail_outcome (f : Failure) (r : row) : State * string :=
  fail_decision (negb (not_cancelling r)) (Class f) (attempt_count r) (c_max_attempts (core r)).

(** When an event may happen to a job. *)
Definition allowed (e : env) (ev : event) (r : row) : bool :=
  match ev with
  | EvLease owner hash _ =>
      waiting (state r) && (available_at r <=? tx_now e) && not_cancelling r &&
      char_length_between 1 128 owner && (slen hash =? 32)
  | EvStart => state_eqb (state r) Leased && unexpired (tx_now e) r && not_cancelling r
  | EvHeartbeat _ => active (state r) && unexpired (tx_now e) r && not_cancelling r
  | EvFinish st =>
      unexpired (tx_now e) r &&
      ((state_eqb st Succeeded && state_eqb (state r) Running && not_cancelling r) ||
       (state_eqb st Cancelled && active (state r)))
  | EvFail f _ => state_eqb (state r) Running && unexpired (tx_now e) r && valid_failure f
  | EvCancel => negb (terminal (state r))
  | EvRecover _ => active (state r) && expired (tx_now e) r
  end.

Definition row_after (e : env) (ev : event) (r : row) : row :=
  match ev with
  | EvLease owner hash lease => lease_row e owner hash lease r
  | EvStart => start_row e r
  | EvHeartbeat lease => heartbeat_row e lease r
  | EvFinish st => finish_row e st r
  | EvFail f availableAt => fail_row e (fst (fail_outcome f r)) availableAt f r
  | EvCancel => cancel_row e r
  | EvRecover availableAt =>
      recover_row e (fst (fst (recover_decision r))) availableAt (snd (recover_decision r)) r
  end.

(** The attempt that opens with a lease. *)
Definition new_attempt (e : env) (workspaceID owner : string) : attempt :=
  Attempt workspaceID owner (tx_now e) None (tx_now e) None None None.

Definition attempt_after (e : env) (ev : event) (r : row) (a : attempt) : attempt :=
  match ev with
  | EvStart => start_attempt e a
  | EvHeartbeat _ => heartbeat_attempt e a
  | EvFinish st => finish_attempt e (state_name st) a
  | EvFail f _ => fail_attempt e (snd (fail_outcome f r)) (Code f) a
  | EvRecover _ => recover_attempt e (snd (fst (recover_decision r))) a
  | EvLease _ _ _ | EvCancel => a
  end.

Definition attempts_after (e : env) (ev : event) (id : string) (r : row)
  (m : gmap (string * Z) attempt) : gmap (string * Z) attempt :=
  match ev with
  | EvLease owner _ _ =>
      <[(id, attempt_count r + 1) := new_attempt e (c_workspace_id (core r)) owner]> m
  | _ => alter (attempt_after e ev r) (id, attempt_count r) m
  end.

Definition apply_event (e : env) (ev : event) (id : string) (r : row) (d : database) : database :=
  Database (workspaces d) (<[id := row_after e ev r]> (jobs d))
           (attempts_after e ev id r (attempts d)).

(** ** The invariant *)

(** A job under cancellation waits for its worker or is cancelled. *)
Definition check_cancellation (r : row) : bool :=
  not_cancelling r || active (state r) || state_eqb (state r) Cancelled.

Definition row_ok (r : row) : bool := check_row r && check_cancellation r.

Definition same_request_key (c c' : job_core) : Prop :=
  c_workspace_id c = c_workspace_id c' /\ c_queue c = c_queue c' /\ c_kind c = c_kind c' /\
  c_idempotency_key c = c_idempotency_key c'.

(** An attempt row agrees with its job: it belongs to the job's workspace, its
    number is in range, and it is open exactly while it is the current
    attempt of an active job, which then holds the lease for its owner. *)
Definition attempt_agrees (r : row) (number : Z) (a : attempt) : Prop :=
  a_workspace_id a = c_workspace_id (core r) /\ number <= attempt_count r /\
  (a_outcome a = None <-> number = attempt_count r /\ active (state r) = true) /\
  (number = attempt_count r -> active (state r) = true -> lease_owner r = Some (a_lease_owner a)).

Record invariant (d : database) : Prop := {
  inv_rows : forall id r, jobs d !! id = Some r ->
    c_id (core r) = id /\ row_ok r = true /\ c_workspace_id (core r) ∈ workspaces d;
  inv_keys : forall id id' r r', jobs d !! id = Some r -> jobs d !! id' = Some r' ->
    same_request_key (core r) (core r') -> id = id';
  inv_attempts : forall id n a, attempts d !! (id, n) = Some a ->
    check_attempt n a = true /\ exists r, jobs d !! id = Some r /\ attempt_agrees r n a;
  inv_complete : forall id r n, jobs d !! id = Some r -> 1 <= n <= attempt_count r ->
    is_Some (attempts d !! (id, n))
}.

(** ** Rows *)

(** What the constraints of the schema mean, state by state. *)
Definition has_no_lease (r : row) : Prop :=
  lease_owner r = None /\ lease_token_hash r = None /\ lease_expires_at r = None /\
  heartbeat_at r = None.

Definition has_lease (r : row) : Prop :=
  (exists owner, lease_owner r = Some owner /\ char_length_between 1 128 owner = true) /\
  (exists hash, lease_token_hash r = Some hash /\ slen hash = 32) /\
  is_Some (lease_expires_at r) /\ is_Some (heartbeat_at r).

Definition shape (r : row) : Prop :=
  match state r with
  | Queued | RetryWait =>
      attempt_count r < c_max_attempts (core r) /\ has_no_lease r /\ completed_at r = None /\
      cancellation_requested_at r = None
  | Leased => 0 < attempt_count r /\ has_lease r /\ completed_at r = None
  | Running => 0 < attempt_count r /\ has_lease r /\ completed_at r = None /\ is_Some (started_at r)
  | Succeeded | DeadLetter =>
      has_no_lease r /\ is_Some (completed_at r) /\ cancellation_requested_at r = None
  | Cancelled => has_no_lease r /\ is_Some (completed_at r)
  end.

Definition check_error (class code : option string) : bool :=
  opt_check (fun c => String.eqb c "retryable" || String.eqb c "permanent" || String.eqb c "worker")
            class &&
  opt_check (match_head is_lower name_char 127) code.

Definition row_spec (r : row) : Prop :=
  check_core (core r) = true /\ 0 <= attempt_count r <= c_max_attempts (core r) /\ shape r /\
  check_error (last_error_class r) (last_error_code r) = true.

Lemma check_lease_inactive r : active (state r) = false -> check_lease r = true <-> has_no_lease r.
Proof.
  unfold check_lease, has_no_lease. intros ->.
  destruct r as [c st av n ow th ex hb ca lc lco sa co]; simpl. split.
  - intros H. destruct ow, th, ex, hb; simpl in H; rewrite ?andb_false_r in H; done.
  - intros (-> & -> & -> & ->). done.
Qed.

Lemma check_lease_active r : active (state r) = true -> check_lease r = true <-> has_lease r.
Proof.
  unfold check_lease, has_lease. intros ->.
  destruct r as [c st av n ow th ex hb ca lc lco sa co]; simpl. split.
  - intros H. destruct ow, th, ex, hb; simpl in H; rewrite ?andb_false_r in H; simp_bool; try done.
    repeat split; eauto.
  - intros ((owner & -> & Ho) & (hash & -> & Hh) & [? ->] & [? ->]). simpl.
    by rewrite Ho, (proj2 (Z.eqb_eq _ _) Hh).
Qed.

Lemma check_row_split r :
  check_row r = check_core (core r) && check_attempts r && check_lease r &&
    (((negb (state_eqb (state r) Running) || negb (is_null (started_at r))) &&
      Bool.eqb (terminal (state r)) (negb (is_null (completed_at r)))) &&
     check_error (last_error_class r) (last_error_code r)).
Proof. unfold check_row, check_lifecycle, check_error. by rewrite <- !andb_assoc. Qed.

Lemma not_null {A} (o : option A) : negb (is_null o) = true <-> is_Some o.
Proof. destruct o; simpl; split; try done; eauto. Qed.

Lemma null {A} (o : option A) : is_null o = true <-> o = None.
Proof. by destruct o. Qed.

Lemma row_ok_spec r : row_ok r = true <-> row_spec r.
Proof.
  unfold row_ok, row_spec, shape, check_cancellation, not_cancelling. rewrite check_row_split.
  rewrite !andb_true_iff. unfold check_attempts. rewrite !andb_true_iff, !Z.leb_le.
  destruct (active (state r)) eqn:Hact;
    [rewrite (check_lease_active r Hact)|rewrite (check_lease_inactive r Hact)];
  destruct (state r); try discriminate Hact; unfold state_eqb; simpl;
    rewrite ?orb_true_r, ?orb_false_r, ?Z.ltb_lt, ?not_null, ?null, ?negb_true_iff, ?andb_true_r;
    destruct (completed_at r); simpl; intuition eauto; try discriminate;
    try match goal with H : is_Some None |- _ => by destruct H end.
Qed.

Lemma validCode_check code : validCode code = true -> match_head is_lower name_char 127 code = true.
Proof. unfold validCode. intros H. simp_bool. eapply match_head_mono; [|done]. lia. Qed.

Lemma valid_failure_error f :
  valid_failure f = true -> check_error (Some (Class f)) (Some (Code f)) = true.
Proof.
  unfold valid_failure, check_error, ErrorRetryable, ErrorPermanent. intros H. simp_bool.
  simpl. by rewrite (validCode_check (Code f)), H.
Qed.

Lemma state_eqb_true a b : state_eqb a b = true <-> a = b.
Proof. unfold state_eqb. apply bool_decide_eq_true. Qed.

Ltac row_done :=
  simp_bool; try discriminate; destruct_and?; simpl in *; subst; simpl in *; try discriminate;
  rewrite ?orb_false_r, ?null in *; split_and?; eauto 6; try lia.

(** Every allowed event leads to a row that satisfies all constraints. *)
Lemma row_spec_after e ev r : row_spec r -> allowed e ev r = true -> row_spec (row_after e ev r).
Proof.
  intros (Hc & Hn & Hs & He) Hev. unfold row_spec.
  destruct r as [c st av n ow th ex hb ca lc lco sa co].
  unfold shape, has_lease, has_no_lease in *.
  destruct ev as [owner hash dur| |dur|st'|f avail| |avail]; simpl in *;
    unfold unexpired, expired, not_cancelling in *; simpl in *.
  - destruct st; row_done.
  - destruct st; row_done.
  - destruct st; row_done.
  - destruct st, st'; row_done.
  - destruct st; simp_bool; try discriminate. pose proof (valid_failure_error f).
    unfold fail_outcome, fail_decision, fail_row, not_cancelling; simpl.
    destruct ca; simpl; [row_done|]. destruct (_ && _) eqn:E; simpl; row_done.
  - destruct st; row_done. 
  - unfold recover_decision, recover_row, not_cancelling; simpl.
    destruct ca; simpl; [destruct st; row_done|].
    destruct (c_max_attempts c <=? n) eqn:E; destruct st; row_done.
Qed.

Lemma row_ok_after e ev r : row_ok r = true -> allowed e ev r = true -> row_ok (row_after e ev r) = true.
Proof. rewrite !row_ok_spec. apply row_spec_after. Qed.

(** ** Attempts *)

Lemma core_after e ev r : core (row_after e ev r) = core r.
Proof. by destruct ev. Qed.

Lemma attempt_count_after e ev r :
  attempt_count (row_after e ev r) = attempt_count r + match ev with EvLease _ _ _ => 1 | _ => 0 end.
Proof. destruct ev; simpl; lia. Qed.

(** An event closes the current attempt exactly when it ends the lease. *)
Definition is_lease (ev : event) : bool := match ev with EvLease _ _ _ => true | _ => false end.
Definition keeps_lease (ev : event) : bool :=
  match ev with EvStart | EvHeartbeat _ | EvCancel => true | _ => false end.

Lemma fail_outcome_ended f r : active (fst (fail_outcome f r)) = false.
Proof. unfold fail_outcome, fail_decision. by split_cases. Qed.

Lemma recover_outcome_ended r : active (fst (fst (recover_decision r))) = false.
Proof. unfold recover_decision. by split_cases. Qed.

Lemma active_after e ev r : allowed e ev r = true -> is_lease ev = false ->
  active (state (row_after e ev r)) = keeps_lease ev && active (state r) /\
  (keeps_lease ev = true -> lease_owner (row_after e ev r) = lease_owner r).
Proof.
  intros H Hl. destruct ev as [| | |st| | |]; try done; simpl in *.
  - simp_bool. unfold state_eqb in *. simp_bool. by rewrite H.
  - split; [|done]. destruct st; try done; unfold state_eqb in *; simpl in *;
      rewrite ?andb_false_r in H; done.
  - split; [apply fail_outcome_ended|done].
  - by destruct (state r).
  - split; [apply recover_outcome_ended|done].
Qed.

Lemma allowed_ends_active e ev r : allowed e ev r = true -> is_lease ev = false ->
  keeps_lease ev = false -> active (state r) = true.
Proof.
  intros H Hl Hk. destruct ev as [| | |st| | |]; try done; simpl in *; simp_bool; try done.
  - unfold state_eqb in *. destruct (state r); try done; by rewrite ?andb_false_r in *.
  - unfold state_eqb in *. simp_bool. by rewrite H.
Qed.

Lemma attempt_after_facts e ev r a :
  a_workspace_id (attempt_after e ev r a) = a_workspace_id a /\
  a_lease_owner (attempt_after e ev r a) = a_lease_owner a /\
  (is_lease ev = false ->
   a_outcome (attempt_after e ev r a) = None <-> keeps_lease ev = true /\ a_outcome a = None).
Proof. destruct ev; simpl; intuition congruence. Qed.

Lemma check_attempt_after e ev r n a : allowed e ev r = true ->
  check_attempt n a = true -> check_attempt n (attempt_after e ev r a) = true.
Proof.
  unfold check_attempt. intros Hev H. simp_bool. apply Bool.eqb_prop in H1.
  destruct ev as [| | |st|f| |]; simpl in *; rewrite ?H, ?H3, ?H0, ?H2, ?H1; simpl.
  all: rewrite ?(proj2 (Z.ltb_lt 0 n)) by done; rewrite ?Bool.eqb_reflx; try done.
  - unfold state_eqb in *. destruct st; simpl in *; rewrite ?andb_false_r in Hev; done.
  - simp_bool. unfold valid_failure in *. simp_bool. unfold fail_outcome, fail_decision.
    split_cases; simpl; rewrite ?(validCode_check (Code f)) by done; done.
  - unfold recover_decision. by split_cases.
Qed.

Lemma attempt_agrees_lease e owner hash lease r n a :
  allowed e (EvLease owner hash lease) r = true -> attempt_agrees r n a ->
  attempt_agrees (row_after e (EvLease owner hash lease) r) n a.
Proof.
  unfold attempt_agrees. simpl. intros H (Hw & Hn & Hopen & Ho). simp_bool.
  assert (active (state r) = false) as Ha by (by destruct (state r)). rewrite Ha in *.
  split_and!; [done|lia| |lia]. rewrite Hopen. split; [naive_solver|lia].
Qed.

Lemma attempt_agrees_after e ev r n a :
  is_lease ev = false -> allowed e ev r = true -> attempt_agrees r n a ->
  attempt_agrees (row_after e ev r) n
    (if decide (n = attempt_count r) then attempt_after e ev r a else a).
Proof.
  unfold attempt_agrees. intros Hl Hev (Hw & Hn & Hopen & Ho).
  destruct (active_after e ev r Hev Hl) as [Ha Hown].
  destruct (attempt_after_facts e ev r a) as (Hw' & Ho' & Hout). specialize (Hout Hl).
  pose proof (attempt_count_after e ev r) as Hc. rewrite core_after.
  replace (attempt_count (row_after e ev r)) with (attempt_count r) by (destruct ev; try done; lia).
  rewrite Ha. destruct (decide _) as [->|Hne].
  - rewrite Hw', Ho', Hout, Hopen, andb_true_iff. naive_solver congruence.
  - naive_solver.
Qed.

(** ** Tables *)

Lemma open_attempt d id r : invariant d -> jobs d !! id = Some r -> active (state r) = true ->
  exists a, attempts d !! (id, attempt_count r) = Some a /\ check_attempt (attempt_count r) a = true /\
    a_workspace_id a = c_workspace_id (core r) /\ a_outcome a = None.
Proof.
  intros I Hr Ha. destruct (inv_rows d I id r Hr) as (_ & Hok & _).
  apply row_ok_spec in Hok as (_ & Hn & Hs & _).
  assert (0 < attempt_count r) by (unfold shape in Hs; destruct (state r); naive_solver).
  destruct (inv_complete d I id r (attempt_count r) Hr) as [a Hat]; [lia|].
  destruct (inv_attempts d I _ _ _ Hat) as (Hck & r' & Hr' & Hw & _ & Hopen & _).
  assert (r' = r) as -> by congruence. exists a. naive_solver.
Qed.

Lemma no_later_attempt d id r n : invariant d -> jobs d !! id = Some r -> attempt_count r < n ->
  attempts d !! (id, n) = None.
Proof.
  intros I Hr Hn. destruct (attempts d !! (id, n)) as [a|] eqn:Ha; [|done].
  destruct (inv_attempts d I _ _ _ Ha) as (_ & r' & Hr' & _ & Hle & _).
  assert (r' = r) as -> by congruence. lia.
Qed.

Lemma attempts_after_agree d e ev id r : invariant d -> jobs d !! id = Some r ->
  allowed e ev r = true -> forall n a,
  attempts_after e ev id r (attempts d) !! (id, n) = Some a ->
  check_attempt n a = true /\ attempt_agrees (row_after e ev r) n a.
Proof.
  intros I Hr Hev n a. destruct (is_lease ev) eqn:Hl.
  - destruct ev as [owner hash lease| | | | | |]; try done. intros Hlk. simpl in Hlk.
    apply lookup_insert_Some in Hlk as [[Heq <-]|[_ Hold]].
    + simplify_eq. pose proof Hev as Hev'. simpl in Hev'. simp_bool.
      destruct (inv_rows d I id r Hr) as (_ & Hok & _). apply row_ok_spec in Hok as (_ & Hn & _).
      unfold check_attempt, attempt_agrees. simpl.
      rewrite (proj2 (Z.ltb_lt _ _)) by lia. split; [by rewrite H1|]. split_and!; try done; try lia.
    + destruct (inv_attempts d I _ _ _ Hold) as (? & r' & Hr' & Hag).
      assert (r' = r) as -> by congruence. split; [done|]. by apply attempt_agrees_lease.
  - intros Hlk. replace (attempts_after _ _ _ _ _) with
      (alter (attempt_after e ev r) (id, attempt_count r) (attempts d)) in Hlk by (by destruct ev).
    assert (exists a0, attempts d !! (id, n) = Some a0 /\
      a = if decide (n = attempt_count r) then attempt_after e ev r a0 else a0) as (a0 & Ha0 & ->).
    { destruct (decide (n = attempt_count r)) as [->|].
      - rewrite lookup_alter_eq in Hlk. destruct (attempts d !! _); naive_solver.
      - rewrite lookup_alter_ne in Hlk by congruence. eauto. }
    destruct (inv_attempts d I _ _ _ Ha0) as (Hck & r' & Hr' & Hag).
    assert (r' = r) as -> by congruence. split; [|by apply attempt_agrees_after].
    destruct (decide _); [by apply check_attempt_after|done].
Qed.

Lemma attempts_after_other e ev id id' n r m : id' <> id ->
  attempts_after e ev id r m !! (id', n) = m !! (id', n).
Proof.
  intros Hne. destruct ev; simpl; (rewrite lookup_insert_ne || rewrite lookup_alter_ne); congruence.
Qed.

Lemma attempts_after_some e ev id r m n : is_Some (m !! (id, n)) ->
  is_Some (attempts_after e ev id r m !! (id, n)).
Proof.
  intros Ha. destruct ev; simpl; [apply lookup_insert_is_Some'; by right|..];
    by apply lookup_alter_is_Some.
Qed.

(** An allowed event preserves the invariant. *)
Lemma invariant_apply d e ev id r : invariant d -> jobs d !! id = Some r -> allowed e ev r = true ->
  invariant (apply_event e ev id r d).
Proof.
  intros I Hr Hev. destruct (inv_rows d I id r Hr) as (Hid & Hok & Hws). split; simpl.
  - intros id' r'. rewrite lookup_insert_Some. intros [[<- <-]|[Hne Hr']].
    + rewrite core_after. split_and!; [done|by apply row_ok_after|done].
    + by apply (inv_rows d I).
  - intros i1 i2 r1 r2. rewrite !lookup_insert_Some. intros Hr1 Hr2 Hkey.
    destruct Hr1 as [[<- <-]|[? Hr1]], Hr2 as [[<- <-]|[? Hr2]]; rewrite ?core_after in Hkey; try done;
      eapply (inv_keys d I); eauto.
  - intros id' n a Ha. destruct (decide (id' = id)) as [->|Hne].
    + rewrite lookup_insert_eq.
      destruct (attempts_after_agree d e ev id r I Hr Hev n a Ha). eauto.
    + rewrite attempts_after_other in Ha by done. rewrite lookup_insert_ne by done.
      by apply (inv_attempts d I).
  - intros id' r' n. rewrite lookup_insert_Some. intros [[<- <-]|[Hne Hr']] Hn.
    + rewrite attempt_count_after in Hn. destruct (decide (n <= attempt_count r)).
      * apply attempts_after_some, (inv_complete d I id r); [done|lia].
      * destruct ev; try lia. simpl. rewrite lookup_insert.
        destruct (decide _) as [|[]]; [eauto|f_equal; lia].
    + rewrite attempts_after_other by done. by eapply (inv_complete d I).
Qed.

(** So does inserting a fresh job under a fresh idempotency key. *)
Lemma invariant_insert d id r : invariant d -> c_id (core r) = id -> row_ok r = true ->
  c_workspace_id (core r) ∈ workspaces d -> attempt_count r = 0 -> jobs d !! id = None ->
  (forall id' r', jobs d !! id' = Some r' -> ~ same_request_key (core r) (core r')) ->
  invariant (set_jobs d (<[id := r]> (jobs d))).
Proof.
  intros I Hid Hok Hws Hn Hnew Hkey. split; simpl.
  - intros id' r'. rewrite lookup_insert_Some. intros [[<- <-]|[Hne Hr']]; [done|].
    by apply (inv_rows d I).
  - intros i1 i2 r1 r2. rewrite !lookup_insert_Some.
    intros [[<- <-]|[? Hr1]] [[<- <-]|[? Hr2]] Hk; try done.
    + by destruct (Hkey _ _ Hr2).
    + destruct (Hkey _ _ Hr1). unfold same_request_key in *. naive_solver.
    + by eapply (inv_keys d I).
  - intros id' n a Ha. destruct (inv_attempts d I _ _ _ Ha) as (? & r' & Hr' & ?).
    split; [done|]. exists r'. by rewrite lookup_insert_ne by congruence.
  - intros id' r' n. rewrite lookup_insert_Some. intros [[<- <-]|[Hne Hr']] Hr; [lia|].
    by eapply (inv_complete d I).
Qed.

End Spec.
End Lifecycle.
