(* ===== verification/QueueRefinement.v ===== *)
(** * The queue operations implement the job lifecycle

    [Module QueueSpec] gives each operation of queue.go a specification on
    whole databases, written with [Lifecycle.apply_event] and without
    statements, transactions or constraints.  The theorems show that on every
    database that satisfies the invariant the operation, run on a healthy
    connection, returns exactly what its specification says (so no constraint
    of the schema ever rejects a write), and that on a failing connection it
    takes effect entirely or not at all. *)

From S2P Require Import Prelude GoStrings Encoding Txn Json Queue Lifecycle.

Local Open Scope Z_scope.

Module QueueSpec.
Import JobQueue Lifecycle.

#[local] Arguments put_row : simpl never.
#[local] Arguments check_row : simpl never.
#[local] Arguments sha256 : simpl never.
#[local] Arguments hashLeaseToken : simpl never.

Section Refinement.
Context {pg : Postgres}.

(** The job whose live lease a token proves. *)
Definition owned (e : env) (workspaceID id token : string) (d : database) : option row :=
  target d workspaceID id
    (fun r => holds (hashLeaseToken token) r && active (state r) && unexpired (tx_now e) r).

Definition start_spec (e : env) (workspaceID id token : string) (d : database)
  : result error unit * database :=
  if negb (validateLeaseIdentity workspaceID id token) then (Err ErrInvalid, d)
  else match owned e workspaceID id token d with
  | None => (Err ErrLeaseLost, d)
  | Some r =>
      if negb (not_cancelling r) then (Err ErrCancellationRequested, d)
      else if state_eqb (state r) Leased then (Ok tt, apply_event e EvStart id r d)
      else (Err ErrLeaseLost, d)
  end.

Definition heartbeat_spec (e : env) (workspaceID id token : string) (lease : duration) (d : database)
  : result error unit * database :=
  if (lease <? minLease) || (maxLease <? lease) || negb (validateLeaseIdentity workspaceID id token)
  then (Err ErrInvalid, d)
  else match owned e workspaceID id token d with
  | None => (Err ErrLeaseLost, d)
  | Some r =>
      if negb (not_cancelling r) then (Err ErrCancellationRequested, d)
      else (Ok tt, apply_event e (EvHeartbeat lease) id r d)
  end.

Definition succeed_spec (e : env) (workspaceID id token : string) (d : database)
  : result error unit * database :=
  if negb (validateLeaseIdentity workspaceID id token) then (Err ErrInvalid, d)
  else match owned e workspaceID id token d with
  | None => (Err ErrLeaseLost, d)
  | Some r =>
      if negb (not_cancelling r) then (Err ErrCancellationRequested, d)
      else if state_eqb (state r) Running then (Ok tt, apply_event e (EvFinish Succeeded) id r d)
      else (Err ErrLeaseLost, d)
  end.

Definition cancel_active_spec (e : env) (workspaceID id token : string) (d : database)
  : result error unit * database :=
  if negb (validateLeaseIdentity workspaceID id token) then (Err ErrInvalid, d)
  else match owned e workspaceID id token d with
  | None => (Err ErrLeaseLost, d)
  | Some r => (Ok tt, apply_event e (EvFinish Cancelled) id r d)
  end.

Definition fail_spec (e : env) (workspaceID id token : string) (f : Failure) (availableAt : time)
  (d : database) : result error State * database :=
  if negb (valid_failure f) || negb (validateLeaseIdentity workspaceID id token)
  then (Err ErrInvalid, d)
  else match owned e workspaceID id token d with
  | None => (Err ErrLeaseLost, d)
  | Some r =>
      if negb (state_eqb (state r) Running) then (Err ErrLeaseLost, d)
      else let st := fst (fail_outcome f r) in
           if state_eqb st RetryWait && IsZero availableAt then (Err ErrInvalid, d)
           else (Ok st, apply_event e (EvFail f availableAt) id r d)
  end.

Definition cancellation_spec (e : env) (workspaceID id : string) (d : database)
  : result error State * database :=
  if negb (validateResourceIdentity workspaceID id) then (Err ErrInvalid, d)
  else match target d workspaceID id (fun _ => true) with
  | None => (Err ErrNotFound, d)
  | Some r =>
      if terminal (state r) then (Err ErrNotCancellable, d)
      else (Ok (state (cancel_row e r)), apply_event e EvCancel id r d)
  end.

Definition acquire_spec (e : env) (queue owner : string) (lease : duration) (maxInFlight : Z)
  (d : database) : result error (option Lease) * database :=
  if negb (validAcquire queue owner lease maxInFlight) then (Err ErrInvalid, d)
  else match randomID e "lease_" 32 with
  | Err err => (Err err, d)
  | Ok token =>
      match candidate e d queue maxInFlight with
      | None => (Ok None, d)
      | Some r =>
          let ev := EvLease owner (hashLeaseToken token) lease in
          (Ok (Some {| lease_job := scanJob (row_after e ev r); token := token |}),
           apply_event e ev (c_id (core r)) r d)
      end
  end.

(** The time at which the [index]-th recovered job becomes available. *)
Definition recovery_time (e : env) (retryDelay : duration) (index : nat) (r : row) : time :=
  if state_eqb (fst (fst (recover_decision r))) RetryWait then clock e index + retryDelay
  else clock e index.

Fixpoint recover_list (e : env) (retryDelay : duration) (index : nat) (l : list row) (d : database)
  : database :=
  match l with
  | [] => d
  | r :: l =>
      recover_list e retryDelay (S index) l
        (apply_event e (EvRecover (recovery_time e retryDelay index r)) (c_id (core r)) r d)
  end.

Definition recover_spec (e : env) (queue : string) (limit : Z) (retryDelay : duration) (d : database)
  : result error Z * database :=
  if negb (validName queue) || (limit <=? 0) || (1000 <? limit) || (retryDelay <? 0)
  then (Err ErrInvalid, d)
  else let batch := expired_batch e queue (Z.to_nat limit) d in
       (Ok (Z.of_nat (length batch)), recover_list e retryDelay 0 batch d).

(** Enqueue: the first job under an idempotency key wins; a later request gets
    it back when its fingerprint agrees and a conflict when it does not. *)
Definition enqueue_spec (e : env) (spec : Spec) (d : database)
  : result error (Job * bool) * database :=
  match fingerprintSpec spec, randomID e "job_" 20 with
  | Err err, _ | Ok _, Err err => (Err err, d)
  | Ok (canonical, fingerprint), Ok id =>
      match jsonb_in canonical with
      | None => (Err (ErrDatabase "enqueue job"), d)
      | Some payload =>
          let r := new_row e id spec payload fingerprint in
          if negb (check_row r) then (Err (ErrDatabase "enqueue job"), d)
          else match find_by_key spec d with
          | Some old =>
              if String.eqb (c_request_fingerprint (core old)) fingerprint
              then (Ok (scanJob old, false), d) else (Err ErrConflict, d)
          | None =>
              if is_null (jobs d !! id) && bool_decide (s_WorkspaceID spec ∈ workspaces d)
              then (Ok (scanJob r, true), set_jobs d (<[id := r]> (jobs d)))
              else (Err (ErrDatabase "enqueue job"), d)
          end
      end
  end.

(** ** Statements on a database that satisfies the invariant *)

Lemma target_Some d ws id cond r : target d ws id cond = Some r ->
  jobs d !! id = Some r /\ c_workspace_id (core r) = ws /\ cond r = true.
Proof.
  unfold target. destruct (jobs d !! id) as [r'|]; [|done].
  destruct (_ && _) eqn:E; [|done]. intros H. simplify_eq. simp_bool. done.
Qed.

Lemma target_split d ws id (c1 c2 : row -> bool) :
  target d ws id (fun r => c1 r && c2 r) =
  match target d ws id c1 with Some r => if c2 r then Some r else None | None => None end.
Proof.
  unfold target. destruct (jobs d !! id) as [r|]; [|done].
  destruct (String.eqb _ _), (c1 r); simpl; try done; by destruct (c2 r).
Qed.

Lemma target_ext d ws id (c1 c2 : row -> bool) :
  (forall r, c1 r = c2 r) -> target d ws id c1 = target d ws id c2.
Proof. intros H. unfold target. destruct (jobs d !! id); [|done]. by rewrite H. Qed.

Lemma put_row_after d e ev id r : invariant d -> jobs d !! id = Some r -> allowed e ev r = true ->
  put_row (row_after e ev r) d = Some (set_jobs d (<[id := row_after e ev r]> (jobs d))).
Proof.
  intros I Hr Hev. destruct (inv_rows d I id r Hr) as (Hid & Hok & _).
  apply (row_ok_after e ev) in Hok; [|done]. unfold row_ok in Hok. simp_bool.
  unfold put_row. by rewrite H, core_after, Hid.
Qed.

Lemma update_attempt_after d m e ev change id r : invariant d -> jobs d !! id = Some r ->
  allowed e ev r = true -> is_lease ev = false -> active (state r) = true ->
  (forall a, change a = attempt_after e ev r a) ->
  update_attempt (c_workspace_id (core r)) id (attempt_count r) change (set_jobs d m)
  = Some (tt, Database (workspaces d) m (attempts_after e ev id r (attempts d))).
Proof.
  intros I Hr Hev Hl Ha Hch. destruct (open_attempt d id r I Hr Ha) as (a & Hat & Hck & Hw & _).
  unfold update_attempt, put_attempt. simpl. rewrite Hat, Hw, String.eqb_refl, Hch.
  rewrite (check_attempt_after e ev r _ a Hev Hck).
  replace (attempts_after e ev id r (attempts d))
    with (alter (attempt_after e ev r) (id, attempt_count r) (attempts d)) by (by destruct ev).
  unfold set_attempts; simpl. do 3 f_equal. apply map_eq. intros k.
  destruct (decide (k = (id, attempt_count r))) as [->|].
  - by rewrite lookup_insert_eq, lookup_alter_eq, Hat.
  - by rewrite lookup_insert_ne, lookup_alter_ne.
Qed.

(** Row and attempt together: the effect of an event on a leased job. *)
Lemma update_job_after d e ev ws id cond change r : invariant d -> target d ws id cond = Some r ->
  allowed e ev r = true -> change r = row_after e ev r ->
  update_job ws id cond change d
  = Some (1, set_jobs d (<[id := row_after e ev r]> (jobs d))).
Proof.
  intros I Ht Hev Hch. pose proof (target_Some _ _ _ _ _ Ht) as (Hr & Hw & Hc).
  unfold update_job. rewrite Ht, Hch. by rewrite (put_row_after d e ev id r).
Qed.

Lemma update_current_after d e ev hash change id r : invariant d -> jobs d !! id = Some r ->
  allowed e ev r = true -> is_lease ev = false -> active (state r) = true ->
  lease_token_hash (row_after e ev r) = Some hash ->
  (forall a, change a = attempt_after e ev r a) ->
  update_current_attempt (c_workspace_id (core r)) id hash change
    (set_jobs d (<[id := row_after e ev r]> (jobs d)))
  = Some (tt, apply_event e ev id r d).
Proof.
  intros I Hr Hev Hl Ha Hh Hch. unfold update_current_attempt, target. simpl.
  rewrite lookup_insert_eq, core_after, String.eqb_refl, Hh, bool_decide_eq_true_2 by done.
  simpl. rewrite attempt_count_after. replace (_ + _) with (attempt_count r) by (destruct ev; try done; lia).
  by rewrite (update_attempt_after d _ e ev).
Qed.

Lemma owned_Some e ws id tok d r : owned e ws id tok d = Some r ->
  jobs d !! id = Some r /\ c_workspace_id (core r) = ws /\
  lease_token_hash r = Some (hashLeaseToken tok) /\ active (state r) = true /\
  unexpired (tx_now e) r = true.
Proof.
  unfold owned. intros (Hr & Hw & Hc)%target_Some. unfold holds in *. by simp_bool.
Qed.

(** A guard that implies live ownership is a guard on the owned job. *)
Lemma target_owned e ws id tok d (cond extra : row -> bool) :
  (forall r, cond r = holds (hashLeaseToken tok) r && active (state r) && unexpired (tx_now e) r &&
                      extra r) ->
  target d ws id cond =
  match owned e ws id tok d with Some r => if extra r then Some r else None | None => None end.
Proof. intros H. rewrite (target_ext _ _ _ _ _ H). apply target_split. Qed.

(** An UPDATE that finds no row, followed by [classifyLeaseMiss]. *)
Ltac lease_miss Ht Ho :=
  unfold update_job, finish_update; rewrite Ht; simpl; unfold owned in Ho; rewrite ?Ho;
  try match goal with H : not_cancelling _ = _ |- _ => rewrite H end; reflexivity.

Theorem Start_refines e ws id tok d : invariant d ->
  exec (Start e ws id tok) d = start_spec e ws id tok d.
Proof.
  intros I. unfold Start, start_spec. destruct (validateLeaseIdentity ws id tok); [|done].
  unfold exec, run_on. simpl.
  assert (target d ws id (can_start e (hashLeaseToken tok)) =
          match owned e ws id tok d with
          | Some r => if state_eqb (state r) Leased && not_cancelling r then Some r else None
          | None => None end) as Ht.
  { apply target_owned. intros r. unfold can_start, state_eqb. destruct (state r); simpl;
      by rewrite ?andb_true_r, ?andb_false_r. }
  destruct (owned e ws id tok d) as [r|] eqn:Ho; [|lease_miss Ht Ho].
  pose proof (owned_Some _ _ _ _ _ _ Ho) as (Hr & Hw & Hh & Ha & Hu).
  destruct (not_cancelling r) eqn:Hc, (state_eqb (state r) Leased) eqn:Hst; simpl in *;
    [|lease_miss Ht Ho..].
  assert (allowed e EvStart r = true) as Hev by (simpl; by rewrite Hst, Hu, Hc).
  rewrite (update_job_after d e EvStart ws id _ (start_row e) r I Ht Hev eq_refl). simpl.
  subst ws. by rewrite (update_current_after d e EvStart _ _ id r).
Qed.

Theorem Heartbeat_refines e ws id tok lease d : invariant d ->
  exec (Heartbeat e ws id tok lease) d = heartbeat_spec e ws id tok lease d.
Proof.
  intros I. unfold Heartbeat, heartbeat_spec. destruct (_ || _); [done|].
  destruct (validateLeaseIdentity ws id tok); [|done]. unfold exec, run_on. simpl.
  assert (target d ws id (can_heartbeat e (hashLeaseToken tok)) =
          match owned e ws id tok d with
          | Some r => if not_cancelling r then Some r else None
          | None => None end) as Ht by (by apply target_owned).
  destruct (owned e ws id tok d) as [r|] eqn:Ho; [|lease_miss Ht Ho].
  pose proof (owned_Some _ _ _ _ _ _ Ho) as (Hr & Hw & Hh & Ha & Hu).
  destruct (not_cancelling r) eqn:Hc; simpl in *; [|lease_miss Ht Ho].
  assert (allowed e (EvHeartbeat lease) r = true) as Hev by (simpl; by rewrite Ha, Hu, Hc).
  rewrite (update_job_after d e (EvHeartbeat lease) ws id _ (heartbeat_row e lease) r I Ht Hev eq_refl).
  simpl. subst ws. by rewrite (update_current_after d e (EvHeartbeat lease) _ _ id r).
Qed.

(** [finish_update] and the attempt update of [finishTx]. *)
Lemma finish_update_after d e ws id hash st r : invariant d ->
  target d ws id (can_finish e hash st) = Some r -> allowed e (EvFinish st) r = true ->
  finish_update e ws id hash st d =
  Some (Some (attempt_count r), set_jobs d (<[id := row_after e (EvFinish st) r]> (jobs d))).
Proof.
  intros I Ht Hev. pose proof (target_Some _ _ _ _ _ Ht) as (Hr & Hw & Hc).
  unfold finish_update. rewrite Ht. change (finish_row e st r) with (row_after e (EvFinish st) r).
  by rewrite (put_row_after d e _ id r).
Qed.

Lemma target_finish e ws id tok d st (extra : row -> bool) :
  (forall r, active (state r) = true ->
     (state_eqb (state r) Running || (state_eqb st Cancelled && state_eqb (state r) Leased)) &&
     (state_eqb st Cancelled || not_cancelling r) = extra r) ->
  target d ws id (can_finish e (hashLeaseToken tok) st) =
  match owned e ws id tok d with Some r => if extra r then Some r else None | None => None end.
Proof.
  intros H. apply target_owned. intros r. unfold can_finish. specialize (H r).
  destruct (active (state r)) eqn:Ha.
  - rewrite <- H by done. destruct (holds _ r), (unexpired _ r); simpl;
      by rewrite ?andb_false_r, ?andb_true_r.
  - unfold state_eqb. destruct (state r); try done; simpl;
      rewrite ?andb_false_r; simpl; by rewrite ?andb_false_r.
Qed.

(** Acknowledging a job inside a caller's transaction. *)
Theorem SucceedTx_refines e ws id tok c d : invariant d ->
  run (SucceedTx e ws id tok) (Session c d []) =
  (fst (succeed_spec e ws id tok d), Session c (snd (succeed_spec e ws id tok d)) []).
Proof.
  intros I. unfold SucceedTx, succeed_spec, finishTx.
  destruct (validateLeaseIdentity ws id tok); [|done]. simpl.
  assert (target d ws id (can_finish e (hashLeaseToken tok) Succeeded) =
          match owned e ws id tok d with
          | Some r => if state_eqb (state r) Running && not_cancelling r then Some r else None
          | None => None end) as Ht.
  { apply (target_finish e ws id tok d Succeeded (fun r => state_eqb (state r) Running && not_cancelling r)).
    intros r _. by rewrite orb_false_r. }
  destruct (owned e ws id tok d) as [r|] eqn:Ho; [|lease_miss Ht Ho].
  pose proof (owned_Some _ _ _ _ _ _ Ho) as (Hr & Hw & Hh & Ha & Hu).
  destruct (not_cancelling r) eqn:Hc, (state_eqb (state r) Running) eqn:Hst; simpl in *;
    [|lease_miss Ht Ho..].
  assert (allowed e (EvFinish Succeeded) r = true) as Hev by (simpl; by rewrite Hst, Hu, Hc).
  rewrite (finish_update_after d e ws id _ Succeeded r I Ht Hev). simpl.
  subst ws. by rewrite (update_attempt_after d _ e (EvFinish Succeeded)).
Qed.

Lemma CancelTx_run e ws id tok c d : invariant d ->
  run (finishTx e ws id tok Cancelled) (Session c d []) =
  (fst (cancel_active_spec e ws id tok d), Session c (snd (cancel_active_spec e ws id tok d)) []).
Proof.
  intros I. unfold cancel_active_spec, finishTx.
  destruct (validateLeaseIdentity ws id tok); [|done]. simpl.
  assert (target d ws id (can_finish e (hashLeaseToken tok) Cancelled) =
          match owned e ws id tok d with
          | Some r => if true then Some r else None
          | None => None end) as Ht.
  { apply (target_finish e ws id tok d Cancelled (fun _ => true)).
    intros r Ha. unfold state_eqb. by destruct (state r). }
  destruct (owned e ws id tok d) as [r|] eqn:Ho; [|lease_miss Ht Ho].
  pose proof (owned_Some _ _ _ _ _ _ Ho) as (Hr & Hw & Hh & Ha & Hu).
  assert (allowed e (EvFinish Cancelled) r = true) as Hev by (simpl; by rewrite Ha, Hu).
  rewrite (finish_update_after d e ws id _ Cancelled r I Ht Hev). simpl.
  subst ws. by rewrite (update_attempt_after d _ e (EvFinish Cancelled)).
Qed.

(** [finish] wraps [finishTx] in a transaction of its own. *)
Lemma finish_run e ws id tok st d res d' :
  run (finishTx e ws id tok st) (Session d d []) = (res, Session d d' []) ->
  (is_ok res = false -> d' = d) -> exec (finish e ws id tok st) d = (res, d').
Proof.
  intros Hrun Herr. unfold finish, exec, run_on. rewrite run_begin, run_bind, Hrun.
  destruct res as [[]|err]; [done|]. simpl. by rewrite Herr.
Qed.

Theorem Succeed_refines e ws id tok d : invariant d ->
  exec (Succeed e ws id tok) d = succeed_spec e ws id tok d.
Proof.
  intros I. rewrite (surjective_pairing (succeed_spec e ws id tok d)).
  apply finish_run; [by apply (SucceedTx_refines e ws id tok d d)|].
  unfold succeed_spec. by split_cases.
Qed.

Theorem CancelActive_refines e ws id tok d : invariant d ->
  exec (CancelActive e ws id tok) d = cancel_active_spec e ws id tok d.
Proof.
  intros I. rewrite (surjective_pairing (cancel_active_spec e ws id tok d)).
  apply finish_run; [by apply CancelTx_run|]. unfold cancel_active_spec. by split_cases.
Qed.

Theorem Fail_refines e ws id tok f availableAt d : invariant d ->
  exec (Fail e ws id tok f availableAt) d = fail_spec e ws id tok f availableAt d.
Proof.
  intros I. unfold Fail, fail_spec.
  replace (_ || _) with (negb (valid_failure f))
    by (unfold valid_failure; destruct (String.eqb _ _), (String.eqb _ _), (validCode _); done).
  destruct (valid_failure f) eqn:Hf; [|done]. destruct (validateLeaseIdentity ws id tok); [|done].
  unfold exec, run_on. simpl.
  assert (target d ws id (can_fail e (hashLeaseToken tok)) =
          match owned e ws id tok d with
          | Some r => if state_eqb (state r) Running then Some r else None
          | None => None end) as Ht.
  { apply target_owned. intros r. unfold can_fail, state_eqb. destruct (state r); simpl;
      by rewrite ?andb_true_r, ?andb_false_r. }
  rewrite Ht. destruct (owned e ws id tok d) as [r|] eqn:Ho; [|done].
  pose proof (owned_Some _ _ _ _ _ _ Ho) as (Hr & Hw & Hh & Ha & Hu).
  destruct (state_eqb (state r) Running) eqn:Hst; simpl; [|done].
  assert (allowed e (EvFail f availableAt) r = true) as Hev by (simpl; by rewrite Hst, Hu, Hf).
  fold (fail_outcome f r). destruct (fail_outcome f r) as [st outcome] eqn:Hout. simpl.
  destruct (state_eqb st RetryWait && IsZero availableAt); [done|]. simpl.
  assert (target d ws id (holds (hashLeaseToken tok)) = Some r) as Hth.
  { unfold target. rewrite Hr, Hw, String.eqb_refl. unfold holds. by rewrite Hh, bool_decide_eq_true_2. }
  rewrite (update_job_after d e (EvFail f availableAt) ws id _ (fail_row e st availableAt f) r I Hth Hev)
    by (simpl; by rewrite Hout).
  simpl. subst ws. rewrite (update_attempt_after d _ e (EvFail f availableAt)); try done.
  intros a. simpl. by rewrite Hout.
Qed.

Lemma attempts_after_cancel e id r m : attempts_after e EvCancel id r m = m.
Proof.
  simpl. apply map_eq. intros k. destruct (decide (k = (id, attempt_count r))) as [->|].
  - rewrite lookup_alter_eq. by destruct (m !! _).
  - by rewrite lookup_alter_ne.
Qed.

Theorem RequestCancellation_refines e ws id d : invariant d ->
  exec (RequestCancellation e ws id) d = cancellation_spec e ws id d.
Proof.
  intros I. unfold RequestCancellation, cancellation_spec.
  destruct (validateResourceIdentity ws id); [|done]. unfold exec, run_on. simpl.
  unfold cancel_update. change (fun r => negb (terminal (state r)))
    with (fun r => true && negb (terminal (state r))).
  rewrite (target_split d ws id (fun _ => true) (fun r => negb (terminal (state r)))).
  destruct (target d ws id (fun _ => true)) as [r|] eqn:Ht;
    cbn -[target put_row cancel_row]; [|rewrite Ht; reflexivity].
  pose proof (target_Some _ _ _ _ _ Ht) as (Hr & Hw & _).
  destruct (terminal (state r)) eqn:Hst; cbn -[target put_row cancel_row];
    [rewrite Ht; reflexivity|].
  assert (allowed e EvCancel r = true) as Hev by (simpl; by rewrite Hst).
  change (put_row (cancel_row e r) d) with (put_row (row_after e EvCancel r) d).
  rewrite (put_row_after d e EvCancel id r I Hr Hev). simpl. unfold apply_event.
  by rewrite attempts_after_cancel.
Qed.

(** ** Acquire *)

Lemma rows_where_lookup d f r : invariant d -> r ∈ rows_where f (jobs d) ->
  jobs d !! c_id (core r) = Some r /\ f r = true.
Proof.
  intros I [[id Hr] Hf]%elem_of_rows_where. split; [|done].
  by destruct (inv_rows d I id r Hr) as (-> & _).
Qed.

Lemma candidate_Some e d queue maxInFlight r : invariant d ->
  candidate e d queue maxInFlight = Some r ->
  jobs d !! c_id (core r) = Some r /\ eligible e d queue maxInFlight r = true.
Proof.
  intros I Hc. apply (rows_where_lookup d); [done|]. unfold candidate in Hc.
  destruct (rows_where _ _) as [|x l]; [done|]. injection Hc as <-.
  destruct (argmin_elem (acquire_ltb e d) x l) as [->|]; set_solver.
Qed.

Lemma owner_length owner : owner <> "" -> slen owner <= 128 -> char_length_between 1 128 owner = true.
Proof.
  intros Hne Hl. destruct (RuneCount_bounds owner) as [H1 H2]. specialize (H2 Hne).
  unfold char_length_between. rewrite !(proj2 (Z.leb_le _ _)) by lia. done.
Qed.

Lemma validAcquire_owner queue owner lease maxInFlight :
  validAcquire queue owner lease maxInFlight = true -> char_length_between 1 128 owner = true.
Proof. unfold validAcquire. intros H. simp_bool. by apply owner_length. Qed.

Lemma eligible_allowed e d queue owner lease maxInFlight tok r :
  validAcquire queue owner lease maxInFlight = true -> eligible e d queue maxInFlight r = true ->
  allowed e (EvLease owner (hashLeaseToken tok) lease) r = true.
Proof.
  intros Hv%validAcquire_owner He. unfold eligible in He. simp_bool.
  unfold allowed, hashLeaseToken. rewrite Hv, sha256_length, H4, H2, (proj2 (Z.leb_le _ _)) by done. done.
Qed.

Lemma insert_attempt_after d e owner hash lease r : invariant d -> jobs d !! c_id (core r) = Some r ->
  allowed e (EvLease owner hash lease) r = true ->
  let r' := row_after e (EvLease owner hash lease) r in
  insert_attempt e (scanJob r') owner (set_jobs d (<[c_id (core r) := r']> (jobs d)))
  = Some (tt, apply_event e (EvLease owner hash lease) (c_id (core r)) r d).
Proof.
  intros I Hr Hev r'. unfold insert_attempt. simpl.
  rewrite (no_later_attempt d _ r) by (done || lia). simpl. rewrite lookup_insert_eq.
  unfold put_attempt.
  destruct (attempts_after_agree d e _ (c_id (core r)) r I Hr Hev (attempt_count r + 1)
    (new_attempt e (c_workspace_id (core r)) owner)) as [Hck _].
  { simpl. by rewrite lookup_insert_eq. }
  unfold new_attempt in Hck. by rewrite Hck.
Qed.

Theorem Acquire_refines e queue owner lease maxInFlight d : invariant d ->
  exec (Acquire e queue owner lease maxInFlight) d = acquire_spec e queue owner lease maxInFlight d.
Proof.
  intros I. unfold Acquire, acquire_spec.
  destruct (validAcquire queue owner lease maxInFlight) eqn:Hv; [|reflexivity]. simpl.
  destruct (randomID e "lease_" 32) as [tok|err]; [|reflexivity].
  unfold exec, run_on. simpl. unfold acquire_update.
  destruct (candidate e d queue maxInFlight) as [r|] eqn:Hc; [|reflexivity].
  destruct (candidate_Some _ _ _ _ _ I Hc) as [Hr He].
  pose proof (eligible_allowed e d queue owner lease maxInFlight tok r Hv He) as Hev.
  pose proof (insert_attempt_after d e owner (hashLeaseToken tok) lease r I Hr Hev) as Hi.
  set (ev := EvLease owner (hashLeaseToken tok) lease) in *.
  change (lease_row e owner (hashLeaseToken tok) lease r) with (row_after e ev r).
  rewrite (put_row_after d e ev _ r I Hr Hev).
  generalize dependent (row_after e ev r). intros r' Hi. simpl. rewrite Hi. reflexivity.
Qed.

(** ** RecoverExpired *)

(** A batch of expired jobs that all are still as they were read. *)
Definition batch_ok (e : env) (l : list row) (d : database) : Prop :=
  NoDup (map (fun r => c_id (core r)) l) /\
  forall r, r ∈ l -> jobs d !! c_id (core r) = Some r /\ active (state r) = true /\
                   expired (tx_now e) r = true.

Lemma batch_ok_tail e ev r l d : batch_ok e (r :: l) d ->
  batch_ok e l (apply_event e ev (c_id (core r)) r d).
Proof.
  intros [Hnd Hl]. simpl in Hnd. apply NoDup_cons in Hnd as [Hni Hnd]. split; [done|].
  intros r' Hr'. destruct (Hl r') as (Hlk & ?); [set_solver|]. split; [|done]. simpl.
  rewrite lookup_insert_ne; [done|]. intros Heq. apply Hni. rewrite Heq.
  by apply (list_elem_of_fmap_2 (fun r => c_id (core r))).
Qed.

Lemma NoDup_ids d f : invariant d -> NoDup (map (fun r => c_id (core r)) (rows_where f (jobs d))).
Proof.
  intros I. unfold rows_where. assert (forall l : list (string * row),
    (forall kv, kv ∈ l -> c_id (core (snd kv)) = fst kv) -> NoDup (map fst l) ->
    NoDup (map (fun r => c_id (core r)) (List.filter f (map snd l)))) as H.
  { induction l as [|[k r] l IH]; simpl; intros Hid Hnd; [constructor|].
    apply NoDup_cons in Hnd as [Hni Hnd].
    assert (NoDup (map (fun r => c_id (core r)) (List.filter f (map snd l)))) as IH'
      by (apply IH; [set_solver|done]).
    destruct (f r); [|done]. simpl. apply NoDup_cons. split; [|done].
    specialize (Hid (k, r) ltac:(set_solver)) as Hk. simpl in Hk. rewrite Hk.
    intros [r' [Heq Hin]]%list_elem_of_fmap. apply Hni.
    rewrite list_elem_of_In, filter_In, <- list_elem_of_In in Hin. destruct Hin as [Hin _].
    apply list_elem_of_fmap in Hin as [[k' r''] [-> Hin]]. apply list_elem_of_fmap.
    exists (k', r''). split; [|done]. simpl in *. rewrite Heq. symmetry.
    exact (eq_sym (Hid (k', r'') ltac:(set_solver))). }
  apply H.
  - intros [k r] Hin. apply elem_of_map_to_list in Hin. by destruct (inv_rows d I k r Hin).
  - apply NoDup_fst_map_to_list.
Qed.

Lemma expired_batch_ok e queue limit d : invariant d -> batch_ok e (expired_batch e queue limit d) d.
Proof.
  intros I. unfold expired_batch.
  set (rows := rows_where _ (jobs d)).
  pose proof (merge_sort_Permutation (fun a b => recovery_leb e d queue a b = true) rows) as Hp.
  split.
  - eapply (sublist_NoDup _ (map (fun r => c_id (core r)) (merge_sort _ rows))).
    + rewrite Hp. by apply NoDup_ids.
    + apply fmap_sublist, sublist_take.
  - intros r Hr. apply (subseteq_take limit) in Hr. rewrite Hp in Hr.
    apply (rows_where_lookup d) in Hr as [Hlk Hc]; [|done]. unfold is_expired in Hc. by simp_bool.
Qed.

Lemma recover_one_run e retryDelay index r d c : invariant d -> jobs d !! c_id (core r) = Some r ->
  active (state r) = true -> expired (tx_now e) r = true ->
  run (recover_one e retryDelay index r) (Session c d []) =
  (Ok tt, Session c (apply_event e (EvRecover (recovery_time e retryDelay index r)) (c_id (core r)) r d) []).
Proof.
  intros I Hr Ha Hx. unfold recover_one. simpl.
  assert (allowed e (EvRecover (recovery_time e retryDelay index r)) r = true) as Hev
    by (simpl; by rewrite Ha, Hx).
  destruct (recover_decision r) as [[st outcome] completed] eqn:Hd. simpl.
  assert (target d (c_workspace_id (core r)) (c_id (core r)) (fun _ => true) = Some r) as Ht
    by (unfold target; by rewrite Hr, String.eqb_refl).
  erewrite (update_job_after d e _ _ _ _ _ r I Ht Hev)
    by (simpl; unfold recovery_time; by rewrite Hd).
  simpl. rewrite (update_attempt_after d _ e (EvRecover (recovery_time e retryDelay index r))); try done.
  intros a. simpl. by rewrite Hd.
Qed.

Lemma recover_all_run e retryDelay l : forall index d c, invariant d -> batch_ok e l d ->
  run (recover_all e retryDelay index l) (Session c d []) =
  (Ok tt, Session c (recover_list e retryDelay index l d) []) /\
  invariant (recover_list e retryDelay index l d).
Proof.
  induction l as [|r l IH]; intros index d c I Hb; [done|].
  destruct (proj2 Hb r) as (Hr & Ha & Hx); [set_solver|].
  cbn [recover_all recover_list]. rewrite run_bind.
  rewrite recover_one_run by done. apply IH; [|by apply batch_ok_tail].
  apply invariant_apply; [done|done|]. simpl. by rewrite Ha, Hx.
Qed.

Theorem RecoverExpired_refines e queue limit retryDelay d : invariant d ->
  exec (RecoverExpired e queue limit retryDelay) d = recover_spec e queue limit retryDelay d.
Proof.
  intros I. unfold RecoverExpired, recover_spec. destruct (_ || _); [reflexivity|].
  unfold exec, run_on. simpl. rewrite run_bind.
  destruct (recover_all_run e retryDelay (expired_batch e queue (Z.to_nat limit) d) 0 d d I) as [-> _].
  { by apply expired_batch_ok. }
  reflexivity.
Qed.

(** ** Enqueue *)

Lemma same_key_spec spec c : same_key spec c = true <->
  c_workspace_id c = s_WorkspaceID spec /\ c_queue c = s_Queue spec /\ c_kind c = s_Kind spec /\
  c_idempotency_key c = s_IdempotencyKey spec.
Proof. unfold same_key. rewrite !andb_true_iff, !String.eqb_eq. tauto. Qed.

Lemma find_by_key_Some spec d r : invariant d -> find_by_key spec d = Some r ->
  jobs d !! c_id (core r) = Some r /\ same_key spec (core r) = true.
Proof.
  intros I H. unfold find_by_key in H. apply (rows_where_lookup d (fun r => same_key spec (core r))); [done|].
  destruct (rows_where _ _) as [|x l]; simplify_eq/=. set_solver.
Qed.

Lemma find_by_key_complete spec d id r : invariant d -> jobs d !! id = Some r ->
  same_key spec (core r) = true -> find_by_key spec d = Some r.
Proof.
  intros I Hr Hk. destruct (find_by_key spec d) as [r'|] eqn:Hf.
  - destruct (find_by_key_Some _ _ _ I Hf) as [Hr' Hk'].
    assert (id = c_id (core r')) as ->; [|congruence].
    apply (inv_keys d I _ _ r r'); [done|done|].
    apply same_key_spec in Hk, Hk'. unfold same_request_key. naive_solver congruence.
  - assert (r ∈ rows_where (fun r => same_key spec (core r)) (jobs d)) as Hin
      by (apply elem_of_rows_where; eauto).
    unfold find_by_key in Hf. destruct (rows_where _ _); [set_solver|done].
Qed.

Lemma enqueue_invariant e id spec payload fp d : invariant d ->
  let r := new_row e id spec payload fp in
  check_row r = true -> find_by_key spec d = None -> jobs d !! id = None ->
  s_WorkspaceID spec ∈ workspaces d -> invariant (set_jobs d (<[id := r]> (jobs d))).
Proof.
  intros I r Hck Hnone Hfresh Hws. apply invariant_insert; try done.
  - unfold row_ok. by rewrite Hck.
  - intros id' r' Hr' Hsame. assert (find_by_key spec d = Some r') as Hf; [|congruence].
    apply (find_by_key_complete spec d id'); [done|done|]. apply same_key_spec.
    unfold same_request_key in Hsame. simpl in Hsame. naive_solver.
Qed.

Lemma find_inserted e id spec payload fp d :
  let r := new_row e id spec payload fp in
  invariant (set_jobs d (<[id := r]> (jobs d))) ->
  find_by_key spec (set_jobs d (<[id := r]> (jobs d))) = Some r.
Proof.
  intros r I. apply (find_by_key_complete spec _ id); [done|simpl; by rewrite lookup_insert_eq|].
  by apply same_key_spec.
Qed.

Lemma insert_job_cases e id spec canonical fp d : invariant d ->
  insert_job e id spec canonical fp d =
  match jsonb_in canonical with
  | None => None
  | Some payload =>
      let r := new_row e id spec payload fp in
      if negb (check_row r) then None
      else match find_by_key spec d with
      | Some _ => Some (0, d)
      | None => if is_null (jobs d !! id) && bool_decide (s_WorkspaceID spec ∈ workspaces d)
                then Some (1, set_jobs d (<[id := r]> (jobs d))) else None
      end
  end.
Proof.
  intros I. unfold insert_job. destruct (jsonb_in canonical) as [payload|]; [|done].
  destruct (check_row _); [|done]. destruct (find_by_key spec d); [done|]. simpl.
  destruct (jobs d !! id); [done|]. simpl. by destruct (bool_decide _).
Qed.

(** The end of [enqueue]: the row read back decides the answer. *)
Definition enqueue_answer (fp : string) (rows : Z) (found : option row) : result error (Job * bool) :=
  match found with
  | None => Err ErrNotFound
  | Some r => if negb (rows =? 1) && negb (String.eqb (c_request_fingerprint (core r)) fp)
              then Err ErrConflict else Ok (scanJob r, rows =? 1)
  end.

Lemma enqueue_spec_unfold e spec d : invariant d ->
  enqueue_spec e spec d =
  match fingerprintSpec spec, randomID e "job_" 20 with
  | Err err, _ | Ok _, Err err => (Err err, d)
  | Ok (canonical, fp), Ok id =>
      match insert_job e id spec canonical fp d with
      | None => (Err (ErrDatabase "enqueue job"), d)
      | Some (rows, d') => (enqueue_answer fp rows (find_by_key spec d'), d')
      end
  end.
Proof.
  intros I. unfold enqueue_spec.
  destruct (fingerprintSpec spec) as [[canonical fp]|err]; [|reflexivity].
  destruct (randomID e "job_" 20) as [id|err]; [|reflexivity].
  rewrite insert_job_cases by done. destruct (jsonb_in canonical) as [payload|]; [|reflexivity].
  cbv zeta. destruct (check_row _) eqn:Hck; [|reflexivity]. cbv beta iota delta [negb].
  destruct (find_by_key spec d) as [old|] eqn:Hf.
  - rewrite Hf. unfold enqueue_answer. by destruct (String.eqb _ fp).
  - destruct (jobs d !! id) eqn:Hid; [reflexivity|].
    destruct (bool_decide _) eqn:Hws; [|reflexivity]. apply bool_decide_eq_true in Hws.
    cbv beta iota delta [is_null andb].
    rewrite (find_inserted e id spec payload fp d) by (by apply enqueue_invariant). reflexivity.
Qed.

Lemma enqueue_end (rows : Z) fp r (s : session database) :
  run (if negb (rows =? 1) && negb (String.eqb (requestFingerprint (scanJob r)) fp)
       then fail ErrConflict else done_with (scanJob r, rows =? 1)) s
  = (enqueue_answer fp rows (Some r), s).
Proof. unfold enqueue_answer. by destruct (_ && _). Qed.

Lemma run_key_pool spec c w : run (byIdempotencyKey OnPool spec) (Session c w []) =
  (match find_by_key spec c with Some r => Ok (scanJob r) | None => Err ErrNotFound end,
   Session c c []).
Proof.
  unfold byIdempotencyKey. cbn [on_connection OnPool]. rewrite run_autocommit.
  by destruct (find_by_key spec c).
Qed.

Lemma run_key_tx spec c w : run (byIdempotencyKey OnTx spec) (Session c w []) =
  (match find_by_key spec w with Some r => Ok (scanJob r) | None => Err ErrNotFound end,
   Session c w []).
Proof.
  unfold byIdempotencyKey. cbn [on_connection OnTx]. rewrite run_statement.
  by destruct (find_by_key spec w).
Qed.

Theorem Enqueue_refines e spec d : invariant d ->
  exec (Enqueue e spec) d = enqueue_spec e spec d.
Proof.
  intros I. rewrite enqueue_spec_unfold by done. unfold Enqueue, enqueue, exec, run_on.
  destruct (fingerprintSpec spec) as [[canonical fp]|err]; [|reflexivity].
  destruct (randomID e "job_" 20) as [id|err]; [|reflexivity].
  cbn [on_connection OnPool]. rewrite run_autocommit.
  destruct (insert_job _ _ _ _ _ d) as [[rows d']|]; [|reflexivity].
  rewrite run_bind, run_key_pool. destruct (find_by_key spec d') as [r|]; [|reflexivity].
  by rewrite enqueue_end.
Qed.

(** Inside a caller's transaction the same happens to the working copy, and
    nothing is visible to others until the caller commits. *)
Theorem EnqueueTx_refines e spec c d : invariant d ->
  run (EnqueueTx e spec) (Session c d []) =
  (fst (enqueue_spec e spec d), Session c (snd (enqueue_spec e spec d)) []).
Proof.
  intros I. rewrite enqueue_spec_unfold by done. unfold EnqueueTx, enqueue.
  destruct (fingerprintSpec spec) as [[canonical fp]|err]; [|reflexivity].
  destruct (randomID e "job_" 20) as [id|err]; [|reflexivity].
  cbn [on_connection OnTx]. rewrite run_statement.
  destruct (insert_job _ _ _ _ _ d) as [[rows d']|]; [|reflexivity].
  rewrite run_bind, run_key_tx. destruct (find_by_key spec d') as [r|]; [|reflexivity].
  by rewrite enqueue_end.
Qed.

(** ** Every operation is atomic under faults *)

Ltac atomicity :=
  repeat match goal with
  | |- atomic (if ?b then _ else _) => destruct b
  | |- atomic (match ?x with _ => _ end) => destruct x
  | |- in_tx (if ?b then _ else _) => destruct b
  | |- in_tx (match ?x with _ => _ end) => destruct x
  | |- read_only (if ?b then _ else _) => destruct b
  | |- read_only (match ?x with _ => _ end) => destruct x
  | |- read_only (bind (match ?x with _ => _ end) _) => destruct x; simpl
  | |- atomic _ => constructor
  | |- in_tx _ => constructor
  | |- read_only _ => constructor
  | |- forall _, _ => intros
  end; try congruence.

Lemma Start_atomic e ws id tok : atomic (Start e ws id tok).
Proof. unfold Start, classifyLeaseMiss. atomicity. Qed.

Lemma Heartbeat_atomic e ws id tok lease : atomic (Heartbeat e ws id tok lease).
Proof. unfold Heartbeat, classifyLeaseMiss. atomicity. Qed.

Lemma finish_atomic e ws id tok st : atomic (finish e ws id tok st).
Proof.
  unfold finish. simpl. constructor. unfold finishTx, classifyLeaseMiss.
  destruct (_ && _); [constructor|]. destruct (validateLeaseIdentity ws id tok); [|constructor].
  simpl. constructor. intros [n|]; [repeat constructor|].
  destruct (state_eqb st Succeeded); [|constructor]. simpl. constructor. intros [r|]; [|constructor].
  destruct (not_cancelling r); constructor.
Qed.

Lemma Fail_atomic e ws id tok f availableAt : atomic (Fail e ws id tok f availableAt).
Proof. unfold Fail. atomicity. Qed.

Lemma RequestCancellation_atomic e ws id : atomic (RequestCancellation e ws id).
Proof. unfold RequestCancellation. atomicity. Qed.

Lemma Acquire_atomic e queue owner lease maxInFlight : atomic (Acquire e queue owner lease maxInFlight).
Proof. unfold Acquire. atomicity. Qed.

Lemma Enqueue_atomic e spec : atomic (Enqueue e spec).
Proof. unfold Enqueue, enqueue, byIdempotencyKey. simpl. atomicity. Qed.

Lemma recover_one_no_commit e retryDelay index r : no_commit (recover_one e retryDelay index r).
Proof.
  unfold recover_one. simpl. constructor. intros clk.
  destruct (recover_decision r) as [[st outcome] completed]. repeat constructor.
Qed.

Lemma recover_all_no_commit e retryDelay l : forall index, no_commit (recover_all e retryDelay index l).
Proof.
  induction l as [|r l IH]; intros index; [constructor|].
  apply no_commit_bind; [apply recover_one_no_commit|auto].
Qed.

Lemma RecoverExpired_atomic e queue limit retryDelay : atomic (RecoverExpired e queue limit retryDelay).
Proof.
  unfold RecoverExpired. destruct (_ || _); [constructor|]. simpl. constructor. constructor.
  intros batch. apply in_tx_bind; [apply recover_all_no_commit|]. repeat constructor.
Qed.

End Refinement.
End QueueSpec.
