(* ===== verification/QueueTheorems.v ===== *)
(** * What the queue guarantees

    [Module QueueTheorems] runs the operations of queue.go as a transition
    system: any operation, with any arguments, at any time, over a connection
    that may fail at any call.  From the refinement of QueueRefinement.v it
    derives the invariant of every reachable database, the job lifecycle, the
    fencing of stale workers, the bound on attempts, fairness of acquisition
    and recovery, and idempotency of enqueueing. *)

From S2P Require Import Prelude GoStrings Encoding Txn Json Queue Lifecycle QueueRefinement.
From Stdlib Require Import SpecFloat.

Local Open Scope Z_scope.

Module QueueTheorems.
Import JobQueue Lifecycle QueueSpec.

Section Theorems.
Context {pg : Postgres}.

(** ** The transition system *)

Inductive operation :=
| OpEnqueue (spec : Spec)
| OpAcquire (queue owner : string) (lease : duration) (maxInFlight : Z)
| OpStart (workspaceID id token : string)
| OpHeartbeat (workspaceID id token : string) (lease : duration)
| OpSucceed (workspaceID id token : string)
| OpCancelActive (workspaceID id token : string)
| OpFail (workspaceID id token : string) (failure : Failure) (availableAt : time)
| OpRequestCancellation (workspaceID id : string)
| OpRecoverExpired (queue : string) (limit : Z) (retryDelay : duration).

(** The committed database after an operation, under a list of faults. *)
Definition perform (e : env) (op : operation) (fs : list fault) (d : database) : database :=
  match op with
  | OpEnqueue spec => snd (run_on (Enqueue e spec) d fs)
  | OpAcquire queue owner lease m => snd (run_on (Acquire e queue owner lease m) d fs)
  | OpStart ws id tok => snd (run_on (Start e ws id tok) d fs)
  | OpHeartbeat ws id tok lease => snd (run_on (Heartbeat e ws id tok lease) d fs)
  | OpSucceed ws id tok => snd (run_on (Succeed e ws id tok) d fs)
  | OpCancelActive ws id tok => snd (run_on (CancelActive e ws id tok) d fs)
  | OpFail ws id tok f at_ => snd (run_on (Fail e ws id tok f at_) d fs)
  | OpRequestCancellation ws id => snd (run_on (RequestCancellation e ws id) d fs)
  | OpRecoverExpired queue limit delay => snd (run_on (RecoverExpired e queue limit delay) d fs)
  end.

(** Its specification on a healthy connection. *)
Definition perform_spec (e : env) (op : operation) (d : database) : database :=
  match op with
  | OpEnqueue spec => snd (enqueue_spec e spec d)
  | OpAcquire queue owner lease m => snd (acquire_spec e queue owner lease m d)
  | OpStart ws id tok => snd (start_spec e ws id tok d)
  | OpHeartbeat ws id tok lease => snd (heartbeat_spec e ws id tok lease d)
  | OpSucceed ws id tok => snd (succeed_spec e ws id tok d)
  | OpCancelActive ws id tok => snd (cancel_active_spec e ws id tok d)
  | OpFail ws id tok f at_ => snd (fail_spec e ws id tok f at_ d)
  | OpRequestCancellation ws id => snd (cancellation_spec e ws id d)
  | OpRecoverExpired queue limit delay => snd (recover_spec e queue limit delay d)
  end.

(** One step of the system: an operation, or a workspace created by another
    component. *)
Inductive system_step (d : database) : database -> Prop :=
| step_operation e op fs : system_step d (perform e op fs d)
| step_workspace w : system_step d (Database ({[w]} ∪ workspaces d) (jobs d) (attempts d)).

Definition empty_database : database := Database ∅ ∅ ∅.

Definition reachable (d : database) : Prop := rtc system_step empty_database d.

(** ** Operations perform lifecycle events *)

(** One change of the tables: an allowed event of one job, or a new job. *)
Inductive job_step (d : database) : database -> Prop :=
| job_event e ev id r :
    jobs d !! id = Some r -> allowed e ev r = true -> job_step d (apply_event e ev id r d)
| job_new e id spec payload fp :
    let r := new_row e id spec payload fp in
    check_row r = true -> find_by_key spec d = None -> jobs d !! id = None ->
    s_WorkspaceID spec ∈ workspaces d -> job_step d (set_jobs d (<[id := r]> (jobs d))).

Lemma job_step_invariant d d' : invariant d -> job_step d d' -> invariant d'.
Proof. intros I []; [by apply invariant_apply|by apply enqueue_invariant]. Qed.

Lemma job_steps_invariant d d' : invariant d -> rtc job_step d d' -> invariant d'.
Proof. induction 2; eauto using job_step_invariant. Qed.

Lemma atomic_spec {A} (p : prog database error A) d fs spec : atomic p -> exec p d = spec ->
  snd (run_on p d fs) = d \/ snd (run_on p d fs) = snd spec.
Proof. intros H <-. destruct (atomic_run p d fs H) as [->|[_ [?|?]]]; auto. Qed.

(** On any connection an operation either changes nothing or does what its
    specification says. *)
Lemma perform_atomic e op fs d : invariant d ->
  perform e op fs d = d \/ perform e op fs d = perform_spec e op d.
Proof.
  intros I. destruct op; cbn [perform perform_spec].
  - apply atomic_spec; [apply Enqueue_atomic|by apply Enqueue_refines].
  - apply atomic_spec; [apply Acquire_atomic|by apply Acquire_refines].
  - apply atomic_spec; [apply Start_atomic|by apply Start_refines].
  - apply atomic_spec; [apply Heartbeat_atomic|by apply Heartbeat_refines].
  - apply atomic_spec; [apply finish_atomic|by apply Succeed_refines].
  - apply atomic_spec; [apply finish_atomic|by apply CancelActive_refines].
  - apply atomic_spec; [apply Fail_atomic|by apply Fail_refines].
  - apply atomic_spec; [apply RequestCancellation_atomic|by apply RequestCancellation_refines].
  - apply atomic_spec; [apply RecoverExpired_atomic|by apply RecoverExpired_refines].
Qed.

Lemma event_once d e ev id r : jobs d !! id = Some r -> allowed e ev r = true ->
  rtc job_step d (apply_event e ev id r d).
Proof. intros. by apply rtc_once, job_event. Qed.

Lemma recover_steps e retryDelay l : forall index d, batch_ok e l d ->
  rtc job_step d (recover_list e retryDelay index l d).
Proof.
  induction l as [|r l IH]; intros index d Hb; [apply rtc_refl|].
  destruct (proj2 Hb r) as (Hr & Ha & Hx); [set_solver|].
  eapply rtc_l; [|by apply IH, batch_ok_tail].
  apply job_event; [done|]. simpl. by rewrite Ha, Hx.
Qed.

Lemma owned_event d e ev ws id tok r : owned e ws id tok d = Some r -> allowed e ev r = true ->
  rtc job_step d (apply_event e ev id r d).
Proof. intros (Hr & _)%owned_Some Hev. by apply event_once. Qed.

Lemma enqueue_steps e spec d : rtc job_step d (snd (enqueue_spec e spec d)).
Proof.
  unfold enqueue_spec. destruct (fingerprintSpec spec) as [[canonical fp]|]; [|apply rtc_refl].
  destruct (randomID e "job_" 20) as [id|]; [|apply rtc_refl].
  destruct (jsonb_in canonical) as [payload|]; [|apply rtc_refl]. cbv zeta.
  destruct (check_row _) eqn:Hck; [|apply rtc_refl]. cbv beta iota delta [negb].
  destruct (find_by_key spec d) as [old|] eqn:Hf; [by destruct (String.eqb _ fp); apply rtc_refl|].
  destruct (jobs d !! id) eqn:Hid; [apply rtc_refl|].
  destruct (bool_decide _) eqn:Hws; [|apply rtc_refl]. apply bool_decide_eq_true in Hws.
  by apply rtc_once, job_new.
Qed.

Lemma acquire_steps e queue owner lease m d : invariant d ->
  rtc job_step d (snd (acquire_spec e queue owner lease m d)).
Proof.
  intros I. unfold acquire_spec. destruct (validAcquire queue owner lease m) eqn:Hv; [|apply rtc_refl].
  destruct (randomID e "lease_" 32) as [tok|]; [|apply rtc_refl].
  destruct (candidate e d queue m) as [r|] eqn:Hc; [|apply rtc_refl].
  destruct (candidate_Some _ _ _ _ _ I Hc) as [Hr He].
  apply event_once; [done|]. by eapply eligible_allowed.
Qed.

Lemma fail_steps e ws id tok f at_ d : rtc job_step d (snd (fail_spec e ws id tok f at_ d)).
Proof.
  unfold fail_spec. destruct (valid_failure f) eqn:Hf; [|apply rtc_refl].
  destruct (validateLeaseIdentity ws id tok); [|apply rtc_refl]. simpl.
  destruct (owned e ws id tok d) as [r|] eqn:Ho; [|apply rtc_refl].
  pose proof (owned_Some _ _ _ _ _ _ Ho) as (Hr & _ & _ & _ & Hu).
  destruct (state_eqb (state r) Running) eqn:Hst; [|apply rtc_refl]. simpl.
  destruct (_ && _); [apply rtc_refl|]. apply event_once; [done|]. simpl. by rewrite Hst, Hu, Hf.
Qed.

Lemma lease_steps e ws id tok d :
  rtc job_step d (snd (start_spec e ws id tok d)) /\
  (forall lease, rtc job_step d (snd (heartbeat_spec e ws id tok lease d))) /\
  rtc job_step d (snd (succeed_spec e ws id tok d)) /\
  rtc job_step d (snd (cancel_active_spec e ws id tok d)).
Proof.
  unfold start_spec, heartbeat_spec, succeed_spec, cancel_active_spec.
  split_and!; [|intros lease|..].
  all: destruct (negb (validateLeaseIdentity ws id tok)); rewrite ?orb_true_r, ?orb_false_r;
    try apply rtc_refl; try (destruct (_ || _); [apply rtc_refl|]).
  all: destruct (owned e ws id tok d) as [r|] eqn:Ho; [|apply rtc_refl].
  all: pose proof (owned_Some _ _ _ _ _ _ Ho) as (Hr & _ & _ & Ha & Hu).
  all: destruct (not_cancelling r) eqn:Hc; simpl; try apply rtc_refl.
  all: try (destruct (state_eqb (state r) _) eqn:Hst; [|apply rtc_refl]).
  all: apply event_once; [done|]; simpl; by rewrite ?Hst, ?Ha, ?Hu, ?Hc.
Qed.

Lemma cancellation_steps e ws id d : rtc job_step d (snd (cancellation_spec e ws id d)).
Proof.
  unfold cancellation_spec. destruct (validateResourceIdentity ws id); [|apply rtc_refl]. simpl.
  destruct (target d ws id _) as [r|] eqn:Ht; [|apply rtc_refl].
  pose proof (target_Some _ _ _ _ _ Ht) as (Hr & _).
  destruct (terminal (state r)) eqn:Hst; [apply rtc_refl|].
  apply event_once; [done|]. simpl. by rewrite Hst.
Qed.

(** Every operation, whatever the faults, amounts to lifecycle events. *)
Lemma perform_steps e op fs d : invariant d -> rtc job_step d (perform e op fs d).
Proof.
  intros I. destruct (perform_atomic e op fs d I) as [->| ->]; [apply rtc_refl|].
  destruct op as [spec|queue owner lease m|ws id tok|ws id tok lease|ws id tok|ws id tok
                 |ws id tok f at_|ws id|queue limit delay]; cbn [perform_spec].
  - apply enqueue_steps.
  - by apply acquire_steps.
  - apply lease_steps.
  - apply lease_steps.
  - apply lease_steps.
  - apply lease_steps.
  - apply fail_steps.
  - apply cancellation_steps.
  - unfold recover_spec. destruct (_ || _); [apply rtc_refl|]. by apply recover_steps, expired_batch_ok.
Qed.

(** ** Reachable databases *)

Lemma workspace_invariant d w : invariant d ->
  invariant (Database ({[w]} ∪ workspaces d) (jobs d) (attempts d)).
Proof.
  intros I. split; simpl; [|apply (inv_keys d I)|apply (inv_attempts d I)|apply (inv_complete d I)].
  intros id r Hr. destruct (inv_rows d I id r Hr) as (? & ? & ?). split_and!; [done|done|set_solver].
Qed.

Lemma step_invariant d d' : invariant d -> system_step d d' -> invariant d'.
Proof.
  intros I [e op fs|w]; [|by apply workspace_invariant].
  eapply job_steps_invariant; [done|by apply perform_steps].
Qed.

Lemma steps_invariant d d' : invariant d -> rtc system_step d d' -> invariant d'.
Proof. induction 2; eauto using step_invariant. Qed.

Lemma empty_invariant : invariant empty_database.
Proof. by split. Qed.

Lemma reachable_inv d : reachable d -> invariant d.
Proof. intros H. eapply steps_invariant; [apply empty_invariant|done]. Qed.

(** C16.  In every database the queue can reach, whatever operations run in
    whatever order over whatever failing connections, the schema's constraints
    hold of every row, idempotency keys are unique, a job under cancellation is
    held by a worker or cancelled, and the attempt history of every job is
    complete, in range and open exactly for the current attempt of a leased
    job. *)
Theorem reachable_invariant d : reachable d -> invariant d.
Proof. exact (reachable_inv d). Qed.

(** C17.  A queue operation is all or nothing: with any connection faults the
    committed database afterwards is the one before, or the one the
    operation's specification gives. *)
Theorem operations_atomic e op fs d : reachable d ->
  perform e op fs d = d \/ perform e op fs d = perform_spec e op d.
Proof.
  intros H. by apply perform_atomic, reachable_inv.
Qed.

(** ** Histories of one job *)

(** The transitions of the job state machine. *)
Inductive edge : State -> State -> Prop :=
| edge_lease s : waiting s = true -> edge s Leased
| edge_start : edge Leased Running
| edge_succeed : edge Running Succeeded
| edge_retry : edge Running RetryWait
| edge_requeue : edge Leased Queued
| edge_dead s : active s = true -> edge s DeadLetter
| edge_cancel s : terminal s = false -> edge s Cancelled.

(** What every history of a job preserves. *)
Record later (r r' : row) : Prop := {
  later_core : core r' = core r;
  later_state : rtc edge (state r) (state r');
  later_attempts : attempt_count r <= attempt_count r';
  later_terminal : terminal (state r) = true -> r' = r;
  later_cancelling : forall t, cancellation_requested_at r = Some t ->
    cancellation_requested_at r' = Some t /\ (state r' = Running -> state r = Running) /\
    attempt_count r' = attempt_count r
}.

Lemma later_refl r : later r r.
Proof. by split. Qed.

Lemma later_trans r1 r2 r3 : later r1 r2 -> later r2 r3 -> later r1 r3.
Proof.
  intros [C1 S1 A1 T1 K1] [C2 S2 A2 T2 K2]. split.
  - congruence.
  - by etrans.
  - lia.
  - intros Ht. specialize (T1 Ht) as ->. by apply T2.
  - intros t Ht. destruct (K1 t Ht) as (H1 & R1 & N1). destruct (K2 t H1) as (H2 & R2 & N2).
    split_and!; [done|auto|lia].
Qed.

Lemma edge_after e ev r : row_spec r -> allowed e ev r = true -> rtc edge (state r) (state (row_after e ev r)).
Proof.
  intros (_ & _ & Hs & _) Hev. unfold shape in Hs.
  destruct ev as [owner hash lease| |lease|st|f at_| |at_]; simpl in *; unfold state_eqb in *; simp_bool.
  - apply rtc_once. by constructor.
  - rewrite H. apply rtc_once. constructor.
  - apply rtc_refl.
  - destruct st; simpl in *; rewrite ?andb_false_r in *; try done; apply rtc_once.
    + rewrite orb_false_r in H0. simp_bool. rewrite H0. constructor.
    + constructor. by destruct (state r).
  - rewrite H. apply rtc_once. unfold fail_outcome, fail_decision. split_cases; by constructor.
  - destruct (state r); try done; simpl; try apply rtc_refl; apply rtc_once; by constructor.
  - unfold recover_decision. split_cases; simpl; simp_bool.
    + apply rtc_once. constructor. by destruct (state r).
    + apply rtc_once. by constructor.
    + unfold state_eqb in *. simp_bool. rewrite Heqb1. apply rtc_once. constructor.
    + unfold state_eqb in *. simp_bool. destruct (state r); try done. apply rtc_once. constructor.
Qed.

Lemma later_after e ev r : row_spec r -> allowed e ev r = true -> later r (row_after e ev r).
Proof.
  intros Hok Hev. split.
  - apply core_after.
  - by apply edge_after.
  - rewrite attempt_count_after. destruct ev; lia.
  - intros Ht. exfalso. revert Hev.
    destruct ev as [| | |st| | |]; simpl; unfold state_eqb; destruct (state r); try done;
      rewrite ?andb_false_r; simpl; rewrite ?andb_false_r; try done.
    all: destruct st; rewrite ?andb_false_r; done.
  - intros t Ht. revert Hev. destruct ev as [| | |st|f| |]; simpl; unfold not_cancelling; rewrite Ht; simpl;
      rewrite ?andb_false_r; try done.
    + intros H. split_and!; [done| |done]. intros ->. by rewrite !andb_false_r in H.
    + intros _. split_and!; [done| |done]. unfold fail_outcome, fail_decision, not_cancelling. by rewrite Ht.
    + intros _. split_and!; [done| |done]. destruct (state r); done.
    + intros _. split_and!; [done| |done]. unfold recover_decision, not_cancelling. by rewrite Ht.
Qed.

Lemma job_step_later d d' id r : invariant d -> job_step d d' -> jobs d !! id = Some r ->
  exists r', jobs d' !! id = Some r' /\ later r r'.
Proof.
  intros I Hst Hr. destruct Hst as [e ev id' r0 Hr0 Hev|e id' spec payload fp r0 Hck Hf Hnew Hws]; simpl.
  - destruct (decide (id = id')) as [<-|Hne].
    + assert (r0 = r) as -> by congruence. rewrite lookup_insert_eq. eexists. split; [done|].
      apply later_after; [|done]. apply row_ok_spec. by destruct (inv_rows d I id r Hr) as (_ & ? & _).
    + rewrite lookup_insert_ne by done. eauto using later_refl.
  - rewrite lookup_insert_ne by congruence. eauto using later_refl.
Qed.

Lemma job_steps_later d d' id r : invariant d -> rtc job_step d d' -> jobs d !! id = Some r ->
  exists r', jobs d' !! id = Some r' /\ later r r'.
Proof.
  intros I Hst. revert r. induction Hst as [d|d d1 d2 Hst _ IH]; intros r Hr; [eauto using later_refl|].
  destruct (job_step_later d d1 id r I Hst Hr) as (r1 & Hr1 & Hl).
  destruct (IH (job_step_invariant _ _ I Hst) r1 Hr1) as (r2 & Hr2 & Hl2). eauto using later_trans.
Qed.

Lemma steps_later d d' id r : invariant d -> rtc system_step d d' -> jobs d !! id = Some r ->
  exists r', jobs d' !! id = Some r' /\ later r r'.
Proof.
  intros I Hst. revert r. induction Hst as [d|d d1 d2 Hst _ IH]; intros r Hr; [eauto using later_refl|].
  assert (exists r1, jobs d1 !! id = Some r1 /\ later r r1) as (r1 & Hr1 & Hl).
  { destruct Hst as [e op fs|w]; [|simpl; eauto using later_refl].
    eapply job_steps_later; [done|by apply perform_steps|done]. }
  destruct (IH (step_invariant _ _ I Hst) r1 Hr1) as (r2 & Hr2 & Hl2). eauto using later_trans.
Qed.

(** *** One operation and one job *)

(** The event an operation can be for a job: the operations of a worker name
    the job and know its lease. *)
Definition knows (ws id' tok id : string) (r : row) : Prop :=
  id' = id /\ c_workspace_id (core r) = ws /\ lease_token_hash r = Some (hashLeaseToken tok).

Definition causes (op : operation) (id : string) (r : row) (ev : event) : Prop :=
  match op, ev with
  | OpAcquire _ owner lease _, EvLease owner' _ lease' => owner' = owner /\ lease' = lease
  | OpStart ws id' tok, EvStart => knows ws id' tok id r
  | OpHeartbeat ws id' tok lease, EvHeartbeat lease' => knows ws id' tok id r /\ lease' = lease
  | OpSucceed ws id' tok, EvFinish st => knows ws id' tok id r /\ st = Succeeded
  | OpCancelActive ws id' tok, EvFinish st => knows ws id' tok id r /\ st = Cancelled
  | OpFail ws id' tok f at_, EvFail f' at' => knows ws id' tok id r /\ f' = f /\ at' = at_
  | OpRequestCancellation ws id', EvCancel => id' = id /\ c_workspace_id (core r) = ws
  | OpRecoverExpired _ _ _, EvRecover _ => True
  | _, _ => False
  end.

(** What became of a row: nothing, or one event the operation can be. *)
Definition affected (e : env) (op : operation) (id : string) (r : row) (d' : database) : Prop :=
  exists r', jobs d' !! id = Some r' /\
    (r' = r \/ exists ev, causes op id r ev /\ allowed e ev r = true /\ r' = row_after e ev r).

Lemma unaffected e op id r d : jobs d !! id = Some r -> affected e op id r d.
Proof. intros Hr. exists r. auto. Qed.

Lemma affected_event e op ev id id' r r0 d : jobs d !! id = Some r -> jobs d !! id' = Some r0 ->
  (id' = id -> causes op id r0 ev) -> allowed e ev r0 = true -> affected e op id r (apply_event e ev id' r0 d).
Proof.
  intros Hr Hr0 Hc Ha. unfold affected. simpl. destruct (decide (id' = id)) as [->|Hne].
  - rewrite lookup_insert_eq. assert (r0 = r) as -> by congruence. eauto 10.
  - rewrite lookup_insert_ne by done. eauto.
Qed.

Lemma owned_knows e ws id tok d r : owned e ws id tok d = Some r -> jobs d !! id = Some r /\ knows ws id tok id r /\
  active (state r) = true /\ unexpired (tx_now e) r = true.
Proof. intros (? & ? & ? & ? & ?)%owned_Some. by split_and!. Qed.

Lemma recover_affects e queue limit delay id r l : forall index d, batch_ok e l d -> jobs d !! id = Some r ->
  affected e (OpRecoverExpired queue limit delay) id r (recover_list e delay index l d).
Proof.
  assert (forall l index d, batch_ok e l d -> id ∉ map (fun r => c_id (core r)) l ->
    jobs (recover_list e delay index l d) !! id = jobs d !! id) as Hskip.
  { clear l. induction l as [|r0 l IH]; intros index d Hb Hni; [done|]. cbn [recover_list].
    rewrite IH; [|by apply batch_ok_tail|set_solver]. simpl. rewrite lookup_insert_ne; [done|]. set_solver. }
  induction l as [|r0 l IH]; intros index d Hb Hr; [by apply unaffected|].
  destruct (proj2 Hb r0) as (Hr0 & Ha & Hx); [set_solver|]. cbn [recover_list].
  pose proof (batch_ok_tail e (EvRecover (recovery_time e delay index r0)) _ _ _ Hb) as Hb'.
  destruct (decide (c_id (core r0) = id)) as [<-|Hne].
  - assert (r0 = r) as -> by congruence. unfold affected. rewrite Hskip; [|done|].
    + simpl. rewrite lookup_insert_eq. eexists. split; [done|]. right. exists (EvRecover (recovery_time e delay index r)). split_and!; [done| |done].
      simpl. by rewrite Ha, Hx.
    + destruct Hb as [Hnd _]. simpl in Hnd. by apply NoDup_cons in Hnd as [? _].
  - apply IH; [done|]. simpl. by rewrite lookup_insert_ne.
Qed.

Lemma spec_affects e op d id r : invariant d -> jobs d !! id = Some r -> affected e op id r (perform_spec e op d).
Proof.
  intros I Hr. pose proof (unaffected e op id r d Hr) as Hn.
  destruct op as [spec|queue owner lease m|ws id' tok|ws id' tok lease|ws id' tok|ws id' tok
                 |ws id' tok f at_|ws id'|queue limit delay]; cbn [perform_spec].
  - unfold enqueue_spec. repeat (case_match; try exact Hn). exists r. split; [|by left]. simpl.
    simp_bool. rewrite lookup_insert_ne; [done|]. intros ->. by rewrite Hr in *.
  - unfold acquire_spec. destruct (validAcquire queue owner lease m) eqn:Hv; [|exact Hn]. cbn [negb].
    destruct (randomID e "lease_" 32) as [tok|]; [|exact Hn].
    destruct (candidate e d queue m) as [r0|] eqn:Hc; [|exact Hn]. destruct (candidate_Some _ _ _ _ _ I Hc) as [Hr0 He].
    eapply affected_event; [done|done|done|]. by eapply eligible_allowed.
  - unfold start_spec. destruct (validateLeaseIdentity ws id' tok); [|exact Hn].
    destruct (owned e ws id' tok d) as [r0|] eqn:Ho; [|exact Hn]. apply owned_knows in Ho as (Hr0 & Hk & Ha & Hu).
    destruct (not_cancelling r0) eqn:Hc; [|exact Hn]. destruct (state_eqb (state r0) Leased) eqn:Hs; [|exact Hn].
    eapply affected_event; [done|done|by intros <-|]. simpl. by rewrite Hs, Hu, Hc.
  - unfold heartbeat_spec. destruct (_ || _); [exact Hn|].
    destruct (owned e ws id' tok d) as [r0|] eqn:Ho; [|exact Hn]. apply owned_knows in Ho as (Hr0 & Hk & Ha & Hu).
    destruct (not_cancelling r0) eqn:Hc; [|exact Hn].
    eapply affected_event; [done|done|by intros <-|]. simpl. by rewrite Ha, Hu, Hc.
  - unfold succeed_spec. destruct (validateLeaseIdentity ws id' tok); [|exact Hn].
    destruct (owned e ws id' tok d) as [r0|] eqn:Ho; [|exact Hn]. apply owned_knows in Ho as (Hr0 & Hk & Ha & Hu).
    destruct (not_cancelling r0) eqn:Hc; [|exact Hn]. destruct (state_eqb (state r0) Running) eqn:Hs; [|exact Hn].
    eapply affected_event; [done|done|by intros <-|]. simpl. by rewrite Hs, Hu, Hc.
  - unfold cancel_active_spec. destruct (validateLeaseIdentity ws id' tok); [|exact Hn].
    destruct (owned e ws id' tok d) as [r0|] eqn:Ho; [|exact Hn]. apply owned_knows in Ho as (Hr0 & Hk & Ha & Hu).
    eapply affected_event; [done|done|by intros <-|]. simpl. by rewrite Ha, Hu.
  - unfold fail_spec. destruct (valid_failure f) eqn:Hf; [|exact Hn]. destruct (validateLeaseIdentity ws id' tok); [|exact Hn].
    cbn [negb orb]. destruct (owned e ws id' tok d) as [r0|] eqn:Ho; [|exact Hn]. apply owned_knows in Ho as (Hr0 & Hk & Ha & Hu).
    destruct (state_eqb (state r0) Running) eqn:Hs; [|exact Hn]. cbn [negb]. cbv zeta. destruct (_ && _); [exact Hn|].
    eapply affected_event; [done|done|by intros <-|]. simpl. by rewrite Hs, Hu, Hf.
  - unfold cancellation_spec. destruct (validateResourceIdentity ws id'); [|exact Hn]. cbn [negb].
    destruct (target d ws id' _) as [r0|] eqn:Ht; [|exact Hn]. apply target_Some in Ht as (Hr0 & Hw & _).
    destruct (terminal (state r0)) eqn:Hs; [exact Hn|].
    eapply affected_event; [done|done|by intros <-|]. simpl. by rewrite Hs.
  - unfold recover_spec. destruct (_ || _); [exact Hn|]. apply recover_affects; [by apply expired_batch_ok|done].
Qed.

(** One operation, on any connection, is one event of a job at most. *)
Lemma perform_affects e op fs d id r : invariant d -> jobs d !! id = Some r -> affected e op id r (perform e op fs d).
Proof.
  intros I Hr. destruct (perform_atomic e op fs d I) as [->| ->]; [by apply unaffected|by apply spec_affects].
Qed.

(** The transitions each operation may make. *)
Definition moves (op : operation) (s s' : State) : Prop :=
  match op with
  | OpEnqueue _ | OpHeartbeat _ _ _ _ => False
  | OpAcquire _ _ _ _ => (s = Queued \/ s = RetryWait) /\ s' = Leased
  | OpStart _ _ _ => s = Leased /\ s' = Running
  | OpSucceed _ _ _ => s = Running /\ s' = Succeeded
  | OpCancelActive _ _ _ => (s = Leased \/ s = Running) /\ s' = Cancelled
  | OpFail _ _ _ f _ =>
      s = Running /\ (s' = Cancelled \/ s' = DeadLetter \/ s' = RetryWait /\ Class f = ErrorRetryable)
  | OpRequestCancellation _ _ => (s = Queued \/ s = RetryWait) /\ s' = Cancelled
  | OpRecoverExpired _ _ _ =>
      s = Leased /\ (s' = Queued \/ s' = DeadLetter \/ s' = Cancelled) \/
      s = Running /\ (s' = RetryWait \/ s' = DeadLetter \/ s' = Cancelled)
  end.

Definition is_acquire (op : operation) : bool := match op with OpAcquire _ _ _ _ => true | _ => false end.

(** The job an operation names, where it names one. *)
Definition names (op : operation) (id : string) : Prop :=
  match op with
  | OpStart _ i _ | OpHeartbeat _ i _ _ | OpSucceed _ i _ | OpCancelActive _ i _ | OpFail _ i _ _ _
  | OpRequestCancellation _ i => i = id
  | OpEnqueue _ | OpAcquire _ _ _ _ | OpRecoverExpired _ _ _ => True
  end.

Lemma causes_names op id r ev : causes op id r ev -> names op id.
Proof. destruct op, ev; simpl; unfold knows; naive_solver. Qed.

Lemma event_moves e op id r ev : causes op id r ev -> allowed e ev r = true ->
  let r' := row_after e ev r in
  (state r' = state r \/ moves op (state r) (state r')) /\
  attempt_count r' = attempt_count r + (if is_acquire op then 1 else 0) /\ (is_acquire op = true -> moves op (state r) (state r')).
Proof.
  intros Hc Ha. cbv zeta. rewrite attempt_count_after.
  destruct op, ev as [owner' hash lease'| |lease'|st|f' at'| |at']; simpl in Hc; try done; simpl in Ha |- *; unfold state_eqb in Ha; simp_bool.
  - assert (state r = Queued \/ state r = RetryWait) by (revert select (waiting _ = true); destruct (state r); done || auto). auto 10.
  - split_and!; [by right|lia|done].
  - split_and!; [by left|lia|done].
  - destruct Hc as [_ ->]. simpl in *. rewrite orb_false_r in *. simp_bool. split_and!; [by right|lia|done].
  - destruct Hc as [_ ->]. simpl in *. split_and!; [|lia|done]. right. split; [revert select (active _ = true); destruct (state r); done || auto|done].
  - destruct Hc as (_ & -> & ->). split_and!; [|lia|done]. right. split; [done|].
    unfold fail_outcome, fail_decision. split_cases; simp_bool; auto.
  - split_and!; [|lia|done]. destruct (state r); auto.
  - split_and!; [|lia|done]. revert select (active _ = true). unfold recover_decision, state_eqb.
    destruct (state r); intros Hact; try done; simpl; split_cases; auto 10.
Qed.

(** C25.  A job is never lost and moves as the operations allow: whatever one
    operation does on whatever connection, every job of a reachable database is still there with the
    columns INSERT set, and its state is what it was or has made a transition
    of that operation, which names the job where it names one: a lease from
    queued or retry_wait, a start from leased, a success from running alone, a
    failure from running to a retry of a retryable failure, dead letter or
    cancelled, a cancellation, or a recovery of a lease; the attempt count grows
    by one with a lease and never otherwise.  Along any history the job stays,
    the count never falls, and a job in a final state keeps its row. *)
Theorem job_history d id r : reachable d -> jobs d !! id = Some r ->
  (forall e op fs, exists r', jobs (perform e op fs d) !! id = Some r' /\ core r' = core r /\
     (state r' = state r /\ attempt_count r' = attempt_count r \/
      names op id /\ moves op (state r) (state r') /\
      attempt_count r' = attempt_count r + (if is_acquire op then 1 else 0))) /\
  (forall d', rtc system_step d d' -> exists r', jobs d' !! id = Some r' /\ core r' = core r /\
     attempt_count r <= attempt_count r' /\ (terminal (state r) = true -> r' = r)).
Proof.
  intros Hre Hr. pose proof (reachable_inv d Hre) as I. split.
  - intros e op fs. destruct (perform_affects e op fs d id r I Hr) as (r' & Hr' & [->|(ev & Hc & Ha & ->)]); [eauto 10|].
    eexists. split; [done|]. rewrite core_after. split; [done|].
    destruct (event_moves e op id r ev Hc Ha) as ([Hs|Hs] & Hn & Hm); [|right; eauto using causes_names].
    destruct (is_acquire op); [right; eauto using causes_names|left; split; [done|lia]].
  - intros d' Hst. destruct (steps_later d d' id r I Hst Hr) as (r' & Hr' & []). eauto.
Qed.

(** A terminal job is frozen: no later operation changes its row. *)
Theorem terminal_frozen d d' id r : reachable d -> rtc system_step d d' -> jobs d !! id = Some r ->
  terminal (state r) = true -> jobs d' !! id = Some r.
Proof.
  intros Hre Hst Hr Ht. destruct (steps_later d d' id r (reachable_inv d Hre) Hst Hr) as (r' & Hr' & []).
  by rewrite Hr', later_terminal0.
Qed.

(** C26.  Cancellation is durable: once requested, the request stays with its
    first timestamp, the job is never acquired, started, retried or completed
    successfully again, and the only way out of the lease is [Cancelled]. *)
Theorem cancellation_durable d d' id r t : reachable d -> rtc system_step d d' ->
  jobs d !! id = Some r -> cancellation_requested_at r = Some t ->
  exists r', jobs d' !! id = Some r' /\ cancellation_requested_at r' = Some t /\
    (state r' = Leased \/ state r' = Running \/ state r' = Cancelled) /\
    (state r' = Running -> state r = Running) /\ attempt_count r' = attempt_count r.
Proof.
  intros Hre Hst Hr Hc. pose proof (reachable_inv d Hre) as I.
  destruct (steps_later d d' id r I Hst Hr) as (r' & Hr' & []).
  destruct (later_cancelling0 t Hc) as (Hc' & HR & HN). exists r'. split_and!; try done.
  pose proof (steps_invariant _ _ I Hst) as I'. destruct (inv_rows d' I' id r' Hr') as (_ & Hok & _).
  apply row_ok_spec in Hok as (_ & _ & Hs & _). unfold shape in Hs.
  destruct (state r'); naive_solver congruence.
Qed.

(** The attempt history is exact: a job with [n] attempts so far has
    exactly the attempt rows 1 to n, n is at most its maximum, and an attempt
    is open exactly when the job is leased or running and the attempt is its
    last. *)
Theorem attempt_history_exact d id r : reachable d -> jobs d !! id = Some r ->
  (forall n, is_Some (attempts d !! (id, n)) <-> 1 <= n <= attempt_count r) /\
  attempt_count r <= c_max_attempts (core r) /\
  (forall n a, attempts d !! (id, n) = Some a ->
     a_outcome a = None <-> n = attempt_count r /\ active (state r) = true).
Proof.
  intros Hre Hr. pose proof (reachable_inv d Hre) as I.
  destruct (inv_rows d I id r Hr) as (_ & Hok & _). apply row_ok_spec in Hok as (_ & Hn & _).
  assert (forall n a, attempts d !! (id, n) = Some a ->
            check_attempt n a = true /\ attempt_agrees r n a) as Hag.
  { intros n a Ha. destruct (inv_attempts d I _ _ _ Ha) as (Hck & r' & Hr' & H).
    assert (r' = r) as -> by congruence. done. }
  split_and!; [|lia|].
  - intros n. split; [|by apply (inv_complete d I)]. intros [a Ha].
    destruct (Hag n a Ha) as [Hck (_ & Hle & _)]. unfold check_attempt in Hck. simp_bool. lia.
  - intros n a Ha. by destruct (Hag n a Ha) as (_ & _ & _ & ? & _).
Qed.

(** ** Fencing *)

(** A token that does not prove the current live lease of the job. *)
Definition stale (e : env) (id token : string) (d : database) : Prop :=
  forall r, jobs d !! id = Some r ->
    lease_token_hash r <> Some (hashLeaseToken token) \/ expired (tx_now e) r = true.

Lemma stale_not_owned e ws id tok d : stale e id tok d -> owned e ws id tok d = None.
Proof.
  intros Hs. destruct (owned e ws id tok d) as [r|] eqn:Ho; [|done].
  destruct (owned_Some _ _ _ _ _ _ Ho) as (Hr & _ & Hh & _ & Hu).
  destruct (Hs r Hr) as [?|Hx]; [done|]. unfold unexpired, expired in *.
  destruct (lease_expires_at r); [|done]. simpl in *. simp_bool. lia.
Qed.

(** The operations a worker performs under its lease. *)
Definition lease_operation (ws id tok : string) (op : operation) : Prop :=
  match op with
  | OpStart w i t | OpHeartbeat w i t _ | OpSucceed w i t | OpCancelActive w i t | OpFail w i t _ _ =>
      w = ws /\ i = id /\ t = tok
  | _ => False
  end.

(** C18.  Fencing: a worker whose token is not the one of the job's current
    lease, or whose lease has expired, cannot change the database with any
    lease operation, on any connection. *)
Theorem stale_token_fenced e ws id tok op fs d : reachable d -> stale e id tok d ->
  lease_operation ws id tok op -> perform e op fs d = d.
Proof.
  intros Hre Hs Hop. destruct (perform_atomic e op fs d (reachable_inv d Hre)) as [?| ->]; [done|].
  pose proof (stale_not_owned e ws id tok d Hs) as Ho.
  destruct op; try done; destruct Hop as (-> & -> & ->); cbn [perform_spec];
    unfold start_spec, heartbeat_spec, succeed_spec, cancel_active_spec, fail_spec; rewrite Ho;
    by split_cases.
Qed.

(** ** Acquisition *)

(** A lease that a worker receives is exclusive and within limits: the job
    was waiting, due, not under cancellation and below the workspace's limit;
    it now carries the hash of exactly the returned token for exactly the
    requested owner and time; no other job changed; and the workspace has at
    most the allowed number of jobs in flight. *)
Theorem acquire_exclusive e queue owner lease m d d' fs l : reachable d ->
  run_on (Acquire e queue owner lease m) d fs = (Ok (Some l), d') ->
  exists r, jobs d !! ID (lease_job l) = Some r /\ eligible e d queue m r = true /\
    jobs d' !! ID (lease_job l) = Some (lease_row e owner (hashLeaseToken (token l)) lease r) /\
    lease_job l = scanJob (lease_row e owner (hashLeaseToken (token l)) lease r) /\
    (forall id, id <> ID (lease_job l) -> jobs d' !! id = jobs d !! id) /\
    active_count d' (c_workspace_id (core r)) queue
      = active_count d (c_workspace_id (core r)) queue + 1 /\
    active_count d' (c_workspace_id (core r)) queue <= m.
Proof.
  intros Hre Hrun. pose proof (reachable_inv d Hre) as I.
  apply run_on_ok in Hrun. rewrite Acquire_refines in Hrun by done.
  unfold acquire_spec in Hrun. destruct (validAcquire _ _ _ _); [|done]. simpl in Hrun.
  destruct (randomID e "lease_" 32) as [tok|]; [|done].
  destruct (candidate e d queue m) as [r|] eqn:Hc; [|done]. injection Hrun as <- <-.
  destruct (candidate_Some _ _ _ _ _ I Hc) as [Hr He]. exists r. simpl.
  assert (active_count (apply_event e (EvLease owner (hashLeaseToken tok) lease) (c_id (core r)) r d)
            (c_workspace_id (core r)) queue
          = active_count d (c_workspace_id (core r)) queue + 1) as Hcount.
  { unfold active_count. simpl. rewrite (count_rows_update _ _ _ r) by done.
    unfold eligible in He. simp_bool. simpl. rewrite String.eqb_refl, H, String.eqb_refl.
    destruct (state r); simpl in *; try done; lia. }
  split_and!; [done|done|by rewrite lookup_insert_eq|done| |by rewrite Hcount|].
  - intros id Hne. by rewrite lookup_insert_ne.
  - rewrite Hcount. unfold eligible in He. simp_bool. rewrite <- H. lia.
Qed.

Lemma lex_ltb_trans_false a : forall b c, length a = length b -> length b = length c ->
  lex_ltb a b = false -> lex_ltb b c = false -> lex_ltb a c = false.
Proof.
  induction a as [|x a IH]; intros [|y b] [|z c]; simpl; try done. intros [= Hab] [= Hbc] H1 H2.
  apply orb_false_elim in H1 as [H1 H1'], H2 as [H2 H2']. simp_bool.
  destruct (Z.eqb_spec x y), (Z.eqb_spec y z), (Z.eqb_spec x z); subst; simpl in *; try lia;
    rewrite ?(proj2 (Z.ltb_ge _ _)) by lia; simpl; try done. by apply (IH b c).
Qed.

Lemma lex_ltb_asym a : forall b, lex_ltb a b = true -> lex_ltb b a = false.
Proof.
  induction a as [|x a IH]; intros [|y b]; simpl; try done. intros H.
  apply orb_true_iff in H as [H|H]; simp_bool.
  - rewrite (proj2 (Z.ltb_ge _ _)) by lia. rewrite (proj2 (Z.eqb_neq _ _)) by lia. done.
  - subst. rewrite (proj2 (Z.ltb_ge _ _)) by lia. rewrite Z.eqb_refl. simpl. auto.
Qed.

Lemma lex_cons x y a b : lex_ltb (x :: a) (y :: b) = false -> y <= x /\ (x = y -> lex_ltb a b = false).
Proof.
  simpl. intros H. apply orb_false_elim in H as [H1 H2]. simp_bool. split; [done|].
  intros ->. by rewrite Z.eqb_refl in H2.
Qed.

Lemma candidate_minimal e d queue m r r' : candidate e d queue m = Some r ->
  r' ∈ rows_where (eligible e d queue m) (jobs d) -> acquire_ltb e d r' r = false.
Proof.
  unfold candidate. destruct (rows_where _ _) as [|x l]; [done|]. intros [= <-] Hin.
  destruct (argmin_minimal (acquire_ltb e d) x l) as [H1 H2].
  - intros a b c. unfold acquire_ltb. by apply lex_ltb_trans_false.
  - intros a b. apply lex_ltb_asym.
  - rewrite Forall_forall in H2. apply elem_of_cons in Hin as [->|Hin]; auto.
Qed.

(** Acquisition is fair: the leased job comes from an eligible workspace
    with the fewest jobs in flight; among those it has the highest priority,
    and among equal priorities it became available first. *)
Theorem acquire_fair e queue owner lease m d d' fs l r' : reachable d ->
  run_on (Acquire e queue owner lease m) d fs = (Ok (Some l), d') ->
  r' ∈ rows_where (eligible e d queue m) (jobs d) ->
  exists r, jobs d !! ID (lease_job l) = Some r /\
    let load x := active_count d (c_workspace_id (core x)) (c_queue (core x)) in
    load r <= load r' /\
    (load r = load r' -> c_priority (core r') <= c_priority (core r) /\
     (c_priority (core r') = c_priority (core r) -> available_at r <= available_at r')).
Proof.
  intros Hre Hrun Hin. pose proof (reachable_inv d Hre) as I.
  apply run_on_ok in Hrun. rewrite Acquire_refines in Hrun by done.
  unfold acquire_spec in Hrun. destruct (validAcquire _ _ _ _); [|done]. simpl in Hrun.
  destruct (randomID e "lease_" 32) as [tok|]; [|done].
  destruct (candidate e d queue m) as [r|] eqn:Hc; [|done]. injection Hrun as <- <-.
  destruct (candidate_Some _ _ _ _ _ I Hc) as [Hr He]. exists r. split; [done|].
  pose proof (candidate_minimal _ _ _ _ _ _ Hc Hin) as Hm. unfold acquire_ltb, acquire_key in Hm.
  apply lex_cons in Hm as [H1 Hm]. split; [done|]. intros Heq. specialize (Hm (eq_sym Heq)).
  apply lex_cons in Hm as [H2 Hm]. split; [lia|]. intros Hp. specialize (Hm ltac:(lia)).
  by apply lex_cons in Hm as [H3 _].
Qed.

(** Acquisition finds work whenever there is any: with valid arguments
    and a healthy connection it returns a lease exactly when some job is
    eligible, and leaves the database alone otherwise. *)
Theorem acquire_finds_work e queue owner lease m d bytes : reachable d ->
  validAcquire queue owner lease m = true -> random_bytes e 32 = Some bytes ->
  (exists r, r ∈ rows_where (eligible e d queue m) (jobs d)) /\
  (exists l d', exec (Acquire e queue owner lease m) d = (Ok (Some l), d')) \/
  rows_where (eligible e d queue m) (jobs d) = [] /\
  exec (Acquire e queue owner lease m) d = (Ok None, d).
Proof.
  intros Hre Hv Hb. rewrite Acquire_refines by (by apply reachable_inv). unfold acquire_spec, randomID.
  rewrite Hv, Hb. simpl. unfold candidate. destruct (rows_where _ _) as [|x l] eqn:E; [by right|].
  left. split; [exists x; set_solver|eauto].
Qed.

(** ** Recovery *)

Lemma recover_list_other e delay l : forall index d id, (forall r, r ∈ l -> c_id (core r) <> id) ->
  jobs (recover_list e delay index l d) !! id = jobs d !! id.
Proof.
  induction l as [|r l IH]; intros index d id Hne; [done|]. simpl.
  rewrite IH by set_solver. simpl. rewrite lookup_insert_ne; [done|]. apply Hne. set_solver.
Qed.

Lemma recover_list_hit e delay l r : forall index d, batch_ok e l d -> r ∈ l ->
  exists i, jobs (recover_list e delay index l d) !! c_id (core r)
            = Some (row_after e (EvRecover (recovery_time e delay i r)) r).
Proof.
  induction l as [|x l IH]; intros index d Hb Hin; [set_solver|]. simpl.
  apply elem_of_cons in Hin as [->|Hin]; [|apply IH; [by apply batch_ok_tail|done]].
  exists index. rewrite recover_list_other; [simpl; by rewrite lookup_insert_eq|].
  intros r' Hr' Heq. destruct Hb as [Hnd _]. simpl in Hnd. apply NoDup_cons in Hnd as [Hni _].
  apply Hni. rewrite <- Heq. by apply (list_elem_of_fmap_2 (fun r => c_id (core r))).
Qed.

(** The rows RecoverExpired may take: expired leases of the queue that no other
    transaction holds. *)
Definition recoverable (e : env) (queue : string) (r : row) : bool :=
  is_expired e queue r && negb (row_locked e (c_id (core r))).

Lemma batch_length e queue limit d :
  Z.of_nat (length (expired_batch e queue limit d)) =
  Z.min (Z.of_nat limit) (count_rows (recoverable e queue) (jobs d)).
Proof.
  unfold expired_batch, count_rows, countb. rewrite length_take.
  rewrite (Permutation_length (merge_sort_Permutation _ _)). unfold rows_where, recoverable. lia.
Qed.

Lemma batch_recoverable e queue limit d r : invariant d -> r ∈ expired_batch e queue limit d ->
  jobs d !! c_id (core r) = Some r /\ recoverable e queue r = true.
Proof.
  intros I Hr. apply (subseteq_take limit) in Hr. rewrite merge_sort_Permutation in Hr.
  by apply (rows_where_lookup d) in Hr.
Qed.

Lemma batch_complete e queue limit d id r : jobs d !! id = Some r -> recoverable e queue r = true ->
  count_rows (recoverable e queue) (jobs d) <= Z.of_nat limit -> r ∈ expired_batch e queue limit d.
Proof.
  intros Hr Hx Hc. unfold expired_batch. rewrite take_ge.
  - rewrite merge_sort_Permutation. apply elem_of_rows_where. eauto.
  - rewrite (Permutation_length (merge_sort_Permutation _ _)).
    unfold count_rows, countb, recoverable in Hc. unfold rows_where. lia.
Qed.

(** Lease recovery is bounded and precise: with valid arguments it
    returns the number of expired leases it took, at most the limit; every
    job of the table is either unchanged, or was an expired lease of the queue
    and has lost its lease and moved to the state its history prescribes; and
    when the limit suffices, no recoverable lease is left. *)
Theorem recovery_exact e queue limit delay d : reachable d ->
  validName queue = true -> 0 < limit <= 1000 -> 0 <= delay ->
  exists d', exec (RecoverExpired e queue limit delay) d =
               (Ok (Z.min limit (count_rows (recoverable e queue) (jobs d))), d') /\
    forall id r, jobs d !! id = Some r ->
      exists r', jobs d' !! id = Some r' /\
        (r' = r \/ recoverable e queue r = true /\ state r' = fst (fst (recover_decision r)) /\
                   has_no_lease r' /\ attempt_count r' = attempt_count r) /\
        (count_rows (recoverable e queue) (jobs d) <= limit -> recoverable e queue r = true ->
         active (state r') = false).
Proof.
  intros Hre Hq Hl Hd. pose proof (reachable_inv d Hre) as I. rewrite RecoverExpired_refines by done.
  unfold recover_spec. rewrite Hq, (proj2 (Z.leb_gt _ _)), (proj2 (Z.ltb_ge _ _)), (proj2 (Z.ltb_ge _ _)) by lia.
  cbv beta iota zeta delta [negb orb]. rewrite batch_length, Z2Nat.id by lia.
  eexists. split; [done|]. intros id r Hr.
  set (batch := expired_batch e queue (Z.to_nat limit) d).
  pose proof (expired_batch_ok e queue (Z.to_nat limit) d I) as Hb.
  destruct (inv_rows d I id r Hr) as (Hid & _).
  destruct (decide (r ∈ batch)) as [Hin|Hni].
  - destruct (recover_list_hit e delay batch r 0 d Hb Hin) as [i Hi]. rewrite Hid in Hi.
    eexists. split; [exact Hi|].
    destruct (batch_recoverable e queue _ d r I Hin) as [_ Hx]. split; [by right|].
    intros _ _. apply recover_outcome_ended.
  - exists r. rewrite recover_list_other.
    + split_and!; [done|by left|]. intros Hc Hx. exfalso. apply Hni.
      apply (batch_complete e queue _ d id); [done|done|lia].
    + intros r' Hr' Heq. apply Hni. destruct (batch_recoverable e queue _ d r' I Hr') as [Hlk _].
      assert (r' = r) as -> by congruence. done.
Qed.

Lemma recovery_leb_spec e d queue a b : recovery_leb e d queue a b = true <->
  let ra := workspace_rank e d queue a in let rb := workspace_rank e d queue b in
  let xa := default 0 (lease_expires_at a) in let xb := default 0 (lease_expires_at b) in
  let le x y := text_leb x y = true in
  let wa := c_workspace_id (core a) in let wb := c_workspace_id (core b) in
  ra < rb \/ ra = rb /\ (xa < xb \/ xa = xb /\
    (le wa wb /\ ~ le wb wa \/ le wa wb /\ le wb wa /\ le (c_id (core a)) (c_id (core b)))).
Proof.
  unfold recovery_leb. cbv zeta.
  rewrite !orb_true_iff, !andb_true_iff, !orb_true_iff, !andb_true_iff, !orb_true_iff, !andb_true_iff,
    !Z.ltb_lt, !Z.eqb_eq, negb_true_iff, not_true_iff_false. tauto.
Qed.

#[local] Instance recovery_total e d queue : Total (fun a b => recovery_leb e d queue a b = true).
Proof.
  intros a b. rewrite !recovery_leb_spec. cbv zeta.
  destruct (Z.lt_trichotomy (workspace_rank e d queue a) (workspace_rank e d queue b)) as [?|[?|?]]; auto.
  destruct (Z.lt_trichotomy (default 0 (lease_expires_at a)) (default 0 (lease_expires_at b)))
    as [?|[?|?]]; auto.
  pose proof (text_leb_total (c_id (core a)) (c_id (core b))).
  pose proof (text_leb_total (c_workspace_id (core a)) (c_workspace_id (core b))).
  destruct (text_leb (c_workspace_id (core a)) (c_workspace_id (core b))),
    (text_leb (c_workspace_id (core b)) (c_workspace_id (core a))); naive_solver.
Qed.

#[local] Instance recovery_trans e d queue : Transitive (fun a b => recovery_leb e d queue a b = true).
Proof.
  intros a b c. rewrite !recovery_leb_spec. cbv zeta.
  pose proof (text_leb_trans (c_id (core a)) (c_id (core b)) (c_id (core c))).
  pose proof (text_leb_trans (c_workspace_id (core a)) (c_workspace_id (core b)) (c_workspace_id (core c))).
  pose proof (text_leb_trans (c_workspace_id (core c)) (c_workspace_id (core b)) (c_workspace_id (core a))).
  pose proof (text_leb_trans (c_workspace_id (core c)) (c_workspace_id (core a)) (c_workspace_id (core b))).
  pose proof (text_leb_trans (c_workspace_id (core b)) (c_workspace_id (core c)) (c_workspace_id (core a))).
  intros Hab Hbc.
  destruct Hab as [?|[? Hab]], Hbc as [?|[? Hbc]]; try (left; lia).
  destruct Hab as [?|[? Hab]], Hbc as [?|[? Hbc]]; try (right; split; [lia|left; lia]).
  right. split; [lia|]. right. split; [lia|]. tauto.
Qed.

Lemma StronglySorted_take {A} (R : relation A) n l x y :
  StronglySorted R l -> x ∈ take n l -> y ∈ drop n l -> R x y.
Proof.
  intros Hs. revert n. induction Hs as [|a l Hs IH Ha]; intros [|n]; simpl; try set_solver.
  intros Hx Hy. apply elem_of_cons in Hx as [->|Hx]; [|by apply (IH n)].
  rewrite Forall_forall in Ha. apply Ha. by apply (subseteq_drop n).
Qed.

(** Recovery does not starve a workspace: when a batch leaves a
    recoverable lease behind, every lease in the batch has at most its rank
    within its own workspace. *)
Theorem recovery_fair e queue limit d r r' :
  r ∈ expired_batch e queue limit d -> r' ∈ rows_where (recoverable e queue) (jobs d) ->
  r' ∉ expired_batch e queue limit d -> workspace_rank e d queue r <= workspace_rank e d queue r'.
Proof.
  intros Hr Hr' Hni. unfold expired_batch in *. fold (recoverable e queue) in *.
  set (sorted := merge_sort _ _) in *.
  assert (StronglySorted (fun a b => recovery_leb e d queue a b = true) sorted) as Hs
    by (apply StronglySorted_merge_sort; apply _).
  assert (r' ∈ drop limit sorted) as Hd.
  { assert (r' ∈ sorted) as Hin by (unfold sorted; by rewrite merge_sort_Permutation).
    rewrite <- (take_drop limit sorted), elem_of_app in Hin. tauto. }
  pose proof (StronglySorted_take _ limit sorted r r' Hs Hr Hd) as Hle.
  apply recovery_leb_spec in Hle. cbv zeta in Hle. lia.
Qed.

(** ** Enqueueing *)

(** A request that created a job. *)
Lemma enqueue_created e spec d job d' : enqueue_spec e spec d = (Ok (job, true), d') ->
  exists canonical fp id payload, fingerprintSpec spec = Ok (canonical, fp) /\
    jsonb_in canonical = Some payload /\ check_row (new_row e id spec payload fp) = true /\
    find_by_key spec d = None /\ jobs d !! id = None /\ s_WorkspaceID spec ∈ workspaces d /\
    job = scanJob (new_row e id spec payload fp) /\
    d' = set_jobs d (<[id := new_row e id spec payload fp]> (jobs d)).
Proof.
  unfold enqueue_spec. destruct (fingerprintSpec spec) as [[canonical fp]|]; [|done].
  destruct (randomID e "job_" 20) as [id|]; [|done].
  destruct (jsonb_in canonical) as [payload|] eqn:Hp; [|done]. cbv zeta.
  destruct (check_row _) eqn:Hck; [|done]. cbv beta iota delta [negb].
  destruct (find_by_key spec d) as [old|] eqn:Hf; [by destruct (String.eqb _ fp)|].
  destruct (jobs d !! id) eqn:Hid; [done|].
  destruct (bool_decide _) eqn:Hws; [|done]. apply bool_decide_eq_true in Hws.
  intros [= <- <-]. exists canonical, fp, id, payload. done.
Qed.

(** The constraints do not depend on the identifier or the times of a new row. *)
Lemma check_row_new e e' id id' spec payload fp :
  check_row (new_row e id spec payload fp) = check_row (new_row e' id' spec payload fp).
Proof. reflexivity. Qed.

(** C27.  Enqueueing is idempotent: after a request created a job, the same
    request returns that job and creates nothing, whatever the queue did in
    between and however often it is repeated. *)
Theorem enqueue_idempotent e e' spec d d' d'' job bytes : reachable d ->
  exec (Enqueue e spec) d = (Ok (job, true), d') -> rtc system_step d' d'' ->
  random_bytes e' 20 = Some bytes ->
  exists job', exec (Enqueue e' spec) d'' = (Ok (job', false), d'') /\ ID job' = ID job.
Proof.
  intros Hre Hx Hst Hb. pose proof (reachable_inv d Hre) as I. rewrite Enqueue_refines in Hx by done.
  destruct (enqueue_created _ _ _ _ _ Hx) as (canonical & fp & id & payload & Hfp & Hp & Hck & Hf & Hid & Hws & -> & ->).
  set (r := new_row e id spec payload fp) in *.
  pose proof (enqueue_invariant e id spec payload fp d I Hck Hf Hid Hws) as I'.
  destruct (steps_later _ d'' id r I' Hst) as (r' & Hr' & Hl); [simpl; by rewrite lookup_insert_eq|].
  pose proof (steps_invariant _ _ I' Hst) as I''.
  assert (find_by_key spec d'' = Some r') as Hf'.
  { apply (find_by_key_complete spec d'' id); [done|done|]. rewrite (later_core _ _ Hl).
    by apply same_key_spec. }
  exists (scanJob r'). rewrite Enqueue_refines by done. unfold enqueue_spec, randomID.
  rewrite Hfp, Hb, Hp. cbv zeta.
  rewrite (check_row_new e' e (encode_id "job_" bytes) id spec payload fp). fold r. rewrite Hck. cbv beta iota delta [negb].
  rewrite Hf'. simpl. rewrite (later_core _ _ Hl). simpl. by rewrite String.eqb_refl.
Qed.

(** A request that reuses an idempotency key for something else is
    refused and changes nothing, on any connection. *)
Theorem enqueue_conflict e spec d fs id r canonical fp : reachable d -> jobs d !! id = Some r ->
  same_key spec (core r) = true -> fingerprintSpec spec = Ok (canonical, fp) ->
  c_request_fingerprint (core r) <> fp ->
  (exists err, fst (run_on (Enqueue e spec) d fs) = Err err) /\ snd (run_on (Enqueue e spec) d fs) = d.
Proof.
  intros Hre Hr Hk Hfp Hne. pose proof (reachable_inv d Hre) as I.
  assert ((exists err, fst (enqueue_spec e spec d) = Err err) /\ snd (enqueue_spec e spec d) = d) as Hs.
  { pose proof (find_by_key_complete spec d id r I Hr Hk) as Hf. unfold enqueue_spec. rewrite Hfp, Hf.
    rewrite (proj2 (String.eqb_neq _ _) Hne). split_cases; simpl; eauto. }
  rewrite <- Enqueue_refines in Hs by done.
  destruct (atomic_run (Enqueue e spec) d fs (Enqueue_atomic e spec)) as [->|[? [->| ->]]]; [done|done|].
  split; [done|apply Hs].
Qed.

(** ** The normal course of a job *)

Lemma lease_token_valid ws id bytes : validateResourceIdentity ws id = true -> slen bytes = 32 ->
  validateLeaseIdentity ws id (encode_id "lease_" bytes) = true.
Proof.
  intros Hv Hb. unfold validateLeaseIdentity. rewrite Hv, encode_id_length, Hb.
  unfold encode_id. by rewrite HasPrefix_app.
Qed.

Lemma owned_intro e ws id tok d r : jobs d !! id = Some r -> c_workspace_id (core r) = ws ->
  lease_token_hash r = Some (hashLeaseToken tok) -> active (state r) = true ->
  unexpired (tx_now e) r = true -> owned e ws id tok d = Some r.
Proof.
  intros Hr Hw Hh Ha Hu. unfold owned, target, holds.
  by rewrite Hr, Hw, String.eqb_refl, Hh, bool_decide_eq_true_2, Ha, Hu.
Qed.

Lemma start_ok e ws id tok d r : invariant d -> validateLeaseIdentity ws id tok = true ->
  owned e ws id tok d = Some r -> not_cancelling r = true -> state r = Leased ->
  exec (Start e ws id tok) d = (Ok tt, apply_event e EvStart id r d).
Proof.
  intros I Hv Ho Hc Hs. rewrite Start_refines by done. unfold start_spec. by rewrite Hv, Ho, Hc, Hs.
Qed.

Lemma succeed_ok e ws id tok d r : invariant d -> validateLeaseIdentity ws id tok = true ->
  owned e ws id tok d = Some r -> not_cancelling r = true -> state r = Running ->
  exec (Succeed e ws id tok) d = (Ok tt, apply_event e (EvFinish Succeeded) id r d).
Proof.
  intros I Hv Ho Hc Hs. rewrite Succeed_refines by done. unfold succeed_spec. by rewrite Hv, Ho, Hc, Hs.
Qed.

(** A leased job can be carried to success: the token that Acquire
    returns is accepted by Start and then by Succeed as long as the lease has
    not run out, and the job ends succeeded with its attempt closed. *)
Theorem lease_to_success e1 e2 e3 queue owner lease m d d1 l bytes : reachable d ->
  random_bytes e1 32 = Some bytes -> slen bytes = 32 ->
  exec (Acquire e1 queue owner lease m) d = (Ok (Some l), d1) ->
  let ws := WorkspaceID (lease_job l) in let id := ID (lease_job l) in
  let expiry := tx_now e1 + Microseconds lease * Microsecond in
  validateResourceIdentity ws id = true -> tx_now e2 < expiry -> tx_now e3 < expiry ->
  exists d2 d3, exec (Start e2 ws id (token l)) d1 = (Ok tt, d2) /\
    exec (Succeed e3 ws id (token l)) d2 = (Ok tt, d3) /\
    (exists r, jobs d3 !! id = Some r /\ state r = Succeeded /\ completed_at r = Some (tx_now e3)) /\
    (exists a, attempts d3 !! (id, AttemptCount (lease_job l)) = Some a /\
               a_outcome a = Some "succeeded" /\ a_lease_owner a = owner).
Proof.
  intros Hre Hb Hlen Hacq ws id expiry Hv Hx2 Hx3. pose proof (reachable_inv d Hre) as I.
  rewrite Acquire_refines in Hacq by done. unfold acquire_spec, randomID in Hacq. rewrite Hb in Hacq.
  destruct (validAcquire _ _ _ _) eqn:Hva; [|done]. cbv beta iota delta [negb] in Hacq.
  destruct (candidate e1 d queue m) as [r|] eqn:Hc; [|done]. injection Hacq as <- <-.
  destruct (candidate_Some _ _ _ _ _ I Hc) as [Hr He]. simpl in ws, id, Hv. subst ws id.
  subst expiry. set (tok := encode_id "lease_" bytes) in *.
  pose proof (eligible_allowed e1 d queue owner lease m tok r Hva He) as Hev1.
  set (ev1 := EvLease owner (hashLeaseToken tok) lease) in *.
  pose proof (lease_token_valid _ _ bytes Hv Hlen) as Htok. fold tok in Htok.
  assert (not_cancelling r = true) as Hnc by (unfold eligible in He; by simp_bool).
  pose proof (invariant_apply d e1 ev1 _ r I Hr Hev1) as I1.
  set (id := c_id (core r)) in *. set (d1 := apply_event e1 ev1 id r d) in *.
  assert (owned e2 (c_workspace_id (core r)) id tok d1 = Some (row_after e1 ev1 r)) as Ho1.
  { apply owned_intro; try done; [simpl; by rewrite lookup_insert_eq|].
    unfold unexpired. simpl. by rewrite (proj2 (Z.ltb_lt _ _) Hx2). }
  destruct (owned_Some _ _ _ _ _ _ Ho1) as (Hr1 & _ & _ & _ & Hu1).
  assert (allowed e2 EvStart (row_after e1 ev1 r) = true) as Hev2.
  { cbn [allowed]. rewrite Hu1. done. }
  pose proof (invariant_apply d1 e2 EvStart _ _ I1 Hr1 Hev2) as I2.
  eexists _, _. split; [apply (start_ok e2 _ _ tok d1 _ I1 Htok Ho1); done|].
  set (d2 := apply_event e2 EvStart id (row_after e1 ev1 r) d1) in *.
  assert (owned e3 (c_workspace_id (core r)) id tok d2 = Some (start_row e2 (row_after e1 ev1 r))) as Ho2.
  { apply owned_intro; try done; [simpl; by rewrite lookup_insert_eq|].
    unfold unexpired. simpl. by rewrite (proj2 (Z.ltb_lt _ _) Hx3). }
  split; [apply (succeed_ok e3 _ _ tok d2 _ I2 Htok Ho2); done|]. split.
  - eexists. split; [simpl; by rewrite lookup_insert_eq|done].
  - eexists. split; [|split]; [simpl; rewrite !lookup_alter_eq, lookup_insert_eq; reflexivity|done|done].
Qed.

(** The counters partition the queue: every job of the queue is counted in
    exactly one state, and expired leases are among the running jobs. *)
Theorem metrics_partition (numeric_float : Z -> Z -> spec_float) e queue m d :
  let x := metrics_snapshot numeric_float e queue m d in
  m_Queued x + m_Running x + m_RetryWait x + m_DeadLetter x + m_Succeeded x + m_Cancelled x
    = in_queue queue (fun _ => true) d /\
  0 <= m_ExpiredLeases x <= m_Running x.
Proof.
  unfold metrics_snapshot, in_queue, count_rows; simpl.
  induction (map snd (map_to_list (jobs d))) as [|r l [IH IH']]; [done|].
  rewrite !countb_cons.
  destruct (String.eqb _ _); [destruct (state r)|]; simpl; destruct (expired (tx_now e) r); simpl; lia.
Qed.

End Theorems.
End QueueTheorems.
