(* ===== verification/QueueExamples.v ===== *)
(** * A concrete queue

    An instance of [Postgres], a small history of one workspace (two jobs are
    enqueued, one is leased, started and loses its lease), and the theorems of
    QueueTheorems.v applied to it. *)

From S2P Require Import Prelude GoStrings Encoding Txn Json Queue Lifecycle QueueRefinement QueueTheorems.
From Stdlib Require Import Ascii.

Local Open Scope Z_scope.

Module QueueExamples.
Import JobQueue Lifecycle QueueSpec QueueTheorems.

Lemma truncation_mono a b : a <= b -> a - a mod Microsecond <= b - b mod Microsecond.
Proof.
  intros H. unfold Microsecond. pose proof (Z_div_mod_eq_full a 1000). pose proof (Z_div_mod_eq_full b 1000).
  pose proof (Z.div_le_mono a b 1000). lia.
Qed.

Lemma truncation_exact t : t mod Microsecond = 0 -> t - t mod Microsecond = t.
Proof. lia. Qed.

#[local] Instance demo_pg : Postgres := {|
  store_time t := t - t mod Microsecond;
  store_time_mono := truncation_mono;
  store_time_exact := truncation_exact;
  jsonb_in s := Some s;
  jsonb_is_object s := HasPrefix s "{";
  jsonb_size := slen;
  text_leb := bytewise_leb;
  text_leb_total := bytewise_total;
  text_leb_trans := bytewise_trans |}.

(** A call at time [t] whose random bytes are all [c]. *)
Definition at_time (t : time) (c : ascii) : env := {|
  tx_now := t; clock _ := t; row_locked _ := false; scan_rank _ := 0;
  random_bytes n := Some (Nat.iter (Z.to_nat n) (String c) "") |}.

Definition demo_spec (key : string) : Spec := {|
  s_WorkspaceID := "ws_demo"; s_OperationID := ""; s_InitiatingPrincipalID := "usr_demo";
  s_SystemCapability := "ingestion:process"; s_Queue := "imports"; s_Kind := "scan.import";
  s_SchemaVersion := 1; s_Payload := "{}"; s_IdempotencyKey := key; s_Priority := 0;
  s_AvailableAt := 0; s_MaxAttempts := 2 |}.

Definition t0 : time := 1000 * Second.
Definition env_a : env := at_time t0 "a".
Definition env_b : env := at_time (t0 + Second) "b".
Definition env_c : env := at_time (t0 + 2 * Second) "c".
Definition env_late : env := at_time (t0 + Hour) "d".

Definition id_a : string := encode_id "job_" "aaaaaaaaaaaaaaaaaaaa".
Definition id_b : string := encode_id "job_" "bbbbbbbbbbbbbbbbbbbb".
Definition token_c : string := encode_id "lease_" "cccccccccccccccccccccccccccccccc".

(** The history. *)
Definition with_workspace : database := Database ({["ws_demo"]} ∪ ∅) ∅ ∅.
Definition one_job : database := perform env_a (OpEnqueue (demo_spec "first")) [] with_workspace.
Definition two_jobs : database := perform env_b (OpEnqueue (demo_spec "second")) [] one_job.
Definition leased_db : database :=
  perform env_c (OpAcquire "imports" "worker-1" (30 * Second) 1) [] two_jobs.
Definition running_db : database := perform env_c (OpStart "ws_demo" id_a token_c) [] leased_db.
Definition recovered_db : database := perform env_late (OpRecoverExpired "imports" 10 Second) [] running_db.

Lemma extend_from d0 d e op fs : rtc system_step d0 d -> rtc system_step d0 (perform e op fs d).
Proof. intros H. eapply rtc_r; [exact H|]. apply step_operation. Qed.
Lemma extend d e op fs : reachable d -> reachable (perform e op fs d).
Proof. apply extend_from. Qed.
Lemma one_job_to_running : rtc system_step one_job running_db.
Proof. do 3 apply extend_from. apply rtc_refl. Qed.

Lemma with_workspace_reachable : reachable with_workspace.
Proof. apply rtc_once. apply (step_workspace empty_database "ws_demo"). Qed.
Lemma one_job_reachable : reachable one_job.
Proof. apply extend, with_workspace_reachable. Qed.
Lemma two_jobs_reachable : reachable two_jobs.
Proof. apply extend, one_job_reachable. Qed.
Lemma leased_reachable : reachable leased_db.
Proof. apply extend, two_jobs_reachable. Qed.
Lemma running_reachable : reachable running_db.
Proof. apply extend, leased_reachable. Qed.

(** What the history looks like, state by state. *)
Definition states (d : database) : list (option State) :=
  [option_map state (jobs d !! id_a); option_map state (jobs d !! id_b)].

Example demo_states :
  map states [with_workspace; one_job; two_jobs; leased_db; running_db; recovered_db] =
  [[None; None]; [Some Queued; None]; [Some Queued; Some Queued]; [Some Leased; Some Queued];
   [Some Running; Some Queued]; [Some RetryWait; Some Queued]].
Proof. vm_compute. reflexivity. Qed.

(** ** The theorems at work *)

Definition blank_row : row := new_row env_a "" (demo_spec "") "" "".
Definition job_in (d : database) (id : string) : row := default blank_row (jobs d !! id).

Lemma job_in_lookup d id : is_null (jobs d !! id) = false -> jobs d !! id = Some (job_in d id).
Proof. unfold job_in. by destruct (jobs d !! id). Qed.

Lemma reachable_invariant_witness : reachable recovered_db /\ invariant recovered_db.
Proof.
  assert (reachable recovered_db) as H by apply extend, running_reachable.
  split; [exact H|exact (reachable_invariant _ H)].
Defined.

Lemma operations_atomic_witness :
  perform env_c (OpStart "ws_demo" id_a token_c) [Healthy; Healthy; Healthy; Lost] leased_db = leased_db \/
  perform env_c (OpStart "ws_demo" id_a token_c) [Healthy; Healthy; Healthy; Lost] leased_db
  = perform_spec env_c (OpStart "ws_demo" id_a token_c) leased_db.
Proof. apply operations_atomic. exact leased_reachable. Defined.

Lemma job_history_witness :
  (exists r', jobs (perform env_late (OpRecoverExpired "imports" 10 Second) [] running_db) !! id_a = Some r' /\
     core r' = core (job_in running_db id_a)) /\
  exists r', jobs recovered_db !! id_a = Some r' /\ core r' = core (job_in one_job id_a).
Proof.
  split.
  - destruct (job_history running_db id_a (job_in running_db id_a) running_reachable) as [H _];
      [apply job_in_lookup; vm_compute; reflexivity|].
    destruct (H env_late (OpRecoverExpired "imports" 10 Second) []) as (r' & Hr' & Hc & _). exists r'. split; [exact Hr'|exact Hc].
  - destruct (job_history one_job id_a (job_in one_job id_a) one_job_reachable) as [_ H];
      [apply job_in_lookup; vm_compute; reflexivity|].
    destruct (H recovered_db) as (r' & Hr' & Hc & _); [apply extend_from, one_job_to_running|]. exists r'. split; [exact Hr'|exact Hc].
Defined.

(** The first job is cancelled while it waits; recovery cannot touch it. *)
Definition cancelled_db : database := perform env_c (OpRequestCancellation "ws_demo" id_b) [] running_db.

Lemma terminal_frozen_witness :
  jobs (perform env_late (OpRecoverExpired "imports" 10 Second) [] cancelled_db) !! id_b
  = Some (job_in cancelled_db id_b).
Proof.
  apply (terminal_frozen cancelled_db).
  - apply extend, running_reachable.
  - apply rtc_once, step_operation.
  - apply job_in_lookup. vm_compute. reflexivity.
  - vm_compute. reflexivity.
Defined.

(** The running job is asked to cancel, and its lease runs out. *)
Definition cancelling_db : database := perform env_c (OpRequestCancellation "ws_demo" id_a) [] running_db.

Lemma cancellation_durable_witness : exists r',
  jobs (perform env_late (OpRecoverExpired "imports" 10 Second) [] cancelling_db) !! id_a = Some r' /\
  cancellation_requested_at r' = Some (t0 + 2 * Second) /\
  (state r' = Leased \/ state r' = Running \/ state r' = Cancelled) /\
  (state r' = Running -> state (job_in cancelling_db id_a) = Running) /\
  attempt_count r' = attempt_count (job_in cancelling_db id_a).
Proof.
  apply (cancellation_durable cancelling_db).
  - apply extend, running_reachable.
  - apply rtc_once, step_operation.
  - apply job_in_lookup. vm_compute. reflexivity.
  - vm_compute. reflexivity.
Defined.

Lemma attempt_history_exact_witness :
  (forall n, is_Some (attempts running_db !! (id_a, n)) <-> 1 <= n <= attempt_count (job_in running_db id_a)) /\
  attempt_count (job_in running_db id_a) <= c_max_attempts (core (job_in running_db id_a)) /\
  (forall n a, attempts running_db !! (id_a, n) = Some a ->
     a_outcome a = None <-> n = attempt_count (job_in running_db id_a) /\
                            active (state (job_in running_db id_a)) = true).
Proof.
  apply attempt_history_exact; [exact running_reachable|]. apply job_in_lookup. vm_compute. reflexivity.
Defined.

Lemma stale_token_fenced_witness :
  perform env_late (OpSucceed "ws_demo" id_a token_c) [] running_db = running_db.
Proof.
  apply (stale_token_fenced env_late "ws_demo" id_a token_c).
  - exact running_reachable.
  - intros r Hr. right.
    assert (r = job_in running_db id_a) as -> by (unfold job_in; by rewrite Hr).
    vm_compute. reflexivity.
  - done.
Defined.

Definition the_lease : Lease := {|
  lease_job := scanJob (lease_row env_c "worker-1" (hashLeaseToken token_c) (30 * Second)
                                  (job_in two_jobs id_a));
  token := token_c |}.

Lemma acquire_exclusive_witness : exists r,
  jobs two_jobs !! ID (lease_job the_lease) = Some r /\ eligible env_c two_jobs "imports" 1 r = true /\
  jobs leased_db !! ID (lease_job the_lease)
    = Some (lease_row env_c "worker-1" (hashLeaseToken (token the_lease)) (30 * Second) r) /\
  lease_job the_lease = scanJob (lease_row env_c "worker-1" (hashLeaseToken (token the_lease)) (30 * Second) r) /\
  (forall id, id <> ID (lease_job the_lease) -> jobs leased_db !! id = jobs two_jobs !! id) /\
  active_count leased_db (c_workspace_id (core r)) "imports"
    = active_count two_jobs (c_workspace_id (core r)) "imports" + 1 /\
  active_count leased_db (c_workspace_id (core r)) "imports" <= 1.
Proof.
  apply (acquire_exclusive env_c "imports" "worker-1" (30 * Second) 1 two_jobs leased_db [] the_lease two_jobs_reachable).
  vm_compute. reflexivity.
Defined.

Lemma acquire_fair_witness : exists r, jobs two_jobs !! ID (lease_job the_lease) = Some r /\
  let load x := active_count two_jobs (c_workspace_id (core x)) (c_queue (core x)) in
  let r' := job_in two_jobs id_b in
  load r <= load r' /\
  (load r = load r' -> c_priority (core r') <= c_priority (core r) /\
   (c_priority (core r') = c_priority (core r) -> available_at r <= available_at r')).
Proof.
  apply (acquire_fair env_c "imports" "worker-1" (30 * Second) 1 two_jobs leased_db [] the_lease
           (job_in two_jobs id_b) two_jobs_reachable).
  - vm_compute. reflexivity.
  - apply elem_of_rows_where. split; [|vm_compute; reflexivity].
    exists id_b. apply job_in_lookup. vm_compute. reflexivity.
Defined.

Lemma acquire_finds_work_witness :
  (exists r, r ∈ rows_where (eligible env_c two_jobs "imports" 1) (jobs two_jobs)) /\
  (exists l d', exec (Acquire env_c "imports" "worker-1" (30 * Second) 1) two_jobs = (Ok (Some l), d')) \/
  rows_where (eligible env_c two_jobs "imports" 1) (jobs two_jobs) = [] /\
  exec (Acquire env_c "imports" "worker-1" (30 * Second) 1) two_jobs = (Ok None, two_jobs).
Proof.
  apply (acquire_finds_work env_c "imports" "worker-1" (30 * Second) 1 two_jobs
           "cccccccccccccccccccccccccccccccc" two_jobs_reachable); vm_compute; reflexivity.
Defined.

Lemma recovery_exact_witness : exists d',
  exec (RecoverExpired env_late "imports" 10 Second) running_db =
    (Ok (Z.min 10 (count_rows (recoverable env_late "imports") (jobs running_db))), d') /\
  forall id r, jobs running_db !! id = Some r ->
    exists r', jobs d' !! id = Some r' /\
      (r' = r \/ recoverable env_late "imports" r = true /\ state r' = fst (fst (recover_decision r)) /\
                 has_no_lease r' /\ attempt_count r' = attempt_count r) /\
      (count_rows (recoverable env_late "imports") (jobs running_db) <= 10 ->
       recoverable env_late "imports" r = true -> active (state r') = false).
Proof.
  apply recovery_exact; [exact running_reachable|vm_compute; reflexivity|lia|].
  unfold Second. lia.
Defined.

(** Two expired leases, a batch of one. *)
Definition both_leased : database :=
  perform env_late (OpAcquire "imports" "worker-2" (30 * Second) 2) []
    (perform env_b (OpAcquire "imports" "worker-1" (30 * Second) 2) [] two_jobs).
Definition env_later : env := at_time (t0 + 2 * Hour) "e".

Lemma recovery_fair_witness :
  workspace_rank env_later both_leased "imports" (job_in both_leased id_a)
  <= workspace_rank env_later both_leased "imports" (job_in both_leased id_b).
Proof.
  apply (recovery_fair env_later "imports" 1).
  - assert (expired_batch env_later "imports" 1 both_leased = [job_in both_leased id_a]) as ->
      by (vm_compute; reflexivity).
    by left.
  - apply elem_of_rows_where. split; [|vm_compute; reflexivity].
    exists id_b. apply job_in_lookup. vm_compute. reflexivity.
  - assert (expired_batch env_later "imports" 1 both_leased = [job_in both_leased id_a]) as ->
      by (vm_compute; reflexivity).
    intros H%list_elem_of_singleton. vm_compute in H. discriminate H.
Defined.

Lemma enqueue_idempotent_witness : exists job',
  exec (Enqueue env_b (demo_spec "first")) running_db = (Ok (job', false), running_db) /\ ID job' = ID (scanJob (job_in one_job id_a)).
Proof.
  apply (enqueue_idempotent env_a env_b (demo_spec "first") with_workspace one_job running_db
           (scanJob (job_in one_job id_a)) "bbbbbbbbbbbbbbbbbbbb" with_workspace_reachable).
  - vm_compute. reflexivity.
  - exact one_job_to_running.
  - vm_compute. reflexivity.
Defined.

Definition other_spec : Spec := {|
  s_WorkspaceID := "ws_demo"; s_OperationID := ""; s_InitiatingPrincipalID := "usr_demo";
  s_SystemCapability := "ingestion:process"; s_Queue := "imports"; s_Kind := "scan.import";
  s_SchemaVersion := 2; s_Payload := "{}"; s_IdempotencyKey := "first"; s_Priority := 0;
  s_AvailableAt := 0; s_MaxAttempts := 2 |}.

Definition other_fingerprint : string :=
  match fingerprintSpec other_spec with Ok (_, fp) => fp | Err _ => "" end.

Lemma enqueue_conflict_witness :
  (exists err, fst (run_on (Enqueue env_b other_spec) running_db [Healthy; Broken]) = Err err) /\
  snd (run_on (Enqueue env_b other_spec) running_db [Healthy; Broken]) = running_db.
Proof.
  apply (enqueue_conflict env_b other_spec running_db [Healthy; Broken] id_a (job_in running_db id_a)
           "{}" other_fingerprint running_reachable).
  - apply job_in_lookup. vm_compute. reflexivity.
  - vm_compute. reflexivity.
  - vm_compute. reflexivity.
  - intros H. vm_compute in H. discriminate H.
Defined.

Lemma lease_to_success_witness : exists d2 d3,
  exec (Start env_c "ws_demo" id_a token_c) leased_db = (Ok tt, d2) /\
  exec (Succeed env_c "ws_demo" id_a token_c) d2 = (Ok tt, d3) /\
  (exists r, jobs d3 !! id_a = Some r /\ state r = Succeeded /\ completed_at r = Some (t0 + 2 * Second)) /\
  (exists a, attempts d3 !! (id_a, 1) = Some a /\ a_outcome a = Some "succeeded" /\
             a_lease_owner a = "worker-1").
Proof.
  apply (lease_to_success env_c env_c env_c "imports" "worker-1" (30 * Second) 1 two_jobs leased_db the_lease
           "cccccccccccccccccccccccccccccccc" two_jobs_reachable); vm_compute; reflexivity.
Defined.

End QueueExamples.
