(* ===== verification/Records.v ===== *)
(** * Immutable records

    Observations, normalizations, correlation outcomes, scans, parser outputs
    and idempotency claims are stored the same way: INSERT ... ON CONFLICT DO
    NOTHING, and when the key is taken the stored fingerprint decides between
    an exact replay, which returns the stored row, and a conflict.  [record]
    is that common tail of the Go functions as a program, and the lemmas are
    proved once for all of them.  [for_each] is a loop of inserts. *)

From S2P Require Import Prelude Txn.

Local Open Scope Z_scope.

(** What decides that two records have the same content: [bytes.Equal] on one
    fingerprint, or on several. *)
Class Fingerprint (F : Type) := same_fp : F -> F -> bool.
#[global] Instance text_fingerprint : Fingerprint string := String.eqb.
#[global] Instance pair_fingerprint : Fingerprint (string * string) :=
  fun x y => String.eqb (fst x) (fst y) && String.eqb (snd x) (snd y).

Section Record.
Context {D E A F : Type} `{!Fingerprint F}.

(** The program inside an open transaction: the insert, the statements that
    follow a fresh insert, what a taken key reads back, the answers. *)
Definition record (e_insert : E) (insert : D -> option (Z * D)) (e_read : E)
  (find : D -> option (A * F)) (missing conflict e_replay e_commit : E) (fingerprint : F)
  (rest : prog D E unit) (created : A) : prog D E A :=
  let! rows := statement e_insert insert in
  if rows =? 0 then
    let! existing := query e_read find in
    match existing with
    | None => fail missing
    | Some (stored, fp) =>
        if negb (same_fp fp fingerprint) then fail conflict
        else do! commit e_replay in done_with stored
    end
  else
    do! rest in
    do! commit e_commit in
    done_with created.

Lemma record_in_tx e_insert insert e_read find missing conflict e_replay e_commit fp rest created :
  no_commit rest ->
  in_tx (record e_insert insert e_read find missing conflict e_replay e_commit fp rest created).
Proof.
  intros Hr. unfold record. simpl. constructor. intros rows. destruct (rows =? 0); simpl.
  - constructor. intros [[st fp']|]; [|constructor]. destruct (negb _); [constructor|]. simpl. constructor.
  - apply in_tx_bind; [done|]. intros []. simpl. constructor.
Qed.

(** The outcome on a healthy connection. *)
Definition record_outcome (insert : D -> option (Z * D)) (find : D -> option (A * F))
  (e_insert missing conflict : E) (fp : F) (rest : D -> result E unit * D) (created : A) (d : D)
  : result E A * D :=
  match insert d with
  | None => (Err e_insert, d)
  | Some (rows, d1) =>
      if rows =? 0 then
        match find d1 with
        | None => (Err missing, d)
        | Some (stored, fp') =>
            if negb (same_fp fp' fp) then (Err conflict, d) else (Ok stored, d1)
        end
      else match rest d1 with
      | (Ok _, d2) => (Ok created, d2)
      | (Err e, _) => (Err e, d)
      end
  end.

Lemma record_run e_insert insert e_read find missing conflict e_replay e_commit fp rest created d
  (step : D -> result E unit * D) :
  (forall d1, run rest (Session d d1 []) = (fst (step d1), Session d (snd (step d1)) [])) ->
  let out := run (record e_insert insert e_read find missing conflict e_replay e_commit fp rest created)
                 (Session d d []) in
  (fst out, committed (snd out)) = record_outcome insert find e_insert missing conflict fp step created d.
Proof.
  intros Hrest. unfold record, record_outcome. rewrite run_statement.
  destruct (insert d) as [[rows d1]|]; [|done]. destruct (rows =? 0).
  - unfold query. simpl. destruct (find d1) as [[st fp']|]; [|done].
    by destruct (negb _).
  - rewrite run_bind, Hrest. destruct (step d1) as [[[]|e] d2]; done.
Qed.
(** A failed recording changes nothing. *)
Lemma record_outcome_err insert find e_insert missing conflict fp rest created d e d' :
  record_outcome insert find e_insert missing conflict fp rest created d = (Err e, d') -> d' = d.
Proof.
  unfold record_outcome. destruct (insert d) as [[rows d1]|]; [|congruence]. destruct (rows =? 0).
  - destruct (find d1) as [[st fp']|]; [|congruence]. destruct (negb _); congruence.
  - destruct (rest d1) as [[u|e'] d2]; congruence.
Qed.

(** What a successful recording did: the same content was stored under the
    key, or it is stored now. *)
Lemma record_outcome_ok insert find e_insert missing conflict fp rest created d out d' :
  record_outcome insert find e_insert missing conflict fp rest created d = (Ok out, d') ->
  (exists fp', insert d = Some (0, d') /\ find d' = Some (out, fp') /\ same_fp fp' fp = true) \/
  (exists rows d1, insert d = Some (rows, d1) /\ rows <> 0 /\ out = created /\ rest d1 = (Ok tt, d')).
Proof.
  unfold record_outcome. destruct (insert d) as [[rows d1]|] eqn:Ei; [|done]. destruct (rows =? 0) eqn:Er.
  - destruct (find d1) as [[st fp']|] eqn:Ef; [|done]. destruct (same_fp fp' fp) eqn:Es; [|done].
    simpl. intros [= <- <-]. left. simp_bool. subst rows. eauto.
  - destruct (rest d1) as [[[]|e'] d2] eqn:Es; [|done]. intros [= <- <-]. right. simp_bool. eauto 10.
Qed.
End Record.

(** A loop of inserts that stops at the first error. *)
Fixpoint for_each {D E A} (e : E) (f : A -> D -> option (unit * D)) (l : list A) : prog D E unit :=
  match l with
  | [] => done_with tt
  | a :: l => do! statement e (f a) in for_each e f l
  end.

Lemma for_each_no_commit {D E A} e (f : A -> D -> option (unit * D)) l :
  no_commit (for_each (E := E) e f l).
Proof. induction l; simpl; constructor; auto. Qed.

(** A loop of inserts into one table, when it succeeds, adds exactly its rows
    and touches nothing else. *)
Section Inserts.
Context {D E A V K : Type} `{Countable K} (get : D -> gmap K V) (set : D -> gmap K V -> D)
  (key : A -> K) (val : A -> V) (f : A -> D -> option (unit * D)).
Hypothesis get_set : forall d m, get (set d m) = m.
Hypothesis set_set : forall d m m', set (set d m) m' = set d m'.
Hypothesis set_get : forall d, set d (get d) = d.
Hypothesis f_inserts : forall a d u d', f a d = Some (u, d') ->
  get d !! key a = None /\ d' = set d (<[key a := val a]> (get d)).

Lemma for_each_inserts (e : E) l w u w' : run_in (for_each e f l) w = (Ok u, w') ->
  w' = set w (get w') /\
  forall k v, get w' !! k = Some v <-> get w !! k = Some v \/ exists a, a ∈ l /\ k = key a /\ v = val a.
Proof using Type*.
  revert w. induction l as [|a l IH]; intros w Hr.
  - injection Hr as <- <-. split; [done|]. intros k v. split; [by left|]. intros [?|(a & Ha & _)]; [done|].
    by apply not_elem_of_nil in Ha.
  - unfold run_in in Hr. simpl in Hr. destruct (f a w) as [[u1 w1]|] eqn:Ef; [|done].
    pose proof (f_inserts _ _ _ _ Ef) as [Hnone ->].
    rewrite (no_commit_run _ _ _ (for_each_no_commit e f l)) in Hr.
    destruct (run_in (for_each e f l) _) as [r w2] eqn:El. simpl in Hr. injection Hr as -> ->.
    apply IH in El as [-> Hl]. rewrite get_set in Hl |- *. split; [by rewrite !set_set|].
    intros k v. rewrite Hl, get_set, lookup_insert_Some. split.
    + intros [[[<- <-]|[_ ?]]|(b & ? & ?)]; [right; exists a|by left|right; exists b]; set_solver.
    + intros [Hk|(b & [->|Hb]%elem_of_cons & -> & ->)]; [left; right|by left; left|right; eauto].
      split; [congruence|done].
Qed.
End Inserts.
