(* ===== verification/Idempotency.v ===== *)
(** * Idempotency claims

    The three public write operations that must not run twice (create a
    repository, create an import, complete an import) claim a row of an
    idempotency table first.  The tables repository_create_idempotency,
    import_create_idempotency and import_complete_idempotency have the same
    columns and the same constraints, so the claim is modelled once: its key,
    its row, the constraints, the INSERT ... ON CONFLICT DO NOTHING that makes
    the first request win, and the text of the advisory lock that serializes
    requests under one key. *)

From S2P Require Import Prelude GoStrings Encoding Json Queue.

Local Open Scope Z_scope.

Module Idempotency.
Import JobQueue(char_length_between).

(** workspace, principal, API version, operation, key *)
Record scope := Scope {
  sc_workspace : string; sc_principal : string; sc_version : Z; sc_operation : string; sc_key : string
}.

#[global] Instance scope_eq_dec : EqDecision scope.
Proof. solve_decision. Defined.

#[global] Instance scope_countable : Countable scope.
Proof.
  refine (inj_countable' (fun s => (sc_workspace s, sc_principal s, sc_version s, sc_operation s, sc_key s))
            (fun '(w, p, v, o, k) => Scope w p v o k) _).
  by intros [].
Defined.

(** The fingerprint of the request, what it created, and the retention. *)
Record claim := Claim {
  cl_fingerprint : string; cl_resource : string; cl_completed : time; cl_expires : time
}.

Abbreviation claims := (gmap scope claim).

Definition idempotencyKeyPattern (value : string) : bool := match_class key_char 1 128 value.

(** The CHECK constraints and column types. *)
Definition check_claim (s : scope) (c : claim) : bool :=
  char_length_between 3 128 (sc_principal s) && (0 <? sc_version s) && (sc_version s <? 2 ^ 15) &&
  match_head is_lower capability_char 63 (sc_operation s) && idempotencyKeyPattern (sc_key s) &&
  (slen (cl_fingerprint c) =? 32) && char_length_between 0 128 (cl_resource c) &&
  (cl_completed c + 24 * Hour <=? cl_expires c).

(** The INSERT on one claims table: a violated constraint, the number of rows
    and the table.  [known] is the foreign key to workspaces. *)
Definition insert_claim (s : scope) (c : claim) (known : bool) (t : claims) : option (Z * claims) :=
  if negb (check_claim s c) then None
  else if negb (is_null (t !! s)) then Some (0, t)
  else if negb known then None
  else Some (1, <[s := c]> t).

(** createLockKey, idempotencyLockKey and completionLockKey. *)
Definition lock_key (s : scope) : string :=
  hex_encode (sha256 (print (JObj
    [("workspace_id", JStr (sc_workspace s)); ("principal_id", JStr (sc_principal s));
     ("api_major_version", JInt (sc_version s)); ("operation", JStr (sc_operation s));
     ("idempotency_key", JStr (sc_key s))]))).

Lemma char_length_weaken lo hi lo' hi' s : lo' <= lo -> hi <= hi' ->
  char_length_between lo hi s = true -> char_length_between lo' hi' s = true.
Proof. unfold char_length_between. intros ? ? H. simp_bool. by rewrite !(proj2 (Z.leb_le _ _)) by lia. Qed.

Lemma validOpaqueID_length v : validOpaqueID v = true -> char_length_between 3 128 v = true.
Proof.
  unfold validOpaqueID, char_length_between. intros H. simp_bool. by rewrite !(proj2 (Z.leb_le _ _)) by lia.
Qed.

Lemma insert_claim_cases s c known t rows t' : insert_claim s c known t = Some (rows, t') ->
  check_claim s c = true /\
  ((rows = 0 /\ t' = t /\ is_Some (t !! s)) \/
   (rows = 1 /\ t' = <[s := c]> t /\ t !! s = None /\ known = true)).
Proof.
  unfold insert_claim. destruct (check_claim s c); [|done]. simpl.
  destruct (t !! s) eqn:Et; simpl; [intros [= <- <-]; split; [done|left; eauto]|].
  destruct known; simpl; [|done]. intros [= <- <-]. split; [done|]. right. auto.
Qed.

(** A claim that is taken stays as it was. *)
Lemma insert_claim_taken s c c0 known t : check_claim s c = true -> t !! s = Some c0 ->
  insert_claim s c known t = Some (0, t).
Proof. intros Hc Ht. unfold insert_claim. by rewrite Hc, Ht. Qed.

Lemma insert_claim_keeps s c known t rows t' k v : insert_claim s c known t = Some (rows, t') ->
  t !! k = Some v -> t' !! k = Some v.
Proof.
  intros [_ [(_ & -> & _)|(_ & -> & Hn & _)]]%insert_claim_cases Hk; [done|].
  rewrite lookup_insert_ne; [done|]. congruence.
Qed.
End Idempotency.
