(* ===== verification/Catalog.v ===== *)
(** * The asset catalog (src/internal/catalog)

    [Module Catalog] models repositories, their links to applications and the
    resolution of an active link: the tables with their constraints, the
    store operations of postgres.go, and the services of service.go and
    resolution.go around them. *)

From S2P Require Import Prelude GoStrings Encoding Txn Json Queue Records Idempotency.

Local Open Scope Z_scope.

Module Catalog.
Import JobQueue(char_length_between).
Import Idempotency.

Definition CapabilityRepositoriesCreate : string := "catalog:repositories:create".
Definition CapabilityApplicationRepositoriesLink : string := "catalog:application-repositories:link".
Definition apiMajorVersion : Z := 1.
Definition operationCreateRepository : string := "catalog.repositories.create".
Definition minimumIdempotencyRetention : duration := 24 * Hour.

Inductive error :=
| ErrInvalid
| ErrIdempotencyConflict
| ErrIdempotencyInProgress
| ErrWorkspaceNotFound
| ErrLinkTargetNotFound
| ErrRepositoryTargetNotFound
| ErrDatabase (action : string)
| ErrAuthorize (action : string)    (* the authorizer refused or failed *)
| ErrRandom.

Record CreateRepositoryRequest := {
  cr_PrincipalID : string; cr_WorkspaceID : string; cr_IdempotencyKey : string; cr_DisplayName : string
}.

Record Repository := {
  r_ID : string; r_WorkspaceID : string; r_DisplayName : string; r_CreatedByPrincipalID : string;
  r_CreatedAt : time; r_UpdatedAt : time
}.

Record RepositoryResult := { rr_Repository : Repository; rr_Created : bool }.

Record LinkRepositoryRequest := {
  lr_PrincipalID : string; lr_WorkspaceID : string; lr_ApplicationID : string; lr_RepositoryID : string
}.

Record ApplicationRepositoryRelationship := {
  a_ID : string; a_WorkspaceID : string; a_ApplicationID : string; a_RepositoryID : string;
  a_LinkedByPrincipalID : string; a_ValidFrom : time; a_ValidUntil : option time
}.

Record RelationshipResult := { rl_Relationship : ApplicationRepositoryRelationship; rl_Created : bool }.

Record ResolveRepositoryTargetRequest := {
  rt_WorkspaceID : string; rt_ApplicationID : string; rt_RepositoryID : string
}.

Record ResolvedRepositoryTarget := {
  t_WorkspaceID : string; t_ApplicationID : string; t_RepositoryID : string; t_RelationshipID : string;
  t_ValidFrom : time; t_ResolvedAt : time
}.

Record createSpec := {
  cs_Repository : Repository; cs_PrincipalID : string; cs_APIMajorVersion : Z; cs_Operation : string;
  cs_IdempotencyKey : string; cs_RequestFingerprint : string; cs_IdempotencyExpires : time
}.

Record linkSpec := { ls_Relationship : ApplicationRepositoryRelationship }.

(** ** Validation and fingerprints *)

Definition validateCreateRequest (r : CreateRepositoryRequest) : bool :=
  validOpaqueID (cr_PrincipalID r) && validOpaqueID (cr_WorkspaceID r) &&
  idempotencyKeyPattern (cr_IdempotencyKey r) && validDisplayName (cr_DisplayName r).

Definition validateLinkRequest (r : LinkRepositoryRequest) : bool :=
  validOpaqueID (lr_PrincipalID r) && validOpaqueID (lr_WorkspaceID r) &&
  validOpaqueID (lr_ApplicationID r) && validOpaqueID (lr_RepositoryID r).

Definition fingerprintCreate (r : CreateRepositoryRequest) : result error string :=
  guard! validateCreateRequest r else ErrInvalid in
  Ok (sha256 (print (JObj [("display_name", JStr (cr_DisplayName r))]))).

Definition create_scope (s : createSpec) : scope :=
  Scope (r_WorkspaceID (cs_Repository s)) (cs_PrincipalID s) (cs_APIMajorVersion s) (cs_Operation s)
        (cs_IdempotencyKey s).

Definition createLockKey (s : createSpec) : string := lock_key (create_scope s).

(** ** The tables *)

Record catalog := MkCatalog {
  workspaces : gset string;
  applications : gset (string * string);
  repositories : gmap (string * string) Repository;
  relationships : gmap (string * string) ApplicationRepositoryRelationship;
  create_claims : claims
}.

Definition set_applications (d : catalog) (a : gset (string * string)) : catalog :=
  MkCatalog (workspaces d) a (repositories d) (relationships d) (create_claims d).
Definition set_repositories (d : catalog) (r : gmap (string * string) Repository) : catalog :=
  MkCatalog (workspaces d) (applications d) r (relationships d) (create_claims d).
Definition set_relationships (d : catalog) (r : gmap (string * string) ApplicationRepositoryRelationship)
  : catalog := MkCatalog (workspaces d) (applications d) (repositories d) r (create_claims d).
Definition set_claims (d : catalog) (c : claims) : catalog :=
  MkCatalog (workspaces d) (applications d) (repositories d) (relationships d) c.

Definition check_repository (r : Repository) : bool :=
  char_length_between 3 128 (r_ID r) && char_length_between 1 255 (r_DisplayName r) &&
  char_length_between 3 128 (r_CreatedByPrincipalID r) && (r_CreatedAt r <=? r_UpdatedAt r).

Definition check_relationship (r : ApplicationRepositoryRelationship) : bool :=
  char_length_between 3 128 (a_ID r) && char_length_between 3 128 (a_LinkedByPrincipalID r) &&
  match a_ValidUntil r with Some t => a_ValidFrom r <? t | None => true end.

Section Store.
Context {pg : Postgres}.

(** ** CreateRepository *)

Definition validCreate (s : createSpec) : bool :=
  let r := cs_Repository s in
  validOpaqueID (r_ID r) && validOpaqueID (r_WorkspaceID r) && validOpaqueID (r_CreatedByPrincipalID r) &&
  validDisplayName (r_DisplayName r) && negb (IsZero (r_CreatedAt r)) && (r_CreatedAt r <=? r_UpdatedAt r) &&
  String.eqb (cs_PrincipalID s) (r_CreatedByPrincipalID r) && (cs_APIMajorVersion s =? apiMajorVersion) &&
  String.eqb (cs_Operation s) operationCreateRepository && idempotencyKeyPattern (cs_IdempotencyKey s) &&
  (r_CreatedAt r + minimumIdempotencyRetention <=? cs_IdempotencyExpires s).

Definition stored_repository (r : Repository) : Repository := {|
  r_ID := r_ID r; r_WorkspaceID := r_WorkspaceID r; r_DisplayName := r_DisplayName r;
  r_CreatedByPrincipalID := r_CreatedByPrincipalID r; r_CreatedAt := store_time (r_CreatedAt r);
  r_UpdatedAt := store_time (r_UpdatedAt r) |}.

Definition repository_claim (s : createSpec) : claim :=
  Claim (cs_RequestFingerprint s) (r_ID (cs_Repository s)) (store_time (r_CreatedAt (cs_Repository s)))
        (store_time (cs_IdempotencyExpires s)).

Definition claim_repository (s : createSpec) (d : catalog) : option (Z * catalog) :=
  match insert_claim (create_scope s) (repository_claim s)
          (bool_decide (r_WorkspaceID (cs_Repository s) ∈ workspaces d)) (create_claims d) with
  | Some (rows, t) => Some (rows, set_claims d t)
  | None => None
  end.

(** The claim joined with its repository. *)
Definition selectRepositoryReplay (s : createSpec) (d : catalog) : option (RepositoryResult * string) :=
  match create_claims d !! create_scope s with
  | Some c =>
      match repositories d !! (r_WorkspaceID (cs_Repository s), cl_resource c) with
      | Some r => Some ({| rr_Repository := r; rr_Created := false |}, cl_fingerprint c)
      | None => None
      end
  | None => None
  end.

Definition insert_repository (r : Repository) (d : catalog) : option (unit * catalog) :=
  let row := stored_repository r in
  if check_repository row && is_null (repositories d !! (r_WorkspaceID r, r_ID r)) &&
     bool_decide (r_WorkspaceID r ∈ workspaces d)
  then Some (tt, set_repositories d (<[(r_WorkspaceID r, r_ID r) := row]> (repositories d))) else None.

(** [locks] says which advisory locks are free. *)
Definition CreateRepository (locks : string -> bool) (s : createSpec) : prog catalog error RepositoryResult :=
  if negb (validCreate s) then fail ErrInvalid
  else
    do! begin (ErrDatabase "begin repository creation") in
    let! workspaceExists := query (ErrDatabase "resolve repository workspace")
                              (fun d => bool_decide (r_WorkspaceID (cs_Repository s) ∈ workspaces d)) in
    if negb workspaceExists then fail ErrWorkspaceNotFound
    else
      let! lockAcquired := query (ErrDatabase "lock repository idempotency scope")
                             (fun _ => locks ("open-aspm-repository-idempotency:" +:+ createLockKey s)) in
      if negb lockAcquired then fail ErrIdempotencyInProgress
      else
        record (ErrDatabase "claim repository idempotency key") (claim_repository s)
          (ErrDatabase "read repository replay") (selectRepositoryReplay s)
          (ErrDatabase "read repository replay") ErrIdempotencyConflict
          (ErrDatabase "finish repository replay") (ErrDatabase "commit repository creation")
          (cs_RequestFingerprint s)
          (statement (ErrDatabase "insert repository") (insert_repository (cs_Repository s)))
          {| rr_Repository := cs_Repository s; rr_Created := true |}.

(** ** LinkRepository *)

Definition validLink (r : ApplicationRepositoryRelationship) : bool :=
  validOpaqueID (a_ID r) && validOpaqueID (a_WorkspaceID r) && validOpaqueID (a_ApplicationID r) &&
  validOpaqueID (a_RepositoryID r) && validOpaqueID (a_LinkedByPrincipalID r) &&
  negb (IsZero (a_ValidFrom r)) && is_null (a_ValidUntil r).

(** The active relationship of one application and one repository. *)
Definition active_link (w app repo : string) (r : ApplicationRepositoryRelationship) : bool :=
  String.eqb (a_WorkspaceID r) w && String.eqb (a_ApplicationID r) app && String.eqb (a_RepositoryID r) repo &&
  is_null (a_ValidUntil r).

Definition find_active (w app repo : string) (d : catalog) : option ApplicationRepositoryRelationship :=
  head (rows_where (active_link w app repo) (relationships d)).

Definition stored_relationship (r : ApplicationRepositoryRelationship) : ApplicationRepositoryRelationship := {|
  a_ID := a_ID r; a_WorkspaceID := a_WorkspaceID r; a_ApplicationID := a_ApplicationID r;
  a_RepositoryID := a_RepositoryID r; a_LinkedByPrincipalID := a_LinkedByPrincipalID r;
  a_ValidFrom := store_time (a_ValidFrom r); a_ValidUntil := None |}.

(** ON CONFLICT on the partial unique index of active links. *)
Definition insert_relationship (r : ApplicationRepositoryRelationship) (d : catalog) : option (Z * catalog) :=
  let row := stored_relationship r in
  if negb (check_relationship row) then None
  else if negb (is_null (find_active (a_WorkspaceID r) (a_ApplicationID r) (a_RepositoryID r) d)) then Some (0, d)
  else if negb (is_null (relationships d !! (a_WorkspaceID r, a_ID r))) then None
  else if negb (bool_decide ((a_WorkspaceID r, a_ApplicationID r) ∈ applications d)) ||
          is_null (repositories d !! (a_WorkspaceID r, a_RepositoryID r)) then None
  else Some (1, set_relationships d (<[(a_WorkspaceID r, a_ID r) := row]> (relationships d))).

Definition LinkRepository (s : linkSpec) : prog catalog error RelationshipResult :=
  let r := ls_Relationship s in
  if negb (validLink r) then fail ErrInvalid
  else
    do! begin (ErrDatabase "begin application repository link") in
    let! found := query (ErrDatabase "resolve application repository link")
                    (fun d => bool_decide ((a_WorkspaceID r, a_ApplicationID r) ∈ applications d) &&
                              negb (is_null (repositories d !! (a_WorkspaceID r, a_RepositoryID r)))) in
    if negb found then fail ErrLinkTargetNotFound
    else
      let! rows := statement (ErrDatabase "insert application repository link") (insert_relationship r) in
      if rows =? 0 then
        let! existing := query (ErrDatabase "read active application repository link")
                           (find_active (a_WorkspaceID r) (a_ApplicationID r) (a_RepositoryID r)) in
        match existing with
        | None => fail ErrLinkTargetNotFound
        | Some replayed =>
            do! commit (ErrDatabase "finish application repository link replay") in
            done_with {| rl_Relationship := replayed; rl_Created := false |}
        end
      else
        do! commit (ErrDatabase "commit application repository link") in
        done_with {| rl_Relationship := r; rl_Created := true |}.

(** ** Resolution *)

(** [clock] are the successive readings of clock_timestamp(). *)
Definition resolveActiveRepositoryTarget (clock : nat -> time) (q : ResolveRepositoryTargetRequest)
  : prog catalog error ResolvedRepositoryTarget :=
  let! found := autocommit (ErrDatabase "resolve active repository target")
    (fun d => Some (head (rows_where (fun r => active_link (rt_WorkspaceID q) (rt_ApplicationID q) (rt_RepositoryID q) r &&
                                               (a_ValidFrom r <=? clock 0%nat)) (relationships d)), d)) in
  match found with
  | None => fail ErrLinkTargetNotFound
  | Some r => done_with {| t_WorkspaceID := a_WorkspaceID r; t_ApplicationID := a_ApplicationID r;
                           t_RepositoryID := a_RepositoryID r; t_RelationshipID := a_ID r;
                           t_ValidFrom := a_ValidFrom r; t_ResolvedAt := clock 1%nat |}
  end.

Definition hide_missing (e : error) : error :=
  match e with ErrLinkTargetNotFound => ErrRepositoryTargetNotFound | e => e end.

Definition ResolveActiveRepositoryTarget (clock : nat -> time) (q : ResolveRepositoryTargetRequest)
  : prog catalog error ResolvedRepositoryTarget :=
  if negb (validOpaqueID (rt_WorkspaceID q) && validOpaqueID (rt_ApplicationID q) &&
           validOpaqueID (rt_RepositoryID q))
  then fail ErrInvalid
  else map_error hide_missing (resolveActiveRepositoryTarget clock q).

(** ** The bootstrap application *)

Definition insert_application (w app : string) (d : catalog) : option (unit * catalog) :=
  if char_length_between 3 128 app && bool_decide (w ∈ workspaces d) && negb (bool_decide ((w, app) ∈ applications d))
  then Some (tt, set_applications d ({[(w, app)]} ∪ applications d)) else None.

Definition CreateBootstrapApplication (w app : string) (createdAt : time) : prog catalog error unit :=
  if negb (validOpaqueID w && validOpaqueID app) || IsZero createdAt then fail ErrInvalid
  else statement (ErrDatabase "insert bootstrap application") (insert_application w app).

(** ** The services *)

Record AuthorizationRequest := {
  az_PrincipalID : string; az_WorkspaceID : string; az_ApplicationID : string; az_Capability : string
}.

(** The [Authorizer] interface: the answer for one request at the moment of
    the call. *)
Class Authorizer := { Authorize : AuthorizationRequest -> bool }.

Record Config := { IdempotencyRetention : duration }.

(** What the world supplies to one call: the clock, the bytes of
    [crypto/rand], and which advisory locks are free. *)
Record call := { now : time; random : Z -> option string; locks : string -> bool }.

Definition validService (c : Config) : bool := minimumIdempotencyRetention <=? IdempotencyRetention c.

Definition randomIdentifier (e : call) (prefix : string) : result error string :=
  match random e 20 with
  | Some bytes => Ok (encode_id prefix bytes)
  | None => Err ErrRandom
  end.

Definition timestamp (e : call) : time := now e - now e mod Microsecond.

Definition create_spec (c : Config) (e : call) (r : CreateRepositoryRequest) (id fingerprint : string) : createSpec := {|
  cs_Repository := {| r_ID := id; r_WorkspaceID := cr_WorkspaceID r; r_DisplayName := cr_DisplayName r;
                      r_CreatedByPrincipalID := cr_PrincipalID r; r_CreatedAt := timestamp e;
                      r_UpdatedAt := timestamp e |};
  cs_PrincipalID := cr_PrincipalID r; cs_APIMajorVersion := apiMajorVersion;
  cs_Operation := operationCreateRepository; cs_IdempotencyKey := cr_IdempotencyKey r;
  cs_RequestFingerprint := fingerprint; cs_IdempotencyExpires := timestamp e + IdempotencyRetention c |}.

Definition ServiceCreateRepository {az : Authorizer} (c : Config) (e : call) (r : CreateRepositoryRequest)
  : prog catalog error RepositoryResult :=
  if negb (validateCreateRequest r) then fail ErrInvalid
  else if negb (Authorize {| az_PrincipalID := cr_PrincipalID r; az_WorkspaceID := cr_WorkspaceID r;
                             az_ApplicationID := ""; az_Capability := CapabilityRepositoriesCreate |})
  then fail (ErrAuthorize "authorize repository creation")
  else match fingerprintCreate r with
  | Err err => fail err
  | Ok fingerprint =>
      match randomIdentifier e "repo_" with
      | Err err => fail err
      | Ok id => CreateRepository (locks e) (create_spec c e r id fingerprint)
      end
  end.

Definition link_spec (e : call) (r : LinkRepositoryRequest) (id : string) : linkSpec := {|
  ls_Relationship := {| a_ID := id; a_WorkspaceID := lr_WorkspaceID r; a_ApplicationID := lr_ApplicationID r;
                        a_RepositoryID := lr_RepositoryID r; a_LinkedByPrincipalID := lr_PrincipalID r;
                        a_ValidFrom := timestamp e; a_ValidUntil := None |} |}.

Definition ServiceLinkRepository {az : Authorizer} (e : call) (r : LinkRepositoryRequest)
  : prog catalog error RelationshipResult :=
  if negb (validateLinkRequest r) then fail ErrInvalid
  else if negb (Authorize {| az_PrincipalID := lr_PrincipalID r; az_WorkspaceID := lr_WorkspaceID r;
                             az_ApplicationID := lr_ApplicationID r;
                             az_Capability := CapabilityApplicationRepositoriesLink |})
  then fail (ErrAuthorize "authorize application repository link")
  else match randomIdentifier e "rel_" with
  | Err err => fail err
  | Ok id => LinkRepository (link_spec e r id)
  end.
End Store.

(** ** What the operations do *)

Section Effects.
Context {pg : Postgres}.

Lemma CreateRepository_exec lk s d : exec (CreateRepository lk s) d =
  if negb (validCreate s) then (Err ErrInvalid, d)
  else if negb (bool_decide (r_WorkspaceID (cs_Repository s) ∈ workspaces d)) then (Err ErrWorkspaceNotFound, d)
  else if negb (lk ("open-aspm-repository-idempotency:" +:+ createLockKey s)) then (Err ErrIdempotencyInProgress, d)
  else record_outcome (claim_repository s) (selectRepositoryReplay s)
         (ErrDatabase "claim repository idempotency key") (ErrDatabase "read repository replay")
         ErrIdempotencyConflict (cs_RequestFingerprint s)
         (run_in (statement (ErrDatabase "insert repository") (insert_repository (cs_Repository s))))
         {| rr_Repository := cs_Repository s; rr_Created := true |} d.
Proof.
  unfold exec, run_on, CreateRepository. destruct (negb (validCreate s)); [done|].
  rewrite run_begin. unfold query. cbn [bind run next_fault faults tick tail working committed].
  destruct (negb (bool_decide _)); [done|]. cbn [bind run next_fault faults tick tail working committed].
  destruct (negb (lk _)); [done|].
  rewrite <- (record_run (ErrDatabase "claim repository idempotency key") (claim_repository s)
    (ErrDatabase "read repository replay") (selectRepositoryReplay s) (ErrDatabase "read repository replay")
    ErrIdempotencyConflict (ErrDatabase "finish repository replay") (ErrDatabase "commit repository creation")
    (cs_RequestFingerprint s) (statement (ErrDatabase "insert repository") (insert_repository (cs_Repository s)))).
  - by destruct (run _ _).
  - intros d1. apply no_commit_run. repeat constructor.
Qed.

Lemma CreateRepository_atomic lk s : atomic (CreateRepository lk s).
Proof.
  unfold CreateRepository. destruct (negb _); [constructor|]. simpl. constructor. constructor. intros b.
  destruct (negb b); [constructor|]. simpl. constructor. intros b'.
  destruct (negb b'); [constructor|]. apply record_in_tx. repeat constructor.
Qed.

(** A successful creation: the claim is there with the fingerprint of the
    request, and with the repository that is returned. *)
Lemma CreateRepository_ok lk s d out d' : exec (CreateRepository lk s) d = (Ok out, d') ->
  r_WorkspaceID (cs_Repository s) ∈ workspaces d /\
  exists c r, create_claims d' !! create_scope s = Some c /\ cl_fingerprint c = cs_RequestFingerprint s /\
    repositories d' !! (r_WorkspaceID (cs_Repository s), cl_resource c) = Some r /\
    ((d' = d /\ out = {| rr_Repository := r; rr_Created := false |}) \/
     (out = {| rr_Repository := cs_Repository s; rr_Created := true |} /\
      r = stored_repository (cs_Repository s) /\ c = repository_claim s /\
      create_claims d !! create_scope s = None /\
      repositories d !! (r_WorkspaceID (cs_Repository s), r_ID (cs_Repository s)) = None /\
      d' = set_repositories (set_claims d (<[create_scope s := c]> (create_claims d)))
             (<[(r_WorkspaceID (cs_Repository s), r_ID (cs_Repository s)) := r]> (repositories d)))).
Proof.
  rewrite CreateRepository_exec. destruct (negb (validCreate s)); [done|].
  destruct (negb (bool_decide _)) eqn:Ew; [done|]. destruct (negb (lk _)); [done|]. simp_bool.
  unfold record_outcome, same_fp, text_fingerprint, claim_repository.
  destruct (insert_claim _ _ _ _) as [[rows t]|] eqn:Ec; [|done].
  apply insert_claim_cases in Ec as [_ [(-> & -> & Hs)|(-> & -> & Hn & _)]]; simpl.
  - unfold selectRepositoryReplay. simpl. destruct (create_claims d !! create_scope s) as [c|] eqn:Et; [|done].
    destruct (repositories d !! _) as [r|] eqn:Er; [|done].
    destruct (String.eqb_spec (cl_fingerprint c) (cs_RequestFingerprint s)) as [Ef|]; simpl; [|done].
    intros [= <- <-]. split; [done|]. exists c, r. simpl. rewrite Et. split_and!; try done. left. by destruct d.
  - unfold run_in. simpl. unfold insert_repository. simpl. destruct (_ && _ && _) eqn:Eb; simpl; [|done].
    intros [= <- <-]. simp_bool. split; [done|]. eexists _, _. simpl. rewrite lookup_insert_eq.
    split_and!; try done. { simpl. by rewrite lookup_insert_eq. }
    right. split_and!; try done. by destruct (repositories d !! _).
Qed.

Lemma LinkRepository_exec s d : let r := ls_Relationship s in
  exec (LinkRepository s) d =
  if negb (validLink r) then (Err ErrInvalid, d)
  else if negb (bool_decide ((a_WorkspaceID r, a_ApplicationID r) ∈ applications d) &&
                negb (is_null (repositories d !! (a_WorkspaceID r, a_RepositoryID r))))
  then (Err ErrLinkTargetNotFound, d)
  else match insert_relationship r d with
  | None => (Err (ErrDatabase "insert application repository link"), d)
  | Some (rows, d') =>
      if rows =? 0 then
        match find_active (a_WorkspaceID r) (a_ApplicationID r) (a_RepositoryID r) d' with
        | None => (Err ErrLinkTargetNotFound, d)
        | Some x => (Ok {| rl_Relationship := x; rl_Created := false |}, d')
        end
      else (Ok {| rl_Relationship := r; rl_Created := true |}, d')
  end.
Proof.
  intros r. unfold exec, run_on, LinkRepository. fold r. destruct (negb (validLink r)); [done|].
  rewrite run_begin. unfold query. cbn [bind run next_fault faults tick tail working committed].
  destruct (negb (_ && _)); [done|]. rewrite run_statement.
  destruct (insert_relationship r d) as [[rows d']|]; [|done]. destruct (rows =? 0); [|done].
  simpl. by destruct (find_active _ _ _ d').
Qed.

Lemma LinkRepository_atomic s : atomic (LinkRepository s).
Proof.
  unfold LinkRepository. destruct (negb _); [constructor|]. simpl. constructor. constructor. intros b.
  destruct (negb b); [constructor|]. simpl. constructor. intros rows. destruct (rows =? 0); simpl; [|constructor].
  constructor. intros [x|]; [|constructor]. simpl. constructor.
Qed.

(** ** Histories *)

(** Workspaces come from the tenancy package; the application is created in
    the bootstrap transaction. *)
Inductive operation :=
| OpWorkspace (w : string)
| OpApplication (w app : string) (createdAt : time)
| OpCreate (lk : string -> bool) (s : createSpec)
| OpLink (s : linkSpec).

Definition add_workspace (w : string) (d : catalog) : catalog :=
  MkCatalog ({[w]} ∪ workspaces d) (applications d) (repositories d) (relationships d) (create_claims d).

Definition bootstrap_application (w app : string) (createdAt : time) : prog catalog error unit :=
  do! begin (ErrDatabase "begin operator bootstrap") in
  do! CreateBootstrapApplication w app createdAt in
  commit (ErrDatabase "commit operator bootstrap").

Definition perform (op : operation) (fs : list fault) (d : catalog) : catalog :=
  match op with
  | OpWorkspace w => add_workspace w d
  | OpApplication w app t => snd (run_on (bootstrap_application w app t) d fs)
  | OpCreate lk s => snd (run_on (CreateRepository lk s) d fs)
  | OpLink s => snd (run_on (LinkRepository s) d fs)
  end.

Definition history : Type := list (operation * list fault).
Definition replay (h : history) (d : catalog) : catalog := foldl (fun d op => perform (fst op) (snd op) d) d h.

(** Nothing is ever removed or changed. *)
Record grows (d d' : catalog) : Prop := {
  g_workspaces : workspaces d ⊆ workspaces d';
  g_applications : applications d ⊆ applications d';
  g_repositories : repositories d ⊆ repositories d';
  g_relationships : relationships d ⊆ relationships d';
  g_claims : create_claims d ⊆ create_claims d'
}.

#[global] Instance grows_preorder : PreOrder grows.
Proof.
  split; [by intros d; split|]. intros a b c [] []. split; etrans; eauto.
Qed.

(** Links join known applications and repositories, at most one of them is
    active for a pair, and every claim names its repository. *)
Record consistent (d : catalog) : Prop := {
  con_key : forall k r, relationships d !! k = Some r -> k = (a_WorkspaceID r, a_ID r);
  con_ends : forall k r, relationships d !! k = Some r ->
    (a_WorkspaceID r, a_ApplicationID r) ∈ applications d /\
    is_Some (repositories d !! (a_WorkspaceID r, a_RepositoryID r));
  con_active : forall w app repo k k' r r', relationships d !! k = Some r -> relationships d !! k' = Some r' ->
    active_link w app repo r = true -> active_link w app repo r' = true -> k = k';
  con_claims : forall s c, create_claims d !! s = Some c -> is_Some (repositories d !! (sc_workspace s, cl_resource c))
}.

Lemma find_active_spec w app repo d r : consistent d ->
  find_active w app repo d = Some r <->
  (exists k, relationships d !! k = Some r) /\ active_link w app repo r = true.
Proof.
  intros Hc. unfold find_active. split.
  - intros Hh. apply elem_of_rows_where. destruct (rows_where _ _); [done|]. injection Hh as ->. set_solver.
  - intros [[k Hk] Ha].
    assert (r ∈ rows_where (active_link w app repo) (relationships d)) as Hin by (apply elem_of_rows_where; eauto).
    destruct (rows_where _ _) as [|r' l] eqn:E; [set_solver|]. simpl. f_equal.
    assert (r' ∈ rows_where (active_link w app repo) (relationships d)) as Hin' by (rewrite E; set_solver).
    apply elem_of_rows_where in Hin' as [[k' Hk'] Ha'].
    pose proof (con_active d Hc w app repo k k' r r' Hk Hk' Ha Ha') as <-. congruence.
Qed.

Lemma find_active_none w app repo d : find_active w app repo d = None ->
  forall k r, relationships d !! k = Some r -> active_link w app repo r = false.
Proof.
  unfold find_active. intros Hh k r Hk. destruct (active_link w app repo r) eqn:Ha; [|done].
  assert (r ∈ rows_where (active_link w app repo) (relationships d)) as Hin by (apply elem_of_rows_where; eauto).
  destruct (rows_where _ _); [set_solver|done].
Qed.

(** What a link changes: nothing, or one fresh active row. *)
Lemma insert_relationship_cases r d rows d' : insert_relationship r d = Some (rows, d') ->
  (rows = 0 /\ d' = d /\ is_Some (find_active (a_WorkspaceID r) (a_ApplicationID r) (a_RepositoryID r) d)) \/
  (rows = 1 /\ find_active (a_WorkspaceID r) (a_ApplicationID r) (a_RepositoryID r) d = None /\
   relationships d !! (a_WorkspaceID r, a_ID r) = None /\
   (a_WorkspaceID r, a_ApplicationID r) ∈ applications d /\
   is_Some (repositories d !! (a_WorkspaceID r, a_RepositoryID r)) /\
   d' = set_relationships d (<[(a_WorkspaceID r, a_ID r) := stored_relationship r]> (relationships d))).
Proof.
  unfold insert_relationship. destruct (negb (check_relationship _)); [done|].
  destruct (find_active _ _ _ d) eqn:Ef; simpl; [intros [= <- <-]; left; eauto|].
  destruct (relationships d !! _) eqn:Er; simpl; [done|].
  destruct (negb (bool_decide _) || _) eqn:Eb; [done|]. intros [= <- <-]. simp_bool. right.
  destruct (repositories d !! _) eqn:Ep; [|done]. split_and!; eauto.
Qed.

Lemma consistent_link r d : consistent d ->
  find_active (a_WorkspaceID r) (a_ApplicationID r) (a_RepositoryID r) d = None ->
  relationships d !! (a_WorkspaceID r, a_ID r) = None ->
  (a_WorkspaceID r, a_ApplicationID r) ∈ applications d ->
  is_Some (repositories d !! (a_WorkspaceID r, a_RepositoryID r)) ->
  consistent (set_relationships d (<[(a_WorkspaceID r, a_ID r) := stored_relationship r]> (relationships d))).
Proof.
  intros Hc Hf Hn Ha Hr. split; simpl.
  - intros k x [[<- <-]|[_ Hx]]%lookup_insert_Some; [done|by apply (con_key d Hc)].
  - intros k x [[<- <-]|[_ Hx]]%lookup_insert_Some; [done|by apply (con_ends d Hc k)].
  - assert (forall w app repo k x, relationships d !! k = Some x ->
      active_link w app repo (stored_relationship r) = true -> active_link w app repo x = true -> False) as Hno.
    { intros w app repo k x Hx Ha1 Ha2. unfold active_link in Ha1. simpl in Ha1. simp_bool. subst.
      by rewrite (find_active_none _ _ _ _ Hf _ _ Hx) in Ha2. }
    intros w app repo k k' x x' [[<- <-]|[_ Hx]]%lookup_insert_Some [[<- <-]|[_ Hx']]%lookup_insert_Some H1 H2;
      [done|by destruct (Hno w app repo k' x')|by destruct (Hno w app repo k x)|].
    by apply (con_active d Hc w app repo k k' x x').
  - intros s c Hs. by apply (con_claims d Hc).
Qed.

Lemma consistent_create s r d : consistent d ->
  repositories d !! (r_WorkspaceID (cs_Repository s), r_ID (cs_Repository s)) = None ->
  consistent (set_repositories (set_claims d (<[create_scope s := repository_claim s]> (create_claims d)))
    (<[(r_WorkspaceID (cs_Repository s), r_ID (cs_Repository s)) := r]> (repositories d))).
Proof.
  intros Hc Hn. split; simpl.
  - apply (con_key d Hc).
  - intros k x Hx. destruct (con_ends d Hc k x Hx) as [Ha Hr]. split; [done|].
    apply lookup_insert_is_Some. destruct (decide ((r_WorkspaceID (cs_Repository s), r_ID (cs_Repository s)) =
      (a_WorkspaceID x, a_RepositoryID x))); auto.
  - apply (con_active d Hc).
  - intros k c [[<- <-]|[_ Hk]]%lookup_insert_Some.
    + simpl. rewrite lookup_insert_eq. eauto.
    + destruct (con_claims d Hc k c Hk) as [x Hx]. apply lookup_insert_is_Some.
      destruct (decide ((r_WorkspaceID (cs_Repository s), r_ID (cs_Repository s)) = (sc_workspace k, cl_resource c))); eauto.
Qed.

(** One call on a healthy connection. *)
Lemma create_step lk s d :
  (consistent d -> consistent (snd (exec (CreateRepository lk s) d))) /\
  grows d (snd (exec (CreateRepository lk s) d)).
Proof.
  destruct (exec (CreateRepository lk s) d) as [[out|e] d'] eqn:E; simpl.
  - apply CreateRepository_ok in E as (_ & c & r & _ & _ & _ & [[-> _]|(_ & _ & -> & Hn & Hr & ->)]); [done|].
    split; [by intros; apply consistent_create|]. split; simpl; try done; by apply insert_subseteq.
  - rewrite CreateRepository_exec in E. assert (d' = d) as ->; [|done].
    destruct (negb _); [congruence|]. destruct (negb _); [congruence|]. destruct (negb _); [congruence|].
    by apply record_outcome_err in E.
Qed.

Lemma link_step s d :
  (consistent d -> consistent (snd (exec (LinkRepository s) d))) /\ grows d (snd (exec (LinkRepository s) d)).
Proof.
  rewrite LinkRepository_exec. set (r := ls_Relationship s).
  destruct (negb (validLink r)); [done|]. destruct (negb (_ && _)); [done|].
  destruct (insert_relationship r d) as [[rows d']|] eqn:Ei; [|done].
  apply insert_relationship_cases in Ei as [(-> & -> & _)|(-> & Hf & Hn & Ha & Hr & ->)].
  - simpl. by destruct (find_active _ _ _ d).
  - simpl. split; [by intros; apply consistent_link|]. split; simpl; try done. by apply insert_subseteq.
Qed.

Lemma application_step w app t d :
  (consistent d -> consistent (snd (exec (bootstrap_application w app t) d))) /\
  grows d (snd (exec (bootstrap_application w app t) d)).
Proof.
  unfold exec, run_on, bootstrap_application. rewrite run_begin, run_bind. unfold CreateBootstrapApplication.
  destruct (_ || _); [done|]. simpl. unfold insert_application. destruct (_ && _ && _); [|done]. simpl.
  split; [|split; simpl; try done; set_solver]. intros Hc. split; simpl; try apply Hc.
  intros k r Hr. destruct (con_ends d Hc k r Hr). split; [set_solver|done].
Qed.

Lemma perform_step op fs d : (consistent d -> consistent (perform op fs d)) /\ grows d (perform op fs d).
Proof.
  assert (forall A (p : prog catalog error A), atomic p ->
    (consistent d -> consistent (snd (exec p d))) /\ grows d (snd (exec p d)) ->
    (consistent d -> consistent (snd (run_on p d fs))) /\ grows d (snd (run_on p d fs))) as Hf.
  { intros A p Ha H. by destruct (atomic_db p d fs Ha) as [->| ->]. }
  destruct op; simpl.
  - split; [|split; simpl; try done; set_solver]. intros Hc. split; simpl; apply Hc.
  - apply Hf; [|apply application_step]. unfold bootstrap_application, CreateBootstrapApplication. simpl.
    constructor. destruct (_ || _); simpl; repeat constructor.
  - apply Hf; [apply CreateRepository_atomic|apply create_step].
  - apply Hf; [apply LinkRepository_atomic|apply link_step].
Qed.

Lemma replay_step (h : history) d : (consistent d -> consistent (replay h d)) /\ grows d (replay h d).
Proof.
  revert d. induction h as [|[op fs] h IH]; intros d; simpl; [done|].
  destruct (perform_step op fs d) as [H1 H2]. destruct (IH (perform op fs d)) as [H3 H4].
  split; [auto|by etrans].
Qed.

(** ** The guarantees *)

(** The catalog only grows and stays consistent: whatever calls run on
    whatever connections, no workspace, application, repository, link or claim
    is lost or changed, links join known ends, one pair has at most one active
    link, and every claim has its repository. *)
Theorem catalog_consistent (h : history) d : consistent d -> consistent (replay h d) /\ grows d (replay h d).
Proof. intros Hc. destruct (replay_step h d). auto. Qed.

Lemma timestamp_exact e : store_time (timestamp e) = timestamp e.
Proof.
  apply store_time_exact. unfold timestamp.
  rewrite Zminus_mod, Z.mod_mod, Z.sub_diag by done. done.
Qed.

Lemma generated_id_valid prefix bytes : sforallb plain_char prefix = true -> 0 <= slen prefix <= 96 ->
  slen bytes = 20 -> validOpaqueID (encode_id prefix bytes) = true.
Proof.
  intros Hp Hl Hb. apply plain_valid_id; [by apply encode_id_plain|].
  rewrite encode_id_length, Hb. change ((8 * 20 + 4) / 5) with 32. lia.
Qed.

(** The specification a valid request builds is accepted by the store and by
    the claims table. *)
Lemma create_spec_valid c e r id fp : validService c = true -> validateCreateRequest r = true ->
  validOpaqueID id = true -> timestamp e <> 0 -> slen fp = 32 ->
  validCreate (create_spec c e r id fp) = true /\
  check_claim (create_scope (create_spec c e r id fp)) (repository_claim (create_spec c e r id fp)) = true.
Proof.
  unfold validService, validateCreateRequest, minimumIdempotencyRetention. intros Hc Hr Hid Ht Hfp. simp_bool. split.
  - unfold validCreate. simpl. unfold minimumIdempotencyRetention.
    repeat match goal with H : _ = true |- _ => rewrite H end.
    rewrite String.eqb_refl, Z.leb_refl. unfold IsZero. rewrite (proj2 (Z.eqb_neq _ _)) by done.
    by rewrite (proj2 (Z.leb_le _ _)) by lia.
  - unfold check_claim. simpl. rewrite Hfp, timestamp_exact.
    repeat match goal with H : idempotencyKeyPattern _ = true |- _ => rewrite H end.
    rewrite validOpaqueID_length by done.
    assert (timestamp e + 24 * Hour <= store_time (timestamp e + IdempotencyRetention c)) as Hx.
    { etrans; [|apply store_time_mono, (Z.add_le_mono_l (24 * Hour)); done].
      rewrite store_time_exact; [done|]. unfold timestamp.
      rewrite Zplus_mod, Zminus_mod, Z.mod_mod, Z.sub_diag by done. done. }
    rewrite (proj2 (Z.leb_le _ _) Hx).
    by rewrite (char_length_weaken 3 128 0 128 id) by (done || by apply validOpaqueID_length).
Qed.

Definition same_scope (r r' : CreateRepositoryRequest) : Prop :=
  cr_PrincipalID r' = cr_PrincipalID r /\ cr_WorkspaceID r' = cr_WorkspaceID r /\
  cr_IdempotencyKey r' = cr_IdempotencyKey r.

(** Repository creation is idempotent: once a request has been answered, any
    retry under its key, whatever happened in between, is answered with the
    same repository and changes nothing, and a different request under that
    key is refused and changes nothing. *)
Theorem repository_idempotent {az : Authorizer} c e r d out d' (h : history) e' r' bytes fp fp' :
  validService c = true -> exec (ServiceCreateRepository c e r) d = (Ok out, d') ->
  same_scope r r' -> validateCreateRequest r' = true -> timestamp e' <> 0 ->
  random e' 20 = Some bytes -> slen bytes = 20 -> (forall k, locks e' k = true) ->
  fingerprintCreate r = Ok fp -> fingerprintCreate r' = Ok fp' ->
  exec (ServiceCreateRepository c e' r') (replay h d') =
    (if String.eqb fp fp'
     then Ok {| rr_Repository := rr_Repository out; rr_Created := false |} else Err ErrIdempotencyConflict,
     replay h d').
Proof.
  intros Hsvc Hex (Hp & Hw & Hk) Hv' Ht Hrnd Hlen Hlk Hf Hf'. unfold ServiceCreateRepository in *.
  destruct (validateCreateRequest r) eqn:Hv; [|done]. rewrite Hv'. simpl in Hex |- *. rewrite Hp, Hw.
  destruct (Authorize _); [|done]. simpl in Hex |- *. rewrite Hf in Hex. rewrite Hf'.
  destruct (randomIdentifier e "repo_") as [id|]; [|done]. unfold randomIdentifier. rewrite Hrnd.
  assert (slen fp' = 32) as Hfp32.
  { unfold fingerprintCreate in Hf'. rewrite Hv' in Hf'. by injection Hf' as <-. }
  set (s := create_spec c e r id fp) in *. set (s' := create_spec c e' r' (encode_id "repo_" bytes) fp').
  apply CreateRepository_ok in Hex as (Hws & cl & row & Hcl & Hfp & Hrow & Hout).
  destruct (replay_step h d') as [_ [Gw _ Gr _ Gc]].
  assert (create_scope s' = create_scope s) as Hsc by (unfold create_scope; simpl; congruence).
  destruct (create_spec_valid c e' r' (encode_id "repo_" bytes) fp') as [Hval Hck]; try done.
  { by apply generated_id_valid; [|vm_compute; split; discriminate|]. }
  assert (r_WorkspaceID (cs_Repository s) ∈ workspaces d') as Hws'
    by (destruct Hout as [[-> _]|(_ & _ & _ & _ & _ & ->)]; exact Hws).
  rewrite CreateRepository_exec. fold s' in Hval, Hck |- *. rewrite Hval, Hlk. simpl negb.
  rewrite bool_decide_eq_true_2; [|apply Gw; simpl; rewrite Hw; exact Hws']. simpl.
  unfold record_outcome, same_fp, text_fingerprint, claim_repository.
  rewrite (insert_claim_taken _ _ cl); [|done|rewrite Hsc; by eapply lookup_weaken]. simpl.
  unfold selectRepositoryReplay. simpl. rewrite Hsc, (lookup_weaken _ _ _ _ Hcl Gc), Hw.
  change (r_WorkspaceID (cs_Repository s)) with (cr_WorkspaceID r) in Hrow. rewrite (lookup_weaken _ _ _ _ Hrow Gr), Hfp. change (cs_RequestFingerprint s) with fp.
  assert (set_claims (replay h d') (create_claims (replay h d')) = replay h d') as -> by (by destruct (replay h d')).
  assert (row = rr_Repository out) as ->.
  { destruct Hout as [[_ ->]|(-> & -> & _)]; [done|]. unfold stored_repository. simpl. by rewrite timestamp_exact. }
  change (cs_RequestFingerprint s') with fp'.
  by destruct (String.eqb fp fp').
Qed.

(** A link resolves: once an application has been linked to a repository, the
    link stays the one that is resolved for the pair from its start on, and
    every later link request for the pair is answered with it and changes
    nothing, whatever happened in between. *)
Theorem link_resolves {az : Authorizer} e r d out d' (h : history) :
  consistent d -> exec (ServiceLinkRepository e r) d = (Ok out, d') ->
  let link := rl_Relationship out in
  (forall clock, a_ValidFrom link <= clock 0%nat ->
     exec (ResolveActiveRepositoryTarget clock {| rt_WorkspaceID := lr_WorkspaceID r;
       rt_ApplicationID := lr_ApplicationID r; rt_RepositoryID := lr_RepositoryID r |}) (replay h d') =
     (Ok {| t_WorkspaceID := lr_WorkspaceID r; t_ApplicationID := lr_ApplicationID r;
            t_RepositoryID := lr_RepositoryID r; t_RelationshipID := a_ID link;
            t_ValidFrom := a_ValidFrom link; t_ResolvedAt := clock 1%nat |}, replay h d')) /\
  (forall e' r' out' d2, lr_WorkspaceID r' = lr_WorkspaceID r -> lr_ApplicationID r' = lr_ApplicationID r ->
     lr_RepositoryID r' = lr_RepositoryID r -> exec (ServiceLinkRepository e' r') (replay h d') = (Ok out', d2) ->
     rl_Created out' = false /\ rl_Relationship out' = link /\ d2 = replay h d').
Proof.
  intros Hc Hex link. unfold ServiceLinkRepository in Hex.
  destruct (validateLinkRequest r) eqn:Hv; [|done]. simpl in Hex. destruct (Authorize _); [|done]. simpl in Hex.
  destruct (randomIdentifier e "rel_") as [id|]; [|done].
  assert (consistent d') as Hc' by (pose proof (proj1 (link_step (link_spec e r id) d) Hc) as H; by rewrite Hex in H).
  assert (find_active (lr_WorkspaceID r) (lr_ApplicationID r) (lr_RepositoryID r) d' = Some link) as Hact.
  { rewrite LinkRepository_exec in Hex. simpl in Hex. destruct (negb (validLink _)); [done|].
    destruct (negb (_ && _)); [done|]. destruct (insert_relationship _ d) as [[rows d1]|] eqn:Ei; [|done].
    apply insert_relationship_cases in Ei as [(-> & -> & _)|(-> & _ & _ & _ & _ & Hd1)]; simpl in Hex.
    - destruct (find_active _ _ _ d) as [x|] eqn:Ef in Hex; [|done]. injection Hex as <- <-. exact Ef.
    - injection Hex as <- <-. apply find_active_spec; [done|]. split.
      + eexists. rewrite Hd1. simpl. rewrite lookup_insert_eq. unfold stored_relationship, link. simpl.
        by rewrite timestamp_exact.
      + unfold active_link. simpl. by rewrite !String.eqb_refl. }
  destruct (replay_step h d') as [Hcon [_ _ _ Grel _]]. specialize (Hcon Hc').
  apply find_active_spec in Hact as [[k Hk] Hlink]; [|done].
  assert (find_active (lr_WorkspaceID r) (lr_ApplicationID r) (lr_RepositoryID r) (replay h d') = Some link) as Hact.
  { apply find_active_spec; [done|]. split; [exists k; by eapply lookup_weaken|done]. }
  split.
  - intros clock Hcl. unfold ResolveActiveRepositoryTarget.
    cbn [rt_WorkspaceID rt_ApplicationID rt_RepositoryID]. unfold validateLinkRequest in Hv. simp_bool. repeat match goal with H : validOpaqueID _ = true |- _ => rewrite H end. cbn [andb negb].
    unfold exec, run_on. rewrite run_map_error. unfold resolveActiveRepositoryTarget. rewrite run_autocommit.
    cbn [rt_WorkspaceID rt_ApplicationID rt_RepositoryID]. assert (head (rows_where (fun x => active_link (lr_WorkspaceID r) (lr_ApplicationID r) (lr_RepositoryID r) x &&
      (a_ValidFrom x <=? clock 0%nat)) (relationships (replay h d'))) = Some link) as ->.
    { assert (link ∈ rows_where (fun x => active_link (lr_WorkspaceID r) (lr_ApplicationID r) (lr_RepositoryID r) x &&
        (a_ValidFrom x <=? clock 0%nat)) (relationships (replay h d'))) as Hin.
      { apply elem_of_rows_where. split; [exists k; by eapply lookup_weaken|].
        by rewrite Hlink, (proj2 (Z.leb_le _ _) Hcl). }
      destruct (rows_where _ _) as [|x l] eqn:El; [set_solver|]. simpl. f_equal.
      assert (x ∈ x :: l) as Hx by set_solver. rewrite <- El in Hx.
      apply elem_of_rows_where in Hx as [Hxk Hxa]. apply andb_prop in Hxa as [Hxa _].
      pose proof (proj2 (find_active_spec _ _ _ _ x Hcon) (conj Hxk Hxa)). congruence. }
    unfold active_link in Hlink. simp_bool. subst. simpl. congruence.
  - intros e' r' out' d2 Hw Ha Hr Hex'. unfold ServiceLinkRepository in Hex'.
    destruct (validateLinkRequest r'); [|done]. simpl in Hex'. destruct (Authorize _); [|done]. simpl in Hex'.
    destruct (randomIdentifier e' "rel_") as [id'|]; [|done]. rewrite LinkRepository_exec in Hex'. simpl in Hex'.
    destruct (negb (validLink _)); [done|]. destruct (negb (_ && _)); [done|].
    destruct (insert_relationship _ _) as [[rows d3]|] eqn:Ei; [|done].
    apply insert_relationship_cases in Ei as [(-> & -> & _)|(-> & Hf & _)]; simpl in *; rewrite Hw, Ha, Hr in *.
    + rewrite Hact in Hex'. by injection Hex' as <- <-.
    + congruence.
Qed.
End Effects.
End Catalog.
