(* ===== verification/CatalogExamples.v ===== *)
(** * A concrete catalog

    One workspace with one application; a repository is created and linked,
    and the theorems of Catalog.v are applied to the result. *)

From S2P Require Import Prelude GoStrings Encoding Txn Json Queue QueueExamples Records Idempotency Catalog.
From Stdlib Require Import Ascii.

Local Open Scope Z_scope.

Module CatalogExamples.
Import Catalog.
#[local] Existing Instance QueueExamples.demo_pg.
#[local] Instance open_door : Authorizer := {| Authorize _ := true |}.

Definition t0 : time := 63000000000 * Second.
Definition config : Config := {| IdempotencyRetention := 48 * Hour |}.

(** A call at time [t] whose random bytes are all [c]. *)
Definition call_at (t : time) (c : ascii) : call := {|
  now := t; random n := Some (Nat.iter (Z.to_nat n) (String c) ""); locks _ := true |}.

Definition empty_catalog : catalog := MkCatalog ∅ ∅ ∅ ∅ ∅.
Definition with_application : catalog :=
  replay [(OpWorkspace "ws_a", []); (OpApplication "ws_a" "app_a" t0, [])] empty_catalog.

Definition create_request (name : string) : CreateRepositoryRequest := {|
  cr_PrincipalID := "usr_a"; cr_WorkspaceID := "ws_a"; cr_IdempotencyKey := "create-1"; cr_DisplayName := name |}.
Definition created : catalog :=
  snd (exec (ServiceCreateRepository config (call_at t0 "a") (create_request "Payments")) with_application).
Definition repository_id : string := encode_id "repo_" "aaaaaaaaaaaaaaaaaaaa".
Definition link_request : LinkRepositoryRequest := {|
  lr_PrincipalID := "usr_a"; lr_WorkspaceID := "ws_a"; lr_ApplicationID := "app_a"; lr_RepositoryID := repository_id |}.
Definition linked : catalog := snd (exec (ServiceLinkRepository (call_at (t0 + Second) "b") link_request) created).

Lemma empty_consistent : consistent empty_catalog.
Proof. by split; intros *; rewrite ?lookup_empty. Qed.
Lemma with_application_consistent : consistent with_application.
Proof. by apply replay_step, empty_consistent. Qed.

Lemma created_answer : exists out,
  exec (ServiceCreateRepository config (call_at t0 "a") (create_request "Payments")) with_application = (Ok out, created) /\
  bool_decide (r_ID (rr_Repository out) = repository_id) && rr_Created out = true.
Proof. apply run_answer. vm_compute. reflexivity. Qed.

(** Another name under the same key, after a link was made. *)
Definition later_calls : history :=
  [(OpLink (link_spec (call_at (t0 + Second) "b") link_request "rel_b"), [Healthy; Healthy; Lost]);
   (OpWorkspace "ws_b", [])].

Lemma repository_idempotent_witness : exists out,
  exec (ServiceCreateRepository config (call_at t0 "a") (create_request "Payments")) with_application = (Ok out, created) /\
  exec (ServiceCreateRepository config (call_at (t0 + Hour) "c") (create_request "Payments")) (replay later_calls created) =
    (Ok {| rr_Repository := rr_Repository out; rr_Created := false |}, replay later_calls created) /\
  exec (ServiceCreateRepository config (call_at (t0 + Hour) "c") (create_request "Other")) (replay later_calls created) =
    (Err ErrIdempotencyConflict, replay later_calls created).
Proof.
  destruct created_answer as (out & Hx & _). exists out. split; [exact Hx|].
  split.
  - exact (repository_idempotent config (call_at t0 "a") (create_request "Payments") with_application out created later_calls
      (call_at (t0 + Hour) "c") (create_request "Payments") "cccccccccccccccccccc" _ _ eq_refl Hx
      (conj eq_refl (conj eq_refl eq_refl)) eq_refl ltac:(vm_compute; discriminate) eq_refl eq_refl (fun _ => eq_refl)
      eq_refl eq_refl).
  - assert (exists fp, fingerprintCreate (create_request "Payments") = Ok fp) as [fp Hf] by (eexists; reflexivity).
    assert (exists fp, fingerprintCreate (create_request "Other") = Ok fp) as [fp' Hf'] by (eexists; reflexivity).
    assert (String.eqb fp fp' = false) as Hne.
    { assert (match fingerprintCreate (create_request "Payments"), fingerprintCreate (create_request "Other") with
              | Ok a, Ok b => String.eqb a b | _, _ => true end = false) as H by (vm_compute; reflexivity).
      rewrite Hf, Hf' in H. exact H. }
    pose proof (repository_idempotent config (call_at t0 "a") (create_request "Payments") with_application out created later_calls
      (call_at (t0 + Hour) "c") (create_request "Other") "cccccccccccccccccccc" fp fp' eq_refl Hx
      (conj eq_refl (conj eq_refl eq_refl)) eq_refl ltac:(vm_compute; discriminate) eq_refl eq_refl (fun _ => eq_refl)
      Hf Hf') as H.
    rewrite Hne in H. exact H.
Defined.

Lemma link_resolves_witness : exists out,
  exec (ServiceLinkRepository (call_at (t0 + Second) "b") link_request) created = (Ok out, linked) /\
  exec (ResolveActiveRepositoryTarget (fun _ => t0 + Hour) {| rt_WorkspaceID := "ws_a"; rt_ApplicationID := "app_a";
      rt_RepositoryID := repository_id |}) (replay [(OpWorkspace "ws_b", [])] linked) =
    (Ok {| t_WorkspaceID := "ws_a"; t_ApplicationID := "app_a"; t_RepositoryID := repository_id;
           t_RelationshipID := a_ID (rl_Relationship out); t_ValidFrom := t0 + Second; t_ResolvedAt := t0 + Hour |},
     replay [(OpWorkspace "ws_b", [])] linked).
Proof.
  assert (consistent created) as Hc.
  { destruct created_answer as (o & Hx & _). pose proof (create_step (locks (call_at t0 "a"))
      (create_spec config (call_at t0 "a") (create_request "Payments") repository_id
         (match fingerprintCreate (create_request "Payments") with Ok fp => fp | Err _ => "" end)) with_application) as [H _].
    exact (H with_application_consistent). }
  assert (exists out, exec (ServiceLinkRepository (call_at (t0 + Second) "b") link_request) created = (Ok out, linked) /\
    (a_ValidFrom (rl_Relationship out) =? t0 + Second) = true) as (out & Hx & Hv)
    by (apply run_answer; vm_compute; reflexivity).
  apply Z.eqb_eq in Hv. exists out. split; [exact Hx|].
  pose proof (proj1 (link_resolves (call_at (t0 + Second) "b") link_request created out linked [(OpWorkspace "ws_b", [])] Hc Hx)
    (fun _ => t0 + Hour)) as H. rewrite Hv in H. apply H. vm_compute. discriminate.
Defined.
End CatalogExamples.
