(* ===== verification/Worker.v ===== *)
(** * The worker loop (src/internal/jobqueue/worker.go)

    [Module Worker] models the worker against the interface [queueBackend] the
    Go code declares, in state-passing style: [S] is whatever the backend
    changes.  The goroutine that sends heartbeats while a handler runs is
    modelled by the ticks that fire before the handler returns; the handler
    itself is an arbitrary function, and [None] is a panic.  The backend over
    the queue of Queue.v is the instance [queue_backend]. *)

From S2P Require Import Prelude GoStrings Encoding Txn Json Queue Lifecycle QueueRefinement QueueTheorems.

Local Open Scope Z_scope.

Module Worker.
Import JobQueue.

Definition OutcomeSucceeded : string := "succeeded".
Definition OutcomeRetryable : string := "retryable".
Definition OutcomePermanent : string := "permanent".
Definition OutcomeCancelled : string := "cancelled".

Record Outcome := { o_Kind : string; o_Code : string; RetryAfter : duration }.

(** [None]: the handler panicked. *)
Definition Handler : Type := Job -> option Outcome.

Class queueBackend (S : Type) := {
  bAcquire : string -> string -> duration -> Z -> S -> result error (option Lease) * S;
  bStart : string -> string -> string -> S -> result error unit * S;
  bHeartbeat : string -> string -> string -> duration -> S -> result error unit * S;
  bSucceed : string -> string -> string -> S -> result error unit * S;
  bFail : string -> string -> string -> Failure -> time -> S -> result error State * S;
  bCancelActive : string -> string -> string -> S -> result error unit * S
}.

Record WorkerConfig := {
  w_Queue : string; Owner : string; Concurrency : Z; MaxInFlightPerWorkspace : Z;
  LeaseDuration : duration; HeartbeatInterval : duration; PollInterval : duration;
  RetryMinimum : duration; RetryMaximum : duration; RetryMaximumAge : duration
}.

(** [jitter = None] selects the default, as in the code. *)
Record WorkerState := {
  config : WorkerConfig;
  handlers : gmap string Handler;
  jitter : option (Z -> duration -> duration -> duration)
}.

Definition validConfig (c : WorkerConfig) : bool :=
  negb (negb (validName (w_Queue c)) || negb (String.eqb (TrimSpace (Owner c)) (Owner c)) ||
        String.eqb (Owner c) "" || has_nul (Owner c) || (120 <? slen (Owner c)) ||
        (Concurrency c <=? 0) || (128 <? Concurrency c) ||
        (MaxInFlightPerWorkspace c <=? 0) || (100 <? MaxInFlightPerWorkspace c) ||
        (LeaseDuration c <? minLease) || (maxLease <? LeaseDuration c) ||
        (HeartbeatInterval c <=? 0) || (LeaseDuration c <=? HeartbeatInterval c) ||
        (PollInterval c <=? 0) || (RetryMinimum c <=? 0) ||
        (RetryMaximum c <? RetryMinimum c) || (RetryMaximumAge c <? RetryMaximum c)).

(** A handler registry in which every kind is a valid name; a nil handler is a
    missing function. *)
Definition NewWorker (c : WorkerConfig) (registry : list (string * option Handler))
  : result error WorkerState :=
  guard! validConfig c else ErrInvalid in
  guard! forallb (fun kh => validName (fst kh) && negb (is_null (snd kh))) registry else ErrInvalid in
  Ok {| config := c;
        handlers := list_to_map (omap (fun kh => option_map (pair (fst kh)) (snd kh)) registry);
        jitter := None |}.

(** The owner of one slot: fmt.Sprintf("%s-%d", Owner, slot). *)
Definition slot_owner (c : WorkerConfig) (slot : Z) : string := Owner c +:+ ("-" +:+ itoa slot).

(** ** Retry delays: 64-bit durations *)

(** The doubling loop, for the iterations that [attempt] leaves. *)
Fixpoint double_delay (n : nat) (delay maximum : duration) : option duration :=
  match n with
  | O => Some delay
  | S n =>
      if negb (delay <? maximum) then Some delay
      else if Z.quot maximum 2 <? delay then None   (* return maximum *)
      else double_delay n (wrap64 (delay * 2)) maximum
  end.

Definition retryDelay (attempt : Z) (minimum maximum : duration) : duration :=
  if (minimum <=? 0) || (maximum <=? 0) then 0
  else match double_delay (Z.to_nat (attempt - 1)) minimum maximum with
  | None => maximum
  | Some delay => if maximum <? delay then maximum else delay
  end.

(** [rand_int n] is a uniform number in [0, n), or a failure of the source. *)
Definition jitteredRetryDelay (rand_int : Z -> option Z) (attempt : Z) (minimum maximum : duration)
  : duration :=
  let upper := retryDelay attempt minimum maximum in
  if upper <=? 1 then upper
  else
    let lower := Z.quot upper 2 in
    let spread := wrap64 (upper - lower) in
    match rand_int (wrap64 (spread + 1)) with
    | None => upper
    | Some random => wrap64 (lower + random)
    end.

(** [time.Time.Sub] saturates. *)
Definition Sub (t u : time) : duration :=
  if t - u <? min_int64 then min_int64 else if max_int64 <? t - u then max_int64 else t - u.

(** ** One job *)

Inductive worker_error := QueueError (e : error) | ContextDone.

(** What happens around the handler: the heartbeat ticks before it returns
    (each says whether the handler context was already done when a failed
    heartbeat is examined), whether the worker's context ended, the clock and
    the random source. *)
Record schedule := {
  ticks : list bool;
  ctx_done : bool;
  now_value : time;
  rand_int : Z -> option Z
}.

Section Process.
Context {S : Type} {B : queueBackend S}.

Definition lift (p : result error unit * S) : result worker_error unit * S :=
  match p with (Ok u, s) => (Ok u, s) | (Err e, s) => (Err (QueueError e), s) end.
Definition lift_state (p : result error State * S) : result worker_error unit * S :=
  match p with (Ok _, s) => (Ok tt, s) | (Err e, s) => (Err (QueueError e), s) end.

(** The heartbeat goroutine: the error it reports, if any. *)
Fixpoint heartbeats (l : list bool) (ws id tok : string) (lease : duration) (s : S) : option error * S :=
  match l with
  | [] => (None, s)
  | done :: l =>
      match bHeartbeat ws id tok lease s with
      | (Ok _, s) => heartbeats l ws id tok lease s
      | (Err e, s) => if done : bool then (None, s) else (Some e, s)
      end
  end.

Definition callHandler (h : Handler) (job : Job) : Outcome :=
  match h job with
  | Some o => o
  | None => {| o_Kind := OutcomeRetryable; o_Code := "handler_panic"; RetryAfter := 0 |}
  end.

Definition cancelActive (job : Job) (tok : string) (s : S) :=
  lift (bCancelActive (WorkspaceID job) (ID job) tok s).
Definition failWith (job : Job) (tok class code : string) (availableAt : time) (s : S) :=
  lift_state (bFail (WorkspaceID job) (ID job) tok {| Class := class; Code := code |} availableAt s).

Definition failInvalidOutcome (job : Job) (tok : string) (s : S) :=
  failWith job tok ErrorPermanent "invalid_handler_outcome" 0 s.

(** The delay of a retryable outcome. *)
Definition retry_wait (w : WorkerState) (sch : schedule) (attempt : Z) (remainingAge retryAfter : duration)
  : duration :=
  let j := default (jitteredRetryDelay (rand_int sch)) (jitter w) in
  let delay := j attempt (RetryMinimum (config w)) (RetryMaximum (config w)) in
  let delay := if delay <? retryAfter then retryAfter else delay in
  let delay := if RetryMaximum (config w) <? delay then RetryMaximum (config w) else delay in
  if remainingAge <? delay then remainingAge else delay.

Definition remaining_age (w : WorkerState) (sch : schedule) (job : Job) : duration :=
  wrap64 (RetryMaximumAge (config w) - Sub (now_value sch) (CreatedAt job)).

(** The switch over the handler's outcome. *)
Definition settle (w : WorkerState) (sch : schedule) (job : Job) (tok : string) (o : Outcome) (s : S)
  : result worker_error unit * S :=
  if String.eqb (o_Kind o) OutcomeSucceeded then
    match bSucceed (WorkspaceID job) (ID job) tok s with
    | (Err ErrCancellationRequested, s) => cancelActive job tok s
    | p => lift p
    end
  else if String.eqb (o_Kind o) OutcomeCancelled then cancelActive job tok s
  else if String.eqb (o_Kind o) OutcomeRetryable then
    if negb (validCode (o_Code o)) then failInvalidOutcome job tok s
    else
      let remainingAge := remaining_age w sch job in
      if remainingAge <=? 0 then failWith job tok ErrorPermanent (o_Code o) 0 s
      else failWith job tok ErrorRetryable (o_Code o)
             (now_value sch + retry_wait w sch (AttemptCount job) remainingAge (RetryAfter o)) s
  else if String.eqb (o_Kind o) OutcomePermanent then
    if negb (validCode (o_Code o)) then failInvalidOutcome job tok s
    else failWith job tok ErrorPermanent (o_Code o) 0 s
  else failInvalidOutcome job tok s.

Definition process (w : WorkerState) (sch : schedule) (l : Lease) (s : S)
  : result worker_error unit * S :=
  let job := lease_job l in
  let tok := token l in
  match bStart (WorkspaceID job) (ID job) tok s with
  | (Err ErrCancellationRequested, s) => cancelActive job tok s
  | (Err e, s) => (Err (QueueError e), s)
  | (Ok _, s) =>
      match handlers w !! Kind job with
      | None => failWith job tok ErrorPermanent "unsupported_job_kind" 0 s
      | Some h =>
          match heartbeats (ticks sch) (WorkspaceID job) (ID job) tok (LeaseDuration (config w)) s with
          | (Some ErrCancellationRequested, s) => cancelActive job tok s
          | (Some e, s) => (Err (QueueError e), s)
          | (None, s) =>
              if ctx_done sch then (Err ContextDone, s)
              else settle w sch job tok (callHandler h job) s
          end
      end
  end.

(** One iteration of [runSlot]: the lease it got, or the poll interval it
    waits ([waitFor] reports the context's end), then the job; [None] means
    the loop goes on. *)
Definition slot_iteration (w : WorkerState) (owner : string) (sch : schedule) (s : S)
  : option worker_error * S :=
  match bAcquire (w_Queue (config w)) owner (LeaseDuration (config w))
                 (MaxInFlightPerWorkspace (config w)) s with
  | (Err e, s) => (Some (QueueError e), s)
  | (Ok None, s) => (if ctx_done sch then Some ContextDone else None, s)
  | (Ok (Some l), s) =>
      match process w sch l s with
      | (Ok _, s) => (None, s)
      | (Err (QueueError ErrLeaseLost), s) => (None, s)
      | (Err e, s) => (Some e, s)
      end
  end.

(** [runSlot] over a sequence of iterations: the error that ended it, or
    [None] while it is still running. *)
Fixpoint runSlot (w : WorkerState) (owner : string) (l : list schedule) (s : S)
  : option worker_error * S :=
  match l with
  | [] => (None, s)
  | sch :: l =>
      match slot_iteration w owner sch s with
      | (None, s) => runSlot w owner l s
      | stop => stop
      end
  end.
End Process.

(** ** Delays *)

Lemma double_delay_spec n maximum : forall delay, 0 < delay <= maximum -> maximum <= max_int64 ->
  match double_delay n delay maximum with
  | None => maximum
  | Some x => if maximum <? x then maximum else x
  end = Z.min maximum (delay * 2 ^ Z.of_nat n).
Proof.
  induction n as [|n IH]; intros delay Hd Hm; cbn [double_delay].
  - rewrite Z.pow_0_r, Z.mul_1_r, (proj2 (Z.ltb_ge _ _)) by lia. lia.
  - assert (0 < 2 ^ Z.of_nat n) by lia.
    replace (2 ^ Z.of_nat (S n)) with (2 * 2 ^ Z.of_nat n) by (rewrite Nat2Z.inj_succ, Z.pow_succ_r; lia).
    destruct (delay <? maximum) eqn:E1; simpl; simp_bool.
    + destruct (Z.quot maximum 2 <? delay) eqn:E2; simp_bool.
      * assert (maximum < 2 * delay) by (Z.to_euclidean_division_equations; lia). nia.
      * assert (2 * delay <= maximum) by (Z.to_euclidean_division_equations; lia).
        rewrite wrap64_id by (unfold in_int64, min_int64, max_int64 in *; lia).
        rewrite IH by lia. f_equal. lia.
    + rewrite (proj2 (Z.ltb_ge _ _)) by lia. nia.
Qed.

Lemma retryDelay_eq attempt minimum maximum : 1 <= attempt -> 0 < minimum <= maximum ->
  maximum <= max_int64 -> retryDelay attempt minimum maximum = Z.min maximum (minimum * 2 ^ (attempt - 1)).
Proof.
  intros Ha Hm Hx. unfold retryDelay. rewrite !(proj2 (Z.leb_gt _ _)) by lia. simpl.
  rewrite double_delay_spec by lia. by rewrite Z2Nat.id by lia.
Qed.

(** The retry delay doubles with every attempt up to the maximum, and
    the 64-bit computation never overflows, however many attempts there
    were. *)
Theorem retryDelay_exponential attempt minimum maximum : 1 <= attempt -> 0 < minimum <= maximum ->
  maximum <= max_int64 -> retryDelay attempt minimum maximum = Z.min maximum (minimum * 2 ^ (attempt - 1)).
Proof. apply retryDelay_eq. Qed.

(** [rand.Int] returns a number below its bound. *)
Definition rand_contract (r : Z -> option Z) : Prop := forall n v, r n = Some v -> 0 <= v < n.

Lemma jitter_bounds r attempt minimum maximum : rand_contract r -> 1 <= attempt ->
  0 < minimum <= maximum -> maximum <= max_int64 ->
  let upper := retryDelay attempt minimum maximum in
  0 < jitteredRetryDelay r attempt minimum maximum <= upper /\
  upper / 2 <= jitteredRetryDelay r attempt minimum maximum.
Proof.
  intros Hr Ha Hm Hx. cbv zeta. unfold jitteredRetryDelay.
  assert (1 <= retryDelay attempt minimum maximum <= max_int64) as Hu.
  { rewrite retryDelay_eq by done. assert (0 < 2 ^ (attempt - 1)) by lia. nia. }
  set (upper := retryDelay attempt minimum maximum) in *.
  destruct (upper <=? 1) eqn:E; simp_bool; [split; [lia|]; apply Z.div_le_upper_bound; lia|].
  rewrite Z.quot_div_nonneg by lia. unfold max_int64 in *.
  assert (0 <= upper / 2 <= upper) by (split; [apply Z.div_pos; lia|apply Z.div_le_upper_bound; lia]).
  assert (1 <= upper / 2) by (apply Z.div_le_lower_bound; lia).
  rewrite (wrap64_id (upper - upper / 2)) by (unfold in_int64, min_int64, max_int64; lia).
  rewrite (wrap64_id (_ + 1)) by (unfold in_int64, min_int64, max_int64; lia).
  destruct (r _) as [v|] eqn:Ev; [|lia]. apply Hr in Ev.
  rewrite wrap64_id by (unfold in_int64, min_int64, max_int64; lia). lia.
Qed.

(** Jitter keeps at least half of the delay and never exceeds it. *)
Theorem jitter_within_half r attempt minimum maximum : rand_contract r -> 1 <= attempt ->
  0 < minimum <= maximum -> maximum <= max_int64 ->
  let upper := Z.min maximum (minimum * 2 ^ (attempt - 1)) in
  0 < jitteredRetryDelay r attempt minimum maximum <= upper /\
  upper / 2 <= jitteredRetryDelay r attempt minimum maximum.
Proof. intros Hr Ha Hm Hx. cbv zeta. rewrite <- retryDelay_eq by done. by apply jitter_bounds. Qed.

(** ** Configuration *)

Lemma itoa_slot slot : 0 <= slot < 128 ->
  sforallb (fun c => (byte_val c <? 128) && (32 <? byte_val c)) (itoa slot) = true /\ slen (itoa slot) <= 3.
Proof.
  intros H.
  assert (forallb (fun n => sforallb (fun c => (byte_val c <? 128) && (32 <? byte_val c)) (itoa (Z.of_nat n))
                            && (slen (itoa (Z.of_nat n)) <=? 3)) (seq 0 128) = true) as Hall
    by (vm_compute; reflexivity).
  rewrite forallb_forall in Hall. specialize (Hall (Z.to_nat slot)).
  rewrite Z2Nat.id in Hall by lia. rewrite in_seq in Hall. specialize (Hall ltac:(lia)).
  simp_bool. by split; [|lia].
Qed.

(** Every slot of an accepted worker can acquire jobs: the owner names
    the worker derives and the limits it was configured with always satisfy
    the queue's own validation. *)
Theorem slots_can_acquire c slot : validConfig c = true -> 0 <= slot < Concurrency c ->
  validAcquire (w_Queue c) (slot_owner c slot) (LeaseDuration c) (MaxInFlightPerWorkspace c) = true.
Proof.
  unfold validConfig, validAcquire. intros H Hs. apply negb_true_iff in H. simp_bool.
  destruct (itoa_slot slot) as [Hp Hl]; [lia|].
  assert (sforallb (fun c => (byte_val c <? 128) && (32 <? byte_val c)) ("-" +:+ itoa slot) = true) as Hp'
    by (simpl; exact Hp).
  unfold slot_owner.
  assert (TrimSpace (Owner c +:+ ("-" +:+ itoa slot)) = Owner c +:+ ("-" +:+ itoa slot)) as ->
    by (by apply TrimSpace_app).
  assert (has_nul (Owner c +:+ ("-" +:+ itoa slot)) = false) as ->.
  { unfold has_nul in *. rewrite sforallb_app. simp_bool. rewrite H13. simpl.
    apply negb_false_iff. revert Hp. apply sforallb_impl. intros x Hx. simp_bool.
    apply negb_true_iff, Z.eqb_neq. lia. }
  assert (slen (Owner c +:+ ("-" +:+ itoa slot)) <= 128) as Hlen.
  { rewrite !slen_app. change (slen "-") with 1. lia. }
  rewrite String.eqb_refl. destruct (String.eqb_spec (Owner c +:+ ("-" +:+ itoa slot)) "") as [E|_].
  { by destruct (Owner c). }
  rewrite !(proj2 (Z.ltb_ge _ _)) by lia. simpl. by rewrite H.
Qed.

Lemma retry_wait_range w sch attempt remaining retryAfter :
  validConfig (config w) = true -> RetryMaximum (config w) <= max_int64 -> jitter w = None ->
  rand_contract (rand_int sch) -> 1 <= attempt -> 0 < remaining ->
  let delay := retry_wait w sch attempt remaining retryAfter in
  0 < delay <= RetryMaximum (config w) /\ delay <= remaining /\
  (retryAfter <= RetryMaximum (config w) -> retryAfter <= remaining -> retryAfter <= delay).
Proof.
  intros Hc Hx Hj Hr Ha Hrem. unfold validConfig in Hc. apply negb_true_iff in Hc. simp_bool.
  unfold retry_wait. rewrite Hj. cbn [default]. cbv zeta.
  destruct (jitter_bounds (rand_int sch) attempt (RetryMinimum (config w)) (RetryMaximum (config w)))
    as [Hb _]; [done|done|lia|done|].
  rewrite retryDelay_eq in Hb by lia.
  pose proof (Z.le_min_l (RetryMaximum (config w)) (RetryMinimum (config w) * 2 ^ (attempt - 1))) as Hmin.
  set (upper := Z.min _ _) in *.
  change (from_option id (jitteredRetryDelay (rand_int sch)) None) with (jitteredRetryDelay (rand_int sch)).
  set (j := jitteredRetryDelay _ _ _ _) in *.
  destruct (Z.ltb_spec j retryAfter);
    match goal with |- context [RetryMaximum _ <? ?x] => destruct (Z.ltb_spec (RetryMaximum (config w)) x) end;
    match goal with |- context [remaining <? ?x] => destruct (Z.ltb_spec remaining x) end; lia.
Qed.

(** A retry waits a positive time, at most the configured maximum and
    at most what is left of the job's retry age, and no less than the handler
    asked for when that fits. *)
Theorem retry_wait_bounds w sch attempt remaining retryAfter :
  validConfig (config w) = true -> RetryMaximum (config w) <= max_int64 -> jitter w = None ->
  rand_contract (rand_int sch) -> 1 <= attempt -> 0 < remaining ->
  let delay := retry_wait w sch attempt remaining retryAfter in
  0 < delay <= RetryMaximum (config w) /\ delay <= remaining /\
  (retryAfter <= RetryMaximum (config w) -> retryAfter <= remaining -> retryAfter <= delay).
Proof. apply retry_wait_range. Qed.

(** ** The protocol a worker follows

    [recorder] is a backend that answers anything, depending on the calls so
    far, and records every call with its arguments. *)
Inductive call :=
| CAcquire (queue owner : string) (lease : duration) (maxInFlight : Z)
| CStart (ws id tok : string)
| CHeartbeat (ws id tok : string) (lease : duration)
| CSucceed (ws id tok : string)
| CFail (ws id tok : string) (f : Failure) (availableAt : time)
| CCancel (ws id tok : string).

Section Recorder.
Variable answer : list call -> call -> result error unit.
Variable answer_lease : list call -> result error (option Lease).
Variable answer_state : list call -> result error State.

Definition record (c : call) (s : list call) : result error unit * list call := (answer s c, s ++ [c]).

Definition recorder : queueBackend (list call) := {|
  bAcquire q o l m s := (answer_lease s, s ++ [CAcquire q o l m]);
  bStart ws id tok := record (CStart ws id tok);
  bHeartbeat ws id tok lease := record (CHeartbeat ws id tok lease);
  bSucceed ws id tok := record (CSucceed ws id tok);
  bFail ws id tok f t s := (answer_state s, s ++ [CFail ws id tok f t]);
  bCancelActive ws id tok := record (CCancel ws id tok) |}.

(** The calls that may end the processing of a job. *)
Definition acknowledgement (ws id tok : string) (l : list call) : Prop :=
  l = [CCancel ws id tok] \/ l = [CSucceed ws id tok] \/ l = [CSucceed ws id tok; CCancel ws id tok] \/
  exists f t, l = [CFail ws id tok f t] /\ Lifecycle.valid_failure f = true /\
              (Class f = ErrorRetryable -> t <> 0).

Definition protocol (w : WorkerState) (n : nat) (l : Lease) (res : result worker_error unit)
  (s s' : list call) : Prop :=
  let ws := WorkspaceID (lease_job l) in
  let id := ID (lease_job l) in
  exists beats acks,
    s' = s ++ CStart ws id (token l) ::
         repeat (CHeartbeat ws id (token l) (LeaseDuration (config w))) beats ++ acks /\
    (beats <= n)%nat /\ (acks = [] \/ acknowledgement ws id (token l) acks) /\
    (res = Ok tt -> acks <> []).

Lemma heartbeats_record ticks ws id tok lease : forall s, exists beats,
  (beats <= length ticks)%nat /\
  snd (heartbeats (B := recorder) ticks ws id tok lease s) = s ++ repeat (CHeartbeat ws id tok lease) beats.
Proof.
  induction ticks as [|b ticks IH]; intros s; simpl; [exists O; by rewrite app_nil_r|].
  unfold record. destruct (answer _ _) as [[]|e]; simpl.
  - destruct (IH (s ++ [CHeartbeat ws id tok lease])) as (n & Hn & ->). exists (S n). split; [lia|].
    by rewrite <- app_assoc.
  - exists 1%nat. split; [lia|]. by destruct b.
Qed.

(** The calls a step added, when they acknowledge the job. *)
Definition acknowledges (ws id tok : string) (s s' : list call) : Prop :=
  exists acks, s' = s ++ acks /\ acknowledgement ws id tok acks.

Lemma lift_snd {S} (p : result error unit * S) : snd (lift p) = snd p.
Proof. by destruct p as [[]]. Qed.

Lemma cancelActive_acks job tok s :
  acknowledges (WorkspaceID job) (ID job) tok s (snd (cancelActive (B := recorder) job tok s)).
Proof.
  unfold cancelActive. rewrite lift_snd. simpl. eexists. split; [done|]. by left.
Qed.

Lemma failWith_acks job tok class code t s :
  Lifecycle.valid_failure {| Class := class; Code := code |} = true -> (class = ErrorRetryable -> t <> 0) ->
  acknowledges (WorkspaceID job) (ID job) tok s (snd (failWith (B := recorder) job tok class code t s)).
Proof.
  intros Hv Ht. unfold failWith, lift_state. simpl.
  eexists [CFail _ _ _ _ _]. split; [by destruct (answer_state s)|]. do 3 right. eauto.
Qed.

Lemma permanent_valid code : validCode code = true ->
  Lifecycle.valid_failure {| Class := ErrorPermanent; Code := code |} = true.
Proof. intros H. unfold Lifecycle.valid_failure. simpl. exact H. Qed.

Lemma settle_acks w sch job tok o s : validConfig (config w) = true ->
  RetryMaximum (config w) <= max_int64 -> jitter w = None -> rand_contract (rand_int sch) ->
  1 <= AttemptCount job -> 0 <= now_value sch ->
  acknowledges (WorkspaceID job) (ID job) tok s (snd (settle (B := recorder) w sch job tok o s)).
Proof.
  intros Hc Hx Hj Hr Ha Hn. unfold settle, failInvalidOutcome.
  destruct (String.eqb _ _).
  { simpl. unfold record. destruct (answer s _) as [[]|[]]; simpl;
      try (eexists; split; [done|]; right; by left).
    unfold cancelActive. rewrite lift_snd. simpl. rewrite <- app_assoc.
    eexists. split; [done|]. do 2 right. by left. }
  destruct (String.eqb _ _); [apply cancelActive_acks|].
  destruct (String.eqb _ _).
  { destruct (validCode (o_Code o)) eqn:Hv; cbn [negb]; [|by apply failWith_acks].
    destruct (Z.leb_spec (remaining_age w sch job) 0).
    - apply failWith_acks; [by apply permanent_valid|done].
    - apply failWith_acks; [unfold Lifecycle.valid_failure; simpl; exact Hv|]. intros _.
      destruct (retry_wait_range w sch (AttemptCount job) (remaining_age w sch job) (RetryAfter o)) as [? _]; done || lia. }
  destruct (String.eqb _ _); [|by apply failWith_acks].
  destruct (validCode (o_Code o)) eqn:Hv; cbn [negb]; apply failWith_acks; try done.
Qed.

Lemma protocol_intro w n l res s s' beats :
  let ws := WorkspaceID (lease_job l) in
  let id := ID (lease_job l) in
  let s1 := (s ++ [CStart ws id (token l)]) ++
            repeat (CHeartbeat ws id (token l) (LeaseDuration (config w))) beats in
  (beats <= n)%nat -> acknowledges ws id (token l) s1 s' \/ s' = s1 /\ res <> Ok tt ->
  protocol w n l res s s'.
Proof.
  intros ws id s1 Hn [(acks & -> & Hack)|[-> Hres]]; unfold protocol, s1.
  - exists beats, acks. rewrite <- !app_assoc. split_and!; [done|done|by right|].
    intros _ ->. destruct Hack as [?|[?|[?|(? & ? & ? & _)]]]; done.
  - exists beats, []. rewrite app_nil_r, <- app_assoc. split_and!; [done|done|by left|done].
Qed.

(** C31.  Whatever the queue answers, a worker's handling of one lease is one
    Start, at most one heartbeat per tick, and then at most one
    acknowledgement (a Succeed may be followed by the CancelActive it calls
    for); every call names the leased job and its token, every failure it
    reports is one the queue accepts, and a handling that reports no error did
    acknowledge the job. *)
Theorem process_protocol w sch l s : validConfig (config w) = true ->
  RetryMaximum (config w) <= max_int64 -> jitter w = None -> rand_contract (rand_int sch) ->
  1 <= AttemptCount (lease_job l) -> 0 <= now_value sch ->
  let out := process (B := recorder) w sch l s in
  protocol w (length (ticks sch)) l (fst out) s (snd out).
Proof.
  intros Hc Hx Hj Hr Ha Hn. cbv zeta. unfold process. cbn [bStart recorder]. unfold record.
  set (ws := WorkspaceID (lease_job l)). set (id := ID (lease_job l)).
  set (s1 := s ++ [CStart ws id (token l)]).
  assert (forall res s', acknowledges ws id (token l) s1 s' \/ s' = s1 /\ res <> Ok tt ->
            protocol w (length (ticks sch)) l res s s') as H0.
  { intros res s' H. apply (protocol_intro w _ l res s s' 0); [lia|]. simpl. by rewrite app_nil_r. }
  destruct (answer s _) as [[]|err]; [|destruct err; apply H0; try (by right); left; apply cancelActive_acks].
  destruct (handlers w !! Kind (lease_job l)) as [h|]; [|apply H0; left; by apply failWith_acks].
  destruct (heartbeats_record (ticks sch) ws id (token l) (LeaseDuration (config w)) s1) as (beats & Hb & Hs).
  destruct (heartbeats _ _ _ _ _ s1) as [[err|] s2]; simpl in Hs; subst s2.
  - apply (protocol_intro _ _ _ _ _ _ beats); [done|].
    destruct err; try (by right); left; apply cancelActive_acks.
  - apply (protocol_intro _ _ _ _ _ _ beats); [done|].
    destruct (ctx_done sch); [by right|]. left. by apply settle_acks.
Qed.

End Recorder.

(** ** The worker on the queue *)

Section OnQueue.
Import Lifecycle QueueSpec QueueTheorems.
Context {pg : Postgres}.

(** The [n]-th call: the operations others have performed since the call
    before, the environment and what the connection does. *)
Record moment := { others : list (env * operation * list fault); surroundings : env; connection : list fault }.

Definition happened (l : list (env * operation * list fault)) (d : database) : database :=
  fold_left (fun d x => perform (fst (fst x)) (snd (fst x)) (snd x) d) l d.

Variable world : nat -> moment.

Definition on_world {A} (p : env -> prog database error A) (s : database * nat)
  : result error A * (database * nat) :=
  let '(d, n) := s in
  let '(r, d) := run_on (p (surroundings (world n))) (happened (others (world n)) d) (connection (world n)) in (r, (d, S n)).

#[export] Instance queue_backend : queueBackend (database * nat) := {|
  bAcquire queue owner lease m := on_world (fun e => Acquire e queue owner lease m);
  bStart ws id tok := on_world (fun e => Start e ws id tok);
  bHeartbeat ws id tok lease := on_world (fun e => Heartbeat e ws id tok lease);
  bSucceed ws id tok := on_world (fun e => Succeed e ws id tok);
  bFail ws id tok f t := on_world (fun e => Fail e ws id tok f t);
  bCancelActive ws id tok := on_world (fun e => CancelActive e ws id tok) |}.

Definition leads (s s' : database * nat) : Prop := rtc system_step (fst s) (fst s').

Lemma leads_refl s : leads s s.
Proof. apply rtc_refl. Qed.
Lemma leads_trans s1 s2 s3 : leads s1 s2 -> leads s2 s3 -> leads s1 s3.
Proof. intros H1 H2. unfold leads in *. by etrans. Qed.

Lemma happened_leads l : forall d, rtc system_step d (happened l d).
Proof.
  induction l as [|x l IH]; intros d; [apply rtc_refl|]. unfold happened in *. simpl.
  eapply rtc_l; [apply step_operation|apply IH].
Qed.

Lemma on_world_leads {A} (p : env -> prog database error A) (op : operation) s :
  (forall e d fs, snd (run_on (p e) d fs) = perform e op fs d) -> leads s (snd (on_world p s)).
Proof.
  intros H. destruct s as [d n]. unfold leads, on_world. set (d0 := happened _ d).
  specialize (H (surroundings (world n)) d0 (connection (world n))). destruct (run_on _ d0 _) as [r d']. simpl in *. subst d'.
  eapply rtc_r; [apply happened_leads|apply step_operation].
Qed.

Lemma backend_leads s :
  (forall q o l m, leads s (snd (bAcquire q o l m s))) /\
  (forall ws id tok, leads s (snd (bStart ws id tok s))) /\
  (forall ws id tok l, leads s (snd (bHeartbeat ws id tok l s))) /\
  (forall ws id tok, leads s (snd (bSucceed ws id tok s))) /\
  (forall ws id tok f t, leads s (snd (bFail ws id tok f t s))) /\
  (forall ws id tok, leads s (snd (bCancelActive ws id tok s))).
Proof.
  split_and!; intros; cbn [bAcquire bStart bHeartbeat bSucceed bFail bCancelActive queue_backend].
  - by apply (on_world_leads _ (OpAcquire q o l m)).
  - by apply (on_world_leads _ (OpStart ws id tok)).
  - by apply (on_world_leads _ (OpHeartbeat ws id tok l)).
  - by apply (on_world_leads _ (OpSucceed ws id tok)).
  - by apply (on_world_leads _ (OpFail ws id tok f t)).
  - by apply (on_world_leads _ (OpCancelActive ws id tok)).
Qed.

Lemma lift_state_snd {S} (p : result error State * S) : snd (lift_state p) = snd p.
Proof. by destruct p as [[]]. Qed.

Lemma cancelActive_leads job tok s : leads s (snd (cancelActive job tok s)).
Proof. unfold cancelActive. rewrite lift_snd. apply backend_leads. Qed.

Lemma failWith_leads job tok class code t s : leads s (snd (failWith job tok class code t s)).
Proof. unfold failWith. rewrite lift_state_snd. apply backend_leads. Qed.

Lemma heartbeats_leads ticks ws id tok lease : forall s,
  leads s (snd (heartbeats ticks ws id tok lease s)).
Proof.
  induction ticks as [|b ticks IH]; intros s; [apply leads_refl|]. cbn [heartbeats].
  destruct (backend_leads s) as (_ & _ & Hh & _). specialize (Hh ws id tok lease).
  destruct (bHeartbeat _ _ _ _ s) as [[u|e] s1]; simpl in Hh.
  - eapply leads_trans; [exact Hh|apply IH].
  - by destruct b.
Qed.

Lemma settle_leads w sch job tok o s : leads s (snd (settle w sch job tok o s)).
Proof.
  unfold settle, failInvalidOutcome. destruct (String.eqb _ _).
  - destruct (backend_leads s) as (_ & _ & _ & Hs & _). specialize (Hs (WorkspaceID job) (ID job) tok).
    destruct (bSucceed _ _ _ s) as [[u|e] s1]; simpl in Hs; [done|].
    destruct e; try done. eapply leads_trans; [exact Hs|apply cancelActive_leads].
  - split_cases; apply cancelActive_leads || apply failWith_leads.
Qed.

Lemma process_leads w sch l s : leads s (snd (process w sch l s)).
Proof.
  unfold process. destruct (backend_leads s) as (_ & Hs & _).
  specialize (Hs (WorkspaceID (lease_job l)) (ID (lease_job l)) (token l)).
  destruct (bStart _ _ _ s) as [[u|e] s1]; simpl in Hs.
  - eapply leads_trans; [exact Hs|].
    destruct (handlers w !! Kind (lease_job l)) as [h|]; [|apply failWith_leads].
    pose proof (heartbeats_leads (ticks sch) (WorkspaceID (lease_job l)) (ID (lease_job l)) (token l)
                  (LeaseDuration (config w)) s1) as Hh.
    destruct (heartbeats _ _ _ _ _ s1) as [[e|] s2]; simpl in Hh; (eapply leads_trans; [exact Hh|]).
    + destruct e; apply cancelActive_leads || apply leads_refl.
    + destruct (ctx_done sch); [apply leads_refl|apply settle_leads].
  - destruct e; try exact Hs. eapply leads_trans; [exact Hs|apply cancelActive_leads].
Qed.

Lemma slot_iteration_leads w owner sch s : leads s (snd (slot_iteration w owner sch s)).
Proof.
  unfold slot_iteration. destruct (backend_leads s) as (Ha & _).
  specialize (Ha (w_Queue (config w)) owner (LeaseDuration (config w)) (MaxInFlightPerWorkspace (config w))).
  destruct (bAcquire _ _ _ _ s) as [[[l|]|e] s1]; simpl in Ha; try exact Ha.
  pose proof (process_leads w sch l s1) as Hp.
  destruct (process w sch l s1) as [[u|[e|]] s2]; simpl in Hp;
    try destruct e; eapply leads_trans; eauto.
Qed.

Lemma runSlot_leads w owner l : forall s, leads s (snd (runSlot w owner l s)).
Proof.
  induction l as [|sch l IH]; intros s; [apply leads_refl|]. cbn [runSlot].
  pose proof (slot_iteration_leads w owner sch s) as Hi.
  destruct (slot_iteration w owner sch s) as [[e|] s1]; simpl in Hi; [done|].
  eapply leads_trans; [exact Hi|apply IH].
Qed.

(** A worker only moves the queue along its own transition system:
    whatever its configuration, handlers, clock and connection, a running slot
    leads a reachable database to a reachable one, so every guarantee of the
    queue holds while workers run. *)
Theorem worker_simulates_queue w owner l d n : reachable d ->
  reachable (fst (snd (runSlot w owner l (d, n)))).
Proof.
  intros H. unfold reachable in *. etrans; [exact H|]. apply (runSlot_leads w owner l (d, n)).
Qed.

(** ** What a healthy worker does to a job *)

(** The state a handler's outcome leads to. *)
Definition outcome_state (w : WorkerState) (sch : schedule) (r : row) (o : Outcome) : State :=
  if String.eqb (o_Kind o) OutcomeSucceeded then Succeeded
  else if String.eqb (o_Kind o) OutcomeCancelled then Cancelled
  else if String.eqb (o_Kind o) OutcomeRetryable && validCode (o_Code o) &&
          (0 <? remaining_age w sch (scanJob r)) && (attempt_count r <? c_max_attempts (core r))
  then RetryWait else DeadLetter.

Lemma on_healthy {A} (p : env -> prog database error A) d n res d' : connection (world n) = [] ->
  exec (p (surroundings (world n))) (happened (others (world n)) d) = (res, d') -> on_world p (d, n) = (res, (d', S n)).
Proof. intros Hw Hx. unfold on_world. rewrite Hw. unfold exec in Hx. by rewrite Hx. Qed.

Lemma fail_ok e ws id tok d r f t : invariant d -> validateLeaseIdentity ws id tok = true ->
  owned e ws id tok d = Some r -> state r = Running -> valid_failure f = true ->
  (Class f = ErrorRetryable -> t <> 0) ->
  exec (Fail e ws id tok f t) d = (Ok (fst (fail_outcome f r)), apply_event e (EvFail f t) id r d).
Proof.
  intros I Hv Ho Hs Hf Ht. rewrite Fail_refines by done. unfold fail_spec. rewrite Hf, Hv, Ho, Hs.
  cbn -[fail_outcome]. destruct (state_eqb _ _ && IsZero t) eqn:E; [|done]. exfalso. simp_bool.
  unfold IsZero in *. simp_bool. apply Ht; [|done].
  revert H. unfold fail_outcome, fail_decision, state_eqb.
  destruct (negb (not_cancelling r)); [done|].
  destruct (String.eqb_spec (Class f) ErrorRetryable); [done|]. simpl. done.
Qed.

Section Settled.
#[local] Set Default Proof Using "All".
Context (w : WorkerState) (sch : schedule) (n : nat) (d0 d : database) (r r0 : row) (tok : string).
Let e := surroundings (world n).
Let ws := c_workspace_id (core r).
Let id := c_id (core r).
Hypothesis config_ok : validConfig (config w) = true.
Hypothesis maximum_ok : RetryMaximum (config w) <= max_int64.
Hypothesis default_jitter : jitter w = None.
Hypothesis random_ok : rand_contract (rand_int sch).
Hypothesis clock_ok : 0 <= now_value sch.
Hypothesis healthy : connection (world n) = [].
Hypothesis arrived : happened (others (world n)) d0 = d.
Hypothesis inv : invariant d.
Hypothesis token_ok : validateLeaseIdentity ws id tok = true.
Hypothesis holds_lease : owned e ws id tok d = Some r.
Hypothesis running : state r = Running.
Hypothesis no_cancellation : not_cancelling r = true.
Hypothesis same_core : core r0 = core r.
Hypothesis same_count : attempt_count r0 = attempt_count r.

Definition settled (st : State) (out : result worker_error unit * (database * nat)) : Prop :=
  fst out = Ok tt /\ exists r', jobs (fst (snd out)) !! id = Some r' /\ state r' = st.

Lemma settled_intro ev st : state (row_after e ev r) = st ->
  settled st (Ok tt, (apply_event e ev id r d, S n)).
Proof. intros H. split; [done|]. eexists. split; [simpl; by rewrite lookup_insert_eq|done]. Qed.

Lemma settled_cancel job : WorkspaceID job = ws -> ID job = id ->
  settled Cancelled (cancelActive job tok (d0, n)).
Proof.
  intros Hw Hi. unfold cancelActive. cbn [bCancelActive queue_backend]. rewrite Hw, Hi.
  erewrite on_healthy; [|exact healthy|].
  2: { rewrite arrived. fold e. rewrite CancelActive_refines by done. unfold cancel_active_spec. by rewrite token_ok, holds_lease. }
  by apply settled_intro.
Qed.

Lemma settled_fail job class code t st : WorkspaceID job = ws -> ID job = id ->
  valid_failure {| Class := class; Code := code |} = true -> (class = ErrorRetryable -> t <> 0) ->
  st = (if String.eqb class ErrorRetryable && (attempt_count r <? c_max_attempts (core r))
        then RetryWait else DeadLetter) ->
  settled st (failWith job tok class code t (d0, n)).
Proof.
  intros Hw Hi Hf Ht ->. unfold failWith. cbn [bFail queue_backend]. rewrite Hw, Hi.
  erewrite on_healthy; [|exact healthy|rewrite arrived; by apply (fail_ok e ws id tok d r)].
  apply settled_intro. simpl. unfold fail_outcome, fail_decision. rewrite no_cancellation. simpl.
  by destruct (_ && _).
Qed.

Lemma settle_running o : settled (outcome_state w sch r0 o) (settle w sch (scanJob r0) tok o (d0, n)).
Proof.
  unfold settle, outcome_state, failInvalidOutcome. rewrite same_core, same_count.
  assert (WorkspaceID (scanJob r0) = ws /\ ID (scanJob r0) = id) as [Hws Hid] by (unfold ws, id; simpl; by rewrite same_core).
  assert (1 <= AttemptCount (scanJob r0)) as Hatt.
  { simpl. rewrite same_count. destruct (owned_Some _ _ _ _ _ _ holds_lease) as (Hr & _).
    destruct (inv_rows d inv _ _ Hr) as (_ & Hok & _). apply row_ok_spec in Hok as (_ & _ & Hsh & _).
    unfold shape in Hsh. rewrite running in Hsh. simpl. lia. }
  destruct (String.eqb _ OutcomeSucceeded).
  { cbn [bSucceed queue_backend]. rewrite Hws, Hid.
    erewrite on_healthy; [|exact healthy|rewrite arrived; by apply (succeed_ok e ws id tok d r)]. by apply settled_intro. }
  destruct (String.eqb _ OutcomeCancelled); [by apply settled_cancel|].
  destruct (String.eqb _ OutcomeRetryable) eqn:HR; cbn [andb].
  { destruct (validCode (o_Code o)) eqn:Hv; cbn [negb andb]; [|by apply settled_fail].
    destruct (Z.leb_spec (remaining_age w sch (scanJob r0)) 0).
    - rewrite (proj2 (Z.ltb_ge _ _)) by lia. cbn [andb].
      apply settled_fail; done.
    - rewrite (proj2 (Z.ltb_lt _ _)) by lia. cbn [andb]. apply settled_fail; try done.
      intros _. destruct (retry_wait_range w sch (AttemptCount (scanJob r0)) (remaining_age w sch (scanJob r0)) (RetryAfter o))
        as [? _]; done || lia. }
  destruct (String.eqb _ OutcomePermanent); [|by apply settled_fail].
  destruct (validCode (o_Code o)) eqn:Hv; cbn [negb]; apply settled_fail; try done.
Qed.
End Settled.

(** *** While the handler runs *)

(** What others may do meanwhile to a job that is held with [tok] until
    [expires]: anything but to use its token, to ask for its cancellation, or
    to recover leases after that time. *)
Definition bystander (id tok : string) (expires : time) (x : env * operation * list fault) : Prop :=
  match snd (fst x) with
  | OpEnqueue _ | OpAcquire _ _ _ _ => True
  | OpStart _ id' tok' | OpHeartbeat _ id' tok' _ | OpSucceed _ id' tok' | OpCancelActive _ id' tok' | OpFail _ id' tok' _ _ =>
      id' = id -> hashLeaseToken tok' <> hashLeaseToken tok
  | OpRequestCancellation _ id' => id' <> id
  | OpRecoverExpired _ _ _ => tx_now (fst (fst x)) < expires
  end.

(** A row that is held. *)
Record held (tok : string) (expires : time) (r : row) : Prop := {
  hd_token : lease_token_hash r = Some (hashLeaseToken tok);
  hd_expires : lease_expires_at r = Some expires;
  hd_active : active (state r) = true;
  hd_wanted : not_cancelling r = true
}.

Lemma bystander_keeps id tok expires x d r : invariant d -> jobs d !! id = Some r -> held tok expires r ->
  bystander id tok expires x -> jobs (perform (fst (fst x)) (snd (fst x)) (snd x) d) !! id = Some r.
Proof.
  intros I Hr [Ht He Ha Hn] Hb. destruct x as [[e op] fs]. unfold bystander in Hb. cbn [fst snd] in *.
  destruct (perform_affects e op fs d id r I Hr) as (r' & Hr' & [->|(ev & Hc & Hal & _)]); [done|]. exfalso.
  destruct op, ev; simpl in Hc; unfold knows in Hc; rewrite ?Ht in Hc; simpl in Hal; try (naive_solver congruence).
  - destruct (state r); done.
  - unfold expired in Hal. rewrite He in Hal. simpl in Hal. simp_bool. lia.
Qed.

Lemma bystanders_keep id tok expires r l : forall d, invariant d -> jobs d !! id = Some r -> held tok expires r ->
  Forall (bystander id tok expires) l -> invariant (happened l d) /\ jobs (happened l d) !! id = Some r.
Proof.
  induction l as [|x l IH]; intros d I Hr Hh Hl; [done|]. apply Forall_cons in Hl as [Hx Hl]. unfold happened in *. simpl.
  apply IH; [|by eapply bystander_keeps|done|done]. eapply step_invariant; [exact I|apply step_operation].
Qed.

(** A call that works, in time, among bystanders. *)
Definition quiet (id tok : string) (expires : time) (m : moment) : Prop :=
  connection m = [] /\ tx_now (surroundings m) < expires /\ Forall (bystander id tok expires) (others m).

(** The heartbeats and the call after them: each comes before the lease the
    one before it left has expired. *)
Fixpoint kept (id tok : string) (lease : duration) (ticks : list bool) (n : nat) (expires : time) : Prop :=
  quiet id tok expires (world n) /\
  match ticks with
  | [] => True
  | _ :: ticks => kept id tok lease ticks (S n) (tx_now (surroundings (world n)) + Microseconds lease * Microsecond)
  end.

Lemma held_owned e ws id tok expires d r : jobs d !! id = Some r -> c_workspace_id (core r) = ws -> held tok expires r ->
  tx_now e < expires -> owned e ws id tok d = Some r.
Proof.
  intros Hr Hw [Ht He Ha _] Hlt. apply owned_intro; try done. unfold unexpired. rewrite He. simpl.
  by rewrite (proj2 (Z.ltb_lt _ _) Hlt).
Qed.

Lemma heartbeats_keep ws id tok lease ticks : (lease <? minLease) || (maxLease <? lease) = false ->
  validateLeaseIdentity ws id tok = true -> forall d n r expires, invariant d -> jobs d !! id = Some r ->
  c_workspace_id (core r) = ws -> held tok expires r -> kept id tok lease ticks n expires ->
  exists d' r' expires', heartbeats ticks ws id tok lease (d, n) = (None, (d', n + length ticks)%nat) /\ invariant d' /\
    jobs d' !! id = Some r' /\ held tok expires' r' /\ quiet id tok expires' (world (n + length ticks)) /\
    core r' = core r /\ state r' = state r /\ attempt_count r' = attempt_count r.
Proof.
  intros Hl Hv. induction ticks as [|b ticks IH]; intros d n r expires I Hr Hw Hh Hk.
  - destruct Hk as [Hq _]. exists d, r, expires. simpl. rewrite Nat.add_0_r. done.
  - destruct Hk as [(Hc & Hlt & Hb) Hk]. destruct (bystanders_keep id tok expires r _ d I Hr Hh Hb) as [I1 Hr1].
    set (d1 := happened _ d) in *. set (e := surroundings (world n)) in *.
    pose proof (held_owned e ws id tok expires d1 r Hr1 Hw Hh Hlt) as Ho.
    assert (on_world (fun e => Heartbeat e ws id tok lease) (d, n) = (Ok tt, (apply_event e (EvHeartbeat lease) id r d1, S n))) as Hx.
    { apply on_healthy; [done|]. fold e d1. rewrite Heartbeat_refines by done. unfold heartbeat_spec.
      by rewrite Hl, Hv, Ho, (hd_wanted _ _ _ Hh). }
    cbn [heartbeats bHeartbeat queue_backend]. rewrite Hx.
    assert (allowed e (EvHeartbeat lease) r = true) as Hev.
    { simpl. destruct (owned_Some _ _ _ _ _ _ Ho) as (_ & _ & _ & -> & ->). by rewrite (hd_wanted _ _ _ Hh). }
    destruct (IH (apply_event e (EvHeartbeat lease) id r d1) (S n) (heartbeat_row e lease r) (tx_now e + Microseconds lease * Microsecond))
      as (d' & r' & x' & Heq & I' & Hr' & Hh' & Hq' & Hcore & Hst & Hcnt); try done.
    + by apply invariant_apply.
    + simpl. by rewrite lookup_insert_eq.
    + by destruct Hh; split.
    + exists d', r', x'. rewrite Heq. cbn [length]. by rewrite <- plus_n_Sm.
Qed.

(** C33.  A worker that keeps its lease settles the job: with a valid
    configuration, the jitter of crypto/rand and a registered handler, for a job
    it has leased and whose cancellation is not asked for, while its context is
    not cancelled, its connection
    works and every call, heartbeats included, comes before the lease
    that the call before it left has expired, whatever others do in between to
    this and other jobs short of using the token, asking for the cancellation
    or recovering the lease after its time, however many heartbeats the
    handler takes, the worker reports no error and the job is afterwards in the
    state its handler's outcome calls for: succeeded, cancelled, waiting for a
    retry while attempts and retry age last, and dead-lettered otherwise (a
    panic is retryable, an invalid outcome is permanent). *)
Theorem process_settles w sch n d r l h expires : reachable d ->
  validConfig (config w) = true -> RetryMaximum (config w) <= max_int64 -> jitter w = None ->
  rand_contract (rand_int sch) -> 0 <= now_value sch -> ctx_done sch = false ->
  lease_job l = scanJob r -> jobs d !! ID (lease_job l) = Some r -> state r = Leased -> held (token l) expires r ->
  validateLeaseIdentity (WorkspaceID (lease_job l)) (ID (lease_job l)) (token l) = true ->
  quiet (ID (lease_job l)) (token l) expires (world n) ->
  kept (ID (lease_job l)) (token l) (LeaseDuration (config w)) (ticks sch) (S n) expires ->
  handlers w !! Kind (lease_job l) = Some h ->
  let out := process w sch l (d, n) in
  fst out = Ok tt /\ exists r', jobs (fst (snd out)) !! ID (lease_job l) = Some r' /\
    state r' = outcome_state w sch r (callHandler h (lease_job l)).
Proof.
  intros Hre Hc Hx Hj Hr Hn Hctx Hl Hlk Hs Hh Hv (Hcon & Hlt & Hby) Hk Hhd. pose proof (reachable_inv d Hre) as I.
  cbv zeta. unfold process. rewrite Hl in *. set (ws := WorkspaceID (scanJob r)) in *. set (id := ID (scanJob r)) in *.
  destruct (bystanders_keep id (token l) expires r _ d I Hlk Hh Hby) as [I1 Hr1].
  set (d1 := happened _ d) in *. set (e := surroundings (world n)) in *.
  pose proof (held_owned e ws id (token l) expires d1 r Hr1 eq_refl Hh Hlt) as Ho.
  cbn [bStart queue_backend]. erewrite on_healthy; [|exact Hcon|fold e d1; apply (start_ok e ws id (token l) d1 r); try done; apply Hh].
  rewrite Hhd, Hctx.
  assert (allowed e EvStart r = true) as Hev.
  { simpl. destruct (owned_Some _ _ _ _ _ _ Ho) as (_ & _ & _ & _ & ->). by rewrite Hs, (hd_wanted _ _ _ Hh). }
  destruct (heartbeats_keep ws id (token l) (LeaseDuration (config w)) (ticks sch)) with
    (d := apply_event e EvStart id r d1) (n := S n) (r := start_row e r) (expires := expires)
    as (d2 & r2 & x2 & Heq & I2 & Hr2 & Hh2 & (Hcon2 & Hlt2 & Hby2) & Hcore & Hst & Hcnt); try done.
  - unfold validConfig in Hc. simp_bool. by rewrite !(proj2 (Z.ltb_ge _ _)).
  - by apply invariant_apply.
  - simpl. by rewrite lookup_insert_eq.
  - by destruct Hh; split.
  - rewrite Heq. destruct (bystanders_keep id (token l) x2 r2 _ d2 I2 Hr2 Hh2 Hby2) as [I3 Hr3].
    assert (c_id (core r2) = id) as Hid by (by rewrite Hcore). assert (c_workspace_id (core r2) = ws) as Hws by (by rewrite Hcore).
    destruct (settle_running w sch (S n + length (ticks sch)) d2 (happened (others (world (S n + length (ticks sch)))) d2) r2 r (token l)) with (o := callHandler h (scanJob r)) as [H1 H2];
      rewrite ?Hid, ?Hws; try done.
    + by eapply held_owned.
    + apply Hh2.
    + split; [exact H1|]. by rewrite Hid in H2.
Qed.

End OnQueue.

End Worker.
