(* ===== verification/WorkerPool.v ===== *)
(** * The slots of a worker (Run of src/internal/jobqueue/worker.go)

    [Module WorkerPool] models [Run]: as many goroutines as the configuration
    says run [runSlot] on one backend, their iterations in any order; an error
    that is not the cancellation is sent to a channel that holds one for each
    slot and cancels the context of all of them; [Run] waits for every slot
    and answers.  What reaches the queue between two calls of an iteration,
    from other slots and other processes, is part of the backend
    ([Worker.moment]). *)

From S2P Require Import Prelude GoStrings Encoding Txn Json Queue Lifecycle QueueRefinement QueueTheorems Worker.

Local Open Scope Z_scope.

Module WorkerPool.
Import JobQueue QueueSpec QueueTheorems Worker.

Inductive ctx_end := Canceled | DeadlineExceeded.

Inductive slot := Running | Ended (e : worker_error) (canceled : bool).

(** [own_ctx] is the error of the derived context. *)
Record pool := { slots : list slot; own_ctx : option ctx_end; errorsFound : list worker_error }.

Definition opened (c : WorkerConfig) : pool := {|
  slots := repeat Running (Z.to_nat (Concurrency c)); own_ctx := None; errorsFound := [] |}.

(** The first cause stays. *)
Definition end_with (e : ctx_end) (o : option ctx_end) : option ctx_end := match o with None => Some e | Some x => Some x end.

(** After [runSlot] has returned: [canceled] is
    [errors.Is(err, context.Canceled)]; a full channel is left alone. *)
Definition finish (c : WorkerConfig) (i : nat) (e : worker_error) (canceled : bool) (p : pool) : pool := {|
  slots := <[i := Ended e canceled]> (slots p);
  own_ctx := if canceled then own_ctx p else end_with Canceled (own_ctx p);
  errorsFound := if negb canceled && (Z.of_nat (length (errorsFound p)) <? Concurrency c) then errorsFound p ++ [e]
                 else errorsFound p |}.

Inductive event :=
| ParentDone (e : ctx_end)
| Iterate (i : nat) (sch : schedule) (canceled : bool).

Section Run.
Context {S : Type} {B : queueBackend S} (w : WorkerState).

(** [None]: the event cannot happen; an iteration sees its context done only
    when it is. *)
Definition step (e : event) (p : pool) (s : S) : option (pool * S) :=
  match e with
  | ParentDone x => Some ({| slots := slots p; own_ctx := end_with x (own_ctx p); errorsFound := errorsFound p |}, s)
  | Iterate i sch canceled =>
      match slots p !! i with
      | Some Running =>
          if ctx_done sch && is_null (own_ctx p) then None
          else
            match slot_iteration w (slot_owner (config w) (Z.of_nat i)) sch s with
            | (None, s) => Some (p, s)
            | (Some e, s) => Some (finish (config w) i e canceled p, s)
            end
      | _ => None
      end
  end.

Fixpoint steps (l : list event) (p : pool) (s : S) : option (pool * S) :=
  match l with
  | [] => Some (p, s)
  | e :: l => match step e p s with Some (p, s) => steps l p s | None => None end
  end.

Definition ended (x : slot) : bool := match x with Ended _ _ => true | Running => false end.
Definition failed (x : slot) : bool := match x with Ended _ canceled => negb canceled | Running => false end.

(** What [Run] returns once [wait.Wait] has: an error of a slot, the error of
    the context, or nil. *)
Inductive answer := SlotError (e : worker_error) | ContextError (e : ctx_end) | Nil.

Definition answer_of (p : pool) : answer :=
  match errorsFound p with
  | e :: _ => SlotError e
  | [] => match own_ctx p with Some DeadlineExceeded => ContextError DeadlineExceeded | _ => Nil end
  end.

Definition Run (l : list event) (s : S) : option (answer * S) :=
  match steps l (opened (config w)) s with
  | Some (p, s) => if forallb ended (slots p) then Some (answer_of p, s) else None
  | None => None
  end.

(** ** The channel has room for every error *)

Definition failures (p : pool) : nat := length (List.filter failed (slots p)).

Record well_run (p : pool) : Prop := {
  wr_slots : Z.of_nat (length (slots p)) = Concurrency (config w);
  wr_errors : length (errorsFound p) = failures p;
  wr_known : forall e, In e (errorsFound p) -> In (Ended e false) (slots p);
  wr_told : errorsFound p <> [] -> own_ctx p <> None
}.

Lemma filter_insert {A} (f : A -> bool) (l : list A) i x y : l !! i = Some x -> f x = false ->
  length (List.filter f (<[i := y]> l)) = (length (List.filter f l) + if f y then 1 else 0)%nat.
Proof.
  revert i. induction l as [|a l IH]; intros [|i]; simpl; intros E Hx; simplify_eq.
  - rewrite Hx. destruct (f y); simpl; lia.
  - destruct (f a); simpl; rewrite (IH i) by done; lia.
Qed.

Lemma insert_In {A} (l : list A) i x y z : l !! i = Some x -> In z l -> z <> x -> In z (<[i := y]> l).
Proof.
  rewrite <- !list_elem_of_In, !list_elem_of_lookup. intros Hi [j Hj] Hz. exists j. rewrite list_lookup_insert_ne; [done|].
  intros <-. congruence.
Qed.

Lemma filter_short {A} (f : A -> bool) (l : list A) i x : l !! i = Some x -> f x = false ->
  (length (List.filter f l) < length l)%nat.
Proof.
  revert i. induction l as [|a l IH]; intros [|i]; simpl; intros E Hx; simplify_eq.
  - rewrite Hx. pose proof (List.filter_length_le f l). lia.
  - specialize (IH i E Hx). destruct (f a); simpl; lia.
Qed.

Lemma finish_well i e canceled p : well_run p -> slots p !! i = Some Running -> well_run (finish (config w) i e canceled p).
Proof.
  intros [Hs He Hk Ht] Hi. unfold finish. split; cbn [slots errorsFound own_ctx].
  - by rewrite length_insert.
  - unfold failures in *. cbn [slots]. rewrite (filter_insert _ _ _ Running) by done. cbn [failed].
    pose proof (filter_short failed _ _ _ Hi eq_refl) as Hlt.
    destruct canceled; cbn [negb andb]; [lia|].
    rewrite (proj2 (Z.ltb_lt _ _)) by lia. rewrite length_app. simpl. lia.
  - intros x Hx. assert (In x (errorsFound p) \/ x = e /\ canceled = false) as [Hin|[-> ->]].
    { destruct canceled; cbn in Hx; [by left|]. destruct (_ <? _); [|by left]. apply in_app_or in Hx as [?|[<-|[]]]; auto. }
    + eapply insert_In; [done|by apply Hk|done].
    + apply list_elem_of_In, list_elem_of_lookup. exists i. apply list_lookup_insert_eq. by eapply lookup_lt_Some.
  - destruct canceled; [done|]. intros _. by destruct (own_ctx p).
Qed.

Lemma step_well e p s p' s' : well_run p -> step e p s = Some (p', s') -> well_run p'.
Proof.
  intros Hp. destruct e as [x|i sch canceled]; cbn [step].
  - intros [= <- _]. destruct Hp as [Hs He Hk Ht]. split; try done. cbn. intros H%Ht. by destruct (own_ctx p).
  - destruct (slots p !! i) as [[|]|] eqn:Ei; [|done..]. destruct (_ && _); [done|].
    destruct (slot_iteration _ _ _ _) as [[x|] s1]; intros [= <- _]; [by apply finish_well|done].
Qed.

Lemma steps_well l : forall p s p' s', well_run p -> steps l p s = Some (p', s') -> well_run p'.
Proof.
  induction l as [|e l IH]; intros p s p' s' Hp; cbn [steps]; [by intros [= <- _]|].
  destruct (step e p s) as [[p1 s1]|] eqn:E; [|done]. eauto using step_well.
Qed.

Lemma opened_well : 0 <= Concurrency (config w) -> well_run (opened (config w)).
Proof.
  intros Hc. split; cbn [opened slots errorsFound]; [rewrite repeat_length; lia| |done|done].
  unfold failures. cbn [slots opened]. generalize (Z.to_nat (Concurrency (config w))). by induction n.
Qed.

Lemma filter_none {A} (f : A -> bool) (l : list A) x : List.filter f l = [] -> In x l -> f x = false.
Proof.
  intros Hn Hx. destruct (f x) eqn:E; [|done]. assert (In x (List.filter f l)) as H by (by apply filter_In). by rewrite Hn in H.
Qed.

Lemma answer_known p : well_run p -> forallb ended (slots p) = true ->
  match answer_of p with
  | SlotError e => In (Ended e false) (slots p)
  | ContextError e => own_ctx p = Some e /\ forall x, In x (slots p) -> exists e, x = Ended e true
  | Nil => own_ctx p <> Some DeadlineExceeded /\ forall x, In x (slots p) -> exists e, x = Ended e true
  end.
Proof.
  intros [Hs He Hk Ht] Hend. unfold answer_of. destruct (errorsFound p) as [|e l] eqn:E; [|apply Hk; by left].
  assert (forall x, In x (slots p) -> exists e, x = Ended e true) as Hall.
  { intros x Hx. rewrite forallb_forall in Hend. specialize (Hend x Hx). destruct x as [|y []]; [done|eauto|].
    unfold failures in He. symmetry in He. apply length_zero_iff_nil in He. by pose proof (filter_none _ _ _ He Hx). }
  destruct (own_ctx p) as [[]|]; done.
Qed.
End Run.

Section Queue.
Context {pg : Postgres} (world : nat -> moment) (w : WorkerState).

#[local] Existing Instance queue_backend.

Lemma step_leads e p s p' s' : step (B := queue_backend world) w e p s = Some (p', s') -> leads s s'.
Proof.
  destruct e as [x|i sch canceled]; cbn [step]; [intros [= _ <-]; apply leads_refl|].
  destruct (slots p !! i) as [[|]|]; [|done..]. destruct (_ && _); [done|].
  pose proof (slot_iteration_leads world w (slot_owner (config w) (Z.of_nat i)) sch s) as Hl.
  destruct (slot_iteration _ _ _ _) as [[x|] s1]; by intros [= _ <-].
Qed.

Lemma steps_lead l : forall p s p' s', steps (B := queue_backend world) w l p s = Some (p', s') -> leads s s'.
Proof.
  induction l as [|e l IH]; intros p s p' s'; cbn [steps]; [intros [= _ <-]; apply leads_refl|].
  destruct (step w e p s) as [[p1 s1]|] eqn:E; [|done]. intros Hl%IH. apply step_leads in E. by eapply leads_trans.
Qed.

(** C32.  The worker with all its slots: in whatever order the iterations of the slots
    follow each other and the context ends, and whatever operations of the
    queue come between two calls of an iteration, the queue moves along its own
    transition system only, so every guarantee of the queue holds while
    workers run; no error of a slot is dropped, although the send does not
    wait; a slot that failed has cancelled the context of the others; and
    once every slot has returned, the answer is the error of a slot that
    failed or, when none did, the deadline of the context or nil, and then
    every slot ended with the cancellation. *)
Theorem worker_run l d n p s' : 0 < Concurrency (config w) -> reachable d ->
  steps (B := queue_backend world) w l (opened (config w)) (d, n) = Some (p, s') ->
  reachable (fst s') /\ length (errorsFound p) = failures p /\ (failures p <> 0%nat -> own_ctx p <> None) /\
  (forallb ended (slots p) = true ->
   match answer_of p with
   | SlotError e => In (Ended e false) (slots p)
   | ContextError e => own_ctx p = Some e /\ forall x, In x (slots p) -> exists e, x = Ended e true
   | Nil => own_ctx p <> Some DeadlineExceeded /\ forall x, In x (slots p) -> exists e, x = Ended e true
   end).
Proof.
  intros Hc Hd Hl. assert (well_run w p) as Hp by (eapply steps_well; [apply opened_well; lia|done]).
  split_and!; [|apply (wr_errors w p Hp)| |by eapply answer_known].
  - apply steps_lead in Hl. unfold reachable in *. etrans; [exact Hd|exact Hl].
  - intros Hf. apply (wr_told w p Hp). intros E. apply Hf. by rewrite <- (wr_errors w p Hp), E.
Qed.
End Queue.

End WorkerPool.
