(* ===== verification/WorkerExamples.v ===== *)
(** * A concrete worker

    The worker theorems of Worker.v applied to one configuration and to the
    history of QueueExamples.v. *)

From S2P Require Import Prelude GoStrings Encoding Txn Json Queue Lifecycle QueueRefinement.
From S2P Require Import QueueTheorems QueueExamples Worker WorkerPool.

Local Open Scope Z_scope.

Module WorkerExamples.
Import JobQueue QueueSpec QueueTheorems QueueExamples Worker.

#[local] Existing Instance demo_pg.

Definition demo_config : WorkerConfig := {|
  w_Queue := "imports"; Owner := "worker"; Concurrency := 4; MaxInFlightPerWorkspace := 1;
  LeaseDuration := 30 * Second; HeartbeatInterval := 10 * Second; PollInterval := Second;
  RetryMinimum := Second; RetryMaximum := Hour; RetryMaximumAge := 24 * Hour |}.

(** A random source that always returns half of its range. *)
Definition middle (n : Z) : option Z := if 0 <? n then Some (n / 2) else None.

Lemma middle_contract : rand_contract middle.
Proof.
  intros n v. unfold middle. destruct (Z.ltb_spec 0 n); [|done]. intros [= <-].
  split; [apply Z.div_pos; lia|apply Z.div_lt; lia].
Qed.

Definition demo_handler : Handler := fun job =>
  Some {| o_Kind := OutcomeRetryable; o_Code := "blob_store_unavailable"; RetryAfter := 0 |}.

Definition demo_worker : WorkerState := {|
  config := demo_config; handlers := {["scan.import" := demo_handler]}; jitter := None |}.

Definition demo_schedule : schedule := {|
  ticks := []; ctx_done := false; now_value := t0 + 3 * Second; rand_int := middle |}.

Example demo_worker_accepted :
  is_ok (NewWorker demo_config [("scan.import", Some demo_handler)]) = true /\
  is_ok (NewWorker demo_config [("Bad Kind", Some demo_handler)]) = false /\
  is_ok (NewWorker demo_config [("scan.import", None)]) = false.
Proof. vm_compute. done. Qed.

Lemma retryDelay_exponential_witness : retryDelay 3 Second Hour = Z.min Hour (Second * 2 ^ (3 - 1)).
Proof. apply retryDelay_exponential; unfold Hour, Second, max_int64; lia. Defined.

Lemma jitter_within_half_witness :
  let upper := Z.min Hour (Second * 2 ^ (3 - 1)) in
  0 < jitteredRetryDelay middle 3 Second Hour <= upper /\
  upper / 2 <= jitteredRetryDelay middle 3 Second Hour.
Proof.
  apply (jitter_within_half middle 3 Second Hour middle_contract); unfold Hour, Second, max_int64; lia.
Defined.

Lemma slots_can_acquire_witness : validAcquire "imports" "worker-3" (30 * Second) 1 = true.
Proof. apply (slots_can_acquire demo_config 3); [vm_compute; reflexivity|simpl; lia]. Defined.

Lemma retry_wait_bounds_witness :
  let delay := retry_wait demo_worker demo_schedule 3 Hour (10 * Second) in
  0 < delay <= Hour /\ delay <= Hour /\ (10 * Second <= Hour -> 10 * Second <= Hour -> 10 * Second <= delay).
Proof.
  apply (retry_wait_bounds demo_worker demo_schedule 3 Hour (10 * Second));
    [vm_compute; reflexivity|vm_compute; discriminate|reflexivity|exact middle_contract|lia|].
  unfold Hour, Second. lia.
Defined.

(** A backend that grants everything. *)
Definition granted (_ : list call) (_ : call) : result error unit := Ok tt.

Lemma process_protocol_witness :
  let out := process (B := recorder granted (fun _ => Ok None) (fun _ => Ok RetryWait))
               demo_worker demo_schedule the_lease [] in
  protocol demo_worker 0 the_lease (fst out) [] (snd out).
Proof.
  apply (process_protocol granted (fun _ => Ok None) (fun _ => Ok RetryWait)
           demo_worker demo_schedule the_lease []);
    [vm_compute; reflexivity|vm_compute; discriminate|reflexivity|exact middle_contract|
     vm_compute; discriminate|vm_compute; discriminate].
Defined.

Definition demo_world (n : nat) : moment := {| others := []; surroundings := env_c; connection := [] |}.

Lemma worker_simulates_queue_witness :
  reachable (fst (snd (runSlot (B := queue_backend demo_world) demo_worker "worker-0"
                         [demo_schedule; demo_schedule] (two_jobs, 0%nat)))).
Proof. apply worker_simulates_queue. exact two_jobs_reachable. Defined.

(** Four slots: the first one works, the context is cancelled, all return. *)
Definition stopping : schedule := {| ticks := []; ctx_done := true; now_value := t0 + 3 * Second; rand_int := middle |}.

Definition shift : list WorkerPool.event :=
  [WorkerPool.Iterate 0 demo_schedule false; WorkerPool.ParentDone WorkerPool.Canceled; WorkerPool.Iterate 2 stopping true;
   WorkerPool.Iterate 0 stopping true; WorkerPool.Iterate 3 stopping true; WorkerPool.Iterate 1 stopping true].

Definition shifted : option (WorkerPool.pool * (database * nat)) :=
  WorkerPool.steps (B := queue_backend demo_world) demo_worker shift (WorkerPool.opened demo_config) (two_jobs, 0%nat).

Definition the_pool : WorkerPool.pool := {|
  WorkerPool.slots := repeat (WorkerPool.Ended ContextDone true) 4; WorkerPool.own_ctx := Some WorkerPool.Canceled;
  WorkerPool.errorsFound := [] |}.

Definition left_behind : database * nat := default (two_jobs, 0%nat) (option_map snd shifted).

Lemma shift_possible :
  WorkerPool.steps (B := queue_backend demo_world) demo_worker shift (WorkerPool.opened (config demo_worker)) (two_jobs, 0%nat) =
  Some (the_pool, left_behind).
Proof.
  change (shifted = Some (the_pool, left_behind)).
  assert (option_map fst shifted = Some the_pool) as H by (vm_compute; reflexivity).
  revert H. unfold left_behind. destruct shifted as [[p s]|]; [|done]. by intros [= ->].
Qed.

Lemma worker_run_witness : reachable (fst left_behind) /\
  WorkerPool.answer_of the_pool = WorkerPool.Nil /\
  forall x, In x (WorkerPool.slots the_pool) -> exists e, x = WorkerPool.Ended e true.
Proof.
  destruct (WorkerPool.worker_run demo_world demo_worker shift two_jobs 0%nat the_pool left_behind eq_refl two_jobs_reachable
              shift_possible) as (Hr & _ & _ & Ha).
  split; [exact Hr|]. split; [reflexivity|]. apply (Ha eq_refl).
Defined.

(** A slot whose connection fails stops the others. *)
Definition broken_world (n : nat) : moment := {| others := []; surroundings := env_c; connection := [Broken] |}.

Example slot_fails :
  option_map fst (WorkerPool.Run (B := queue_backend broken_world) demo_worker
    [WorkerPool.Iterate 1 demo_schedule false; WorkerPool.Iterate 2 demo_schedule true; WorkerPool.Iterate 0 demo_schedule true;
     WorkerPool.Iterate 3 demo_schedule false] (two_jobs, 0%nat)) =
  Some (WorkerPool.SlotError (QueueError (ErrDatabase "begin lease"))).
Proof. vm_compute. reflexivity. Qed.

(** A handler that takes two heartbeats, while another job is enqueued and
    leases are recovered. *)
Definition busy_schedule : schedule := {|
  ticks := [false; false]; ctx_done := false; now_value := t0 + 3 * Second; rand_int := middle |}.

Definition busy_world (n : nat) : moment := {|
  others := [(env_b, OpEnqueue (demo_spec "third"), []); (env_c, OpRecoverExpired "imports" 10 Second, [Healthy])];
  surroundings := env_c; connection := [] |}.

Definition lease_end : time := Eval vm_compute in default 0 (lease_expires_at (job_in leased_db id_a)).

Lemma busy_quiet : quiet (ID (lease_job the_lease)) (token the_lease) lease_end (busy_world 0).
Proof. split; [done|]. split; [vm_compute; done|]. repeat constructor. Qed.

Lemma process_settles_witness :
  let out := process (B := queue_backend busy_world) demo_worker busy_schedule the_lease (leased_db, 0%nat) in
  fst out = Ok tt /\ exists r', jobs (fst (snd out)) !! ID (lease_job the_lease) = Some r' /\
    state r' = outcome_state demo_worker busy_schedule (job_in leased_db id_a)
                 (callHandler demo_handler (lease_job the_lease)).
Proof.
  apply (process_settles busy_world demo_worker busy_schedule 0 leased_db (job_in leased_db id_a) the_lease demo_handler lease_end
           leased_reachable).
  1: vm_compute; reflexivity.
  1: vm_compute; discriminate.
  1: reflexivity.
  1: exact middle_contract.
  1: vm_compute; discriminate.
  1: reflexivity.
  1: vm_compute; reflexivity.
  1: apply job_in_lookup; vm_compute; reflexivity.
  1: vm_compute; reflexivity.
  1: split; vm_compute; reflexivity.
  1: vm_compute; reflexivity.
  1: exact busy_quiet.
  1: split; [exact busy_quiet|]; split; [|split; [|exact I]]; (split; [done|]); (split; [vm_compute; done|]); repeat constructor.
  vm_compute; reflexivity.
Defined.

(** The retry the worker asked for. *)
Example demo_retry : outcome_state demo_worker demo_schedule (job_in leased_db id_a)
                       (callHandler demo_handler (lease_job the_lease)) = RetryWait.
Proof. vm_compute. reflexivity. Qed.

End WorkerExamples.
