(* ===== verification/Blobstore.v ===== *)
(** * Blob keys, options and streams
    (src/internal/blobstore/blobstore.go and stream.go)

    [Module Blobstore] models the opaque keys, the option checks and the two
    stream wrappers.  A Go [io.Reader] is a state and a function that, given
    the length of the buffer, returns the bytes it delivers and an error; the
    running hash is the string of the bytes hashed so far.  Sizes and limits
    are 64-bit integers with wrap-around, and a slice expression out of range
    is a panic. *)

From S2P Require Import Prelude GoStrings Encoding.
From Stdlib Require Import Ascii.

Local Open Scope Z_scope.

Module Blobstore.

Inductive error :=
| ErrAlreadyExists
| ErrBackend (operation : string)
| ErrDeadline
| ErrIntegrity
| ErrInvalidKey
| ErrInvalidOptions
| ErrNotFound
| ErrTooLarge
| ErrVersion
| ErrCanceled                 (* context.Canceled *)
| ErrNotConsumed              (* errors.New("blob stream was not consumed") *)
| EOF                         (* io.EOF *)
| ErrSource (code : string).  (* any other error of a wrapped stream *)

#[global] Instance error_eq_dec : EqDecision error.
Proof. solve_decision. Defined.

Definition is_EOF (e : option error) : bool := bool_decide (e = Some EOF).

(** ** Keys *)

Definition Key : Type := string.

Definition keyPattern (value : string) : bool := match_prefixed "blb_" base32_char 52 value.

(** [NewKey] with the bytes [rand.Read] delivered, if it did. *)
Definition NewKey (random : option string) : result error Key :=
  match random with
  | Some bytes => Ok (encode_id "blb_" bytes)
  | None => Err (ErrBackend "generate blob key")
  end.

Definition ParseKey (value : string) : result error Key :=
  guard! keyPattern value else ErrInvalidKey in Ok value.

Definition Valid (k : Key) : bool := keyPattern k.

Record Metadata := {
  m_Key : Key; m_Size : Z; m_SHA256 : string; m_Version : string; m_BackendVersion : string;
  m_CommittedAt : time
}.

(** ** Options *)

Record PutOptions := {
  MaxBytes : Z; Timeout : duration; ExpectedSize : option Z; ExpectedSHA256 : string
}.

Definition validSHA256 (value : string) : bool := (slen value =? 64) && sforallb hex_lower value.

(** A nil reader is [source_present = false]. *)
Definition ValidatePutOptions (key : Key) (source_present : bool) (options : PutOptions) : result error unit :=
  guard! Valid key else ErrInvalidKey in
  guard! source_present && (0 <? MaxBytes options) && (0 <? Timeout options) else ErrInvalidOptions in
  guard! match ExpectedSize options with
         | Some size => (0 <=? size) && (size <=? MaxBytes options)
         | None => true
         end else ErrInvalidOptions in
  guard! String.eqb (ExpectedSHA256 options) "" || validSHA256 (ExpectedSHA256 options)
    else ErrInvalidOptions in
  Ok tt.

Definition VerifyExpected (size : Z) (digest : string) (options : PutOptions) : result error unit :=
  guard! match ExpectedSize options with Some expected => size =? expected | None => true end
    else ErrIntegrity in
  guard! String.eqb (ExpectedSHA256 options) "" || String.eqb digest (ExpectedSHA256 options)
    else ErrIntegrity in
  Ok tt.

(** What [ctx.Err()] can be; [ContextError] translates it. *)
Inductive ctx_state := Live | DeadlineExceeded | CanceledCtx.

Definition ContextError (c : ctx_state) : option error :=
  match c with
  | Live => None
  | DeadlineExceeded => Some ErrDeadline
  | CanceledCtx => Some ErrCanceled
  end.

(** ** Streams *)

Section Readers.
Context {St : Type}.

(** [Read] of the wrapped stream: the bytes put into a buffer of that length,
    and the error. *)
Variable read : Z -> St -> string * option error * St.

(** [ctx.Err()] at the [k]-th time it is looked at. *)
Variable ctx : nat -> ctx_state.

Record BoundedReader := {
  source : St;
  checks : nat;          (* how often the context was looked at *)
  hashed : string;       (* the bytes written to the hash *)
  maxBytes : Z;
  size : Z;
  finished : bool;
  err : option error
}.

Definition NewBoundedReader (s : St) (max : Z) : BoundedReader :=
  {| source := s; checks := 0; hashed := ""; maxBytes := max; size := 0; finished := false; err := None |}.

(** A panic, or the bytes returned, the error and the reader afterwards. *)
Definition outcome : Type := option (string * option error * BoundedReader).

Definition with_err (r : BoundedReader) (s : St) (n : nat) (e : error) : BoundedReader :=
  {| source := s; checks := n; hashed := hashed r; maxBytes := maxBytes r; size := size r;
     finished := finished r; err := Some e |}.

Definition Read (r : BoundedReader) (len : Z) : outcome :=
  match err r with
  | Some e => Some ("", Some e, r)
  | None =>
  if finished r then Some ("", Some EOF, r)
  else match ContextError (ctx (checks r)) with
  | Some e => Some ("", Some e, with_err r (source r) (checks r + 1) e)
  | None =>
  let remaining := wrap64 (maxBytes r - size r) in
  let limit := wrap64 (remaining + 1) in
  let cut := limit <? len in
  if cut && (limit <? 0) then None            (* slice bounds out of range *)
  else
    let '(bytes, e, s) := read (if cut then limit else len) (source r) in
    match ContextError (ctx (checks r + 1)) with
    | Some ce => Some ("", Some ce, with_err r s (checks r + 2) ce)
    | None =>
        if remaining <? slen bytes then
          Some ("", Some ErrTooLarge, with_err r s (checks r + 2) ErrTooLarge)
        else
          Some (bytes, e,
            {| source := s; checks := checks r + 2; hashed := hashed r +:+ bytes;
               maxBytes := maxBytes r; size := wrap64 (size r + slen bytes);
               finished := finished r || is_EOF e;
               err := match e with
                      | Some x => if is_EOF e then None else Some x
                      | None => None
                      end |})
    end
  end
  end.

Definition Result (r : BoundedReader) : result error (Z * string) :=
  match err r with
  | Some e => Err e
  | None => guard! finished r else ErrNotConsumed in Ok (size r, hex_encode (sha256 (hashed r)))
  end.

(** [io.Copy] into a writer that takes everything: the bytes written and the
    error that stopped it.  [io.Copy] allocates a 32 KiB buffer; [io.Discard]
    brings its own of 8 KiB.  The fuel bounds the number of reads. *)
Definition copy_buffer : Z := 32 * 1024.
Definition discard_buffer : Z := 8 * 1024.

Inductive copy_result :=
| CopyPanic
| CopyOutOfFuel
| Copied (written : string) (e : option error) (r : BoundedReader).

Fixpoint Copy (buffer : Z) (fuel : nat) (r : BoundedReader) (written : string) : copy_result :=
  match fuel with
  | O => CopyOutOfFuel
  | S fuel =>
      match Read r buffer with
      | None => CopyPanic
      | Some (bytes, None, r) => Copy buffer fuel r (written +:+ bytes)
      | Some (bytes, Some e, r) =>
          Copied (written +:+ bytes) (if is_EOF (Some e) then None else Some e) r
      end
  end.

(** ** The verified reader *)

Record verifiedReader := {
  v_source : St; v_checks : nat; v_hashed : string; v_size : Z;
  expectedSize : Z; expectedSHA256 : string; v_finished : bool
}.

Definition NewVerifiedReader (s : St) (size : Z) (digest : string) : verifiedReader :=
  {| v_source := s; v_checks := 0; v_hashed := ""; v_size := 0; expectedSize := size;
     expectedSHA256 := digest; v_finished := false |}.

Definition VRead (r : verifiedReader) (len : Z) : string * option error * verifiedReader :=
  if v_finished r then ("", Some EOF, r)
  else match ContextError (ctx (v_checks r)) with
  | Some e =>
      ("", Some e,
       {| v_source := v_source r; v_checks := v_checks r + 1; v_hashed := v_hashed r; v_size := v_size r;
          expectedSize := expectedSize r; expectedSHA256 := expectedSHA256 r; v_finished := false |})
  | None =>
      let '(bytes, e, s) := read len (v_source r) in
      let hashed := v_hashed r +:+ bytes in
      let size := if 0 <? slen bytes then wrap64 (v_size r + slen bytes) else v_size r in
      let after fin :=
        {| v_source := s; v_checks := v_checks r + 1; v_hashed := hashed; v_size := size;
           expectedSize := expectedSize r; expectedSHA256 := expectedSHA256 r; v_finished := fin |} in
      if (0 <? slen bytes) && (expectedSize r <? size) then (bytes, Some ErrIntegrity, after true)
      else if is_EOF e then
        if negb (size =? expectedSize r) ||
           negb (String.eqb (hex_encode (sha256 hashed)) (expectedSHA256 r))
        then (bytes, Some ErrIntegrity, after true)
        else (bytes, e, after true)
      else (bytes, e, after false)
  end.

(** [io.ReadAll]: reads with buffers of whatever positive length until an
    error; [EOF] is success. *)
Fixpoint ReadAll (bufs : list Z) (r : verifiedReader) (acc : string)
  : option (result error string * verifiedReader) :=
  match bufs with
  | [] => None
  | len :: bufs =>
      let '(bytes, e, r) := VRead r len in
      match e with
      | None => ReadAll bufs r (acc +:+ bytes)
      | Some e => Some (if is_EOF (Some e) then Ok (acc +:+ bytes) else Err e, r)
      end
  end.
End Readers.

(** ** Keys *)

Lemma key_of_bytes bytes : slen bytes = 32 -> keyPattern (encode_id "blb_" bytes) = true.
Proof.
  intros H. unfold keyPattern, match_prefixed, encode_id. rewrite strip_prefix_app, encode_id_class.
  by rewrite base32_encode_length, H.
Qed.

(** Generated keys are accepted wherever keys are checked, hold no path
    separator, and two keys are equal only for equal random bytes. *)
Theorem generated_keys bytes bytes' : slen bytes = 32 -> slen bytes' = 32 ->
  exists k, NewKey (Some bytes) = Ok k /\ ParseKey k = Ok k /\ Valid k = true /\
    sforallb (fun c => negb (is_byte 47 c) && negb (is_byte 92 c) && negb (is_byte 46 c)) k = true /\
    (NewKey (Some bytes') = Ok k -> bytes' = bytes).
Proof.
  intros H H'. exists (encode_id "blb_" bytes). unfold ParseKey, Valid. rewrite key_of_bytes by done.
  split_and!; try done.
  - unfold encode_id. rewrite sforallb_app. simpl.
    eapply sforallb_impl; [|apply encode_id_class]. intros c Hc.
    unfold base32_char, is_lower, between, is_byte in *.
    rewrite !andb_true_iff, !negb_true_iff, !Z.eqb_neq.
    apply orb_true_iff in Hc as [Hc|Hc]; simp_bool; lia.
  - simpl. intros [= E]. by apply encode_id_inj in E; [|lia].
Qed.

(** ** Bounded streams *)

Section Bounded.
Context {St : Type} (read : Z -> St -> string * option error * St) (ctx : nat -> ctx_state).

(** The contract of [io.Reader]: at most as many bytes as the buffer holds. *)
Definition reader_contract : Prop := forall n s, 0 <= n -> slen (fst (fst (read n s))) <= n.

Record bounded_ok (max : Z) (r : @BoundedReader St) : Prop := {
  ok_max : maxBytes r = max;
  ok_size : size r = slen (hashed r);
  ok_limit : slen (hashed r) <= max
}.

Lemma wrap_small z : 0 <= z <= max_int64 -> wrap64 z = z.
Proof. intros H. apply wrap64_id. unfold in_int64, min_int64, max_int64 in *. lia. Qed.

Lemma ContextError_not_EOF c : ContextError c <> Some EOF.
Proof. by destruct c. Qed.

(** One read keeps the count, the hash and the limit. *)
Lemma Read_ok max r len : reader_contract -> 0 < max < max_int64 -> 0 <= len -> bounded_ok max r ->
  exists bytes e r', Read read ctx r len = Some (bytes, e, r') /\ bounded_ok max r' /\
    hashed r' = hashed r +:+ bytes /\
    (err r = None -> e = None \/ e = Some EOF -> err r' = None /\ (e = Some EOF -> finished r' = true)).
Proof.
  intros Hc Hm Hl [H1 H2 H3]. unfold Read.
  pose proof (slen_nonneg (hashed r)) as Hp.
  assert (forall s n x, bounded_ok max (with_err r s n x)) as Hw by done.
  destruct (err r) as [x|] eqn:He; [eexists "", _, r; rewrite append_nil_r; split_and!; done|].
  destruct (finished r) eqn:Hf; [eexists "", _, r; rewrite append_nil_r; split_and!; done|].
  destruct (ContextError (ctx (checks r))) as [x|] eqn:Hx.
  { eexists "", _, _. rewrite append_nil_r. split_and!; try done.
    intros _ [?|[= ->]]; [done|]. by apply ContextError_not_EOF in Hx. }
  rewrite H1, H2, (wrap_small (max - slen (hashed r))), (wrap_small (max - slen (hashed r) + 1)) by lia.
  rewrite (proj2 (Z.ltb_ge (max - slen (hashed r) + 1) 0)) by lia. rewrite andb_false_r.
  set (n := if max - slen (hashed r) + 1 <? len then max - slen (hashed r) + 1 else len).
  assert (0 <= n) as Hn by (unfold n; destruct (_ <? len); lia).
  pose proof (Hc n (source r) Hn) as Hb. destruct (read n (source r)) as [[bytes e] s']. simpl in Hb.
  destruct (ContextError (ctx (checks r + 1))) as [x|] eqn:Hx'.
  { eexists "", _, _. rewrite append_nil_r. split_and!; try done.
    intros _ [?|[= ->]]; [done|]. by apply ContextError_not_EOF in Hx'. }
  destruct (Z.ltb_spec (max - slen (hashed r)) (slen bytes)).
  { eexists "", _, _. rewrite append_nil_r. split_and!; try done. by intros _ [?|?]. }
  pose proof (slen_nonneg bytes).
  eexists bytes, e, _. split_and!; [done| |done|].
  - split; simpl; [done| |]; rewrite slen_app; [rewrite wrap_small; lia|lia].
  - intros _ [->| ->]; simpl; [done|]. done.
Qed.

Lemma Copy_ok buffer max fuel : reader_contract -> 0 <= buffer -> 0 < max < max_int64 -> forall r, bounded_ok max r ->
  match Copy read ctx buffer fuel r (hashed r) with
  | CopyPanic => False
  | CopyOutOfFuel => True
  | Copied written e r' =>
      bounded_ok max r' /\ written = hashed r' /\
      (e = None -> err r = None -> err r' = None /\ finished r' = true)
  end.
Proof.
  intros Hc Hbuf Hm. induction fuel as [|fuel IH]; intros r Hr; [done|]. cbn [Copy].
  destruct (Read_ok max r buffer Hc Hm Hbuf Hr) as (bytes & e & r' & -> & Hr' & Hh & He).
  destruct e as [e|].
  - split_and!; [done|done|]. intros Hn Hr0.
    unfold is_EOF in Hn. destruct (bool_decide (Some e = Some EOF)) eqn:E; [|done]. simp_bool.
    destruct He; auto.
  - rewrite <- Hh. specialize (IH r' Hr'). destruct (Copy read ctx buffer fuel r' (hashed r')); [done|done|].
    destruct IH as (? & ? & Hi). split_and!; try done. intros Hn Hr0. apply Hi; [done|].
    by apply He; [|left].
Qed.

Lemma copy_result_ok buffer s max fuel : reader_contract -> 0 <= buffer -> 0 < max < max_int64 ->
  match Copy read ctx buffer fuel (NewBoundedReader s max) "" with
  | CopyPanic => False
  | CopyOutOfFuel => True
  | Copied written e r =>
      slen written <= max /\
      (e = None -> Result r = Ok (slen written, hex_encode (sha256 written)))
  end.
Proof.
  intros Hc Hbuf Hm. pose proof (Copy_ok buffer max fuel Hc Hbuf Hm (NewBoundedReader s max)) as H. simpl hashed in H.
  specialize (H ltac:(split; simpl; unfold slen; simpl; lia)).
  destruct (Copy _ _ _ _ _ _) as [| |written e r]; [done|done|].
  destruct H as ([H1 H2 H3] & -> & Hn). split; [done|]. intros ->.
  destruct Hn as [He Hf]; [done|done|]. unfold Result. by rewrite He, Hf, H2.
Qed.

(** A bounded stream is what it says: copying any reader that respects
    the [io.Reader] contract through it never panics and never delivers more
    than the limit, and when the copy succeeds the reported size and digest
    are those of exactly the bytes that were written. *)
Theorem bounded_copy_exact s max fuel : reader_contract -> 0 < max < max_int64 ->
  match Copy read ctx copy_buffer fuel (NewBoundedReader s max) "" with
  | CopyPanic => False
  | CopyOutOfFuel => True
  | Copied written e r =>
      slen written <= max /\
      (e = None -> Result r = Ok (slen written, hex_encode (sha256 written)))
  end.
Proof. intros. by apply copy_result_ok. Qed.
End Bounded.

(** ** Reading a string: [strings.Reader] and in-memory bodies *)

Fixpoint stake (n : nat) (s : string) : string :=
  match n, s with S n, String c s => String c (stake n s) | _, _ => "" end.
Fixpoint sdrop (n : nat) (s : string) : string :=
  match n, s with S n, String _ s => sdrop n s | _, _ => s end.

Definition string_reader (n : Z) (s : string) : string * option error * string :=
  if String.eqb s "" then ("", Some EOF, "")
  else (stake (Z.to_nat n) s, None, sdrop (Z.to_nat n) s).

Lemma stake_sdrop n s : stake n s +:+ sdrop n s = s.
Proof. revert s. induction n as [|n IH]; intros [|c s]; try done.
  change (String c (stake n s +:+ sdrop n s) = String c s). by rewrite IH.
Qed.

Lemma stake_length n s : slen (stake n s) = Z.min (Z.of_nat n) (slen s).
Proof.
  revert s. unfold slen. induction n as [|n IH]; intros [|c s]; try done; cbn [stake String.length]; [lia..|].
  specialize (IH s). lia.
Qed.

Lemma string_reader_contract : reader_contract string_reader.
Proof.
  intros n s Hn. unfold string_reader. destruct (String.eqb s ""); simpl; [done|].
  rewrite stake_length. lia.
Qed.

Definition live (_ : nat) : ctx_state := Live.

Lemma slen_empty s : slen s <= 0 -> s = "".
Proof. unfold slen. destruct s; simpl; [done|lia]. Qed.

(** A read of a bounded string either ends it, delivers a non-empty piece, or
    finds it too long. *)
Lemma string_Read max r : 0 < max < max_int64 -> bounded_ok max r -> err r = None -> finished r = false ->
  exists bytes e r', Read string_reader live r copy_buffer = Some (bytes, e, r') /\
    ((source r = "" /\ e = Some EOF /\ bytes = "") \/
     (source r <> "" /\ e = Some ErrTooLarge /\ bytes = "" /\ max < slen (hashed r +:+ source r)) \/
     (e = None /\ err r' = None /\ finished r' = false /\ bytes +:+ source r' = source r /\ 1 <= slen bytes)).
Proof.
  intros Hm [H1 H2 H3] He Hf. pose proof (slen_nonneg (hashed r)). unfold Read. rewrite He, Hf. simpl.
  rewrite H1, H2, (wrap_small (max - slen (hashed r))), (wrap_small (max - slen (hashed r) + 1)) by lia.
  rewrite (proj2 (Z.ltb_ge (max - slen (hashed r) + 1) 0)) by lia. rewrite andb_false_r.
  set (n := if max - slen (hashed r) + 1 <? copy_buffer then max - slen (hashed r) + 1 else copy_buffer).
  assert (1 <= n <= max - slen (hashed r) + 1) as Hn
    by (unfold n, copy_buffer; destruct (Z.ltb_spec (max - slen (hashed r) + 1) (32 * 1024)); lia).
  unfold string_reader. destruct (String.eqb_spec (source r) "") as [E|E].
  { change (slen "") with 0. rewrite (proj2 (Z.ltb_ge _ 0)) by lia. eexists _, _, _. split; [done|]. by left. }
  assert (1 <= slen (source r)) as Hs.
  { destruct (Z.le_gt_cases 1 (slen (source r))); [done|]. destruct E. apply slen_empty. lia. }
  rewrite stake_length, Z2Nat.id by lia.
  destruct (Z.ltb_spec (max - slen (hashed r)) (Z.min n (slen (source r)))).
  - eexists _, _, _. split; [done|]. right. left. rewrite slen_app. split_and!; [done|done|done|lia].
  - eexists _, _, _. split; [done|]. right. right. simpl.
    split_and!; [done|done|done|apply stake_sdrop|]. rewrite stake_length, Z2Nat.id by lia. lia.
Qed.

Lemma copy_string c max fuel : 0 < max < max_int64 -> (String.length c < fuel)%nat ->
  exists written e r, Copy string_reader live copy_buffer fuel (NewBoundedReader c max) "" = Copied written e r /\
    (slen c <= max -> written = c /\ e = None) /\ (max < slen c -> e = Some ErrTooLarge).
Proof.
  intros Hm Hfuel.
  assert (forall fuel r, (String.length (source r) < fuel)%nat -> bounded_ok max r -> err r = None ->
    finished r = false -> exists written e r', Copy string_reader live copy_buffer fuel r (hashed r) = Copied written e r' /\
      (slen (hashed r +:+ source r) <= max -> written = hashed r +:+ source r /\ e = None) /\
      (max < slen (hashed r +:+ source r) -> e = Some ErrTooLarge)) as Hgen.
  { clear fuel Hfuel. induction fuel as [|fuel IH]; intros r Hf Hr He Hfin; [lia|]. cbn [Copy].
    destruct (Read_ok string_reader live max r copy_buffer string_reader_contract Hm) as
      (b0 & e0 & r0 & Hread0 & Hr0 & Hh0 & _); [unfold copy_buffer; lia|done|].
    destruct (string_Read max r Hm Hr He Hfin) as (bytes & e & r' & Hread & Hcases).
    rewrite Hread in Hread0. injection Hread0 as <- <- <-. rewrite Hread.
    destruct Hcases as [(Hs & -> & ->)|[(Hs & -> & -> & Hbig)|(-> & He' & Hf' & Hsplit & Hb)]].
    - simpl. eexists _, _, _. split; [done|]. rewrite Hs, append_nil_r.
      destruct Hr as [_ _ Hlim]. split; [done|lia].
    - simpl. eexists _, _, _. split; [done|]. split; [lia|done].
    - rewrite <- Hh0. assert (slen (source r) = slen bytes + slen (source r')) as Hl
        by (by rewrite <- Hsplit, slen_app).
      destruct (IH r') as (written & e & r'' & -> & H1 & H2); try done; [unfold slen in *; lia|].
      rewrite Hh0, append_assoc, Hsplit in H1, H2.
      eexists _, _, _. split; [done|]. split; [exact H1|exact H2]. }
  destruct (Hgen fuel (NewBoundedReader c max)) as (written & e & r & H); try done.
  - split; simpl; unfold slen; simpl; lia.
  - exists written, e, r. exact H.
Qed.

(** C40.  Copying terminates and is complete for every limit from 1 to
    math.MaxInt64 - 1: a string of any length is then copied whole when it fits the
    limit and rejected as too large when it does not, within one read per byte
    and one for the end.  At math.MaxInt64 itself the first read panics
    ([unbounded_limit_panics], and a finding). *)
Theorem bounded_copy_total c max fuel : 0 < max < max_int64 -> (String.length c < fuel)%nat ->
  exists written e r, Copy string_reader live copy_buffer fuel (NewBoundedReader c max) "" = Copied written e r /\
    (slen c <= max -> written = c /\ e = None) /\ (max < slen c -> e = Some ErrTooLarge).
Proof. apply copy_string. Qed.

(** A limit of [math.MaxInt64] is accepted by [ValidatePutOptions] but
    makes the first read of the bounded stream panic: [remaining+1] wraps to a
    negative slice bound. *)
Theorem unbounded_limit_panics {St} (read : Z -> St -> string * option error * St) (ctx : nat -> ctx_state)
  (s : St) (len : Z) (key : Key) (options : PutOptions) :
  MaxBytes options = max_int64 -> Valid key = true -> 0 < Timeout options -> ExpectedSize options = None ->
  ExpectedSHA256 options = "" -> ctx 0%nat = Live -> 0 <= len ->
  ValidatePutOptions key true options = Ok tt /\
  Read read ctx (NewBoundedReader s (MaxBytes options)) len = None.
Proof.
  intros Hm Hk Ht Hs Hd Hc Hl. split.
  - unfold ValidatePutOptions. rewrite Hk, Hs, Hd, Hm, (proj2 (Z.ltb_lt _ _) Ht). done.
  - unfold Read. simpl. rewrite Hc, Hm. simpl.
    change (wrap64 (wrap64 (max_int64 - 0) + 1)) with min_int64.
    rewrite (proj2 (Z.ltb_lt min_int64 len)), (proj2 (Z.ltb_lt min_int64 0)) by (unfold min_int64; lia).
    done.
Qed.

(** ** Verified streams *)

Section Verified.
Context {St : Type} (read : Z -> St -> string * option error * St) (ctx : nat -> ctx_state).

Record verified_ok (n : Z) (digest : string) (acc : string) (r : @verifiedReader St) : Prop := {
  vok_hashed : v_hashed r = acc;
  vok_size : v_size r = slen acc;
  vok_expected : expectedSize r = n;
  vok_digest : expectedSHA256 r = digest;
  vok_open : v_finished r = false;
  vok_limit : slen acc <= n
}.

(** A buffer whose length cannot overflow the byte count. *)
Definition buffer_ok (n len : Z) : Prop := 0 <= len /\ n + len <= max_int64.

Lemma VRead_ok n digest acc r len : reader_contract read -> buffer_ok n len -> verified_ok n digest acc r ->
  let '(bytes, e, r') := VRead read ctx r len in
  match e with
  | None => verified_ok n digest (acc +:+ bytes) r'
  | Some EOF => slen (acc +:+ bytes) = n /\ hex_encode (sha256 (acc +:+ bytes)) = digest
  | Some _ => True
  end.
Proof.
  intros Hc [Hl Ho] [H1 H2 H3 H4 H5 H6]. unfold VRead. rewrite H5, H1, H2, H3, H4.
  pose proof (slen_nonneg acc).
  destruct (ContextError (ctx (v_checks r))) as [x|] eqn:Hx.
  { by destruct x; try done; apply ContextError_not_EOF in Hx. }
  pose proof (Hc len (v_source r) Hl) as Hb. destruct (read len (v_source r)) as [[bytes e] s'].
  simpl in Hb. pose proof (slen_nonneg bytes).
  assert ((if 0 <? slen bytes then wrap64 (slen acc + slen bytes) else slen acc) = slen (acc +:+ bytes)) as ->.
  { rewrite slen_app. destruct (Z.ltb_spec 0 (slen bytes)); [rewrite wrap_small; lia|lia]. }
  destruct (_ && _) eqn:Hbig; [done|]. apply andb_false_iff in Hbig.
  assert (slen (acc +:+ bytes) <= n) as Hle.
  { rewrite slen_app in *. destruct Hbig; simp_bool; lia. }
  destruct (is_EOF e) eqn:He.
  - unfold is_EOF in He. simp_bool. subst e.
    destruct (_ || _) eqn:Hbad; [done|]. simp_bool. done.
  - destruct e as [x|]; [by destruct x|]. by split.
Qed.

Lemma ReadAll_ok n digest bufs : reader_contract read -> Forall (buffer_ok n) bufs -> forall acc r content r',
  verified_ok n digest acc r -> ReadAll read ctx bufs r acc = Some (Ok content, r') ->
  slen content = n /\ hex_encode (sha256 content) = digest.
Proof.
  intros Hc Hb. induction Hb as [|len bufs Hlen Hb IH]; intros acc r content r' Hr; [done|]. cbn [ReadAll].
  pose proof (VRead_ok n digest acc r len Hc Hlen Hr) as Hv.
  destruct (VRead read ctx r len) as [[bytes e] r1]. destruct e as [e|].
  - destruct (is_EOF (Some e)) eqn:He; [|done]. intros [= <- <-].
    unfold is_EOF in He. simp_bool. by injection He as ->.
  - intros H. by apply (IH (acc +:+ bytes) r1 content r').
Qed.

(** A verified stream that is read to its end delivered exactly the
    committed content: its length is the recorded size and its SHA-256 is the
    recorded digest, whatever the underlying file returned. *)
Theorem verified_content s n digest bufs content r : reader_contract read ->
  Forall (buffer_ok n) bufs -> 0 <= n ->
  ReadAll read ctx bufs (NewVerifiedReader s n digest) "" = Some (Ok content, r) ->
  slen content = n /\ hex_encode (sha256 content) = digest.
Proof.
  intros Hc Hb Hn. apply (ReadAll_ok n digest bufs Hc Hb). by split.
Qed.
End Verified.

(** What a bounded copy stored, a verified reader returns. *)
Lemma verified_string_read n digest content bufs : slen content = n -> hex_encode (sha256 content) = digest ->
  Forall (buffer_ok n) bufs -> Forall (fun len => 1 <= len) bufs -> (String.length content < length bufs)%nat ->
  exists r, ReadAll string_reader live bufs (NewVerifiedReader content n digest) "" = Some (Ok content, r).
Proof.
  intros Hn Hd Hb Hpos Hlen.
  assert (forall bufs r acc, Forall (buffer_ok n) bufs -> Forall (fun len => 1 <= len) bufs ->
    verified_ok n digest acc r -> acc +:+ v_source r = content ->
    (String.length (v_source r) < length bufs)%nat ->
    exists r', ReadAll string_reader live bufs r acc = Some (Ok content, r')) as Hgen.
  { clear bufs Hb Hpos Hlen. induction bufs as [|len bufs IH]; intros r acc Hb Hpos Hr Hsplit Hl; [simpl in Hl; lia|].
    apply Forall_cons in Hb as [[Hl0 Hl1] Hb]. apply Forall_cons in Hpos as [Hp Hpos].
    destruct Hr as [H1 H2 H3 H4 H5 H6]. cbn [ReadAll]. unfold VRead. rewrite H5. simpl ContextError. cbv iota.
    pose proof (slen_nonneg acc).
    assert (slen acc + slen (v_source r) = n) as Hsum by (by rewrite <- Hn, <- Hsplit, slen_app).
    unfold string_reader. destruct (String.eqb_spec (v_source r) "") as [E|E].
    - rewrite E, append_nil_r in Hsplit. rewrite H1, H2, H3, H4, append_nil_r, Hsplit, Hn, Hd.
      rewrite Z.eqb_refl, String.eqb_refl. simpl. rewrite append_nil_r. by eexists.
    - rewrite H1, H2, H3.
      assert (1 <= slen (v_source r)).
      { destruct (Z.le_gt_cases 1 (slen (v_source r))); [done|]. destruct E. apply slen_empty. lia. }
      set (bytes := stake (Z.to_nat len) (v_source r)).
      assert (1 <= slen bytes <= slen (v_source r)) as Hbytes.
      { unfold bytes. rewrite stake_length, Z2Nat.id by lia. lia. }
      rewrite (proj2 (Z.ltb_lt 0 (slen bytes))) by lia. rewrite wrap_small by (unfold buffer_ok in *; lia).
      rewrite (proj2 (Z.ltb_ge n _)) by lia. simpl.
      apply IH; simpl; try done.
      + split; simpl; try done; rewrite slen_app; lia.
      + unfold bytes. by rewrite append_assoc, stake_sdrop.
      + pose proof (f_equal slen (stake_sdrop (Z.to_nat len) (v_source r))) as Hs. rewrite slen_app in Hs.
        fold bytes in Hs. unfold slen in *. simpl in Hl. lia. }
  apply Hgen; try done. by split; simpl; try done; unfold slen in *; simpl; lia.
Qed.

(** Storing and reading back is the identity: content that was copied
    through a bounded stream, read back with the size and digest that stream
    reported, arrives complete and unchanged. *)
Theorem stored_content_roundtrip c max fuel bufs : 0 < max < max_int64 -> slen c <= max ->
  (String.length c < fuel)%nat -> Forall (buffer_ok (slen c)) bufs -> Forall (fun len => 1 <= len) bufs ->
  (String.length c < length bufs)%nat ->
  exists r size digest r', Copy string_reader live copy_buffer fuel (NewBoundedReader c max) "" = Copied c None r /\
    Result r = Ok (size, digest) /\
    ReadAll string_reader live bufs (NewVerifiedReader c size digest) "" = Some (Ok c, r').
Proof.
  intros Hm Hc Hf Hb Hpos Hl.
  destruct (copy_string c max fuel Hm Hf) as (written & e & r & Hcopy & Hok & _).
  destruct (Hok Hc) as [-> ->].
  pose proof (copy_result_ok string_reader live copy_buffer c max fuel string_reader_contract ltac:(done) Hm) as Hres.
  rewrite Hcopy in Hres. destruct Hres as [_ Hres].
  destruct (verified_string_read (slen c) (hex_encode (sha256 c)) c bufs) as [r' Hr']; try done.
  exists r, (slen c), (hex_encode (sha256 c)), r'. auto.
Qed.

(** ** The theorems at work *)

Definition bytes_a : string := "aaaaaaaaaaaaaaaaaaaaaaaaaaaaaaaa".
Definition bytes_b : string := "bbbbbbbbbbbbbbbbbbbbbbbbbbbbbbbb".

Lemma generated_keys_witness :
  exists k, NewKey (Some bytes_a) = Ok k /\ ParseKey k = Ok k /\ Valid k = true /\
    sforallb (fun c => negb (is_byte 47 c) && negb (is_byte 92 c) && negb (is_byte 46 c)) k = true /\
    (NewKey (Some bytes_b) = Ok k -> bytes_b = bytes_a).
Proof. apply (generated_keys bytes_a bytes_b); reflexivity. Defined.

Lemma bounded_copy_exact_witness :
  match Copy string_reader live copy_buffer 10 (NewBoundedReader "report" 64) "" with
  | CopyPanic => False
  | CopyOutOfFuel => True
  | Copied written e r =>
      slen written <= 64 /\ (e = None -> Result r = Ok (slen written, hex_encode (sha256 written)))
  end.
Proof. apply (bounded_copy_exact string_reader live "report" 64 10 string_reader_contract). unfold max_int64. lia. Defined.

Lemma bounded_copy_total_witness :
  exists written e r, Copy string_reader live copy_buffer 10 (NewBoundedReader "report" 3) "" = Copied written e r /\
    (slen "report" <= 3 -> written = "report" /\ e = None) /\ (3 < slen "report" -> e = Some ErrTooLarge).
Proof. apply bounded_copy_total; [unfold max_int64; lia|simpl; lia]. Defined.

Definition unlimited : PutOptions :=
  {| MaxBytes := max_int64; Timeout := Second; ExpectedSize := None; ExpectedSHA256 := "" |}.

Lemma unbounded_limit_panics_witness :
  ValidatePutOptions (encode_id "blb_" bytes_a) true unlimited = Ok tt /\
  Read string_reader live (NewBoundedReader "report" max_int64) 512 = None.
Proof.
  apply (unbounded_limit_panics string_reader live "report" 512 (encode_id "blb_" bytes_a) unlimited);
    try reflexivity. lia.
Defined.

Lemma verified_content_witness :
  slen "report" = 6 /\ hex_encode (sha256 "report") = hex_encode (sha256 "report").
Proof.
  apply (verified_content string_reader live "report" 6 (hex_encode (sha256 "report")) [4; 4; 4] "report"
           {| v_source := ""; v_checks := 3; v_hashed := "report"; v_size := 6; expectedSize := 6;
              expectedSHA256 := hex_encode (sha256 "report"); v_finished := true |} string_reader_contract).
  - repeat constructor; unfold buffer_ok, max_int64; lia.
  - lia.
  - vm_compute. reflexivity.
Defined.

(** A single changed byte is reported, not delivered as the end of the stream. *)
Example tampered_content :
  match ReadAll string_reader live [4; 4; 4] (NewVerifiedReader "rep0rt" 6 (hex_encode (sha256 "report"))) "" with
  | Some (Err ErrIntegrity, _) => true
  | _ => false
  end = true.
Proof. vm_compute. reflexivity. Qed.

Lemma stored_content_roundtrip_witness :
  exists r size digest r', Copy string_reader live copy_buffer 10 (NewBoundedReader "report" 64) "" = Copied "report" None r /\
    Result r = Ok (size, digest) /\
    ReadAll string_reader live [4; 4; 4; 4; 4; 4; 4] (NewVerifiedReader "report" size digest) ""
      = Some (Ok "report", r').
Proof.
  apply (stored_content_roundtrip "report" 64 10 [4; 4; 4; 4; 4; 4; 4]).
  - unfold max_int64. lia.
  - vm_compute. discriminate.
  - simpl. lia.
  - repeat constructor; unfold buffer_ok, max_int64, slen; simpl; lia.
  - repeat constructor; lia.
  - simpl. lia.
Defined.

End Blobstore.
