(* ===== verification/Streams.v ===== *)
(** * Request bodies and the blob store interface

    A request body is an [io.Reader] that hands out its bytes in pieces of its
    own choosing, empty ones among them, and ends or fails with the last piece
    or after it.  [BlobWriter] is the part of
    [blobstore.Store] the ingestion service uses, and [BlobContract] what the
    interface promises (blobstore.go, the documentation of [Store]); the
    service's theorems are proved against it, and [MemoryBlobs] shows that it
    can be met. *)

From S2P Require Import Prelude GoStrings Encoding Blobstore.
From Stdlib Require Import Ascii.

Local Open Scope Z_scope.

Module Streams.
Import Blobstore.

(** ** Bodies *)

(** The pieces that are still to come, and what is reported at their end:
    [EOF], or the error of a broken connection.  [together]: the end is
    reported with the last piece already, as an [io.Reader] may. *)
Record stream := Stream { chunks : list string; ending : error; together : bool }.

Definition body (s : stream) : string := foldr (fun c acc => c +:+ acc) "" (chunks s).

(** One [Read]: at most one piece, cut to the buffer. *)
Definition stream_read (n : Z) (s : stream) : string * option error * stream :=
  match chunks s with
  | [] => ("", Some (ending s), s)
  | c :: l =>
      if slen c <=? n then
        (c, if together s && bool_decide (l = []) then Some (ending s) else None, Stream l (ending s) (together s))
      else (stake (Z.to_nat n) c, None, Stream (sdrop (Z.to_nat n) c :: l) (ending s) (together s))
  end.

(** A bound on the number of reads. *)
Definition reads (s : stream) : nat := foldr (fun c n => S (String.length c) + n)%nat 1%nat (chunks s).

Lemma stream_read_contract : reader_contract stream_read.
Proof.
  intros n s Hn. unfold stream_read. destruct (chunks s) as [|c l]; [done|].
  destruct (Z.leb_spec (slen c) n); simpl; [done|]. rewrite stake_length. lia.
Qed.

(** A read with room for a byte makes progress and loses nothing. *)
Lemma stream_read_progress n s bytes e s' : 1 <= n -> stream_read n s = (bytes, e, s') ->
  (e = Some (ending s) /\ bytes = body s /\ body s' = "" /\ ending s' = ending s) \/
  (e = None /\ bytes +:+ body s' = body s /\ ending s' = ending s /\ (reads s' < reads s)%nat).
Proof.
  intros Hn. unfold stream_read, body, reads. destruct (chunks s) as [|c l] eqn:Hch.
  { intros [= <- <- <-]. left. rewrite Hch. done. }
  destruct (Z.leb_spec (slen c) n).
  { destruct (together s && _) eqn:Et; intros [= <- <- <-]; [left|right; simpl; split_and!; try done; lia].
    simp_bool. subst l. simpl. by rewrite append_nil_r. }
  intros [= <- <- <-]. right. simpl. split_and!; try done.
  - by rewrite <- append_assoc, stake_sdrop.
  - assert (String.length c = String.length (stake (Z.to_nat n) c) + String.length (sdrop (Z.to_nat n) c))%nat as Hl.
    { rewrite <- (stake_sdrop (Z.to_nat n) c) at 1. pose proof (slen_app (stake (Z.to_nat n) c) (sdrop (Z.to_nat n) c)).
      unfold slen in *. lia. }
    pose proof (stake_length (Z.to_nat n) c) as Hs. unfold slen in *. lia.
Qed.

Section CopyStream.
Context (ctx : nat -> ctx_state) (buffer max : Z).
Hypothesis buffer_positive : 1 <= buffer.
Hypothesis max_bounded : 0 < max < max_int64.

(** One read of a bounded body. *)
Lemma stream_Read r : bounded_ok max r -> err r = None -> finished r = false ->
  exists bytes e r', Read stream_read ctx r buffer = Some (bytes, e, r') /\
    ((e = Some EOF /\ bytes = body (source r) /\ ending (source r) = EOF) \/
     (exists x, e = Some x /\ x <> EOF /\
        ((forall k, ctx k = Live) -> slen (hashed r +:+ body (source r)) <= max -> ending (source r) <> EOF)) \/
     (e = None /\ err r' = None /\ finished r' = false /\ ending (source r') = ending (source r) /\
      bytes +:+ body (source r') = body (source r) /\ (reads (source r') < reads (source r))%nat)).
Proof using Type*.
  intros [H1 H2 H3] He Hf. pose proof (slen_nonneg (hashed r)). unfold Read. rewrite He, Hf.
  assert (forall k x, ContextError (ctx k) = Some x -> x <> EOF /\ ~ (forall k, ctx k = Live)) as Hctx.
  { intros k x Hx. split; [intros ->; by apply ContextError_not_EOF in Hx|]. intros Hl. by rewrite Hl in Hx. }
  destruct (ContextError (ctx (checks r))) as [x|] eqn:Hx.
  { eexists _, _, _. split; [done|]. right. left. apply Hctx in Hx as [? ?]. naive_solver. }
  rewrite H1, H2, (wrap_small (max - slen (hashed r))), (wrap_small (max - slen (hashed r) + 1)) by lia.
  rewrite (proj2 (Z.ltb_ge (max - slen (hashed r) + 1) 0)) by lia. rewrite andb_false_r.
  set (n := if max - slen (hashed r) + 1 <? buffer then max - slen (hashed r) + 1 else buffer).
  assert (1 <= n) as Hn by (unfold n; destruct (Z.ltb_spec (max - slen (hashed r) + 1) buffer); lia).
  destruct (stream_read n (source r)) as [[bytes e] s'] eqn:Er.
  destruct (ContextError (ctx (checks r + 1))) as [x|] eqn:Hx'.
  { eexists _, _, _. split; [done|]. right. left. apply Hctx in Hx' as [? ?]. naive_solver. }
  apply stream_read_progress in Er as [(-> & -> & _)|(-> & Hb & Hend & Hr)]; [|..|done].
  - destruct (Z.ltb_spec (max - slen (hashed r)) (slen (body (source r)))); (eexists _, _, _; split; [done|]).
    + right. left. eexists. split; [done|]. split; [done|]. rewrite slen_app. lia.
    + destruct (decide (ending (source r) = EOF)) as [E|E]; [left; by rewrite E|right; left; eauto].
  - destruct (Z.ltb_spec (max - slen (hashed r)) (slen bytes)).
    + eexists _, _, _. split; [done|]. right. left. eexists. split; [done|]. split; [done|].
      intros _ Hlen. rewrite <- Hb, !slen_app in Hlen. pose proof (slen_nonneg (body s')). lia.
    + eexists _, _, _. split; [done|]. right. right. done.
Qed.

(** Copying a body terminates; without an error exactly the body was copied,
    and a body that fits and ends is copied on a live context. *)
Lemma copy_stream s fuel : (reads s <= fuel)%nat ->
  exists written e r, Copy stream_read ctx buffer fuel (NewBoundedReader s max) "" = Copied written e r /\
    (e = None -> written = body s /\ ending s = EOF) /\
    ((forall k, ctx k = Live) -> slen (body s) <= max -> ending s = EOF -> e = None).
Proof using Type*.
  assert (forall fuel r, (reads (source r) <= fuel)%nat -> bounded_ok max r -> err r = None -> finished r = false ->
    exists written e r', Copy stream_read ctx buffer fuel r (hashed r) = Copied written e r' /\
      (e = None -> written = hashed r +:+ body (source r) /\ ending (source r) = EOF) /\
      ((forall k, ctx k = Live) -> slen (hashed r +:+ body (source r)) <= max -> ending (source r) = EOF -> e = None))
    as Hgen.
  { clear s. induction fuel0 as [|n IH]; intros r Hr Hok He Hf; [unfold reads in Hr; destruct (chunks _); simpl in Hr; lia|].
    cbn [Copy]. destruct (Read_ok stream_read ctx max r buffer stream_read_contract max_bounded ltac:(lia) Hok)
      as (b0 & e0 & r0 & Hread0 & Hok' & Hh & _).
    destruct (stream_Read r Hok He Hf) as (bytes & e & r' & Hread & Hcases).
    rewrite Hread in Hread0. injection Hread0 as <- <- <-. rewrite Hread.
    destruct Hcases as [(-> & -> & Hend)|[(x & -> & Hx & Hlive)|(-> & He' & Hf' & Hend & Hb & Hlt)]].
    - eexists _, _, _. split; [done|]. done.
    - eexists _, _, _. split; [done|]. unfold is_EOF. rewrite bool_decide_eq_false_2 by congruence. naive_solver.
    - rewrite <- Hh. destruct (IH r') as (w & e & r'' & -> & Hw & Hl); try done; [lia|].
      rewrite Hh, append_assoc, Hb, Hend in Hw, Hl. eauto 10. }
  intros Hfuel. destruct (Hgen fuel (NewBoundedReader s max)) as (w & e & r & H); try done.
  - split; simpl; unfold slen; simpl; lia.
  - exists w, e, r. exact H.
Qed.
End CopyStream.

(** ** The blob store interface *)

(** [Put] and [Stat] of [blobstore.Store] on a store with contents of type
    [B]; what the network and the disk do to a call is part of [B]. *)
Class BlobWriter (B : Type) := {
  Put : Key -> stream -> PutOptions -> B -> result error Metadata * B;
  Stat : Key -> B -> result error Metadata * B
}.

(** What the interface promises about an answer: a stored blob is the whole
    body, within the limit, matching what the caller expected, and its
    metadata describe it. *)
Class BlobContract (B : Type) `{BlobWriter B} := {
  put_describes : forall k s o b m b', Put k s o b = (Ok m, b') ->
    ending s = EOF /\ m_Size m = slen (body s) /\ m_SHA256 m = hex_encode (sha256 (body s)) /\
    m_Size m <= MaxBytes o /\ VerifyExpected (m_Size m) (m_SHA256 m) o = Ok tt /\ m_Version m <> "";
  stat_describes : forall k b m b', Stat k b = (Ok m, b') -> 0 <= m_Size m
}.

(** ** A store in memory *)

Record memory := Memory { blobs : gmap string Metadata; clock : time }.

Definition memory_put (k : Key) (s : stream) (o : PutOptions) (b : memory) : result error Metadata * memory :=
  match ValidatePutOptions k true o with
  | Err e => (Err e, b)
  | Ok _ =>
      if negb (MaxBytes o <? max_int64) then (Err ErrInvalidOptions, b)
      else match blobs b !! k with
      | Some _ => (Err ErrAlreadyExists, b)
      | None =>
          match Copy stream_read live copy_buffer (reads s) (NewBoundedReader s (MaxBytes o)) "" with
          | Copied _ None r =>
              match Result r with
              | Err e => (Err e, b)
              | Ok (size, digest) =>
                  match VerifyExpected size digest o with
                  | Err e => (Err e, b)
                  | Ok _ =>
                      let m := {| m_Key := k; m_Size := size; m_SHA256 := digest; m_Version := digest;
                                  m_BackendVersion := ""; m_CommittedAt := clock b |} in
                      (Ok m, Memory (<[k := m]> (blobs b)) (clock b))
                  end
              end
          | Copied _ (Some e) _ => (Err e, b)
          | _ => (Err (ErrBackend "put"), b)
          end
      end
  end.

(** A table that was filled by hand can hold anything; one that [memory_put]
    filled holds sizes. *)
Definition memory_stat (k : Key) (b : memory) : result error Metadata * memory :=
  match blobs b !! k with
  | Some m => if 0 <=? m_Size m then (Ok m, b) else (Err ErrIntegrity, b)
  | None => (Err ErrNotFound, b)
  end.

#[global] Instance MemoryBlobs : BlobWriter memory := {| Put := memory_put; Stat := memory_stat |}.

#[global] Instance MemoryContract : BlobContract memory.
Proof.
  split.
  - intros k s o b m b'. cbn [Put MemoryBlobs]. unfold memory_put.
    destruct (ValidatePutOptions k true o) as [[]|] eqn:Ev; [|done].
    destruct (MaxBytes o <? max_int64) eqn:Elt; [|done]. cbn [negb]. destruct (blobs b !! k); [done|].
    destruct (Copy _ _ _ _ _ _) as [| |w [e|] r] eqn:Ec; [done|done|done|].
    destruct (Result r) as [[size digest]|] eqn:Er; [|done].
    destruct (VerifyExpected size digest o) as [[]|] eqn:Ex; [|done]. intros [= <- _]. cbn [m_Size m_SHA256 m_Version].
    assert (0 < MaxBytes o) as Hpos.
    { unfold ValidatePutOptions in Ev. destruct (Valid k); [|done].
      destruct (true && (0 <? MaxBytes o) && (0 <? Timeout o)) eqn:Eo; [|done]. simp_bool. lia. }
    pose proof (copy_result_ok stream_read live copy_buffer s (MaxBytes o) (reads s) stream_read_contract
                  ltac:(done) ltac:(simp_bool; lia)) as Hres.
    destruct (copy_stream live copy_buffer (MaxBytes o) ltac:(done) ltac:(simp_bool; lia) s (reads s) ltac:(lia))
      as (w' & e' & r' & Ec' & Hw & _).
    rewrite Ec' in Ec. injection Ec as -> -> ->. rewrite Ec' in Hres. destruct Hres as [Hle Hres].
    rewrite (Hres eq_refl) in Er.
    assert (forall x y : Z * string, Ok x = Ok y :> result error _ -> x = y) as Hinj by congruence.
    apply Hinj, pair_equal_spec in Er as [<- <-]. destruct (Hw eq_refl) as [-> ?].
    split; [done|]. split; [reflexivity|]. split; [reflexivity|]. split; [done|]. split; [exact Ex|].
    intros Hd. apply (f_equal slen) in Hd. by rewrite hex_encode_length, sha256_length in Hd.
  - intros k b m b'. cbn [Stat MemoryBlobs]. unfold memory_stat. destruct (blobs b !! k); [|done].
    case_match; [|done]. intros [= <- <-]. by apply Z.leb_le.
Qed.
End Streams.
