(* ===== verification/GoPath.v ===== *)
(** * Slash-separated paths (package path) and a few functions of strings

    [Clean], [Join], [Trim] and [Contains] as the S3 store uses them, and that
    a path of plain components is clean and names its components. *)

From S2P Require Import Prelude GoStrings Json.
From Stdlib Require Import Ascii.

Local Open Scope Z_scope.

Definition slash (c : ascii) : bool := is_byte 47 c.

(** [strings.Split] at every slash. *)
Fixpoint split_slash (s : string) : list string :=
  match s with
  | "" => [""]
  | String c s =>
      if slash c then "" :: split_slash s
      else match split_slash s with x :: l => String c x :: l | [] => [String c ""] end
  end.

(** One component after those that were kept, the last one first. *)
Definition clean_step (rooted : bool) (out : list string) (c : string) : list string :=
  if String.eqb c "" || String.eqb c "." then out
  else if String.eqb c ".." then
    match out with
    | top :: rest => if String.eqb top ".." then ".." :: out else rest
    | [] => if rooted then [] else [".."]
    end
  else c :: out.

(** [path.Clean] *)
Definition Clean (p : string) : string :=
  let rooted := HasPrefix p "/" in
  let cleaned := join "/" (rev (foldl (clean_step rooted) [] (split_slash p))) in
  if rooted then "/" +:+ cleaned else if String.eqb cleaned "" then "." else cleaned.

(** [path.Join] *)
Fixpoint from_first (elements : list string) : list string :=
  match elements with
  | [] => []
  | e :: l => if String.eqb e "" then from_first l else elements
  end.

Definition Join (elements : list string) : string :=
  match from_first elements with [] => "" | l => Clean (join "/" l) end.

(** [strings.Trim(s, "/")] *)
Fixpoint trim_left (s : string) : string :=
  match s with String c r => if slash c then trim_left r else s | "" => "" end.

Fixpoint trim_right (s : string) : string :=
  match s with
  | "" => ""
  | String c r => match trim_right r with "" => if slash c then "" else String c "" | t => String c t end
  end.

Definition TrimSlashes (s : string) : string := trim_right (trim_left s).

(** [strings.Contains] *)
Fixpoint Contains (s t : string) : bool :=
  HasPrefix s t || match s with String _ r => Contains r t | "" => false end.

Example clean_known :
  Clean "a/./b//c/../d/" = "a/b/d" /\ Clean "" = "." /\ Clean "/../a" = "/a" /\ Clean "../../x/.." = "../.." /\
  Clean "a/.." = "." /\ Clean "/" = "/" /\ Join [""; "a"; ""; "b/../c"] = "a/c" /\ Join [""; ""] = "" /\
  TrimSlashes "//a/b//" = "a/b" /\ TrimSlashes "///" = "" /\ Contains "a/../b" "/../" = true /\ Contains "a/..b" "/../" = false.
Proof. vm_compute. done. Qed.

(** ** Plain components *)

Definition no_slash (c : string) : bool := sforallb (fun x => negb (slash x)) c.

Definition plain (c : string) : bool :=
  no_slash c && negb (String.eqb c "") && negb (String.eqb c ".") && negb (String.eqb c "..").

Lemma split_no_slash c : no_slash c = true -> split_slash c = [c].
Proof.
  induction c as [|x c IH]; [done|]. unfold no_slash. cbn [sforallb split_slash]. intros H. simp_bool.
  rewrite H. by rewrite IH.
Qed.

Lemma split_app c s : no_slash c = true -> split_slash (c +:+ "/" +:+ s) = c :: split_slash s.
Proof.
  induction c as [|x c IH]; [done|]. unfold no_slash. cbn [sforallb]. intros H. simp_bool.
  change (String x c +:+ "/" +:+ s) with (String x (c +:+ "/" +:+ s)). cbn [split_slash]. rewrite H. by rewrite IH.
Qed.

Lemma split_join l : Forall (fun c => no_slash c = true) l -> l <> [] -> split_slash (join "/" l) = l.
Proof.
  induction 1 as [|c l Hc Hl IH]; [done|]. intros _. destruct l as [|d l]; [by apply split_no_slash|].
  change (join "/" (c :: d :: l)) with (c +:+ "/" +:+ join "/" (d :: l)). rewrite split_app by done. by rewrite IH.
Qed.

Lemma join_slash_inj l l' : Forall (fun c => no_slash c = true) l -> Forall (fun c => no_slash c = true) l' ->
  l <> [] -> l' <> [] -> join "/" l = join "/" l' -> l = l'.
Proof. intros H H' Hn Hn' E. rewrite <- (split_join l), <- (split_join l') by done. by rewrite E. Qed.

Lemma plain_no_slash c : plain c = true -> no_slash c = true.
Proof. unfold plain. intros H. by simp_bool. Qed.

Lemma clean_step_plain rooted out c : plain c = true -> clean_step rooted out c = c :: out.
Proof.
  unfold plain, clean_step. intros H. simp_bool.
  by rewrite !(proj2 (String.eqb_neq _ _)) by done.
Qed.

Lemma clean_plain rooted l out : Forall (fun c => plain c = true) l -> foldl (clean_step rooted) out l = rev l ++ out.
Proof.
  intros H. revert out. induction H as [|c l Hc Hl IH]; intros out; [done|]. cbn [foldl].
  rewrite clean_step_plain, IH by done. simpl. by rewrite <- app_assoc.
Qed.

Lemma no_slash_head c s : no_slash c = true -> c <> "" -> HasPrefix (c +:+ s) "/" = false.
Proof.
  destruct c as [|x c]; [done|]. unfold no_slash. cbn [sforallb]. intros H _. simp_bool.
  change (String x c +:+ s) with (String x (c +:+ s)). unfold HasPrefix. cbn [String.prefix].
  destruct (ascii_dec "/" x) as [<-|]; [done|done].
Qed.

Lemma join_head c l : exists s, join "/" (c :: l) = c +:+ s.
Proof. destruct l as [|d l]; [exists ""; by rewrite append_nil_r|eexists; reflexivity]. Qed.

(** A path of plain components is clean. *)
Lemma Clean_plain l : Forall (fun c => plain c = true) l -> l <> [] -> Clean (join "/" l) = join "/" l.
Proof.
  intros H Hn. destruct l as [|c l]; [done|]. assert (plain c = true) as Hc by (by inversion H).
  unfold Clean. destruct (join_head c l) as [s Es].
  assert (no_slash c = true /\ c <> "") as [Hc1 Hc2] by (unfold plain in Hc; by simp_bool).
  rewrite Es at 1 2. rewrite no_slash_head by done. cbv zeta.
  rewrite split_join; [|eapply Forall_impl; [exact H|apply plain_no_slash]|done].
  rewrite clean_plain, app_nil_r, rev_involutive by done. rewrite Es. destruct c; done.
Qed.

Lemma Join_plain l : Forall (fun c => plain c = true) l -> l <> [] -> Join l = join "/" l.
Proof.
  intros H Hn. unfold Join. assert (from_first l = l) as ->.
  { destruct H as [|c l Hc _]; [done|]. cbn [from_first]. unfold plain in Hc. simp_bool.
    by rewrite (proj2 (String.eqb_neq c "")). }
  destruct l; [done|]. by apply Clean_plain.
Qed.

(** ** Paths that are their own clean form *)

(** What is kept: plain components after leading parents. *)
Definition kept_ok (out : list string) : Prop :=
  exists l n, out = l ++ repeat ".." n /\ Forall (fun c => plain c = true) l.

Lemma split_parts s : Forall (fun c => no_slash c = true) (split_slash s).
Proof.
  induction s as [|c s IH]; [by repeat constructor|]. cbn [split_slash]. destruct (slash c) eqn:E; [by constructor|].
  destruct IH as [|x l Hx Hl]; [repeat constructor; unfold no_slash; simpl; by rewrite E|].
  constructor; [|done]. unfold no_slash in *. cbn [sforallb]. by rewrite E.
Qed.

Lemma clean_step_kept out c : kept_ok out -> no_slash c = true -> kept_ok (clean_step false out c).
Proof.
  intros (l & n & -> & Hl) Hc. unfold clean_step. destruct (String.eqb c "" || String.eqb c ".") eqn:E1; [by exists l, n|].
  destruct (String.eqb_spec c "..") as [->|E2].
  - destruct Hl as [|t l Ht Hl].
    + destruct n as [|n]; simpl; [by exists [], 1%nat|by exists [], (S (S n))].
    + simpl. assert (String.eqb t ".." = false) as -> by (unfold plain in Ht; simp_bool; by apply String.eqb_neq).
      by exists l, n.
  - exists (c :: l), n. split; [done|]. constructor; [|done]. unfold plain. simp_bool.
    rewrite Hc, !(proj2 (String.eqb_neq _ _)) by done. done.
Qed.

Lemma clean_kept l out : Forall (fun c => no_slash c = true) l -> kept_ok out -> kept_ok (foldl (clean_step false) out l).
Proof. intros H. revert out. induction H; intros out Ho; [done|]. cbn [foldl]. auto using clean_step_kept. Qed.

(** A relative path that is clean, is not the current directory and does not
    start with a parent has plain components. *)
Lemma clean_components p : Clean p = p -> p <> "." -> HasPrefix p "/" = false -> p <> ".." -> HasPrefix p "../" = false ->
  exists l, p = join "/" l /\ l <> [] /\ Forall (fun c => plain c = true) l.
Proof.
  intros Hp Hd Hr Hu Hu'. unfold Clean in Hp. rewrite Hr in Hp. cbv zeta in Hp.
  pose proof (clean_kept (split_slash p) [] (split_parts p) ltac:(by exists [], 0%nat)) as (l & n & E & Hl).
  rewrite E, rev_app_distr, rev_repeat in Hp. destruct (String.eqb_spec (join "/" (repeat ".." n ++ rev l)) "") as [E0|E0]; [congruence|].
  destruct n as [|n].
  - exists (rev l). split; [done|]. split; [|by apply Forall_rev].
    intros El. rewrite El in E0. done.
  - exfalso. rewrite <- Hp in Hu, Hu'. simpl (repeat _ _ ++ _) in Hu, Hu'.
    destruct (repeat ".." n ++ rev l) as [|x r]; [done|].
    change (join "/" (".." :: x :: r)) with ("../" +:+ join "/" (x :: r)) in Hu'. by rewrite HasPrefix_app in Hu'.
Qed.

Lemma trimmed_head s : HasPrefix (TrimSlashes s) "/" = false.
Proof.
  unfold TrimSlashes.
  assert (trim_left s = "" \/ exists c r, trim_left s = String c r /\ slash c = false) as [-> |(c & r & -> & Hc)]; [|done|].
  { induction s as [|c s IH]; [by left|]. cbn [trim_left]. destruct (slash c) eqn:E; [done|]. right. eauto. }
  assert (forall t, HasPrefix (String c t) "/" = false) as H.
  { intros t. unfold HasPrefix. cbn [String.prefix]. by destruct (ascii_dec "/" c) as [<-|]. }
  cbn [trim_right]. destruct (trim_right r); [rewrite Hc|]; apply H.
Qed.
