(* ===== verification/Manifests.v ===== *)
(** * Manifests of the blob stores

    Both blob stores describe a blob by a small JSON document and publish the
    blob by making that document appear; the structures differ in the name of
    one member only.  [Module Manifests] has the structure, the text that is
    written, the decoding of a text that is read, and that decoding undoes
    writing. *)

From S2P Require Import Prelude GoStrings Encoding Json JsonFacts GoTime GoTimeFacts Unmarshal.
From Stdlib Require Import Ascii.

Local Open Scope Z_scope.

(** ** The members of a printed object *)

Lemma string_take_app (s t : string) : string_take (String.length s) (s +:+ t) = s.
Proof. induction s as [|c s IH]; [by destruct t|]. simpl. by rewrite IH. Qed.

Lemma string_take_value (s t : string) : string_take (String.length (s +:+ t) - String.length t) (s +:+ t) = s.
Proof. rewrite length_append, Nat.add_sub. apply string_take_app. Qed.

Lemma decode_value_print v x : encodable v = true -> nesting v <= max_nesting -> stops x = true ->
  decode_value (print v +:+ x) = Some (v, x).
Proof.
  intros He Hn Hx. unfold decode_value. apply parses_all; [done..|lia|]. rewrite length_append. lia.
Qed.

Definition raw_member (kv : string * json) : string * string := (fst kv, print (snd kv)).

Lemma raw_members_print l : l <> [] -> forall fuel x,
  forallb (fun kv => ValidString (fst kv) && encodable (snd kv)) l = true ->
  foldr Z.max 0 (map (fun kv => nesting (snd kv)) l) <= max_nesting -> (length l <= fuel)%nat ->
  raw_members fuel (join "," (map member l) +:+ "}" +:+ x) = Some (map raw_member l).
Proof.
  induction l as [|[k v] l IH]; [done|]. intros _ fuel x He Hd Hf.
  cbn [forallb fst snd] in He. apply andb_prop in He as [[Hk He1]%andb_prop He2]. cbn [map foldr snd] in *.
  destruct fuel as [|fuel]; [simpl in Hf; lia|].
  assert (forall y z, stops y = true -> skip_ws y = y -> member (k, v) +:+ y = z ->
    raw_members (S fuel) z =
      match y with
      | String c r' =>
          if is_byte 44 c then
            match raw_members fuel r' with Some l => Some ((k, print v) :: l) | None => None end
          else Some [(k, print v)]
      | "" => None
      end) as Hone.
  { intros y z Hy Hws <-. unfold member. rewrite !append_assoc. cbn [fst snd raw_members].
    destruct (parse_string_encode k (":" +:+ print v +:+ y) Hk) as (q & -> & Hq).
    change (skip_ws (String (chr 34) q)) with (String (chr 34) q). cbv iota.
    change (negb (is_byte 34 (chr 34))) with false. cbv iota. rewrite Hq.
    change (skip_ws (":" +:+ print v +:+ y)) with (String (chr 58) (print v +:+ y)). cbv iota zeta.
    destruct (print_leads v He1) as (c & s & Ep & Hc).
    assert (skip_ws (print v +:+ y) = print v +:+ y) as ->.
    { rewrite Ep. exact (skip_ws_leads c (s +:+ y) Hc). }
    rewrite decode_value_print by (done || lia). by rewrite Hws, string_take_value. }
  destruct l as [|kv l].
  - cbn [map join] in *. by rewrite (Hone ("}" +:+ x) _ eq_refl eq_refl eq_refl).
  - cbn [map] in *. rewrite join_cons, !append_assoc.
    rewrite (Hone ("," +:+ join "," (member kv :: map member l) +:+ "}" +:+ x) _ eq_refl eq_refl eq_refl).
    change ("," +:+ join "," (member kv :: map member l) +:+ "}" +:+ x)
      with (String (chr 44) (join "," (member kv :: map member l) +:+ "}" +:+ x)).
    cbv iota. change (is_byte 44 (chr 44)) with true. cbv iota.
    rewrite IH by (done || (simpl in *; lia)). done.
Qed.

Lemma join_length l : (length l <= String.length (join "," (map member l)) + 1)%nat.
Proof.
  induction l as [|x [|y l] IH]; [simpl; lia..|]. cbn [map] in *. rewrite join_cons, !length_append.
  simpl (String.length ","). simpl length in *. lia.
Qed.

Lemma raw_object_print l : encodable (JObj l) = true -> nesting (JObj l) <= max_nesting ->
  raw_object (print (JObj l)) = Some (map raw_member l).
Proof.
  intros He Hn. unfold raw_object. rewrite decode_print by done. destruct l as [|kv l]; [done|].
  rewrite print_obj. cbn [nesting] in Hn. set (body := join "," (map member (kv :: l)) +:+ "}").
  change (skip_ws ("{" +:+ body)) with (String (chr 123) body). cbv iota. unfold body.
  rewrite <- (append_nil_r "}"). apply raw_members_print; [done|exact He|lia|].
  rewrite !length_append. pose proof (join_length (kv :: l)). simpl (String.length "{"). lia.
Qed.

(** ** Strings without escapes *)

Definition unescaped (c : ascii) : bool :=
  (32 <=? byte_val c) && (byte_val c <? 128) &&
  negb (is_byte 34 c || is_byte 92 c || is_byte 60 c || is_byte 62 c || is_byte 38 c).

Lemma encode_unescaped s : sforallb unescaped s = true -> encode_string s = quoted s.
Proof.
  unfold encode_string. intros H. f_equal. induction s as [|c s IH]; [done|]. cbn [sforallb runes] in *.
  apply andb_prop in H as [Hc Hs]. specialize (IH Hs). unfold unescaped, is_byte in Hc. simp_bool.
  rewrite (proj2 (Z.ltb_lt (byte_val c) 128)) by done. cbn [foldr escape_rune]. rewrite IH.
  rewrite !(proj2 (Z.eqb_neq _ _)) by lia. rewrite (proj2 (Z.ltb_ge (byte_val c) 32)) by lia. done.
Qed.

Lemma unescaped_valid s : sforallb unescaped s = true -> ValidString s = true.
Proof.
  intros H. apply runes_ascii. eapply sforallb_impl; [|exact H]. intros c. unfold unescaped. intros Hc. simp_bool. by apply Z.ltb_lt.
Qed.

(** Every character the store writes into a manifest or a name. *)
Definition name_byte (c : ascii) : bool :=
  base32_char c || hex_lower c || is_byte 95 c || is_byte 46 c || time_char c.

Lemma name_byte_unescaped c : name_byte c = true -> unescaped c = true.
Proof.
  unfold name_byte, base32_char, hex_lower, time_char, is_lower, is_digit, is_byte, between, unescaped, is_byte.
  rewrite !orb_true_iff, !andb_true_iff, negb_true_iff, !orb_false_iff, !Z.eqb_neq, !Z.eqb_eq, !Z.leb_le, !Z.ltb_lt. lia.
Qed.

Lemma names_unescaped s : sforallb name_byte s = true -> sforallb unescaped s = true.
Proof. apply sforallb_impl, name_byte_unescaped. Qed.

Lemma itoa_length n : 0 <= n <= max_int64 -> slen (itoa n) <= 19.
Proof.
  intros Hn. pose proof (zero_pad_digits 19 n ltac:(unfold max_int64 in *; lia) ltac:(lia)) as (_ & Hl & _).
  unfold zero_pad in Hl. set (k := (19 - String.length (itoa n))%nat) in Hl.
  assert (forall k s, slen (Nat.iter k (fun acc => String (chr 48) acc) s) = Z.of_nat k + slen s) as Hi.
  { clear. induction k as [|k IH]; intros s; [done|]. simpl. specialize (IH s). unfold slen in *. simpl String.length. lia. }
  rewrite Hi in Hl. lia.
Qed.

Module Manifests.

(** ** Documents *)

(** [DataName] is the name of the file, or of the object, that has the bytes;
    [data_field] is what the member is called. *)
Record manifest := {
  mf_Key : string; DataName : string; mf_Size : Z; mf_SHA256 : string; mf_Version : string;
  mf_BackendVersion : string; mf_CommittedAt : time
}.

(** [json.Marshal(record)] *)
Definition record_json (data_field : string) (r : manifest) : json :=
  JObj ([("key", JStr (mf_Key r)); (data_field, JStr (DataName r)); ("size", JInt (mf_Size r));
         ("sha256", JStr (mf_SHA256 r)); ("version", JStr (mf_Version r))] ++
        omit_empty "backend_version" (mf_BackendVersion r) ++
        [("committed_at", JStr (rfc3339nano (mf_CommittedAt r)))]).

Definition encode_record (data_field : string) (r : manifest) : option string :=
  if marshals (Some (mf_CommittedAt r)) then Some (print (record_json data_field r)) else None.

(** [json.Decoder] into the structure.  The members come with the text of
    their values: [time.Time] reads the text between the quotes as it is. *)
Definition text_values (name : string) (m : list (string * string)) : list string :=
  map snd (List.filter (fun kv => String.eqb (fold_name (fst kv)) (fold_name name)) m).

Definition text_field {A} (decode : string -> A -> option A) (zero : A) (name : string) (m : list (string * string))
  : option A := foldl (fun acc v => acc ≫= decode v) (Some zero) (text_values name m).

Definition text_string (text : string) (old : string) : option string := v ← decode_text text; into_string v old.

(** [int64]: null leaves the field alone. *)
Definition text_int (text : string) (old : Z) : option Z :=
  v ← decode_text text; match v with JNull => Some old | JNum n => parse_int n | _ => None end.

(** [Time.UnmarshalJSON] *)
Definition text_time (text : string) (old : time) : option time :=
  if String.eqb text "null" then Some old
  else match text with
  | String q r =>
      let interior := string_take (String.length r - 1) r in
      if is_byte 34 q && String.eqb r (interior +:+ String (chr 34) "") then parse_rfc3339 interior else None
  | "" => None
  end.

Definition record_fields (data_field : string) : list string :=
  ["key"; data_field; "size"; "sha256"; "version"; "backend_version"; "committed_at"].

Definition decode_record (data_field : string) (text : string) : option manifest :=
  m ← raw_object text;
  if negb (forallb (fun kv => existsb (fun f => String.eqb (fold_name (fst kv)) (fold_name f)) (record_fields data_field)) m)
  then None
  else
    key ← text_field text_string "" "key" m; data ← text_field text_string "" data_field m;
    size ← text_field text_int 0 "size" m; sha256 ← text_field text_string "" "sha256" m;
    version ← text_field text_string "" "version" m; backend ← text_field text_string "" "backend_version" m;
    committed ← text_field text_time 0 "committed_at" m;
    Some {| mf_Key := key; DataName := data; mf_Size := size; mf_SHA256 := sha256; mf_Version := version;
            mf_BackendVersion := backend; mf_CommittedAt := committed |}.

(** ** Decoding undoes writing *)

(** The records [Put] writes, under the names the two stores use. *)
Record writable (r : manifest) : Prop := {
  w_key : ValidString (mf_Key r) = true;
  w_data : ValidString (DataName r) = true;
  w_sha : ValidString (mf_SHA256 r) = true;
  w_version : ValidString (mf_Version r) = true;
  w_backend : ValidString (mf_BackendVersion r) = true;
  w_size : 0 <= mf_Size r <= max_int64;
  w_time : year_zero <= mf_CommittedAt r < year_10000
}.

Definition known_field (data_field : string) : Prop := data_field = "data_name" \/ data_field = "data_key".

Lemma text_string_encode s old : ValidString s = true -> text_string (encode_string s) old = Some s.
Proof.
  intros H. unfold text_string. change (encode_string s) with (print (JStr s)). by rewrite decode_print.
Qed.

Lemma text_int_itoa n old : in_int64 n -> text_int (itoa n) old = Some n.
Proof.
  intros H. unfold text_int. change (itoa n) with (print (JNum (itoa n))). rewrite decode_print; [|apply itoa_literal|done].
  simpl. by apply parse_int_itoa.
Qed.

Lemma time_unescaped t : year_zero <= t < year_10000 -> sforallb unescaped (rfc3339nano t) = true.
Proof.
  intros Ht. destruct (format_shape t Ht) as [Hc _]. eapply sforallb_impl; [|exact Hc]. intros c H.
  apply name_byte_unescaped. unfold name_byte. by rewrite H, orb_true_r.
Qed.

Lemma text_time_format t old : year_zero <= t < year_10000 -> text_time (encode_string (rfc3339nano t)) old = Some t.
Proof.
  intros Ht. rewrite encode_unescaped by (by apply time_unescaped).
  unfold text_time, quoted. destruct (String.eqb_spec (String (chr 34) (rfc3339nano t +:+ String (chr 34) "")) "null") as [E|_]; [done|].
  rewrite length_append. simpl (String.length (String _ _)). rewrite Nat.add_sub, string_take_app, String.eqb_refl.
  change (is_byte 34 (chr 34)) with true. by rewrite parse_format.
Qed.

Lemma record_encodable f r : known_field f -> writable r ->
  encodable (record_json f r) = true /\ nesting (record_json f r) <= max_nesting.
Proof.
  intros Hf [Hk Hd Hs Hv Hb Hz Ht]. pose proof (unescaped_valid _ (time_unescaped _ Ht)) as Htv.
  unfold record_json, omit_empty. destruct Hf as [-> | ->], (String.eqb (mf_BackendVersion r) "");
    (split; [|vm_compute; discriminate]); cbn [encodable forallb app fst snd JInt];
    rewrite ?Hk, ?Hd, ?Hs, ?Hv, ?Hb, ?Htv, itoa_literal; vm_compute; reflexivity.
Qed.

(** Each member is found under its name and no other. *)
Lemma record_members f r : known_field f ->
  let m := map raw_member ([("key", JStr (mf_Key r)); (f, JStr (DataName r)); ("size", JInt (mf_Size r));
         ("sha256", JStr (mf_SHA256 r)); ("version", JStr (mf_Version r))] ++
        omit_empty "backend_version" (mf_BackendVersion r) ++
        [("committed_at", JStr (rfc3339nano (mf_CommittedAt r)))]) in
  forallb (fun kv => existsb (fun g => String.eqb (fold_name (fst kv)) (fold_name g)) (record_fields f)) m = true /\
  text_values "key" m = [encode_string (mf_Key r)] /\ text_values f m = [encode_string (DataName r)] /\
  text_values "size" m = [itoa (mf_Size r)] /\ text_values "sha256" m = [encode_string (mf_SHA256 r)] /\
  text_values "version" m = [encode_string (mf_Version r)] /\
  text_values "backend_version" m =
    (if String.eqb (mf_BackendVersion r) "" then [] else [encode_string (mf_BackendVersion r)]) /\
  text_values "committed_at" m = [encode_string (rfc3339nano (mf_CommittedAt r))].
Proof.
  intros Hf. cbv zeta. unfold omit_empty. destruct Hf as [-> | ->], (String.eqb (mf_BackendVersion r) "");
    (split_and!; [vm_compute; reflexivity|reflexivity..]).
Qed.

(** A manifest is read back as it was written. *)
Lemma decode_record_json f r : known_field f -> writable r -> decode_record f (print (record_json f r)) = Some r.
Proof.
  intros Hf Hw. destruct (record_encodable f r Hf Hw) as [He Hn]. unfold decode_record.
  unfold record_json in *. rewrite raw_object_print by done. destruct Hw as [Hk Hd Hs Hv Hb Hz Ht].
  destruct (record_members f r Hf) as (H0 & H1 & H2 & H3 & H4 & H5 & H6 & H7).
  match goal with |- context [map raw_member ?l] => set (m := map raw_member l) in * end.
  cbn [mbind option_bind]. rewrite H0. cbn [negb]. unfold text_field. rewrite H1, H2, H3, H4, H5, H6, H7.
  assert (foldl (fun acc v => acc ≫= text_string v) (Some "")
    (if String.eqb (mf_BackendVersion r) "" then [] else [encode_string (mf_BackendVersion r)]) = Some (mf_BackendVersion r)) as ->.
  { destruct (String.eqb_spec (mf_BackendVersion r) "") as [->|]; [done|]. cbn [foldl mbind option_bind]. by rewrite text_string_encode. }
  cbn [foldl mbind option_bind]. rewrite !text_string_encode by done.
  cbn [mbind option_bind]. rewrite text_int_itoa, text_time_format by (done || (unfold in_int64, min_int64; lia)).
  cbn [mbind option_bind]. by destruct r.
Qed.

(** ** The size of a manifest *)

Lemma slen_quoted s : slen (quoted s) = slen s + 2.
Proof. unfold quoted, slen. simpl. rewrite length_append. simpl. lia. Qed.

Lemma runes_bytes s : Forall (fun r => 1 <= slen (rune_bytes r)) (runes s).
Proof.
  induction s as [s IH] using string_ind_lt. destruct s as [|c s]; [constructor|]. rewrite runes_cons.
  constructor; [apply first_rune_bytes|]. apply IH. pose proof (first_rune_shorter c s). simpl. lia.
Qed.

(** A character takes at most six bytes for each of its own. *)
Lemma escape_length r : 1 <= slen (rune_bytes r) -> slen (escape_rune r) <= 6 * slen (rune_bytes r).
Proof.
  intros H. unfold escape_rune. destruct r as [cp enc|b]; [|exact ltac:(vm_compute; discriminate)].
  cbn [rune_bytes] in *.
  repeat match goal with |- context [if ?b then _ else _] => destruct b; [unfold slen in *; simpl String.length in *; lia|] end. lia.
Qed.

Lemma encode_string_length s : slen (encode_string s) <= 6 * slen s + 2.
Proof.
  unfold encode_string. rewrite slen_quoted. rewrite <- (concat_runes_runes s) at 2.
  assert (slen (foldr (fun r acc => escape_rune r +:+ acc) "" (runes s)) <= 6 * slen (concat_runes (runes s))); [|lia].
  induction (runes_bytes s) as [|r l Hr _ IH]; [done|]. cbn [foldr]. rewrite concat_runes_cons, !slen_app.
  pose proof (escape_length r Hr). lia.
Qed.

(** What the stores write fits the limit they read. *)
Lemma record_fits f r : known_field f -> writable r ->
  6 * (slen (mf_Key r) + slen (DataName r) + slen (mf_SHA256 r) + slen (mf_Version r) + slen (mf_BackendVersion r)) <= 16000 ->
  slen (print (record_json f r)) <= 16384.
Proof.
  intros Hf [Hk Hd Hs Hv Hb Hz Ht] Hl. destruct (format_shape _ Ht) as [Hc Hct]. pose proof (itoa_length _ Hz).
  pose proof (encode_string_length (mf_Key r)). pose proof (encode_string_length (DataName r)).
  pose proof (encode_string_length (mf_SHA256 r)). pose proof (encode_string_length (mf_Version r)).
  pose proof (encode_string_length (mf_BackendVersion r)). pose proof (slen_nonneg (mf_BackendVersion r)).
  assert (slen (encode_string f) <= 11) by (destruct Hf as [-> | ->]; vm_compute; discriminate).
  unfold record_json, omit_empty. rewrite print_obj. destruct (String.eqb (mf_BackendVersion r) ""); cbn [app map];
    unfold member; cbn [fst snd print JInt]; rewrite (encode_unescaped (rfc3339nano _)) by (by apply time_unescaped);
    rewrite !join_cons; cbn [join]; rewrite !slen_app, !slen_quoted;
    change (slen (encode_string "key")) with 5;
    change (slen (encode_string "size")) with 6; change (slen (encode_string "sha256")) with 8;
    change (slen (encode_string "version")) with 9; change (slen (encode_string "committed_at")) with 14;
    try change (slen (encode_string "backend_version")) with 17;
    change (slen "{") with 1; change (slen "}") with 1; change (slen ":") with 1; change (slen ",") with 1; lia.
Qed.

End Manifests.
