(* ===== verification/Filesystem.v ===== *)
(** * The filesystem blob store (src/internal/blobstore/filesystem/filesystem.go)

    [Module Filesystem] models the store over a directory: the bytes of a blob
    are staged, verified and renamed into place, and a manifest is linked to
    its name only afterwards; reading goes through the manifest.

    The directory behind [os.Root] is flat: names with what they name, a
    regular file with its bytes or something else.  A hard link gives a file a
    second name; no file is written to after it was linked.  Every call of the
    operating system may fail without an effect, or take effect and report a
    failure, and a write may leave a part of its bytes; a process that dies is
    one all of whose later calls fail.  What other processes do to the
    directory between two calls is an input.  The loss of bytes that were not
    synced is not modelled. *)

From S2P Require Import Prelude GoStrings Encoding Txn Json GoTime Unmarshal Blobstore Streams GoPath Manifests.

Local Open Scope Z_scope.

Module Filesystem.
Import Blobstore Streams Manifests.

Definition maxManifestBytes : Z := Z.shiftl 16 10.

(** ** Manifests *)

Definition manifestName (key : Key) : string := key +:+ ".manifest.json".
Definition data_name (key : Key) (version : string) : string := key +:+ "." +:+ version +:+ ".blob".
Definition staging_name (version : string) : string := ".staging-" +:+ version.
Definition temporary_manifest (version : string) : string := ".manifest-" +:+ version.

Definition manifest_json : manifest -> json := record_json "data_name".
Definition encode_manifest : manifest -> option string := encode_record "data_name".
Definition decode_manifest : string -> option manifest := decode_record "data_name".

(** The checks of [readManifest] on a decoded record. *)
Definition valid_manifest (key : Key) (r : manifest) : bool :=
  String.eqb (mf_Key r) key && negb (String.eqb (mf_Version r) "") &&
  String.eqb (DataName r) (data_name key (mf_Version r)) && (0 <=? mf_Size r) && validSHA256 (mf_SHA256 r) &&
  negb (IsZero (mf_CommittedAt r)).

Definition metadata (key : Key) (r : manifest) : Metadata := {|
  m_Key := key; m_Size := mf_Size r; m_SHA256 := mf_SHA256 r; m_Version := mf_Version r;
  m_BackendVersion := mf_BackendVersion r; m_CommittedAt := mf_CommittedAt r |}.

(** ** The root *)

Inductive new_error := ErrRoot (text : string) | ErrNew (e : error).

(** [New] on a system with one volume: [Getwd], [Stat] (whether the path is a
    directory) and [OpenRoot] are the operating system's answers. *)
Definition New (Getwd : option string) (IsDir : string -> option bool) (OpenRoot : string -> bool) (directory : string)
  : result new_error string :=
  if negb (HasPrefix directory "/") then Err (ErrRoot "blob root must be an absolute path")
  else
    let clean := Clean directory in
    if String.eqb clean (Clean ("" +:+ "/")) then Err (ErrRoot "blob root must not be a filesystem root")
    else match Getwd with
    | None => Err (ErrNew (ErrBackend "resolve working directory"))
    | Some workingDirectory =>
        if String.eqb clean (Clean workingDirectory) then Err (ErrRoot "blob root must not be the current working directory")
        else match IsDir clean with
        | Some true => if OpenRoot clean then Ok clean else Err (ErrNew (ErrBackend "open filesystem root"))
        | _ => Err (ErrRoot "blob root must be an existing directory")
        end
    end.

(** ** The directory and its system calls *)

Inductive node := File (content : string) | Special.
Abbreviation directory := (gmap string node).

Inductive errno := ENOENT | EEXIST | EIO.

Definition create (name : string) (d : directory) : result errno unit * directory :=
  match d !! name with Some _ => (Err EEXIST, d) | None => (Ok tt, <[name := File ""]> d) end.

(** A write through the handle of the file that was created under [name]. *)
Definition append_file (name bytes : string) (d : directory) : directory :=
  match d !! name with Some (File c) => <[name := File (c +:+ bytes)]> d | _ => d end.

Definition rename (from to : string) (d : directory) : result errno unit * directory :=
  match d !! from with Some n => (Ok tt, <[to := n]> (delete from d)) | None => (Err ENOENT, d) end.

Definition link (from to : string) (d : directory) : result errno unit * directory :=
  match d !! from, d !! to with
  | Some n, None => (Ok tt, <[to := n]> d)
  | None, _ => (Err ENOENT, d)
  | _, Some _ => (Err EEXIST, d)
  end.

Definition remove (name : string) (d : directory) : result errno unit * directory :=
  match d !! name with Some _ => (Ok tt, delete name d) | None => (Err ENOENT, d) end.

(** [Lstat] and [Open] *)
Definition stat (name : string) (d : directory) : result errno node * directory :=
  match d !! name with Some n => (Ok n, d) | None => (Err ENOENT, d) end.

Section Store.
(** What the operating system does at the [k]-th call, how many bytes of a
    failed write are kept, and what others did before the call. *)
Variables (plan : nat -> fault) (torn : nat -> nat) (others : nat -> directory -> directory).

Record world := World { dir : directory; calls : nat }.

Definition syscall {A} (f : directory -> result errno A * directory) (w : world) : result errno A * world :=
  let d := others (calls w) (dir w) in
  match plan (calls w) with
  | Healthy => let '(r, d') := f d in (r, World d' (S (calls w)))
  | Broken => (Err EIO, World d (S (calls w)))
  | Lost => (Err EIO, World (snd (f d)) (S (calls w)))
  end.

Definition write (name bytes : string) (w : world) : result errno unit * world :=
  let d := others (calls w) (dir w) in
  match plan (calls w) with
  | Healthy => (Ok tt, World (append_file name bytes d) (S (calls w)))
  | Broken => (Err EIO, World (append_file name (stake (torn (calls w)) bytes) d) (S (calls w)))
  | Lost => (Err EIO, World (append_file name bytes d) (S (calls w)))
  end.

(** [Sync] and [Close] of a file that was written. *)
Definition flush (w : world) : result errno unit * world := syscall (fun d => (Ok tt, d)) w.

(** *** Manifests in the directory *)

Definition read_text (n : node) : option string :=
  match n with File c => Some (stake (Z.to_nat (maxManifestBytes + 1)) c) | Special => None end.

Definition readManifest (key : Key) (w : world) : result error manifest * world :=
  match syscall (stat (manifestName key)) w with
  | (Err ENOENT, w) => (Err ErrNotFound, w)
  | (Err _, w) | (Ok Special, w) => (Err ErrIntegrity, w)
  | (Ok (File c), w) =>
      if maxManifestBytes <? slen c then (Err ErrIntegrity, w)
      else match syscall (stat (manifestName key)) w with
      | (Err _, w) => (Err (ErrBackend "open object manifest"), w)
      | (Ok n, w) =>
          match syscall (fun d => (Ok (read_text n), d)) w with
          | (Err _, w) => (Err ErrIntegrity, w)
          | (Ok text, w) =>
              (match text ≫= decode_manifest with
               | Some r => if valid_manifest key r then Ok r else Err ErrIntegrity
               | None => Err ErrIntegrity
               end, w)
          end
      end
  end.

(** The deferred calls, whose errors are ignored. *)
Definition cleanup (name : string) (w : world) : world :=
  snd (syscall (remove name) (snd (flush w))).

(** The temporary manifest is filled and linked to its name. *)
Definition link_manifest (r : manifest) (encoded : string) (w : world) : result error unit * world :=
  let temporary := temporary_manifest (mf_Version r) in
  match write temporary encoded w with
  | (Err _, w) => (Err (ErrBackend "write object manifest"), w)
  | (Ok _, w) =>
      match flush w with
      | (Err _, w) => (Err (ErrBackend "sync object manifest"), w)
      | (Ok _, w) =>
          match flush w with
          | (Err _, w) => (Err (ErrBackend "close object manifest"), w)
          | (Ok _, w) =>
              match syscall (link temporary (manifestName (mf_Key r))) w with
              | (Ok _, w) => (Ok tt, w)
              | (Err _, w) =>
                  match syscall (stat (manifestName (mf_Key r))) w with
                  | (Ok _, w) => (Err ErrAlreadyExists, w)
                  | (Err _, w) => (Err (ErrBackend "commit object manifest"), w)
                  end
              end
          end
      end
  end.

Definition commitManifest (r : manifest) (w : world) : result error unit * world :=
  match encode_manifest r with
  | None => (Err (ErrBackend "encode object manifest"), w)
  | Some encoded =>
      match syscall (create (temporary_manifest (mf_Version r))) w with
      | (Err _, w) => (Err (ErrBackend "create object manifest"), w)
      | (Ok _, w) =>
          let '(answer, w) := link_manifest r encoded w in
          (answer, cleanup (temporary_manifest (mf_Version r)) w)
      end
  end.

(** *** Put *)

(** [ctx] is [ctx.Err()] at each look at it. *)
Variable ctx : nat -> ctx_state.

(** [io.Copy] into the staging file, read by read; [None] is a panic of the
    bounded reader.  The fuel bounds the reads. *)
Inductive copied :=
| FilePanic (w : world)
| FileOutOfFuel (w : world)
| FileCopied (e : option error) (r : @BoundedReader stream) (w : world).

Fixpoint copy_file (fuel : nat) (name : string) (r : @BoundedReader stream) (w : world) : copied :=
  match fuel with
  | O => FileOutOfFuel w
  | S fuel =>
      match Read stream_read ctx r copy_buffer with
      | None => FilePanic w
      | Some (bytes, e, r) =>
          let '(written, w) := if 0 <? slen bytes then write name bytes w else (Ok tt, w) in
          match written, e with
          | Err _, _ => FileCopied (Some (ErrSource "write")) r w
          | Ok _, None => copy_file fuel name r w
          | Ok _, Some e => FileCopied (if is_EOF (Some e) then None else Some e) r w
          end
      end
  end.

Definition normalizeStreamError (k : nat) (e : error) : error :=
  match ContextError (ctx k) with
  | Some c => c
  | None => match e with ErrTooLarge | ErrIntegrity => e | _ => ErrBackend "stream object" end
  end.

Definition new_manifest (key : Key) (version : string) (size : Z) (digest : string) (now : time) : manifest := {|
  mf_Key := key; DataName := data_name key version; mf_Size := size; mf_SHA256 := digest; mf_Version := version;
  mf_BackendVersion := ""; mf_CommittedAt := now |}.

(** After the bytes are on disk: rename and publish. *)
Definition publish (key : Key) (version : string) (size : Z) (digest : string) (now : time) (w : world)
  : result error Metadata * world :=
  match syscall (rename (staging_name version) (data_name key version)) w with
  | (Err _, w) => (Err (ErrBackend "commit object bytes"), cleanup (staging_name version) w)
  | (Ok _, w) =>
      let record := new_manifest key version size digest now in
      match commitManifest record w with
      | (Err e, w) => (Err e, snd (flush (snd (syscall (remove (data_name key version)) w))))
      | (Ok _, w) => (Ok (metadata key record), snd (flush w))
      end
  end.

(** The staged bytes are checked and flushed; a failure removes them. *)
Definition verify_staged (options : PutOptions) (r : @BoundedReader stream) (w : world)
  : result error (Z * string) * world :=
  match Result r with
  | Err e => (Err (normalizeStreamError (checks r) e), w)
  | Ok (size, digest) =>
      match VerifyExpected size digest options with
      | Err e => (Err e, w)
      | Ok _ =>
          match ContextError (ctx (checks r)) with
          | Some e => (Err e, w)
          | None =>
              match flush w with
              | (Err _, w) => (Err (ErrBackend "sync staging object"), w)
              | (Ok _, w) =>
                  match ContextError (ctx (S (checks r))) with
                  | Some e => (Err e, w)
                  | None =>
                      match flush w with
                      | (Err _, w) => (Err (ErrBackend "close staging object"), w)
                      | (Ok _, w) => (Ok (size, digest), w)
                      end
                  end
              end
          end
      end
  end.

(** [Put] once the version is drawn; [None] is a panic. *)
Definition put_version (version : string) (now : time) (key : Key) (source : stream) (options : PutOptions) (w : world)
  : option (result error Metadata) * world :=
  let staging := staging_name version in
  match syscall (create staging) w with
  | (Err _, w) => (Some (Err (ErrBackend "create staging object")), w)
  | (Ok _, w) =>
      match copy_file (reads source) staging (NewBoundedReader source (MaxBytes options)) w with
      | FilePanic w | FileOutOfFuel w => (None, cleanup staging w)
      | FileCopied (Some e) r w => (Some (Err (normalizeStreamError (checks r) e)), cleanup staging w)
      | FileCopied None r w =>
          match verify_staged options r w with
          | (Err e, w) => (Some (Err e), cleanup staging w)
          | (Ok (size, digest), w) =>
              let '(answer, w) := publish key version size digest now w in (Some answer, w)
          end
      end
  end.

(** [random] are the bytes [rand.Read] delivered, if it did. *)
Definition Put (random : option string) (now : time) (key : Key) (source : stream) (options : PutOptions) (w : world)
  : option (result error Metadata) * world :=
  match ValidatePutOptions key true options with
  | Err e => (Some (Err e), w)
  | Ok _ =>
      match readManifest key w with
      | (Ok _, w) => (Some (Err ErrAlreadyExists), w)
      | (Err ErrNotFound, w) =>
          match random with
          | None => (Some (Err (ErrBackend "generate object version")), w)
          | Some bytes => put_version (encode_id "" bytes) now key source options w
          end
      | (Err e, w) => (Some (Err e), w)
      end
  end.

(** *** Open, Stat and Delete *)

(** [safeReadCloser.Read] over the bytes of a file that arrive in pieces. *)
Definition safe_read (n : Z) (s : stream) : string * option error * stream :=
  let '(bytes, e, s) := stream_read n s in
  (bytes, match e with Some x => if is_EOF e then e else Some (ErrBackend "read object") | None => None end, s).

(** The pieces in which the operating system delivers a file, and whether it
    fails on the way. *)
Variable delivery : string -> stream.

Definition Open (key : Key) (w : world) : result error (@verifiedReader stream * Metadata) * world :=
  if negb (Valid key) then (Err ErrInvalidKey, w)
  else match readManifest key w with
  | (Err e, w) => (Err e, w)
  | (Ok r, w) =>
      match syscall (stat (DataName r)) w with
      | (Err _, w) | (Ok Special, w) => (Err ErrIntegrity, w)
      | (Ok (File _), w) =>
          match syscall (stat (DataName r)) w with
          | (Err _, w) => (Err ErrIntegrity, w)
          | (Ok n, w) =>
              let source := match n with File c => delivery c | Special => Stream [] (ErrSource "read") false end in
              (Ok (NewVerifiedReader source (mf_Size r) (mf_SHA256 r), metadata key r), w)
          end
      end
  end.

Definition Stat (look : nat) (key : Key) (w : world) : result error Metadata * world :=
  match ContextError (ctx look) with
  | Some e => (Err e, w)
  | None =>
      if negb (Valid key) then (Err ErrInvalidKey, w)
      else match readManifest key w with
      | (Err e, w) => (Err e, w)
      | (Ok r, w) => (Ok (metadata key r), w)
      end
  end.

(** [Remove], where a name that does not exist is no error. *)
Definition remove_present (name operation : string) (w : world) : result error unit * world :=
  match syscall (remove name) w with
  | (Ok _, w) | (Err ENOENT, w) => (Ok tt, w)
  | (Err _, w) => (Err (ErrBackend operation), w)
  end.

Definition Delete (look : nat) (key : Key) (expectedVersion : string) (w : world) : result error unit * world :=
  match ContextError (ctx look) with
  | Some e => (Err e, w)
  | None =>
      if negb (Valid key) then (Err ErrInvalidKey, w)
      else if String.eqb expectedVersion "" then (Err ErrInvalidOptions, w)
      else match readManifest key w with
      | (Err ErrNotFound, w) => (Ok tt, w)
      | (Err e, w) => (Err e, w)
      | (Ok r, w) =>
          if negb (String.eqb (mf_Version r) expectedVersion) then (Err ErrVersion, w)
          else match remove_present (DataName r) "delete object bytes" w with
          | (Err e, w) => (Err e, w)
          | (Ok _, w) => remove_present (manifestName key) "delete object manifest" w
          end
      end
  end.
End Store.

End Filesystem.
