(* ===== verification/FilesystemFacts.v ===== *)
(** * Facts about the names of the filesystem store

    The names the store gives to its files do not collide. *)

From S2P Require Import Prelude GoStrings Encoding Txn Json JsonFacts GoTime GoTimeFacts Blobstore Streams GoPath Manifests Filesystem.

Local Open Scope Z_scope.

Module FilesystemFacts.
Import Blobstore Streams Manifests Filesystem.

(** ** The root *)

(** A root that is accepted is an absolute, clean path of a directory that is
    neither the filesystem root nor the working directory. *)
Lemma New_root cwd isdir openroot directory root : New (Some cwd) isdir openroot directory = Ok root ->
  root = GoPath.Clean directory /\ HasPrefix directory "/" = true /\ root <> "/" /\ root <> GoPath.Clean cwd /\ isdir root = Some true.
Proof.
  unfold New. destruct (HasPrefix directory "/") eqn:Ep; [|done]. cbn [negb]. cbv zeta. change (GoPath.Clean ("" +:+ "/")) with "/".
  destruct (String.eqb_spec (GoPath.Clean directory) "/"); [done|]. destruct (String.eqb_spec (GoPath.Clean directory) (GoPath.Clean cwd)); [done|].
  destruct (isdir _) as [[]|] eqn:Ed; [|done..]. destruct (openroot _); [|done]. intros [= <-]. done.
Qed.

(** ** Names *)

Lemma append_split (s t s' t' : string) : slen s = slen s' -> s +:+ t = s' +:+ t' -> s = s' /\ t = t'.
Proof.
  revert s'. induction s as [|c s IH]; intros [|c' s'] Hl E; unfold slen in Hl; simpl in Hl; try lia; [done|].
  injection E as -> E. destruct (IH s') as [-> ->]; [unfold slen; lia|done..].
Qed.

Lemma append_split_end (s t s' t' : string) : slen t = slen t' -> s +:+ t = s' +:+ t' -> s = s' /\ t = t'.
Proof.
  intros Hl E. apply append_split; [|done]. apply (f_equal slen) in E. rewrite !slen_app in E. lia.
Qed.

Lemma Valid_shape k : Valid k = true -> slen k = 56 /\ sforallb name_byte k = true /\ exists r, k = "blb_" +:+ r.
Proof.
  unfold Valid, keyPattern, match_prefixed. destruct (strip_prefix "blb_" k) as [r|] eqn:E; [|done].
  apply strip_prefix_Some in E as ->. intros H. simp_bool. rewrite slen_app, sforallb_app.
  split_and!; [change (slen "blb_") with 4; lia| |by exists r].
  apply andb_true_iff. split; [done|]. eapply sforallb_impl; [|eassumption]. intros c Hc. unfold name_byte. by rewrite Hc.
Qed.

Lemma manifestName_inj k k' : manifestName k = manifestName k' -> k = k'.
Proof. unfold manifestName. intros E. by apply append_split_end in E as [-> _]. Qed.

Lemma data_name_inj k v k' v' : Valid k = true -> Valid k' = true -> data_name k v = data_name k' v' -> k = k' /\ v = v'.
Proof.
  intros [Hk _]%Valid_shape [Hk' _]%Valid_shape E. apply append_split in E as [-> E]; [|lia]. split; [done|].
  apply append_inj_l in E. by apply append_split_end in E as [-> _].
Qed.

Lemma data_not_manifest k v k' : data_name k v <> manifestName k'.
Proof.
  unfold data_name, manifestName. change ".manifest.json" with (".manifest" +:+ ".json").
  rewrite <- (append_assoc k' ".manifest"), <- (append_assoc "." v), <- (append_assoc k). intros E.
  by apply append_split_end in E as [_ E].
Qed.

(** The names [Put] uses for itself start with a point. *)
Definition private (v name : string) : Prop := name = staging_name v \/ name = temporary_manifest v.

Lemma private_not_key v name k r : private v name -> Valid k = true -> name <> k +:+ r.
Proof. by intros [-> | ->] (_ & _ & s & ->)%Valid_shape. Qed.

Lemma private_inj v v' name : private v name -> private v' name -> v = v'.
Proof.
  intros [-> | ->] [E|E]; unfold staging_name, temporary_manifest in E; try done; by injection E.
Qed.

Lemma private_not_manifest v name k : private v name -> Valid k = true -> name <> manifestName k.
Proof. apply private_not_key. Qed.

Lemma private_not_data v name k v' : private v name -> Valid k = true -> name <> data_name k v'.
Proof. apply private_not_key. Qed.

Lemma staging_not_temporary v v' : staging_name v <> temporary_manifest v'.
Proof. done. Qed.

End FilesystemFacts.
