(* ===== verification/FilesystemTheorems.v ===== *)
(** * The filesystem blob store is correct

    [view] is what a directory means: the blobs that can be read from it.
    [FilesystemTheorems] shows that a blob appears whole or not at all,
    whatever calls of the operating system fail and whatever other puts do
    meanwhile, and that the operations implement a store of immutable
    versions. *)

From S2P Require Import Prelude GoStrings Encoding Txn Json JsonFacts GoTime Blobstore Streams Manifests Filesystem FilesystemFacts.

Local Open Scope Z_scope.

Module FilesystemTheorems.
Import Blobstore Streams Manifests Filesystem FilesystemFacts.

(** ** What a directory means *)

(** [readManifest] of a directory at rest. *)
Definition read_at (d : directory) (k : Key) : result error manifest :=
  match d !! manifestName k with
  | None => Err ErrNotFound
  | Some Special => Err ErrIntegrity
  | Some (File c) =>
      if maxManifestBytes <? slen c then Err ErrIntegrity
      else match decode_manifest c with
      | Some r => if valid_manifest k r then Ok r else Err ErrIntegrity
      | None => Err ErrIntegrity
      end
  end.

Definition matches (r : manifest) (c : string) : bool :=
  (slen c =? mf_Size r) && String.eqb (hex_encode (sha256 c)) (mf_SHA256 r).

(** A blob that a reader gets to the end of. *)
Definition view (d : directory) (k : Key) : option (Metadata * string) :=
  match read_at d k with
  | Ok r =>
      match d !! DataName r with
      | Some (File c) => if matches r c then Some (metadata k r, c) else None
      | _ => None
      end
  | Err _ => None
  end.

(** ** The invariant *)

(** A manifest can be read, its version is one that [Put] draws, and its data
    file is the whole blob or is gone. *)
Definition genuine (d : directory) (k : Key) : Prop :=
  exists r, read_at d k = Ok r /\ sforallb base32_char (mf_Version r) = true /\
    (d !! DataName r = None \/ exists c, d !! DataName r = Some (File c) /\ matches r c = true).

Definition store_ok (d : directory) : Prop :=
  forall k, Valid k = true -> is_Some (d !! manifestName k) -> genuine d k.

Lemma store_ok_empty : store_ok ∅.
Proof. intros k _ [n Hn]. by rewrite lookup_empty in Hn. Qed.

Lemma read_at_same d d' k : d' !! manifestName k = d !! manifestName k -> read_at d' k = read_at d k.
Proof. intros E. unfold read_at. by rewrite E. Qed.

Lemma read_at_Ok d k r : read_at d k = Ok r -> valid_manifest k r = true /\ is_Some (d !! manifestName k).
Proof.
  unfold read_at. destruct (d !! manifestName k) as [[c|]|]; [|done..]. destruct (_ <? _); [done|].
  destruct (decode_manifest c) as [r'|]; [|done]. destruct (valid_manifest k r') eqn:E; [|done]. by intros [= <-].
Qed.

Lemma read_at_data d k r : read_at d k = Ok r -> DataName r = data_name k (mf_Version r) /\ mf_Key r = k /\ 0 <= mf_Size r.
Proof. intros [H _]%read_at_Ok. unfold valid_manifest in H. by simp_bool. Qed.

Lemma view_Some d k m c : view d k = Some (m, c) <->
  exists r, read_at d k = Ok r /\ d !! DataName r = Some (File c) /\ matches r c = true /\ m = metadata k r.
Proof.
  unfold view. split.
  - destruct (read_at d k) as [r|] eqn:Er; [|done]. destruct (d !! DataName r) as [[c'|]|] eqn:Ed; [|done..].
    destruct (matches r c') eqn:Em; [|done]. intros [= <- <-]. eauto.
  - intros (r & -> & -> & -> & ->). done.
Qed.

(** What one key shows depends on two names. *)
Lemma view_same d d' k : d' !! manifestName k = d !! manifestName k ->
  (forall r, read_at d k = Ok r -> d' !! DataName r = d !! DataName r) -> view d' k = view d k.
Proof.
  intros Em Ed. unfold view. rewrite (read_at_same _ _ _ Em). destruct (read_at d k) as [r|]; [|done]. by rewrite Ed.
Qed.

Lemma genuine_same d d' k : d' !! manifestName k = d !! manifestName k ->
  (forall r, read_at d k = Ok r -> d' !! DataName r = d !! DataName r \/ d' !! DataName r = None) ->
  genuine d k -> genuine d' k.
Proof.
  intros Em Ed (r & Hr & Hv & Hc). exists r. rewrite (read_at_same _ _ _ Em). split_and!; [done..|].
  destruct (Ed r Hr) as [-> | ->]; auto.
Qed.

(** ** Rely and guarantee

    Puts run at the same time.  [own k v] is what the put of version [v] under
    key [k] does to the directory with one call: it touches its own names
    only, and the manifest it makes appear is that of a whole blob.  [rely k
    v] is what it expects of everybody else. *)

Definition unclaimed (k : Key) (v : string) (d : directory) : Prop :=
  forall r, read_at d k = Ok r -> mf_Version r <> v.

Record own (k : Key) (v : string) (d d' : directory) : Prop := {
  own_frame : forall name, ~ private v name -> name <> data_name k v -> name <> manifestName k -> d' !! name = d !! name;
  own_kept : is_Some (d !! manifestName k) -> d' !! manifestName k = d !! manifestName k;
  own_claims : forall r, read_at d' k = Ok r -> read_at d k = Ok r \/ mf_Version r = v /\ is_Some (view d' k);
  own_ok : store_ok d -> store_ok d'
}.

Record rely (k : Key) (v : string) (d d' : directory) : Prop := {
  rely_private : forall name, private v name -> d' !! name = d !! name;
  rely_data : d' !! data_name k v = d !! data_name k v;
  rely_kept : forall k', Valid k' = true -> is_Some (d !! manifestName k') -> d' !! manifestName k' = d !! manifestName k';
  rely_unclaimed : unclaimed k v d -> unclaimed k v d';
  rely_ok : store_ok d -> store_ok d'
}.

(** One change of the directory while a put runs: its own or somebody else's. *)
Definition step (others : nat -> directory -> directory) (k : Key) (v : string) (d d' : directory) : Prop :=
  own k v d d' \/ exists n, d' = others n d.

#[global] Instance rely_refl k v : Reflexive (rely k v).
Proof. by intros d; split. Qed.

(** Puts of different versions can run beside each other. *)
Lemma own_rely k v k' v' d d' : Valid k = true -> Valid k' = true -> v <> v' -> own k v d d' -> rely k' v' d d'.
Proof.
  intros Hk Hk' Hv [Hf Hkept Hcl Hok].
  assert (forall x, Valid x = true -> x <> k -> d' !! manifestName x = d !! manifestName x) as Hman.
  { intros x Hx Hne. apply Hf.
    - intros Hp. by apply (private_not_manifest v _ x Hp).
    - intros E. by apply (data_not_manifest k v x).
    - by intros E%manifestName_inj. }
  split; [| | | |done].
  - intros name Hp. apply Hf.
    + intros Hp'. by apply Hv, (private_inj v v' name).
    + by apply (private_not_data v').
    + by apply (private_not_manifest v').
  - apply Hf.
    + intros Hp. by apply (private_not_data v _ k' v' Hp).
    + by intros [-> ->]%data_name_inj.
    + apply data_not_manifest.
  - intros x Hx Hs. destruct (decide (x = k)) as [->|]; auto.
  - intros Hu r Hr. destruct (decide (k' = k)) as [->|Hne].
    + destruct (Hcl r Hr) as [Hr'|[-> _]]; auto.
    + apply Hu. by rewrite <- (read_at_same d d' k') by auto.
Qed.

(** *** The steps of one put *)

Section Version.
Context (k : Key) (v : string).
Hypothesis Hk : Valid k = true.
Hypothesis Hv : sforallb base32_char v = true /\ slen v = 32.

(** Nothing but files of [Put]'s own changes. *)
Definition hidden (d d' : directory) : Prop := forall n, ~ private v n -> d' !! n = d !! n.

Lemma hidden_manifest d d' x : hidden d d' -> Valid x = true -> d' !! manifestName x = d !! manifestName x.
Proof using Type. intros H Hx. apply H. intros Hp. by apply (private_not_manifest v _ x Hp). Qed.

Lemma hidden_data d d' x u : hidden d d' -> Valid x = true -> d' !! data_name x u = d !! data_name x u.
Proof using Type. intros H Hx. apply H. intros Hp. by apply (private_not_data v _ x u Hp). Qed.

(** Changes to the private names and the data file. *)
Lemma own_unpublished d d' :
  (forall n, ~ private v n -> n <> data_name k v -> d' !! n = d !! n) ->
  unclaimed k v d \/ d' !! data_name k v = d !! data_name k v \/ d' !! data_name k v = None -> own k v d d'.
Proof using Hk.
  intros Hf Hd.
  assert (forall x, Valid x = true -> d' !! manifestName x = d !! manifestName x) as Hman.
  { intros x Hx. apply Hf; [|by intros E; apply (data_not_manifest k v x)].
    intros Hp. by apply (private_not_manifest v _ x Hp). }
  split.
  - intros n H1 H2 _. by apply Hf.
  - intros _. by apply Hman.
  - intros r. rewrite (read_at_same d d' k) by auto. by left.
  - intros Hok x Hx Hs. rewrite Hman in Hs by done. apply (genuine_same d); [auto| |by apply Hok].
    intros r Hr. destruct (read_at_data d x r Hr) as (-> & Hkey & _).
    destruct (decide (data_name x (mf_Version r) = data_name k v)) as [E|Hne].
    + rewrite E. apply data_name_inj in E as [-> E]; [|done..]. destruct Hd as [Hu|[Hd|Hd]]; auto.
      by apply Hu in Hr.
    + left. apply Hf; [|done]. intros Hp. by apply (private_not_data v _ x (mf_Version r) Hp).
Qed.

Lemma own_hidden d d' : hidden d d' -> own k v d d'.
Proof using Hk.
  intros H. apply own_unpublished; [auto|]. right. left. by apply hidden_data.
Qed.

(** The record of a blob with content [c]. *)
Definition record (c : string) (now : time) : manifest := new_manifest k v (slen c) (hex_encode (sha256 c)) now.

(** A clock whose times a manifest can hold. *)
Definition clock_ok (now : time) : Prop := year_zero <= now < year_10000 /\ now <> 0.

Lemma record_ok c now : slen c <= max_int64 -> clock_ok now ->
  writable (record c now) /\ valid_manifest k (record c now) = true /\ matches (record c now) c = true.
Proof using Hk Hv.
  intros Hc [Hnow Hz]. destruct Hv as [Hv1 Hv2]. destruct (Valid_shape k Hk) as (Hl & Hn & _).
  pose proof (slen_nonneg c). split_and!.
  - assert (sforallb name_byte v = true) as Hvn.
    { eapply sforallb_impl; [|exact Hv1]. intros x Hx. unfold name_byte. by rewrite Hx. }
    split; cbn [record new_manifest mf_Key DataName mf_SHA256 mf_Version mf_BackendVersion mf_Size mf_CommittedAt]; try done;
      apply unescaped_valid, names_unescaped; try done.
    + unfold data_name. by rewrite !sforallb_app, Hn, Hvn.
    + eapply sforallb_impl; [|apply hex_encode_class]. intros x Hx. unfold name_byte. by rewrite Hx, orb_true_r.
  - unfold valid_manifest. cbn [record new_manifest mf_Key DataName mf_SHA256 mf_Version mf_BackendVersion mf_Size mf_CommittedAt].
    rewrite !String.eqb_refl, (proj2 (Z.leb_le 0 (slen c))) by done. unfold validSHA256, IsZero.
    rewrite hex_encode_length, sha256_length, hex_encode_class, (proj2 (Z.eqb_neq now 0)) by done.
    destruct (String.eqb_spec v "") as [->|]; [done|]. done.
  - unfold matches. cbn [record new_manifest mf_SHA256 mf_Size]. by rewrite Z.eqb_refl, String.eqb_refl.
Qed.

Lemma record_read d c now : slen c <= max_int64 -> clock_ok now ->
  d !! manifestName k = Some (File (print (manifest_json (record c now)))) -> read_at d k = Ok (record c now).
Proof using Hk Hv.
  intros Hc Hnow E. destruct (record_ok c now Hc Hnow) as (Hw & Hval & _). unfold read_at. rewrite E.
  assert (slen (print (manifest_json (record c now))) <= maxManifestBytes) as Hlen.
  { apply record_fits; [by left|done|]. destruct (Valid_shape k Hk) as (Hl & _ & _). destruct Hv as [_ Hv2].
    cbn [record new_manifest mf_Key DataName mf_SHA256 mf_Version mf_BackendVersion]. unfold data_name.
    rewrite !slen_app, hex_encode_length, sha256_length, Hl, Hv2. unfold slen. simpl. lia. }
  rewrite (proj2 (Z.ltb_ge _ _)) by done. unfold decode_manifest, manifest_json. rewrite decode_record_json by (done || by left). by rewrite Hval.
Qed.

(** Linking the manifest of a blob that is in place. *)
Lemma own_link d c now : slen c <= max_int64 -> clock_ok now -> d !! manifestName k = None ->
  d !! data_name k v = Some (File c) ->
  own k v d (<[manifestName k := File (print (manifest_json (record c now)))]> d).
Proof using Hk Hv.
  intros Hc Hnow Hm Hd. set (d' := <[_ := _]> d). destruct (record_ok c now Hc Hnow) as (_ & _ & Hmatch).
  assert (read_at d' k = Ok (record c now)) as Hr by (apply record_read; [done..|apply lookup_insert_eq]).
  assert (forall n, n <> manifestName k -> d' !! n = d !! n) as Hother by (intros n Hn; by apply lookup_insert_ne).
  assert (d' !! data_name k v = Some (File c)) as Hd' by (rewrite Hother; [done|apply data_not_manifest]).
  split.
  - auto.
  - rewrite Hm. by intros [? ?].
  - intros r. rewrite Hr. intros [= <-]. right. split; [done|]. exists (metadata k (record c now), c).
    apply view_Some. eauto.
  - intros Hok x Hx Hs. destruct (decide (x = k)) as [->|Hne].
    + exists (record c now). destruct Hv. eauto 10.
    + assert (manifestName x <> manifestName k) by (by intros E%manifestName_inj). rewrite Hother in Hs by done.
      apply (genuine_same d); [auto| |by apply Hok]. intros r Hr'. left.
      destruct (read_at_data d x r Hr') as (-> & _ & _). apply Hother, data_not_manifest.
Qed.

(** *** Rules for the calls of one put *)

Section Calls.
Context (plan : nat -> fault) (torn : nat -> nat) (others : nat -> directory -> directory).
Hypothesis Hothers : forall n d, rely k v d (others n d).

Definition stable (P : directory -> Prop) : Prop := forall d d', P d -> rely k v d d' -> P d'.

(** What other processes and the put's own files cannot change. *)
Definition robust (P : directory -> Prop) : Prop := stable P /\ forall d d', P d -> hidden d d' -> P d'.

Abbreviation steps := (rtc (step others k v)).

(** One call: it sees a directory that others may have changed. *)
Lemma syscall_rule {A} (f : directory -> result errno A * directory) (P : directory -> Prop) w r w' :
  stable P -> P (dir w) -> (forall d, P d -> own k v d (snd (f d))) -> syscall plan others f w = (r, w') ->
  steps (dir w) (dir w') /\ exists d, P d /\
    (f d = (r, dir w') \/ r = Err EIO /\ (dir w' = d \/ dir w' = snd (f d))).
Proof using Hothers.
  intros Hst HP Hown. unfold syscall. set (d := others (calls w) (dir w)).
  assert (P d) as HPd by (eapply Hst; [exact HP|apply Hothers]).
  assert (steps (dir w) d) as Hs by (apply rtc_once; right; by eexists).
  assert (steps d (snd (f d))) as Hs' by (apply rtc_once; left; by apply Hown).
  destruct (plan (calls w)).
  - destruct (f d) as [r0 d'] eqn:Ef. intros [= <- <-]. cbn [dir]. simpl in Hs'.
    split; [by etrans|]. exists d. auto.
  - intros [= <- <-]. cbn [dir]. split; [done|]. exists d. auto.
  - intros [= <- <-]. cbn [dir]. split; [by etrans|]. exists d. auto.
Qed.

Lemma hidden_refl d : hidden d d.
Proof using Type. done. Qed.

(** A call that at most changes files of the put's own. *)
Lemma hidden_rule {A} (f : directory -> result errno A * directory) (P : directory -> Prop) w r w' :
  robust P -> P (dir w) -> (forall d, hidden d (snd (f d))) -> syscall plan others f w = (r, w') ->
  P (dir w') /\ steps (dir w) (dir w').
Proof using Hk Hv Hothers.
  intros [Hst Hh] HP Hf Hc. destruct (syscall_rule f P w r w' Hst HP) as [Hs (d & Hd & Hcase)]; [|done|].
  { intros d _. by apply own_hidden. }
  split; [|done]. specialize (Hf d). destruct Hcase as [E|[_ [->| ->]]]; [|done|eauto]. rewrite E in Hf. eauto.
Qed.

(** A call that changes nothing. *)
Lemma look_rule {A} (f : directory -> result errno A * directory) (P : directory -> Prop) w r w' :
  stable P -> P (dir w) -> (forall d, snd (f d) = d) -> syscall plan others f w = (r, w') ->
  P (dir w') /\ steps (dir w) (dir w') /\ (f (dir w') = (r, dir w') \/ r = Err EIO).
Proof using Hk Hv Hothers.
  intros Hst HP Hf Hc. destruct (syscall_rule f P w r w' Hst HP) as [Hs (d & Hd & Hcase)]; [|done|].
  { intros d _. rewrite Hf. apply own_hidden, hidden_refl. }
  pose proof (Hf d) as Hfd. destruct Hcase as [E|[-> Hw]].
  - rewrite E in Hfd. simpl in Hfd. subst d. auto.
  - rewrite Hfd in Hw. assert (dir w' = d) as E by (by destruct Hw). split; [by rewrite E|]. split; [done|by right].
Qed.

Lemma remove_hidden name d : private v name -> hidden d (snd (remove name d)).
Proof using Type.
  intros Hp n Hn. unfold remove. destruct (d !! name); [|done]. simpl. apply lookup_delete_ne. by intros ->.
Qed.

Lemma create_hidden name d : private v name -> hidden d (snd (create name d)).
Proof using Type.
  intros Hp n Hn. unfold create. destruct (d !! name); [done|]. simpl. apply lookup_insert_ne. by intros ->.
Qed.

Lemma append_hidden name bytes d : private v name -> hidden d (append_file name bytes d).
Proof using Type.
  intros Hp n Hn. unfold append_file. destruct (d !! name) as [[c|]|]; [|done..]. apply lookup_insert_ne. by intros ->.
Qed.

Lemma flush_rule P w r w' : stable P -> P (dir w) -> flush plan others w = (r, w') -> P (dir w') /\ steps (dir w) (dir w').
Proof using Hk Hv Hothers. intros Hst HP Hf. apply (look_rule _ P) in Hf; [tauto|done..]. Qed.

(** The deferred calls. *)
Lemma cleanup_rule P name w : robust P -> private v name -> P (dir w) ->
  P (dir (cleanup plan others name w)) /\ steps (dir w) (dir (cleanup plan others name w)).
Proof using Hk Hv Hothers.
  intros HR Hp HP. unfold cleanup. destruct (flush plan others w) as [r w1] eqn:E1.
  apply (flush_rule P) in E1 as [HP1 Hs1]; [|apply HR|done]. cbn [snd].
  destruct (syscall plan others (remove name) w1) as [r2 w2] eqn:E2.
  apply (hidden_rule _ P) in E2 as [HP2 Hs2]; [|done..|intros d; by apply remove_hidden]. split; [done|by etrans].
Qed.

(** A write to a file of the put's own. *)
Lemma write_rule P name bytes c w r w' : robust P -> private v name -> P (dir w) -> dir w !! name = Some (File c) ->
  write plan torn others name bytes w = (r, w') ->
  P (dir w') /\ steps (dir w) (dir w') /\ (r = Ok tt -> dir w' !! name = Some (File (c +:+ bytes))).
Proof using Hk Hv Hothers.
  intros [Hst Hh] Hp HP Hc. unfold write. set (d := others (calls w) (dir w)).
  assert (P d) as HPd by (eapply Hst; [exact HP|apply Hothers]).
  assert (steps (dir w) d) as Hs by (apply rtc_once; right; by eexists).
  assert (d !! name = Some (File c)) as Hcd by (unfold d; by rewrite (rely_private _ _ _ _ (Hothers _ _))).
  assert (forall b, P (append_file name b d) /\ steps (dir w) (append_file name b d)) as Hb.
  { intros b. pose proof (append_hidden name b d Hp) as Hhid. split; [eauto|]. etrans; [exact Hs|].
    apply rtc_once. left. by apply own_hidden. }
  destruct (plan (calls w)); intros [= <- <-]; cbn [dir]; (split_and!; [apply Hb|apply Hb|]); [|done..].
  intros _. unfold append_file. rewrite Hcd. apply lookup_insert_eq.
Qed.

(** *** The stages of a put *)

(** Nothing of this version is visible. *)
Definition idle (d : directory) : Prop := store_ok d /\ unclaimed k v d.

(** The bytes are under their final name. *)
Definition placed (c : string) (d : directory) : Prop := idle d /\ d !! data_name k v = Some (File c).

(** The blob is visible. *)
Definition linked (c : string) (now : time) (d : directory) : Prop :=
  store_ok d /\ d !! manifestName k = Some (File (print (manifest_json (record c now)))) /\
  d !! data_name k v = Some (File c).

(** If this version is visible, so is the whole of [c]. *)
Definition settled (c : string) (d : directory) : Prop :=
  store_ok d /\ forall r, read_at d k = Ok r -> mf_Version r = v ->
    d !! DataName r = None \/ view d k = Some (metadata k r, c).

Lemma hidden_ok d d' : hidden d d' -> store_ok d -> store_ok d'.
Proof using Hk. intros H. apply (own_ok k v), own_hidden, H. Qed.

Lemma hidden_read d d' : hidden d d' -> read_at d' k = read_at d k.
Proof using Hk. intros H. apply read_at_same, (hidden_manifest _ _ _ H Hk). Qed.

Lemma idle_robust : robust idle.
Proof using Hk.
  split; intros d d' [Hok Hu] H.
  - split; [by apply H|by apply H].
  - split; [by eapply hidden_ok|]. intros r. rewrite (hidden_read d) by done. apply Hu.
Qed.

Lemma placed_robust c : robust (placed c).
Proof using Hk.
  destruct idle_robust as [H1 H2]. split; intros d d' [Hi Hd] H.
  - split; [eauto|]. rewrite <- Hd. apply (rely_data _ _ _ _ H).
  - split; [eauto|]. rewrite <- Hd. by apply hidden_data.
Qed.

Lemma linked_robust c now : robust (linked c now).
Proof using Hk.
  split; intros d d' (Hok & Hm & Hd) H.
  - split_and!; [by apply H| |].
    + rewrite <- Hm. apply (rely_kept _ _ _ _ H); [done|by rewrite Hm].
    + rewrite <- Hd. apply (rely_data _ _ _ _ H).
  - split_and!; [by eapply hidden_ok| |].
    + rewrite <- Hm. by apply hidden_manifest.
    + rewrite <- Hd. by apply hidden_data.
Qed.

(** What a key shows survives when its names do. *)
Lemma claimed_kept d d' c r : d' !! manifestName k = d !! manifestName k -> d' !! data_name k v = d !! data_name k v ->
  read_at d' k = Ok r -> mf_Version r = v ->
  (read_at d k = Ok r -> d !! DataName r = None \/ view d k = Some (metadata k r, c)) ->
  d' !! DataName r = None \/ view d' k = Some (metadata k r, c).
Proof using Type.
  intros Em Ed Hr Hver H. rewrite (read_at_same d d') in Hr by done. specialize (H Hr).
  destruct (read_at_data d k r Hr) as (Hn & _ & _). rewrite Hver in Hn. rewrite Hn in *. rewrite Ed.
  destruct H as [H|H]; [by left|right]. rewrite <- H. apply view_same; [done|]. intros r' Hr'.
  assert (r' = r) as -> by congruence. by rewrite Hn.
Qed.

Lemma settled_robust c : robust (settled c).
Proof using Hk.
  split; intros d d' [Hok Hs] H.
  - split; [by apply H|]. intros r Hr Hver. destruct (d !! manifestName k) as [n|] eqn:Em.
    + eapply (claimed_kept d); [apply (rely_kept _ _ _ _ H); [done|by rewrite Em]|apply (rely_data _ _ _ _ H)|done..|]. auto.
    + exfalso. assert (unclaimed k v d) as Hu by (intros r'; unfold read_at; by rewrite Em).
      by apply (rely_unclaimed _ _ _ _ H Hu r).
  - split; [by eapply hidden_ok|]. intros r Hr Hver.
    eapply (claimed_kept d); [by apply hidden_manifest|by apply hidden_data|done..|]. auto.
Qed.

Lemma idle_settled c d : idle d -> settled c d.
Proof using Type. intros [Hok Hu]. split; [done|]. intros r Hr Hver. by apply Hu in Hr. Qed.

Lemma linked_settled c now d : slen c <= max_int64 -> clock_ok now -> linked c now d ->
  settled c d /\ view d k = Some (metadata k (record c now), c).
Proof using Hk Hv.
  intros Hc Hnow (Hok & Hm & Hd). pose proof (record_read d c now Hc Hnow Hm) as Hr.
  destruct (record_ok c now Hc Hnow) as (_ & _ & Hmatch).
  assert (view d k = Some (metadata k (record c now), c)) as Hview by (apply view_Some; eauto).
  split; [|done]. split; [done|]. rewrite Hr. intros r [= <-] _. by right.
Qed.

Lemma stable_with P name x : stable P -> private v name -> stable (fun d => P d /\ d !! name = x).
Proof using Type.
  intros HP Hp d d' [Hd Hx] H. split; [by eapply HP|]. rewrite <- Hx. by apply H.
Qed.

Lemma create_rule P name w r w' : robust P -> private v name -> P (dir w) -> syscall plan others (create name) w = (r, w') ->
  P (dir w') /\ steps (dir w) (dir w') /\ (is_ok r = true -> dir w' !! name = Some (File "")).
Proof using Hk Hv Hothers.
  intros HR Hp HP Hc. pose proof Hc as Hc'.
  apply (hidden_rule _ P) in Hc as [HP' Hs]; [|done..|intros d; by apply create_hidden]. split_and!; [done..|].
  apply (syscall_rule _ P) in Hc' as [_ (d & _ & Hcase)]; [|apply HR|done|intros d _; by apply own_hidden, create_hidden].
  destruct Hcase as [E|[-> _]]; [|done]. unfold create in E. destruct (d !! name); [injection E as <- _; done|].
  injection E as <- <-. intros _. apply lookup_insert_eq.
Qed.

(** Publishing the manifest of a blob that is in place. *)
Lemma link_rule c now w r w' : slen c <= max_int64 -> clock_ok now ->
  placed c (dir w) -> dir w !! temporary_manifest v = Some (File (print (manifest_json (record c now)))) ->
  syscall plan others (link (temporary_manifest v) (manifestName k)) w = (r, w') ->
  steps (dir w) (dir w') /\ (if is_ok r then linked c now (dir w') else settled c (dir w')).
Proof using Hk Hv Hothers.
  intros Hc Hnow Hp Ht Hcall. set (P := fun d => placed c d /\ d !! temporary_manifest v = Some (File (print (manifest_json (record c now))))).
  assert (private v (temporary_manifest v)) as Hpriv by (by right).
  assert (forall d, P d -> own k v d (snd (link (temporary_manifest v) (manifestName k) d)) /\
    if is_ok (fst (link (temporary_manifest v) (manifestName k) d))
    then linked c now (snd (link (temporary_manifest v) (manifestName k) d))
    else snd (link (temporary_manifest v) (manifestName k) d) = d) as Heff.
  { intros d [[[Hok Hu] Hd] Htd]. unfold link. rewrite Htd. destruct (d !! manifestName k) eqn:Em; cbn [fst snd is_ok].
    - split; [apply own_hidden, hidden_refl|done].
    - pose proof (own_link d c now Hc Hnow Em Hd) as Ho. split; [done|]. split_and!.
      + by apply (own_ok _ _ _ _ Ho).
      + apply lookup_insert_eq.
      + rewrite lookup_insert_ne; [done|]. intros E. by apply (data_not_manifest k v k). }
  destruct (syscall_rule (link (temporary_manifest v) (manifestName k)) P w r w') as [Hs (d & HPd & Hcase)];
    [apply stable_with; [apply placed_robust|done]|done|intros d Hd; by apply Heff|done|].
  split; [done|]. destruct (Heff d HPd) as [_ Hl].
  assert (settled c d) as Hset by (apply idle_settled, HPd).
  destruct Hcase as [E|[-> [E|E]]]; [| |].
  - rewrite E in Hl. cbn [fst snd] in Hl. destruct (is_ok r); [done|]. by rewrite Hl.
  - cbn [is_ok]. by rewrite E.
  - cbn [is_ok]. rewrite E. destruct (is_ok _); [by apply (linked_settled c now)|]. by rewrite Hl.
Qed.

Lemma record_encodes c now : clock_ok now -> encode_manifest (record c now) = Some (print (manifest_json (record c now))).
Proof using Type.
  intros [[H1 H2] _]. unfold encode_manifest, encode_record, marshals. cbn [record new_manifest mf_CommittedAt].
  by rewrite (proj2 (Z.leb_le _ _) H1), (proj2 (Z.ltb_lt _ _) H2).
Qed.

(** The temporary manifest is complete before it gets its name. *)
Lemma link_manifest_rule c now w r w' : slen c <= max_int64 -> clock_ok now -> placed c (dir w) ->
  dir w !! temporary_manifest v = Some (File "") ->
  link_manifest plan torn others (record c now) (print (manifest_json (record c now))) w = (r, w') ->
  steps (dir w) (dir w') /\ (if is_ok r then linked c now (dir w') else settled c (dir w')).
Proof using Hk Hv Hothers.
  intros Hc Hnow Hp Ht. unfold link_manifest. cbv zeta.
  change (mf_Version (record c now)) with v. change (mf_Key (record c now)) with k.
  assert (private v (temporary_manifest v)) as Hpriv by (by right).
  assert (forall d, placed c d -> settled c d) as Hset by (intros d [Hi _]; by apply idle_settled).
  set (encoded := print (manifest_json (record c now))).
  destruct (write plan torn others _ _ w) as [r1 w1] eqn:E1.
  apply (write_rule (placed c) _ _ "") in E1 as (Hp1 & Hs1 & Ht1); [|apply placed_robust|done..].
  destruct r1 as [[]|e1]; [specialize (Ht1 eq_refl); simpl in Ht1|intros [= <- <-]; cbn [is_ok]; auto].
  set (P := fun d => placed c d /\ d !! temporary_manifest v = Some (File encoded)).
  assert (stable P) as HP by (apply stable_with; [apply placed_robust|done]).
  destruct (flush plan others w1) as [r2 w2] eqn:E2.
  destruct (flush_rule P w1 r2 w2 HP ltac:(done) E2) as [[Hp2 Ht2] Hs2].
  assert (steps (dir w) (dir w2)) by (by etrans).
  destruct r2 as [[]|e2]; [|intros [= <- <-]; cbn [is_ok]; auto].
  destruct (flush plan others w2) as [r3 w3] eqn:E3.
  destruct (flush_rule P w2 r3 w3 HP ltac:(done) E3) as [[Hp3 Ht3] Hs3].
  assert (steps (dir w) (dir w3)) by (by etrans).
  destruct r3 as [[]|e3]; [|intros [= <- <-]; cbn [is_ok]; auto].
  destruct (syscall plan others (link _ _) w3) as [r4 w4] eqn:E4.
  apply (link_rule c now) in E4 as [Hs4 Hl]; [|done..]. assert (steps (dir w) (dir w4)) by (by etrans).
  destruct r4 as [[]|e4]; [intros [= <- <-]; cbn [is_ok]; auto|]. cbn [is_ok] in Hl.
  destruct (syscall plan others (stat _) w4) as [r5 w5] eqn:E5.
  apply (look_rule _ (settled c)) in E5 as (Hset5 & Hs5 & _);
    [|apply settled_robust|done|intros d; unfold stat; by destruct (d !! manifestName k)].
  assert (steps (dir w) (dir w5)) by (by etrans).
  destruct r5; intros [= <- <-]; cbn [is_ok]; auto.
Qed.

(** [commitManifest] makes the blob visible or leaves it out, whole. *)
Lemma commit_rule c now w r w' : slen c <= max_int64 -> clock_ok now -> placed c (dir w) ->
  commitManifest plan torn others (record c now) w = (r, w') ->
  steps (dir w) (dir w') /\ (if is_ok r then linked c now (dir w') else settled c (dir w')).
Proof using Hk Hv Hothers.
  intros Hc Hnow Hp. unfold commitManifest. rewrite record_encodes by done.
  change (mf_Version (record c now)) with v.
  assert (private v (temporary_manifest v)) as Hpriv by (by right).
  destruct (syscall plan others (create (temporary_manifest v)) w) as [r1 w1] eqn:E1.
  apply (create_rule (placed c)) in E1 as (Hp1 & Hs1 & Ht1); [|apply placed_robust|done..].
  destruct r1 as [[]|e1]; [|intros [= <- <-]; split; [done|by apply idle_settled, Hp1]]. specialize (Ht1 eq_refl).
  destruct (link_manifest _ _ _ _ _ w1) as [answer w2] eqn:E2.
  apply (link_manifest_rule c now) in E2 as [Hs2 Hin]; [|done..]. intros [= <- <-]. destruct (is_ok answer).
  - destruct (cleanup_rule (linked c now) (temporary_manifest v) w2) as [Hl Hs3]; [apply linked_robust|done..|].
    split; [by repeat (etrans; [done|])|done].
  - destruct (cleanup_rule (settled c) (temporary_manifest v) w2) as [Hl Hs3]; [apply settled_robust|done..|].
    split; [by repeat (etrans; [done|])|done].
Qed.

(** *** Copying the body *)

Section Copying.
Context (ctx : nat -> ctx_state) (max : Z).
Hypothesis Hmax : 0 < max < max_int64.

(** The staging file holds what was hashed; a copy that succeeds has the whole
    body.  There is fuel for every read. *)
Lemma copy_rule fuel : forall r w, (reads (source r) <= fuel)%nat -> bounded_ok max r -> err r = None -> finished r = false ->
  idle (dir w) -> dir w !! staging_name v = Some (File (hashed r)) ->
  exists e r' w', copy_file plan torn others ctx fuel (staging_name v) r w = FileCopied e r' w' /\
    idle (dir w') /\ steps (dir w) (dir w') /\
    (e = None -> dir w' !! staging_name v = Some (File (hashed r')) /\ hashed r' = hashed r +:+ body (source r) /\
       ending (source r) = EOF /\ err r' = None /\ finished r' = true /\ bounded_ok max r').
Proof using Hk Hv Hothers Hmax.
  assert (private v (staging_name v)) as Hpriv by (by left).
  induction fuel as [|fuel IH]; intros r w Hr Hok He Hf Hi Hst; [unfold reads in Hr; destruct (chunks _); simpl in Hr; lia|].
  cbn [copy_file]. destruct (Read_ok stream_read ctx max r copy_buffer stream_read_contract Hmax ltac:(done) Hok)
    as (b0 & e0 & r0 & Hread0 & Hok' & Hh & Hfin).
  destruct (stream_Read ctx copy_buffer max ltac:(done) Hmax r Hok He Hf) as (bytes & e & r' & Hread & Hcases).
  rewrite Hread in Hread0. injection Hread0 as <- <- <-. rewrite Hread.
  destruct (if 0 <? slen bytes then _ else _) as [written w1] eqn:Ew.
  assert (idle (dir w1) /\ steps (dir w) (dir w1) /\ (written = Ok tt -> dir w1 !! staging_name v = Some (File (hashed r'))))
    as (Hi1 & Hs1 & Hst1).
  { destruct (Z.ltb_spec 0 (slen bytes)) as [Hpos|Hpos].
    - apply (write_rule idle _ _ (hashed r)) in Ew as (? & ? & ?); [|apply idle_robust|done..]. by rewrite Hh.
    - injection Ew as <- <-. split_and!; [done..|]. intros _.
      assert (bytes = "") as -> by (apply slen_empty; pose proof (slen_nonneg bytes); lia).
      by rewrite Hh, append_nil_r. }
  destruct written as [[]|we]; [specialize (Hst1 eq_refl)|eexists _, _, _; split; [done|]; split_and!; done].
  destruct Hcases as [(-> & -> & Hend)|[(x & -> & Hx & _)|(-> & He' & Hf' & Hend & Hb & Hlt)]].
  - destruct (Hfin He (or_intror eq_refl)) as [He' Hf']. eexists _, _, _. split; [done|]. split_and!; [done..|]. intros _.
    rewrite Hh in *. split_and!; auto.
  - eexists _, _, _. split; [done|]. split_and!; [done..|]. unfold is_EOF. rewrite bool_decide_eq_false_2 by congruence. done.
  - destruct (IH r' w1) as (e & r2 & w2 & -> & Hi2 & Hs2 & Hfinal); try done; [lia|].
    eexists _, _, _. split; [done|]. split; [done|]. split; [by etrans|]. intros He2.
    destruct (Hfinal He2) as (? & Hh2 & ? & ? & ? & ?). rewrite Hh2, Hh, append_assoc, Hb in *. rewrite <- Hend. auto 10.
Qed.

(** The checks after the copy. *)
Lemma verify_rule options r w a w' : err r = None -> finished r = true -> bounded_ok max r ->
  idle (dir w) -> dir w !! staging_name v = Some (File (hashed r)) ->
  verify_staged plan others ctx options r w = (a, w') ->
  idle (dir w') /\ steps (dir w) (dir w') /\
  (forall x, a = Ok x -> x = (slen (hashed r), hex_encode (sha256 (hashed r))) /\
     dir w' !! staging_name v = Some (File (hashed r)) /\
     VerifyExpected (slen (hashed r)) (hex_encode (sha256 (hashed r))) options = Ok tt).
Proof using Hk Hv Hothers.
  intros He Hf [_ Hsize _] Hi Hst. unfold verify_staged, Result. rewrite He, Hf, Hsize.
  set (digest := hex_encode _). destruct (VerifyExpected _ _ options) as [[]|x] eqn:Ev; [|by intros [= <- <-]].
  destruct (ContextError (ctx (checks r))) as [x|]; [by intros [= <- <-]|].
  set (P := fun d => idle d /\ d !! staging_name v = Some (File (hashed r))).
  assert (stable P) as HP by (apply stable_with; [apply idle_robust|by left]).
  destruct (flush plan others w) as [r1 w1] eqn:E1.
  destruct (flush_rule P w r1 w1 HP ltac:(done) E1) as [[Hi1 Ht1] Hs1].
  destruct r1 as [[]|]; [|by intros [= <- <-]].
  destruct (ContextError (ctx (S (checks r)))) as [x|]; [by intros [= <- <-]|].
  destruct (flush plan others w1) as [r2 w2] eqn:E2.
  destruct (flush_rule P w1 r2 w2 HP ltac:(done) E2) as [[Hi2 Ht2] Hs2].
  assert (steps (dir w) (dir w2)) by (by etrans).
  destruct r2 as [[]|]; intros [= <- <-]; split_and!; try done. intros x [= <-]. done.
Qed.
End Copying.

(** *** Publishing *)

Lemma rename_effect c d : idle d -> d !! staging_name v = Some (File c) ->
  own k v d (snd (rename (staging_name v) (data_name k v) d)) /\
  placed c (snd (rename (staging_name v) (data_name k v) d)).
Proof using Hk Hv.
  intros [Hok Hu] Hst. unfold rename. rewrite Hst. cbn [snd]. set (d' := <[_ := _]> _).
  assert (forall n, ~ private v n -> n <> data_name k v -> d' !! n = d !! n) as Hf.
  { intros n Hp Hn. unfold d'. rewrite lookup_insert_ne, lookup_delete_ne; [done| |done]. intros <-. apply Hp. by left. }
  assert (own k v d d') as Ho by (apply own_unpublished; auto). split; [done|]. split; [|apply lookup_insert_eq].
  split; [by apply (own_ok _ _ _ _ Ho)|]. intros r. rewrite (read_at_same d); [apply Hu|].
  apply Hf; [|intros E; by apply (data_not_manifest k v k)]. intros Hp. by apply (private_not_manifest v _ k Hp).
Qed.

Lemma remove_data_effect c d : settled c d -> own k v d (snd (remove (data_name k v) d)) /\
  settled c (snd (remove (data_name k v) d)).
Proof using Hk Hv.
  intros [Hok Hs]. set (d' := snd (remove (data_name k v) d)).
  assert (d' !! data_name k v = None /\ forall n, n <> data_name k v -> d' !! n = d !! n) as [Hd Hf].
  { unfold d', remove. destruct (d !! data_name k v) eqn:E; cbn [snd]; [|done].
    split; [apply lookup_delete_eq|]. intros x Hx. by apply lookup_delete_ne. }
  assert (own k v d d') as Ho by (apply own_unpublished; auto). split; [done|].
  split; [by apply (own_ok _ _ _ _ Ho)|]. intros r Hr Hver. left.
  destruct (read_at_data d' k r Hr) as (-> & _ & _). by rewrite Hver.
Qed.

Lemma publish_rule c now w a w' : slen c <= max_int64 -> clock_ok now -> idle (dir w) ->
  dir w !! staging_name v = Some (File c) ->
  publish plan torn others k v (slen c) (hex_encode (sha256 c)) now w = (a, w') ->
  steps (dir w) (dir w') /\
  match a with
  | Ok m => m = metadata k (record c now) /\ linked c now (dir w')
  | Err _ => settled c (dir w')
  end.
Proof using Hk Hv Hothers.
  intros Hc Hnow Hi Hst. unfold publish. fold (record c now).
  set (P := fun d => idle d /\ d !! staging_name v = Some (File c)).
  assert (stable P) as HP by (apply stable_with; [apply idle_robust|by left]).
  destruct (syscall plan others (rename _ _) w) as [r1 w1] eqn:E1.
  destruct (syscall_rule _ P w r1 w1 HP ltac:(done) ltac:(intros d [? ?]; by apply (rename_effect c)) E1)
    as [Hs1 (d & [Hid Hsd] & Hcase)].
  destruct (rename_effect c d Hid Hsd) as [_ Hpl].
  assert (idle (dir w1) /\ (is_ok r1 = true -> placed c (dir w1))) as [Hi1 Hp1].
  { destruct Hcase as [E|[-> [->| ->]]]; [|by split..|split; [apply Hpl|done]]. rewrite E in Hpl. split; [apply Hpl|done]. }
  destruct r1 as [[]|e1].
  2: { intros [= <- <-]. destruct (cleanup_rule idle (staging_name v) w1) as [Hi2 Hs2]; [apply idle_robust|by left|done|].
       split; [by etrans|by apply idle_settled]. }
  specialize (Hp1 eq_refl). destruct (commitManifest _ _ _ _ w1) as [r2 w2] eqn:E2.
  apply (commit_rule c now) in E2 as [Hs2 Hl]; [|done..]. assert (steps (dir w) (dir w2)) by (by etrans).
  destruct r2 as [[]|e2]; cbn [is_ok] in Hl.
  - destruct (flush plan others w2) as [r3 w3] eqn:E3. destruct (linked_robust c now) as [Hst' _].
    destruct (flush_rule _ _ _ _ Hst' Hl E3) as [Hl3 Hs3]. intros [= <- <-]. split; [by etrans|done].
  - destruct (syscall plan others (remove _) w2) as [r3 w3] eqn:E3. destruct (settled_robust c) as [Hst' _].
    destruct (syscall_rule _ _ _ _ _ Hst' Hl ltac:(intros d' ?; by apply (remove_data_effect c)) E3) as [Hs3 (d3 & Hd3 & Hcase3)].
    destruct (remove_data_effect c d3 Hd3) as [_ Hrm].
    assert (settled c (dir w3)) as Hset3.
    { destruct Hcase3 as [E|[-> [->| ->]]]; [|done..]. by rewrite E in Hrm. }
    cbn [snd]. destruct (flush plan others w3) as [r4 w4] eqn:E4.
    destruct (flush_rule _ _ _ _ Hst' Hset3 E4) as [Hset4 Hs4]. intros [= <- <-].
    split; [by repeat (etrans; [done|])|done].
Qed.

(** *** The whole put *)

Lemma put_version_rule ctx s options now w : 0 < MaxBytes options < max_int64 -> clock_ok now -> idle (dir w) ->
  exists a w', put_version plan torn others ctx v now k s options w = (Some a, w') /\ steps (dir w) (dir w') /\
    match a with
    | Ok m => m = metadata k (record (body s) now) /\ linked (body s) now (dir w') /\ ending s = EOF /\
        slen (body s) <= MaxBytes options /\
        VerifyExpected (slen (body s)) (hex_encode (sha256 (body s))) options = Ok tt
    | Err _ => settled (body s) (dir w')
    end.
Proof using Hk Hv Hothers.
  intros Hmax Hnow Hi. unfold put_version. cbv zeta.
  assert (private v (staging_name v)) as Hpriv by (by left).
  destruct (syscall plan others (create _) w) as [r1 w1] eqn:E1.
  apply (create_rule idle) in E1 as (Hi1 & Hs1 & Ht1); [|apply idle_robust|done..].
  destruct r1 as [[]|e1]; [specialize (Ht1 eq_refl)|eexists _, _; split; [done|]; split; [done|by apply idle_settled]].
  destruct (copy_rule ctx (MaxBytes options) Hmax (reads s) (NewBoundedReader s (MaxBytes options)) w1)
    as (e & r & w2 & -> & Hi2 & Hs2 & Hfin); try done.
  { split; simpl; unfold slen; simpl; lia. }
  assert (steps (dir w) (dir w2)) by (by etrans).
  assert (forall x u, idle (dir u) -> steps (dir w) (dir u) -> exists a w',
    (Some (Err x : result error Metadata), cleanup plan others (staging_name v) u) = (Some a, w') /\ steps (dir w) (dir w') /\
    match a with Ok _ => False | Err _ => settled (body s) (dir w') end) as Hclean.
  { intros x u Hu Hsu. destruct (cleanup_rule idle (staging_name v) u) as [Hi3 Hs3]; [apply idle_robust|done..|].
    eexists _, _. split; [reflexivity|]. split; [by etrans|by apply idle_settled]. }
  destruct e as [e|].
  { destruct (Hclean (normalizeStreamError ctx (checks r) e) w2) as (a & w' & -> & ? & ?); [done..|].
    exists a, w'. split_and!; [done..|]. by destruct a. }
  destruct (Hfin eq_refl) as (Hst & Hh & Hend & He & Hf & Hok). simpl in Hh, Hend.
  destruct (verify_staged plan others ctx options r w2) as [[[size digest]|e] w3] eqn:E3;
    apply (verify_rule ctx (MaxBytes options)) in E3 as (Hi3 & Hs3 & Hx); try done;
    assert (steps (dir w) (dir w3)) by (by etrans).
  2: { destruct (Hclean e w3) as (a & w' & -> & ? & ?); [done..|]. exists a, w'. split_and!; [done..|]. by destruct a. }
  destruct (Hx _ eq_refl) as (E & Hst3 & Hver). apply pair_equal_spec in E as [-> ->].
  change ("" +:+ body s) with (body s) in Hh. destruct Hok as [_ _ Hlim]. rewrite Hh in *.
  destruct (publish _ _ _ _ _ _ _ _ w3) as [a w4] eqn:E4.
  apply publish_rule in E4 as [Hs4 Hp]; [|unfold max_int64 in *; lia|done..]. eexists _, _. split; [done|]. split; [by etrans|].
  destruct a as [m|]; [|done]. destruct Hp as [-> Hl]. done.
Qed.

(** [readManifest] looks; what it does not find is not there. *)
Lemma readManifest_rule P key w a w' : stable P -> P (dir w) -> readManifest plan others key w = (a, w') ->
  P (dir w') /\ steps (dir w) (dir w') /\ (a = Err ErrNotFound -> dir w' !! manifestName key = None).
Proof using Hk Hv Hothers.
  intros Hst HP. unfold readManifest.
  assert (forall d, snd (stat (manifestName key) d) = d) as Hlook by (intros d; unfold stat; by destruct (d !! _)).
  destruct (syscall plan others (stat _) w) as [r1 w1] eqn:E1.
  apply (look_rule _ P) in E1 as (HP1 & Hs1 & Hr1); [|done..].
  destruct r1 as [[c|]|[]]; try (intros [= <- <-]; by split_and!).
  2: { intros [= <- <-]. split_and!; [done..|]. intros _. destruct Hr1 as [E|E]; [|done]. unfold stat in E.
       by destruct (dir w1 !! manifestName key). }
  destruct (_ <? _); [intros [= <- <-]; by split_and!|].
  destruct (syscall plan others (stat _) w1) as [r2 w2] eqn:E2.
  apply (look_rule _ P) in E2 as (HP2 & Hs2 & _); [|done..]. assert (steps (dir w) (dir w2)) by (by etrans).
  destruct r2 as [n|]; [|intros [= <- <-]; by split_and!].
  destruct (syscall plan others _ w2) as [r3 w3] eqn:E3. apply (look_rule _ P) in E3 as (HP3 & Hs3 & _); [|done..].
  assert (steps (dir w) (dir w3)) by (by etrans).
  destruct r3 as [text|]; intros [= <- <-]; split_and!; try done. by repeat case_match.
Qed.
End Calls.
End Version.

Lemma version_shape bytes : slen bytes = 20 ->
  sforallb base32_char (encode_id "" bytes) = true /\ slen (encode_id "" bytes) = 32.
Proof.
  intros H. unfold encode_id. change ("" +:+ ?s) with s. by rewrite encode_id_class, base32_encode_length, H.
Qed.

Lemma ValidatePutOptions_ok key options : ValidatePutOptions key true options = Ok tt ->
  Valid key = true /\ 0 < MaxBytes options.
Proof.
  unfold ValidatePutOptions. destruct (Valid key); [|done].
  destruct (true && (0 <? MaxBytes options) && (0 <? Timeout options)) eqn:E; [|done]. simp_bool. auto.
Qed.

(** C9.  A put among other processes: whatever calls of the operating system fail
    or take effect without saying so, and whatever other puts do between any
    two calls, the call answers, every change it makes is one of its own, the
    invariant holds afterwards, and the blob is visible whole or not at all;
    an accepted blob is visible, with the bytes of the body and the metadata of
    the answer, within the limit and as the caller expected it.  The limit is
    below math.MaxInt64 (at which the bounded reader panics), the clock is one
    that RFC 3339 can write, the random bytes are there and are not the version the key has. *)
Theorem put_publishes plan torn others ctx bytes now k s options w :
  slen bytes = 20 -> MaxBytes options < max_int64 -> clock_ok now ->
  (forall n d, rely k (encode_id "" bytes) d (others n d)) ->
  store_ok (dir w) -> unclaimed k (encode_id "" bytes) (dir w) ->
  exists a w', Put plan torn others ctx (Some bytes) now k s options w = (Some a, w') /\
    rtc (step others k (encode_id "" bytes)) (dir w) (dir w') /\ store_ok (dir w') /\
    match a with
    | Ok m => view (dir w') k = Some (m, body s) /\ m_Version m = encode_id "" bytes /\ ending s = EOF /\
        slen (body s) <= MaxBytes options /\
        VerifyExpected (slen (body s)) (hex_encode (sha256 (body s))) options = Ok tt
    | Err _ => forall r, read_at (dir w') k = Ok r -> mf_Version r = encode_id "" bytes ->
        dir w' !! DataName r = None \/ view (dir w') k = Some (metadata k r, body s)
    end.
Proof.
  intros Hb Hmax Hnow Hoth Hok Hu. pose proof (version_shape bytes Hb) as Hv. set (v := encode_id "" bytes) in *.
  unfold Put. destruct (ValidatePutOptions k true options) as [[]|e] eqn:Ev.
  2: { eexists _, _. split_and!; [done..|]. intros r Hr Hver. by apply Hu in Hr. }
  apply ValidatePutOptions_ok in Ev as [Hk Hpos].
  destruct (readManifest plan others k w) as [a w1] eqn:E1.
  apply (readManifest_rule k v Hk Hv plan others Hoth (idle k v)) in E1 as (Hi1 & Hs1 & Hnf); [|by apply idle_robust|done].
  assert (forall r u, idle k v (dir u) -> read_at (dir u) k = Ok r -> mf_Version r = v ->
    dir u !! DataName r = None \/ view (dir u) k = Some (metadata k r, body s)) as Hidle.
  { intros r u [_ Hun] Hr Hver. by apply Hun in Hr. }
  destruct a as [r|e].
  { eexists _, _. split_and!; [done..|apply Hi1|]. intros r0. by apply Hidle. }
  destruct (decide (e = ErrNotFound)) as [->|Hne].
  - fold v. destruct (put_version_rule k v Hk Hv plan torn others Hoth ctx s options now w1) as (a & w2 & -> & Hs2 & Ha);
      [lia|done..|]. exists a, w2. split; [done|]. split; [by etrans|]. destruct a as [m|].
    + destruct Ha as (-> & Hl & Hrest). pose proof (linked_settled k v Hk Hv (body s) now (dir w2)) as Hls.
      destruct Hls as [[Hok2 _] Hview]; [lia|done..|]. done.
    + destruct Ha as [Hok2 Hset]. done.
  - exists (Err e), w1. split; [by destruct e|]. split_and!; [done|apply Hi1|]. intros r0. by apply Hidle.
Qed.

End FilesystemTheorems.
