(* ===== verification/FilesystemRefinement.v ===== *)
(** * The filesystem store implements a store of immutable versions

    Histories of calls, each with its own failures, are compared with
    [allowed], what a store of immutable versions may do. *)

From S2P Require Import Prelude GoStrings Encoding Txn Json JsonFacts GoTime Blobstore Streams Manifests Filesystem FilesystemFacts.
From S2P Require Import FilesystemTheorems.

Local Open Scope Z_scope.

Module FilesystemRefinement.
Import Blobstore Streams Manifests Filesystem FilesystemFacts FilesystemTheorems.

(** ** Histories *)

Definition alone (_ : nat) (d : directory) : directory := d.

(** What the environment does during one call. *)
Record conditions := {
  c_plan : nat -> fault; c_torn : nat -> nat; c_ctx : nat -> ctx_state; c_delivery : string -> stream
}.

Inductive call :=
| CallPut (random : option string) (now : time) (key : Key) (source : stream) (options : PutOptions)
| CallOpen (key : Key)
| CallStat (key : Key)
| CallDelete (key : Key) (version : string).

Inductive answer :=
| AnswerPut (a : option (result error Metadata))
| AnswerOpen (a : result error (@verifiedReader stream * Metadata))
| AnswerStat (a : result error Metadata)
| AnswerDelete (a : result error unit).

Definition exec (e : conditions) (c : call) (d : directory) : answer * directory :=
  let w := World d 0 in
  match c with
  | CallPut random now key s options =>
      let '(a, w) := Put (c_plan e) (c_torn e) alone (c_ctx e) random now key s options w in (AnswerPut a, dir w)
  | CallOpen key => let '(a, w) := Open (c_plan e) alone (c_delivery e) key w in (AnswerOpen a, dir w)
  | CallStat key => let '(a, w) := Stat (c_plan e) alone (c_ctx e) 0 key w in (AnswerStat a, dir w)
  | CallDelete key version =>
      let '(a, w) := Delete (c_plan e) alone (c_ctx e) 0 key version w in (AnswerDelete a, dir w)
  end.

Definition key_of (c : call) : Key :=
  match c with CallPut _ _ k _ _ | CallOpen k | CallStat k | CallDelete k _ => k end.

(** ** The specification *)

Definition blobs : Type := Key -> option (Metadata * string).

(** A call that failed may have had its effect, but never a part of it. *)
Definition allowed (e : conditions) (c : call) (a : answer) (V V' : blobs) : Prop :=
  (forall k, Valid k = true -> k <> key_of c -> V' k = V k) /\
  match c, a with
  | CallPut _ _ k s o, AnswerPut (Some (Ok m)) =>
      V k = None /\ V' k = Some (m, body s) /\ ending s = EOF /\ slen (body s) <= MaxBytes o /\
      VerifyExpected (slen (body s)) (hex_encode (sha256 (body s))) o = Ok tt
  | CallPut _ _ k s _, AnswerPut (Some (Err _)) =>
      V' k = V k \/ V k = None /\ exists m, V' k = Some (m, body s)
  | CallOpen k, AnswerOpen (Ok (r, m)) =>
      V' k = V k /\ forall m' c, V k = Some (m', c) -> m = m' /\
        r = NewVerifiedReader (c_delivery e c) (slen c) (hex_encode (sha256 c))
  | CallOpen k, AnswerOpen (Err x) => V' k = V k /\ (x = ErrNotFound -> V k = None)
  | CallStat k, AnswerStat (Ok m) => V' k = V k /\ forall m' c, V k = Some (m', c) -> m = m'
  | CallStat k, AnswerStat (Err x) => V' k = V k /\ (x = ErrNotFound -> V k = None)
  | CallDelete k v, AnswerDelete (Ok _) => V' k = None /\ forall m c, V k = Some (m, c) -> m_Version m = v
  | CallDelete k v, AnswerDelete (Err _) =>
      V' k = V k \/ V' k = None /\ forall m c, V k = Some (m, c) -> m_Version m = v
  | _, _ => False
  end.

(** The inputs a call can have: twenty random bytes, a limit below the largest
    integer, a clock a manifest can hold, an existing key where one is read. *)
Definition call_ok (c : call) : Prop :=
  match c with
  | CallPut random now _ _ o =>
      (forall bytes, random = Some bytes -> slen bytes = 20) /\ MaxBytes o < max_int64 /\ clock_ok now
  | _ => True
  end.

(** ** One call alone *)

Section Alone.
Context (plan : nat -> fault).

Lemma look_alone {A} (f : directory -> result errno A * directory) w r w' :
  (forall d, snd (f d) = d) -> syscall plan alone f w = (r, w') ->
  dir w' = dir w /\ (f (dir w) = (r, dir w) \/ r = Err EIO).
Proof.
  intros Hf. unfold syscall, alone. pose proof (Hf (dir w)) as Hd. destruct (plan (calls w)).
  - destruct (f (dir w)) as [r0 d'] eqn:E. simpl in Hd. subst d'. intros [= <- <-]. auto.
  - intros [= <- <-]. auto.
  - intros [= <- <-]. simpl. rewrite Hd. auto.
Qed.

Lemma stat_looks name d : snd (stat name d) = d.
Proof. unfold stat. by destruct (d !! name). Qed.

Lemma stake_all n s : (String.length s <= n)%nat -> stake n s = s.
Proof. revert n. induction s as [|c s IH]; intros [|n] H; simpl in *; try done; [lia|]. rewrite IH by lia. done. Qed.

Lemma read_text_limit c : slen c <= maxManifestBytes -> read_text (File c) = Some c.
Proof.
  unfold read_text.
  assert (0 <= maxManifestBytes) as H by (apply Z.leb_le; reflexivity). revert H. generalize maxManifestBytes.
  intros n Hn Hc. f_equal. apply stake_all. unfold slen in Hc. lia.
Qed.

Lemma readManifest_alone key w a w' : readManifest plan alone key w = (a, w') ->
  dir w' = dir w /\
  match a with
  | Ok r => read_at (dir w) key = Ok r
  | Err e => e = ErrNotFound -> dir w !! manifestName key = None
  end.
Proof.
  unfold readManifest. destruct (syscall plan alone (stat _) w) as [r1 w1] eqn:E1.
  apply look_alone in E1 as [Hd1 Hr1]; [|apply stat_looks].
  assert (forall n, r1 = Ok n -> dir w !! manifestName key = Some n) as Hn.
  { intros n ->. destruct Hr1 as [E|E]; [|done]. unfold stat in E. destruct (dir w !! manifestName key); [|done]. by injection E as ->. }
  destruct r1 as [[c|]|[]]; try (intros [= <- <-]; by split).
  2: { intros [= <- <-]. split; [done|]. intros _. destruct Hr1 as [E|E]; [|done]. unfold stat in E.
       by destruct (dir w !! manifestName key). }
  specialize (Hn _ eq_refl). destruct (maxManifestBytes <? slen c) eqn:Elen; [intros [= <- <-]; by split|].
  destruct (syscall plan alone (stat _) w1) as [r2 w2] eqn:E2. apply look_alone in E2 as [Hd2 Hr2]; [|apply stat_looks].
  rewrite Hd1 in *. destruct r2 as [n|]; [|intros [= <- <-]; by split].
  assert (n = File c) as ->.
  { destruct Hr2 as [E|E]; [|done]. unfold stat in E. rewrite Hn in E. by injection E as ->. }
  simp_bool. rewrite (read_text_limit c) by done.
  destruct (syscall plan alone _ w2) as [r3 w3] eqn:E3. apply look_alone in E3 as [Hd3 Hr3]; [|done].
  assert (dir w3 = dir w) as Hd by congruence.
  destruct r3 as [text|]; [|intros [= <- <-]; by split]. destruct Hr3 as [E|E]; [|done]. injection E as <-.
  intros [= <- <-]. split; [done|]. cbn [mbind option_bind].
  unfold read_at. rewrite Hn, (proj2 (Z.ltb_ge _ _)) by done.
  destruct (decode_manifest c) as [r|]; [|done]. by destruct (valid_manifest key r).
Qed.
End Alone.

(** *** Putting *)

Lemma own_view k v d d' k' : Valid k = true -> Valid k' = true -> k' <> k -> own k v d d' -> view d' k' = view d k'.
Proof.
  intros Hk Hk' Hne [Hf _ _ _]. apply view_same.
  - apply Hf.
    + intros Hp. by apply (private_not_manifest v _ k' Hp).
    + intros E. by apply (data_not_manifest k v k').
    + by intros E%manifestName_inj.
  - intros r Hr. destruct (read_at_data d k' r Hr) as (-> & _ & _). apply Hf.
    + intros Hp. by apply (private_not_data v _ k' (mf_Version r) Hp).
    + intros E. by apply data_name_inj in E as [? _].
    + apply data_not_manifest.
Qed.

Lemma steps_view k v d d' k' : Valid k = true -> Valid k' = true -> k' <> k -> rtc (step alone k v) d d' ->
  view d' k' = view d k'.
Proof.
  intros Hk Hk' Hne. induction 1 as [|d1 d2 d3 [Ho|[n ->]] _ IH]; [done|..|done]. rewrite IH. by apply (own_view k v).
Qed.

Lemma unreadable_view d k : d !! manifestName k = None -> view d k = None.
Proof. intros E. unfold view, read_at. by rewrite E. Qed.

Lemma put_refines e random now k s o d a d' : call_ok (CallPut random now k s o) -> store_ok d ->
  exec e (CallPut random now k s o) d = (a, d') -> store_ok d' /\ allowed e (CallPut random now k s o) a (view d) (view d').
Proof.
  intros (Hrand & Hmax & Hnow) Hok. cbn [exec]. unfold Put, allowed. cbn [key_of].
  destruct (ValidatePutOptions k true o) as [[]|x] eqn:Ev; [|intros [= <- <-]; cbn [dir]; auto].
  apply ValidatePutOptions_ok in Ev as [Hk Hpos].
  destruct (readManifest (c_plan e) alone k (World d 0)) as [r1 w1] eqn:E1. apply readManifest_alone in E1 as [Hd1 Hr1].
  cbn [dir] in *. destruct r1 as [r|x]; [intros [= <- <-]; rewrite Hd1; auto|].
  destruct (decide (x = ErrNotFound)) as [->|Hne].
  2: { destruct x; try done; intros [= <- <-]; rewrite Hd1; auto. }
  specialize (Hr1 eq_refl). destruct random as [bytes|]; [|intros [= <- <-]; rewrite Hd1; auto].
  pose proof (version_shape bytes (Hrand _ eq_refl)) as Hv. set (v := encode_id "" bytes) in *.
  assert (idle k v (dir w1)) as Hi.
  { rewrite Hd1. split; [done|]. intros r. unfold read_at. by rewrite Hr1. }
  destruct (put_version_rule k v Hk Hv (c_plan e) (c_torn e) alone (fun _ _ => rely_refl k v _) (c_ctx e) s o now w1)
    as (a2 & w2 & -> & Hs2 & Ha); [lia|done..|]. intros [= <- <-]. rewrite Hd1 in Hs2.
  assert (view d k = None) as Hnone by (by apply unreadable_view).
  assert (forall k', Valid k' = true -> k' <> k -> view (dir w2) k' = view d k') as Hframe
    by (intros k' Hk' Hne; by apply (steps_view k v)).
  destruct a2 as [m|].
  - destruct Ha as (-> & Hl & Hrest). destruct (linked_settled k v Hk Hv (body s) now (dir w2)) as [[Hok2 _] Hview]; [lia|done..|].
    done.
  - destruct Ha as [Hok2 Hset]. split; [done|]. split; [done|]. rewrite Hnone.
    destruct (view (dir w2) k) as [[m c]|] eqn:Eview; [right|by left]. split; [done|].
    apply view_Some in Eview as (r & Hr & Hd & Hm & ->). exists (metadata k r).
    destruct (decide (mf_Version r = v)) as [Hver|Hver].
    + destruct (Hset r Hr Hver) as [Hd'|Hview]; [congruence|]. assert (view (dir w2) k = Some (metadata k r, c)) by (apply view_Some; eauto).
      congruence.
    + exfalso. assert (unclaimed_rest : forall x y, rtc (step alone k v) x y -> (forall r', read_at x k = Ok r' -> mf_Version r' = v) ->
        forall r', read_at y k = Ok r' -> mf_Version r' = v).
      { induction 1 as [|x y z [Ho|[n ->]] _ IH]; [done| |done]. intros Hx. apply IH. intros r' Hr'.
        destruct (own_claims _ _ _ _ Ho r' Hr') as [H|[H _]]; auto. }
      apply Hver, (unclaimed_rest _ _ Hs2); [|done]. intros r'. unfold read_at. by rewrite Hr1.
Qed.

(** *** Deleting *)

Lemma remove_alone plan name operation w a w' : remove_present plan alone name operation w = (a, w') ->
  (dir w' = dir w \/ dir w' = delete name (dir w)) /\ (is_ok a = true -> dir w' = delete name (dir w)).
Proof.
  unfold remove_present, syscall, alone, remove. destruct (plan (calls w)), (dir w !! name) eqn:E; cbn [snd];
    intros [= <- <-]; cbn [dir is_ok]; (split; [auto|try done]). intros _. by rewrite delete_id.
Qed.

Lemma delete_data d k r : store_ok d -> Valid k = true -> read_at d k = Ok r ->
  store_ok (delete (DataName r) d) /\ view (delete (DataName r) d) k = None /\
  read_at (delete (DataName r) d) k = Ok r /\
  forall k', Valid k' = true -> k' <> k -> view (delete (DataName r) d) k' = view d k'.
Proof.
  intros Hok Hk Hr. destruct (read_at_data d k r Hr) as (-> & _ & _).
  assert (forall k', (delete (data_name k (mf_Version r)) d) !! manifestName k' = d !! manifestName k') as Hm.
  { intros k'. apply lookup_delete_ne, data_not_manifest. }
  split_and!.
  - intros k' Hk'. rewrite Hm. intros Hs. apply (genuine_same d); [apply Hm| |by apply Hok]. intros r' Hr'.
    destruct (decide (DataName r' = data_name k (mf_Version r))) as [->|Hne];
      [right; apply lookup_delete_eq|left; by apply lookup_delete_ne].
  - unfold view. rewrite (read_at_same d), Hr by apply Hm. destruct (read_at_data d k r Hr) as (-> & _ & _).
    by rewrite lookup_delete_eq.
  - by rewrite (read_at_same d) by apply Hm.
  - intros k' Hk' Hne. apply view_same; [apply Hm|]. intros r' Hr'. destruct (read_at_data d k' r' Hr') as (-> & _ & _).
    apply lookup_delete_ne. intros E. by apply data_name_inj in E as [? _].
Qed.

Lemma delete_manifest d k : store_ok d -> Valid k = true ->
  store_ok (delete (manifestName k) d) /\ view (delete (manifestName k) d) k = None /\
  forall k', k' <> k -> view (delete (manifestName k) d) k' = view d k'.
Proof.
  intros Hok Hk.
  assert (forall k', k' <> k -> (delete (manifestName k) d) !! manifestName k' = d !! manifestName k') as Hm.
  { intros k' Hne. apply lookup_delete_ne. intros E%manifestName_inj. congruence. }
  assert (forall k' r, read_at d k' = Ok r -> (delete (manifestName k) d) !! DataName r = d !! DataName r) as Hd.
  { intros k' r Hr. destruct (read_at_data d k' r Hr) as (-> & _ & _). apply lookup_delete_ne. intros E. by apply (data_not_manifest k' (mf_Version r) k). }
  split_and!.
  - intros k' Hk' Hs. destruct (decide (k' = k)) as [->|Hne]; [rewrite lookup_delete_eq in Hs; by destruct Hs|].
    rewrite Hm in Hs by done. apply (genuine_same d); [auto| |by apply Hok]. intros r Hr. left. eauto.
  - apply unreadable_view, lookup_delete_eq.
  - intros k' Hne. apply view_same; eauto.
Qed.

Lemma delete_refines e k v d a d' : store_ok d -> exec e (CallDelete k v) d = (a, d') ->
  store_ok d' /\ allowed e (CallDelete k v) a (view d) (view d').
Proof.
  intros Hok. cbn [exec]. unfold Delete, allowed. cbn [key_of].
  destruct (ContextError _); [intros [= <- <-]; cbn [dir]; auto|].
  destruct (Valid k) eqn:Hk; cbn [negb]; [|intros [= <- <-]; cbn [dir]; auto].
  destruct (String.eqb v ""); [intros [= <- <-]; cbn [dir]; auto|].
  destruct (readManifest (c_plan e) alone k (World d 0)) as [r1 w1] eqn:E1. apply readManifest_alone in E1 as [Hd1 Hr1].
  cbn [dir] in *. destruct r1 as [r|x].
  2: { destruct (decide (x = ErrNotFound)) as [->|Hne]; [|destruct x; try done; intros [= <- <-]; rewrite Hd1; auto].
       intros [= <- <-]. rewrite Hd1. specialize (Hr1 eq_refl). rewrite (unreadable_view d k) by done. naive_solver. }
  destruct (String.eqb_spec (mf_Version r) v) as [Hver|Hver]; cbn [negb]; [|intros [= <- <-]; rewrite Hd1; auto].
  assert (forall m c, view d k = Some (m, c) -> m_Version m = v) as Hsame.
  { intros m c (r' & Hr' & _ & _ & ->)%view_Some. rewrite Hr1 in Hr'. by injection Hr' as <-. }
  destruct (delete_data d k r Hok Hk Hr1) as (Hok1 & Hv1 & Hr1' & Hf1).
  destruct (remove_present _ _ _ _ w1) as [a2 w2] eqn:E2. apply remove_alone in E2 as [Hd2 Ha2]. rewrite Hd1 in *.
  destruct a2 as [[]|x2].
  2: { intros [= <- <-]. destruct Hd2 as [-> | ->]; [auto|]. split; [done|]. auto. }
  rewrite (Ha2 eq_refl) in *. destruct (delete_manifest (delete (DataName r) d) k Hok1 Hk) as (Hok3 & Hv3 & Hf3).
  destruct (remove_present _ _ _ _ w2) as [a3 w3] eqn:E3. apply remove_alone in E3 as [Hd3 Ha3]. rewrite (Ha2 eq_refl) in *.
  assert (forall d3, d3 = delete (DataName r) d \/ d3 = delete (manifestName k) (delete (DataName r) d) ->
    store_ok d3 /\ view d3 k = None /\ forall k', Valid k' = true -> k' <> k -> view d3 k' = view d k') as Hfin.
  { intros d3 [-> | ->]; split_and!; try done; auto. intros k' Hk' Hne. rewrite Hf3 by done. auto. }
  intros [= <- <-]. destruct (Hfin (dir w3) Hd3) as (? & ? & ?). destruct a3; auto.
Qed.

(** *** Reading *)

Lemma read_view d k r m c : read_at d k = Ok r -> view d k = Some (m, c) ->
  m = metadata k r /\ d !! DataName r = Some (File c) /\ mf_Size r = slen c /\ mf_SHA256 r = hex_encode (sha256 c).
Proof.
  intros Hr (r' & Hr' & Hd & Hm & ->)%view_Some. rewrite Hr in Hr'. injection Hr' as <-. unfold matches in Hm. simp_bool. auto.
Qed.

Lemma stat_refines e k d a d' : store_ok d -> exec e (CallStat k) d = (a, d') ->
  store_ok d' /\ allowed e (CallStat k) a (view d) (view d').
Proof.
  intros Hok. cbn [exec]. unfold Stat, allowed. cbn [key_of].
  destruct (ContextError _) as [x|] eqn:Ex.
  { intros [= <- <-]. cbn [dir]. split_and!; try done. intros ->. by destruct (c_ctx e 0). }
  destruct (Valid k) eqn:Hk; cbn [negb]; [|intros [= <- <-]; cbn [dir]; by split_and!].
  destruct (readManifest (c_plan e) alone k (World d 0)) as [r1 w1] eqn:E1. apply readManifest_alone in E1 as [Hd1 Hr1].
  cbn [dir] in *. destruct r1 as [r|x]; intros [= <- <-]; rewrite Hd1; split_and!; try done.
  - intros m c Hview. by destruct (read_view d k r m c Hr1 Hview) as [-> _].
  - intros Hx. by apply unreadable_view, Hr1.
Qed.

Lemma stat_alone plan name w n w' : syscall plan alone (stat name) w = (Ok n, w') -> dir w' = dir w /\ dir w !! name = Some n.
Proof.
  intros H. apply look_alone in H as [Hd [E|E]]; [|done|apply stat_looks]. split; [done|]. unfold stat in E.
  destruct (dir w !! name); [|done]. by injection E as ->.
Qed.

Lemma open_refines e k d a d' : store_ok d -> exec e (CallOpen k) d = (a, d') ->
  store_ok d' /\ allowed e (CallOpen k) a (view d) (view d').
Proof.
  intros Hok. cbn [exec]. unfold Open, allowed. cbn [key_of].
  destruct (Valid k) eqn:Hk; cbn [negb]; [|intros [= <- <-]; cbn [dir]; by split_and!].
  destruct (readManifest (c_plan e) alone k (World d 0)) as [r1 w1] eqn:E1. apply readManifest_alone in E1 as [Hd1 Hr1].
  cbn [dir] in *. destruct r1 as [r|x].
  2: { intros [= <- <-]. rewrite Hd1. split_and!; try done. intros Hx. by apply unreadable_view, Hr1. }
  destruct (syscall (c_plan e) alone (stat (DataName r)) w1) as [r2 w2] eqn:E2. pose proof E2 as E2'.
  apply look_alone in E2' as [Hd2 _]; [|apply stat_looks].
  destruct r2 as [[c|]|x2]; try (intros [= <- <-]; rewrite Hd2, Hd1; by split_and!).
  destruct (syscall (c_plan e) alone (stat (DataName r)) w2) as [r3 w3] eqn:E3. pose proof E3 as E3'.
  apply look_alone in E3' as [Hd3 _]; [|apply stat_looks].
  destruct r3 as [n|x3]; intros [= <- <-]; rewrite Hd3, Hd2, Hd1; split_and!; try done.
  intros m c' Hview. destruct (read_view d k r m c' Hr1 Hview) as (-> & Hdata & Hsize & Hsha).
  apply stat_alone in E3 as [_ E3]. rewrite Hd2, Hd1, Hdata in E3. injection E3 as <-. by rewrite Hsize, Hsha.
Qed.

(** ** Histories *)

Definition event : Type := conditions * call * answer.

Inductive history : directory -> list event -> directory -> Prop :=
| history_nil d : history d [] d
| history_call e c a d d1 h d' : call_ok c -> exec e c d = (a, d1) -> history d1 h d' -> history d ((e, c, a) :: h) d'.

Inductive spec_history : blobs -> list event -> blobs -> Prop :=
| spec_nil V : spec_history V [] V
| spec_call e c a V V1 h V' : allowed e c a V V1 -> spec_history V1 h V' -> spec_history V ((e, c, a) :: h) V'.

Lemma call_refines e c a d d' : call_ok c -> store_ok d -> exec e c d = (a, d') ->
  store_ok d' /\ allowed e c a (view d) (view d').
Proof. destruct c; eauto using put_refines, open_refines, stat_refines, delete_refines. Qed.

Lemma history_refines d h d' : history d h d' -> store_ok d -> store_ok d' /\ spec_history (view d) h (view d').
Proof.
  induction 1 as [d|e c a d d1 h d' Hc He _ IH]; intros Hok; [split; [done|constructor]|].
  destruct (call_refines e c a d d1 Hc Hok He) as [Hok1 Ha]. destruct (IH Hok1) as [Hok' Hs].
  split; [done|]. by econstructor.
Qed.

(** What the specification promises: only its own delete takes a version away. *)
Lemma spec_kept V h V' k m c : spec_history V h V' -> Valid k = true -> V k = Some (m, c) ->
  (forall e a, (e, CallDelete k (m_Version m), a) ∉ h) -> V' k = Some (m, c).
Proof.
  intros Hh Hk. induction Hh as [|e c0 a V V1 h V' [Hother Hc] _ IH]; [done|]. intros HV Hn.
  apply IH; [|intros e' a' Hin; by apply (Hn e' a'), list_elem_of_further].
  destruct (decide (k = key_of c0)) as [->|Hne]; [|by rewrite Hother].
  destruct c0 as [random now k s o|k|k|k ver]; cbn [key_of] in *.
  - destruct a as [[[m'|]|]| | |]; [|destruct Hc as [->|[? _]]; congruence|done..]. destruct Hc as [? _]. congruence.
  - destruct a as [|[[r m']|]| |]; [done| | |done..]; by destruct Hc as [-> _].
  - destruct a as [| |[m'|]|]; [done..| | |done]; by destruct Hc as [-> _].
  - assert (m_Version m <> ver) as Hver.
    { intros <-. apply (Hn e a). left. }
    destruct a as [| | |[]]; [done..| |].
    + destruct Hc as [_ Hc]. by apply Hc in HV.
    + destruct Hc as [->|[_ Hc]]; [done|]. by apply Hc in HV.
Qed.

(** C10.  The filesystem store implements a store of immutable versions: along any
    history of calls that starts from an empty directory, each with its own
    failures, every call does what the specification allows and leaves a
    directory in which every manifest describes a whole blob or none. *)
Theorem filesystem_refines h d : history ∅ h d ->
  store_ok d /\ (forall k, view ∅ k = None) /\ spec_history (view ∅) h (view d).
Proof.
  intros Hh. destruct (history_refines ∅ h d Hh store_ok_empty) as [Hok Hs]. split_and!; [done| |done].
  intros k. apply unreadable_view, lookup_empty.
Qed.

(** ** Reading back what was put *)

(** Everything works. *)
Definition calm (e : conditions) : Prop := (forall n, c_plan e n = Healthy) /\ (forall n, c_ctx e n = Live).

Section Calm.
Context (plan : nat -> fault) (torn : nat -> nat) (ctx : nat -> ctx_state).
Hypothesis Hplan : forall n, plan n = Healthy.
Hypothesis Hctx : forall n, ctx n = Live.

Lemma calm_syscall {A} (f : directory -> result errno A * directory) w :
  syscall plan alone f w = (fst (f (dir w)), World (snd (f (dir w))) (S (calls w))).
Proof using Hplan. unfold syscall, alone. rewrite Hplan. by destruct (f (dir w)). Qed.

Lemma calm_write name bytes w : write plan torn alone name bytes w = (Ok tt, World (append_file name bytes (dir w)) (S (calls w))).
Proof using Hplan. unfold write, alone. by rewrite Hplan. Qed.

Lemma calm_flush w : flush plan alone w = (Ok tt, World (dir w) (S (calls w))).
Proof using Hplan. unfold flush. by rewrite calm_syscall. Qed.

Section Copy.
Context (max : Z) (name : string).
Hypothesis Hmax : 0 < max < max_int64.

(** A body that fits and ends is copied into the file. *)
Lemma calm_copy fuel : forall r w, (reads (source r) <= fuel)%nat -> bounded_ok max r -> err r = None -> finished r = false ->
  dir w !! name = Some (File (hashed r)) -> ending (source r) = EOF -> slen (hashed r +:+ body (source r)) <= max ->
  exists r' w', copy_file plan torn alone ctx fuel name r w = FileCopied None r' w' /\
    dir w' = <[name := File (hashed r +:+ body (source r))]> (dir w) /\ hashed r' = hashed r +:+ body (source r) /\
    err r' = None /\ finished r' = true /\ bounded_ok max r'.
Proof using Hplan Hctx Hmax.
  induction fuel as [|fuel IH]; intros r w Hr Hok He Hf Hst Hend Hfit; [unfold reads in Hr; destruct (chunks _); simpl in Hr; lia|].
  cbn [copy_file]. destruct (Read_ok stream_read ctx max r copy_buffer stream_read_contract Hmax ltac:(done) Hok)
    as (b0 & e0 & r0 & Hread0 & Hok' & Hh & Hfin).
  destruct (stream_Read ctx copy_buffer max ltac:(done) Hmax r Hok He Hf) as (bytes & e & r' & Hread & Hcases).
  rewrite Hread in Hread0. injection Hread0 as <- <- <-. rewrite Hread.
  assert (exists w1, (if 0 <? slen bytes then write plan torn alone name bytes w else (Ok tt, w)) = (Ok tt, w1) /\
    dir w1 = <[name := File (hashed r')]> (dir w)) as (w1 & -> & Hw1).
  { destruct (Z.ltb_spec 0 (slen bytes)) as [Hpos|Hpos].
    - rewrite calm_write. eexists. split; [done|]. cbn [dir]. unfold append_file. by rewrite Hst, Hh.
    - assert (bytes = "") as -> by (apply slen_empty; pose proof (slen_nonneg bytes); lia).
      eexists. split; [done|]. by rewrite Hh, append_nil_r, insert_id. }
  destruct Hcases as [(-> & -> & _)|[(x & -> & _ & Hx)|(-> & He' & Hf' & Hend' & Hb & Hlt)]].
  - destruct (Hfin He (or_intror eq_refl)) as [He' Hf']. eexists _, _. split; [done|].
    rewrite Hw1, Hh. split_and!; auto.
  - by destruct (Hx Hctx Hfit).
  - rewrite <- Hb, <- !append_assoc, <- Hh in *.
    destruct (IH r' w1) as (r2 & w2 & -> & Hw2 & Hrest); try done; [lia|by rewrite Hw1, lookup_insert_eq|congruence|].
    eexists _, _. split; [done|]. split; [by rewrite Hw2, Hw1, insert_insert_eq|done].
Qed.
End Copy.

Lemma calm_readManifest key w : dir w !! manifestName key = None ->
  readManifest plan alone key w = (Err ErrNotFound, World (dir w) (S (calls w))).
Proof using Hplan. intros E. unfold readManifest. rewrite calm_syscall. unfold stat. by rewrite E. Qed.

Lemma calm_commit k v c now w : clock_ok now -> dir w !! manifestName k = None -> dir w !! temporary_manifest v = None ->
  Valid k = true -> exists w', commitManifest plan torn alone (record k v c now) w = (Ok tt, w').
Proof using Hplan.
  intros Hnow Hm Ht Hk. unfold commitManifest. rewrite record_encodes by done.
  change (mf_Version (record k v c now)) with v. rewrite calm_syscall. unfold create. rewrite Ht. cbn [fst snd].
  unfold link_manifest. change (mf_Version (record k v c now)) with v. change (mf_Key (record k v c now)) with k. cbv zeta.
  rewrite calm_write. cbn [dir calls]. unfold append_file at 1. rewrite lookup_insert_eq, insert_insert_eq.
  change ("" +:+ ?x) with x. rewrite !calm_flush. cbn [dir calls]. rewrite calm_syscall. cbn [dir]. unfold link.
  rewrite lookup_insert_eq, lookup_insert_ne, Hm.
  - cbn [fst snd]. by eexists.
  - apply (private_not_manifest v); [by right|done].
Qed.
End Calm.

Lemma calm_publish plan torn k v c now w : (forall n, plan n = Healthy) -> clock_ok now -> Valid k = true ->
  dir w !! manifestName k = None -> dir w !! temporary_manifest v = None -> dir w !! staging_name v = Some (File c) ->
  exists w', publish plan torn alone k v (slen c) (hex_encode (sha256 c)) now w = (Ok (metadata k (record k v c now)), w').
Proof.
  intros Hplan Hnow Hk Hm Ht Hst. unfold publish. fold (record k v c now). rewrite calm_syscall by done. unfold rename.
  rewrite Hst. cbn [fst snd]. set (w1 := World _ _).
  assert (forall n, n <> staging_name v -> n <> data_name k v -> dir w1 !! n = dir w !! n) as Hf.
  { intros n H1 H2. unfold w1. cbn [dir]. by rewrite lookup_insert_ne, lookup_delete_ne. }
  destruct (calm_commit plan torn Hplan k v c now w1) as [w2 ->]; [done|..|done|by eexists].
  - rewrite Hf; [done| |].
    + intros E. symmetry in E. revert E. apply (private_not_manifest v); [by left|done].
    + intros E. by apply (data_not_manifest k v k).
  - rewrite Hf; [done|done|]. apply (private_not_data v); [by right|done].
Qed.

(** A put for which there is room succeeds. *)
Lemma calm_put e k s o bytes now d : calm e -> slen bytes = 20 -> clock_ok now -> MaxBytes o < max_int64 ->
  ValidatePutOptions k true o = Ok tt -> ending s = EOF -> slen (body s) <= MaxBytes o ->
  VerifyExpected (slen (body s)) (hex_encode (sha256 (body s))) o = Ok tt ->
  d !! manifestName k = None -> (forall n, private (encode_id "" bytes) n -> d !! n = None) ->
  exists d', exec e (CallPut (Some bytes) now k s o) d =
    (AnswerPut (Some (Ok (metadata k (record k (encode_id "" bytes) (body s) now)))), d').
Proof.
  intros [Hplan Hctx] Hb Hnow Hmax Hopt Hend Hfit Hver Hm Hpriv. cbn [exec]. unfold Put. rewrite Hopt.
  apply ValidatePutOptions_ok in Hopt as [Hk Hpos]. rewrite calm_readManifest by done. cbn [dir calls].
  set (v := encode_id "" bytes) in *. unfold put_version. cbv zeta. rewrite calm_syscall by done. unfold create. cbn [dir].
  assert (private v (staging_name v)) as Hps by (by left). assert (private v (temporary_manifest v)) as Hpt by (by right).
  rewrite (Hpriv _ Hps). cbn [fst snd]. set (w1 := World _ _).
  destruct (calm_copy (c_plan e) (c_torn e) (c_ctx e) Hplan Hctx (MaxBytes o) (staging_name v) ltac:(lia) (reads s)
              (NewBoundedReader s (MaxBytes o)) w1) as (r & w2 & -> & Hw2 & Hh & He & Hf & Hok); try done.
  { split; simpl; unfold slen; simpl; lia. }
  { apply lookup_insert_eq. }
  cbn [hashed NewBoundedReader source] in *. change ("" +:+ body s) with (body s) in *.
  destruct Hok as [_ Hsize _]. unfold verify_staged, Result. rewrite He, Hf, Hsize, Hh, Hver, !Hctx. cbn [ContextError].
  rewrite !calm_flush by done. cbn [dir calls]. set (w3 := World _ _).
  assert (forall n, n <> staging_name v -> dir w3 !! n = d !! n) as Hd3.
  { intros n Hn. unfold w3. cbn [dir]. rewrite Hw2. unfold w1. cbn [dir]. by rewrite !lookup_insert_ne. }
  destruct (calm_publish (c_plan e) (c_torn e) k v (body s) now w3) as [w4 ->]; try done; [..|by eexists].
  - rewrite Hd3; [done|]. intros E. symmetry in E. by apply (private_not_manifest v _ k Hps).
  - rewrite Hd3; [by apply Hpriv|done].
  - unfold w3. cbn [dir]. rewrite Hw2. apply lookup_insert_eq.
Qed.

Lemma calm_open e k d m c : calm e -> Valid k = true -> view d k = Some (m, c) ->
  exec e (CallOpen k) d = (AnswerOpen (Ok (NewVerifiedReader (c_delivery e c) (slen c) (hex_encode (sha256 c)), m)), d).
Proof.
  intros [Hplan _] Hk Hview. cbn [exec]. unfold Open. rewrite Hk. cbn [negb].
  pose proof Hview as (r & Hr & _)%view_Some. destruct (read_view d k r m c Hr Hview) as (-> & Hd & Hsize & Hsha).
  assert (readManifest (c_plan e) alone k (World d 0) = (Ok r, World d 3)) as ->.
  { unfold read_at in Hr. destruct (d !! manifestName k) as [[t|]|] eqn:Em; [|done..].
    destruct (maxManifestBytes <? slen t) eqn:Elen; [done|].
    unfold readManifest, stat. do 2 (rewrite calm_syscall by done; cbn [dir calls]; rewrite Em; cbn [fst snd]).
    rewrite Elen, calm_syscall by done. cbn [fst snd dir calls]. simp_bool. rewrite read_text_limit by done. cbn [mbind option_bind].
    destruct (decode_manifest t) as [r'|]; [|done]. destruct (valid_manifest k r'); [|done]. by injection Hr as ->. }
  rewrite calm_syscall by done. unfold stat. cbn [dir calls]. rewrite Hd. cbn [fst snd].
  rewrite calm_syscall by done. cbn [dir calls]. rewrite Hd. cbn [fst snd]. by rewrite Hsize, Hsha.
Qed.

(** Reading a file that arrives whole, in whatever pieces. *)
Lemma verified_read ctx n digest c bufs : (forall i, ctx i = Live) -> slen c = n -> hex_encode (sha256 c) = digest ->
  forall r acc, Forall (buffer_ok n) bufs -> Forall (fun len => 1 <= len) bufs ->
  verified_ok n digest acc r -> acc +:+ body (v_source r) = c -> ending (v_source r) = EOF ->
  (reads (v_source r) <= length bufs)%nat ->
  exists r', ReadAll safe_read ctx bufs r acc = Some (Ok c, r').
Proof.
  intros Hctx Hn Hd. induction bufs as [|len bufs IH]; intros r acc Hb Hpos Hr Hsplit Hend Hl.
  { unfold reads in Hl. destruct (chunks _); simpl in Hl; lia. }
  apply Forall_cons in Hb as [[Hl0 Hl1] Hb]. apply Forall_cons in Hpos as [Hp Hpos].
  destruct Hr as [H1 H2 H3 H4 H5 H6]. cbn [ReadAll]. unfold VRead. rewrite H5, Hctx. cbn [ContextError].
  unfold safe_read. destruct (stream_read len (v_source r)) as [[bytes e] s'] eqn:Er. pose proof (slen_nonneg acc).
  apply stream_read_progress in Er as [(-> & -> & _)|(-> & Hbody & Hend' & Hlt)]; [|..|done].
  - rewrite Hend. change (is_EOF (Some EOF)) with true. cbv iota zeta. pose proof (slen_nonneg (body (v_source r))).
    assert (slen acc + slen (body (v_source r)) = n) as Hsum by (by rewrite <- Hn, <- Hsplit, slen_app).
    rewrite H1, H2, H3, H4, Hsplit.
    assert ((if 0 <? slen (body (v_source r)) then wrap64 (slen acc + slen (body (v_source r))) else slen acc) = n) as ->.
    { destruct (Z.ltb_spec 0 (slen (body (v_source r)))); [rewrite wrap_small; lia|lia]. }
    rewrite Z.ltb_irrefl, andb_false_r, Hd, Z.eqb_refl, String.eqb_refl. cbn [negb orb].
    change (is_EOF (Some EOF)) with true. cbv iota. rewrite Hsplit. by eexists.
  - rewrite H1, H2, H3. pose proof (slen_nonneg bytes). pose proof (slen_nonneg (body s')).
    assert (slen acc + slen bytes + slen (body s') = n) as Hsum.
    { rewrite <- Hn, <- Hsplit, <- Hbody, !slen_app. lia. }
    change (is_EOF None) with false. cbv iota zeta.
    assert ((if 0 <? slen bytes then wrap64 (slen acc + slen bytes) else slen acc) = slen (acc +:+ bytes)) as ->.
    { rewrite slen_app. destruct (Z.ltb_spec 0 (slen bytes)); [rewrite wrap_small; lia|lia]. }
    rewrite slen_app, (proj2 (Z.ltb_ge n _)), andb_false_r by lia. apply IH; try done; cbn [v_source].
    + split; cbn [v_hashed v_size expectedSize expectedSHA256 v_finished]; try done; rewrite ?slen_app; lia.
    + by rewrite append_assoc, Hbody.
    + by rewrite Hend'.
    + simpl in Hl. lia.
Qed.

(** C11.  What was put is read back: a put whose key and version are new, whose body
    fits a limit below math.MaxInt64, ends and is what the caller expects succeeds when nothing fails, and
    from then on, after any history of calls with whatever failures that does
    not delete this version, opening the key when nothing fails yields the
    metadata of the answer and a stream that reads as exactly the body. *)
Theorem blob_roundtrip e k s o bytes now d :
  calm e -> store_ok d -> slen bytes = 20 -> clock_ok now -> MaxBytes o < max_int64 ->
  ValidatePutOptions k true o = Ok tt -> ending s = EOF -> slen (body s) <= MaxBytes o ->
  VerifyExpected (slen (body s)) (hex_encode (sha256 (body s))) o = Ok tt ->
  d !! manifestName k = None -> (forall n, private (encode_id "" bytes) n -> d !! n = None) ->
  exists m d1, exec e (CallPut (Some bytes) now k s o) d = (AnswerPut (Some (Ok m)), d1) /\
    forall h d2 e' bufs, history d1 h d2 -> (forall x a, (x, CallDelete k (m_Version m), a) ∉ h) -> calm e' ->
      body (c_delivery e' (body s)) = body s -> ending (c_delivery e' (body s)) = EOF ->
      Forall (buffer_ok (slen (body s))) bufs -> Forall (fun len => 1 <= len) bufs ->
      (reads (c_delivery e' (body s)) <= length bufs)%nat ->
      exists r r', exec e' (CallOpen k) d2 = (AnswerOpen (Ok (r, m)), d2) /\
        ReadAll safe_read (c_ctx e') bufs r "" = Some (Ok (body s), r').
Proof.
  intros He Hok Hb Hnow Hmax Hopt Hend Hfit Hver Hm Hpriv.
  destruct (calm_put e k s o bytes now d) as [d1 Hput]; [done..|]. exists (metadata k (record k (encode_id "" bytes) (body s) now)), d1.
  split; [done|]. intros h d2 e' bufs Hh Hdel He' Hbody Hdend Hbufs Hpos Hlen.
  assert (call_ok (CallPut (Some bytes) now k s o)) as Hcall by (split; [by intros ? [= <-]|done]).
  destruct (put_refines e _ _ _ _ _ d _ d1 Hcall Hok Hput) as [Hok1 [_ (_ & Hview & _)]].
  destruct (history_refines d1 h d2 Hh Hok1) as [_ Hspec].
  apply ValidatePutOptions_ok in Hopt as [Hk Hpos'].
  pose proof (spec_kept _ h _ k _ _ Hspec Hk Hview Hdel) as Hview2.
  eexists. destruct (verified_read (c_ctx e') (slen (body s)) (hex_encode (sha256 (body s))) (body s) bufs (proj2 He') eq_refl eq_refl
    (NewVerifiedReader (c_delivery e' (body s)) (slen (body s)) (hex_encode (sha256 (body s)))) "") as [r' Hr']; try done.
  - split; try done. pose proof (slen_nonneg (body s)). done.
  - eexists. split; [by apply calm_open|exact Hr'].
Qed.

End FilesystemRefinement.
