(* ===== verification/FilesystemBlobs.v ===== *)
(** * The filesystem store behind the blob store interface

    [DiskBlobs] is the filesystem store as the ingestion service sees it, and
    [DiskContract] discharges what the service's theorems assume about a blob
    store, whatever the operating system and other processes do. *)

From S2P Require Import Prelude GoStrings Encoding Txn Json GoTime Blobstore Streams Manifests Filesystem FilesystemFacts.
From S2P Require Import FilesystemTheorems FilesystemRefinement.

Local Open Scope Z_scope.

Module FilesystemBlobs.
Import Blobstore Manifests Filesystem FilesystemTheorems FilesystemRefinement.
Import Streams(stream, stream_read, stream_read_contract, stream_Read, body, ending, reads, chunks, BlobWriter, BlobContract).

Section Answers.
Context (plan : nat -> fault) (torn : nat -> nat) (others : nat -> directory -> directory) (ctx : nat -> ctx_state).

(** A copy that succeeds has read the whole body. *)
Lemma copy_file_whole max name fuel : 0 < max < max_int64 -> forall r w r' w', bounded_ok max r -> err r = None ->
  finished r = false -> copy_file plan torn others ctx fuel name r w = FileCopied None r' w' ->
  hashed r' = hashed r +:+ body (source r) /\ ending (source r) = EOF /\ err r' = None /\ finished r' = true /\ bounded_ok max r'.
Proof.
  intros Hmax. induction fuel as [|fuel IH]; intros r w r' w' Hok He Hf; [done|]. cbn [copy_file].
  destruct (Read_ok stream_read ctx max r copy_buffer stream_read_contract Hmax ltac:(done) Hok)
    as (b0 & e0 & r0 & Hread0 & Hok' & Hh & Hfin).
  destruct (stream_Read ctx copy_buffer max ltac:(done) Hmax r Hok He Hf) as (bytes & e & r1 & Hread & Hcases).
  rewrite Hread in Hread0. injection Hread0 as <- <- <-. rewrite Hread.
  destruct (if 0 <? slen bytes then _ else _) as [[[]|we] w1]; [|done].
  destruct Hcases as [(-> & -> & Hend)|[(x & -> & Hx & _)|(-> & He' & Hf' & Hend & Hb & _)]].
  - intros [= <- <-]. destruct (Hfin He (or_intror eq_refl)) as [He' Hf']. rewrite Hh. auto 10.
  - unfold is_EOF. by rewrite bool_decide_eq_false_2 by congruence.
  - intros Hcopy. apply IH in Hcopy as (Hh2 & Hend2 & Hrest); [|done..].
    by rewrite Hh2, Hh, append_assoc, Hb, <- Hend.
Qed.

(** The metadata of a put describe the body, whatever happens to the files. *)
Lemma put_answer random now k s o w m w' : MaxBytes o < max_int64 ->
  Put plan torn others ctx random now k s o w = (Some (Ok m), w') ->
  exists bytes, random = Some bytes /\ ending s = EOF /\ slen (body s) <= MaxBytes o /\
    VerifyExpected (slen (body s)) (hex_encode (sha256 (body s))) o = Ok tt /\
    m = metadata k (record k (encode_id "" bytes) (body s) now).
Proof.
  intros Hmax. unfold Put. destruct (ValidatePutOptions k true o) as [[]|] eqn:Ev; [|done].
  apply ValidatePutOptions_ok in Ev as [Hk Hpos].
  destruct (readManifest plan others k w) as [[r0|[]] w1]; try done. destruct random as [bytes|]; [|done].
  unfold put_version. cbv zeta. destruct (syscall plan others _ w1) as [[[]|] w2]; [|done].
  destruct (copy_file _ _ _ _ _ _ _ w2) as [| |[e|] r w3] eqn:Ec; [done..|].
  apply (copy_file_whole (MaxBytes o)) in Ec as (Hh & Hend & He & Hf & [_ Hsize Hlim]); [|lia|by split; simpl; unfold slen; simpl; lia|done..].
  cbn [source hashed NewBoundedReader] in *. change ("" +:+ body s) with (body s) in Hh.
  unfold verify_staged, Result. rewrite He, Hf, Hsize, Hh. rewrite Hh in Hlim.
  destruct (VerifyExpected _ _ o) as [[]|] eqn:Ex; [|done]. destruct (ContextError _); [done|].
  destruct (flush plan others w3) as [[[]|] w4]; [|done]. destruct (ContextError _); [done|].
  destruct (flush plan others w4) as [[[]|] w5]; [|done].
  destruct (publish _ _ _ _ _ _ _ _ w5) as [a w6] eqn:Ep. intros [= -> <-]. exists bytes. split_and!; try done.
  unfold publish in Ep. destruct (syscall plan others _ w5) as [[[]|] w7]; [|done].
  destruct (commitManifest _ _ _ _ w7) as [[[]|] w8]; [|done].
  apply pair_equal_spec in Ep as [Ep _]. assert (forall x y : Metadata, Ok x = Ok y :> result error _ -> x = y) as Hinj by congruence.
  apply Hinj in Ep. symmetry. exact Ep.
Qed.

Lemma stat_answer look k w m w' : Stat plan others ctx look k w = (Ok m, w') -> 0 <= m_Size m.
Proof.
  unfold Stat. destruct (ContextError _); [done|]. destruct (negb _); [done|].
  destruct (readManifest plan others k w) as [[r|] w1] eqn:Er; [|done]. intros [= <- _].
  unfold readManifest in Er. destruct (syscall plan others _ w) as [[[c|]|[]] w2]; try done.
  destruct (_ <? _); [done|]. destruct (syscall plan others _ w2) as [[n|] w3]; [|done].
  destruct (syscall plan others _ w3) as [[text|] w4]; [|done]. destruct (text ≫= decode_manifest) as [r'|]; [|done].
  destruct (valid_manifest k r') eqn:Ev; [|done]. injection Er as <- _. unfold valid_manifest in Ev. by simp_bool.
Qed.
End Answers.

(** ** The instance *)

(** What one call meets: the operating system, other processes, the context,
    the random bytes and the clock. *)
Record environment := {
  en_conditions : conditions; en_others : nat -> directory -> directory; en_random : option string; en_now : time
}.

Record disk := Disk { contents : directory; turn : nat; environments : nat -> environment }.

Definition next (b : disk) (d : directory) : disk := Disk d (S (turn b)) (environments b).

(** [rand.Read] fills the buffer of twenty bytes or fails. *)
Definition drawn (random : option string) : option string :=
  match random with Some bytes => if slen bytes =? 20 then Some bytes else None | None => None end.

(** A limit of [math.MaxInt64] panics in the stream. *)
Definition disk_put (k : Key) (s : stream) (o : PutOptions) (b : disk) : result error Metadata * disk :=
  let e := environments b (turn b) in
  let c := en_conditions e in
  if negb (MaxBytes o <? max_int64) then (Err (ErrSource "panic"), b)
  else
    let '(a, w) := Put (c_plan c) (c_torn c) (en_others e) (c_ctx c) (drawn (en_random e)) (en_now e) k s o
                     (World (contents b) 0) in
    (default (Err (ErrSource "panic")) a, next b (dir w)).

Definition disk_stat (k : Key) (b : disk) : result error Metadata * disk :=
  let e := environments b (turn b) in
  let c := en_conditions e in
  let '(a, w) := Stat (c_plan c) (en_others e) (c_ctx c) 0 k (World (contents b) 0) in (a, next b (dir w)).

#[global] Instance DiskBlobs : BlobWriter disk := {| Streams.Put := disk_put; Streams.Stat := disk_stat |}.

#[global] Instance DiskContract : BlobContract disk.
Proof.
  split.
  - intros k s o b m b'. cbn [Streams.Put DiskBlobs]. unfold disk_put. cbv zeta.
    destruct (Z.ltb_spec (MaxBytes o) max_int64) as [Hmax|]; cbn [negb]; [|done].
    destruct (Put _ _ _ _ _ _ _ _ _ _) as [[a|] w] eqn:Ep; [|done]. cbn [default]. intros [= -> <-].
    apply put_answer in Ep as (bytes & Hd & Hend & Hle & Hver & ->); [|done]. split_and!; try done.
    unfold drawn in Hd. destruct (en_random _) as [x|]; [|done]. destruct (Z.eqb_spec (slen x) 20) as [Hx|]; [|done].
    injection Hd as <-. change (encode_id "" x <> ""). intros E. pose proof (version_shape x Hx) as [_ Hl].
    by rewrite E in Hl.
  - intros k b m b'. cbn [Streams.Stat DiskBlobs]. unfold disk_stat. cbv zeta.
    destruct (Stat _ _ _ _ _ _) as [a w] eqn:Es. intros [= -> <-]. by eapply stat_answer.
Qed.

End FilesystemBlobs.
