(* ===== verification/FilesystemExamples.v ===== *)
(** * The filesystem store at work

    Concrete runs of the store, among them one for every place at which a call
    of the operating system can fail, and the theorems applied to them. *)

From S2P Require Import Prelude GoStrings Encoding Txn Json GoTime Blobstore Streams Manifests Filesystem FilesystemFacts.
From S2P Require Import FilesystemTheorems FilesystemRefinement.

Local Open Scope Z_scope.

Module FilesystemExamples.
Import Blobstore Manifests Filesystem FilesystemFacts FilesystemTheorems FilesystemRefinement.
Import Streams(stream, Stream, body, ending, reads).

Definition key : Key := Eval vm_compute in encode_id "blb_" "aaaaaaaaaaaaaaaaaaaaaaaaaaaaaaaa".
Definition random : string := "bbbbbbbbbbbbbbbbbbbb".
Definition version : string := encode_id "" random.
Definition other_version : string := encode_id "" "cccccccccccccccccccc".
Definition noon : time := 63871200000 * Second + 120000000.
Definition report : stream := Stream ["{}"; "tail"] EOF true.
Definition limits : PutOptions := {| MaxBytes := 64; Timeout := Second; ExpectedSize := Some 6; ExpectedSHA256 := "" |}.

(** Files arrive in one piece. *)
Definition pieces (c : string) : stream := Stream [c] EOF false.

(** A run in which the calls of [faults] fail. *)
Definition run (faults : list (nat * fault)) : conditions := {|
  c_plan n := default Healthy (snd <$> find (fun x => Nat.eqb (fst x) n) faults); c_torn _ := 3%nat; c_ctx _ := Live;
  c_delivery := pieces |}.

Definition put : call := CallPut (Some random) noon key report limits.

Definition after (faults : list (nat * fault)) : answer * directory := exec (run faults) put ∅.

Definition stored : directory := snd (after []).

(** Roots that are refused, and one that is not. *)
Example roots :
  let open_at cwd := New (Some cwd) (fun p => Some (negb (String.eqb p "/etc/passwd"))) (fun _ => true) in
  map (fun p => is_ok (open_at "/srv/app" p)) ["blobs"; "//"; "/.."; "/srv/./app/"; "/etc/passwd"; "/srv/blobs/"] =
    [false; false; false; false; false; true] /\
  open_at "/srv/app" "/srv//blobs/../blobs/" = Ok "/srv/blobs".
Proof. vm_compute. done. Qed.

(** A put that succeeds leaves two files, and what was put is shown. *)
Example put_succeeds :
  (base.size stored =? 2)%nat = true /\
  match view stored key, fst (after []) with
  | Some (m, c), AnswerPut (Some (Ok m')) => String.eqb c "{}tail" && String.eqb (m_Version m) (m_Version m')
  | _, _ => false
  end = true.
Proof. vm_compute. done. Qed.

(** A key is put once; a version is deleted by its name only. *)
Example put_again :
  match fst (exec (run []) put stored), fst (exec (run []) (CallDelete key other_version) stored),
        exec (run []) (CallDelete key version) stored with
  | AnswerPut (Some (Err ErrAlreadyExists)), AnswerDelete (Err ErrVersion), (AnswerDelete (Ok _), d) => (base.size d =? 0)%nat
  | _, _, _ => false
  end = true.
Proof. vm_compute. done. Qed.

(** Wherever the first failure strikes, nothing or all of the blob is shown;
    where it only reports a failure, nothing stays behind. *)
Example every_failure :
  forallb (fun n =>
    forallb (fun f =>
      match view (snd (after [(n, f)])) key with None => true | Some (_, c) => String.eqb c "{}tail" end) [Broken; Lost])
    (seq 0 20) = true /\
  forallb (fun n => base.size (snd (after [(n, Broken)])) =? 0)%nat (seq 0 12) = true.
Proof. vm_compute. done. Qed.

(** A link that took effect but reported a failure leaves a manifest whose
    bytes [Put] then removed: the key cannot be put again and cannot be
    opened. *)
Example lost_link :
  match after [(11%nat, Lost)] with
  | (AnswerPut (Some (Err ErrAlreadyExists)), d) =>
      match fst (exec (run []) put d), fst (exec (run []) (CallOpen key) d) with
      | AnswerPut (Some (Err ErrAlreadyExists)), AnswerOpen (Err ErrIntegrity) => true
      | _, _ => false
      end
  | _ => false
  end = true.
Proof. vm_compute. done. Qed.

(** ** The theorems at work *)

Lemma key_valid : Valid key = true.
Proof. reflexivity. Qed.

Lemma noon_ok : clock_ok noon.
Proof. unfold clock_ok, noon, year_zero, year_10000, Second. lia. Qed.

(** Somebody else's put creates its staging file before every call. *)
Definition neighbour (_ : nat) (d : directory) : directory := snd (create (staging_name other_version) d).

Lemma neighbour_relied_on n d : rely key version d (neighbour n d).
Proof.
  apply (own_rely key other_version); [apply key_valid..|vm_compute; discriminate|].
  apply (own_hidden key other_version key_valid), create_hidden. by left.
Qed.

Lemma put_publishes_witness : exists a w',
  Put (c_plan (run [(6%nat, Broken)])) (fun _ => 0%nat) neighbour (fun _ => Live) (Some random) noon key report limits (World ∅ 0)
    = (Some a, w') /\
  rtc (step neighbour key version) ∅ (dir w') /\ store_ok (dir w') /\
  match a with
  | Ok m => view (dir w') key = Some (m, body report) /\ m_Version m = version /\ ending report = EOF /\
      slen (body report) <= 64 /\
      VerifyExpected (slen (body report)) (hex_encode (sha256 (body report))) limits = Ok tt
  | Err _ => forall r, read_at (dir w') key = Ok r -> mf_Version r = version ->
      dir w' !! DataName r = None \/ view (dir w') key = Some (metadata key r, body report)
  end.
Proof.
  apply (put_publishes (c_plan (run [(6%nat, Broken)])) (fun _ => 0%nat) neighbour (fun _ => Live) random noon key report limits (World ∅ 0)).
  - reflexivity.
  - reflexivity.
  - apply noon_ok.
  - apply neighbour_relied_on.
  - apply store_ok_empty.
  - intros r Hr. discriminate.
Defined.

(** A put whose data removal fails after a failed link, a second put, and a
    delete. *)
Definition story : list (conditions * call) :=
  [(run [(11%nat, Lost); (15%nat, Broken)], put); (run [], put); (run [(4%nat, Lost)], CallDelete key version); (run [], CallStat key)].

Fixpoint told (s : list (conditions * call)) (d : directory) : list event * directory :=
  match s with
  | [] => ([], d)
  | (e, c) :: s =>
      let '(a, d1) := exec e c d in
      let '(h, d2) := told s d1 in ((e, c, a) :: h, d2)
  end.

Lemma told_history s d : Forall (fun ec => call_ok (snd ec)) s -> history d (fst (told s d)) (snd (told s d)).
Proof.
  intros Hs. revert d. induction Hs as [|[e c] s Hc Hs IH]; intros d; [constructor|]. cbn [told].
  destruct (exec e c d) as [a d1] eqn:E. specialize (IH d1). destruct (told s d1) as [h d2]. cbn [fst snd] in *.
  by econstructor.
Qed.

Lemma put_ok : call_ok put.
Proof. split; [by intros bytes [= <-]|]. split; [reflexivity|apply noon_ok]. Qed.

Lemma filesystem_refines_witness :
  let d := snd (told story ∅) in
  store_ok d /\ (forall k, view ∅ k = None) /\ spec_history (view ∅) (fst (told story ∅)) (view d).
Proof.
  apply filesystem_refines, told_history. repeat (constructor; [first [exact put_ok|exact I]|]). constructor.
Defined.

Lemma run_calm : calm (run []).
Proof. by split. Qed.

Lemma blob_roundtrip_witness :
  exists m d1, exec (run []) put ∅ = (AnswerPut (Some (Ok m)), d1) /\
    forall h d2 e' bufs, history d1 h d2 -> (forall x a, (x, CallDelete key (m_Version m), a) ∉ h) -> calm e' ->
      body (c_delivery e' (body report)) = body report -> ending (c_delivery e' (body report)) = EOF ->
      Forall (buffer_ok (slen (body report))) bufs -> Forall (fun len => 1 <= len) bufs ->
      (reads (c_delivery e' (body report)) <= length bufs)%nat ->
      exists r r', exec e' (CallOpen key) d2 = (AnswerOpen (Ok (r, m)), d2) /\
        ReadAll safe_read (c_ctx e') bufs r "" = Some (Ok (body report), r').
Proof.
  apply (blob_roundtrip (run []) key report limits random noon ∅).
  - apply run_calm.
  - apply store_ok_empty.
  - reflexivity.
  - apply noon_ok.
  - reflexivity.
  - reflexivity.
  - reflexivity.
  - vm_compute. discriminate.
  - reflexivity.
  - reflexivity.
  - intros n _. apply lookup_empty.
Defined.

End FilesystemExamples.
