(* ===== verification/Conformance.v ===== *)
(** * The conformance suite of the blob stores
    (src/internal/blobstore/blobstoretest/conformance.go)

    The suite as a program over any store: [BlobStore] is the interface a
    suite sees, and each scenario answers whether every expectation was met. *)

From S2P Require Import Prelude GoStrings Encoding Blobstore Streams.

Local Open Scope Z_scope.

Module Conformance.
Import Blobstore Streams.

(** ** The interface *)

(** [Put] with what the context says at each look; [Open] followed by
    [io.ReadAll] and [Close]. *)
Class BlobStore (B : Type) := {
  Put : (nat -> ctx_state) -> Key -> stream -> PutOptions -> B -> result error Metadata * B;
  OpenAndRead : Key -> B -> result error (result error string * Metadata) * B;
  Stat : Key -> B -> result error Metadata * B;
  Delete : Key -> string -> B -> result error unit * B
}.

#[global] Instance Metadata_eq_dec : EqDecision Metadata.
Proof. solve_decision. Defined.

(** ** The scenarios *)

Definition Second10 : duration := 10 * Second.

Definition defaultOptions (maxBytes : Z) : PutOptions :=
  {| MaxBytes := maxBytes; Timeout := Second10; ExpectedSize := None; ExpectedSHA256 := "" |}.

Definition digest (content : string) : string := hex_encode (sha256 content).

(** [bytes.NewReader(content)]: one read has as much as the buffer holds. *)
Definition NewReader (content : string) : stream := Stream (if String.eqb content "" then [] else [content]) EOF false.

Section Suite.
Context {B : Type} `{!BlobStore B}.

Definition stream_round_trip (content : string) (key : Key) (b : B) : bool :=
  let expectedSize := slen content in
  let options := {| MaxBytes := expectedSize + 1; Timeout := Second10; ExpectedSize := Some expectedSize;
                    ExpectedSHA256 := digest content |} in
  match Put live key (NewReader content) options b with
  | (Err _, _) => false
  | (Ok m, b) =>
      (m_Size m =? expectedSize) && String.eqb (m_SHA256 m) (digest content) && negb (String.eqb (m_Version m) "") &&
      match Stat key b with
      | (Ok stat, b) =>
          bool_decide (stat = m) &&
          match OpenAndRead key b with
          | (Ok (Ok actual, opened), b) =>
              String.eqb actual content && bool_decide (opened = m) &&
              match Put live key (NewReader content) (defaultOptions (expectedSize + 1)) b with
              | (Err ErrAlreadyExists, b) =>
                  match Delete key "wrong-version" b with
                  | (Err ErrVersion, b) =>
                      match Delete key (m_Version m) b with
                      | (Ok _, b) =>
                          match Delete key (m_Version m) b with
                          | (Ok _, b) => match Stat key b with (Err ErrNotFound, _) => true | _ => false end
                          | _ => false
                          end
                      | _ => false
                      end
                  | _ => false
                  end
              | _ => false
              end
          | _ => false
          end
      | _ => false
      end
  end.

(** A put that has to fail with this error and leave nothing to be seen. *)
Definition refused (e : error) (a : result error Metadata * B) (key : Key) : bool :=
  match a with
  | (Err x, b) => bool_decide (x = e) && match Stat key b with (Err ErrNotFound, _) => true | _ => false end
  | _ => false
  end.

Definition byte_limit (key : Key) (b : B) : bool :=
  refused ErrTooLarge (Put live key (NewReader "12345") (defaultOptions 4) b) key.

Definition expected_digest (key : Key) (b : B) : bool :=
  let options := {| MaxBytes := 64; Timeout := Second10; ExpectedSize := None; ExpectedSHA256 := digest "different" |} in
  refused ErrIntegrity (Put live key (NewReader "content") options b) key.

(** The slow reader sleeps past the timeout: the context has ended when its
    first read returns. *)
Definition slow (look : nat) : ctx_state := match look with O => Live | _ => DeadlineExceeded end.

Definition time_limit (key : Key) (b : B) : bool :=
  let options := {| MaxBytes := 64; Timeout := 10 * 1000000; ExpectedSize := None; ExpectedSHA256 := "" |} in
  match Put slow key (Stream ["content"] EOF false) options b with (Err ErrDeadline, _) => true | _ => false end.

(** The suite, with a fresh store and key for each scenario. *)
Definition Run (content : string) (factory : nat -> B) (newKey : nat -> Key) : bool :=
  stream_round_trip content (newKey 0%nat) (factory 0%nat) && byte_limit (newKey 1%nat) (factory 1%nat) &&
  expected_digest (newKey 2%nat) (factory 2%nat) && time_limit (newKey 3%nat) (factory 3%nat).
End Suite.

End Conformance.
