(* ===== verification/ConformanceTheorems.v ===== *)
(** * The filesystem store passes the conformance suite

    On a disk that works, for every content, every key and every version that
    is drawn. *)

From S2P Require Import Prelude GoStrings Encoding Txn Json GoTime Blobstore Streams Manifests Filesystem FilesystemFacts.
From S2P Require Import FilesystemTheorems FilesystemRefinement FilesystemExamples Conformance.

Local Open Scope Z_scope.

Module ConformanceTheorems.
Import Blobstore Streams Manifests Filesystem FilesystemFacts FilesystemTheorems FilesystemRefinement.

(** ** The filesystem store on a disk that works *)

Record quiet := Quiet {
  q_dir : directory; q_draws : nat; q_random : nat -> string; q_now : time; q_pieces : string -> stream; q_buffer : nat -> Z
}.

Definition conditions_of (q : quiet) (ctx : nat -> ctx_state) : conditions := {|
  c_plan _ := Healthy; c_torn _ := 0%nat; c_ctx := ctx; c_delivery := q_pieces q |}.

Definition after (q : quiet) (d : directory) : quiet :=
  Quiet d (S (q_draws q)) (q_random q) (q_now q) (q_pieces q) (q_buffer q).

Definition quiet_put (ctx : nat -> ctx_state) (k : Key) (s : stream) (o : PutOptions) (q : quiet) : result error Metadata * quiet :=
  match exec (conditions_of q ctx) (CallPut (Some (q_random q (q_draws q))) (q_now q) k s o) (q_dir q) with
  | (AnswerPut (Some a), d) => (a, after q d)
  | (_, d) => (Err (ErrSource "panic"), after q d)
  end.

(** [io.ReadAll] brings a buffer for every read. *)
Definition quiet_read (k : Key) (q : quiet) : result error (result error string * Metadata) * quiet :=
  match exec (conditions_of q live) (CallOpen k) (q_dir q) with
  | (AnswerOpen (Ok (r, m)), d) =>
      (Ok (match ReadAll safe_read live (map (q_buffer q) (seq 0 (reads (v_source r)))) r "" with
           | Some (a, _) => a
           | None => Err ErrNotConsumed
           end, m), after q d)
  | (AnswerOpen (Err e), d) => (Err e, after q d)
  | (_, d) => (Err (ErrSource "panic"), after q d)
  end.

Definition quiet_stat (k : Key) (q : quiet) : result error Metadata * quiet :=
  match exec (conditions_of q live) (CallStat k) (q_dir q) with
  | (AnswerStat a, d) => (a, after q d)
  | (_, d) => (Err (ErrSource "panic"), after q d)
  end.

Definition quiet_delete (k : Key) (version : string) (q : quiet) : result error unit * quiet :=
  match exec (conditions_of q live) (CallDelete k version) (q_dir q) with
  | (AnswerDelete a, d) => (a, after q d)
  | (_, d) => (Err (ErrSource "panic"), after q d)
  end.

#[global] Instance quiet_store : Conformance.BlobStore quiet := {|
  Conformance.Put := quiet_put; Conformance.OpenAndRead := quiet_read; Conformance.Stat := quiet_stat;
  Conformance.Delete := quiet_delete |}.

(** Twenty random bytes at a time, a clock a manifest can hold, files that
    arrive whole and buffers for the content. *)
Record ready (size : Z) (q : quiet) : Prop := {
  f_random : forall n, slen (q_random q n) = 20;
  f_clock : clock_ok (q_now q);
  f_pieces : forall c, body (q_pieces q c) = c /\ ending (q_pieces q c) = EOF;
  f_buffer : forall n, 1 <= q_buffer q n /\ size + q_buffer q n <= max_int64
}.

Lemma live_calm q : calm (conditions_of q live).
Proof. by split. Qed.

(** *** Calls on a directory at rest *)

Lemma calm_reads d k n : (exists r, read_at d k = Ok r) \/ read_at d k = Err ErrNotFound ->
  exists m, readManifest (fun _ => Healthy) alone k (World d n) = (read_at d k, World d m).
Proof.
  intros Hr. unfold readManifest, stat. rewrite calm_syscall by done. cbn [dir calls]. unfold read_at in *.
  destruct (d !! manifestName k) as [[t|]|] eqn:Em; cbn [fst snd]; [|by destruct Hr as [[r ?]|?]|by eexists].
  destruct (maxManifestBytes <? slen t) eqn:El; [by destruct Hr as [[r ?]|?]|].
  rewrite calm_syscall by done. cbn [dir calls]. rewrite Em. cbn [fst snd]. rewrite calm_syscall by done. cbn [dir calls fst snd].
  simp_bool. rewrite read_text_limit by done. cbn [mbind option_bind]. by eexists.
Qed.

Lemma calm_stat q k : Valid k = true -> (exists r, read_at (q_dir q) k = Ok r) \/ read_at (q_dir q) k = Err ErrNotFound ->
  quiet_stat k q = (match read_at (q_dir q) k with Ok r => Ok (metadata k r) | Err e => Err e end, after q (q_dir q)).
Proof.
  intros Hk Hr. unfold quiet_stat. cbn [exec]. unfold Stat. cbn [c_ctx conditions_of]. rewrite Hk. cbn [live ContextError negb].
  destruct (calm_reads (q_dir q) k 0) as [m E]; [done|]. cbn [c_plan conditions_of]. rewrite E.
  by destruct (read_at (q_dir q) k).
Qed.

Lemma calm_delete q k version r : Valid k = true -> version <> "" -> read_at (q_dir q) k = Ok r ->
  quiet_delete k version q =
    if String.eqb (mf_Version r) version
    then (Ok tt, after q (delete (manifestName k) (delete (DataName r) (q_dir q)))) else (Err ErrVersion, after q (q_dir q)).
Proof.
  intros Hk Hv Hr. unfold quiet_delete. cbn [exec]. unfold Delete. cbn [c_ctx conditions_of]. rewrite Hk.
  cbn [live ContextError negb]. rewrite (proj2 (String.eqb_neq version "")) by done.
  destruct (calm_reads (q_dir q) k 0) as [m E]; [eauto|]. cbn [c_plan conditions_of]. rewrite E, Hr.
  destruct (String.eqb (mf_Version r) version); cbn [negb]; [|done].
  assert (forall name op d n, remove_present (fun _ => Healthy) alone name op (World d n) = (Ok tt, World (delete name d) (S n))) as Hrm.
  { intros name op d n. unfold remove_present. rewrite calm_syscall by done. unfold remove. cbn [dir calls].
    destruct (d !! name) eqn:El; cbn [fst snd]; [done|]. by rewrite delete_id. }
  by rewrite !Hrm.
Qed.

Lemma calm_delete_missing q k version : Valid k = true -> version <> "" -> q_dir q !! manifestName k = None ->
  quiet_delete k version q = (Ok tt, after q (q_dir q)).
Proof.
  intros Hk Hv Hm. unfold quiet_delete. cbn [exec]. unfold Delete. cbn [c_ctx conditions_of]. rewrite Hk.
  cbn [live ContextError negb]. rewrite (proj2 (String.eqb_neq version "")) by done.
  by rewrite calm_readManifest.
Qed.

Lemma calm_put_again q ctx k s o r : ValidatePutOptions k true o = Ok tt -> read_at (q_dir q) k = Ok r ->
  quiet_put ctx k s o q = (Err ErrAlreadyExists, after q (q_dir q)).
Proof.
  intros Ho Hr. unfold quiet_put. cbn [exec]. unfold Put. rewrite Ho.
  destruct (calm_reads (q_dir q) k 0) as [m E]; [eauto|]. cbn [c_plan conditions_of]. by rewrite E, Hr.
Qed.

Lemma calm_read q k m c : Valid k = true -> view (q_dir q) k = Some (m, c) -> ready (slen c) q ->
  quiet_read k q = (Ok (Ok c, m), after q (q_dir q)).
Proof.
  intros Hk Hview [_ _ Hp Hb]. unfold quiet_read. rewrite (calm_open _ _ _ m c) by (done || apply live_calm).
  cbn [c_delivery conditions_of v_source NewVerifiedReader]. destruct (Hp c) as [Hbody Hend].
  destruct (verified_read live (slen c) (hex_encode (sha256 c)) c (map (q_buffer q) (seq 0 (reads (q_pieces q c))))) with
    (r := NewVerifiedReader (q_pieces q c) (slen c) (hex_encode (sha256 c))) (acc := "") as [r' ->]; try done.
  - apply Forall_forall. intros x (n & -> & _)%list_elem_of_fmap. destruct (Hb n). split; lia.
  - apply Forall_forall. intros x (n & -> & _)%list_elem_of_fmap. by destruct (Hb n).
  - split; try done. apply slen_nonneg.
  - by rewrite map_length, length_seq.
Qed.

(** *** The scenarios *)

Lemma NewReader_body content : body (Conformance.NewReader content) = content /\ ending (Conformance.NewReader content) = EOF.
Proof.
  unfold Conformance.NewReader, body. destruct (String.eqb_spec content "") as [->|]; [done|]. cbn [chunks foldr].
  by rewrite append_nil_r.
Qed.

Lemma digest_valid c : validSHA256 (Conformance.digest c) = true.
Proof. unfold validSHA256, Conformance.digest. by rewrite hex_encode_length, sha256_length, hex_encode_class. Qed.

Lemma expected_options key content : Valid key = true ->
  let o := {| MaxBytes := slen content + 1; Timeout := Conformance.Second10; ExpectedSize := Some (slen content);
              ExpectedSHA256 := Conformance.digest content |} in
  ValidatePutOptions key true o = Ok tt /\ VerifyExpected (slen content) (hex_encode (sha256 content)) o = Ok tt.
Proof.
  intros Hk o. pose proof (slen_nonneg content). unfold ValidatePutOptions, VerifyExpected, o. cbn [MaxBytes Timeout ExpectedSize ExpectedSHA256].
  rewrite Hk, digest_valid, orb_true_r, !(proj2 (Z.leb_le _ _)), !(proj2 (Z.ltb_lt _ _)) by (unfold Conformance.Second10, Second; lia).
  unfold Conformance.digest. by rewrite Z.eqb_refl, String.eqb_refl, orb_true_r.
Qed.

Lemma default_options key max : Valid key = true -> 0 < max -> ValidatePutOptions key true (Conformance.defaultOptions max) = Ok tt.
Proof.
  intros Hk Hm. unfold ValidatePutOptions, Conformance.defaultOptions. cbn [MaxBytes Timeout ExpectedSize ExpectedSHA256].
  by rewrite Hk, !(proj2 (Z.ltb_lt _ _)) by (unfold Conformance.Second10, Second; lia).
Qed.

Lemma wrong_version bytes : encode_id "" bytes <> "wrong-version".
Proof.
  intros E. pose proof (encode_id_class bytes) as H. unfold encode_id in E. change ("" +:+ ?s) with s in E. rewrite E in H. done.
Qed.

Lemma drawn_nonempty bytes : slen bytes = 20 -> encode_id "" bytes <> "".
Proof. intros Hb E. pose proof (version_shape _ Hb) as [_ Hl]. by rewrite E in Hl. Qed.

(** A put into an empty directory leaves a version to be read. *)
Lemma calm_put_first q k s o : q_dir q = ∅ -> ready (slen (body s)) q -> MaxBytes o < max_int64 ->
  ValidatePutOptions k true o = Ok tt -> ending s = EOF -> slen (body s) <= MaxBytes o ->
  VerifyExpected (slen (body s)) (hex_encode (sha256 (body s))) o = Ok tt ->
  let m := metadata k (record k (encode_id "" (q_random q (q_draws q))) (body s) (q_now q)) in
  exists d, quiet_put live k s o q = (Ok m, after q d) /\ view d k = Some (m, body s).
Proof.
  intros Hd [Hr Hnow _ _] Hmax Hopt Hend Hfit Hver m.
  destruct (calm_put (conditions_of q live) k s o (q_random q (q_draws q)) (q_now q) (q_dir q)) as [d Hput];
    try (done || apply live_calm || by rewrite Hd).
  exists d. unfold quiet_put. rewrite Hput. split; [done|].
  eapply put_refines in Hput as [_ (_ & _ & Hview & _)]; [exact Hview| |rewrite Hd; apply store_ok_empty].
  split; [intros ? [= <-]; apply Hr|done].
Qed.

Lemma passes_round_trip q content key : Valid key = true -> ready (slen content) q -> q_dir q = ∅ ->
  slen content + 1 < max_int64 -> Conformance.stream_round_trip content key q = true.
Proof.
  intros Hk Hq Hd Hmax. destruct (NewReader_body content) as [Hb He]. pose proof (slen_nonneg content).
  destruct (expected_options key content Hk) as [Hopt Hver]. unfold Conformance.stream_round_trip. cbv zeta.
  cbn [Conformance.Put Conformance.Stat Conformance.OpenAndRead Conformance.Delete quiet_store].
  match goal with |- context [quiet_put live key _ ?o q] => set (options := o) in * end.
  destruct (calm_put_first q key (Conformance.NewReader content) options) as (d & -> & Hview); rewrite ?Hb; try done.
  { change (MaxBytes options) with (slen content + 1). lia. }
  rewrite Hb in Hview. set (v := encode_id "" _) in *. set (m := metadata key _) in *.
  assert (v <> "") as Hv by apply drawn_nonempty, Hq.
  assert (forall d', ready (slen content) (after q d')) as Hready by (by destruct Hq; split).
  pose proof Hview as (r & Hr & _ & _ & Em)%view_Some.
  change (m_Size m) with (slen content). change (m_SHA256 m) with (Conformance.digest content). change (m_Version m) with v.
  rewrite Z.eqb_refl, String.eqb_refl, (proj2 (String.eqb_neq v "")) by done. cbn [andb negb].
  rewrite calm_stat by (done || (left; by exists r)). cbn [q_dir after]. rewrite Hr, <- Em, bool_decide_eq_true_2 by done. cbn [andb].
  rewrite (calm_read _ key m content) by (done || by destruct (Hready d); split). rewrite String.eqb_refl, bool_decide_eq_true_2 by done. cbn [andb].
  rewrite (calm_put_again _ live key _ _ r) by (done || (apply default_options; [done|lia])).
  rewrite (calm_delete _ key "wrong-version" r) by done.
  assert (mf_Version r = v) as Ev by (change (mf_Version r) with (m_Version (metadata key r)); by rewrite <- Em).
  rewrite Ev, (proj2 (String.eqb_neq v "wrong-version")) by apply wrong_version.
  rewrite (calm_delete _ key v r), Ev, String.eqb_refl by done.
  assert ((delete (manifestName key) (delete (DataName r) d)) !! manifestName key = None) as Hnone by apply lookup_delete_eq.
  rewrite (calm_delete_missing _ key v) by done.
  rewrite calm_stat; [|done|right; unfold read_at; cbn [q_dir after]; by rewrite Hnone].
  unfold read_at. cbn [q_dir after]. by rewrite Hnone.
Qed.

(** A put up to the staged object, in an empty directory. *)
Lemma calm_put_staged q ctx k s o : q_dir q = ∅ -> ValidatePutOptions k true o = Ok tt ->
  let v := encode_id "" (q_random q (q_draws q)) in
  exists n, let w := World (<[staging_name v := File ""]> ∅) n in
  forall y r w', copy_file (fun _ => Healthy) (fun _ => 0%nat) alone ctx (reads s) (staging_name v) (NewBoundedReader s (MaxBytes o)) w
      = FileCopied y r w' ->
    (y = None -> exists x, verify_staged (fun _ => Healthy) alone ctx o r w' = (Err x, w')) ->
    quiet_put ctx k s o q =
      (Err match y with Some y => normalizeStreamError ctx (checks r) y | None =>
             match fst (verify_staged (fun _ => Healthy) alone ctx o r w') with Err x => x | Ok _ => ErrNotFound end end,
       after q (delete (staging_name v) (dir w'))).
Proof.
  intros Hd Hopt v. unfold quiet_put. cbn [exec c_plan c_torn c_ctx conditions_of]. unfold Put. rewrite Hopt.
  rewrite calm_readManifest by (rewrite ?Hd; done). fold v. unfold put_version. cbv zeta. rewrite calm_syscall by done. unfold create.
  cbn [dir calls]. rewrite Hd, lookup_empty. cbn [fst snd]. eexists. intros y r w' -> Hver.
  assert (dir (cleanup (fun _ => Healthy) alone (staging_name v) w') = delete (staging_name v) (dir w')) as Hclean.
  { unfold cleanup. rewrite calm_flush, calm_syscall by done. unfold remove. cbn [dir calls snd fst].
    destruct (dir w' !! staging_name v) eqn:E; cbn [snd fst dir]; [done|]. by rewrite delete_id. }
  destruct y as [y|]; [by rewrite Hclean|]. destruct (Hver eq_refl) as [x ->]. cbn [fst]. by rewrite Hclean.
Qed.

Lemma calm_stat_nothing q k : Valid k = true -> q_dir q = ∅ -> quiet_stat k q = (Err ErrNotFound, after q (q_dir q)).
Proof.
  intros Hk Hd. assert (read_at (q_dir q) k = Err ErrNotFound) as Hr by (unfold read_at; by rewrite Hd).
  rewrite calm_stat by auto. by rewrite Hr.
Qed.

(** The first read fails: nothing is written, nothing is left. *)
Lemma refused_at_once q ctx k s o x r : q_dir q = ∅ -> ValidatePutOptions k true o = Ok tt ->
  Read stream_read ctx (NewBoundedReader s (MaxBytes o)) copy_buffer = Some ("", Some x, r) -> is_EOF (Some x) = false ->
  quiet_put ctx k s o q = (Err (normalizeStreamError ctx (checks r) x), after q ∅).
Proof.
  intros Hd Hopt Hread Heof. destruct (calm_put_staged q ctx k s o Hd Hopt) as [n H]. cbv zeta in H.
  rewrite (H (Some x) r (World (<[staging_name (encode_id "" (q_random q (q_draws q))) := File ""]> ∅) n)); [| |done].
  2: { destruct (reads s) eqn:Er; [unfold reads in Er; by destruct (chunks s)|]. cbn [copy_file]. rewrite Hread.
       change (0 <? slen "") with false. cbv iota. by rewrite Heof. }
  cbn [dir]. by rewrite delete_insert_eq, delete_empty.
Qed.

Lemma passes_byte_limit q key : Valid key = true -> q_dir q = ∅ -> Conformance.byte_limit key q = true.
Proof.
  intros Hk Hd. unfold Conformance.byte_limit. cbn [Conformance.Put quiet_store].
  erewrite refused_at_once by (done || by apply default_options).
  unfold Conformance.refused. cbn [Conformance.Stat quiet_store]. by rewrite calm_stat_nothing.
Qed.

Lemma passes_time_limit q key : Valid key = true -> q_dir q = ∅ -> Conformance.time_limit key q = true.
Proof.
  intros Hk Hd. unfold Conformance.time_limit. cbn [Conformance.Put quiet_store].
  erewrite refused_at_once; [|done| |done..]; [done|]. unfold ValidatePutOptions. by rewrite Hk.
Qed.

Lemma passes_expected_digest q key : Valid key = true -> q_dir q = ∅ -> Conformance.expected_digest key q = true.
Proof.
  intros Hk Hd. unfold Conformance.expected_digest. cbv zeta. cbn [Conformance.Put quiet_store].
  match goal with |- context [quiet_put live key ?s ?o q] => set (options := o); destruct (calm_put_staged q live key s options Hd)
    as [n H] end.
  { unfold ValidatePutOptions. by rewrite Hk. }
  cbv zeta in H. set (w := World _ n) in H.
  destruct (calm_copy (fun _ => Healthy) (fun _ => 0%nat) live (fun _ => eq_refl) (fun _ => eq_refl) 64 (staging_name (encode_id "" (q_random q (q_draws q))))
    ltac:(done) (reads (Conformance.NewReader "content")) (NewBoundedReader (Conformance.NewReader "content") 64) w)
    as (r & w' & Hcopy & Hw & Hh & He & Hf & [_ Hsize _]); try done;
    [apply lookup_insert_eq|].
  assert (verify_staged (fun _ => Healthy) alone live options r w' = (Err ErrIntegrity, w')) as Hver.
  { unfold verify_staged, Result. rewrite He, Hf, Hsize, Hh. reflexivity. }
  rewrite (H _ _ _ Hcopy) by eauto. rewrite Hver. unfold Conformance.refused. cbn [fst Conformance.Stat quiet_store].
  rewrite calm_stat_nothing; [done..|]. cbn [q_dir after]. rewrite Hw, delete_insert_eq; unfold w; cbn [dir]; by rewrite delete_insert_eq, ?delete_empty.
Qed.

(** C13.  On a disk that works, the filesystem store passes the whole
    conformance suite: for every content, whatever keys are drawn and whatever
    versions, as long as each scenario has an empty directory. *)
Theorem filesystem_conforms content (factory : nat -> quiet) (newKey : nat -> Key) :
  slen content + 1 < max_int64 -> (forall n, Valid (newKey n) = true) ->
  (forall n, ready (slen content) (factory n) /\ q_dir (factory n) = ∅) -> Conformance.Run content factory newKey = true.
Proof.
  intros Hc Hk Hf. unfold Conformance.Run.
  rewrite passes_round_trip, passes_byte_limit, passes_expected_digest, passes_time_limit by (done || apply Hf). done.
Qed.

(** A disk with a new directory for each scenario. *)
Definition disk (_ : nat) : quiet :=
  Quiet ∅ 0 (fun _ => FilesystemExamples.random) FilesystemExamples.noon FilesystemExamples.pieces (fun _ => 512).

Lemma filesystem_conforms_witness : Conformance.Run "{}tail" disk (fun _ => FilesystemExamples.key) = true.
Proof.
  apply filesystem_conforms; [done|done|]. intros n. split; [|done]. split; [done|done| |done].
  intros c. split; [|done]. apply append_nil_r.
Defined.

(** The suite run on it, without the theorem; a store that kept nothing would
    not pass. *)
Example suite_runs : Conformance.Run "{}tail" disk (fun _ => FilesystemExamples.key) = true.
Proof. vm_compute. done. Qed.

End ConformanceTheorems.
