(* ===== verification/S3store.v ===== *)
(** * The S3 blob store (src/internal/blobstore/s3store/s3store.go)

    [Module S3store] models the store over an object service.  The SDK and the
    service behind it are not part of the repository: they are the parameter
    [ObjectService], with any state and any answers; what is documented about
    them is in [ObjectLaws] (S3Theorems.v) and used by the theorems that need
    it.  Other clients may act between any two calls. *)

From S2P Require Import Prelude GoStrings Encoding Json GoTime Blobstore Streams GoPath Manifests.
From Stdlib Require Import Ascii.

Local Open Scope Z_scope.

Module S3store.
Import Blobstore Streams Manifests.

Definition maxManifestBytes : Z := Z.shiftl 16 10.

(** ** Errors of the SDK *)

(** An answer of the service with a code, an end of the context, or anything
    else that can go wrong. *)
Inductive sdk_error := APIError (code : string) | DeadlineError | CanceledError | OtherError.

Definition isNotFound (e : sdk_error) : bool :=
  match e with
  | APIError code => String.eqb code "NoSuchKey" || String.eqb code "NotFound" || String.eqb code "NoSuchVersion"
  | _ => false
  end.

Definition isPreconditionFailed (e : sdk_error) : bool :=
  match e with APIError code => String.eqb code "PreconditionFailed" | _ => false end.

Definition safeS3Error (operation : string) (e : sdk_error) : error :=
  match e with DeadlineError => ErrDeadline | CanceledError => ErrCanceled | _ => ErrBackend operation end.

(** ** Configuration *)

Record Config := { Bucket : string; Prefix : string; Encryption : string; KMSKeyID : string }.

Definition New (client_present : bool) (config : Config) : result error Config :=
  guard! client_present && negb (String.eqb (Bucket config) "") else ErrInvalidOptions in
  let prefix := TrimSlashes (Prefix config) in
  guard! negb (Contains prefix (String (chr 92) "") || String.eqb prefix "." || String.eqb prefix ".." ||
               HasPrefix prefix "../" || Contains prefix "/../") else ErrInvalidOptions in
  guard! negb (negb (String.eqb prefix "") && negb (String.eqb (Clean prefix) prefix)) else ErrInvalidOptions in
  guard! (if String.eqb (Encryption config) "" || String.eqb (Encryption config) "AES256"
          then String.eqb (KMSKeyID config) ""
          else String.eqb (Encryption config) "aws:kms" && negb (String.eqb (KMSKeyID config) ""))
    else ErrInvalidOptions in
  Ok {| Bucket := Bucket config; Prefix := prefix; Encryption := Encryption config; KMSKeyID := KMSKeyID config |}.

Definition optionalString (value : string) : option string := if String.eqb value "" then None else Some value.

(** ** The object service *)

(** What [GetObject] returns: the body as it arrives and its announced length. *)
Record object := { Body : stream; ContentLength : option Z }.

(** The calls the store makes, on a service with state [S].  [PutObject]
    carries the condition If-None-Match: *, [UploadObject] reads its body with
    buffers of its own choosing and gets what it read and how reading ended;
    an empty version stands for none. *)
Class ObjectService (S : Type) := {
  GetObject : string -> string -> option string -> S -> result sdk_error object * S;
  PutObject : string -> string -> string -> string * option string -> S -> result sdk_error unit * S;
  DeleteObject : string -> string -> option string -> S -> result sdk_error unit * S;
  upload_buffers : string -> string -> S -> list positive;
  UploadObject : string -> string -> string -> option error -> string * option string -> S -> result sdk_error string * S
}.

Section Store.
Context {S : Type} `{!ObjectService S}.

(** What other clients do before the [k]-th call. *)
Variable others : nat -> S -> S.

(** [ctx] is [ctx.Err()] at each look at it. *)
Variable ctx : nat -> ctx_state.

Variable config : Config.

Record world := World { service : S; calls : nat }.

Definition call {A} (f : S -> A * S) (w : world) : A * world :=
  let '(a, s) := f (others (calls w) (service w)) in (a, World s (Datatypes.S (calls w))).

Definition encryption : string * option string := (Encryption config, optionalString (KMSKeyID config)).

(** *** Names *)

Definition join_key (parts : list string) : string :=
  if String.eqb (Prefix config) "" then Join parts else Join (Prefix config :: parts).

Definition dataKey (key : Key) (version : string) : string := join_key ["objects"; key; version; "data"].
Definition manifestKey (key : Key) : string := join_key ["objects"; key; "manifest.json"].

(** *** Manifests *)

Definition manifest_json : manifest -> json := record_json "data_key".
Definition encode_manifest : manifest -> option string := encode_record "data_key".
Definition decode_manifest : string -> option manifest := decode_record "data_key".

Definition valid_manifest (key : Key) (r : manifest) : bool :=
  String.eqb (mf_Key r) key && negb (String.eqb (mf_Version r) "") &&
  String.eqb (DataName r) (dataKey key (mf_Version r)) && (0 <=? mf_Size r) && validSHA256 (mf_SHA256 r) &&
  negb (IsZero (mf_CommittedAt r)).

Definition metadata (key : Key) (r : manifest) : Metadata := {|
  m_Key := key; m_Size := mf_Size r; m_SHA256 := mf_SHA256 r; m_Version := mf_Version r;
  m_BackendVersion := mf_BackendVersion r; m_CommittedAt := mf_CommittedAt r |}.

(** What the decoder sees through [io.LimitReader]: the text, unless the body
    breaks off before the limit. *)
Definition limited_text (s : stream) : option string :=
  if maxManifestBytes <? slen (body s) then Some (stake (Z.to_nat (maxManifestBytes + 1)) (body s))
  else if is_EOF (Some (ending s)) then Some (body s) else None.

Definition readManifest (key : Key) (w : world) : result error manifest * world :=
  match call (GetObject (Bucket config) (manifestKey key) None) w with
  | (Err e, w) => (Err (if isNotFound e then ErrNotFound else safeS3Error "read object manifest" e), w)
  | (Ok o, w) =>
      (if match ContentLength o with Some n => maxManifestBytes <? n | None => false end then Err ErrIntegrity
       else match limited_text (Body o) ≫= decode_manifest with
       | Some r => if valid_manifest key r then Ok r else Err ErrIntegrity
       | None => Err ErrIntegrity
       end, w)
  end.

Definition commitManifest (r : manifest) (w : world) : result error unit * world :=
  match encode_manifest r with
  | None => (Err (ErrBackend "encode object manifest"), w)
  | Some content =>
      match call (PutObject (Bucket config) (manifestKey (mf_Key r)) content encryption) w with
      | (Err e, w) => (Err (if isPreconditionFailed e then ErrAlreadyExists else safeS3Error "commit object manifest" e), w)
      | (Ok _, w) => (Ok tt, w)
      end
  end.

Definition deleteData (key backendVersion : string) (w : world) : result error unit * world :=
  match call (DeleteObject (Bucket config) key (optionalString backendVersion)) w with
  | (Err e, w) => (if isNotFound e then Ok tt else Err (safeS3Error "delete object bytes" e), w)
  | (Ok _, w) => (Ok tt, w)
  end.

Definition cleanupData (key backendVersion : string) (w : world) : world := snd (deleteData key backendVersion w).

(** *** Put *)

(** The reads of the uploader: what it got, how reading ended (or that it
    stopped), and the reader afterwards; [None] is a panic. *)
Fixpoint drain (bufs : list positive) (r : @BoundedReader stream) (acc : string)
  : option (string * option error * @BoundedReader stream) :=
  match bufs with
  | [] => Some (acc, None, r)
  | len :: bufs =>
      match Read stream_read ctx r (Zpos len) with
      | None => None
      | Some (bytes, None, r) => drain bufs r (acc +:+ bytes)
      | Some (bytes, Some e, r) => Some (acc +:+ bytes, Some e, r)
      end
  end.

Definition normalizeStreamError (look : nat) (e : option error) : option error :=
  match ContextError (ctx look) with
  | Some c => Some c
  | None =>
      match e with
      | None => None
      | Some ErrTooLarge => Some ErrTooLarge
      | Some ErrIntegrity => Some ErrIntegrity
      | Some _ => Some (ErrBackend "stream object")
      end
  end.

Definition new_manifest (key : Key) (version backend : string) (size : Z) (digest : string) (now : time) : manifest := {|
  mf_Key := key; DataName := dataKey key version; mf_Size := size; mf_SHA256 := digest; mf_Version := version;
  mf_BackendVersion := backend; mf_CommittedAt := now |}.

(** After the upload: the checks and the manifest. *)
Definition publish (key : Key) (version backend : string) (r : @BoundedReader stream) (now : time) (options : PutOptions)
  (w : world) : result error Metadata * world :=
  match Result r with
  | Err e =>
      (Err (default e (normalizeStreamError (checks r) (Some e))), cleanupData (dataKey key version) backend w)
  | Ok (size, digest) =>
      match VerifyExpected size digest options with
      | Err e => (Err e, cleanupData (dataKey key version) backend w)
      | Ok _ =>
          let record := new_manifest key version backend size digest now in
          match commitManifest record w with
          | (Err e, w) => (Err e, cleanupData (dataKey key version) backend w)
          | (Ok _, w) => (Ok (metadata key record), w)
          end
      end
  end.

(** [Put] once the version is drawn. *)
Definition put_version (version : string) (now : time) (key : Key) (source : stream) (options : PutOptions) (w : world)
  : option (result error Metadata) * world :=
  let s := others (calls w) (service w) in
  match drain (upload_buffers (Bucket config) (dataKey key version) s) (NewBoundedReader source (MaxBytes options)) "" with
  | None => (None, w)
  | Some (bytes, e, r) =>
      match call (UploadObject (Bucket config) (dataKey key version) bytes e encryption) w with
      | (Err x, w) =>
          (Some (Err (default (safeS3Error "upload object" x) (normalizeStreamError (checks r) (err r)))), w)
      | (Ok backend, w) =>
          let '(answer, w) := publish key version backend r now options w in (Some answer, w)
      end
  end.

(** [random] are the bytes [rand.Read] delivered, if it did; the answer is
    [None] when the call panics. *)
Definition Put (random : option string) (now : time) (key : Key) (source : stream) (options : PutOptions) (w : world)
  : option (result error Metadata) * world :=
  match ValidatePutOptions key true options with
  | Err e => (Some (Err e), w)
  | Ok _ =>
      match readManifest key w with
      | (Ok _, w) => (Some (Err ErrAlreadyExists), w)
      | (Err ErrNotFound, w) =>
          match random with
          | None => (Some (Err (ErrBackend "generate object version")), w)
          | Some bytes => put_version (encode_id "" bytes) now key source options w
          end
      | (Err e, w) => (Some (Err e), w)
      end
  end.

(** *** Open, Stat and Delete *)

Definition safe_read (n : Z) (s : stream) : string * option error * stream :=
  let '(bytes, e, s) := stream_read n s in
  (bytes, match e with Some x => if is_EOF e then e else Some (ErrBackend "read object") | None => None end, s).

Definition Open (key : Key) (w : world) : result error (@verifiedReader stream * Metadata) * world :=
  if negb (Valid key) then (Err ErrInvalidKey, w)
  else match readManifest key w with
  | (Err e, w) => (Err e, w)
  | (Ok r, w) =>
      match call (GetObject (Bucket config) (DataName r) (optionalString (mf_BackendVersion r))) w with
      | (Err e, w) => (Err (if isNotFound e then ErrIntegrity else safeS3Error "open object" e), w)
      | (Ok o, w) => (Ok (NewVerifiedReader (Body o) (mf_Size r) (mf_SHA256 r), metadata key r), w)
      end
  end.

Definition Stat (key : Key) (w : world) : result error Metadata * world :=
  if negb (Valid key) then (Err ErrInvalidKey, w)
  else match readManifest key w with
  | (Err e, w) => (Err e, w)
  | (Ok r, w) => (Ok (metadata key r), w)
  end.

Definition Delete (key : Key) (expectedVersion : string) (w : world) : result error unit * world :=
  if negb (Valid key) then (Err ErrInvalidKey, w)
  else if String.eqb expectedVersion "" then (Err ErrInvalidOptions, w)
  else match readManifest key w with
  | (Err ErrNotFound, w) => (Ok tt, w)
  | (Err e, w) => (Err e, w)
  | (Ok r, w) =>
      if negb (String.eqb (mf_Version r) expectedVersion) then (Err ErrVersion, w)
      else match deleteData (DataName r) (mf_BackendVersion r) w with
      | (Err e, w) => (Err e, w)
      | (Ok _, w) =>
          match call (DeleteObject (Bucket config) (manifestKey key) None) w with
          | (Err e, w) => (Err (safeS3Error "delete object manifest" e), w)
          | (Ok _, w) => (Ok tt, w)
          end
      end
  end.
End Store.

End S3store.
