(* ===== verification/S3Theorems.v ===== *)
(** * The S3 blob store is correct

    What is documented about the object service is [ObjectLaws]; under it, a
    blob appears whole or not at all, whatever requests fail and whatever
    other puts do meanwhile, and what is read is what was put. *)

From S2P Require Import Prelude GoStrings Encoding Json JsonFacts GoTime GoTimeFacts Blobstore Streams GoPath Manifests S3store.

Local Open Scope Z_scope.

Module S3Theorems.
Import Blobstore Streams Manifests S3store.

(** ** The object service *)

(** What the service holds under a key, in its current or in a given version,
    and what the documentation says of the calls: reads are consistent, a
    body that ends is the whole object, a conditional write replaces nothing,
    a request that fails may have been carried out, version identifiers are
    UTF-8 strings of at most 1,024 bytes. *)
Class ObjectLaws (S : Type) `{!ObjectService S} := {
  stored : S -> string -> string -> option string -> option string;
  get_found : forall b k v s o s', GetObject b k v s = (Ok o, s') ->
    exists rest, stored s b k v = Some (body (Body o) +:+ rest) /\ (ending (Body o) = EOF -> rest = "");
  get_missing : forall b k v s e s', GetObject b k v s = (Err e, s') -> isNotFound e = true -> stored s b k v = None;
  get_keeps : forall b k v s r s', GetObject b k v s = (r, s') -> forall k' v', stored s' b k' v' = stored s b k' v';
  put_writes : forall b k c x s r s', PutObject b k c x s = (r, s') ->
    stored s b k None = None /\ stored s' b k None = Some c \/
    is_ok r = false /\ stored s' b k None = stored s b k None;
  put_elsewhere : forall b k c x s r s', PutObject b k c x s = (r, s') ->
    forall k' v', k' <> k -> stored s' b k' v' = stored s b k' v';
  upload_writes : forall b k c e x s v s', UploadObject b k c e x s = (Ok v, s') ->
    stored s' b k (optionalString v) = Some c /\ ValidString v = true /\ slen v <= 1024;
  upload_elsewhere : forall b k c e x s r s', UploadObject b k c e x s = (r, s') ->
    forall k' v', k' <> k -> stored s' b k' v' = stored s b k' v';
  delete_removes : forall b k v s r s', DeleteObject b k v s = (r, s') ->
    stored s' b k v = None \/ is_ok r = false /\ stored s' b k v = stored s b k v;
  delete_elsewhere : forall b k v s r s', DeleteObject b k v s = (r, s') ->
    forall k' v', k' <> k -> stored s' b k' v' = stored s b k' v'
}.

(** ** Names *)

Lemma base32_no_slash s : sforallb base32_char s = true -> no_slash s = true.
Proof.
  apply sforallb_impl. intros c. unfold base32_char, slash, is_lower, is_byte, between.
  rewrite orb_true_iff, !andb_true_iff, negb_true_iff, !Z.leb_le, Z.eqb_neq. lia.
Qed.

Lemma base32_plain s : sforallb base32_char s = true -> s <> "" -> plain s = true.
Proof.
  intros H Hn. unfold plain. rewrite base32_no_slash by exact H. apply String.eqb_neq in Hn as ->. cbn [andb negb].
  destruct (String.eqb_spec s ".") as [->|_]; [done|]. by destruct (String.eqb_spec s "..") as [->|_].
Qed.

Lemma Valid_plain k : Valid k = true -> plain k = true /\ slen k = 56 /\ ValidString k = true.
Proof.
  unfold Valid, keyPattern, match_prefixed. destruct (strip_prefix "blb_" k) as [r|] eqn:E; [|done].
  apply strip_prefix_Some in E as ->. intros H. simp_bool. split_and!.
  - unfold plain, no_slash. rewrite sforallb_app. fold (no_slash r). rewrite (base32_no_slash r) by eassumption. reflexivity.
  - rewrite slen_app. change (slen "blb_") with 4. lia.
  - apply unescaped_valid, names_unescaped. rewrite sforallb_app. apply andb_true_iff. split; [done|].
    eapply sforallb_impl; [|eassumption]. intros c Hc. unfold name_byte. by rewrite Hc.
Qed.

(** A configuration that [New] accepted. *)
Definition config_ok (config : Config) : Prop := exists l, Forall (fun c => plain c = true) l /\ Prefix config = join "/" l.

Lemma New_ok present c config : New present c = Ok config -> config_ok config.
Proof.
  unfold New. destruct (present && _); [|done]. set (p := TrimSlashes (Prefix c)).
  destruct (negb (_ || _ || _ || _ || _)) eqn:E1; [|done]. destruct (negb (negb _ && _)) eqn:E2; [|done].
  match goal with |- context [if ?b then Ok _ else _] => destruct b; [|done] end. intros [= <-]. unfold config_ok. cbn [Prefix]. simp_bool.
  destruct (String.eqb_spec p "") as [Ep|Ep]; [by exists []|]. cbn [negb andb] in E2. simp_bool.
  destruct (clean_components p) as (l & -> & _ & Hl); try done; [apply trimmed_head|eauto].
Qed.

Lemma join_app l parts : l <> [] -> parts <> [] -> join "/" (l ++ parts) = join "/" l +:+ "/" +:+ join "/" parts.
Proof.
  intros Hl Hp. destruct l as [|c l]; [done|]. clear Hl. revert c. induction l as [|d l IH]; intros c.
  - by destruct parts.
  - change (join "/" ((c :: d :: l) ++ parts)) with (c +:+ "/" +:+ join "/" ((d :: l) ++ parts)).
    rewrite IH. change (join "/" (c :: d :: l)) with (c +:+ "/" +:+ join "/" (d :: l)). by rewrite !append_assoc.
Qed.

Lemma join_plain_nonempty c l : plain c = true -> join "/" (c :: l) <> "".
Proof.
  intros Hc E. destruct (join_head c l) as [s Es]. rewrite Es in E. unfold plain in Hc. simp_bool. by destruct c.
Qed.

Section Names.
Context (config : Config).
Hypothesis Hconfig : config_ok config.

(** The components of a name. *)
Lemma join_key_plain : exists l, Forall (fun c => plain c = true) l /\ Prefix config = join "/" l /\
  forall parts, Forall (fun c => plain c = true) parts -> parts <> [] -> join_key config parts = join "/" (l ++ parts).
Proof using Hconfig.
  destruct Hconfig as (l & Hl & El). exists l. split; [done|]. split; [done|]. intros parts Hp Hn. unfold join_key.
  rewrite El. destruct l as [|c l]; [by apply Join_plain|].
  assert (join "/" (c :: l) <> "") as Hne by (apply join_plain_nonempty; by inversion Hl).
  rewrite (proj2 (String.eqb_neq _ _) Hne). unfold Join. cbn [from_first]. rewrite (proj2 (String.eqb_neq _ _) Hne).
  destruct parts as [|x parts]; [done|]. change (join "/" (join "/" (c :: l) :: x :: parts))
    with (join "/" (c :: l) +:+ "/" +:+ join "/" (x :: parts)).
  rewrite <- join_app by done. apply Clean_plain; [by apply Forall_app|done].
Qed.

Lemma key_names : exists l, Forall (fun c => no_slash c = true) l /\ Prefix config = join "/" l /\
  (forall k v, Valid k = true -> sforallb base32_char v = true -> v <> "" ->
     dataKey config k v = join "/" (l ++ ["objects"; k; v; "data"])) /\
  (forall k, Valid k = true -> manifestKey config k = join "/" (l ++ ["objects"; k; "manifest.json"])).
Proof using Hconfig.
  destruct join_key_plain as (l & Hl & El & Hj). exists l. split; [eapply Forall_impl; [exact Hl|apply plain_no_slash]|].
  split; [done|]. split.
  - intros k v Hk Hv Hn. apply Hj; [|done]. destruct (Valid_plain k Hk) as (Hkp & _ & _).
    repeat (constructor; [first [done|by apply base32_plain]|]). constructor.
  - intros k Hk. apply Hj; [|done]. destruct (Valid_plain k Hk) as (Hkp & _ & _).
    repeat (constructor; [done|]). constructor.
Qed.

Lemma dataKey_inj k v k' v' : Valid k = true -> Valid k' = true -> sforallb base32_char v = true -> v <> "" ->
  sforallb base32_char v' = true -> v' <> "" -> dataKey config k v = dataKey config k' v' -> k = k' /\ v = v'.
Proof using Hconfig.
  intros Hk Hk' Hv Hn Hv' Hn'. destruct key_names as (l & Hl & _ & Hd & _). rewrite !Hd by done.
  pose proof (plain_no_slash _ (proj1 (Valid_plain k Hk))). pose proof (plain_no_slash _ (proj1 (Valid_plain k' Hk'))).
  pose proof (base32_no_slash v Hv). pose proof (base32_no_slash v' Hv').
  intros E. apply join_slash_inj in E; [|apply Forall_app; split; [done|by repeat constructor]..|by destruct l|by destruct l].
  apply app_inv_head in E. by injection E.
Qed.

Lemma manifestKey_inj k k' : Valid k = true -> Valid k' = true -> manifestKey config k = manifestKey config k' -> k = k'.
Proof using Hconfig.
  intros Hk Hk'. destruct key_names as (l & Hl & _ & _ & Hm). rewrite !Hm by done.
  pose proof (plain_no_slash _ (proj1 (Valid_plain k Hk))). pose proof (plain_no_slash _ (proj1 (Valid_plain k' Hk'))).
  intros E. apply join_slash_inj in E; [|apply Forall_app; split; [done|by repeat constructor]..|by destruct l|by destruct l].
  apply app_inv_head in E. by injection E.
Qed.

Lemma s3_data_not_manifest k v k' : Valid k = true -> Valid k' = true -> sforallb base32_char v = true -> v <> "" ->
  dataKey config k v <> manifestKey config k'.
Proof using Hconfig.
  intros Hk Hk' Hv Hn. destruct key_names as (l & Hl & _ & Hd & Hm). rewrite Hd, Hm by done.
  pose proof (plain_no_slash _ (proj1 (Valid_plain k Hk))). pose proof (plain_no_slash _ (proj1 (Valid_plain k' Hk'))).
  pose proof (base32_no_slash v Hv).
  intros E. apply join_slash_inj in E; [|apply Forall_app; split; [done|by repeat constructor]..|by destruct l|by destruct l].
  apply app_inv_head in E. done.
Qed.

(** Names are texts as long as the prefix allows. *)
Lemma dataKey_text k v : Valid k = true -> sforallb base32_char v = true -> slen v = 32 -> ValidString (Prefix config) = true ->
  ValidString (dataKey config k v) = true /\ slen (dataKey config k v) <= slen (Prefix config) + 103.
Proof using Hconfig.
  intros Hk Hv Hl Hp. destruct key_names as (l & _ & El & Hd & _).
  assert (v <> "") by (by intros ->). rewrite Hd by done. destruct (Valid_plain k Hk) as (_ & Hkl & Hkv).
  assert (ValidString v = true) as Hvv.
  { apply unescaped_valid, names_unescaped. eapply sforallb_impl; [|exact Hv]. intros c Hc. unfold name_byte. by rewrite Hc. }
  set (tail := join "/" ["objects"; k; v; "data"]).
  assert (ValidString tail = true /\ slen tail = 102) as [Ht1 Ht2].
  { unfold tail. cbn [join]. split; [repeat (apply valid_app; [done|]); done|]. rewrite !slen_app, Hkl, Hl. done. }
  pose proof (slen_nonneg (Prefix config)). destruct l as [|c l]; [cbn [app]; fold tail; split; [done|lia]|].
  rewrite join_app by done. fold tail. rewrite <- El. split; [by repeat (apply valid_app; [done|])|].
  rewrite !slen_app. change (slen "/") with 1. lia.
Qed.
End Names.

(** ** Reading the body *)

(** An error that is not the end stays with the reader. *)
Lemma Read_sticks ctx (r : @BoundedReader stream) n bytes x r' : err r = None -> finished r = false ->
  Read stream_read ctx r n = Some (bytes, Some x, r') -> x <> EOF -> err r' = Some x.
Proof.
  intros He Hf. unfold Read. rewrite He, Hf. destruct (ContextError (ctx (checks r))); [by intros [= <- <- <-]|].
  destruct (_ && _); [done|]. destruct (stream_read _ _) as [[b e] s']. destruct (ContextError _); [by intros [= <- <- <-]|].
  destruct (_ <? _); [by intros [= <- <- <-]|]. intros [= <- -> <-] Hx. cbn [err].
  unfold is_EOF. by rewrite bool_decide_eq_false_2 by congruence.
Qed.

(** What the uploader got is what was hashed, and a result is the whole body. *)
Lemma drain_rule ctx max bufs : 0 < max < max_int64 -> forall r, bounded_ok max r -> err r = None -> finished r = false ->
  exists bytes e r', drain ctx bufs r (hashed r) = Some (bytes, e, r') /\ bytes = hashed r' /\ bounded_ok max r' /\
    (forall x, Result r' = Ok x -> hashed r' = hashed r +:+ body (source r) /\ ending (source r) = EOF).
Proof.
  intros Hmax. induction bufs as [|len bufs IH]; intros r Hok He Hf.
  { eexists _, _, _. split; [done|]. split_and!; [done..|]. unfold Result. by rewrite He, Hf. }
  cbn [drain]. destruct (Read_ok stream_read ctx max r (Zpos len) stream_read_contract Hmax ltac:(lia) Hok)
    as (b0 & e0 & r0 & Hread0 & Hok' & Hh & Hfin).
  destruct (stream_Read ctx (Zpos len) max ltac:(lia) Hmax r Hok He Hf) as (bytes & e & r' & Hread & Hcases).
  rewrite Hread in Hread0. injection Hread0 as <- <- <-. rewrite Hread.
  destruct Hcases as [(-> & -> & Hend)|[(x & -> & Hx & _)|(-> & He' & Hf' & Hend & Hb & _)]].
  - eexists _, _, _. split; [done|]. split; [by rewrite Hh|]. split; [done|]. intros y _. by rewrite Hh.
  - eexists _, _, _. split; [done|]. split; [by rewrite Hh|]. split; [done|]. intros y. unfold Result.
    by rewrite (Read_sticks ctx r (Zpos len) bytes x r' He Hf Hread Hx).
  - rewrite <- Hh. destruct (IH r' Hok' He' Hf') as (b & e & r2 & -> & Hb2 & Hok2 & Hres). eexists _, _, _. split; [done|].
    split; [done|]. split; [done|]. intros y Hy. destruct (Hres y Hy) as [-> Hend2]. by rewrite Hh, append_assoc, Hb, <- Hend.
Qed.

(** ** What a bucket means *)

Section Bucket.
Context {S : Type} `{!ObjectService S} `{!ObjectLaws S}.
Context (config : Config).
Hypothesis Hconfig : config_ok config.
Hypothesis Hprefix : ValidString (Prefix config) = true /\ slen (Prefix config) <= 900.

Definition content_at (s : S) (key : string) (version : option string) : option string := stored s (Bucket config) key version.

Definition read_at (s : S) (k : Key) : result error manifest :=
  match content_at s (manifestKey config k) None with
  | None => Err ErrNotFound
  | Some c =>
      if maxManifestBytes <? slen c then Err ErrIntegrity
      else match decode_manifest c with
      | Some r => if valid_manifest config k r then Ok r else Err ErrIntegrity
      | None => Err ErrIntegrity
      end
  end.

Definition matches (r : manifest) (c : string) : bool :=
  (slen c =? mf_Size r) && String.eqb (hex_encode (sha256 c)) (mf_SHA256 r).

(** A blob that a reader gets to the end of. *)
Definition view (s : S) (k : Key) : option (Metadata * string) :=
  match read_at s k with
  | Ok r =>
      match content_at s (DataName r) (optionalString (mf_BackendVersion r)) with
      | Some c => if matches r c then Some (metadata k r, c) else None
      | None => None
      end
  | Err _ => None
  end.

Definition unclaimed (k : Key) (v : string) (s : S) : Prop := forall r, read_at s k = Ok r -> mf_Version r <> v.

Lemma s3_read_at_same s s' k : content_at s' (manifestKey config k) None = content_at s (manifestKey config k) None ->
  read_at s' k = read_at s k.
Proof using Type. intros E. unfold read_at. by rewrite E. Qed.

Lemma s3_read_at_data s k r : read_at s k = Ok r -> DataName r = dataKey config k (mf_Version r).
Proof using Type.
  unfold read_at. destruct (content_at _ _ _) as [c|]; [|done]. destruct (_ <? _); [done|].
  destruct (decode_manifest c) as [r'|]; [|done]. destruct (valid_manifest config k r') eqn:E; [|done]. intros [= <-].
  unfold valid_manifest in E. by simp_bool.
Qed.

(** *** Rely and guarantee *)

(** One request of the put of version [v] under [k], and what that put expects
    of the others. *)
Record own (k : Key) (v : string) (s s' : S) : Prop := {
  own_frame : forall key ver, key <> dataKey config k v -> key <> manifestKey config k -> content_at s' key ver = content_at s key ver;
  own_kept : is_Some (content_at s (manifestKey config k) None) ->
    content_at s' (manifestKey config k) None = content_at s (manifestKey config k) None;
  own_claims : forall r, read_at s' k = Ok r -> read_at s k = Ok r \/ mf_Version r = v /\ is_Some (view s' k)
}.

Record rely (k : Key) (v : string) (s s' : S) : Prop := {
  rely_data : forall ver, content_at s' (dataKey config k v) ver = content_at s (dataKey config k v) ver;
  rely_kept : forall k', Valid k' = true -> is_Some (content_at s (manifestKey config k') None) ->
    content_at s' (manifestKey config k') None = content_at s (manifestKey config k') None;
  rely_unclaimed : unclaimed k v s -> unclaimed k v s'
}.

Definition version_ok (v : string) : Prop := sforallb base32_char v = true /\ slen v = 32.

Lemma version_nonempty v : version_ok v -> v <> "".
Proof using Type. by intros [_ H] ->. Qed.

(** Puts of different versions can run beside each other. *)
Lemma s3_own_rely k v k' v' s s' : Valid k = true -> Valid k' = true -> version_ok v -> version_ok v' -> v <> v' ->
  own k v s s' -> rely k' v' s s'.
Proof using Hconfig.
  intros Hk Hk' Hv Hv' Hne [Hf Hkept Hcl]. pose proof (version_nonempty v Hv). pose proof (version_nonempty v' Hv').
  assert (forall x, Valid x = true -> x <> k -> content_at s' (manifestKey config x) None = content_at s (manifestKey config x) None) as Hman.
  { intros x Hx Hxk. apply Hf.
    - intros E. symmetry in E. revert E. by apply (s3_data_not_manifest config Hconfig); [..|apply Hv|].
    - intros E. by apply (manifestKey_inj config Hconfig) in E. }
  split.
  - intros ver. apply Hf.
    + intros E. symmetry in E. apply (dataKey_inj config Hconfig) in E as [_ ?]; [done..|apply Hv|done|apply Hv'|done].
    + by apply (s3_data_not_manifest config Hconfig); [..|apply Hv'|].
  - intros x Hx Hs. destruct (decide (x = k)) as [->|]; auto.
  - intros Hu r Hr. destruct (decide (k' = k)) as [->|Hkk].
    + destruct (Hcl r Hr) as [Hr'|[-> _]]; auto.
    + apply Hu. by rewrite <- (s3_read_at_same s s' k') by auto.
Qed.

Definition step (others : nat -> S -> S) (k : Key) (v : string) (s s' : S) : Prop := own k v s s' \/ exists n, s' = others n s.

(** ** One put *)

Section Version.
Context (k : Key) (v : string).
Hypothesis Hk : Valid k = true.
Hypothesis Hv : version_ok v.

Definition record (backend c : string) (now : time) : manifest :=
  new_manifest config k v backend (slen c) (hex_encode (sha256 c)) now.

Definition clock_ok (now : time) : Prop := year_zero <= now < year_10000 /\ now <> 0.

Definition backend_ok (backend : string) : Prop := ValidString backend = true /\ slen backend <= 1024.

Lemma s3_record_ok backend c now : backend_ok backend -> slen c <= max_int64 -> clock_ok now ->
  writable (record backend c now) /\ valid_manifest config k (record backend c now) = true /\
  matches (record backend c now) c = true.
Proof using Hk Hv Hconfig Hprefix.
  intros [Hb _] Hc [Hnow Hz]. destruct Hv as [Hv1 Hv2]. destruct (Valid_plain k Hk) as (_ & _ & Hkv). pose proof (slen_nonneg c).
  assert (forall s, sforallb base32_char s = true -> ValidString s = true) as Hbase.
  { intros s Hs. apply unescaped_valid, names_unescaped. eapply sforallb_impl; [|exact Hs]. intros x Hx. unfold name_byte. by rewrite Hx. }
  destruct (dataKey_text config Hconfig k v Hk Hv1 Hv2 (proj1 Hprefix)) as [Hd _]. split_and!.
  - split; cbn [record new_manifest mf_Key DataName mf_SHA256 mf_Version mf_BackendVersion mf_Size mf_CommittedAt]; auto.
    apply unescaped_valid, names_unescaped. eapply sforallb_impl; [|apply hex_encode_class]. intros x Hx. unfold name_byte.
    by rewrite Hx, orb_true_r.
  - unfold valid_manifest. cbn [record new_manifest mf_Key DataName mf_SHA256 mf_Version mf_BackendVersion mf_Size mf_CommittedAt].
    rewrite !String.eqb_refl, (proj2 (Z.leb_le 0 (slen c))) by done. unfold validSHA256, IsZero.
    rewrite hex_encode_length, sha256_length, hex_encode_class, (proj2 (Z.eqb_neq now 0)) by done.
    destruct (String.eqb_spec v "") as [->|]; [done|]. done.
  - unfold matches. cbn [record new_manifest mf_SHA256 mf_Size]. by rewrite Z.eqb_refl, String.eqb_refl.
Qed.

Lemma s3_record_read s backend c now : backend_ok backend -> slen c <= max_int64 -> clock_ok now ->
  content_at s (manifestKey config k) None = Some (print (manifest_json (record backend c now))) ->
  read_at s k = Ok (record backend c now).
Proof using Hk Hv Hconfig Hprefix.
  intros Hb Hc Hnow E. destruct (s3_record_ok backend c now Hb Hc Hnow) as (Hw & Hval & _). unfold read_at. rewrite E.
  assert (slen (print (manifest_json (record backend c now))) <= maxManifestBytes) as Hlen.
  { apply record_fits; [by right|done|]. destruct (Valid_plain k Hk) as (_ & Hl & _). destruct Hv as [Hv1 Hv2]. destruct Hb as [_ Hb].
    destruct (dataKey_text config Hconfig k v Hk Hv1 Hv2 (proj1 Hprefix)) as [_ Hd].
    cbn [record new_manifest mf_Key DataName mf_SHA256 mf_Version mf_BackendVersion].
    rewrite hex_encode_length, sha256_length, Hl, Hv2. lia. }
  rewrite (proj2 (Z.ltb_ge _ _)) by done. unfold decode_manifest, manifest_json. rewrite decode_record_json by (done || by right).
  by rewrite Hval.
Qed.

(** *** Stages *)

(** The manifest of this version is not there. *)
Abbreviation idle := (unclaimed k v).

Definition holds (backend c : string) (s : S) : Prop := content_at s (dataKey config k v) (optionalString backend) = Some c.

Definition linked (backend c : string) (now : time) (s : S) : Prop :=
  content_at s (manifestKey config k) None = Some (print (manifest_json (record backend c now))) /\ holds backend c s.

(** If this version is visible, so is the whole of [c]. *)
Definition settled (backend c : string) (now : time) (s : S) : Prop :=
  forall r, read_at s k = Ok r -> mf_Version r = v -> r = record backend c now /\
    (content_at s (dataKey config k v) (optionalString backend) = None \/ holds backend c s).

Lemma names_differ : dataKey config k v <> manifestKey config k.
Proof using Hk Hv Hconfig. apply (s3_data_not_manifest config Hconfig); [done..|apply Hv|by apply version_nonempty]. Qed.

Lemma settled_same backend c now s s' :
  content_at s' (manifestKey config k) None = content_at s (manifestKey config k) None ->
  content_at s' (dataKey config k v) (optionalString backend) = None \/
    content_at s' (dataKey config k v) (optionalString backend) = content_at s (dataKey config k v) (optionalString backend) ->
  settled backend c now s -> settled backend c now s'.
Proof using Type.
  intros Em Ed Hs r Hr Hver. rewrite (s3_read_at_same s s') in Hr by done. destruct (Hs r Hr Hver) as [-> Hc]. split; [done|].
  destruct Ed as [Ed|Ed]; [by left|]. unfold holds in *. by rewrite Ed.
Qed.

Lemma settled_stable backend c now s s' : settled backend c now s -> rely k v s s' -> settled backend c now s'.
Proof using Hk.
  intros Hs Hr. destruct (content_at s (manifestKey config k) None) as [t|] eqn:Em.
  - apply (settled_same backend c now s); [|by right; apply Hr|done]. apply (rely_kept _ _ _ _ Hr); [done|by rewrite Em].
  - assert (idle s) as Hu by (intros r; unfold read_at; by rewrite Em). apply (rely_unclaimed _ _ _ _ Hr) in Hu.
    intros r Hr' Hver. by apply Hu in Hr'.
Qed.

Lemma s3_idle_settled backend c now s : idle s -> settled backend c now s.
Proof using Type. intros Hu r Hr Hver. by apply Hu in Hr. Qed.

Lemma linked_view backend c now s : backend_ok backend -> slen c <= max_int64 -> clock_ok now -> linked backend c now s ->
  settled backend c now s /\ view s k = Some (metadata k (record backend c now), c).
Proof using Hk Hv Hconfig Hprefix.
  intros Hb Hc Hnow [Hm Hd]. pose proof (s3_record_read s backend c now Hb Hc Hnow Hm) as Hr.
  destruct (s3_record_ok backend c now Hb Hc Hnow) as (_ & _ & Hmatch). split.
  - intros r. rewrite Hr. intros [= <-] _. auto.
  - unfold view. rewrite Hr. change (DataName (record backend c now)) with (dataKey config k v).
    change (mf_BackendVersion (record backend c now)) with backend. rewrite Hd. by rewrite Hmatch.
Qed.

(** A request that leaves the manifest alone. *)
Lemma own_data s s' : (forall key ver, key <> dataKey config k v -> content_at s' key ver = content_at s key ver) -> own k v s s'.
Proof using Hk Hv Hconfig.
  intros Hf. assert (content_at s' (manifestKey config k) None = content_at s (manifestKey config k) None) as Em.
  { apply Hf. intros E. by apply names_differ. }
  split; [auto|done|]. intros r. rewrite (s3_read_at_same s s') by done. by left.
Qed.

Section Calls.
Context (others : nat -> S -> S).
Hypothesis Hothers : forall n s, rely k v s (others n s).

Abbreviation steps := (rtc (step others k v)).

(** A request is made of what the others left. *)
Lemma call_rule {A} (f : S -> A * S) w a w' : call others f w = (a, w') ->
  rely k v (service w) (others (calls w) (service w)) /\ f (others (calls w) (service w)) = (a, service w').
Proof using Hothers.
  unfold call. destruct (f _) as [a0 s'] eqn:E. intros [= <- <-]. split; [apply Hothers|done].
Qed.

Lemma steps_call s n s' : own k v (others n s) s' -> steps s s'.
Proof using Type. intros H. eapply rtc_l; [right; by eexists|]. apply rtc_once. by left. Qed.

Lemma s3_cleanup_rule backend c now w : settled backend c now (service w) ->
  settled backend c now (service (cleanupData others config (dataKey config k v) backend w)) /\
  steps (service w) (service (cleanupData others config (dataKey config k v) backend w)).
Proof using Hk Hv Hconfig Hothers.
  intros Hs. unfold cleanupData, deleteData. destruct (call others _ w) as [r w1] eqn:E.
  assert (settled backend c now (service w1) /\ steps (service w) (service w1)) as H.
  { apply call_rule in E as [Hr Hd]. set (s1 := others (calls w) (service w)) in *.
    pose proof (delete_elsewhere _ _ _ _ _ _ Hd) as Hf. split.
    - apply (settled_same backend c now s1).
      + apply Hf. intros E. by apply names_differ.
      + destruct (delete_removes _ _ _ _ _ _ Hd) as [Hn|[_ Hn]]; [by left|by right].
      + by apply (settled_stable _ _ _ (service w)).
    - apply (steps_call _ (calls w)), own_data. intros key ver Hne. by apply Hf. }
  destruct r as [[]|e]; cbn [snd]; exact H.
Qed.

Lemma s3_commit_rule backend c now w r w' : backend_ok backend -> slen c <= max_int64 -> clock_ok now ->
  idle (service w) -> holds backend c (service w) -> commitManifest others config (record backend c now) w = (r, w') ->
  steps (service w) (service w') /\ (if is_ok r then linked backend c now (service w') else settled backend c now (service w')).
Proof using Hk Hv Hconfig Hprefix Hothers.
  intros Hb Hc Hnow Hi Hh. unfold commitManifest.
  assert (encode_manifest (record backend c now) = Some (print (manifest_json (record backend c now)))) as ->.
  { destruct Hnow as [[H1 H2] _]. unfold encode_manifest, encode_record, marshals. cbn [record new_manifest mf_CommittedAt].
    by rewrite (proj2 (Z.leb_le _ _) H1), (proj2 (Z.ltb_lt _ _) H2). }
  change (mf_Key (record backend c now)) with k. destruct (call others _ w) as [r1 w1] eqn:E.
  apply call_rule in E as [Hr Hp]. set (s1 := others (calls w) (service w)) in *.
  pose proof (put_elsewhere _ _ _ _ _ _ _ Hp) as Hf. pose proof (put_writes _ _ _ _ _ _ _ Hp) as Hw.
  assert (idle s1) as Hi1 by (by apply (rely_unclaimed _ _ _ _ Hr)).
  assert (holds backend c s1) as Hh1 by (unfold holds; by rewrite (rely_data _ _ _ _ Hr)).
  assert (holds backend c (service w1)) as Hh2.
  { unfold holds, content_at. rewrite Hf; [exact Hh1|apply names_differ]. }
  assert (own k v s1 (service w1) /\ (is_ok r1 = true -> linked backend c now (service w1)) /\ settled backend c now (service w1))
    as (Ho & Hlink & Hset).
  { destruct Hw as [[Hn Hw]|[Hr1 Hw]].
    - assert (linked backend c now (service w1)) as Hl by done.
      destruct (linked_view backend c now (service w1) Hb Hc Hnow Hl) as [Hset Hview]. split_and!; [|done..]. split.
      + intros key ver H1 H2. by apply Hf.
      + intros [t Ht]. unfold content_at in Ht. congruence.
      + intros r0 Hr0. right. split; [|by rewrite Hview].
        pose proof (s3_record_read _ backend c now Hb Hc Hnow (proj1 Hl)) as Hrd. rewrite Hrd in Hr0. by injection Hr0 as <-.
    - assert (read_at (service w1) k = read_at s1 k) as Hrd by (by apply s3_read_at_same). split_and!.
      + split; [|done|intros r0; rewrite Hrd; by left]. intros key ver H1 H2. by apply Hf.
      + by rewrite Hr1.
      + apply s3_idle_settled. intros r0. rewrite Hrd. apply Hi1. }
  destruct r1 as [[]|e]; intros [= <- <-]; (split; [by apply (steps_call _ (calls w))|]); cbn [is_ok]; auto.
Qed.

Lemma s3_publish_rule ctx max backend c now options r w a w' : bounded_ok max r -> max < max_int64 -> backend_ok backend ->
  clock_ok now -> idle (service w) -> holds backend (hashed r) (service w) -> (forall x, Result r = Ok x -> hashed r = c) ->
  publish others ctx config k v backend r now options w = (a, w') ->
  steps (service w) (service w') /\
  match a with
  | Ok m => m = metadata k (record backend c now) /\ linked backend c now (service w') /\
      (exists x, Result r = Ok x) /\ slen c <= max /\ VerifyExpected (slen c) (hex_encode (sha256 c)) options = Ok tt
  | Err _ => settled backend c now (service w')
  end.
Proof using Hk Hv Hconfig Hprefix Hothers.
  intros [_ Hsize Hlim] Hmax Hb Hnow Hi Hh Hwhole. unfold publish.
  pose proof (s3_cleanup_rule backend c now w (s3_idle_settled _ _ _ _ Hi)) as [Hc1 Hc2].
  destruct (Result r) as [[size digest]|x] eqn:Er; [|by intros [= <- <-]].
  assert (size = slen (hashed r) /\ digest = hex_encode (sha256 (hashed r))) as [-> ->].
  { unfold Result in Er. destruct (err r); [done|]. destruct (finished r); [|done].
    assert (forall y z : Z * string, Ok y = Ok z :> result error _ -> y = z) as Hinj by congruence.
    apply Hinj, pair_equal_spec in Er as [<- <-]. by rewrite Hsize. }
  rewrite (Hwhole _ eq_refl) in *.
  destruct (VerifyExpected _ _ options) as [[]|x] eqn:Ev; [|by intros [= <- <-]].
  fold (record backend c now). destruct (commitManifest _ _ _ w) as [r2 w2] eqn:E2.
  apply s3_commit_rule in E2 as [Hs2 Hl]; [|done|unfold max_int64 in *; lia|done..].
  destruct r2 as [[]|e2]; cbn [is_ok] in Hl.
  - intros [= <- <-]. split; [done|]. split_and!; [done..|by eexists|lia|done].
  - intros [= <- <-]. destruct (s3_cleanup_rule backend c now w2 Hl) as [Hset Hs3]. split; [by etrans|done].
Qed.

(** Whatever the service answers. *)
Lemma s3_put_version_rule ctx source_ options now w : 0 < MaxBytes options < max_int64 -> clock_ok now -> idle (service w) ->
  exists a w', put_version others ctx config v now k source_ options w = (Some a, w') /\ steps (service w) (service w') /\
    exists backend, backend_ok backend /\
    match a with
    | Ok m => m = metadata k (record backend (body source_) now) /\
        linked backend (body source_) now (service w') /\ ending source_ = EOF /\ slen (body source_) <= MaxBytes options /\
        VerifyExpected (slen (body source_)) (hex_encode (sha256 (body source_))) options = Ok tt
    | Err _ => settled backend (body source_) now (service w')
    end.
Proof using Hk Hv Hconfig Hprefix Hothers.
  intros Hmax Hnow Hi. unfold put_version. cbv zeta. set (s1 := others (calls w) (service w)).
  destruct (drain_rule ctx (MaxBytes options) (upload_buffers (Bucket config) (dataKey config k v) s1) Hmax
              (NewBoundedReader source_ (MaxBytes options))) as (bytes & e & r & Hdr & -> & Hok & Hres); [|done..|].
  { split; simpl; unfold slen; simpl; lia. }
  cbn [hashed NewBoundedReader source] in Hdr, Hres. rewrite Hdr. change ("" +:+ body source_) with (body source_) in Hres.
  destruct (call others _ w) as [r1 w1] eqn:E1. apply call_rule in E1 as [Hr Hu]. fold s1 in Hr, Hu.
  pose proof (upload_elsewhere _ _ _ _ _ _ _ _ Hu) as Hf.
  assert (idle (service w1)) as Hi1.
  { intros x. rewrite (s3_read_at_same s1 (service w1) k); [apply (rely_unclaimed _ _ _ _ Hr Hi)|].
    apply Hf. intros E. by apply names_differ. }
  assert (steps (service w) (service w1)) as Hs1.
  { apply (steps_call _ (calls w)), own_data. intros key ver Hne. by apply Hf. }
  destruct r1 as [backend|x].
  2: { eexists _, _. split; [done|]. split; [done|]. exists "". split; [done|]. by apply s3_idle_settled. }
  destruct (upload_writes _ _ _ _ _ _ _ _ Hu) as (Hw & Hb).
  destruct (publish _ _ _ _ _ _ _ _ _ w1) as [a w2] eqn:E2.
  apply (s3_publish_rule ctx (MaxBytes options) backend (body source_)) in E2 as [Hs2 Ha]; [|done|lia|done..|].
  2: { intros x Hx. by destruct (Hres x Hx). }
  eexists _, _. split; [done|]. split; [by etrans|]. exists backend. split; [done|].
  destruct a as [m|]; [|done]. destruct Ha as (-> & Hl & [x Hx] & Hle & Hver). split_and!; try done. by destruct (Hres x Hx).
Qed.

(** [readManifest] looks; what it does not find is not there. *)
Lemma s3_readManifest_rule w a w' : idle (service w) -> readManifest others config k w = (a, w') ->
  idle (service w') /\ steps (service w) (service w').
Proof using Hk Hv Hconfig Hothers.
  intros Hi. unfold readManifest. destruct (call others _ w) as [r w1] eqn:E. apply call_rule in E as [Hr Hg].
  pose proof (get_keeps _ _ _ _ _ _ Hg) as Hkeep.
  assert (idle (service w1) /\ steps (service w) (service w1)) as H.
  { split.
    - intros x. rewrite (s3_read_at_same (others (calls w) (service w))); [apply (rely_unclaimed _ _ _ _ Hr Hi)|apply Hkeep].
    - apply (steps_call _ (calls w)), own_data. intros key ver _. apply Hkeep. }
  destruct r; by intros [= <- <-].
Qed.
End Calls.
End Version.

(** C12.  A put among other clients: whatever requests fail or are carried out all
    the same, and whatever other puts do between any two requests, the call
    answers, every change it makes is one of its own, and the blob is visible
    whole or not at all; an accepted blob is visible, with the bytes of the
    body and the metadata of the answer, within the limit and as the caller
    expected it.  The limit is below math.MaxInt64 (at which the bounded reader
    panics), the clock is one that RFC 3339 can write, the random bytes are
    there and are not the version the key has. *)
Theorem s3_put_publishes others ctx bytes now k source_ options w :
  slen bytes = 20 -> MaxBytes options < max_int64 -> clock_ok now ->
  (forall n s, rely k (encode_id "" bytes) s (others n s)) -> unclaimed k (encode_id "" bytes) (service w) ->
  exists a w', Put others ctx config (Some bytes) now k source_ options w = (Some a, w') /\
    rtc (step others k (encode_id "" bytes)) (service w) (service w') /\
    match a with
    | Ok m => view (service w') k = Some (m, body source_) /\ m_Version m = encode_id "" bytes /\ ending source_ = EOF /\
        slen (body source_) <= MaxBytes options /\
        VerifyExpected (slen (body source_)) (hex_encode (sha256 (body source_))) options = Ok tt
    | Err _ => forall r, read_at (service w') k = Ok r -> mf_Version r = encode_id "" bytes ->
        content_at (service w') (DataName r) (optionalString (mf_BackendVersion r)) = None \/
        view (service w') k = Some (metadata k r, body source_)
    end.
Proof using Hconfig Hprefix.
  intros Hb Hmax Hnow Hoth Hu.
  assert (version_ok (encode_id "" bytes)) as Hv.
  { unfold version_ok, encode_id. change ("" +:+ ?s) with s. by rewrite encode_id_class, base32_encode_length, Hb. }
  set (v := encode_id "" bytes) in *. unfold Put.
  assert (forall u, unclaimed k v (service u) -> forall r, read_at (service u) k = Ok r -> mf_Version r = v ->
    content_at (service u) (DataName r) (optionalString (mf_BackendVersion r)) = None \/
    view (service u) k = Some (metadata k r, body source_)) as Hidle by (intros u Hun r Hr Hver; by apply Hun in Hr).
  destruct (ValidatePutOptions k true options) as [[]|e] eqn:Ev; [|eexists _, _; split_and!; [done..|exact (Hidle _ Hu)]].
  assert (Valid k = true /\ 0 < MaxBytes options) as [Hk Hpos].
  { unfold ValidatePutOptions in Ev. destruct (Valid k); [|done].
    destruct (true && (0 <? MaxBytes options) && (0 <? Timeout options)) eqn:E; [|done]. simp_bool. auto. }
  destruct (readManifest others config k w) as [a w1] eqn:E1.
  apply (s3_readManifest_rule k v Hk Hv others Hoth) in E1 as [Hi1 Hs1]; [|done].
  destruct a as [r|e]; [eexists _, _; split_and!; [done..|exact (Hidle _ Hi1)]|].
  destruct (decide (e = ErrNotFound)) as [->|Hne].
  2: { exists (Err e), w1. split; [by destruct e|]. split; [done|exact (Hidle _ Hi1)]. }
  fold v. destruct (s3_put_version_rule k v Hk Hv others Hoth ctx source_ options now w1) as (a & w2 & -> & Hs2 & backend & Hbk & Ha);
    [lia|done..|]. exists a, w2. split; [done|]. split; [by etrans|]. destruct a as [m|].
  - destruct Ha as (-> & Hl & Hend & Hle & Hver). destruct (linked_view k v Hk Hv backend (body source_) now (service w2)) as [_ Hview];
      [done|lia|done..|]. done.
  - intros r Hr Hver. destruct (Ha r Hr Hver) as [-> [Hn|Hh]]; [by left|right]. unfold view. rewrite Hr.
    change (DataName (record k v backend (body source_) now)) with (dataKey config k v).
    change (mf_BackendVersion (record k v backend (body source_) now)) with backend. rewrite Hh.
    unfold matches. cbn [record new_manifest mf_SHA256 mf_Size]. by rewrite Z.eqb_refl, String.eqb_refl.
Qed.

(** ** Reading back *)

Lemma s3_view_Some s k m c : view s k = Some (m, c) <-> exists r, read_at s k = Ok r /\
  content_at s (DataName r) (optionalString (mf_BackendVersion r)) = Some c /\ matches r c = true /\ m = metadata k r.
Proof using Type.
  unfold view. split.
  - destruct (read_at s k) as [r|] eqn:Er; [|done]. destruct (content_at s (DataName r) _) as [c'|] eqn:Ed; [|done].
    destruct (matches r c') eqn:Em; [|done]. intros [= <- <-]. eauto.
  - by intros (r & -> & -> & -> & ->).
Qed.

Lemma view_ext s s' k : (forall key ver, content_at s' key ver = content_at s key ver) -> view s' k = view s k.
Proof using Type.
  intros H. unfold view. rewrite (s3_read_at_same s s') by apply H. destruct (read_at s k) as [r|]; [|done]. by rewrite H.
Qed.

(** Reading to the end yields what the stream has. *)
Lemma read_to_end ctx bufs : Forall (fun len => 1 <= len) bufs -> forall r acc content r',
  v_finished r = false -> ReadAll safe_read ctx bufs r acc = Some (Ok content, r') ->
  content = acc +:+ body (v_source r) /\ ending (v_source r) = EOF.
Proof using Type.
  induction 1 as [|len bufs Hl _ IH]; intros r acc content r' Hf; [done|]. cbn [ReadAll]. unfold VRead. rewrite Hf.
  destruct (ContextError (ctx (v_checks r))) as [x|] eqn:Ex.
  { assert (is_EOF (Some x) = false) as ->; [|done]. unfold is_EOF. apply bool_decide_eq_false_2. intros [= ->].
    by apply ContextError_not_EOF in Ex. }
  unfold safe_read. destruct (stream_read len (v_source r)) as [[bytes e] s'] eqn:Er.
  apply stream_read_progress in Er as [(-> & -> & _)|(-> & Hbody & Hend & _)]; [|..|done].
  - destruct (_ && _); [by change (is_EOF (Some ErrIntegrity)) with false|]. destruct (is_EOF (Some (ending (v_source r)))) eqn:Ee.
    + rewrite Ee. unfold is_EOF in Ee. simp_bool. injection Ee as Ee. destruct (_ || _); [by change (is_EOF (Some ErrIntegrity)) with false|].
      rewrite Ee. change (is_EOF (Some EOF)) with true. cbv iota. by intros [= <- _].
    + change (is_EOF (Some (ErrBackend "read object"))) with false. cbv iota. by change (is_EOF (Some (ErrBackend "read object"))) with false.
  - destruct (_ && _); [by change (is_EOF (Some ErrIntegrity)) with false|]. change (is_EOF None) with false. cbv iota.
    intros H. apply IH in H as [-> Hend2]; [|done]. cbn [v_source] in *. by rewrite append_assoc, Hbody, <- Hend.
Qed.

(** What is visible is what a manifest says. *)
Lemma readManifest_reads others k w r w' m c : view (others (calls w) (service w)) k = Some (m, c) ->
  readManifest others config k w = (Ok r, w') ->
  m = metadata k r /\ (forall k' v', content_at (service w') k' v' = content_at (others (calls w) (service w)) k' v') /\
  read_at (others (calls w) (service w)) k = Ok r.
Proof using Type.
  intros Hview. unfold readManifest, call. set (s := others (calls w) (service w)) in *.
  destruct (GetObject _ _ _ s) as [[o|e] s'] eqn:Eg; [|done]. pose proof (get_keeps _ _ _ _ _ _ Eg) as Hkeep.
  destruct (get_found _ _ _ _ _ _ Eg) as (rest & Hst & Hrest). unfold view, read_at, content_at in Hview. rewrite Hst in Hview.
  destruct (maxManifestBytes <? slen _) eqn:El in Hview; [done|]. simp_bool.
  destruct (match ContentLength o with Some n => _ | None => false end); [done|].
  assert (limited_text (Body o) = None \/ rest = "" /\ limited_text (Body o) = Some (body (Body o))) as [-> |[-> ->]]; [|done|].
  { unfold limited_text. rewrite slen_app in El. pose proof (slen_nonneg rest). rewrite (proj2 (Z.ltb_ge _ _)) by lia.
    destruct (is_EOF (Some (ending (Body o)))) eqn:Ee; [|by left]. right. unfold is_EOF in Ee. simp_bool. injection Ee as Ee. auto. }
  cbn [mbind option_bind]. rewrite append_nil_r in Hst, Hview, El. destruct (decode_manifest (body (Body o))) as [r'|] eqn:Ed; [|done].
  destruct (valid_manifest config k r') eqn:Ev; [|done]. intros [= <- <-]. split_and!.
  - destruct (stored _ _ _ _) as [c'|]; [|done]. destruct (matches r' c'); [|done]. by injection Hview.
  - exact Hkeep.
  - unfold read_at, content_at. rewrite Hst, (proj2 (Z.ltb_ge _ _)) by done. by rewrite Ed, Ev.
Qed.

(** What was put is read: while a blob is visible, whatever others do that
    leaves it visible, [Open] answers with its metadata, and a stream that is
    read to its end has delivered exactly its bytes. *)
Theorem s3_reads_back others ctx k m c w r m' w' bufs content r' :
  (forall n s, view s k = Some (m, c) -> view (others n s) k = Some (m, c)) -> view (service w) k = Some (m, c) ->
  Open others config k w = (Ok (r, m'), w') -> Forall (fun len => 1 <= len) bufs ->
  ReadAll safe_read ctx bufs r "" = Some (Ok content, r') -> m' = m /\ content = c.
Proof using Type.
  intros Hoth Hview. unfold Open. destruct (Valid k); [|done]. cbn [negb].
  destruct (readManifest others config k w) as [[rec|e] w1] eqn:E1; [|done].
  apply (readManifest_reads others k w rec w1 m c) in E1 as (-> & Hkeep & Hr); [|by apply Hoth].
  assert (view (service w1) k = Some (metadata k rec, c)) as Hview1.
  { rewrite <- (Hoth (calls w) _ Hview). by apply view_ext. }
  apply (Hoth (calls w1)) in Hview1. unfold call. set (s1 := others (calls w1) (service w1)) in *.
  destruct (GetObject _ _ _ s1) as [[o|e] s2] eqn:Eg; [|done]. intros [= <- <- <-] Hb Hread.
  split; [done|]. apply read_to_end in Hread as [-> Hend]; [|done..]. cbn [v_source NewVerifiedReader] in *.
  destruct (get_found _ _ _ _ _ _ Eg) as (rest & Hst & Hrest). rewrite (Hrest Hend), append_nil_r in Hst.
  apply s3_view_Some in Hview1 as (rec1 & Hr1 & Hc1 & _ & Em).
  assert (mf_Version rec1 = mf_Version rec /\ mf_BackendVersion rec1 = mf_BackendVersion rec) as [Ev Eb]
    by (unfold metadata in Em; by simplify_eq).
  apply s3_read_at_data in Hr1. apply s3_read_at_data in Hr. rewrite Hr1, Ev, <- Hr, Eb in Hc1. unfold content_at in Hc1.
  change ("" +:+ body (Body o)) with (body (Body o)). congruence.
Qed.
End Bucket.

(** ** The S3 store behind the blob store interface

    The contract holds of any service: the metadata describe what went through
    the bounded stream, whatever the service made of it. *)

Section Contract.
Context {S : Type} `{!ObjectService S}.

Lemma s3_put_answer others ctx config random now k source_ o w m w' : MaxBytes o < max_int64 ->
  Put others ctx config random now k source_ o w = (Some (Ok m), w') ->
  exists bytes backend, random = Some bytes /\ ending source_ = EOF /\ slen (body source_) <= MaxBytes o /\
    VerifyExpected (slen (body source_)) (hex_encode (sha256 (body source_))) o = Ok tt /\
    m = metadata k (record config k (encode_id "" bytes) backend (body source_) now).
Proof.
  intros Hmax. unfold Put. destruct (ValidatePutOptions k true o) as [[]|] eqn:Ev; [|done].
  assert (0 < MaxBytes o) as Hpos.
  { unfold ValidatePutOptions in Ev. destruct (Valid k); [|done].
    destruct (true && (0 <? MaxBytes o) && (0 <? Timeout o)) eqn:E; [|done]. simp_bool. lia. }
  destruct (readManifest others config k w) as [[r0|[]] w1]; try done. destruct random as [bytes|]; [|done].
  unfold put_version. cbv zeta. match goal with |- context [drain ctx ?l _ _] => set (bufs := l) end.
  destruct (drain_rule ctx (MaxBytes o) bufs ltac:(lia) (NewBoundedReader source_ (MaxBytes o)))
    as (got & e & r & Hdr & _ & [_ Hsize Hlim] & Hres); [by split; simpl; unfold slen; simpl; lia|done..|].
  cbn [hashed NewBoundedReader source] in *. rewrite Hdr. destruct (call others _ w1) as [[backend|] w2]; [|done].
  destruct (publish _ _ _ _ _ _ _ _ _ w2) as [a w3] eqn:Ep. intros [= -> <-]. unfold publish in Ep.
  destruct (Result r) as [[size digest]|] eqn:Er; [|done]. destruct (Hres _ eq_refl) as [Hh Hend].
  change ("" +:+ body source_) with (body source_) in Hh.
  assert (size = slen (body source_) /\ digest = hex_encode (sha256 (body source_))) as [-> ->].
  { unfold Result in Er. destruct (err r); [done|]. destruct (finished r); [|done].
    assert (forall y z : Z * string, Ok y = Ok z :> result error _ -> y = z) as Hinj by congruence.
    apply Hinj, pair_equal_spec in Er as [<- <-]. by rewrite Hsize, Hh. }
  destruct (VerifyExpected _ _ o) as [[]|] eqn:Ex; [|done]. destruct (commitManifest _ _ _ w2) as [[[]|] w4]; [|done].
  apply pair_equal_spec in Ep as [Ep _]. assert (forall x y : Metadata, Ok x = Ok y :> result error _ -> x = y) as Hinj by congruence.
  apply Hinj in Ep. exists bytes, backend. rewrite Hh in Hlim. split_and!; try done.
Qed.

(** What one call meets. *)
Record environment := {
  en_others : nat -> S -> S; en_ctx : nat -> ctx_state; en_random : option string; en_now : time
}.

Record bucket := InBucket { state : S; turn : nat; settings : Config; environments : nat -> environment }.

Definition next (b : bucket) (s : S) : bucket := InBucket s (Datatypes.S (turn b)) (settings b) (environments b).

Definition drawn (random : option string) : option string :=
  match random with Some bytes => if slen bytes =? 20 then Some bytes else None | None => None end.

(** A limit of [math.MaxInt64] panics in the stream. *)
Definition bucket_put (k : Key) (s : stream) (o : PutOptions) (b : bucket) : result error Metadata * bucket :=
  let e := environments b (turn b) in
  if negb (MaxBytes o <? max_int64) then (Err (ErrSource "panic"), b)
  else
    let '(a, w) := Put (en_others e) (en_ctx e) (settings b) (drawn (en_random e)) (en_now e) k s o (World (state b) 0) in
    (default (Err (ErrSource "panic")) a, next b (service w)).

Definition bucket_stat (k : Key) (b : bucket) : result error Metadata * bucket :=
  let e := environments b (turn b) in
  let '(a, w) := Stat (en_others e) (settings b) k (World (state b) 0) in (a, next b (service w)).

#[global] Instance BucketBlobs : BlobWriter bucket := {| Streams.Put := bucket_put; Streams.Stat := bucket_stat |}.

#[global] Instance BucketContract : BlobContract bucket.
Proof.
  split.
  - intros k s o b m b'. cbn [Streams.Put BucketBlobs]. unfold bucket_put. cbv zeta.
    destruct (Z.ltb_spec (MaxBytes o) max_int64) as [Hmax|]; cbn [negb]; [|done].
    destruct (Put _ _ _ _ _ _ _ _ _) as [[a|] w] eqn:Ep; [|done]. cbn [default]. intros [= -> <-].
    apply s3_put_answer in Ep as (bytes & backend & Hd & Hend & Hle & Hver & ->); [|done]. split_and!; try done.
    unfold drawn in Hd. destruct (en_random _) as [x|]; [|done]. destruct (Z.eqb_spec (slen x) 20) as [Hx|]; [|done].
    injection Hd as <-. change (encode_id "" x <> ""). intros E. apply (f_equal slen) in E.
    unfold encode_id in E. change ("" +:+ ?s) with s in E. rewrite base32_encode_length, Hx in E. done.
  - intros k b m b'. cbn [Streams.Stat BucketBlobs]. unfold bucket_stat. cbv zeta.
    destruct (Stat _ _ _ _) as [a w] eqn:Es. intros [= -> <-]. unfold Stat in Es. destruct (negb _); [done|].
    destruct (readManifest _ _ k _) as [[r|] w1] eqn:Er; [|done]. injection Es as <- _.
    unfold readManifest in Er. destruct (call _ _ _) as [[o|] w2]; [|done].
    destruct (match ContentLength o with Some n => _ | None => false end); [done|].
    destruct (limited_text (Body o) ≫= decode_manifest) as [r'|]; [|done].
    destruct (valid_manifest _ k r') eqn:Ev; [|done]. injection Er as <- _. unfold valid_manifest in Ev. by simp_bool.
Qed.
End Contract.

End S3Theorems.
