(* ===== verification/S3Examples.v ===== *)
(** * The S3 store at work

    A bucket without versions whose requests fail as a plan says, that it
    keeps the laws of an object service, and runs of the store on it. *)

From S2P Require Import Prelude GoStrings Encoding Txn Json GoTime Blobstore Streams GoPath Manifests S3store S3Theorems Conformance.

Local Open Scope Z_scope.

Module S3Examples.
Import Blobstore Manifests S3store S3Theorems.
Import Streams(stream, Stream, body, ending).

(** ** A bucket *)

Record cloud := Cloud { objects : gmap (string * string) string; requests : nat; faults : nat -> fault }.

Definition request {A} (f : gmap (string * string) string -> result sdk_error A * gmap (string * string) string) (s : cloud)
  : result sdk_error A * cloud :=
  let '(r, m) := f (objects s) in
  match faults s (requests s) with
  | Healthy => (r, Cloud m (Datatypes.S (requests s)) (faults s))
  | Broken => (Err OtherError, Cloud (objects s) (Datatypes.S (requests s)) (faults s))
  | Lost => (Err DeadlineError, Cloud m (Datatypes.S (requests s)) (faults s))
  end.

Definition current (ver : option string) {A} (x : option A) : option A := match ver with None => x | Some _ => None end.

#[local] Instance cloud_service : ObjectService cloud := {|
  GetObject b k ver := request (fun m =>
    (match current ver (m !! (b, k)) with
     | Some c => Ok {| Body := Stream [c] EOF false; ContentLength := Some (slen c) |}
     | None => Err (APIError "NoSuchKey")
     end, m));
  PutObject b k c _ := request (fun m =>
    match m !! (b, k) with
    | Some _ => (Err (APIError "PreconditionFailed"), m)
    | None => (Ok tt, <[(b, k) := c]> m)
    end);
  DeleteObject b k ver := request (fun m => (Ok tt, match ver with None => delete (b, k) m | Some _ => m end));
  upload_buffers _ _ _ := repeat 4%positive 8;
  UploadObject b k c _ _ := request (fun m => (Ok "", <[(b, k) := c]> m))
|}.

#[local, program] Instance cloud_laws : ObjectLaws cloud := {|
  stored s b k ver := current ver (objects s !! (b, k))
|}.
Next Obligation.
  intros b k ver s o s'. cbn [GetObject cloud_service]. unfold request. destruct (current ver _) as [c|] eqn:Ec;
    destruct (faults s (requests s)); intros [= <- <-]. exists "". cbn [Body]. unfold Streams.body. simpl foldr.
  by rewrite !append_nil_r.
Qed.
Next Obligation.
  intros b k ver s e s'. cbn [GetObject cloud_service]. unfold request. destruct (current ver _) as [c|] eqn:Ec;
    destruct (faults s (requests s)); by intros [= <- <-].
Qed.
Next Obligation.
  intros b k ver s r s'. cbn [GetObject cloud_service]. unfold request. by destruct (faults s (requests s)); intros [= <- <-].
Qed.
Next Obligation.
  intros b k c x s r s'. cbn [PutObject cloud_service]. unfold request. destruct (objects s !! (b, k)) eqn:E;
    destruct (faults s (requests s)); intros [= <- <-]; cbn [objects current is_ok]; rewrite ?lookup_insert_eq, ?E; auto.
Qed.
Next Obligation.
  intros b k c x s r s'. cbn [PutObject cloud_service]. unfold request. intros Hp k' v' Hne. destruct (objects s !! (b, k)) eqn:E;
    destruct (faults s (requests s)); injection Hp as <- <-; cbn [objects]; try done; by rewrite lookup_insert_ne by congruence.
Qed.
Next Obligation.
  intros b k c e x s ver s'. cbn [UploadObject cloud_service]. unfold request. destruct (faults s (requests s)); intros [= <- <-].
  cbn [objects]. change (optionalString "") with (@None string). cbn [current]. rewrite lookup_insert_eq. split_and!; try done.
Qed.
Next Obligation.
  intros b k c e x s r s'. cbn [UploadObject cloud_service]. unfold request. intros Hp k' v' Hne.
  destruct (faults s (requests s)); injection Hp as <- <-; cbn [objects]; try done; by rewrite lookup_insert_ne by congruence.
Qed.
Next Obligation.
  intros b k ver s r s'. cbn [DeleteObject cloud_service]. unfold request. destruct ver as [ver|];
    destruct (faults s (requests s)); intros [= <- <-]; cbn [objects current is_ok]; rewrite ?lookup_delete_eq; auto.
Qed.
Next Obligation.
  intros b k ver s r s'. cbn [DeleteObject cloud_service]. unfold request. intros Hp k' v' Hne. destruct ver as [ver|];
    destruct (faults s (requests s)); injection Hp as <- <-; cbn [objects]; try done; by rewrite lookup_delete_ne by congruence.
Qed.

(** ** Configurations *)

Definition given (prefix encryption kms : string) : Config :=
  {| Bucket := "evidence"; Prefix := prefix; Encryption := encryption; KMSKeyID := kms |}.

Example configurations :
  match New true (given "/team/reports/" "AES256" "") with Ok c => Prefix c | Err _ => "refused" end = "team/reports" /\
  forallb (fun c => negb (is_ok (New true c)))
    [given "../x" "" ""; given "a//b" "" ""; given "a/../b" "" ""; given "a/." "" ""; given ".." "" "";
     given "a" "aws:kms" ""; given "a" "AES256" "key"; given "a" "none" ""] = true /\
  is_ok (New true (given "" "aws:kms" "key")) = true /\ is_ok (New false (given "a" "" "")) = false.
Proof. vm_compute. done. Qed.

Definition config : Config := given "team/reports" "AES256" "".

Lemma config_accepted : config_ok config.
Proof. apply (New_ok true (given "/team/reports/" "AES256" "")). reflexivity. Qed.

(** ** Runs *)

Definition key : Key := Eval vm_compute in encode_id "blb_" "aaaaaaaaaaaaaaaaaaaaaaaaaaaaaaaa".
Definition random : string := "bbbbbbbbbbbbbbbbbbbb".
Definition noon : time := 63871200000 * Second + 120000000.
Definition report : stream := Stream ["{}"; "tail"] EOF false.
Definition limits : PutOptions := {| MaxBytes := 64; Timeout := Second; ExpectedSize := Some 6; ExpectedSHA256 := "" |}.
Definition nobody (_ : nat) (s : cloud) : cloud := s.
Definition plan (l : list (nat * fault)) (n : nat) : fault := default Healthy (snd <$> find (fun x => Nat.eqb (fst x) n) l).

Definition after (l : list (nat * fault)) : option (result error Metadata) * world :=
  Put nobody (fun _ => Live) config (Some random) noon key report limits (World (Cloud ∅ 0 (plan l)) 0).

(** Where the objects are, and that they are read back. *)
Example put_then_open :
  let w := snd (after []) in
  map fst (map_to_list (objects (service w))) =
    [("evidence", manifestKey config key); ("evidence", dataKey config key (encode_id "" random))] /\
  manifestKey config key = "team/reports/objects/" +:+ key +:+ "/manifest.json" /\
  match Open nobody config key w with
  | (Ok (r, _), _) =>
      match ReadAll safe_read (fun _ => Live) [4; 4; 4; 4] r "" with Some (Ok c, _) => String.eqb c "{}tail" | _ => false end
  | _ => false
  end = true.
Proof. vm_compute. done. Qed.

(** Wherever the first request fails, nothing or all of the blob is visible. *)
Example every_failed_request :
  forallb (fun n =>
    forallb (fun f =>
      match view config (service (snd (after [(n, f)]))) key with None => true | Some (_, c) => String.eqb c "{}tail" end)
      [Broken; Lost])
    (seq 0 6) = true.
Proof. vm_compute. done. Qed.

(** A manifest that was written although the request timed out stays, while
    its bytes are removed: the key can be neither put nor opened again. *)
Example lost_commit :
  match after [(2%nat, Lost)] with
  | (Some (Err ErrDeadline), w) =>
      match fst (Put nobody (fun _ => Live) config (Some random) noon key report limits w), fst (Open nobody config key w) with
      | Some (Err ErrAlreadyExists), Err ErrIntegrity => true
      | _, _ => false
      end
  | _ => false
  end = true.
Proof. vm_compute. done. Qed.

(** *** The conformance suite *)

#[local] Instance cloud_store : Conformance.BlobStore (world (S := cloud)) := {|
  Conformance.Put ctx k s o w :=
    match Put nobody ctx config (Some random) noon k s o w with (Some a, w) => (a, w) | (None, w) => (Err (ErrSource "panic"), w) end;
  Conformance.OpenAndRead k w :=
    match Open nobody config k w with
    | (Ok (r, m), w) =>
        (Ok (match ReadAll safe_read (fun _ => Live) (repeat 512 8) r "" with Some (a, _) => a | None => Err ErrNotConsumed end, m), w)
    | (Err e, w) => (Err e, w)
    end;
  Conformance.Stat k := Stat nobody config k;
  Conformance.Delete k v := Delete nobody config k v |}.

(** The store passes it on a bucket that works; with a bucket whose third
    request is lost, it does not. *)
Example cloud_conforms :
  Conformance.Run "{}tail" (fun _ => World (Cloud ∅ 0 (plan [])) 0) (fun _ => key) = true /\
  Conformance.Run "{}tail" (fun _ => World (Cloud ∅ 0 (plan [(2%nat, Lost)])) 0) (fun _ => key) = false.
Proof. vm_compute. done. Qed.

(** ** The theorems at work *)

Lemma clock_at_noon : clock_ok noon.
Proof. unfold clock_ok, noon, year_zero, year_10000, Second. lia. Qed.

Lemma prefix_ok : ValidString (Prefix config) = true /\ slen (Prefix config) <= 900.
Proof. split; [reflexivity|vm_compute; discriminate]. Qed.

Lemma s3_put_publishes_witness : exists a w',
  after [(2%nat, Lost); (3%nat, Broken)] = (Some a, w') /\
  rtc (step config nobody key (encode_id "" random)) (Cloud ∅ 0 (plan [(2%nat, Lost); (3%nat, Broken)])) (service w') /\
  match a with
  | Ok m => view config (service w') key = Some (m, body report) /\ m_Version m = encode_id "" random /\ ending report = EOF /\
      slen (body report) <= MaxBytes limits /\
      VerifyExpected (slen (body report)) (hex_encode (sha256 (body report))) limits = Ok tt
  | Err _ => forall r, read_at config (service w') key = Ok r -> mf_Version r = encode_id "" random ->
      content_at config (service w') (DataName r) (optionalString (mf_BackendVersion r)) = None \/
      view config (service w') key = Some (metadata key r, body report)
  end.
Proof.
  apply (s3_put_publishes config config_accepted prefix_ok nobody (fun _ => Live) random noon key report limits
           (World (Cloud ∅ 0 (plan [(2%nat, Lost); (3%nat, Broken)])) 0)).
  - reflexivity.
  - reflexivity.
  - apply clock_at_noon.
  - intros n s. by split.
  - intros r Hr. discriminate.
Defined.

Definition shown : option (Metadata * string) := Eval vm_compute in view config (service (snd (after []))) key.
Definition opened : result error (@verifiedReader stream * Metadata) := Eval vm_compute in fst (Open nobody config key (snd (after []))).
Definition the_metadata : Metadata := Eval vm_compute in match shown with Some (m, _) => m | None => metadata key (new_manifest config key "" "" 0 "" 0) end.
Definition the_reader : @verifiedReader stream := Eval vm_compute in
  match opened with Ok (r, _) => r | Err _ => NewVerifiedReader report 0 "" end.

Lemma shown_report : view config (service (snd (after []))) key = Some (the_metadata, "{}tail").
Proof. vm_compute. reflexivity. Qed.

Lemma opened_report : fst (Open nobody config key (snd (after []))) = Ok (the_reader, the_metadata).
Proof. vm_compute. reflexivity. Qed.

Lemma opened_pair : Open nobody config key (snd (after [])) =
  (Ok (the_reader, the_metadata), snd (Open nobody config key (snd (after [])))).
Proof. rewrite <- opened_report. apply surjective_pairing. Qed.

Definition at_end : @verifiedReader stream := Eval vm_compute in
  match ReadAll safe_read (fun _ => Live) [4; 4; 4; 4] the_reader "" with Some (_, r) => r | None => the_reader end.

Lemma read_report : ReadAll safe_read (fun _ => Live) [4; 4; 4; 4] the_reader "" = Some (Ok "{}tail", at_end).
Proof. vm_compute. reflexivity. Qed.

Lemma s3_reads_back_witness : the_metadata = the_metadata /\ "{}tail" = "{}tail".
Proof.
  apply (s3_reads_back config nobody (fun _ => Live) key the_metadata "{}tail" (snd (after [])) the_reader the_metadata
           (snd (Open nobody config key (snd (after [])))) [4; 4; 4; 4] "{}tail" at_end).
  - intros n s H. exact H.
  - exact shown_report.
  - exact opened_pair.
  - repeat constructor; lia.
  - exact read_report.
Defined.

End S3Examples.
