(* ===== verification/Sarif.v ===== *)
(** * The SARIF parser (src/internal/parsing/sarif)

    [Module Sarif] models the bounded parser of SARIF 2.1.0 reports: the
    limits and the document it produces (types.go), the streaming check of the
    whole text against the limits, and the descent through the runs, rules,
    results and locations of the report, with a warning for every object that
    has members the parser does not map (parser.go). *)

From S2P Require Import Prelude GoStrings Encoding Json JsonFacts JsonTokens Unmarshal Blobstore.
From Stdlib Require Import Ascii.

Local Open Scope Z_scope.

Module Sarif.

Definition Format : string := "sarif".
Definition FormatVersion : string := "2.1.0".
Definition ParserVersion : string := "1".

(** ** Limits *)

Record Limits := {
  MaxBytes : Z; MaxJSONDepth : Z; MaxObjectMembers : Z; MaxArrayElements : Z; MaxStringBytes : Z;
  MaxRuns : Z; MaxRulesPerRun : Z; MaxResultsPerRun : Z; MaxInvocationsPerRun : Z; MaxLocationsPerResult : Z;
  MaxFingerprintsPerResult : Z; MaxWarnings : Z; MaxUnsupportedFieldsPerWarning : Z
}.

Definition DefaultLimits : Limits := {|
  MaxBytes := Z.shiftl 100 20; MaxJSONDepth := 64; MaxObjectMembers := 100000; MaxArrayElements := 100000;
  MaxStringBytes := Z.shiftl 1 20; MaxRuns := 1000; MaxRulesPerRun := 100000; MaxResultsPerRun := 100000;
  MaxInvocationsPerRun := 1000; MaxLocationsPerResult := 1000; MaxFingerprintsPerResult := 1000;
  MaxWarnings := 1000; MaxUnsupportedFieldsPerWarning := 64 |}.

Definition hardMaxBytes : Z := Z.shiftl 256 20.
Definition hardMaxJSONDepth : Z := 256.
Definition hardMaxCollection : Z := 1000000.
Definition hardMaxStringBytes : Z := Z.shiftl 4 20.
Definition hardMaxWarnings : Z := 100000.

(** ** Errors *)

Inductive ErrorCode :=
| ErrorInvalidConfiguration | ErrorInputRead | ErrorInputTooLarge | ErrorInvalidEncoding | ErrorMalformedJSON
| ErrorUnsupportedVersion | ErrorInvalidSARIF | ErrorLimitExceeded | ErrorCancelled.
#[global] Instance ErrorCode_eq_dec : EqDecision ErrorCode.
Proof. solve_decision. Defined.

Definition code_text (c : ErrorCode) : string :=
  match c with
  | ErrorInvalidConfiguration => "invalid_configuration"
  | ErrorInputRead => "input_read_failed"
  | ErrorInputTooLarge => "input_too_large"
  | ErrorInvalidEncoding => "invalid_utf8"
  | ErrorMalformedJSON => "malformed_json"
  | ErrorUnsupportedVersion => "unsupported_version"
  | ErrorInvalidSARIF => "invalid_sarif"
  | ErrorLimitExceeded => "limit_exceeded"
  | ErrorCancelled => "cancelled"
  end.

(** [newParseError] *)
Record ParseError := newParseError { Code : ErrorCode; Path : string }.

(** The message of an error. *)
Definition Error (e : ParseError) : string :=
  if String.eqb (Path e) "" then "sarif parser: " +:+ code_text (Code e)
  else "sarif parser: " +:+ code_text (Code e) +:+ " at " +:+ Path e.

(** [New]: the limits that are accepted. *)
Definition within (value limit : Z) : bool := (0 <? value) && (value <=? limit).

Definition New (limits : Limits) : result ParseError Limits :=
  guard! within (MaxBytes limits) hardMaxBytes && within (MaxJSONDepth limits) hardMaxJSONDepth &&
         within (MaxObjectMembers limits) hardMaxCollection && within (MaxArrayElements limits) hardMaxCollection &&
         within (MaxStringBytes limits) hardMaxStringBytes &&
         within (MaxRuns limits) (MaxArrayElements limits) &&
         within (MaxRulesPerRun limits) (MaxArrayElements limits) &&
         within (MaxResultsPerRun limits) (MaxArrayElements limits) &&
         within (MaxInvocationsPerRun limits) (MaxArrayElements limits) &&
         within (MaxLocationsPerResult limits) (MaxArrayElements limits) &&
         within (MaxFingerprintsPerResult limits) (MaxObjectMembers limits) &&
         within (MaxWarnings limits) hardMaxWarnings &&
         within (MaxUnsupportedFieldsPerWarning limits) (MaxObjectMembers limits)
    else newParseError ErrorInvalidConfiguration "" in
  Ok limits.

(** ** Documents *)

Record ParserIdentity := { pa_Name : string; pa_Version : string }.
Record Tool := {
  t_Name : string; t_FullName : string; t_Version : string; t_SemanticVersion : string; t_InformationURI : string
}.
Record AutomationDetails := { ad_ID : string; ad_GUID : string; ad_CorrelationGUID : string }.
Record Invocation := {
  in_Index : Z; in_SourcePointer : string; in_ExecutionSuccessful : bool; in_StartTimeUTC : string;
  in_EndTimeUTC : string; in_ExitCode : option Z; in_ExitCodeDescription : string; in_StartFailureMessage : string
}.
Record Message := { m_ID : string; m_Text : string; m_Markdown : string; m_Arguments : list string }.
Record Rule := {
  ru_Index : Z; ru_SourcePointer : string; ru_ID : string; ru_Name : string;
  ru_ShortDescription : option Message; ru_FullDescription : option Message; ru_Help : option Message;
  ru_DefaultLevel : string
}.
Record Region := { StartLine : option Z; StartColumn : option Z; EndLine : option Z; EndColumn : option Z }.
Record Location := {
  lo_Index : Z; lo_SourcePointer : string; lo_URI : string; lo_URIBaseID : string; lo_ArtifactIndex : option Z;
  lo_Region : option Region
}.
Record NamedValue := { nv_Name : string; nv_Value : string }.
Record Result := {
  re_Index : Z; re_SourcePointer : string; re_GUID : string; re_CorrelationGUID : string; re_RuleID : string;
  re_RuleIndex : option Z; re_Level : string; re_Kind : string; re_BaselineState : string; re_Message : Message;
  re_Locations : list Location; re_Fingerprints : list NamedValue; re_PartialFingerprints : list NamedValue
}.
Record Run := {
  r_Index : Z; r_SourcePointer : string; r_Tool : Tool; r_AutomationDetails : option AutomationDetails;
  r_Invocations : list Invocation; r_Rules : list Rule; r_Results : list Result
}.
Definition WarningUnsupportedFields : string := "unsupported_fields".
Record Warning := {
  w_Code : string; w_Path : string; w_FieldCount : Z; w_Fields : list string; w_FieldsTruncated : bool
}.
Record Document := {
  d_Format : string; d_FormatVersion : string; d_SchemaURI : string; d_Parser : ParserIdentity;
  d_Runs : list Run; d_Warnings : list Warning; d_WarningsTruncated : bool
}.

Definition len {A} (l : list A) : Z := Z.of_nat (length l).

(** ** Reading

    [ctx k] is the state of the context at the [k]-th time it is looked at. *)

Definition done_ctx (c : Blobstore.ctx_state) : bool :=
  match c with Blobstore.Live => false | _ => true end.

Definition contextError (c : Blobstore.ctx_state) : result ParseError unit :=
  if done_ctx c then Err (newParseError ErrorCancelled "") else Ok tt.

Section Reader.
Context {St : Type} (read : Z -> St -> string * option Blobstore.error * St) (ctx : nat -> Blobstore.ctx_state).

(** [contextReader.Read]; the number counts the looks at the context. *)
Definition contextRead (n : Z) (s : nat * St) : string * option Blobstore.error * (nat * St) :=
  let '(k, source) := s in
  match Blobstore.ContextError (ctx k) with
  | Some e => ("", Some e, (S k, source))
  | None => let '(bytes, e, source) := read n source in (bytes, e, (S k, source))
  end.

(** [io.LimitReader] *)
Definition limitedRead (n : Z) (s : Z * (nat * St)) : string * option Blobstore.error * (Z * (nat * St)) :=
  let '(remaining, inner) := s in
  if remaining <=? 0 then ("", Some Blobstore.EOF, s)
  else
    let '(bytes, e, inner) := contextRead (Z.min n remaining) inner in
    (bytes, e, (remaining - slen bytes, inner)).

(** [io.ReadAll] with buffers of the lengths [bufs]: the data, the error other
    than the end, and the reader afterwards; [None] when the buffers run out. *)
Fixpoint ReadAll (bufs : list Z) (s : Z * (nat * St)) (data : string)
  : option (string * option Blobstore.error * (Z * (nat * St))) :=
  match bufs with
  | [] => None
  | n :: bufs =>
      let '(bytes, e, s) := limitedRead n s in
      match e with
      | None => ReadAll bufs s (data +:+ bytes)
      | Some e => Some (data +:+ bytes, if Blobstore.is_EOF (Some e) then None else Some e, s)
      end
  end.
End Reader.

(** ** The streaming check *)

Inductive jsonKind := jsonScalar | jsonObject | jsonArray.
#[global] Instance jsonKind_eq_dec : EqDecision jsonKind.
Proof. solve_decision. Defined.

Section Validate.
Context (ctx : nat -> Blobstore.ctx_state) (limits : Limits).

Definition malformed {A} : result ParseError A := Err (newParseError ErrorMalformedJSON "").
Definition exceeded {A} : result ParseError A := Err (newParseError ErrorLimitExceeded "").

(** The decoder and the number of looks at the context. *)
Definition checked : Type := result ParseError (jsonKind * decoder * nat).

(** The closing bracket of a container. *)
Definition closing (bracket : Z) (kind : jsonKind) (d : decoder) (k : nat) : checked :=
  match Token d with
  | Token_ok (Delim c) d => if is_byte bracket c then Ok (kind, d, k) else malformed
  | _ => malformed
  end.

(** [validateJSONValue] and the loops over members and elements in it; every
    call consumes a token or is followed by one that does. *)
Fixpoint validateJSONValue (fuel : nat) (depth : Z) (d : decoder) (k : nat) : checked :=
  match fuel with
  | O => malformed
  | S fuel =>
      try! _ := contextError (ctx k) in
      match Token d with
      | Token_EOF | Token_error => malformed
      | Token_ok TScalar d => Ok (jsonScalar, d, S k)
      | Token_ok (TString value) d =>
          if MaxStringBytes limits <? slen value then exceeded else Ok (jsonScalar, d, S k)
      | Token_ok (Delim c) d =>
          if negb (is_byte 123 c) && negb (is_byte 91 c) then malformed
          else
            let containerDepth := depth + 1 in
            if MaxJSONDepth limits <? containerDepth then exceeded
            else if is_byte 123 c then validateMembers fuel containerDepth [] 0 d (S k)
            else validateElements fuel containerDepth 0 d (S k)
      end
  end
with validateMembers (fuel : nat) (depth : Z) (seen : list string) (count : Z) (d : decoder) (k : nat) : checked :=
  match fuel with
  | O => malformed
  | S fuel =>
      if negb (More d) then closing 125 jsonObject d k
      else
        try! _ := contextError (ctx k) in
        match Token d with
        | Token_EOF | Token_error => malformed
        | Token_ok (TString key) d =>
            if MaxStringBytes limits <? slen key then exceeded
            else if MaxObjectMembers limits <? count + 1 then exceeded
            else if existsb (String.eqb key) seen then malformed
            else
              try! r := validateJSONValue fuel depth d (S k) in
              validateMembers fuel depth (key :: seen) (count + 1) (snd (fst r)) (snd r)
        | Token_ok _ _ => exceeded
        end
  end
with validateElements (fuel : nat) (depth : Z) (count : Z) (d : decoder) (k : nat) : checked :=
  match fuel with
  | O => malformed
  | S fuel =>
      if negb (More d) then closing 93 jsonArray d k
      else if MaxArrayElements limits <? count + 1 then exceeded
      else
        try! r := validateJSONValue fuel depth d k in
        validateElements fuel depth (count + 1) (snd (fst r)) (snd r)
  end.

(** The kind of the value and the number of looks at the context. *)
Definition validateJSON (data : string) (k : nat) : result ParseError (jsonKind * nat) :=
  try! r := validateJSONValue (2 * String.length data + 2) 0 (NewDecoder data) k in
  match Token (snd (fst r)) with
  | Token_EOF => Ok (fst (fst r), snd r)
  | _ => malformed
  end.
End Validate.

(** ** The state of one descent: the warnings and the looks at the context *)

Record parseState := { warnings : list Warning; warningsTruncated : bool; looks : nat }.

Definition parser (A : Type) : Type := parseState -> result ParseError (A * parseState).
Definition ret {A} (a : A) : parser A := fun st => Ok (a, st).
Definition reject {A} (code : ErrorCode) (path : string) : parser A := fun _ => Err (newParseError code path).
Definition bind {A B} (p : parser A) (f : A -> parser B) : parser B :=
  fun st => match p st with Ok (a, st) => f a st | Err e => Err e end.

Declare Scope sarif_scope.
Delimit Scope sarif_scope with sarif.
Notation "'let*' x := p 'in' k" := (bind p (fun x => k))
  (at level 10, x name, p at level 100, k at level 200) : sarif_scope.
Notation "'need!' b 'else' code 'at' path 'in' k" := (if b then k else reject code path)
  (at level 10, b at level 100, code at level 0, path at level 100, k at level 200) : sarif_scope.
Notation "'wire!' x := m 'else' path 'in' k" :=
  (match m with Some x => k | None => reject ErrorInvalidSARIF path end)
  (at level 10, x name, m at level 100, path at level 100, k at level 200) : sarif_scope.
Local Open Scope sarif_scope.

(** A loop over raw messages with their index. *)
Fixpoint parse_each {A} (parse : json -> Z -> parser A) (i : Z) (l : list json) : parser (list A) :=
  match l with
  | [] => ret []
  | v :: l =>
      let* a := parse v i in
      let* rest := parse_each parse (i + 1) l in
      ret (a :: rest)
  end.

Definition indexPath (parent : string) (index : Z) : string := parent +:+ "/" +:+ itoa index.

(** A raw message that is absent or null. *)
Definition missing (raw : option json) : bool := match raw with None | Some JNull => true | _ => false end.

Definition validLevel (value : string) : bool :=
  String.eqb value "none" || String.eqb value "note" || String.eqb value "warning" || String.eqb value "error".

Definition validKind (value : string) : bool :=
  String.eqb value "notApplicable" || String.eqb value "pass" || String.eqb value "fail" ||
  String.eqb value "review" || String.eqb value "open" || String.eqb value "informational".

Definition validBaselineState (value : string) : bool :=
  String.eqb value "new" || String.eqb value "unchanged" || String.eqb value "updated" || String.eqb value "absent".

(** A map of strings is kept sorted by name. *)
Definition namedValues (values : list (string * string)) : list NamedValue :=
  map (fun kv => {| nv_Name := fst kv; nv_Value := snd kv |}) values.

(** ** Wire structs *)

Record wireDocument := { wd_Schema : string; wd_Version : string; wd_Runs : list json }.
Definition decode_document (v : json) : option wireDocument :=
  m ← members v; schema ← string_field "$schema" m; version ← string_field "version" m;
  runs ← raws_field "runs" m;
  Some {| wd_Schema := schema; wd_Version := version; wd_Runs := runs |}.

Record wireRun := {
  wr_Tool : option json; wr_AutomationDetails : option json; wr_Invocations : list json; wr_Results : list json
}.
Definition decode_run (v : json) : option wireRun :=
  m ← members v; tool ← raw_field "tool" m; details ← raw_field "automationDetails" m;
  invocations ← raws_field "invocations" m; results ← raws_field "results" m;
  Some {| wr_Tool := tool; wr_AutomationDetails := details; wr_Invocations := invocations; wr_Results := results |}.

Definition decode_tool (v : json) : option (option json) := m ← members v; raw_field "driver" m.

Record wireDriver := {
  dr_Name : string; dr_FullName : string; dr_Version : string; dr_SemanticVersion : string;
  dr_InformationURI : string; dr_Rules : list json
}.
Definition decode_driver (v : json) : option wireDriver :=
  m ← members v; name ← string_field "name" m; fullName ← string_field "fullName" m;
  version ← string_field "version" m; semantic ← string_field "semanticVersion" m;
  uri ← string_field "informationUri" m; rules ← raws_field "rules" m;
  Some {| dr_Name := name; dr_FullName := fullName; dr_Version := version; dr_SemanticVersion := semantic;
          dr_InformationURI := uri; dr_Rules := rules |}.

Definition decode_details (v : json) : option AutomationDetails :=
  m ← members v; id ← string_field "id" m; guid ← string_field "guid" m;
  correlation ← string_field "correlationGuid" m;
  Some {| ad_ID := id; ad_GUID := guid; ad_CorrelationGUID := correlation |}.

Record wireInvocation := {
  wi_ExecutionSuccessful : option bool; wi_StartTimeUTC : string; wi_EndTimeUTC : string;
  wi_ExitCode : option Z; wi_ExitCodeDescription : string; wi_ProcessStartFailureMessage : string
}.
Definition decode_invocation (v : json) : option wireInvocation :=
  m ← members v; successful ← bool_field "executionSuccessful" m; start ← string_field "startTimeUtc" m;
  end_ ← string_field "endTimeUtc" m; exit ← int_field "exitCode" m;
  description ← string_field "exitCodeDescription" m; failure ← string_field "processStartFailureMessage" m;
  Some {| wi_ExecutionSuccessful := successful; wi_StartTimeUTC := start; wi_EndTimeUTC := end_; wi_ExitCode := exit;
          wi_ExitCodeDescription := description; wi_ProcessStartFailureMessage := failure |}.

Record wireRule := {
  wu_ID : string; wu_Name : string; wu_ShortDescription : option json; wu_FullDescription : option json;
  wu_Help : option json; wu_DefaultConfiguration : option json
}.
Definition decode_rule (v : json) : option wireRule :=
  m ← members v; id ← string_field "id" m; name ← string_field "name" m;
  short ← raw_field "shortDescription" m; full ← raw_field "fullDescription" m; help ← raw_field "help" m;
  configuration ← raw_field "defaultConfiguration" m;
  Some {| wu_ID := id; wu_Name := name; wu_ShortDescription := short; wu_FullDescription := full; wu_Help := help;
          wu_DefaultConfiguration := configuration |}.

Definition decode_configuration (v : json) : option string := m ← members v; string_field "level" m.

Record wireResult := {
  ws_GUID : string; ws_CorrelationGUID : string; ws_RuleID : string; ws_RuleIndex : option Z; ws_Level : string;
  ws_Kind : string; ws_BaselineState : string; ws_Message : option json; ws_Locations : list json;
  ws_Fingerprints : list (string * string); ws_PartialFingerprints : list (string * string)
}.
Definition decode_result (v : json) : option wireResult :=
  m ← members v; guid ← string_field "guid" m; correlation ← string_field "correlationGuid" m;
  rule ← string_field "ruleId" m; ruleIndex ← int_field "ruleIndex" m; level ← string_field "level" m;
  kind ← string_field "kind" m; baseline ← string_field "baselineState" m; message ← raw_field "message" m;
  locations ← raws_field "locations" m; fingerprints ← map_field "fingerprints" m;
  partial ← map_field "partialFingerprints" m;
  Some {| ws_GUID := guid; ws_CorrelationGUID := correlation; ws_RuleID := rule; ws_RuleIndex := ruleIndex;
          ws_Level := level; ws_Kind := kind; ws_BaselineState := baseline; ws_Message := message;
          ws_Locations := locations; ws_Fingerprints := fingerprints; ws_PartialFingerprints := partial |}.

Definition decode_message (v : json) : option Message :=
  m ← members v; id ← string_field "id" m; text ← string_field "text" m; markdown ← string_field "markdown" m;
  arguments ← strings_field "arguments" m;
  Some {| m_ID := id; m_Text := text; m_Markdown := markdown; m_Arguments := slice arguments |}.

Definition decode_multiformat (v : json) : option Message :=
  m ← members v; text ← string_field "text" m; markdown ← string_field "markdown" m;
  Some {| m_ID := ""; m_Text := text; m_Markdown := markdown; m_Arguments := [] |}.

Definition decode_location (v : json) : option (option json) := m ← members v; raw_field "physicalLocation" m.

Definition decode_physical (v : json) : option (option json * option json) :=
  m ← members v; artifact ← raw_field "artifactLocation" m; region ← raw_field "region" m; Some (artifact, region).

Record wireArtifactLocation := { wa_URI : string; wa_URIBaseID : string; wa_Index : option Z }.
Definition decode_artifact (v : json) : option wireArtifactLocation :=
  m ← members v; uri ← string_field "uri" m; base ← string_field "uriBaseId" m; index ← int_field "index" m;
  Some {| wa_URI := uri; wa_URIBaseID := base; wa_Index := index |}.

Definition decode_region (v : json) : option Region :=
  m ← members v; startLine ← int_field "startLine" m; startColumn ← int_field "startColumn" m;
  endLine ← int_field "endLine" m; endColumn ← int_field "endColumn" m;
  Some {| StartLine := startLine; StartColumn := startColumn; EndLine := endLine; EndColumn := endColumn |}.

Definition below (bound : Z) (value : option Z) : bool :=
  match value with Some v => v <? bound | None => false end.

Definition validRegion (r : Region) : bool :=
  if existsb (below 1) [StartLine r; StartColumn r; EndLine r; EndColumn r] then false
  else match StartLine r, EndLine r with
  | Some startLine, Some endLine =>
      if endLine <? startLine then false
      else if startLine =? endLine then
        match StartColumn r, EndColumn r with
        | Some startColumn, Some endColumn => negb (endColumn <? startColumn)
        | _, _ => true
        end
      else true
  | _, _ => true
  end.

(** ** The descent *)

Section Parse.
Context (ctx : nat -> Blobstore.ctx_state) (limits : Limits).

(** The look at the context before each run. *)
Definition poll : parser unit := fun st =>
  match contextError (ctx (looks st)) with
  | Ok _ => Ok (tt, {| warnings := warnings st; warningsTruncated := warningsTruncated st; looks := S (looks st) |})
  | Err e => Err e
  end.

(** The names that are not [known], sorted. *)
Definition unsupported (raw : json) (known : list string) : list string :=
  match raw_map raw with
  | Some fields => List.filter (fun name => negb (existsb (String.eqb name) known)) (map fst fields)
  | None => []
  end.

Definition unsupported_warning (path : string) (names : list string) : Warning :=
  let over := MaxUnsupportedFieldsPerWarning limits <? len names in
  {| w_Code := WarningUnsupportedFields; w_Path := path; w_FieldCount := len names;
     w_Fields := if over then take (Z.to_nat (MaxUnsupportedFieldsPerWarning limits)) names else names;
     w_FieldsTruncated := over |}.

Definition recordUnsupported (raw : json) (path : string) (known : list string) : parser unit := fun st =>
  let names := unsupported raw known in
  if bool_decide (names = []) then Ok (tt, st)
  else if MaxWarnings limits <=? len (warnings st)
  then Ok (tt, {| warnings := warnings st; warningsTruncated := true; looks := looks st |})
  else Ok (tt, {| warnings := warnings st ++ [unsupported_warning path names];
                  warningsTruncated := warningsTruncated st; looks := looks st |}).

Definition parseAutomationDetails (raw : json) (path : string) : parser AutomationDetails :=
  wire! details := decode_details raw else path in
  let* _ := recordUnsupported raw path ["id"; "guid"; "correlationGuid"] in
  ret details.

Definition parseInvocation (parentPath : string) (raw : json) (index : Z) : parser Invocation :=
  let path := indexPath parentPath index in
  wire! wire := decode_invocation raw else path in
  wire! successful := wi_ExecutionSuccessful wire else path in
  let* _ := recordUnsupported raw path
              ["executionSuccessful"; "startTimeUtc"; "endTimeUtc"; "exitCode"; "exitCodeDescription";
               "processStartFailureMessage"] in
  ret {| in_Index := index; in_SourcePointer := path; in_ExecutionSuccessful := successful;
         in_StartTimeUTC := wi_StartTimeUTC wire; in_EndTimeUTC := wi_EndTimeUTC wire;
         in_ExitCode := wi_ExitCode wire; in_ExitCodeDescription := wi_ExitCodeDescription wire;
         in_StartFailureMessage := wi_ProcessStartFailureMessage wire |}.

Definition parseOptionalMultiformatMessage (raw : option json) (path : string) : parser (option Message) :=
  match raw with
  | None | Some JNull => ret None
  | Some raw =>
      wire! message := decode_multiformat raw else path in
      need! negb (String.eqb (m_Text message) "") else ErrorInvalidSARIF at path in
      let* _ := recordUnsupported raw path ["text"; "markdown"] in
      ret (Some message)
  end.

(** The level of a rule's default configuration, empty without one. *)
Definition parseConfiguration (raw : option json) (path : string) : parser string :=
  match raw with
  | None | Some JNull => ret ""
  | Some raw =>
      wire! level := decode_configuration raw else path in
      need! String.eqb level "" || validLevel level else ErrorInvalidSARIF at path in
      let* _ := recordUnsupported raw path ["level"] in
      ret level
  end.

Definition parseRule (parentPath : string) (raw : json) (index : Z) : parser Rule :=
  let path := indexPath parentPath index in
  wire! wire := decode_rule raw else path in
  need! negb (String.eqb (TrimSpace (wu_ID wire)) "") else ErrorInvalidSARIF at path in
  let* level := parseConfiguration (wu_DefaultConfiguration wire) (path +:+ "/defaultConfiguration") in
  let* _ := recordUnsupported raw path
              ["id"; "name"; "shortDescription"; "fullDescription"; "help"; "defaultConfiguration"] in
  let* short := parseOptionalMultiformatMessage (wu_ShortDescription wire) (path +:+ "/shortDescription") in
  let* full := parseOptionalMultiformatMessage (wu_FullDescription wire) (path +:+ "/fullDescription") in
  let* help := parseOptionalMultiformatMessage (wu_Help wire) (path +:+ "/help") in
  ret {| ru_Index := index; ru_SourcePointer := path; ru_ID := wu_ID wire; ru_Name := wu_Name wire;
         ru_ShortDescription := short; ru_FullDescription := full; ru_Help := help; ru_DefaultLevel := level |}.

Definition parseMessage (raw : json) (path : string) : parser Message :=
  wire! message := decode_message raw else path in
  need! negb (String.eqb (m_ID message) "" && String.eqb (m_Text message) "") else ErrorInvalidSARIF at path in
  let* _ := recordUnsupported raw path ["id"; "text"; "markdown"; "arguments"] in
  ret message.

(** The artifact of a physical location, when it names one. *)
Definition parseArtifact (raw : option json) (path : string) : parser wireArtifactLocation :=
  match raw with
  | None | Some JNull => ret {| wa_URI := ""; wa_URIBaseID := ""; wa_Index := None |}
  | Some raw =>
      wire! artifact := decode_artifact raw else path in
      need! negb (below 0 (wa_Index artifact)) else ErrorInvalidSARIF at path in
      let* _ := recordUnsupported raw path ["uri"; "uriBaseId"; "index"] in
      ret artifact
  end.

Definition parseRegion (raw : option json) (path : string) : parser (option Region) :=
  match raw with
  | None | Some JNull => ret None
  | Some raw =>
      wire! region := decode_region raw else path in
      need! validRegion region else ErrorInvalidSARIF at path in
      let* _ := recordUnsupported raw path ["startLine"; "startColumn"; "endLine"; "endColumn"] in
      ret (Some region)
  end.

Definition location_of (index : Z) (path : string) (a : wireArtifactLocation) (r : option Region) : Location := {|
  lo_Index := index; lo_SourcePointer := path; lo_URI := wa_URI a; lo_URIBaseID := wa_URIBaseID a;
  lo_ArtifactIndex := wa_Index a; lo_Region := r |}.

Definition parseLocation (parentPath : string) (raw : json) (index : Z) : parser Location :=
  let path := indexPath parentPath index in
  wire! physical := decode_location raw else path in
  let* _ := recordUnsupported raw path ["physicalLocation"] in
  match physical with
  | None | Some JNull => ret (location_of index path {| wa_URI := ""; wa_URIBaseID := ""; wa_Index := None |} None)
  | Some raw =>
      let physicalPath := path +:+ "/physicalLocation" in
      wire! parts := decode_physical raw else physicalPath in
      let* _ := recordUnsupported raw physicalPath ["artifactLocation"; "region"] in
      let* artifact := parseArtifact (fst parts) (physicalPath +:+ "/artifactLocation") in
      let* region := parseRegion (snd parts) (physicalPath +:+ "/region") in
      ret (location_of index path artifact region)
  end.

Definition parseResult (parentPath : string) (raw : json) (index : Z) : parser Result :=
  let path := indexPath parentPath index in
  wire! wire := decode_result raw else path in
  wire! rawMessage := ws_Message wire else path in
  need! negb (below 0 (ws_RuleIndex wire)) else ErrorInvalidSARIF at path +:+ "/ruleIndex" in
  need! String.eqb (ws_Level wire) "" || validLevel (ws_Level wire)
    else ErrorInvalidSARIF at path +:+ "/level" in
  need! String.eqb (ws_Kind wire) "" || validKind (ws_Kind wire) else ErrorInvalidSARIF at path +:+ "/kind" in
  need! String.eqb (ws_BaselineState wire) "" || validBaselineState (ws_BaselineState wire)
    else ErrorInvalidSARIF at path +:+ "/baselineState" in
  need! len (ws_Locations wire) <=? MaxLocationsPerResult limits
    else ErrorLimitExceeded at path +:+ "/locations" in
  need! len (ws_Fingerprints wire) + len (ws_PartialFingerprints wire) <=? MaxFingerprintsPerResult limits
    else ErrorLimitExceeded at path +:+ "/fingerprints" in
  let* _ := recordUnsupported raw path
              ["guid"; "correlationGuid"; "ruleId"; "ruleIndex"; "level"; "kind"; "baselineState"; "message";
               "locations"; "fingerprints"; "partialFingerprints"] in
  let* message := parseMessage rawMessage (path +:+ "/message") in
  let* locations := parse_each (parseLocation (path +:+ "/locations")) 0 (ws_Locations wire) in
  ret {| re_Index := index; re_SourcePointer := path; re_GUID := ws_GUID wire;
         re_CorrelationGUID := ws_CorrelationGUID wire; re_RuleID := ws_RuleID wire;
         re_RuleIndex := ws_RuleIndex wire; re_Level := ws_Level wire; re_Kind := ws_Kind wire;
         re_BaselineState := ws_BaselineState wire; re_Message := message; re_Locations := locations;
         re_Fingerprints := namedValues (ws_Fingerprints wire);
         re_PartialFingerprints := namedValues (ws_PartialFingerprints wire) |}.

(** The tool of a run and its rules. *)
Definition parseDriver (raw : json) (path : string) : parser wireDriver :=
  wire! driver := decode_driver raw else path +:+ "/name" in
  need! negb (String.eqb (TrimSpace (dr_Name driver)) "") else ErrorInvalidSARIF at path +:+ "/name" in
  need! len (dr_Rules driver) <=? MaxRulesPerRun limits else ErrorLimitExceeded at path +:+ "/rules" in
  let* _ := recordUnsupported raw path
              ["name"; "fullName"; "version"; "semanticVersion"; "informationUri"; "rules"] in
  ret driver.

Definition tool_of (driver : wireDriver) : Tool := {|
  t_Name := dr_Name driver; t_FullName := dr_FullName driver; t_Version := dr_Version driver;
  t_SemanticVersion := dr_SemanticVersion driver; t_InformationURI := dr_InformationURI driver |}.

Definition parseDetails (raw : option json) (path : string) : parser (option AutomationDetails) :=
  match raw with
  | None | Some JNull => ret None
  | Some raw => let* details := parseAutomationDetails raw path in ret (Some details)
  end.

Definition parseRun (raw : json) (index : Z) : parser Run :=
  let path := indexPath "/runs" index in
  wire! wire := decode_run raw else path in
  wire! rawTool := wr_Tool wire else path in
  need! len (wr_Invocations wire) <=? MaxInvocationsPerRun limits
    else ErrorLimitExceeded at path +:+ "/invocations" in
  need! len (wr_Results wire) <=? MaxResultsPerRun limits else ErrorLimitExceeded at path +:+ "/results" in
  let* _ := recordUnsupported raw path ["tool"; "automationDetails"; "invocations"; "results"] in
  wire! optionalDriver := decode_tool rawTool else path +:+ "/tool" in
  wire! rawDriver := optionalDriver else path +:+ "/tool" in
  let* _ := recordUnsupported rawTool (path +:+ "/tool") ["driver"] in
  let* driver := parseDriver rawDriver (path +:+ "/tool/driver") in
  let* details := parseDetails (wr_AutomationDetails wire) (path +:+ "/automationDetails") in
  let* rules := parse_each (parseRule (path +:+ "/tool/driver/rules")) 0 (dr_Rules driver) in
  let* invocations := parse_each (parseInvocation (path +:+ "/invocations")) 0 (wr_Invocations wire) in
  let* results := parse_each (parseResult (path +:+ "/results")) 0 (wr_Results wire) in
  ret {| r_Index := index; r_SourcePointer := path; r_Tool := tool_of driver; r_AutomationDetails := details;
         r_Invocations := invocations; r_Rules := rules; r_Results := results |}.

Definition has_member (name : string) (fields : list (string * json)) : bool :=
  existsb (fun kv => String.eqb (fst kv) name) fields.

(** The document without its warnings, which the caller adds. *)
Definition parseDocument (data : string) : parser Document :=
  wire! root := decode_text data else "" in
  wire! fields := raw_map root else "" in
  wire! wire := decode_document root else "" in
  need! has_member "version" fields && negb (String.eqb (wd_Version wire) "") else ErrorInvalidSARIF at "/version" in
  need! String.eqb (wd_Version wire) FormatVersion else ErrorUnsupportedVersion at "/version" in
  need! has_member "runs" fields else ErrorInvalidSARIF at "/runs" in
  need! len (wd_Runs wire) <=? MaxRuns limits else ErrorLimitExceeded at "/runs" in
  let* _ := recordUnsupported root "" ["$schema"; "version"; "runs"] in
  let* runs := parse_each (fun raw index => let* _ := poll in parseRun raw index) 0 (wd_Runs wire) in
  ret {| d_Format := Format; d_FormatVersion := FormatVersion; d_SchemaURI := wd_Schema wire;
         d_Parser := {| pa_Name := Format; pa_Version := ParserVersion |};
         d_Runs := runs; d_Warnings := []; d_WarningsTruncated := false |}.

Definition with_warnings (d : Document) (st : parseState) : Document := {|
  d_Format := d_Format d; d_FormatVersion := d_FormatVersion d; d_SchemaURI := d_SchemaURI d;
  d_Parser := d_Parser d; d_Runs := d_Runs d; d_Warnings := warnings st;
  d_WarningsTruncated := warningsTruncated st |}.

(** [Parse] once the data have been read; [k] looks at the context so far. *)
Definition parseData (data : string) (k : nat) : result ParseError Document :=
  guard! slen data <=? MaxBytes limits else newParseError ErrorInputTooLarge "" in
  guard! ValidString data else newParseError ErrorInvalidEncoding "" in
  try! r := validateJSON ctx limits data k in
  guard! bool_decide (fst r = jsonObject) else newParseError ErrorInvalidSARIF "" in
  try! r := parseDocument data {| warnings := []; warningsTruncated := false; looks := snd r |} in
  Ok (with_warnings (fst r) (snd r)).
End Parse.

(** [Parse] of a reader; a nil parser, context or source is [None].  The
    answer and the source afterwards; [None] when the buffers run out. *)
Definition Parse {St} (read : Z -> St -> string * option Blobstore.error * St) (bufs : list Z)
  (parser : option Limits) (context : option (nat -> Blobstore.ctx_state)) (source : option St)
  : option (result ParseError Document * option St) :=
  match parser, source with
  | Some limits, Some s =>
      match context with
      | None => Some (Err (newParseError ErrorInvalidConfiguration ""), source)
      | Some ctx =>
          match contextError (ctx 0%nat) with
          | Err e => Some (Err e, source)
          | Ok _ =>
              match ReadAll read ctx bufs (MaxBytes limits + 1, (1%nat, s)) "" with
              | None => None
              | Some (data, Some _, (_, (k, s))) =>
                  Some (try! _ := contextError (ctx k) in Err (newParseError ErrorInputRead ""), Some s)
              | Some (data, None, (_, (k, s))) => Some (parseData ctx limits data k, Some s)
              end
          end
      end
  | _, _ => Some (Err (newParseError ErrorInvalidConfiguration ""), source)
  end.
End Sarif.
