(* ===== verification/SarifValidate.v ===== *)
(** * The streaming check accepts exactly the reports within the limits

    [conforms] says what the limits mean for a JSON value; the theorem is that
    the check of parser.go, which works on the stream of tokens, accepts a
    text iff the text is one JSON value that conforms. *)

From S2P Require Import Prelude GoStrings Encoding Json JsonFacts JsonTokens Unmarshal Blobstore Sarif.
From Stdlib Require Import Ascii.

Local Open Scope Z_scope.

Module SarifValidate.
Import Sarif.

Definition kind_of (v : json) : jsonKind :=
  match v with JObj _ => jsonObject | JArr _ => jsonArray | _ => jsonScalar end.

Section Limits.
Variable limits : Limits.

(** A value inside [depth] containers respects the limits, and no object has a
    key twice. *)
Fixpoint conforms (depth : Z) (v : json) : bool :=
  match v with
  | JStr s => slen s <=? MaxStringBytes limits
  | JArr l => (depth + 1 <=? MaxJSONDepth limits) && (len l <=? MaxArrayElements limits) &&
              forallb (conforms (depth + 1)) l
  | JObj l => (depth + 1 <=? MaxJSONDepth limits) && (len l <=? MaxObjectMembers limits) &&
              bool_decide (NoDup (map fst l)) &&
              forallb (fun kv => (slen (fst kv) <=? MaxStringBytes limits) && conforms (depth + 1) (snd kv)) l
  | _ => true
  end.

Definition conforming (depth : Z) (kv : string * json) : bool :=
  (slen (fst kv) <=? MaxStringBytes limits) && conforms depth (snd kv).

Lemma conforms_nesting v : forall depth, conforms depth v = true -> depth <= MaxJSONDepth limits ->
  depth + nesting v <= MaxJSONDepth limits.
Proof.
  induction v as [|b|n|s|l IH|l IH] using json_nested_ind; intros depth H Hd; cbn [conforms nesting] in *; try lia; simp_bool.
  - assert (foldr Z.max 0 (map nesting l) <= MaxJSONDepth limits - (depth + 1)); [|lia].
    rewrite forallb_forall in *. induction IH as [|v l Hv _ IHl]; [simpl; lia|]. cbn [map foldr].
    assert (depth + 1 + nesting v <= MaxJSONDepth limits) by (apply Hv; [match goal with H : forall x, In x _ -> _ |- _ => apply H; by left end|lia]).
    assert (foldr Z.max 0 (map nesting l) <= MaxJSONDepth limits - (depth + 1)); [|lia].
    apply IHl; [unfold len in *; simpl in *; lia|]. intros x Hx. match goal with H : forall x, In x _ -> _ |- _ => apply H; by right end.
  - assert (foldr Z.max 0 (map (fun kv => nesting (snd kv)) l) <= MaxJSONDepth limits - (depth + 1)); [|lia].
    match goal with H : forallb _ l = true |- _ => rewrite forallb_forall in H; rename H into Hall end. clear -IH Hall H.
    induction IH as [|kv l Hv _ IHl]; [simpl; lia|]. cbn [map foldr].
    assert (depth + 1 + nesting (snd kv) <= MaxJSONDepth limits).
    { apply Hv; [|lia]. specialize (Hall kv (or_introl eq_refl)). by simp_bool. }
    assert (foldr Z.max 0 (map (fun kv => nesting (snd kv)) l) <= MaxJSONDepth limits - (depth + 1)); [|lia].
    apply IHl. intros x Hx. apply Hall. by right.
Qed.

(** ** What is accepted conforms *)

Section Check.
Variable ctx : nat -> Blobstore.ctx_state.
Notation value := (validateJSONValue ctx limits).
Notation values := (validateElements ctx limits).
Notation entries := (validateMembers ctx limits).

(** One step of each loop. *)
Lemma value_step fuel depth d k : value (S fuel) depth d k =
  try! _ := contextError (ctx k) in
  match Token d with
  | Token_EOF | Token_error => malformed
  | Token_ok TScalar d => Ok (jsonScalar, d, S k)
  | Token_ok (TString value) d => if MaxStringBytes limits <? slen value then exceeded else Ok (jsonScalar, d, S k)
  | Token_ok (Delim c) d =>
      if negb (is_byte 123 c) && negb (is_byte 91 c) then malformed
      else if MaxJSONDepth limits <? depth + 1 then exceeded
      else if is_byte 123 c then entries fuel (depth + 1) [] 0 d (S k)
      else values fuel (depth + 1) 0 d (S k)
  end.
Proof. reflexivity. Qed.

Lemma values_step fuel depth count d k : values (S fuel) depth count d k =
  if negb (More d) then closing 93 jsonArray d k
  else if MaxArrayElements limits <? count + 1 then exceeded
  else try! r := value fuel depth d k in values fuel depth (count + 1) (snd (fst r)) (snd r).
Proof. reflexivity. Qed.

Lemma entries_step fuel depth seen count d k : entries (S fuel) depth seen count d k =
  if negb (More d) then closing 125 jsonObject d k
  else
    try! _ := contextError (ctx k) in
    match Token d with
    | Token_EOF | Token_error => malformed
    | Token_ok (TString key) d =>
        if MaxStringBytes limits <? slen key then exceeded
        else if MaxObjectMembers limits <? count + 1 then exceeded
        else if existsb (String.eqb key) seen then malformed
        else try! r := value fuel depth d (S k) in entries fuel depth (key :: seen) (count + 1) (snd (fst r)) (snd r)
    | Token_ok _ _ => exceeded
    end.
Proof. reflexivity. Qed.

(** The check depends on the decoder only through its next token. *)
Lemma value_token fuel depth d d' k : Token d = Token d' -> value fuel depth d k = value fuel depth d' k.
Proof. intros E. destruct fuel; [done|]. by rewrite !value_step, E. Qed.

(** What follows an element or a member. *)
Definition more_elements (u : string) (l : list json) (r : string) : Prop :=
  (l = [] /\ exists c, skip_ws u = String c r /\ is_byte 93 c = true) \/
  (exists c t, skip_ws u = String c t /\ is_byte 44 c = true /\ reads_elements t l r).
Definition more_members (u : string) (l : list (string * json)) (r : string) : Prop :=
  (l = [] /\ exists c, skip_ws u = String c r /\ is_byte 125 c = true) \/
  (exists c t, skip_ws u = String c t /\ is_byte 44 c = true /\ reads_members t l r).

Lemma reads_elements_cons s v r l r' : reads_value s v r -> more_elements r l r' -> reads_elements s (v :: l) r'.
Proof. intros Hv [[-> (c & E & Hc)]|(c & t & E & Hc & Hl)]; [by eapply reads_last_element|by eapply reads_element]. Qed.

Lemma reads_members_cons s kv r l r' : reads_member s kv r -> more_members r l r' -> reads_members s (kv :: l) r'.
Proof. intros Hv [[-> (c & E & Hc)]|(c & t & E & Hc & Hl)]; [by eapply reads_last_member|by eapply reads_more_members]. Qed.

Lemma closing_inv bracket kind u s s' stack k out : bracket = 93 \/ bracket = 125 ->
  More (Decoder u s (s' :: stack)) = false -> closing bracket kind (Decoder u s (s' :: stack)) k = Ok out ->
  exists c t, skip_ws u = String c t /\ is_byte bracket c = true /\
    out = (kind, Decoder t (tokenValueEnd s') stack, k).
Proof.
  intros Hb Hm. unfold closing. destruct (Token _) as [[c| |] d| |] eqn:E; try done.
  destruct (is_byte bracket c) eqn:Hc; [|done]. intros [= <-].
  destruct (Token_close_inv _ _ _ _ _ _ _ Hb Hm E Hc) as (t & Et & ->). eauto 10.
Qed.

Definition value_sound (fuel : nat) : Prop := forall depth u st stack k out,
  tokenValueAllowed st = true -> value fuel depth (Decoder u st stack) k = Ok out ->
  exists v r, reads_value u v r /\ conforms depth v = true /\ fst out = (kind_of v, Decoder r (tokenValueEnd st) stack).

Lemma value_sound_start fuel depth u stack k out : value_sound fuel ->
  value fuel depth (Decoder u tokenArrayComma stack) k = Ok out -> More (Decoder u tokenArrayComma stack) = true ->
  exists c t v r, skip_ws u = String c t /\ is_byte 44 c = true /\ reads_value t v r /\ conforms depth v = true /\
    fst out = (kind_of v, Decoder r tokenArrayComma stack).
Proof.
  intros IH H Hm. destruct fuel as [|fuel]; [done|]. pose proof H as H0. rewrite value_step in H0.
  destruct (contextError (ctx k)); [|done]. cbn [rbind] in H0.
  destruct (Token (Decoder u tokenArrayComma stack)) as [tok d| |] eqn:E; try done.
  pose proof (Token_needs_separator tokenArrayComma 44 tokenArrayValue _ _ _ _ eq_refl E) as [(c & t & Et & Hc & E')|(c & -> & Hc)].
  - rewrite (value_token _ _ _ (Decoder t tokenArrayValue stack)) in H by congruence.
    apply IH in H as (v & r & Hv & Hf & Ho); [|done]. exists c, t, v, r. done.
  - exfalso. clear -H0 Hc. revert H0. rewrite (proj2 (negb_true_iff (is_byte 123 c))), (proj2 (negb_true_iff (is_byte 91 c))); [done|..];
      apply orb_true_iff in Hc as [Hc|Hc]; by apply (byte_differs _ _ _ Hc).
Qed.

(** The loop over the elements, at the start of an array and after an
    element. *)
Definition elements_from (start : bool) (u : string) (l : list json) (r : string) : Prop :=
  if start then (l = [] /\ exists c, skip_ws u = String c r /\ is_byte 93 c = true) \/ reads_elements u l r
  else more_elements u l r.
Definition array_state (start : bool) : token_state := if start then tokenArrayStart else tokenArrayComma.

Definition elements_sound (fuel : nat) : Prop := forall start depth count u s' stack k out,
  values fuel depth count (Decoder u (array_state start) (s' :: stack)) k = Ok out -> count <= MaxArrayElements limits ->
  exists l r, elements_from start u l r /\ forallb (conforms depth) l = true /\
    count + len l <= MaxArrayElements limits /\ fst out = (jsonArray, Decoder r (tokenValueEnd s') stack).

Lemma elements_step fuel : value_sound fuel -> elements_sound fuel -> elements_sound (S fuel).
Proof.
  intros IHv IHe start depth count u s' stack k out H Hle. rewrite values_step in H.
  destruct (More _) eqn:Hm; cbn [negb] in H.
  - destruct (Z.ltb_spec (MaxArrayElements limits) (count + 1)); [done|].
    destruct (value fuel depth _ k) as [[[kind d] k']|] eqn:Ev; [|done]. cbn [rbind fst snd] in H.
    assert (exists v r, conforms depth v = true /\ d = Decoder r tokenArrayComma (s' :: stack) /\
      forall l r', more_elements r l r' -> elements_from start u (v :: l) r') as (v & r & Hv & -> & Hcons).
    { destruct start.
      - apply IHv in Ev as (v & r & Hr & Hc & Ho); [|done]. injection Ho as _ ->. exists v, r. split_and!; try done.
        intros l r' Hl. right. by eapply reads_elements_cons.
      - apply value_sound_start in Ev as (c & t & v & r & Et & Hc & Hr & Hcf & Ho); try done. injection Ho as _ ->.
        exists v, r. split_and!; try done. intros l r' Hl. right. exists c, t. split_and!; try done. by eapply reads_elements_cons. }
    apply (IHe false) in H as (l & r' & Hl & Hcf & Hn & Ho); [|lia]. exists (v :: l), r'. split_and!; try done.
    + by apply Hcons.
    + simpl. by rewrite Hv, Hcf.
    + unfold len in *. simpl. lia.
  - apply closing_inv in H as (c & t & Et & Hc & ->); [|by left|done]. exists [], t. split_and!; try done.
    + destruct start; left; eauto.
    + unfold len. simpl. lia.
Qed.

(** The loop over the members. *)
Definition members_from (start : bool) (u : string) (l : list (string * json)) (r : string) : Prop :=
  if start then (l = [] /\ exists c, skip_ws u = String c r /\ is_byte 125 c = true) \/ reads_members u l r
  else more_members u l r.
Definition object_state (start : bool) : token_state := if start then tokenObjectStart else tokenObjectComma.

Definition members_sound (fuel : nat) : Prop := forall start depth seen count u s' stack k out,
  entries fuel depth seen count (Decoder u (object_state start) (s' :: stack)) k = Ok out ->
  count <= MaxObjectMembers limits ->
  exists l r, members_from start u l r /\ forallb (conforming depth) l = true /\
    count + len l <= MaxObjectMembers limits /\ NoDup (map fst l) /\ (forall x, In x (map fst l) -> ~ In x seen) /\
    fst out = (jsonObject, Decoder r (tokenValueEnd s') stack).

(** A key, its colon and its value. *)
Lemma member_sound fuel depth u s stack key d k out : value_sound fuel -> at_key s = true ->
  Token (Decoder u s stack) = Token_ok (TString key) d -> value fuel depth d k = Ok out ->
  exists v r, reads_member u (key, v) r /\ conforms depth v = true /\
    fst out = (kind_of v, Decoder r tokenObjectComma stack).
Proof.
  intros IH Hs Ek Hv. apply Token_key_inv in Ek as (q & t & r & Et & Hq & Hp & ->); [|done].
  destruct fuel as [|fuel]; [done|]. pose proof Hv as H0. rewrite value_step in H0.
  destruct (contextError (ctx k)); [|done]. cbn [rbind] in H0.
  destruct (Token (Decoder r tokenObjectColon stack)) as [tok d| |] eqn:E; try done.
  pose proof (Token_needs_separator tokenObjectColon 58 tokenObjectValue _ _ _ _ eq_refl E)
    as [(c & t' & Et' & Hc & E')|(c & -> & Hc)].
  - rewrite (value_token _ _ _ (Decoder t' tokenObjectValue stack)) in Hv by congruence.
    apply IH in Hv as (v & r' & Hr & Hf & Ho); [|done]. exists v, r'. split_and!; try done. by econstructor.
  - exfalso. revert H0. rewrite (proj2 (negb_true_iff (is_byte 123 c))), (proj2 (negb_true_iff (is_byte 91 c))); [done|..];
      apply orb_true_iff in Hc as [Hc|Hc]; by apply (byte_differs _ _ _ Hc).
Qed.

Lemma members_step fuel : value_sound fuel -> members_sound fuel -> members_sound (S fuel).
Proof.
  intros IHv IHm start depth seen count u s' stack k out H Hle. rewrite entries_step in H.
  destruct (More _) eqn:Hm; cbn [negb] in H.
  - destruct (contextError (ctx k)); [|done]. cbn [rbind] in H.
    destruct (Token _) as [[c|key|] d| |] eqn:Ek; try done.
    destruct (Z.ltb_spec (MaxStringBytes limits) (slen key)); [done|].
    destruct (Z.ltb_spec (MaxObjectMembers limits) (count + 1)); [done|].
    destruct (existsb (String.eqb key) seen) eqn:Hs; [done|].
    destruct (value fuel depth d (S k)) as [[[kind d'] k']|] eqn:Ev; [|done]. cbn [rbind fst snd] in H.
    assert (exists v r, conforms depth v = true /\ d' = Decoder r tokenObjectComma (s' :: stack) /\
      forall l r', more_members r l r' -> members_from start u ((key, v) :: l) r') as (v & r & Hv & -> & Hcons).
    { destruct start.
      - destruct (member_sound _ _ _ tokenObjectStart _ _ _ _ _ IHv eq_refl Ek Ev) as (v & r & Hr & Hc & Ho). injection Ho as _ ->. exists v, r. split_and!; try done.
        intros l r' Hl. right. by eapply reads_members_cons.
      - apply (Token_needs_separator tokenObjectComma 44 tokenObjectKey) in Ek as [(c & t & Et & Hc & Ek)|(c & ? & _)]; try done.
        destruct (member_sound _ _ _ tokenObjectKey _ _ _ _ _ IHv eq_refl Ek Ev) as (v & r & Hr & Hcf & Ho). injection Ho as _ ->. exists v, r. split_and!; try done.
        intros l r' Hl. right. exists c, t. split_and!; try done. by eapply reads_members_cons. }
    apply (IHm false) in H as (l & r' & Hl & Hcf & Hn & Hnd & Hfresh & Ho); [|lia]. exists ((key, v) :: l), r'.
    split_and!; try done.
    + by apply Hcons.
    + cbn [forallb]. rewrite Hcf. unfold conforming. cbn [fst snd]. rewrite Hv. by rewrite (proj2 (Z.leb_le _ _)) by lia.
    + unfold len in *. simpl. lia.
    + simpl. constructor; [|done]. rewrite list_elem_of_In. intros Hin. by apply Hfresh in Hin; destruct Hin; left.
    + simpl. intros x [<-|Hx]; [|intros Hin; apply (Hfresh x Hx); by right]. intros Hin.
      apply not_true_iff_false in Hs. apply Hs, existsb_exists. exists key. by rewrite String.eqb_refl.
  - apply closing_inv in H as (c & t & Et & Hc & ->); [|by right|done]. exists [], t. split_and!; try done.
    + destruct start; left; eauto.
    + unfold len. simpl. lia.
    + constructor.
Qed.

Lemma value_sound_step fuel : elements_sound fuel -> members_sound fuel -> 0 <= MaxArrayElements limits ->
  0 <= MaxObjectMembers limits -> value_sound (S fuel).
Proof.
  intros IHe IHm Ha Ho depth u st stack k out Hst H. rewrite value_step in H.
  destruct (contextError (ctx k)); [|done]. cbn [rbind] in H. destruct (Token _) as [tok d| |] eqn:E; try done.
  apply Token_value_cases in E as [(c & t & Et & Hc & -> & ->)|[(c & t & v & r & Et & H1 & H2 & Hd & -> & ->)|(c & -> & H1 & H2)]];
    [| |by rewrite H1, H2 in H|done].
  - destruct (is_byte 123 c) eqn:H123.
    + rewrite (byte_differs 123 91 c) in H by done. cbn [negb andb] in H.
      destruct (Z.ltb_spec (MaxJSONDepth limits) (depth + 1)); [done|].
      apply (IHm true) in H as (l & r & Hl & Hcf & Hn & Hnd & _ & Hout); [|done]. exists (JObj l), r. split_and!.
      * destruct Hl as [[-> (b & Eb & Hb)]|Hl]; [by eapply reads_empty_object|by eapply reads_object].
      * cbn [conforms]. rewrite (proj2 (Z.leb_le _ _)), (proj2 (Z.leb_le (len l) _)), bool_decide_eq_true_2 by (done || lia). done.
      * done.
    + rewrite orb_false_r in Hc. rewrite Hc in H. cbn [negb andb] in H.
      destruct (Z.ltb_spec (MaxJSONDepth limits) (depth + 1)); [done|].
      apply (IHe true) in H as (l & r & Hl & Hcf & Hn & Hout); [|done]. exists (JArr l), r. split_and!.
      * destruct Hl as [[-> (b & Eb & Hb)]|Hl]; [by eapply reads_empty_array|by eapply reads_array].
      * cbn [conforms]. rewrite (proj2 (Z.leb_le _ _)), (proj2 (Z.leb_le (len l) _)) by (done || lia). done.
      * done.
  - destruct (decode_scalar_spec _ _ _ _ (skip_ws_head _ _ _ Et) H1 H2 Hd) as [_ Hs].
    assert (reads_value u v r) by by eapply reads_scalar. exists v, r. revert H. destruct v; try done; cbn [scalar_token].
    + by intros [= <-].
    + by intros [= <-].
    + by intros [= <-].
    + destruct (Z.ltb_spec (MaxStringBytes limits) (slen s)); [done|]. intros [= <-]. split_and!; try done. by apply Z.leb_le.
Qed.

Lemma check_sound fuel : 0 <= MaxArrayElements limits -> 0 <= MaxObjectMembers limits ->
  value_sound fuel /\ elements_sound fuel /\ members_sound fuel.
Proof.
  intros Ha Ho. induction fuel as [|fuel (IHv & IHe & IHm)]; [by split_and!|].
  split_and!; [by apply value_sound_step|by apply elements_step|by apply members_step].
Qed.

(** ** What conforms is accepted *)

Hypothesis live : forall k, ctx k = Blobstore.Live.

Lemma closing_ok bracket kind u s s' stack k c t : closable bracket s = true -> skip_ws u = String c t ->
  is_byte bracket c = true -> closing bracket kind (Decoder u s (s' :: stack)) k = Ok (kind, Decoder t (tokenValueEnd s') stack, k).
Proof. intros Hs E Hb. unfold closing. by rewrite (Token_close bracket _ _ _ _ c t), Hb. Qed.

Lemma live_look k : contextError (ctx k) = Ok tt.
Proof using live. by rewrite live. Qed.

Lemma not_listed (key : string) seen : ~ In key seen -> existsb (String.eqb key) seen = false.
Proof.
  intros H. apply not_true_iff_false. intros (x & Hx & ->%String.eqb_eq)%existsb_exists. done.
Qed.

(** Reading with the stream of tokens gives what the grammar gives. *)
Lemma check_complete :
  (forall u v r, reads_value u v r -> forall fuel depth st stack k, conforms depth v = true ->
     tokenValueAllowed st = true -> (2 * String.length u <= fuel)%nat ->
     exists k', value fuel depth (Decoder u st stack) k = Ok (kind_of v, Decoder r (tokenValueEnd st) stack, k')) /\
  (forall u l r, reads_elements u l r -> forall fuel depth count d s s' stack k, forallb (conforms depth) l = true ->
     count + len l <= MaxArrayElements limits -> More d = true ->
     s = tokenArrayStart \/ s = tokenArrayValue -> Token d = Token (Decoder u s (s' :: stack)) ->
     (2 * String.length u + 1 <= fuel)%nat ->
     exists k', values fuel depth count d k = Ok (jsonArray, Decoder r (tokenValueEnd s') stack, k')) /\
  (forall u l r, reads_members u l r -> forall fuel depth seen count d s s' stack k,
     forallb (conforming depth) l = true -> count + len l <= MaxObjectMembers limits -> NoDup (map fst l) ->
     (forall x, In x (map fst l) -> ~ In x seen) -> More d = true -> at_key s = true ->
     Token d = Token (Decoder u s (s' :: stack)) -> (2 * String.length u + 1 <= fuel)%nat ->
     exists k', entries fuel depth seen count d k = Ok (jsonObject, Decoder r (tokenValueEnd s') stack, k')) /\
  (forall u kv r, reads_member u kv r -> forall s stack, at_key s = true ->
     exists s3, Token (Decoder u s stack) = Token_ok (TString (fst kv)) (Decoder s3 tokenObjectColon stack) /\
       (String.length s3 < String.length u)%nat /\ forall fuel depth k, conforms depth (snd kv) = true ->
       (2 * String.length s3 <= fuel)%nat -> exists k', value fuel depth (Decoder s3 tokenObjectColon stack) k
         = Ok (kind_of (snd kv), Decoder r tokenObjectComma stack, k')).
Proof using live.
  apply reads_ind.
  - intros u c t v r E H1 H2 Hd fuel depth st stack k Hc Hst Hf. pose proof (skip_ws_shorter _ _ _ E). destruct fuel as [|fuel]; [lia|].
    rewrite value_step, live_look. cbn [rbind]. rewrite (Token_scalar u st stack Hst c t v r) by done. exists (S k).
    destruct (decode_scalar_spec _ _ _ _ (skip_ws_head _ _ _ E) H1 H2 Hd) as [_ Hs].
    destruct v; try done. cbn [scalar_token conforms] in *. by rewrite (proj2 (Z.ltb_ge _ _)) by (by apply Z.leb_le).
  - intros u c t b r E H1 Et Hb fuel depth st stack k Hc Hst Hf. apply skip_ws_shorter in E as Hl. apply skip_ws_shorter in Et as Hl'.
    destruct fuel as [|[|fuel]]; [lia..|]. cbn [conforms] in Hc. simp_bool. rewrite value_step, live_look. cbn [rbind].
    rewrite (Token_open u st stack Hst c t), H1, (byte_differs 123 91 c) by (done || by rewrite H1, orb_true_r). cbn [negb andb].
    rewrite (proj2 (Z.ltb_ge _ _)), entries_step, (More_close 125 t _ _ b r) by (done || lia || by right). cbn [negb].
    exists (S k). by rewrite (closing_ok 125 _ _ _ _ _ _ b r).
  - intros u c t l r E H1 Hl IH fuel depth st stack k Hc Hst Hf. apply skip_ws_shorter in E as Hlt. destruct fuel as [|fuel]; [lia|].
    cbn [conforms] in Hc. simp_bool. rewrite value_step, live_look. cbn [rbind].
    rewrite (Token_open u st stack Hst c t), H1, (byte_differs 123 91 c) by (done || by rewrite H1, orb_true_r). cbn [negb andb].
    rewrite (proj2 (Z.ltb_ge _ _)) by lia. destruct (members_lead _ _ _ Hl) as (q & t' & Eq & Hq).
    apply (IH fuel (depth + 1) [] 0 _ tokenObjectStart); try done; try lia.
    + by intros ? _ [].
    + eapply More_leads; [exact Eq|by eapply byte_differs..].
  - intros u c t b r E H1 Et Hb fuel depth st stack k Hc Hst Hf. apply skip_ws_shorter in E as Hl. apply skip_ws_shorter in Et as Hl'.
    destruct fuel as [|[|fuel]]; [lia..|]. cbn [conforms] in Hc. simp_bool. rewrite value_step, live_look. cbn [rbind].
    rewrite (Token_open u st stack Hst c t), H1, (byte_differs 91 123 c) by (done || by rewrite H1). cbn [negb andb].
    rewrite (proj2 (Z.ltb_ge _ _)), values_step, (More_close 93 t _ _ b r) by (done || lia || by left). cbn [negb].
    exists (S k). by rewrite (closing_ok 93 _ _ _ _ _ _ b r).
  - intros u c t l r E H1 Hl IH fuel depth st stack k Hc Hst Hf. apply skip_ws_shorter in E as Hlt. destruct fuel as [|fuel]; [lia|].
    cbn [conforms] in Hc. simp_bool. rewrite value_step, live_look. cbn [rbind].
    rewrite (Token_open u st stack Hst c t), H1, (byte_differs 91 123 c) by (done || by rewrite H1). cbn [negb andb].
    rewrite (proj2 (Z.ltb_ge _ _)) by lia. destruct (elements_lead _ _ _ Hl) as (q & t' & Eq & Hq).
    apply leads_not_close in Hq as [Hq1 Hq2].
    apply (IH fuel (depth + 1) 0 _ tokenArrayStart); try done; try lia; [by eapply More_leads|by left].
  - intros u v r c r' Hv IH E Hc fuel depth count d s s' stack k Hcf Hn Hm Hs HT Hf. destruct fuel as [|[|fuel]]; [lia| |].
    { apply reads_shorter in Hv. lia. }
    cbn [forallb] in Hcf. simp_bool. rewrite values_step, Hm. unfold len in Hn. cbn [length negb] in *.
    rewrite (proj2 (Z.ltb_ge _ _)) by lia. rewrite (value_token _ _ _ _ _ HT).
    destruct (IH (S fuel) depth s (s' :: stack) k) as [k' ->]; [done|by destruct Hs as [-> | ->]|lia|]. cbn [rbind fst snd].
    assert (tokenValueEnd s = tokenArrayComma) as -> by (by destruct Hs as [-> | ->]).
    exists k'. by rewrite values_step, (More_close 93 _ _ _ c r'), (closing_ok 93 _ _ _ _ _ _ c r') by (done || by left).
  - intros u v r c r' l r'' Hv IH E Hc Hl IHl fuel depth count d s s' stack k Hcf Hn Hm Hs HT Hf. destruct fuel as [|fuel]; [lia|].
    cbn [forallb] in Hcf. simp_bool. rewrite values_step, Hm. unfold len in Hn. cbn [length negb] in *.
    rewrite (proj2 (Z.ltb_ge _ _)) by lia. rewrite (value_token _ _ _ _ _ HT). apply reads_shorter in Hv. apply skip_ws_shorter in E as Hlt.
    destruct (IH fuel depth s (s' :: stack) k) as [k' ->]; [done|by destruct Hs as [-> | ->]|lia|]. cbn [rbind fst snd].
    assert (tokenValueEnd s = tokenArrayComma) as -> by (by destruct Hs as [-> | ->]).
    apply (IHl fuel depth (count + 1) _ tokenArrayValue); try done; [unfold len; lia| |by right| |lia].
    + eapply More_leads; [exact E|by eapply byte_differs..].
    + by apply (Token_after tokenArrayComma 44 tokenArrayValue _ c).
  - intros u kv r c r' Hv IH E Hc fuel depth seen count d s s' stack k Hcf Hn Hnd Hfr Hm Hs HT Hf.
    destruct fuel as [|[|fuel]]; [lia| |].
    { apply reads_shorter in Hv. lia. }
    cbn [forallb] in Hcf. unfold conforming in Hcf. simp_bool. rewrite entries_step, Hm, live_look. unfold len in Hn.
    cbn [length negb rbind map] in *. destruct (IH s (s' :: stack) Hs) as (s3 & ET & Hlt & IHv). rewrite HT, ET.
    rewrite !(proj2 (Z.ltb_ge _ _)), not_listed by (lia || by apply Hfr; left).
    destruct (IHv (S fuel) depth (S k)) as [k' ->]; [done|lia|]. cbn [rbind fst snd].
    exists k'. by rewrite entries_step, (More_close 125 _ _ _ c r'), (closing_ok 125 _ _ _ _ _ _ c r') by (done || by right).
  - intros u kv r c r' l r'' Hv IH E Hc Hl IHl fuel depth seen count d s s' stack k Hcf Hn Hnd Hfr Hm Hs HT Hf.
    destruct fuel as [|fuel]; [lia|].
    cbn [forallb] in Hcf. unfold conforming in Hcf at 1. simp_bool. rewrite entries_step, Hm, live_look. unfold len in Hn.
    cbn [length negb rbind map] in *. destruct (IH s (s' :: stack) Hs) as (s3 & ET & Hlt & IHv). rewrite HT, ET.
    apply reads_shorter in Hv. apply skip_ws_shorter in E as Hlt'. apply NoDup_cons in Hnd as [Hnin Hnd].
    rewrite !(proj2 (Z.ltb_ge _ _)), not_listed by (lia || by apply Hfr; left).
    destruct (IHv fuel depth (S k)) as [k' ->]; [done|lia|]. cbn [rbind fst snd].
    apply (IHl fuel depth (fst kv :: seen) (count + 1) _ tokenObjectKey); try done; [unfold len; lia| | | |lia].
    + intros x Hx [<-|Hin]; [by apply Hnin, list_elem_of_In|]. by apply (Hfr x); [right|].
    + eapply More_leads; [exact E|by eapply byte_differs..].
    + by apply (Token_after tokenObjectComma 44 tokenObjectKey _ c).
  - intros u q s1 k0 s2 c s3 v r Es Hq Ek E2 Hc Hv IH s stack Hs. exists s2. cbn [fst snd].
    rewrite (Token_key u s stack q s1 k0 s2) by done. split; [done|]. apply skip_ws_shorter in Es as Hl1, E2 as Hl2.
    apply parse_string_shorter in Ek as Hl3. split; [lia|]. intros fuel depth k Hcf Hf.
    rewrite (value_token _ _ _ (Decoder s3 tokenObjectValue stack)) by by apply (Token_after tokenObjectColon 58 tokenObjectValue _ c).
    apply IH; [done|done|lia].
Qed.
End Check.

Section Accepted.
Hypothesis elements_bound : 0 <= MaxArrayElements limits.
Hypothesis members_bound : 0 <= MaxObjectMembers limits.
Hypothesis depth_bound : 0 <= MaxJSONDepth limits <= max_nesting.

(** A whole text that is accepted, on whatever context. *)
Lemma validate_sound ctx data k kind k' : validateJSON ctx limits data k = Ok (kind, k') ->
  exists v, decode_text data = Some v /\ conforms 0 v = true /\ kind = kind_of v.
Proof using Type*.
  unfold validateJSON, NewDecoder. intros H. destruct (validateJSONValue _ _ _ _ _ _) as [out|] eqn:E; [|done].
  cbn [rbind] in H. apply (proj1 (check_sound ctx _ elements_bound members_bound)) in E as (v & r & Hv & Hc & Hout); [|done].
  destruct out as [o k0]. cbn [fst snd] in *. subst o. cbn [fst snd] in H. exists v.
  pose proof (conforms_nesting v 0 Hc ltac:(lia)).
  destruct (Token _) eqn:Et; try done. apply Token_end in Et. injection H as -> _.
  split_and!; [apply decode_text_iff; [lia|eauto]|done..].
Qed.

Lemma validate_complete ctx data k v : (forall k, ctx k = Blobstore.Live) -> decode_text data = Some v ->
  conforms 0 v = true -> exists k', validateJSON ctx limits data k = Ok (kind_of v, k').
Proof using Type*.
  intros Hlive Hv Hc. unfold validateJSON, NewDecoder. pose proof (conforms_nesting v 0 Hc ltac:(lia)).
  apply decode_text_iff in Hv as (r & Hr & Er); [|lia].
  destruct (proj1 (check_complete ctx Hlive) _ _ _ Hr (2 * String.length data + 2)%nat 0 tokenTopValue [] k Hc eq_refl ltac:(lia))
    as [k' ->].
  cbn [rbind fst snd tokenValueEnd]. exists k'. by rewrite (proj2 (Token_end r) Er).
Qed.
End Accepted.
End Limits.

(** What [New] demands. *)
Lemma New_limits limits l : New limits = Ok l ->
  l = limits /\ 0 < MaxBytes limits /\ 0 <= MaxArrayElements limits /\ 0 <= MaxObjectMembers limits /\
  0 <= MaxJSONDepth limits <= max_nesting /\ 0 <= MaxUnsupportedFieldsPerWarning limits /\ 0 <= MaxWarnings limits.
Proof.
  unfold New. destruct (_ && _) eqn:H; [|done]. intros [= <-]. unfold within in H. simp_bool.
  unfold hardMaxJSONDepth, max_nesting in *. split_and!; (done || lia).
Qed.

(** C14.  The streaming check of a report accepts exactly the texts that are one
    JSON value within the limits in which no object has a key twice, and
    reports what kind of value it is. *)
Theorem validate_exact limits ctx data k kind : New limits = Ok limits -> (forall k, ctx k = Blobstore.Live) ->
  (exists k', validateJSON ctx limits data k = Ok (kind, k')) <->
  (exists v, decode_text data = Some v /\ conforms limits 0 v = true /\ kind = kind_of v).
Proof.
  intros Hn Hlive. apply New_limits in Hn as (_ & _ & Ha & Hm & Hd & _ & _). split.
  - intros [k' H]. by eapply validate_sound.
  - intros (v & Hv & Hc & ->). by apply validate_complete.
Qed.
End SarifValidate.
