(* ===== verification/SarifReading.v ===== *)
(** * Reading a report

    [Parse] reads its source through a limit of one byte more than it accepts.
    On a live context a source that ends within the limit is read completely,
    one that is longer is refused, and one that fails is reported as such or as
    too long, whatever pieces the source hands out and whatever buffers are used. *)

From S2P Require Import Prelude GoStrings Encoding Json Blobstore Streams Sarif.

Local Open Scope Z_scope.

Module SarifReading.
Import Streams Sarif.

Definition live : nat -> Blobstore.ctx_state := fun _ => Blobstore.Live.

Lemma reads_positive s : (1 <= reads s)%nat.
Proof. unfold reads. induction (chunks s); simpl; lia. Qed.

(** How a stream ends for [io.ReadAll]. *)
Definition end_error (s : stream) : option Blobstore.error :=
  if Blobstore.is_EOF (Some (ending s)) then None else Some (ending s).

(** Reading on with room for [remaining] bytes: all of a shorter stream, and as
    much of a longer one; an error that comes with the last byte there is room
    for is seen. *)
Lemma ReadAll_stream bufs : Forall (fun n => 1 <= n) bufs -> forall remaining k s data,
  0 <= remaining -> (reads s <= length bufs)%nat ->
  exists k' s' rest part e, ReadAll stream_read live bufs (remaining, (k, s)) data = Some (data +:+ part, e, (rest, (k', s'))) /\
    (slen (body s) < remaining /\ part = body s /\ e = end_error s \/
     remaining <= slen (body s) /\ slen part = remaining /\ (e = None \/ e = end_error s)).
Proof.
  induction 1 as [|n bufs Hn _ IH]; intros remaining k s data Hr Hb; [pose proof (reads_positive s); simpl in Hb; lia|].
  cbn [ReadAll]. unfold limitedRead. pose proof (slen_nonneg (body s)) as Hbody.
  destruct (Z.leb_spec remaining 0).
  { assert (remaining = 0) as -> by lia. exists k, s, 0, "", None. split; [done|]. right. auto. }
  unfold contextRead. cbn [live Blobstore.ContextError].
  destruct (stream_read (Z.min n remaining) s) as [[bytes e] s1] eqn:Es.
  pose proof (stream_read_contract (Z.min n remaining) s ltac:(lia)) as Hc. rewrite Es in Hc. cbn [fst] in Hc.
  apply stream_read_progress in Es as [(-> & -> & _)|(-> & Hcat & He & Hlt)]; [| |lia].
  - eexists _, _, _, (body s), (end_error s). split; [done|].
    destruct (Z.lt_ge_cases (slen (body s)) remaining); [by left|right]. split; [lia|]. split; [lia|by right].
  - destruct (IH (remaining - slen bytes) (S k) s1 (data +:+ bytes) ltac:(lia) ltac:(simpl in Hb; lia))
      as (k' & s' & rest & part & e & E & Hcase). exists k', s', rest, (bytes +:+ part), e. rewrite append_assoc in E.
    split; [exact E|]. assert (end_error s1 = end_error s) as Hee by (unfold end_error; by rewrite He).
    rewrite <- Hcat, !slen_app, <- Hee. destruct Hcase as [(Hl & -> & ->)|(Hl & Hp & Hx)]; [left|right]; split_and!; done || lia.
Qed.

(** What [Parse] makes of a source of pieces: the document of a source that
    fits and ends; a read error or, when there is more than the limit, the
    error for that. *)
Lemma Parse_stream limits bufs s : 0 < MaxBytes limits -> Forall (fun n => 1 <= n) bufs -> (reads s <= length bufs)%nat ->
  exists k s' a, Parse stream_read bufs (Some limits) (Some live) (Some s) = Some (a, Some s') /\
    if Blobstore.is_EOF (Some (ending s)) then
      a = if slen (body s) <=? MaxBytes limits then parseData live limits (body s) k
          else Err (newParseError ErrorInputTooLarge "")
    else
      a = Err (newParseError ErrorInputRead "") \/
      MaxBytes limits < slen (body s) /\ a = Err (newParseError ErrorInputTooLarge "").
Proof.
  intros Hm Hb Hf. unfold Parse. cbn [live contextError done_ctx].
  destruct (ReadAll_stream bufs Hb (MaxBytes limits + 1) 1 s "" ltac:(lia) Hf) as (k & s' & rest & part & e & -> & Hcase).
  unfold end_error in Hcase. change ("" +:+ part) with part. exists k, s'.
  assert (forall part, MaxBytes limits < slen part -> parseData live limits part k = Err (newParseError ErrorInputTooLarge "")) as Hbig.
  { intros t Ht. unfold parseData. by rewrite (proj2 (Z.leb_gt (slen t) _)) by lia. }
  destruct Hcase as [(Hl & -> & ->)|(Hl & Hp & Hx)].
  - rewrite (proj2 (Z.leb_le (slen (body s)) _)) by lia. destruct (Blobstore.is_EOF (Some (ending s))); eauto.
  - rewrite (proj2 (Z.leb_gt (slen (body s)) _)) by lia. specialize (Hbig part ltac:(lia)).
    destruct (Blobstore.is_EOF (Some (ending s))), e as [x|]; try (by destruct Hx); eexists; split; try done.
    + by left.
    + right. split; [lia|done].
Qed.
End SarifReading.
