(* ===== verification/SarifTheorems.v ===== *)
(** * What a parsed report is worth

    A logic for the parser's descent ([parses]: what a step establishes about
    its answer, the warnings it keeps in order, and where its errors point),
    and what follows from it: documents within the limits, records numbered
    and pointed to in order, error paths and pointers that the parser made up
    itself. *)

From S2P Require Import Prelude GoStrings Encoding Json JsonFacts JsonTokens Unmarshal Blobstore Sarif SarifValidate.
From Stdlib Require Import Ascii.

Local Open Scope Z_scope.

Module SarifTheorems.
Import Sarif SarifValidate.

(** ** Pointers the parser generates *)

(** The member names the parser knows. *)
Definition vocabulary : list string :=
  ["version"; "runs"; "tool"; "driver"; "name"; "rules"; "automationDetails"; "invocations"; "results";
   "defaultConfiguration"; "shortDescription"; "fullDescription"; "help"; "ruleIndex"; "level"; "kind";
   "baselineState"; "locations"; "fingerprints"; "message"; "physicalLocation"; "artifactLocation"; "region"].

(** Known names and positions, nothing of the report. *)
Inductive generated : string -> Prop :=
| generated_root : generated ""
| generated_name p name : generated p -> In name vocabulary -> generated (p +:+ "/" +:+ name)
| generated_index p i : generated p -> 0 <= i -> generated (indexPath p i).

(** A pointer is cut into its segments. *)
Fixpoint cut_segments (s : string) : string * list string :=
  match s with
  | "" => ("", [])
  | String c s => let '(first, rest) := cut_segments s in
                  if is_byte 47 c then ("", first :: rest) else (String c first, rest)
  end.
Definition segments (s : string) : list string := snd (cut_segments s).
Definition join_segments (l : list string) : string := foldr (fun n acc => "/" +:+ n +:+ acc) "" l.

Lemma generated_join p names : generated p -> Forall (fun n => In n vocabulary) names ->
  generated (p +:+ join_segments names).
Proof.
  intros Hp H. revert p Hp. induction H as [|n l Hn _ IH]; intros p Hp; [simpl; by rewrite append_nil_r|].
  cbn [join_segments foldr]. fold (join_segments l).
  replace (p +:+ "/" +:+ n +:+ join_segments l) with ((p +:+ "/" +:+ n) +:+ join_segments l) by (by rewrite !append_assoc).
  apply IH. by constructor.
Qed.

Lemma generated_suffix p s : generated p ->
  forallb (fun n => existsb (String.eqb n) vocabulary) (segments s) && String.eqb (join_segments (segments s)) s = true ->
  generated (p +:+ s).
Proof.
  intros Hp H. simp_bool. match goal with E : join_segments _ = s |- _ => rewrite <- E end. apply generated_join; [done|].
  rewrite forallb_forall in *. apply Forall_forall. intros n Hn%list_elem_of_In.
  match goal with Hf : forall x, _ -> existsb _ _ = true |- _ => apply Hf, existsb_exists in Hn as (m & Hm & ->%String.eqb_eq) end. done.
Qed.

Ltac generates :=
  repeat first
    [ assumption
    | apply generated_root
    | apply generated_index; [|lia]
    | apply generated_suffix; [|reflexivity]
    | apply (generated_suffix ""); [apply generated_root|reflexivity] ].

Section Limits.
Variables (ctx : nat -> Blobstore.ctx_state) (limits : Limits).

(** ** Warnings *)

Record warning_ok (w : Warning) : Prop := {
  wo_path : generated (w_Path w);
  wo_code : w_Code w = WarningUnsupportedFields;
  wo_count : 0 < w_FieldCount w;
  wo_fields : len (w_Fields w) = Z.min (w_FieldCount w) (MaxUnsupportedFieldsPerWarning limits);
  wo_truncated : w_FieldsTruncated w = (MaxUnsupportedFieldsPerWarning limits <? w_FieldCount w)
}.

Record state_ok (st : parseState) : Prop := {
  so_bound : len (warnings st) <= MaxWarnings limits;
  so_warnings : Forall warning_ok (warnings st)
}.

(** ** The logic *)

Definition parses {A} (p : parser A) (P : A -> Prop) : Prop := forall st, state_ok st ->
  match p st with
  | Ok (a, st') => state_ok st' /\ P a
  | Err e => generated (Path e)
  end.

Lemma parses_ret {A} (a : A) (P : A -> Prop) : P a -> parses (ret a) P.
Proof. intros H st Hst. done. Qed.

Lemma parses_bind {A B} (p : parser A) (f : A -> parser B) P Q :
  parses p P -> (forall a, P a -> parses (f a) Q) -> parses (bind p f) Q.
Proof.
  intros Hp Hf st Hst. specialize (Hp st Hst). unfold bind. destruct (p st) as [[a st']|e]; [|done].
  destruct Hp as [Hst' Ha]. by apply Hf.
Qed.

Lemma parses_weaken {A} (p : parser A) (P Q : A -> Prop) : (forall a, P a -> Q a) -> parses p P -> parses p Q.
Proof.
  intros H Hp st Hst. specialize (Hp st Hst). destruct (p st) as [[a st']|e]; [|done]. destruct Hp. eauto.
Qed.

Lemma parses_need {A} (b : bool) code path (k : parser A) P :
  generated path -> (b = true -> parses k P) -> parses (if b then k else reject code path) P.
Proof. intros Hp Hk. destruct b; [by apply Hk|]. by intros st Hst. Qed.

Lemma parses_wire {W A} (m : option W) path (k : W -> parser A) P :
  generated path -> (forall w, m = Some w -> parses (k w) P) ->
  parses (match m with Some w => k w | None => reject ErrorInvalidSARIF path end) P.
Proof. intros Hp Hk. destruct m as [w|]; [by apply Hk|]. by intros st Hst. Qed.

(** A loop: each record comes from the element at its position. *)
Lemma parses_each {A} (f : json -> Z -> parser A) (P : Z -> json -> A -> Prop) l : forall i, 0 <= i ->
  (forall j v, 0 <= j -> l !! Z.to_nat (j - i) = Some v -> i <= j -> parses (f v j) (P j v)) ->
  parses (parse_each f i l) (fun as_ => length as_ = length l /\
    forall n v a, l !! n = Some v -> as_ !! n = Some a -> P (i + Z.of_nat n) v a).
Proof.
  induction l as [|v l IH]; intros i Hi Hf; [by apply parses_ret|]. cbn [parse_each].
  eapply parses_bind; [apply (Hf i v); [done|by rewrite Z.sub_diag|done]|]. intros a Ha. cbn beta.
  eapply parses_bind; [apply IH; [lia|]|].
  - intros j w Hj Hl Hle. apply Hf; [done| |lia]. replace (Z.to_nat (j - i)) with (S (Z.to_nat (j - (i + 1)))) by lia. done.
  - intros rest [Hlen Hrest]. apply parses_ret. split; [simpl; by rewrite Hlen|]. intros [|n] w b; simpl.
    + intros [= <-] [= <-]. by rewrite Z.add_0_r.
    + intros Hw Hb. replace (i + Z.of_nat (S n)) with (i + 1 + Z.of_nat n) by lia. by apply Hrest.
Qed.

Lemma parses_record raw path known : generated path -> 0 <= MaxUnsupportedFieldsPerWarning limits ->
  parses (recordUnsupported limits raw path known) (fun _ => True).
Proof.
  intros Hp Hm st [Hb Hw]. unfold recordUnsupported. destruct (bool_decide _) eqn:E; [done|].
  destruct (Z.leb_spec (MaxWarnings limits) (len (warnings st))); [done|]. split; [|done]. split; cbn [warnings].
  - unfold len in *. rewrite length_app. simpl. lia.
  - apply Forall_app. split; [done|]. apply Forall_singleton. apply bool_decide_eq_false in E.
    set (names := unsupported raw known) in *. assert (0 < len names) by (unfold len; destruct names; simpl; [done|lia]).
    split; cbn; try done. destruct (Z.ltb_spec (MaxUnsupportedFieldsPerWarning limits) (len names)).
    + unfold len in *. rewrite length_take. lia.
    + lia.
Qed.

Hypothesis fields_bound : 0 <= MaxUnsupportedFieldsPerWarning limits.

Ltac walk :=
  repeat first
    [ apply parses_need; [generates|intros ?]
    | apply parses_wire; [generates|intros ? ?]
    | eapply parses_bind; [apply parses_record; [generates|exact fields_bound]|intros ? _] ].

(** The answer is one the step can give. *)
Lemma parses_from {A} (p : parser A) P : parses p P -> parses p (fun a => P a /\ exists st st', p st = Ok (a, st')).
Proof.
  intros Hp st Hst. specialize (Hp st Hst). destruct (p st) as [[a st']|e] eqn:E; [|done]. destruct Hp. eauto 6.
Qed.

(** ** What each step establishes *)

Lemma parses_details raw path : generated path ->
  parses (parseDetails limits raw path) (fun _ => True).
Proof using fields_bound.
  intros Hp. destruct raw as [[| | | | |]|]; try (by apply parses_ret); cbn [parseDetails];
    (apply (parses_bind _ _ (fun _ => True)); [unfold parseAutomationDetails; walk; by apply parses_ret|intros; by apply parses_ret]).
Qed.

Lemma parses_message_option raw path : generated path ->
  parses (parseOptionalMultiformatMessage limits raw path) (fun o => forall m, o = Some m -> m_Text m <> "").
Proof using fields_bound.
  intros Hp. destruct raw as [[| | | | |]|]; try (by apply parses_ret); cbn [parseOptionalMultiformatMessage];
    walk; apply parses_ret; intros m [= ->]; by apply String.eqb_neq, negb_true_iff.
Qed.

Definition level_ok (level : string) : bool := String.eqb level "" || validLevel level.

Lemma parses_configuration raw path : generated path ->
  parses (parseConfiguration limits raw path) (fun level => level_ok level = true).
Proof using fields_bound.
  intros Hp. destruct raw as [[| | | | |]|]; try (by apply parses_ret); cbn [parseConfiguration]; walk; by apply parses_ret.
Qed.

(** Records are numbered and pointed to by their position. *)
Definition placed {A} (index : A -> Z) (pointer : A -> string) (parent : string) (i : Z) (a : A) : Prop :=
  index a = i /\ pointer a = indexPath parent i.

Lemma parses_invocation parent raw i : generated parent -> 0 <= i ->
  parses (parseInvocation limits parent raw i) (placed in_Index in_SourcePointer parent i).
Proof using fields_bound.
  intros Hp Hi. unfold parseInvocation. walk. by apply parses_ret.
Qed.

Lemma parses_rule parent raw i : generated parent -> 0 <= i ->
  parses (parseRule limits parent raw i)
    (fun r => placed ru_Index ru_SourcePointer parent i r /\ TrimSpace (ru_ID r) <> "" /\ level_ok (ru_DefaultLevel r) = true).
Proof using fields_bound.
  intros Hp Hi. unfold parseRule. walk.
  eapply parses_bind; [apply parses_configuration; generates|intros level Hl]. walk.
  eapply parses_bind; [apply parses_message_option; generates|intros m1 _].
  eapply parses_bind; [apply parses_message_option; generates|intros m2 _].
  eapply parses_bind; [apply parses_message_option; generates|intros m3 _]. apply parses_ret. split_and!; try done.
  by apply String.eqb_neq, negb_true_iff.
Qed.

Lemma parses_message raw path : generated path ->
  parses (parseMessage limits raw path) (fun m => m_ID m <> "" \/ m_Text m <> "").
Proof using fields_bound.
  intros Hp. unfold parseMessage. walk. apply parses_ret.
  match goal with H : negb _ = true |- _ => apply negb_true_iff, andb_false_iff in H as [H|H]; apply String.eqb_neq in H; auto end.
Qed.

Definition region_ok (o : option Region) : Prop := match o with Some r => validRegion r = true | None => True end.

Lemma parses_location parent raw i : generated parent -> 0 <= i ->
  parses (parseLocation limits parent raw i)
    (fun l => placed lo_Index lo_SourcePointer parent i l /\ below 0 (lo_ArtifactIndex l) = false /\ region_ok (lo_Region l)).
Proof using fields_bound.
  intros Hp Hi. unfold parseLocation. walk.
  match goal with |- parses (match ?o with _ => _ end) _ => destruct o as [v|] end; [|by apply parses_ret].
  assert (parses
    (let physicalPath := indexPath parent i +:+ "/physicalLocation" in
     wire! parts := decode_physical v else physicalPath in
     let* _ := recordUnsupported limits v physicalPath ["artifactLocation"; "region"] in
     let* artifact := parseArtifact limits (fst parts) (physicalPath +:+ "/artifactLocation") in
     let* region := parseRegion limits (snd parts) (physicalPath +:+ "/region") in
     ret (location_of i (indexPath parent i) artifact region))%sarif
    (fun l => placed lo_Index lo_SourcePointer parent i l /\ below 0 (lo_ArtifactIndex l) = false /\ region_ok (lo_Region l))) as Hgo;
    [|by destruct v; [apply parses_ret|..]].
  cbv zeta. walk. eapply parses_bind; [|intros artifact Ha; eapply parses_bind].
  - instantiate (1 := fun a => below 0 (wa_Index a) = false).
    destruct (fst _) as [[| | | | |]|]; try (by apply parses_ret); cbn [parseArtifact]; walk; apply parses_ret; by apply negb_true_iff.
  - instantiate (1 := region_ok).
    destruct (snd _) as [[| | | | |]|]; try (by apply parses_ret); cbn [parseRegion]; walk; by apply parses_ret.
  - intros o Ho. by apply parses_ret.
Qed.

(** The records of a list come from the elements of an array, one by one. *)
Definition each_from {A} (from : Z -> json -> A -> Prop) (l : list json) (as_ : list A) : Prop :=
  length as_ = length l /\ forall n v a, l !! n = Some v -> as_ !! n = Some a -> from (Z.of_nat n) v a.

Lemma parses_elements {A} (f : json -> Z -> parser A) (P : Z -> json -> A -> Prop) l :
  (forall i v, 0 <= i -> parses (f v i) (P i v)) -> parses (parse_each f 0 l) (each_from P l).
Proof.
  intros Hf. eapply parses_weaken; [|apply (parses_each f P l 0); [done|eauto]]. intros as_ [Hlen H]. by split.
Qed.

(** A record that one of the parsing steps gives for a value. *)
Definition given {A} (p : parser A) (a : A) : Prop := exists st st', p st = Ok (a, st').

Record location_ok (parent : string) (i : Z) (raw : json) (l : Location) : Prop := {
  lk_placed : placed lo_Index lo_SourcePointer parent i l;
  lk_index : below 0 (lo_ArtifactIndex l) = false;
  lk_region : region_ok (lo_Region l);
  lk_given : given (parseLocation limits parent raw i) l
}.

Definition values_pair (nv : NamedValue) : string * string := (nv_Name nv, nv_Value nv).

Record result_ok (parent : string) (i : Z) (raw : json) (r : Result) : Prop := {
  ro_placed : placed re_Index re_SourcePointer parent i r;
  ro_given : given (parseResult limits parent raw i) r;
  ro_level : level_ok (re_Level r) = true;
  ro_kind : String.eqb (re_Kind r) "" || validKind (re_Kind r) = true;
  ro_baseline : String.eqb (re_BaselineState r) "" || validBaselineState (re_BaselineState r) = true;
  ro_rule : below 0 (re_RuleIndex r) = false;
  ro_message : m_ID (re_Message r) <> "" \/ m_Text (re_Message r) <> "";
  ro_fingerprints : len (re_Fingerprints r) + len (re_PartialFingerprints r) <= MaxFingerprintsPerResult limits;
  ro_bound : len (re_Locations r) <= MaxLocationsPerResult limits;
  ro_locations : exists w, decode_result raw = Some w /\
    each_from (location_ok (indexPath parent i +:+ "/locations")) (ws_Locations w) (re_Locations r)
}.

Lemma parses_result parent raw i : generated parent -> 0 <= i ->
  parses (parseResult limits parent raw i) (result_ok parent i raw).
Proof using fields_bound.
  intros Hp Hi.
  apply (parses_weaken _ (fun r => (given (parseResult limits parent raw i) r -> result_ok parent i raw r) /\
    given (parseResult limits parent raw i) r)); [by intros r [H1 H2]; apply H1|].
  apply parses_from. unfold parseResult at 1. cbv zeta. walk.
  eapply parses_bind; [apply parses_message; generates|intros message Hmsg].
  eapply parses_bind; [apply (parses_elements _ (location_ok (indexPath parent i +:+ "/locations")))|].
  - intros n v Hn. eapply parses_weaken; [|apply parses_from, parses_location; [generates|done]].
    intros l ((? & ? & ?) & ?). by split.
  - intros locations Hloc. apply parses_ret. intros Hgiven. pose proof Hloc as [Hlen _].
    repeat match goal with H : (_ <=? _) = true |- _ => apply Z.leb_le in H | H : negb _ = true |- _ => apply negb_true_iff in H end.
    split; cbn; try done; unfold len, namedValues in *; rewrite ?length_map; try lia. eauto.
Qed.

Record run_ok (i : Z) (raw : json) (r : Run) : Prop := {
  rk_placed : placed r_Index r_SourcePointer "/runs" i r;
  rk_name : TrimSpace (t_Name (r_Tool r)) <> "";
  rk_rules_bound : len (r_Rules r) <= MaxRulesPerRun limits;
  rk_invocations_bound : len (r_Invocations r) <= MaxInvocationsPerRun limits;
  rk_results_bound : len (r_Results r) <= MaxResultsPerRun limits;
  rk_source : exists w tool driver d, decode_run raw = Some w /\ wr_Tool w = Some tool /\
    decode_tool tool = Some (Some driver) /\ decode_driver driver = Some d /\ r_Tool r = tool_of d /\
    each_from (fun n v u => placed ru_Index ru_SourcePointer (indexPath "/runs" i +:+ "/tool/driver/rules") n u /\
                 given (parseRule limits (indexPath "/runs" i +:+ "/tool/driver/rules") v n) u) (dr_Rules d) (r_Rules r) /\
    each_from (fun n v u => placed in_Index in_SourcePointer (indexPath "/runs" i +:+ "/invocations") n u /\
                 given (parseInvocation limits (indexPath "/runs" i +:+ "/invocations") v n) u)
              (wr_Invocations w) (r_Invocations r) /\
    each_from (result_ok (indexPath "/runs" i +:+ "/results")) (wr_Results w) (r_Results r)
}.

Lemma parses_driver raw path : generated path ->
  parses (parseDriver limits raw path) (fun d => decode_driver raw = Some d /\ TrimSpace (dr_Name d) <> "" /\
    len (dr_Rules d) <= MaxRulesPerRun limits).
Proof using fields_bound.
  intros Hp. unfold parseDriver. walk. apply parses_ret. split_and!; try done; [|by apply Z.leb_le].
  by apply String.eqb_neq, negb_true_iff.
Qed.

Lemma parses_run raw i : 0 <= i -> parses (parseRun limits raw i) (run_ok i raw).
Proof using fields_bound.
  intros Hi. unfold parseRun. cbv zeta. assert (generated "/runs") by (apply (generated_suffix ""); [apply generated_root|reflexivity]).
  walk. eapply parses_bind; [apply parses_driver; generates|intros d (Hd & Hname & Hrules)].
  eapply parses_bind; [apply parses_details; generates|intros details _].
  eapply parses_bind; [eapply parses_elements; intros n v Hn; apply parses_from, parses_rule; [generates|done]|intros rules Hr].
  eapply parses_bind; [eapply parses_elements; intros n v Hn; apply parses_from, parses_invocation; [generates|done]|intros invocations Hinv].
  eapply parses_bind; [apply (parses_elements _ (result_ok (indexPath "/runs" i +:+ "/results")));
    intros n v Hn; apply parses_result; [generates|done]|intros results Hres].
  apply parses_ret. repeat match goal with H : (_ <=? _) = true |- _ => apply Z.leb_le in H end.
  destruct Hr as [Hl1 Hr], Hinv as [Hl2 Hinv], Hres as [Hl3 Hres].
  split; cbn; try done; try (unfold len in *; lia). subst. eexists _, _, _, d. split_and!; try done.
  - split; [done|]. intros n v u Hv Hu. destruct (Hr n v u Hv Hu) as [(? & _) ?]. done.
Qed.

(** ** Documents *)

Record document_ok (data : string) (d : Document) : Prop := {
  dk_format : d_Format d = Format /\ d_FormatVersion d = FormatVersion /\
              d_Parser d = {| pa_Name := Format; pa_Version := ParserVersion |};
  dk_runs_bound : len (d_Runs d) <= MaxRuns limits;
  dk_source : exists root w, decode_text data = Some root /\ decode_document root = Some w /\
    each_from run_ok (wd_Runs w) (d_Runs d)
}.

Lemma parses_poll : parses (poll ctx) (fun _ => True).
Proof.
  intros st [Hb Hw]. unfold poll, contextError. destruct (done_ctx _); [apply generated_root|]. by split.
Qed.

Lemma parses_document data : parses (parseDocument ctx limits data) (document_ok data).
Proof using fields_bound.
  unfold parseDocument. walk.
  eapply parses_bind; [apply (parses_elements _ run_ok)|].
  - intros i v Hi. eapply parses_bind; [apply parses_poll|intros _ _]. by apply parses_run.
  - intros runs Hr. apply parses_ret. pose proof Hr as [Hlen _].
    split; cbn; [done| |eauto 6]. match goal with H : (_ <=? _) = true |- _ => apply Z.leb_le in H end. unfold len in *. lia.
Qed.

(** The warnings of a document. *)
Definition warnings_ok (d : Document) : Prop :=
  len (d_Warnings d) <= MaxWarnings limits /\ Forall warning_ok (d_Warnings d).

Lemma parseData_ok data k d : 0 <= MaxWarnings limits -> parseData ctx limits data k = Ok d ->
  document_ok data d /\ warnings_ok d /\ slen data <= MaxBytes limits /\ ValidString data = true /\
  exists kind k', validateJSON ctx limits data k = Ok (kind, k').
Proof using fields_bound.
  intros Hw. unfold parseData. destruct (slen data <=? MaxBytes limits) eqn:Hlen; [|done].
  destruct (ValidString data) eqn:Hu; [|done]. destruct (validateJSON _ _ _ _) as [[kind k']|] eqn:Ev; [|done]. cbn [rbind fst snd].
  destruct (bool_decide _); [|done].
  pose proof (parses_document data {| warnings := []; warningsTruncated := false; looks := k' |}) as Hd.
  destruct (parseDocument _ _ _ _) as [[doc st]|e]; [|done]. destruct Hd as [[Hb Hst] [H1 H2 H3]]; [by split|].
  cbn [rbind fst snd]. intros [= <-]. split_and!; try done; [by apply Z.leb_le|eauto].
Qed.

Lemma validate_path fuel : (forall depth d k e, validateJSONValue ctx limits fuel depth d k = Err e -> Path e = "") /\
  (forall depth count d k e, validateElements ctx limits fuel depth count d k = Err e -> Path e = "") /\
  (forall depth seen count d k e, validateMembers ctx limits fuel depth seen count d k = Err e -> Path e = "").
Proof.
  assert (forall A e, @malformed A = Err e -> Path e = "") as Hm by (by intros A e [= <-]).
  assert (forall A e, @exceeded A = Err e -> Path e = "") as Hx by (by intros A e [= <-]).
  assert (forall c e, contextError c = Err e -> Path e = "") as Hc.
  { intros c e. unfold contextError. destruct (done_ctx c); [|done]. by intros [= <-]. }
  assert (forall b kind d k e, closing b kind d k = Err e -> Path e = "") as Hcl.
  { intros b kind d k e. unfold closing. destruct (Token d) as [[]| |]; try apply Hm. by destruct (is_byte b c); [|apply Hm]. }
  induction fuel as [|fuel (IHv & IHe & IHm)]; [split_and!; intros; by eapply Hm|]. split_and!.
  - intros depth d k e. rewrite value_step. destruct (contextError _) eqn:E; [|intros [= <-]; by eapply Hc]. cbn [rbind].
    destruct (Token d) as [[c|s|] d'| |]; try apply Hm; [|by destruct (_ <? _); [apply Hx|]|done].
    repeat match goal with |- context [if ?b then _ else _] => destruct b end; eauto.
  - intros depth count d k e. rewrite values_step. repeat match goal with |- context [if ?b then _ else _] => destruct b end; eauto.
    destruct (validateJSONValue _ _ _ _ _ _) eqn:E; cbn [rbind]; [eauto|]. intros [= <-]. by eapply IHv.
  - intros depth seen count d k e. rewrite entries_step. destruct (negb (More d)); [eauto|].
    destruct (contextError _) eqn:E; [|intros [= <-]; by eapply Hc]. cbn [rbind].
    destruct (Token d) as [[c|s|] d'| |]; eauto.
    repeat match goal with |- context [if ?b then _ else _] => destruct b end; eauto.
    destruct (validateJSONValue _ _ _ _ _ _) eqn:Ev; cbn [rbind]; [eauto|]. intros [= <-]. by eapply IHv.
Qed.

Lemma parseData_error data k e : 0 <= MaxWarnings limits -> parseData ctx limits data k = Err e -> generated (Path e).
Proof using fields_bound.
  intros Hw. unfold parseData. destruct (slen data <=? MaxBytes limits); [|intros [= <-]; apply generated_root].
  destruct (ValidString data); [|intros [= <-]; apply generated_root].
  destruct (validateJSON _ _ _ _) as [[kind k']|e'] eqn:Ev; cbn [rbind fst snd].
  - destruct (bool_decide _); [|intros [= <-]; apply generated_root].
    pose proof (parses_document data {| warnings := []; warningsTruncated := false; looks := k' |}) as Hd.
    destruct (parseDocument _ _ _ _) as [[doc st]|e']; [done|]. cbn [rbind]. intros [= <-]. by apply Hd.
  - intros [= <-]. unfold validateJSON in Ev.
    assert (Path e' = "") as ->; [|apply generated_root]. revert Ev.
    destruct (validateJSONValue _ _ _ _ _ _) as [r|] eqn:E; cbn [rbind]; [destruct (Token _); [|done|]; by intros [= <-]|].
    intros [= <-]. by eapply (proj1 (validate_path _)).
Qed.
End Limits.

(** ** Pointers lead back to the source *)

(** RFC 6901 on names without escapes: the value a pointer leads to. *)
Definition parse_index (s : string) : option nat :=
  n ← parse_digits 0 s; if String.eqb (itoa n) s then Some (Z.to_nat n) else None.

Fixpoint resolve_segments (v : json) (l : list string) : option json :=
  match l with
  | [] => Some v
  | s :: l =>
      match v with
      | JObj m => kv ← List.find (fun kv => String.eqb (fst kv) s) m; resolve_segments (snd kv) l
      | JArr es => n ← parse_index s; v ← es !! n; resolve_segments v l
      | _ => None
      end
  end.

Definition resolve (v : json) (pointer : string) : option json :=
  if String.eqb (fst (cut_segments pointer)) "" then resolve_segments v (segments pointer) else None.

(** Names are spelled as the parser knows them: no member differs from a known
    name in the case of its letters only. *)
Definition spelled_key (key : string) : bool :=
  forallb (fun name => implb (String.eqb (fold_name key) (fold_name name)) (String.eqb key name)) vocabulary.

Fixpoint spelled (v : json) : bool :=
  match v with
  | JArr l => forallb spelled l
  | JObj m => forallb (fun kv => spelled_key (fst kv) && spelled (snd kv)) m
  | _ => true
  end.

Fixpoint tidy (v : json) : bool :=
  match v with
  | JArr l => forallb tidy l
  | JObj m => bool_decide (NoDup (map fst m)) && forallb (fun kv => spelled_key (fst kv) && tidy (snd kv)) m
  | _ => true
  end.

Lemma conforms_tidy limits v : forall depth, conforms limits depth v = true -> spelled v = true -> tidy v = true.
Proof.
  induction v as [|b|n|s|l IH|l IH] using json_nested_ind; intros depth Hc Hs; try done; cbn [conforms spelled tidy] in *; simp_bool.
  - rewrite forallb_forall in *. rewrite Forall_forall in IH. intros v Hv. eapply IH; eauto. by apply list_elem_of_In.
  - rewrite bool_decide_eq_true_2 by done. cbn [andb]. rewrite forallb_forall in *. rewrite Forall_forall in IH. intros kv Hv.
    repeat match goal with H : forall x, In x l -> _ |- _ => specialize (H kv Hv); cbn beta in H end. simp_bool.
    apply andb_true_intro. split; [done|]. eapply IH; eauto. by apply list_elem_of_In.
Qed.

Lemma find_member (m : list (string * json)) name v : NoDup (map fst m) -> In (name, v) m ->
  List.find (fun kv => String.eqb (fst kv) name) m = Some (name, v).
Proof.
  induction m as [|[k w] m IH]; [done|]. cbn [map fst In List.find]. intros Hn [[= -> ->]|Hin]; [by rewrite String.eqb_refl|].
  apply NoDup_cons in Hn as [Hk Hn]. destruct (String.eqb_spec k name) as [->|]; [|by apply IH].
  destruct Hk. apply list_elem_of_In, in_map_iff. by exists (name, v).
Qed.

(** A tidy object has at most one value for a known name. *)
Lemma values_of_tidy m name : tidy (JObj m) = true -> In name vocabulary ->
  values_of name m = [] \/ exists v, In (name, v) m /\ values_of name m = [v] /\ tidy v = true.
Proof.
  cbn [tidy]. intros H Hname. simp_bool. unfold values_of.
  induction m as [|[k w] m IH]; [by left|]. cbn [map forallb fst snd] in *. simp_bool.
  match goal with Hn : NoDup (k :: _) |- _ => apply NoDup_cons in Hn as [Hk Hn] end.
  cbn [List.filter fst]. destruct (String.eqb_spec (fold_name k) (fold_name name)) as [E|E].
  - assert (k = name) as ->.
    { match goal with Hs : spelled_key k = true |- _ => unfold spelled_key in Hs; rewrite forallb_forall in Hs; specialize (Hs name Hname) end.
      rewrite (proj2 (String.eqb_eq _ _) E) in *. cbn [implb] in *. by apply String.eqb_eq. }
    right. exists w. split; [by left|]. cbn [map snd]. destruct IH as [->|(v & Hin & _)]; try done.
    destruct Hk. apply list_elem_of_In, in_map_iff. by exists (name, v).
  - destruct IH as [->|(v & Hin & Hv & Ht)]; try done; [by left|]. right. exists v. split; [by right|done].
Qed.

Lemma raw_field_in m name v : tidy (JObj m) = true -> In name vocabulary -> raw_field name m = Some (Some v) ->
  In (name, v) m /\ tidy v = true.
Proof.
  intros Ht Hn. unfold raw_field, field. destruct (values_of_tidy m name Ht Hn) as [->|(w & Hin & -> & Hw)]; [done|].
  cbn. intros [= ->]. done.
Qed.

Lemma raws_field_in m name l n v : tidy (JObj m) = true -> In name vocabulary -> raws_field name m = Some l ->
  l !! n = Some v -> In (name, JArr l) m /\ tidy v = true.
Proof.
  intros Ht Hn. unfold raws_field, field. destruct (values_of_tidy m name Ht Hn) as [->|(w & Hin & -> & Hw)].
  { cbn. by intros [= <-]. }
  cbn. destruct w; try done; intros [= <-] Hl; [done|]. split; [done|]. cbn [tidy] in Hw. rewrite forallb_forall in Hw.
  by apply Hw, list_elem_of_In, (list_elem_of_lookup_2 _ n).
Qed.

Lemma cut_append p s : sforallb (fun c => negb (is_byte 47 c)) s = true ->
  cut_segments (p +:+ "/" +:+ s) = (fst (cut_segments p), snd (cut_segments p) ++ [s]).
Proof.
  intros Hs. assert (cut_segments s = (s, [])) as E.
  { induction s as [|c s IH]; [done|]. cbn [sforallb] in Hs. simp_bool. cbn [cut_segments]. rewrite IH by done.
    match goal with H : is_byte 47 c = false |- _ => by rewrite H end. }
  induction p as [|c p IH].
  { change (cut_segments (String "/" s) = ("", [s])). cbn [cut_segments]. by rewrite E. }
  change (String c p +:+ "/" +:+ s) with (String c (p +:+ "/" +:+ s)). cbn [cut_segments]. rewrite IH.
  destruct (cut_segments p) as [first rest]. cbn [fst snd]. by destruct (is_byte 47 c).
Qed.

Lemma resolve_segments_app v l l' : resolve_segments v (l ++ l') = w ← resolve_segments v l; resolve_segments w l'.
Proof.
  revert v. induction l as [|s l IH]; intros v; [done|]. cbn [resolve_segments app]. destruct v as [| | | |es|m]; try done.
  - destruct (parse_index s); [|done]. cbn. destruct (es !! n); [|done]. apply IH.
  - destruct (List.find _ m); [|done]. apply IH.
Qed.

Lemma resolve_append root p v s : resolve root p = Some v -> sforallb (fun c => negb (is_byte 47 c)) s = true ->
  resolve root (p +:+ "/" +:+ s) = resolve_segments v [s].
Proof.
  unfold resolve, segments. intros H Hs. rewrite cut_append by done. cbn [fst snd].
  destruct (String.eqb (fst (cut_segments p)) ""); [|done]. by rewrite resolve_segments_app, H.
Qed.

Lemma resolve_member root p m name v : resolve root p = Some (JObj m) -> tidy (JObj m) = true -> In name vocabulary ->
  In (name, v) m -> resolve root (p +:+ "/" +:+ name) = Some v.
Proof.
  intros Hp Ht Hn Hin. rewrite (resolve_append root p (JObj m)); [|done|].
  - cbn [tidy] in Ht. simp_bool. cbn [resolve_segments]. by rewrite (find_member m name v).
  - unfold vocabulary in Hn. repeat (destruct Hn as [<-|Hn]; [reflexivity|]). done.
Qed.

Lemma digits_no_slash s : sforallb is_digit s = true -> sforallb (fun c => negb (is_byte 47 c)) s = true.
Proof.
  apply sforallb_impl. intros c. unfold is_digit, between, is_byte. intros H. simp_bool. apply negb_true_iff, Z.eqb_neq. lia.
Qed.

Lemma resolve_element root p l n v : resolve root p = Some (JArr l) -> l !! n = Some v ->
  resolve root (indexPath p (Z.of_nat n)) = Some v.
Proof.
  intros Hp Hl. unfold indexPath. destruct (itoa_spec (Z.of_nat n) ltac:(lia)) as (c & t & E & Hd & _ & Hparse).
  rewrite (resolve_append root p (JArr l)); [|done|rewrite E; by apply digits_no_slash].
  cbn [resolve_segments]. unfold parse_index. rewrite E, Hparse. cbn. rewrite E, String.eqb_refl. cbn. by rewrite Nat2Z.id, Hl.
Qed.

(** An element of an array under a known name. *)
Lemma resolve_field root p m name l n v : resolve root p = Some (JObj m) -> tidy (JObj m) = true -> In name vocabulary ->
  raws_field name m = Some l -> l !! n = Some v ->
  resolve root (indexPath (p +:+ "/" +:+ name) (Z.of_nat n)) = Some v /\ tidy v = true.
Proof.
  intros Hp Ht Hn Hf Hl. destruct (raws_field_in m name l n v Ht Hn Hf Hl) as [Hin Hv]. split; [|done].
  eapply resolve_element; [|done]. by eapply resolve_member.
Qed.

(** A name is in the vocabulary. *)
Ltac known := vm_compute; tauto.

Section Pointers.
Variable limits : Limits.

(** The pointers of one run. *)
Record run_located (root : json) (n : nat) (r : Run) : Prop := {
  rl_run : exists raw, resolve root (r_SourcePointer r) = Some raw /\ run_ok limits (Z.of_nat n) raw r;
  rl_rules : forall j u, r_Rules r !! j = Some u -> exists raw parent, resolve root (ru_SourcePointer u) = Some raw /\
    given (parseRule limits parent raw (Z.of_nat j)) u;
  rl_invocations : forall j u, r_Invocations r !! j = Some u -> exists raw parent,
    resolve root (in_SourcePointer u) = Some raw /\ given (parseInvocation limits parent raw (Z.of_nat j)) u;
  rl_results : forall j u, r_Results r !! j = Some u -> exists raw parent,
    resolve root (re_SourcePointer u) = Some raw /\ given (parseResult limits parent raw (Z.of_nat j)) u /\
    forall i l, re_Locations u !! i = Some l -> exists raw parent, resolve root (lo_SourcePointer l) = Some raw /\
      given (parseLocation limits parent raw (Z.of_nat i)) l
}.

Lemma each_from_at {A} from l (as_ : list A) n a : each_from from l as_ -> as_ !! n = Some a ->
  exists v, l !! n = Some v /\ from (Z.of_nat n) v a.
Proof.
  intros [Hlen H] Ha. destruct (l !! n) as [v|] eqn:Hv; [by exists v; split; [|apply H]|].
  apply lookup_ge_None in Hv. apply lookup_lt_Some in Ha. lia.
Qed.

Lemma run_pointers root raw n r : resolve root (r_SourcePointer r) = Some raw -> tidy raw = true ->
  run_ok limits (Z.of_nat n) raw r -> run_located root n r.
Proof.
  intros Hraw Ht Hok. pose proof Hok as [[_ Hp] _ _ _ _ (w & tool & driver & d & Hw & Htool & Hdriver & Hd & _ & Hrules & Hinv & Hres)].
  rewrite Hp in Hraw. set (path := indexPath "/runs" (Z.of_nat n)) in *.
  assert (exists m, raw = JObj m /\ raw_field "tool" m = Some (Some tool) /\
    raws_field "invocations" m = Some (wr_Invocations w) /\ raws_field "results" m = Some (wr_Results w)) as (m & -> & Hf1 & Hf2 & Hf3).
  { unfold decode_run in Hw. destruct raw as [| | | | |m]; try done; cbn in Hw; [injection Hw as <-; done|]. exists m.
    destruct (raw_field "tool" m); [|done]. destruct (raw_field "automationDetails" m); [|done].
    destruct (raws_field "invocations" m); [|done]. destruct (raws_field "results" m); [|done]. injection Hw as <-.
    cbn [wr_Tool wr_Invocations wr_Results] in Htool |- *. by subst. }
  split.
  - rewrite Hp. eauto.
  - intros j u Hu. destruct (each_from_at _ _ _ _ _ Hrules Hu) as (v & Hv & [_ Hpu] & Hg). rewrite Hpu. exists v. eexists. split; [|done].
    destruct (raw_field_in m "tool" tool Ht ltac:(known) Hf1) as [Hin1 Ht1].
    assert (exists m1, tool = JObj m1 /\ raw_field "driver" m1 = Some (Some driver)) as (m1 & -> & Hf4).
    { unfold decode_tool in Hdriver. destruct tool; try done. cbn in Hdriver. eauto. }
    destruct (raw_field_in m1 "driver" driver Ht1 ltac:(known) Hf4) as [Hin2 Ht2].
    assert (exists m2, driver = JObj m2 /\ raws_field "rules" m2 = Some (dr_Rules d)) as (m2 & -> & Hf5).
    { unfold decode_driver in Hd. destruct driver as [| | | | |m2]; try done; cbn in Hd; [injection Hd as <-; done|]. exists m2. split; [done|].
      repeat match type of Hd with context [string_field ?a ?b] => destruct (string_field a b); [|done]; cbn in Hd end.
      destruct (raws_field "rules" m2); [|done]. cbn in Hd. by injection Hd as <-. }
    replace (path +:+ "/tool/driver/rules") with (((path +:+ "/" +:+ "tool") +:+ "/" +:+ "driver") +:+ "/" +:+ "rules")
      by (rewrite !append_assoc; reflexivity).
    eapply resolve_field; [|exact Ht2|known|exact Hf5|exact Hv].
    eapply resolve_member; [|exact Ht1|known|exact Hin2]. eapply resolve_member; [exact Hraw|exact Ht|known|exact Hin1].
  - intros j u Hu. destruct (each_from_at _ _ _ _ _ Hinv Hu) as (v & Hv & [_ Hpu] & Hg). rewrite Hpu. exists v. eexists. split; [|done].
    by eapply (resolve_field root path m "invocations"); [exact Hraw|exact Ht|known|exact Hf2|].
  - intros j u Hu. destruct (each_from_at _ _ _ _ _ Hres Hu) as (v & Hv & Hrk). pose proof Hrk as [[_ Hpu] Hg _ _ _ _ _ _ _ (wr & Hwr & Hlocs)].
    rewrite Hpu. exists v. eexists. destruct (resolve_field root path m "results" _ j v Hraw Ht ltac:(known) Hf3 Hv) as [Hr Htv].
    split; [exact Hr|]. split; [done|].
    intros i l Hl. destruct (each_from_at _ _ _ _ _ Hlocs Hl) as (lv & Hlv & [[_ Hpl] _ _ Hgl]). rewrite Hpl. exists lv. eexists. split; [|done].
    assert (exists m3, v = JObj m3 /\ raws_field "locations" m3 = Some (ws_Locations wr)) as (m3 & -> & Hf6).
    { unfold decode_result in Hwr. destruct v as [| | | | |m3]; try done; cbn in Hwr; [injection Hwr as <-; done|]. exists m3. split; [done|].
      repeat match type of Hwr with context [mbind _ (?f ?a ?b)] => destruct (f a b) eqn:?; [|done]; cbn in Hwr end.
      by injection Hwr as <-. }
    by eapply (resolve_field root _ m3 "locations"); [exact Hr|exact Htv|known|exact Hf6|].
Qed.
End Pointers.

(** ** The theorems *)

Section Theorems.
Context (limits : Limits) (new : New limits = Ok limits).

(** The document of any reader, on any context, was made of data within the
    limits. *)
Lemma Parse_data {St} read bufs ctx (s : St) answer : Parse read bufs (Some limits) (Some ctx) (Some s) = Some answer ->
  (exists data k, fst answer = parseData ctx limits data k) \/
  (exists code, fst answer = Err (newParseError code "")).
Proof.
  unfold Parse. unfold contextError at 1. destruct (done_ctx (ctx 0%nat)); [intros [= <-]; right; eauto|].
  destruct (ReadAll _ _ _ _ _) as [[[data [e|]] [rest [k s']]]|]; [|intros [= <-]; left; eauto|done].
  intros [= <-]. right. cbn [fst]. unfold contextError. destruct (done_ctx (ctx k)); cbn [rbind]; eauto.
Qed.

(** C24.  Whatever the source delivers and whenever the context ends, a document
    that [Parse] returns respects every limit: the number of runs, of rules,
    invocations and results of a run, of locations and fingerprints of a
    result, of warnings and of names in a warning; its records are numbered
    and pointed to by their position, and levels, kinds, states, indexes and
    regions are valid. *)
Theorem parse_bounded {St} read bufs ctx (s : St) d s' :
  Parse read bufs (Some limits) (Some ctx) (Some s) = Some (Ok d, s') ->
  exists data, slen data <= MaxBytes limits /\ document_ok limits data d /\ warnings_ok limits d.
Proof using new.
  intros H. apply New_limits in new as (_ & _ & _ & _ & _ & Hf & Hw). apply Parse_data in H as [(data & k & H)|(code & H)]; [|done].
  cbn [fst] in H. symmetry in H. destruct (parseData_ok ctx limits Hf data k d Hw H) as (Hd & Hwarn & Hlen & _). eauto.
Qed.

(** No error of the parser repeats anything of the report: its path is built
    from names the parser knows and from positions. *)
Theorem error_paths_generated {St} read bufs ctx (s : St) e s' :
  Parse read bufs (Some limits) (Some ctx) (Some s) = Some (Err e, s') -> generated (Path e).
Proof using new.
  intros H. apply New_limits in new as (_ & _ & _ & _ & _ & Hf & Hw). apply Parse_data in H as [(data & k & H)|(code & H)].
  - cbn [fst] in H. symmetry in H. by eapply parseData_error.
  - cbn [fst] in H. injection H as ->. apply generated_root.
Qed.

(** C23.  Every record of a parsed report points back to its source: in a report
    whose names are spelled as SARIF spells them, the pointers of runs, rules,
    invocations, results and locations lead to the values these records were
    made of. *)
Theorem pointers_resolve ctx data k d root n r :
  parseData ctx limits data k = Ok d -> decode_text data = Some root -> spelled root = true ->
  d_Runs d !! n = Some r -> run_located limits root n r.
Proof using new.
  intros H Hroot Hs Hr. apply New_limits in new as (_ & _ & Ha & Hm & Hdp & Hf & Hw).
  destruct (parseData_ok ctx limits Hf data k d Hw H) as ([_ _ (root' & w & Hroot' & Hdoc & Hruns)] & _ & _ & _ & kind & k' & Hv).
  rewrite Hroot in Hroot'. injection Hroot' as <-.
  destruct (validate_sound limits Ha Hm Hdp _ _ _ _ _ Hv) as (v & Hv' & Hc & _). rewrite Hroot in Hv'. injection Hv' as <-.
  assert (tidy root = true) as Ht by (by eapply conforms_tidy).
  destruct (each_from_at _ _ _ _ _ Hruns Hr) as (raw & Hraw & Hok). pose proof Hok as [[_ Hp] _ _ _ _ _].
  assert (exists m, root = JObj m /\ raws_field "runs" m = Some (wd_Runs w)) as (m & -> & Hfield).
  { unfold decode_document in Hdoc. destruct root as [| | | | |m]; try done; cbn in Hdoc; [injection Hdoc as <-; done|]. exists m. split; [done|].
    destruct (string_field "$schema" m); [|done]. destruct (string_field "version" m); [|done].
    destruct (raws_field "runs" m); [|done]. by injection Hdoc as <-. }
  destruct (resolve_field (JObj m) "" m "runs" _ n raw eq_refl Ht ltac:(known) Hfield Hraw) as [Hres Htr].
  eapply run_pointers; [|done|done]. rewrite Hp. exact Hres.
Qed.
End Theorems.
End SarifTheorems.
