(* ===== verification/SarifRoundtrip.v ===== *)
(** * Reports and documents

    [report] writes a document as a SARIF report.  Parsing the report gives
    the document back: the parser maps every field it supports to its place,
    loses none and invents none. *)

From S2P Require Import Prelude GoStrings Encoding Json JsonFacts Unmarshal Blobstore Sarif SarifValidate SarifTheorems.

Local Open Scope Z_scope.

Module SarifRoundtrip.
Import Sarif SarifValidate SarifTheorems.
Local Open Scope sarif_scope.

(** ** The report of a document *)

Definition optional_int (o : option Z) : json := match o with Some n => JInt n | None => JNull end.
Definition strings (l : list string) : json := JArr (map JStr l).

Definition message_report (m : Message) : json :=
  JObj [("id", JStr (m_ID m)); ("text", JStr (m_Text m)); ("markdown", JStr (m_Markdown m));
        ("arguments", strings (m_Arguments m))].

Definition description_report (o : option Message) : json :=
  match o with
  | Some m => JObj [("text", JStr (m_Text m)); ("markdown", JStr (m_Markdown m))]
  | None => JNull
  end.

Definition rule_report (r : Rule) : json :=
  JObj [("id", JStr (ru_ID r)); ("name", JStr (ru_Name r)); ("shortDescription", description_report (ru_ShortDescription r));
        ("fullDescription", description_report (ru_FullDescription r)); ("help", description_report (ru_Help r));
        ("defaultConfiguration", JObj [("level", JStr (ru_DefaultLevel r))])].

Definition invocation_report (i : Invocation) : json :=
  JObj [("executionSuccessful", JBool (in_ExecutionSuccessful i)); ("startTimeUtc", JStr (in_StartTimeUTC i));
        ("endTimeUtc", JStr (in_EndTimeUTC i)); ("exitCode", optional_int (in_ExitCode i));
        ("exitCodeDescription", JStr (in_ExitCodeDescription i));
        ("processStartFailureMessage", JStr (in_StartFailureMessage i))].

Definition region_report (o : option Region) : json :=
  match o with
  | Some r => JObj [("startLine", optional_int (StartLine r)); ("startColumn", optional_int (StartColumn r));
                    ("endLine", optional_int (EndLine r)); ("endColumn", optional_int (EndColumn r))]
  | None => JNull
  end.

Definition location_report (l : Location) : json :=
  JObj [("physicalLocation",
    JObj [("artifactLocation", JObj [("uri", JStr (lo_URI l)); ("uriBaseId", JStr (lo_URIBaseID l));
                                     ("index", optional_int (lo_ArtifactIndex l))]);
          ("region", region_report (lo_Region l))])].

Definition values_report (l : list NamedValue) : json := JObj (map (fun nv => (nv_Name nv, JStr (nv_Value nv))) l).

Definition result_report (r : Result) : json :=
  JObj [("guid", JStr (re_GUID r)); ("correlationGuid", JStr (re_CorrelationGUID r)); ("ruleId", JStr (re_RuleID r));
        ("ruleIndex", optional_int (re_RuleIndex r)); ("level", JStr (re_Level r)); ("kind", JStr (re_Kind r));
        ("baselineState", JStr (re_BaselineState r)); ("message", message_report (re_Message r));
        ("locations", JArr (map location_report (re_Locations r)));
        ("fingerprints", values_report (re_Fingerprints r));
        ("partialFingerprints", values_report (re_PartialFingerprints r))].

Definition details_report (o : option AutomationDetails) : json :=
  match o with
  | Some d => JObj [("id", JStr (ad_ID d)); ("guid", JStr (ad_GUID d)); ("correlationGuid", JStr (ad_CorrelationGUID d))]
  | None => JNull
  end.

Definition driver_report (t : Tool) (rules : list Rule) : json :=
  JObj [("name", JStr (t_Name t)); ("fullName", JStr (t_FullName t)); ("version", JStr (t_Version t));
        ("semanticVersion", JStr (t_SemanticVersion t)); ("informationUri", JStr (t_InformationURI t));
        ("rules", JArr (map rule_report rules))].

Definition run_report (r : Run) : json :=
  JObj [("tool", JObj [("driver", driver_report (r_Tool r) (r_Rules r))]);
        ("automationDetails", details_report (r_AutomationDetails r));
        ("invocations", JArr (map invocation_report (r_Invocations r)));
        ("results", JArr (map result_report (r_Results r)))].

Definition report (d : Document) : json :=
  JObj [("$schema", JStr (d_SchemaURI d)); ("version", JStr FormatVersion);
        ("runs", JArr (map run_report (d_Runs d)))].

(** ** Documents that a report can carry *)

Definition optional_ok (o : option Z) : Prop := match o with Some n => in_int64 n | None => True end.

Definition description_ok (o : option Message) : Prop :=
  match o with Some m => m_ID m = "" /\ m_Arguments m = [] /\ m_Text m <> "" | None => True end.

Record rule_ok (parent : string) (i : Z) (r : Rule) : Prop := {
  uk_placed : placed ru_Index ru_SourcePointer parent i r;
  uk_id : TrimSpace (ru_ID r) <> "";
  uk_level : level_ok (ru_DefaultLevel r) = true;
  uk_texts : description_ok (ru_ShortDescription r) /\ description_ok (ru_FullDescription r) /\ description_ok (ru_Help r)
}.

Definition invocation_ok (parent : string) (i : Z) (v : Invocation) : Prop :=
  placed in_Index in_SourcePointer parent i v /\ optional_ok (in_ExitCode v).

Definition region_fits (o : option Region) : Prop :=
  match o with
  | Some r => validRegion r = true /\ optional_ok (StartLine r) /\ optional_ok (StartColumn r) /\
              optional_ok (EndLine r) /\ optional_ok (EndColumn r)
  | None => True
  end.

Definition location_fits (parent : string) (i : Z) (l : Location) : Prop :=
  placed lo_Index lo_SourcePointer parent i l /\ below 0 (lo_ArtifactIndex l) = false /\
  optional_ok (lo_ArtifactIndex l) /\ region_fits (lo_Region l).

(** Names are sorted and none comes twice. *)
Definition names_ok (l : list NamedValue) : Prop := sort_members (map values_pair l) = map values_pair l.

Section Fits.
Variable limits : Limits.

Record result_fits (parent : string) (i : Z) (r : Result) : Prop := {
  rf_placed : placed re_Index re_SourcePointer parent i r;
  rf_rule : below 0 (re_RuleIndex r) = false /\ optional_ok (re_RuleIndex r);
  rf_level : level_ok (re_Level r) = true;
  rf_kind : String.eqb (re_Kind r) "" || validKind (re_Kind r) = true;
  rf_baseline : String.eqb (re_BaselineState r) "" || validBaselineState (re_BaselineState r) = true;
  rf_message : m_ID (re_Message r) <> "" \/ m_Text (re_Message r) <> "";
  rf_names : names_ok (re_Fingerprints r) /\ names_ok (re_PartialFingerprints r);
  rf_fingerprints : len (re_Fingerprints r) + len (re_PartialFingerprints r) <= MaxFingerprintsPerResult limits;
  rf_bound : len (re_Locations r) <= MaxLocationsPerResult limits;
  rf_locations : forall n l, re_Locations r !! n = Some l ->
    location_fits (indexPath parent i +:+ "/locations") (Z.of_nat n) l
}.

Record run_fits (i : Z) (r : Run) : Prop := {
  nf_placed : placed r_Index r_SourcePointer "/runs" i r;
  nf_name : TrimSpace (t_Name (r_Tool r)) <> "";
  nf_rules_bound : len (r_Rules r) <= MaxRulesPerRun limits;
  nf_invocations_bound : len (r_Invocations r) <= MaxInvocationsPerRun limits;
  nf_results_bound : len (r_Results r) <= MaxResultsPerRun limits;
  nf_rules : forall n u, r_Rules r !! n = Some u ->
    rule_ok (indexPath "/runs" i +:+ "/tool/driver/rules") (Z.of_nat n) u;
  nf_invocations : forall n u, r_Invocations r !! n = Some u ->
    invocation_ok (indexPath "/runs" i +:+ "/invocations") (Z.of_nat n) u;
  nf_results : forall n u, r_Results r !! n = Some u ->
    result_fits (indexPath "/runs" i +:+ "/results") (Z.of_nat n) u
}.

Record document_fits (d : Document) : Prop := {
  df_format : d_Format d = Format /\ d_FormatVersion d = FormatVersion /\
              d_Parser d = {| pa_Name := Format; pa_Version := ParserVersion |};
  df_warnings : d_Warnings d = [] /\ d_WarningsTruncated d = false;
  df_bound : len (d_Runs d) <= MaxRuns limits;
  df_runs : forall n r, d_Runs d !! n = Some r -> run_fits (Z.of_nat n) r
}.

(** ** Steps that give their answer without a warning *)

Definition yields {A} (p : parser A) (a : A) : Prop := forall st, exists k,
  p st = Ok (a, {| warnings := warnings st; warningsTruncated := warningsTruncated st; looks := k |}).

Lemma yields_ret {A} (a : A) : yields (ret a) a.
Proof. intros [w t k]. by exists k. Qed.

Lemma yields_bind {A B} (p : parser A) (f : A -> parser B) a b : yields p a -> yields (f a) b -> yields (bind p f) b.
Proof. intros Hp Hf st. destruct (Hp st) as [k E]. unfold bind. rewrite E. destruct (Hf {| warnings := warnings st; warningsTruncated := warningsTruncated st; looks := k |}) as [k' E']. by exists k'. Qed.

Lemma yields_record raw path known : unsupported raw known = [] -> yields (recordUnsupported limits raw path known) tt.
Proof. intros E [w t k]. exists k. unfold recordUnsupported. by rewrite E. Qed.

Lemma yields_each {A} (f : json -> Z -> parser A) (g : A -> json) l : forall i,
  (forall n a, l !! n = Some a -> yields (f (g a) (i + Z.of_nat n)) a) -> yields (parse_each f i (map g l)) l.
Proof.
  induction l as [|a l IH]; intros i H; [apply yields_ret|]. cbn [map parse_each].
  eapply yields_bind; [specialize (H 0%nat a eq_refl); by rewrite Z.add_0_r in H|]. cbn beta.
  eapply yields_bind; [|apply yields_ret]. apply IH. intros n b Hb. specialize (H (S n) b Hb).
  by replace (i + 1 + Z.of_nat n) with (i + Z.of_nat (S n)) by lia.
Qed.

(** ** Decoding what was written *)

Lemma optional_int_back o : optional_ok o -> into_int (optional_int o) None = Some o.
Proof. destruct o as [n|]; [|done]. intros H. cbn. by rewrite parse_int_itoa. Qed.

Lemma strings_back l : slice <$> into_strings (strings l) (Slice [] 0) = Some l.
Proof.
  destruct l as [|s l]; [done|]. unfold strings, into_strings.
  assert (forall k (l : list string), mapM id (imap (fun i v => into_element (k + i) v []) (map JStr l)) = Some l) as H.
  { intros k l0. revert k. induction l0 as [|x l0 IH]; intros k; [done|]. cbn [map imap mapM]. unfold into_element at 1.
    cbn. rewrite (imap_ext _ (fun i v => into_element (S k + i) v [])).
    - by rewrite IH.
    - intros i v _. cbn. by rewrite Nat.add_succ_r. }
  specialize (H 0%nat (s :: l)). cbn [backing map] in *. cbn [Nat.add] in H. rewrite H. cbn.
  unfold slice. cbn. rewrite length_map, app_nil_r. by rewrite firstn_all.
Qed.

Lemma values_back l : names_ok l -> into_map (values_report l) [] = Some (map values_pair l).
Proof.
  intros H. unfold values_report, into_map. rewrite <- H. unfold sort_members.
  generalize (@nil (string * string)). clear H. induction l as [|[n v] l IH]; intros acc; [done|]. cbn [map foldl].
  cbn. apply IH.
Qed.

Lemma named_back l : namedValues (map values_pair l) = l.
Proof. unfold namedValues. rewrite map_map. rewrite (map_ext _ id), map_id; [done|]. by intros [n v]. Qed.

Lemma pick {A} (decode : json -> A -> option A) zero name m v : values_of name m = [v] ->
  field decode zero name m = decode v zero.
Proof. intros E. unfold field. by rewrite E. Qed.

(** Every field of a struct is found under its name. *)
Ltac pick_all :=
  cbn [members mbind option_bind];
  unfold string_field, raw_field, raws_field, bool_field, int_field, strings_field, map_field;
  repeat (erewrite pick by (vm_compute; reflexivity); cbn [into_string into_raw into_raws into_bool mbind option_bind]).

Section Decode.
Variables (a b c d e f g : string) (v1 v2 v3 v4 v5 : json) (x : bool).

Lemma decode_result_report : decode_result (JObj
   [("guid", JStr a); ("correlationGuid", JStr b); ("ruleId", JStr c); ("ruleIndex", v1); ("level", JStr d);
    ("kind", JStr e); ("baselineState", JStr f); ("message", v2); ("locations", v3); ("fingerprints", v4);
    ("partialFingerprints", v5)]) =
  (ruleIndex ← into_int v1 None; locations ← into_raws v3 []; fingerprints ← into_map v4 []; partial ← into_map v5 [];
   Some {| ws_GUID := a; ws_CorrelationGUID := b; ws_RuleID := c; ws_RuleIndex := ruleIndex; ws_Level := d; ws_Kind := e;
           ws_BaselineState := f; ws_Message := Some v2; ws_Locations := locations; ws_Fingerprints := fingerprints;
           ws_PartialFingerprints := partial |}).
Proof. unfold decode_result. pick_all. reflexivity. Qed.

Lemma decode_message_report : decode_message (JObj
   [("id", JStr a); ("text", JStr b); ("markdown", JStr c); ("arguments", v1)]) =
  (arguments ← into_strings v1 (Slice [] 0);
   Some {| m_ID := a; m_Text := b; m_Markdown := c; m_Arguments := slice arguments |}).
Proof. unfold decode_message. pick_all. reflexivity. Qed.

Lemma decode_description_report : decode_multiformat (JObj [("text", JStr a); ("markdown", JStr b)]) =
  Some {| m_ID := ""; m_Text := a; m_Markdown := b; m_Arguments := [] |}.
Proof. unfold decode_multiformat. pick_all. reflexivity. Qed.

Lemma decode_rule_report : decode_rule (JObj
   [("id", JStr a); ("name", JStr b); ("shortDescription", v1); ("fullDescription", v2); ("help", v3);
    ("defaultConfiguration", v4)]) =
  Some {| wu_ID := a; wu_Name := b; wu_ShortDescription := Some v1; wu_FullDescription := Some v2; wu_Help := Some v3;
          wu_DefaultConfiguration := Some v4 |}.
Proof. unfold decode_rule. pick_all. reflexivity. Qed.

Lemma decode_invocation_report : decode_invocation (JObj
   [("executionSuccessful", JBool x); ("startTimeUtc", JStr a); ("endTimeUtc", JStr b); ("exitCode", v1);
    ("exitCodeDescription", JStr c); ("processStartFailureMessage", JStr d)]) =
  (exit ← into_int v1 None;
   Some {| wi_ExecutionSuccessful := Some x; wi_StartTimeUTC := a; wi_EndTimeUTC := b; wi_ExitCode := exit;
           wi_ExitCodeDescription := c; wi_ProcessStartFailureMessage := d |}).
Proof. unfold decode_invocation. pick_all. reflexivity. Qed.

Lemma decode_artifact_report : decode_artifact (JObj [("uri", JStr a); ("uriBaseId", JStr b); ("index", v1)]) =
  (index ← into_int v1 None; Some {| wa_URI := a; wa_URIBaseID := b; wa_Index := index |}).
Proof. unfold decode_artifact. pick_all. reflexivity. Qed.

Lemma decode_region_report : decode_region (JObj
   [("startLine", v1); ("startColumn", v2); ("endLine", v3); ("endColumn", v4)]) =
  (s ← into_int v1 None; t ← into_int v2 None; u ← into_int v3 None; w ← into_int v4 None;
   Some {| StartLine := s; StartColumn := t; EndLine := u; EndColumn := w |}).
Proof. unfold decode_region. pick_all. reflexivity. Qed.

Lemma decode_physical_report : decode_physical (JObj [("artifactLocation", v1); ("region", v2)]) = Some (Some v1, Some v2).
Proof. unfold decode_physical. pick_all. reflexivity. Qed.

Lemma decode_driver_report : decode_driver (JObj
   [("name", JStr a); ("fullName", JStr b); ("version", JStr c); ("semanticVersion", JStr d); ("informationUri", JStr e);
    ("rules", v1)]) =
  (rules ← into_raws v1 [];
   Some {| dr_Name := a; dr_FullName := b; dr_Version := c; dr_SemanticVersion := d; dr_InformationURI := e;
           dr_Rules := rules |}).
Proof. unfold decode_driver. pick_all. reflexivity. Qed.

Lemma decode_details_report : decode_details (JObj [("id", JStr a); ("guid", JStr b); ("correlationGuid", JStr c)]) =
  Some {| ad_ID := a; ad_GUID := b; ad_CorrelationGUID := c |}.
Proof. unfold decode_details. pick_all. reflexivity. Qed.

Lemma decode_run_report : decode_run (JObj
   [("tool", v1); ("automationDetails", v2); ("invocations", v3); ("results", v4)]) =
  (invocations ← into_raws v3 []; results ← into_raws v4 [];
   Some {| wr_Tool := Some v1; wr_AutomationDetails := Some v2; wr_Invocations := invocations; wr_Results := results |}).
Proof. unfold decode_run. pick_all. reflexivity. Qed.

Lemma decode_configuration_report : decode_configuration (JObj [("level", JStr a)]) = Some a.
Proof. unfold decode_configuration. pick_all. reflexivity. Qed.

Lemma decode_location_report : decode_location (JObj [("physicalLocation", v1)]) = Some (Some v1).
Proof. unfold decode_location. pick_all. reflexivity. Qed.

Lemma decode_tool_report : decode_tool (JObj [("driver", v1)]) = Some (Some v1).
Proof. unfold decode_tool. pick_all. reflexivity. Qed.

Lemma decode_document_report : decode_document (JObj [("$schema", JStr a); ("version", JStr b); ("runs", v1)]) =
  (runs ← into_raws v1 []; Some {| wd_Schema := a; wd_Version := b; wd_Runs := runs |}).
Proof. unfold decode_document. pick_all. reflexivity. Qed.
End Decode.

(** ** The steps, from the leaves up *)

Lemma description_back o path : description_ok o ->
  yields (parseOptionalMultiformatMessage limits (Some (description_report o)) path) o.
Proof.
  destruct o as [m|]; [|intros _; apply yields_ret]. intros (Hid & Hargs & Ht).
  cbn [description_report parseOptionalMultiformatMessage]. rewrite decode_description_report. cbn [m_Text].
  rewrite (proj2 (String.eqb_neq _ _) Ht). cbn [negb]. eapply yields_bind; [apply yields_record; vm_compute; reflexivity|].
  destruct m. cbn in *. subst. apply yields_ret.
Qed.

Lemma rule_back parent i r : rule_ok parent i r -> yields (parseRule limits parent (rule_report r) i) r.
Proof.
  intros [[Hi Hp] Hid Hl (H1 & H2 & H3)]. unfold parseRule, rule_report. rewrite decode_rule_report. cbn [wu_ID wu_Name].
  rewrite (proj2 (String.eqb_neq _ _) Hid). cbn [negb].
  eapply yields_bind.
  { cbn [parseConfiguration wu_DefaultConfiguration]. rewrite decode_configuration_report.
    unfold level_ok in Hl. rewrite Hl. eapply yields_bind; [apply yields_record; vm_compute; reflexivity|apply yields_ret]. }
  cbn beta. eapply yields_bind; [apply yields_record; vm_compute; reflexivity|]. cbn [wu_ShortDescription wu_FullDescription wu_Help].
  eapply yields_bind; [by apply description_back|]. cbn beta. eapply yields_bind; [by apply description_back|]. cbn beta.
  eapply yields_bind; [by apply description_back|]. cbn beta. destruct r. cbn in *. subst. apply yields_ret.
Qed.

Lemma invocation_back parent i v : invocation_ok parent i v -> yields (parseInvocation limits parent (invocation_report v) i) v.
Proof.
  intros [[Hi Hp] He]. unfold parseInvocation, invocation_report. rewrite decode_invocation_report, optional_int_back by done.
  cbn [mbind option_bind wi_ExecutionSuccessful]. eapply yields_bind; [apply yields_record; vm_compute; reflexivity|].
  destruct v. cbn in *. subst. apply yields_ret.
Qed.

Lemma message_back m path : m_ID m <> "" \/ m_Text m <> "" -> yields (parseMessage limits (message_report m) path) m.
Proof.
  intros H. unfold parseMessage, message_report. rewrite decode_message_report.
  pose proof (strings_back (m_Arguments m)) as Hs. destruct (into_strings _ _) as [args|]; [|done]. cbn in Hs. injection Hs as Hs.
  cbn [mbind option_bind m_ID m_Text].
  assert (negb (String.eqb (m_ID m) "" && String.eqb (m_Text m) "") = true) as ->.
  { destruct H as [H|H]; rewrite (proj2 (String.eqb_neq _ _) H); [done|by rewrite andb_false_r]. }
  eapply yields_bind; [apply yields_record; vm_compute; reflexivity|]. rewrite Hs. destruct m. apply yields_ret.
Qed.

Lemma region_back o path : region_fits o -> yields (parseRegion limits (Some (region_report o)) path) o.
Proof.
  destruct o as [r|]; [|intros _; apply yields_ret]. intros (Hv & H1 & H2 & H3 & H4).
  cbn [region_report parseRegion]. rewrite decode_region_report, !optional_int_back by done. cbn [mbind option_bind].
  destruct r. cbn [StartLine StartColumn EndLine EndColumn] in *. rewrite Hv.
  eapply yields_bind; [apply yields_record; vm_compute; reflexivity|apply yields_ret].
Qed.

Lemma location_back parent i l : location_fits parent i l -> yields (parseLocation limits parent (location_report l) i) l.
Proof.
  intros ([Hi Hp] & Hb & Ho & Hr). unfold parseLocation, location_report. rewrite decode_location_report.
  eapply yields_bind; [apply yields_record; vm_compute; reflexivity|]. rewrite decode_physical_report.
  eapply yields_bind; [apply yields_record; vm_compute; reflexivity|]. cbn [fst snd].
  eapply yields_bind; [|eapply yields_bind; [by apply region_back|]].
  - cbn [parseArtifact]. rewrite decode_artifact_report, optional_int_back by done. cbn [mbind option_bind wa_Index].
    rewrite Hb. cbn [negb]. eapply yields_bind; [apply yields_record; vm_compute; reflexivity|apply yields_ret].
  - destruct l. cbn in *. subst. apply yields_ret.
Qed.

Lemma within_bound n (l : list json) : len l <= n -> (len l <=? n) = true.
Proof. apply Z.leb_le. Qed.

Lemma len_map {A B} (f : A -> B) l : len (map f l) = len l.
Proof. unfold len. by rewrite length_map. Qed.

Lemma result_back parent i r : result_fits parent i r -> yields (parseResult limits parent (result_report r) i) r.
Proof.
  intros [[Hi Hp] [Hb Ho] Hl Hk Hs Hm [Hn1 Hn2] Hf Hlen Hloc]. unfold parseResult, result_report. cbv zeta.
  rewrite decode_result_report, optional_int_back, !values_back by done. cbn [mbind option_bind into_raws].
  cbn [ws_Message ws_RuleIndex ws_Level ws_Kind ws_BaselineState ws_Locations ws_Fingerprints ws_PartialFingerprints].
  unfold level_ok in Hl. rewrite Hb, Hl, Hk, Hs, !len_map, (proj2 (Z.leb_le _ _) Hlen), (proj2 (Z.leb_le _ _) Hf). cbn [negb].
  eapply yields_bind; [apply yields_record; vm_compute; reflexivity|]. eapply yields_bind; [by apply message_back|].
  cbn beta. eapply yields_bind; [apply yields_each; intros n l Hnl; apply location_back; by apply Hloc|].
  cbn [ws_GUID ws_CorrelationGUID ws_RuleID]. rewrite !named_back. destruct r. cbn in *. subst. apply yields_ret.
Qed.

Lemma details_back o path : yields (parseDetails limits (Some (details_report o)) path) o.
Proof.
  destruct o as [d|]; [|apply yields_ret]. cbn [details_report parseDetails]. eapply yields_bind; [|apply yields_ret].
  unfold parseAutomationDetails. rewrite decode_details_report.
  eapply yields_bind; [apply yields_record; vm_compute; reflexivity|]. destruct d. apply yields_ret.
Qed.

Lemma driver_back t rules path : TrimSpace (t_Name t) <> "" -> len rules <= MaxRulesPerRun limits ->
  yields (parseDriver limits (driver_report t rules) path)
    {| dr_Name := t_Name t; dr_FullName := t_FullName t; dr_Version := t_Version t;
       dr_SemanticVersion := t_SemanticVersion t; dr_InformationURI := t_InformationURI t;
       dr_Rules := map rule_report rules |}.
Proof.
  intros Hn Hr. unfold parseDriver, driver_report. rewrite decode_driver_report. cbn [mbind option_bind into_raws dr_Name dr_Rules].
  rewrite (proj2 (String.eqb_neq _ _) Hn), len_map, (proj2 (Z.leb_le _ _) Hr). cbn [negb].
  eapply yields_bind; [apply yields_record; vm_compute; reflexivity|]. apply yields_ret.
Qed.

Lemma run_back i r : run_fits i r -> yields (parseRun limits (run_report r) i) r.
Proof.
  intros [[Hi Hp] Hname Hr Hinv Hres Hrules Hinvs Hress]. unfold parseRun, run_report. cbv zeta.
  rewrite decode_run_report. cbn [mbind option_bind into_raws wr_Tool wr_Invocations wr_Results wr_AutomationDetails].
  rewrite !len_map, (proj2 (Z.leb_le _ _) Hinv), (proj2 (Z.leb_le _ _) Hres).
  eapply yields_bind; [apply yields_record; vm_compute; reflexivity|]. rewrite decode_tool_report.
  eapply yields_bind; [apply yields_record; vm_compute; reflexivity|].
  eapply yields_bind; [by apply driver_back|]. cbn [dr_Rules]. eapply yields_bind; [apply details_back|]. cbn beta.
  eapply yields_bind; [apply yields_each; intros n u Hu; apply rule_back; by apply Hrules|]. cbn beta.
  eapply yields_bind; [apply yields_each; intros n u Hu; apply invocation_back; by apply Hinvs|]. cbn beta.
  eapply yields_bind; [apply yields_each; intros n u Hu; apply result_back; by apply Hress|]. cbn beta.
  destruct r as [? ? [] ? ? ? ?]. cbn in *. subst. apply yields_ret.
Qed.

Lemma document_back ctx d : (forall k, ctx k = Blobstore.Live) -> document_fits d -> decode_text (print (report d)) = Some (report d) ->
  yields (parseDocument ctx limits (print (report d))) (with_warnings d {| warnings := []; warningsTruncated := false; looks := 0 |}).
Proof.
  intros Hlive [(Hf1 & Hf2 & Hf3) [Hw1 Hw2] Hb Hr] Hd. unfold parseDocument. rewrite Hd.
  assert (raw_map (report d) = Some (sort_members [("$schema", JStr (d_SchemaURI d)); ("version", JStr FormatVersion);
        ("runs", JArr (map run_report (d_Runs d)))])) as Hm by reflexivity.
  unfold report in Hm |- *. rewrite Hm, decode_document_report. cbn [mbind option_bind into_raws wd_Version wd_Runs].
  change (has_member "version" (sort_members [("$schema", JStr (d_SchemaURI d)); ("version", JStr FormatVersion);
        ("runs", JArr (map run_report (d_Runs d)))])) with true.
  change (has_member "runs" (sort_members [("$schema", JStr (d_SchemaURI d)); ("version", JStr FormatVersion);
        ("runs", JArr (map run_report (d_Runs d)))])) with true.
  change (String.eqb FormatVersion "") with false. change (String.eqb FormatVersion FormatVersion) with true. cbn [andb negb].
  rewrite len_map, (proj2 (Z.leb_le _ _) Hb).
  eapply yields_bind; [apply yields_record; vm_compute; reflexivity|].
  eapply yields_bind; [apply yields_each; intros n r Hn; eapply (yields_bind _ _ tt); [|apply run_back; by apply Hr]|].
  - intros [w t k]. exists (S k). unfold poll, contextError. cbn [looks]. by rewrite Hlive.
  - cbn beta. unfold with_warnings. cbn. rewrite Hf1, Hf2, Hf3. apply yields_ret.
Qed.
End Fits.

(** C15.  Parsing undoes writing: the report of a document that fits the limits is
    parsed to that document, without a warning. *)
Theorem parse_roundtrip limits ctx d k : New limits = Ok limits -> (forall k, ctx k = Blobstore.Live) ->
  document_fits limits d -> conforms limits 0 (report d) = true -> encodable (report d) = true ->
  slen (print (report d)) <= MaxBytes limits ->
  parseData ctx limits (print (report d)) k = Ok d.
Proof.
  intros Hn Hlive Hd Hc He Hlen. apply New_limits in Hn as (_ & _ & Ha & Hm & Hdp & _ & _).
  pose proof (conforms_nesting limits (report d) 0 Hc ltac:(lia)) as Hnest.
  pose proof (decode_print (report d) He ltac:(lia)) as Htext.
  unfold parseData. rewrite (proj2 (Z.leb_le _ _) Hlen), (print_valid _ He).
  destruct (validate_complete limits Ha Hm Hdp ctx _ k _ Hlive Htext Hc) as [k' ->]. cbn [rbind fst snd].
  change (bool_decide (kind_of (report d) = jsonObject)) with true. cbv iota.
  destruct (document_back limits ctx d Hlive Hd Htext {| warnings := []; warningsTruncated := false; looks := k' |}) as [k'' ->].
  cbn [rbind fst snd]. pose proof Hd as [_ [Hw1 Hw2] _ _]. destruct d. cbn in *. by subst.
Qed.
End SarifRoundtrip.
