(* ===== verification/SarifExamples.v ===== *)
(** * A concrete report

    A report with one run, parsed under the default limits; the theorems on
    the parser applied to it, and a report whose pointers lead nowhere. *)

From S2P Require Import Prelude GoStrings Encoding Json JsonFacts Unmarshal Blobstore Streams.
From S2P Require Import Sarif SarifValidate SarifReading SarifTheorems SarifRoundtrip.

Local Open Scope Z_scope.

Module SarifExamples.
Import Sarif SarifValidate SarifReading SarifTheorems SarifRoundtrip.

Definition text (s : string) : Message := {| m_ID := ""; m_Text := s; m_Markdown := ""; m_Arguments := [] |}.

Definition demo : Document := {|
  d_Format := Format; d_FormatVersion := FormatVersion; d_SchemaURI := "https://json.schemastore.org/sarif-2.1.0.json";
  d_Parser := {| pa_Name := Format; pa_Version := ParserVersion |};
  d_Runs := [{|
    r_Index := 0; r_SourcePointer := "/runs/0";
    r_Tool := {| t_Name := "scanner"; t_FullName := ""; t_Version := "1.2"; t_SemanticVersion := ""; t_InformationURI := "" |};
    r_AutomationDetails := Some {| ad_ID := "nightly"; ad_GUID := ""; ad_CorrelationGUID := "" |};
    r_Invocations := [{| in_Index := 0; in_SourcePointer := "/runs/0/invocations/0"; in_ExecutionSuccessful := true;
      in_StartTimeUTC := "2026-01-01T00:00:00Z"; in_EndTimeUTC := ""; in_ExitCode := Some 0; in_ExitCodeDescription := "";
      in_StartFailureMessage := "" |}];
    r_Rules := [{| ru_Index := 0; ru_SourcePointer := "/runs/0/tool/driver/rules/0"; ru_ID := "R1"; ru_Name := "";
      ru_ShortDescription := Some (text "short"); ru_FullDescription := None; ru_Help := None; ru_DefaultLevel := "error" |}];
    r_Results := [{| re_Index := 0; re_SourcePointer := "/runs/0/results/0"; re_GUID := ""; re_CorrelationGUID := "";
      re_RuleID := "R1"; re_RuleIndex := Some 0; re_Level := "error"; re_Kind := "fail"; re_BaselineState := "";
      re_Message := {| m_ID := ""; m_Text := "found"; m_Markdown := ""; m_Arguments := ["a"; "b"] |};
      re_Locations := [{| lo_Index := 0; lo_SourcePointer := "/runs/0/results/0/locations/0"; lo_URI := "src/a.go";
        lo_URIBaseID := ""; lo_ArtifactIndex := None;
        lo_Region := Some {| StartLine := Some 3; StartColumn := Some 1; EndLine := Some 3; EndColumn := Some 9 |} |}];
      re_Fingerprints := [{| nv_Name := "a/v1"; nv_Value := "x" |}; {| nv_Name := "b/v1"; nv_Value := "y" |}];
      re_PartialFingerprints := [] |}] |}];
  d_Warnings := []; d_WarningsTruncated := false |}.

Lemma default_limits : New DefaultLimits = Ok DefaultLimits.
Proof. reflexivity. Qed.

Lemma demo_parsed : parseData live DefaultLimits (print (report demo)) 1 = Ok demo.
Proof. vm_compute. reflexivity. Qed.

Ltac small := cbn; unfold in_int64, min_int64, max_int64; lia.
Ltac only_element n H := destruct n as [|n]; [injection H as <-|discriminate H].

Lemma demo_fits : document_fits DefaultLimits demo.
Proof.
  split; [done|done|vm_compute; discriminate|]. intros n r Hr. only_element n Hr.
  split; [done|vm_compute; discriminate|vm_compute; discriminate|vm_compute; discriminate|vm_compute; discriminate|..].
  - intros n u Hu. only_element n Hu. split; [done|vm_compute; discriminate|reflexivity|done].
  - intros n u Hu. only_element n Hu. split; [done|small].
  - intros n u Hu. only_element n Hu. split;
      [done|split; [reflexivity|small]|reflexivity|reflexivity|reflexivity|right; vm_compute; discriminate|split; reflexivity
      |vm_compute; discriminate|vm_compute; discriminate|].
    intros n l Hl. only_element n Hl. split; [done|]. split; [done|]. split; [done|].
    split; [reflexivity|]. split_and!; small.
Qed.

Lemma validate_exact_witness : exists v, decode_text "[1,[true]]" = Some v /\ conforms DefaultLimits 0 v = true /\
  jsonArray = kind_of v.
Proof.
  apply (proj1 (validate_exact DefaultLimits live "[1,[true]]" 0 jsonArray default_limits (fun _ => eq_refl))).
  eexists. vm_compute. reflexivity.
Defined.

(** The report in three pieces. *)
Definition demo_text : string := print (report demo).
Definition demo_stream : Streams.stream :=
  Streams.Stream [Blobstore.stake 100 demo_text; ""; Blobstore.sdrop 100 demo_text] Blobstore.EOF false.
Definition demo_buffers : list Z := repeat 512 20.

Lemma demo_read : match Parse Streams.stream_read demo_buffers (Some DefaultLimits) (Some live) (Some demo_stream) with
  | Some (Ok _, _) => true | _ => false end = true.
Proof. vm_compute. reflexivity. Qed.

Lemma parse_bounded_witness : exists d data, slen data <= MaxBytes DefaultLimits /\
  document_ok DefaultLimits data d /\ warnings_ok DefaultLimits d.
Proof.
  pose proof demo_read as H.
  destruct (Parse Streams.stream_read demo_buffers (Some DefaultLimits) (Some live) (Some demo_stream)) as [[[d|e] s']|] eqn:E;
    [|discriminate H|discriminate H].
  exists d. exact (parse_bounded DefaultLimits default_limits _ _ _ _ _ _ E).
Defined.

(** A result without a message. *)
Definition broken_text : string :=
  dq "{'version':'2.1.0','runs':[{'tool':{'driver':{'name':'s'}},'results':[{'ruleId':'<script>'}]}]}".

Lemma error_paths_generated_witness : exists s',
  Parse Streams.stream_read demo_buffers (Some DefaultLimits) (Some live) (Some (Streams.Stream [broken_text] Blobstore.EOF false))
    = Some (Err (newParseError ErrorInvalidSARIF "/runs/0/results/0"), s') /\ generated "/runs/0/results/0".
Proof.
  eexists. split; [vm_compute; reflexivity|].
  eapply (error_paths_generated DefaultLimits default_limits Streams.stream_read demo_buffers live
    (Streams.Stream [broken_text] Blobstore.EOF false) (newParseError ErrorInvalidSARIF "/runs/0/results/0")).
  vm_compute. reflexivity.
Defined.

Lemma pointers_resolve_witness : exists r, d_Runs demo !! 0%nat = Some r /\ run_located DefaultLimits (report demo) 0 r.
Proof.
  eexists. split; [reflexivity|].
  apply (pointers_resolve DefaultLimits default_limits live (print (report demo)) 1 demo).
  - exact demo_parsed.
  - vm_compute. reflexivity.
  - vm_compute. reflexivity.
  - reflexivity.
Defined.

Lemma parse_roundtrip_witness : parseData live DefaultLimits (print (report demo)) 0 = Ok demo.
Proof.
  apply (parse_roundtrip DefaultLimits live demo 0 default_limits (fun _ => eq_refl) demo_fits).
  - vm_compute. reflexivity.
  - vm_compute. reflexivity.
  - vm_compute. discriminate.
Defined.

(** Members are matched without regard to case, pointers are not: the results
    of a run under the name Results are parsed, with a pointer that leads
    nowhere, while the member is reported as not supported. *)
Definition misspelled_text : string :=
  dq "{'version':'2.1.0','runs':[{'tool':{'driver':{'name':'s'}},'Results':[{'message':{'text':'m'}}]}]}".

Example misspelled_pointer : exists root d r u,
  decode_text misspelled_text = Some root /\ parseData live DefaultLimits misspelled_text 0 = Ok d /\
  d_Runs d = [r] /\ r_Results r = [u] /\ resolve root (re_SourcePointer u) = None /\
  map w_Fields (d_Warnings d) = [["Results"]].
Proof. eexists _, _, _, _. split; [vm_compute; reflexivity|]. split; [vm_compute; reflexivity|]. repeat split. Qed.
End SarifExamples.
