(* ===== verification/Finding.v ===== *)
(** * Observations and normalizations (src/internal/finding)

    [Module Finding] models the immutable scanner statements, their canonical
    form and fingerprint (types.go, normalization.go), and the two recording
    operations (postgres.go, normalization_postgres.go) as database programs.
    The tables of correlation outcomes are in the same database because
    correlation reads the normalizations. *)

From S2P Require Import Prelude GoStrings Encoding Txn Json Queue Records.

Local Open Scope Z_scope.

Module Finding.

Inductive error :=
| ErrInvalid
| ErrObservationConflict
| ErrScanNotFound
| ErrNormalizationInvalid
| ErrNormalizationConflict
| ErrObservationNotFound
| ErrDatabase (action : string).

Definition parserNamePattern : string -> bool := match_head is_lower name_char 63.

Definition FingerprintComplete : string := "complete".
Definition FingerprintPartial : string := "partial".

Record SourceFingerprint := { fp_Kind : string; fp_Name : string; fp_Value : string }.

Record Location := {
  Ordinal : Z; l_SourcePointer : string; URI : string; URIBaseID : string; ArtifactIndex : option Z;
  StartLine : option Z; StartColumn : option Z; EndLine : option Z; EndColumn : option Z
}.

Record ObservationSpec := {
  ID : string; WorkspaceID : string; ScanID : string; RawArtifactID : string; SourceResultIndex : Z;
  ParserName : string; ParserVersion : string; SourcePointer : string; SourceGUID : string;
  SourceCorrelationGUID : string; SourceRuleID : string; SourceRuleIndex : option Z;
  SourceSeverity : string; SourceKind : string; SourceBaselineState : string; MessageID : string;
  MessageText : string; MessageMarkdown : string; MessageArguments : list string;
  Locations : list Location; Fingerprints : list SourceFingerprint; ObservedAt : option time;
  RecordedAt : time
}.

Record StoredObservation := {
  so_ID : string; so_WorkspaceID : string; so_ScanID : string; so_RawArtifactID : string;
  so_ReceivedAt : time; so_RecordedAt : time; so_Created : bool
}.

(** ** Validation *)

Definition MiB : Z := Z.shiftl 1 20.
Definition validOptionalIndex (v : option Z) : bool := match v with Some z => 0 <=? z | None => true end.
Definition validOptionalPositive (v : option Z) : bool := match v with Some z => 0 <? z | None => true end.

Definition validLocation (l : Location) : bool :=
  (0 <=? Ordinal l) && validText (l_SourcePointer l) 1 1024 && validOptionalBytes (URI l) MiB &&
  validOptionalText (URIBaseID l) 512 && validOptionalIndex (ArtifactIndex l) &&
  validOptionalPositive (StartLine l) && validOptionalPositive (StartColumn l) &&
  validOptionalPositive (EndLine l) && validOptionalPositive (EndColumn l).

Definition validFingerprint (f : SourceFingerprint) : bool :=
  (String.eqb (fp_Kind f) FingerprintComplete || String.eqb (fp_Kind f) FingerprintPartial) &&
  validText (fp_Name f) 1 512 && negb (String.eqb (fp_Value f) "") && validOptionalBytes (fp_Value f) MiB.

Definition validArgument (a : string) : bool := ValidString a && (slen a <=? MiB) && negb (has_nul a).

Definition zlen {A} (l : list A) : Z := Z.of_nat (length l).

(** The two groups of checks on the scalar fields. *)
Definition validIdentity (s : ObservationSpec) : bool :=
  validOpaqueID (ID s) && validOpaqueID (WorkspaceID s) && validOpaqueID (ScanID s) &&
  validOpaqueID (RawArtifactID s) && (0 <=? SourceResultIndex s) && negb (IsZero (RecordedAt s)) &&
  parserNamePattern (ParserName s) && validText (ParserVersion s) 1 64 &&
  validText (SourcePointer s) 1 1024.

Definition validSource (s : ObservationSpec) : bool :=
  validOptionalText (SourceGUID s) 128 && validOptionalText (SourceCorrelationGUID s) 128 &&
  validOptionalText (SourceRuleID s) 512 && validOptionalIndex (SourceRuleIndex s) &&
  validOptionalText (SourceSeverity s) 64 && validOptionalText (SourceKind s) 64 &&
  validOptionalText (SourceBaselineState s) 64 && validOptionalText (MessageID s) 512 &&
  validOptionalBytes (MessageText s) MiB && validOptionalBytes (MessageMarkdown s) MiB &&
  (zlen (MessageArguments s) <=? 1000) && (zlen (Locations s) <=? 1000) &&
  (zlen (Fingerprints s) <=? 2000).

(** ** Canonical order: sort.Slice, then neighbours must differ *)

Definition ordinal_le (a b : Location) : Prop := Ordinal a <= Ordinal b.
#[global] Instance ordinal_le_dec : RelDecision ordinal_le.
Proof. intros a b. unfold ordinal_le. apply _. Defined.

(** Kind first, then name, both in byte order. *)
Definition fingerprint_leb (a b : SourceFingerprint) : bool :=
  if String.eqb (fp_Kind a) (fp_Kind b) then bytewise_leb (fp_Name a) (fp_Name b)
  else bytewise_leb (fp_Kind a) (fp_Kind b).
Definition fingerprint_le (a b : SourceFingerprint) : Prop := fingerprint_leb a b = true.
#[global] Instance fingerprint_le_dec : RelDecision fingerprint_le.
Proof. intros a b. unfold fingerprint_le. apply _. Defined.

Definition same_fingerprint_key (a b : SourceFingerprint) : bool :=
  String.eqb (fp_Kind a) (fp_Kind b) && String.eqb (fp_Name a) (fp_Name b).

(** No element equals its predecessor. *)
Fixpoint neighbours_differ {A} (same : A -> A -> bool) (l : list A) : bool :=
  match l with
  | a :: ((b :: _) as l') => negb (same a b) && neighbours_differ same l'
  | _ => true
  end.

(** ** Canonical form and fingerprint *)

Record canonicalObservation := {
  co_spec : ObservationSpec;                (* the fields copied unchanged *)
  co_Locations : list Location;
  co_Fingerprints : list SourceFingerprint
}.

(** [omitempty] on pointers; a nil slice is [null]. *)
Definition nil_array (l : list json) : json := match l with [] => JNull | _ => JArr l end.

Definition json_location (l : Location) : json :=
  JObj ([("ordinal", JInt (Ordinal l)); ("source_pointer", JStr (l_SourcePointer l))] ++
        omit_empty "uri" (URI l) ++ omit_empty "uri_base_id" (URIBaseID l) ++
        omit_none "artifact_index" JInt (ArtifactIndex l) ++ omit_none "start_line" JInt (StartLine l) ++
        omit_none "start_column" JInt (StartColumn l) ++ omit_none "end_line" JInt (EndLine l) ++
        omit_none "end_column" JInt (EndColumn l)).

Definition json_fingerprint (f : SourceFingerprint) : json :=
  JObj [("kind", JStr (fp_Kind f)); ("name", JStr (fp_Name f)); ("value", JStr (fp_Value f))].

Definition json_observation (c : canonicalObservation) : json :=
  let s := co_spec c in
  JObj ([("workspace_id", JStr (WorkspaceID s)); ("scan_id", JStr (ScanID s));
         ("raw_artifact_id", JStr (RawArtifactID s)); ("source_result_index", JInt (SourceResultIndex s));
         ("parser_name", JStr (ParserName s)); ("parser_version", JStr (ParserVersion s));
         ("source_pointer", JStr (SourcePointer s))] ++
        omit_empty "source_guid" (SourceGUID s) ++
        omit_empty "source_correlation_guid" (SourceCorrelationGUID s) ++
        omit_empty "source_rule_id" (SourceRuleID s) ++
        omit_none "source_rule_index" JInt (SourceRuleIndex s) ++
        omit_empty "source_severity" (SourceSeverity s) ++ omit_empty "source_kind" (SourceKind s) ++
        omit_empty "source_baseline_state" (SourceBaselineState s) ++ omit_empty "message_id" (MessageID s) ++
        omit_empty "message_text" (MessageText s) ++ omit_empty "message_markdown" (MessageMarkdown s) ++
        [("message_arguments", JArr (map JStr (MessageArguments s)));
         ("locations", nil_array (map json_location (co_Locations c)));
         ("fingerprints", nil_array (map json_fingerprint (co_Fingerprints c)))] ++
        omit_none "observed_at" (fun t => JStr (rfc3339nano t)) (ObservedAt s)).

(** [encoded, _ := json.Marshal(...)]: the error is dropped, and what is hashed
    then is the empty text. *)
Definition observation_text (c : canonicalObservation) : string :=
  if marshals (ObservedAt (co_spec c)) then print (json_observation c) else "".

Definition canonicalizeObservation (s : ObservationSpec) : result error (canonicalObservation * string) :=
  guard! validIdentity s else ErrInvalid in
  guard! validSource s else ErrInvalid in
  guard! forallb validArgument (MessageArguments s) else ErrInvalid in
  let locations := merge_sort ordinal_le (Locations s) in
  guard! forallb validLocation locations &&
         neighbours_differ (fun a b => Ordinal a =? Ordinal b) locations else ErrInvalid in
  let fingerprints := merge_sort fingerprint_le (Fingerprints s) in
  guard! forallb validFingerprint fingerprints &&
         neighbours_differ same_fingerprint_key fingerprints else ErrInvalid in
  let c := {| co_spec := s; co_Locations := locations; co_Fingerprints := fingerprints |} in
  Ok (c, sha256 (observation_text c)).

(** ** Normalizations *)

Definition SeverityUnknown : string := "unknown".
Definition SeverityNotApplicable : string := "not_applicable".
Definition SeverityInformational : string := "informational".
Definition SeverityLow : string := "low".
Definition SeverityMedium : string := "medium".
Definition SeverityHigh : string := "high".
Definition SeverityCritical : string := "critical".
Definition CategoryUnknown : string := "unknown".
Definition RuleUnknown : string := "unknown".
Definition RuleSource : string := "source".
Definition LocationUnknown : string := "unknown".
Definition LocationArtifact : string := "artifact".

Record NormalizedLocation := {
  n_Kind : string; n_URI : string; n_URIBaseID : string;
  n_StartLine : option Z; n_StartColumn : option Z; n_EndLine : option Z; n_EndColumn : option Z
}.

Record NormalizationSpec := {
  ns_WorkspaceID : string; ns_ObservationID : string; ns_NormalizerName : string;
  ns_NormalizerVersion : string; ns_Category : string; ns_Severity : string; ns_RuleKind : string;
  ns_RuleID : string; ns_Location : NormalizedLocation; ns_NormalizedAt : time
}.

Record StoredNormalization := {
  sn_WorkspaceID : string; sn_ObservationID : string; sn_NormalizerName : string;
  sn_NormalizerVersion : string; sn_NormalizedAt : time; sn_Created : bool
}.

Definition knownNormalizedSeverity (v : string) : bool :=
  existsb (String.eqb v) [SeverityUnknown; SeverityNotApplicable; SeverityInformational; SeverityLow;
                          SeverityMedium; SeverityHigh; SeverityCritical].

Definition validNormalizedRule (kind id : string) : bool :=
  if String.eqb kind RuleUnknown then String.eqb id ""
  else if String.eqb kind RuleSource then validText id 1 512 else false.

Definition validNormalizedRegionOrder (l : NormalizedLocation) : bool :=
  match n_StartLine l, n_EndLine l with
  | Some sl, Some el =>
      negb (el <? sl) &&
      match n_StartColumn l, n_EndColumn l with
      | Some sc, Some ec => negb ((el =? sl) && (ec <? sc))
      | _, _ => true
      end
  | _, _ => true
  end.

Definition validNormalizedLocation (l : NormalizedLocation) : bool :=
  if String.eqb (n_Kind l) LocationUnknown then
    String.eqb (n_URI l) "" && String.eqb (n_URIBaseID l) "" && is_null (n_StartLine l) &&
    is_null (n_StartColumn l) && is_null (n_EndLine l) && is_null (n_EndColumn l)
  else if String.eqb (n_Kind l) LocationArtifact then
    validOptionalBytes (n_URI l) MiB && negb (String.eqb (n_URI l) "") &&
    validOptionalText (n_URIBaseID l) 512 && validOptionalPositive (n_StartLine l) &&
    validOptionalPositive (n_StartColumn l) && validOptionalPositive (n_EndLine l) &&
    validOptionalPositive (n_EndColumn l) && validNormalizedRegionOrder l
  else false.

Definition json_normalized_location (l : NormalizedLocation) : json :=
  JObj ([("kind", JStr (n_Kind l))] ++ omit_empty "uri" (n_URI l) ++
        omit_empty "uri_base_id" (n_URIBaseID l) ++ omit_none "start_line" JInt (n_StartLine l) ++
        omit_none "start_column" JInt (n_StartColumn l) ++ omit_none "end_line" JInt (n_EndLine l) ++
        omit_none "end_column" JInt (n_EndColumn l)).

Definition json_normalization (s : NormalizationSpec) : json :=
  JObj ([("workspace_id", JStr (ns_WorkspaceID s)); ("observation_id", JStr (ns_ObservationID s));
         ("normalizer_name", JStr (ns_NormalizerName s));
         ("normalizer_version", JStr (ns_NormalizerVersion s)); ("category", JStr (ns_Category s));
         ("severity", JStr (ns_Severity s)); ("rule_kind", JStr (ns_RuleKind s))] ++
        omit_empty "rule_id" (ns_RuleID s) ++
        [("location", json_normalized_location (ns_Location s))]).

(** The canonical value is the specification less its time. *)
Definition canonicalizeNormalization (s : NormalizationSpec) : result error (NormalizationSpec * string) :=
  guard! validOpaqueID (ns_WorkspaceID s) && validOpaqueID (ns_ObservationID s) &&
         parserNamePattern (ns_NormalizerName s) && validText (ns_NormalizerVersion s) 1 64 &&
         negb (IsZero (ns_NormalizedAt s)) && String.eqb (ns_Category s) CategoryUnknown &&
         knownNormalizedSeverity (ns_Severity s) && validNormalizedRule (ns_RuleKind s) (ns_RuleID s) &&
         validNormalizedLocation (ns_Location s) else ErrNormalizationInvalid in
  Ok (s, sha256 (print (json_normalization s))).

(** ** The tables *)

Record scan_row := { sc_raw : string; sc_received : time }.
Record observation_row := {
  ob_value : canonicalObservation; ob_received : time; ob_recorded : time; ob_fingerprint : string
}.
Record normalization_row := { no_value : NormalizationSpec; no_at : time; no_fingerprint : string }.
Record outcome_row := {
  ou_normalizer : string * string; ou_state : string; ou_reasons : list string; ou_at : time;
  ou_fingerprint : string
}.

(** Keys start with the workspace, then the record the row belongs to. *)
Record findings := Findings {
  scans : gmap (string * string) scan_row;
  observations : gmap (string * string) observation_row;
  locations : gmap (string * string * Z) Location;
  fingerprints : gmap (string * string * (string * string)) string;
  normalizations : gmap (string * string * (string * string)) normalization_row;
  outcomes : gmap (string * string * (string * string)) outcome_row
}.

Definition set_observations (d : findings) m :=
  Findings (scans d) m (locations d) (fingerprints d) (normalizations d) (outcomes d).
Definition set_locations (d : findings) m :=
  Findings (scans d) (observations d) m (fingerprints d) (normalizations d) (outcomes d).
Definition set_fingerprints (d : findings) m :=
  Findings (scans d) (observations d) (locations d) m (normalizations d) (outcomes d).
Definition set_normalizations (d : findings) m :=
  Findings (scans d) (observations d) (locations d) (fingerprints d) m (outcomes d).
Definition set_outcomes (d : findings) m :=
  Findings (scans d) (observations d) (locations d) (fingerprints d) (normalizations d) m.

Section Store.
Context {pg : Postgres}.

(** The unique source key of an observation. *)
Definition same_source (s s' : ObservationSpec) : bool :=
  String.eqb (WorkspaceID s) (WorkspaceID s') && String.eqb (ScanID s) (ScanID s') &&
  String.eqb (ParserName s) (ParserName s') && String.eqb (ParserVersion s) (ParserVersion s') &&
  (SourceResultIndex s =? SourceResultIndex s').

Definition find_source (s : ObservationSpec) (d : findings) : option observation_row :=
  head (rows_where (fun r => same_source s (co_spec (ob_value r))) (observations d)).

Definition stored_observation (r : observation_row) (created : bool) : StoredObservation :=
  let s := co_spec (ob_value r) in
  {| so_ID := ID s; so_WorkspaceID := WorkspaceID s; so_ScanID := ScanID s;
     so_RawArtifactID := RawArtifactID s; so_ReceivedAt := ob_received r; so_RecordedAt := ob_recorded r;
     so_Created := created |}.

Definition new_observation_row (c : canonicalObservation) (fp : string) (receivedAt : time) : observation_row :=
  {| ob_value := c; ob_received := receivedAt; ob_recorded := store_time (RecordedAt (co_spec c));
     ob_fingerprint := fp |}.

(** INSERT ... ON CONFLICT (source key) DO NOTHING: the column types and
    recorded_at >= received_at first, then the conflict, then the primary
    key. *)
Definition insert_observation (c : canonicalObservation) (fp : string) (receivedAt : time) (d : findings)
  : option (Z * findings) :=
  let s := co_spec c in
  let r := new_observation_row c fp receivedAt in
  if negb (int4 (SourceResultIndex s) && int4_opt (SourceRuleIndex s) && (receivedAt <=? ob_recorded r))
  then None
  else if negb (is_null (find_source s d)) then Some (0, d)
  else if negb (is_null (observations d !! (WorkspaceID s, ID s))) then None
  else Some (1, set_observations d (<[(WorkspaceID s, ID s) := r]> (observations d))).

Definition insert_location (ws id : string) (l : Location) (d : findings) : option (unit * findings) :=
  if int4 (Ordinal l) && int4_opt (ArtifactIndex l) && int4_opt (StartLine l) && int4_opt (StartColumn l) &&
     int4_opt (EndLine l) && int4_opt (EndColumn l) && is_null (locations d !! (ws, id, Ordinal l))
  then Some (tt, set_locations d (<[(ws, id, Ordinal l) := l]> (locations d))) else None.

Definition insert_fingerprint (ws id : string) (f : SourceFingerprint) (d : findings) : option (unit * findings) :=
  let key := (ws, id, (fp_Kind f, fp_Name f)) in
  if is_null (fingerprints d !! key)
  then Some (tt, set_fingerprints d (<[key := fp_Value f]> (fingerprints d))) else None.

(** The loops over the locations and the fingerprints. *)
Definition insert_details (c : canonicalObservation) : prog findings error unit :=
  let ws := WorkspaceID (co_spec c) in
  let id := ID (co_spec c) in
  do! for_each (ErrDatabase "insert observation location") (insert_location ws id) (co_Locations c) in
  for_each (ErrDatabase "insert observation fingerprint") (insert_fingerprint ws id) (co_Fingerprints c).

Definition RecordObservation (spec : ObservationSpec) : prog findings error StoredObservation :=
  match canonicalizeObservation spec with
  | Err e => fail e
  | Ok (c, fp) =>
      do! begin (ErrDatabase "begin recording observation") in
      let! found := query (ErrDatabase "read observation scan")
                      (fun d => match scans d !! (WorkspaceID spec, ScanID spec) with
                                | Some r => if String.eqb (sc_raw r) (RawArtifactID spec)
                                            then Some (sc_received r) else None
                                | None => None
                                end) in
      match found with
      | None => fail ErrScanNotFound
      | Some receivedAt =>
          if RecordedAt spec <? receivedAt then fail ErrInvalid
          else
            record (ErrDatabase "insert observation") (insert_observation c fp receivedAt)
              (ErrDatabase "read existing observation")
              (fun d => option_map (fun r => (stored_observation r false, ob_fingerprint r)) (find_source spec d))
              ErrObservationConflict ErrObservationConflict
              (ErrDatabase "finish observation replay") (ErrDatabase "commit observation") fp
              (insert_details c)
              {| so_ID := ID spec; so_WorkspaceID := WorkspaceID spec; so_ScanID := ScanID spec;
                 so_RawArtifactID := RawArtifactID spec; so_ReceivedAt := receivedAt;
                 so_RecordedAt := RecordedAt spec; so_Created := true |}
      end
  end.

(** ** RecordNormalization *)

Definition normalization_key (s : NormalizationSpec) : string * string * (string * string) :=
  (ns_WorkspaceID s, ns_ObservationID s, (ns_NormalizerName s, ns_NormalizerVersion s)).

Definition insert_normalization (c : NormalizationSpec) (fp : string) (d : findings)
  : option (Z * findings) :=
  let l := ns_Location c in
  if negb (int4_opt (n_StartLine l) && int4_opt (n_StartColumn l) && int4_opt (n_EndLine l) &&
           int4_opt (n_EndColumn l)) then None
  else if negb (is_null (normalizations d !! normalization_key c)) then Some (0, d)
  else Some (1, set_normalizations d
         (<[normalization_key c := {| no_value := c; no_at := store_time (ns_NormalizedAt c);
                                      no_fingerprint := fp |}]> (normalizations d))).

Definition stored_normalization (s : NormalizationSpec) (at_ : time) (created : bool) : StoredNormalization :=
  {| sn_WorkspaceID := ns_WorkspaceID s; sn_ObservationID := ns_ObservationID s;
     sn_NormalizerName := ns_NormalizerName s; sn_NormalizerVersion := ns_NormalizerVersion s;
     sn_NormalizedAt := at_; sn_Created := created |}.

(** On a replay the four columns of the key come back as the query asked for
    them. *)
Definition RecordNormalization (spec : NormalizationSpec) : prog findings error StoredNormalization :=
  match canonicalizeNormalization spec with
  | Err e => fail e
  | Ok (c, fp) =>
      do! begin (ErrDatabase "begin recording observation normalization") in
      let! found := query (ErrDatabase "read normalization source observation")
                      (fun d => option_map ob_recorded (observations d !! (ns_WorkspaceID spec, ns_ObservationID spec))) in
      match found with
      | None => fail ErrObservationNotFound
      | Some recordedAt =>
          if ns_NormalizedAt spec <? recordedAt then fail ErrNormalizationInvalid
          else
            record (ErrDatabase "insert observation normalization") (insert_normalization c fp)
              (ErrDatabase "read existing observation normalization")
              (fun d => option_map (fun r => (stored_normalization spec (no_at r) false, no_fingerprint r))
                          (normalizations d !! normalization_key spec))
              (ErrDatabase "read existing observation normalization") ErrNormalizationConflict
              (ErrDatabase "finish observation normalization replay")
              (ErrDatabase "commit observation normalization") fp (done_with tt)
              (stored_normalization spec (ns_NormalizedAt spec) true)
      end
  end.
End Store.

(** ** Canonical order *)

Section Keys.
Context {A K : Type} `{EqDecision K} (key : A -> K) (R : A -> A -> Prop) `{!RelDecision R}
  `{!Transitive R} `{!Total R} (same : A -> A -> bool).
Hypothesis same_key : forall a b, same a b = true <-> key a = key b.
Hypothesis key_le : forall a b, key a = key b -> R a b.
Hypothesis le_key : forall a b, R a b -> R b a -> key a = key b.

Lemma neighbours_NoDup l : StronglySorted R l -> neighbours_differ same l = true <-> NoDup (map key l).
Proof using Type*.
  induction 1 as [|a l Hs IH Ha]; [by split; [constructor|]|].
  destruct l as [|b l]; [split; [intros _; apply NoDup_singleton|done]|].
  cbn [neighbours_differ]. rewrite andb_true_iff, negb_true_iff, IH.
  rewrite <- not_true_iff_false, same_key. cbn [map]. rewrite (NoDup_cons (key a)).
  split; [|intros [Hn ?]; split; [intros He; apply Hn; apply elem_of_cons; by left|done]].
  intros [Hab Hnd]. split; [|done]. intros Hin. apply elem_of_cons in Hin as [Hin|Hin]; [done|].
  apply list_elem_of_fmap in Hin as (c & Hkey & Hc). apply Hab.
  inversion_clear Hs as [|? ? Hs' Hb]. rewrite Forall_forall in Ha, Hb.
  apply le_key; [apply Ha; left|]. transitivity c; [by apply Hb|]. by apply key_le.
Qed.

(** Two sorted arrangements without repeated keys are the same list. *)
Lemma canonical_unique l l' : l ≡ₚ l' ->
  neighbours_differ same (merge_sort R l) = neighbours_differ same (merge_sort R l') /\
  (neighbours_differ same (merge_sort R l) = true -> merge_sort R l = merge_sort R l').
Proof using Type*.
  intros Hp.
  assert (StronglySorted R (merge_sort R l)) as H1 by (apply StronglySorted_merge_sort; apply _).
  assert (StronglySorted R (merge_sort R l')) as H2 by (apply StronglySorted_merge_sort; apply _).
  assert (merge_sort R l ≡ₚ merge_sort R l') as Hp' by (by rewrite !merge_sort_Permutation).
  split.
  - apply eq_true_iff_eq. rewrite !neighbours_NoDup by done. by rewrite Hp'.
  - intros Hn. apply neighbours_NoDup in Hn; [|done].
    eapply StronglySorted_unique_strong; [|exact H1|exact H2|exact Hp'].
    intros a b Ha Hb Hab Hba. rewrite <- Hp' in Hb. pose proof (le_key a b Hab Hba) as Hk.
    apply list_elem_of_lookup in Ha as [i Hi], Hb as [k Hl].
    assert (i = k) as ->; [|congruence].
    apply (NoDup_lookup _ i k (key a) Hn); rewrite list_lookup_fmap; [by rewrite Hi|by rewrite Hl, Hk].
Qed.
End Keys.

#[local] Instance ordinal_total : Total ordinal_le.
Proof. intros a b. unfold ordinal_le. lia. Qed.
#[local] Instance ordinal_trans : Transitive ordinal_le.
Proof. intros a b c. unfold ordinal_le. lia. Qed.

Definition fingerprint_key (f : SourceFingerprint) : string * string := (fp_Kind f, fp_Name f).

#[local] Instance fingerprint_total : Total fingerprint_le.
Proof.
  intros a b. unfold fingerprint_le, fingerprint_leb. rewrite (String.eqb_sym (fp_Kind b)).
  destruct (String.eqb _ _); apply bytewise_total.
Qed.

Lemma bytewise_refl s : bytewise_leb s s = true.
Proof. by destruct (bytewise_total s s). Qed.

#[local] Instance fingerprint_trans : Transitive fingerprint_le.
Proof.
  intros a b c. unfold fingerprint_le, fingerprint_leb.
  destruct (String.eqb_spec (fp_Kind a) (fp_Kind b)) as [E1|E1],
    (String.eqb_spec (fp_Kind b) (fp_Kind c)) as [E2|E2],
    (String.eqb_spec (fp_Kind a) (fp_Kind c)) as [E3|E3]; try congruence; intros Hab Hbc;
    try (by eapply bytewise_trans).
  destruct E1. apply bytewise_antisym; [done|]. by rewrite E3.
Qed.

Lemma fingerprint_keys a b :
  (same_fingerprint_key a b = true <-> fingerprint_key a = fingerprint_key b) /\
  (fingerprint_key a = fingerprint_key b -> fingerprint_le a b) /\
  (fingerprint_le a b -> fingerprint_le b a -> fingerprint_key a = fingerprint_key b).
Proof.
  unfold same_fingerprint_key, fingerprint_key, fingerprint_le, fingerprint_leb. split_and!.
  - rewrite andb_true_iff, !String.eqb_eq. split; [by intros [-> ->]|by intros [= -> ->]].
  - intros [= -> ->]. by rewrite String.eqb_refl, bytewise_refl.
  - rewrite (String.eqb_sym (fp_Kind b)). destruct (String.eqb_spec (fp_Kind a) (fp_Kind b)) as [->|Hne].
    + intros H1 H2. by rewrite (bytewise_antisym _ _ H1 H2).
    + intros H1 H2. destruct Hne. by apply bytewise_antisym.
Qed.

(** What a redelivery of the same scanner result looks like: a fresh identity
    and recording time, locations and fingerprints in some order. *)
Definition redelivered (s : ObservationSpec) (ls : list Location) (fs : list SourceFingerprint)
  (id : string) (t : time) : ObservationSpec := {|
  ID := id; WorkspaceID := WorkspaceID s; ScanID := ScanID s; RawArtifactID := RawArtifactID s;
  SourceResultIndex := SourceResultIndex s; ParserName := ParserName s; ParserVersion := ParserVersion s;
  SourcePointer := SourcePointer s; SourceGUID := SourceGUID s;
  SourceCorrelationGUID := SourceCorrelationGUID s; SourceRuleID := SourceRuleID s;
  SourceRuleIndex := SourceRuleIndex s; SourceSeverity := SourceSeverity s; SourceKind := SourceKind s;
  SourceBaselineState := SourceBaselineState s; MessageID := MessageID s; MessageText := MessageText s;
  MessageMarkdown := MessageMarkdown s; MessageArguments := MessageArguments s; Locations := ls;
  Fingerprints := fs; ObservedAt := ObservedAt s; RecordedAt := t |}.

Definition record_fingerprint (r : result error (canonicalObservation * string)) : option string :=
  match r with Ok (_, fp) => Some fp | Err _ => None end.

Lemma forallb_perm {A} (f : A -> bool) l l' : l ≡ₚ l' -> forallb f l = forallb f l'.
Proof. induction 1; simpl; try congruence. by rewrite !andb_assoc, (andb_comm (f y)). Qed.

Lemma canonical_locations ls ls' : ls ≡ₚ ls' ->
  let ok l := forallb validLocation l && neighbours_differ (fun a b => Ordinal a =? Ordinal b) l in
  ok (merge_sort ordinal_le ls) = ok (merge_sort ordinal_le ls') /\
  (ok (merge_sort ordinal_le ls') = true -> merge_sort ordinal_le ls = merge_sort ordinal_le ls').
Proof.
  intros Hl. cbv zeta beta.
  rewrite (forallb_perm validLocation (merge_sort ordinal_le ls) (merge_sort ordinal_le ls'))
    by (by rewrite !merge_sort_Permutation).
  destruct (canonical_unique Ordinal ordinal_le (fun a b => Ordinal a =? Ordinal b)
              ltac:(intros; apply Z.eqb_eq) ltac:(unfold ordinal_le; intros; lia)
              ltac:(unfold ordinal_le; intros; lia) ls ls' Hl) as [Hn Hu].
  rewrite <- Hn. split; [done|]. intros [_ H]%andb_prop. auto.
Qed.

(** The ordinals tell the locations of a valid observation apart. *)
Lemma canonical_ordinals o c fp : canonicalizeObservation o = Ok (c, fp) -> NoDup (map Ordinal (Locations o)).
Proof.
  unfold canonicalizeObservation. repeat (case_match; [|done]). simp_bool. intros _.
  assert (NoDup (map Ordinal (merge_sort ordinal_le (Locations o)))) as H6.
  { apply (neighbours_NoDup Ordinal ordinal_le (fun a b => Ordinal a =? Ordinal b)); try done.
    - intros. apply Z.eqb_eq.
    - unfold ordinal_le. intros. lia.
    - unfold ordinal_le. intros. lia.
    - apply StronglySorted_merge_sort; apply _. }
  by rewrite merge_sort_Permutation in H6.
Qed.

Lemma canonical_fingerprints fs fs' : fs ≡ₚ fs' ->
  let ok l := forallb validFingerprint l && neighbours_differ same_fingerprint_key l in
  ok (merge_sort fingerprint_le fs) = ok (merge_sort fingerprint_le fs') /\
  (ok (merge_sort fingerprint_le fs') = true -> merge_sort fingerprint_le fs = merge_sort fingerprint_le fs').
Proof.
  intros Hf. cbv zeta beta.
  rewrite (forallb_perm validFingerprint (merge_sort fingerprint_le fs) (merge_sort fingerprint_le fs'))
    by (by rewrite !merge_sort_Permutation).
  destruct (canonical_unique fingerprint_key fingerprint_le same_fingerprint_key
              ltac:(intros a b; apply (fingerprint_keys a b)) ltac:(intros a b; apply (fingerprint_keys a b))
              ltac:(intros a b; apply (fingerprint_keys a b)) fs fs' Hf) as [Hn Hu].
  rewrite <- Hn. split; [done|]. intros [_ H]%andb_prop. auto.
Qed.

Lemma canonical_value spec c fp : canonicalizeObservation spec = Ok (c, fp) ->
  validIdentity spec = true /\
  c = {| co_spec := spec; co_Locations := merge_sort ordinal_le (Locations spec);
         co_Fingerprints := merge_sort fingerprint_le (Fingerprints spec) |}.
Proof. unfold canonicalizeObservation. repeat (case_match; [|done]). by intros [= <- _]. Qed.

Lemma canonicalize_redelivered s ls fs id t :
  ls ≡ₚ Locations s -> fs ≡ₚ Fingerprints s ->
  validOpaqueID id = validOpaqueID (ID s) -> IsZero t = IsZero (RecordedAt s) ->
  canonicalizeObservation (redelivered s ls fs id t) =
  match canonicalizeObservation s with
  | Ok (c, fp) => Ok ({| co_spec := redelivered s ls fs id t; co_Locations := co_Locations c;
                         co_Fingerprints := co_Fingerprints c |}, fp)
  | Err e => Err e
  end.
Proof.
  intros Hl Hf Hid Ht. unfold canonicalizeObservation.
  assert (validIdentity (redelivered s ls fs id t) = validIdentity s) as ->.
  { unfold validIdentity. simpl. by rewrite Hid, Ht. }
  destruct (validIdentity s); [|done].
  assert (validSource (redelivered s ls fs id t) = validSource s) as ->.
  { unfold validSource, zlen. simpl. by rewrite Hl, Hf. }
  destruct (validSource s); [|done]. cbn [MessageArguments Locations Fingerprints redelivered].
  destruct (forallb validArgument _); [|done].
  destruct (canonical_locations ls (Locations s) Hl) as [-> Hu].
  destruct (_ && _); [rewrite (Hu eq_refl)|done].
  destruct (canonical_fingerprints fs (Fingerprints s) Hf) as [-> Hu'].
  destruct (_ && _); [by rewrite (Hu' eq_refl)|done].
Qed.

(** The canonical form is independent of order, identity and recording
    time: the same locations and source fingerprints in any order, under
    another identifier, are accepted or rejected alike and give the same
    record fingerprint, so a redelivery is recognised as the same
    observation. *)
Theorem canonical_order_insensitive s ls fs id t : ls ≡ₚ Locations s -> fs ≡ₚ Fingerprints s ->
  validOpaqueID id = validOpaqueID (ID s) -> IsZero t = IsZero (RecordedAt s) ->
  record_fingerprint (canonicalizeObservation (redelivered s ls fs id t)) =
  record_fingerprint (canonicalizeObservation s).
Proof.
  intros Hl Hf Hid Ht. rewrite canonicalize_redelivered by done.
  by destruct (canonicalizeObservation s) as [[c fp]|e].
Qed.

(** ** Recording an observation *)

Section Recording.
Context {pg : Postgres}.

Lemma details_no_commit c : no_commit (insert_details c).
Proof. apply no_commit_bind; [|intros []]; apply for_each_no_commit. Qed.

(** The scan an observation belongs to. *)
Definition scan_received (spec : ObservationSpec) (d : findings) : option time :=
  match scans d !! (WorkspaceID spec, ScanID spec) with
  | Some r => if String.eqb (sc_raw r) (RawArtifactID spec) then Some (sc_received r) else None
  | None => None
  end.

Definition created_observation (spec : ObservationSpec) (receivedAt : time) : StoredObservation := {|
  so_ID := ID spec; so_WorkspaceID := WorkspaceID spec; so_ScanID := ScanID spec;
  so_RawArtifactID := RawArtifactID spec; so_ReceivedAt := receivedAt;
  so_RecordedAt := RecordedAt spec; so_Created := true |}.

(** RecordObservation on a healthy connection, as one function. *)
Lemma RecordObservation_exec spec d : exec (RecordObservation spec) d =
  match canonicalizeObservation spec with
  | Err e => (Err e, d)
  | Ok (c, fp) =>
      match scan_received spec d with
      | None => (Err ErrScanNotFound, d)
      | Some receivedAt =>
          if RecordedAt spec <? receivedAt then (Err ErrInvalid, d)
          else record_outcome (insert_observation c fp receivedAt)
                 (fun d => option_map (fun r => (stored_observation r false, ob_fingerprint r)) (find_source spec d))
                 (ErrDatabase "insert observation") ErrObservationConflict ErrObservationConflict fp
                 (run_in (insert_details c)) (created_observation spec receivedAt) d
      end
  end.
Proof.
  unfold exec, run_on, RecordObservation.
  destruct (canonicalizeObservation spec) as [[c fp]|e]; [|done].
  rewrite run_begin. unfold query. cbn [bind run next_fault faults tick tail working committed].
  fold (scan_received spec d). destruct (scan_received spec d) as [rcv|]; [|done].
  destruct (RecordedAt spec <? rcv); [done|].
  pose proof (record_run (ErrDatabase "insert observation") (insert_observation c fp rcv)
    (ErrDatabase "read existing observation")
    (fun d => option_map (fun r => (stored_observation r false, ob_fingerprint r)) (find_source spec d))
    ErrObservationConflict ErrObservationConflict (ErrDatabase "finish observation replay")
    (ErrDatabase "commit observation") fp (insert_details c) (created_observation spec rcv) d
    (run_in (insert_details c)) (fun d1 => no_commit_run _ d d1 (details_no_commit c))) as <-.
  unfold created_observation. by destruct (run _ _).
Qed.

Lemma RecordObservation_atomic spec : atomic (RecordObservation spec).
Proof.
  unfold RecordObservation. destruct (canonicalizeObservation spec) as [[c fp]|e]; [|constructor].
  simpl. constructor. constructor. intros [rcv|]; [|constructor].
  destruct (RecordedAt spec <? rcv); [constructor|]. apply record_in_tx, details_no_commit.
Qed.

Definition location_key (spec : ObservationSpec) (l : Location) : string * string * Z :=
  (WorkspaceID spec, ID spec, Ordinal l).
Definition fingerprint_row_key (spec : ObservationSpec) (f : SourceFingerprint) : string * string * (string * string) :=
  (WorkspaceID spec, ID spec, (fp_Kind f, fp_Name f)).

(** The two loops of RecordObservation together. *)
Lemma insert_details_inserts c w u w' : run_in (insert_details c) w = (Ok u, w') ->
  w' = set_fingerprints (set_locations w (locations w')) (fingerprints w') /\
  (forall k v, locations w' !! k = Some v <->
     locations w !! k = Some v \/ exists l, l ∈ co_Locations c /\ k = location_key (co_spec c) l /\ v = l) /\
  (forall k v, fingerprints w' !! k = Some v <->
     fingerprints w !! k = Some v \/
     exists f, f ∈ co_Fingerprints c /\ k = fingerprint_row_key (co_spec c) f /\ v = fp_Value f).
Proof.
  unfold run_in, insert_details. rewrite run_bind.
  rewrite (no_commit_run _ _ _ (for_each_no_commit _ _ (co_Locations c))).
  destruct (run_in _ w) as [[[]|e] w1] eqn:E1; [|done]. simpl.
  rewrite (no_commit_run _ _ _ (for_each_no_commit _ _ (co_Fingerprints c))). simpl.
  destruct (run_in _ w1) as [r w2] eqn:E2. simpl. intros [= -> ->].
  apply (for_each_inserts locations set_locations (location_key (co_spec c)) id) in E1 as [Ew1 Hl];
    [|by intros []..|].
  2:{ intros a d v d'. unfold insert_location, location_key. destruct (_ && _) eqn:Eb; [|done].
      intros [= <- <-]. simp_bool. split; [|done]. by destruct (locations d !! _). }
  apply (for_each_inserts fingerprints set_fingerprints (fingerprint_row_key (co_spec c)) fp_Value) in E2
    as [Ew2 Hf]; [|by intros []..|].
  2:{ intros a d v d'. unfold insert_fingerprint, fingerprint_row_key. destruct (is_null _) eqn:Eb; [|done].
      intros [= <- <-]. split; [|done]. by destruct (fingerprints d !! _). }
  assert (locations w' = locations w1) as -> by (by rewrite Ew2).
  assert (fingerprints w1 = fingerprints w) as Ef by (by rewrite Ew1). rewrite Ef in Hf.
  split_and!; [|exact Hl|exact Hf]. by rewrite <- Ew1.
Qed.

Lemma find_source_insert spec d k r : find_source spec d = None -> observations d !! k = None ->
  same_source spec (co_spec (ob_value r)) = true ->
  find_source spec (set_observations d (<[k := r]> (observations d))) = Some r.
Proof.
  unfold find_source. simpl. intros Hnone Hk Hs.
  pose proof (rows_where_insert (fun r => same_source spec (co_spec (ob_value r))) (observations d) k r Hk) as Hp.
  simpl in Hp. rewrite Hs in Hp.
  destruct (rows_where _ (observations d)) as [|x l]; [|done]. simpl in Hp.
  by apply Permutation_singleton_r in Hp as ->.
Qed.

Lemma same_source_refl s : same_source s s = true.
Proof. unfold same_source. by rewrite !String.eqb_refl, Z.eqb_refl. Qed.

(** What a successful recording did: it found the same statement already
    stored, or stored it now. *)
Lemma RecordObservation_ok spec d out d' : exec (RecordObservation spec) d = (Ok out, d') ->
  exists c fp rcv r, canonicalizeObservation spec = Ok (c, fp) /\
  scan_received spec d = Some rcv /\ rcv <= RecordedAt spec /\ rcv <= store_time (RecordedAt spec) /\
  int4 (SourceResultIndex spec) = true /\ int4_opt (SourceRuleIndex spec) = true /\
  find_source spec d' = Some r /\ ob_fingerprint r = fp /\
  scans d' = scans d /\
  (d' = d /\ out = stored_observation r false \/
   r = new_observation_row c fp rcv /\ out = created_observation spec rcv /\
   observations d !! (WorkspaceID spec, ID spec) = None /\
   run_in (insert_details c) (set_observations d (<[(WorkspaceID spec, ID spec) := r]> (observations d)))
     = (Ok tt, d')).
Proof.
  rewrite RecordObservation_exec. destruct (canonicalizeObservation spec) as [[c fp]|e] eqn:Ec; [|done].
  assert (co_spec c = spec) as Hc by (by apply canonical_value in Ec as [_ ->]).
  destruct (scan_received spec d) as [rcv|] eqn:Escan; [|done].
  destruct (RecordedAt spec <? rcv) eqn:Et; [done|]. unfold record_outcome, same_fp, text_fingerprint, insert_observation.
  rewrite Hc. cbn [ob_recorded new_observation_row]. rewrite Hc.
  destruct (negb (_ && _ && _)) eqn:Eb; [done|]. simp_bool.
  destruct (find_source spec d) as [r|] eqn:Ef; simpl.
  - rewrite Ef. simpl. destruct (String.eqb_spec (ob_fingerprint r) fp) as [E|]; simpl; [|done].
    intros [= <- <-]. exists c, fp, rcv, r. naive_solver lia.
  - destruct (observations d !! _) eqn:Eo; simpl; [done|].
    set (d1 := set_observations d _). destruct (run_in (insert_details c) d1) as [[[]|e] d2] eqn:Er; [|done].
    intros [= <- <-]. pose proof (insert_details_inserts c d1 tt d2 Er) as (Hd2 & _).
    exists c, fp, rcv, (new_observation_row c fp rcv). split_and!; try done; [|by rewrite Hd2|by right].
    rewrite Hd2. apply (find_source_insert spec d); [done..|]. simpl. rewrite Hc. apply same_source_refl.
Qed.

(** Exactly one copy per source result: once an observation has been
    recorded (or found recorded), every redelivery of the same result, with a
    fresh identifier, a later time and its details in any order, succeeds,
    changes nothing and returns the identity of the first copy. *)
Theorem observation_replay spec ls fs id t d out d' :
  exec (RecordObservation spec) d = (Ok out, d') ->
  ls ≡ₚ Locations spec -> fs ≡ₚ Fingerprints spec ->
  validOpaqueID id = true -> IsZero t = false -> RecordedAt spec <= t ->
  exists out', exec (RecordObservation (redelivered spec ls fs id t)) d' = (Ok out', d') /\
    so_ID out' = so_ID out /\ so_ReceivedAt out' = so_ReceivedAt out /\ so_Created out' = false.
Proof.
  intros Hx Hl Hf Hid Ht Hle. set (spec' := redelivered spec ls fs id t).
  apply RecordObservation_ok in Hx as (c & fp & rcv & r & Ec & Hscan & H1 & H2 & Hi1 & Hi2 & Hfind & Hfp & Hscans & Hout).
  exists (stored_observation r false). split.
  - rewrite RecordObservation_exec. subst spec'.
    destruct (canonical_value _ _ _ Ec) as [Hv _]. unfold validIdentity in Hv. simp_bool.
    rewrite canonicalize_redelivered, Ec by (done || congruence).
    change (scan_received (redelivered spec ls fs id t) d') with (scan_received spec d').
    assert (scan_received spec d' = Some rcv) as -> by (by unfold scan_received; rewrite Hscans).
    cbn [RecordedAt redelivered]. rewrite (proj2 (Z.ltb_ge _ _)) by lia.
    unfold record_outcome, same_fp, text_fingerprint, insert_observation. cbn [co_spec ob_recorded new_observation_row].
    cbn [RecordedAt redelivered SourceResultIndex SourceRuleIndex]. rewrite Hi1, Hi2.
    pose proof (store_time_mono _ _ Hle). rewrite (proj2 (Z.leb_le _ _)) by lia. simpl.
    change (find_source (redelivered spec ls fs id t)) with (find_source spec).
    rewrite Hfind. simpl. rewrite Hfind. simpl. by rewrite Hfp, String.eqb_refl.
  - destruct Hout as [(-> & ->)|(-> & -> & _)]; [done|].
    by apply canonical_value in Ec as [_ ->].
Qed.
(** A recorded observation is complete: whatever the connection does, an
    answer with [Created] set means that the row is committed with its
    fingerprint and with exactly the locations and source fingerprints of the
    specification, and that every other row of every table is as before. *)
Theorem observation_complete spec d fs out d' :
  run_on (RecordObservation spec) d fs = (Ok out, d') -> so_Created out = true ->
  exists c fp rcv, canonicalizeObservation spec = Ok (c, fp) /\
  observations d !! (WorkspaceID spec, ID spec) = None /\
  observations d' = <[(WorkspaceID spec, ID spec) := new_observation_row c fp rcv]> (observations d) /\
  (forall k v, locations d' !! k = Some v <->
     locations d !! k = Some v \/ exists l, l ∈ Locations spec /\ k = location_key spec l /\ v = l) /\
  (forall k v, fingerprints d' !! k = Some v <->
     fingerprints d !! k = Some v \/
     exists f, f ∈ Fingerprints spec /\ k = fingerprint_row_key spec f /\ v = fp_Value f) /\
  scans d' = scans d /\ normalizations d' = normalizations d /\ outcomes d' = outcomes d.
Proof.
  intros Hx Hcr. apply run_on_ok in Hx.
  apply RecordObservation_ok in Hx as (c & fp & rcv & r & Ec & _ & _ & _ & _ & _ & _ & _ & _ & [(_ & ->)|Hout]);
    [done|].
  destruct Hout as (-> & _ & Hnone & Hrun).
  apply insert_details_inserts in Hrun as (Ed' & Hl & Hf).
  destruct (canonical_value _ _ _ Ec) as [_ Hc]. rewrite Hc in Hl, Hf. simpl in Hl, Hf.
  exists c, fp, rcv. split_and!; try done; try (by rewrite Ed').
  - intros k v. rewrite Hl. by setoid_rewrite (merge_sort_Permutation ordinal_le).
  - intros k v. rewrite Hf. by setoid_rewrite (merge_sort_Permutation fingerprint_le).
Qed.
(** ** Recording a normalization *)

Definition observation_recorded (spec : NormalizationSpec) (d : findings) : option time :=
  option_map ob_recorded (observations d !! (ns_WorkspaceID spec, ns_ObservationID spec)).

Definition find_normalization (spec : NormalizationSpec) (d : findings) : option (StoredNormalization * string) :=
  option_map (fun r => (stored_normalization spec (no_at r) false, no_fingerprint r))
    (normalizations d !! normalization_key spec).

Lemma RecordNormalization_exec spec d : exec (RecordNormalization spec) d =
  match canonicalizeNormalization spec with
  | Err e => (Err e, d)
  | Ok (c, fp) =>
      match observation_recorded spec d with
      | None => (Err ErrObservationNotFound, d)
      | Some recordedAt =>
          if ns_NormalizedAt spec <? recordedAt then (Err ErrNormalizationInvalid, d)
          else record_outcome (insert_normalization c fp) (find_normalization spec)
                 (ErrDatabase "insert observation normalization")
                 (ErrDatabase "read existing observation normalization") ErrNormalizationConflict fp
                 (fun d => (Ok tt, d)) (stored_normalization spec (ns_NormalizedAt spec) true) d
      end
  end.
Proof.
  unfold exec, run_on, RecordNormalization.
  destruct (canonicalizeNormalization spec) as [[c fp]|e]; [|done].
  rewrite run_begin. unfold query. cbn [bind run next_fault faults tick tail working committed].
  fold (observation_recorded spec d). destruct (observation_recorded spec d) as [rec|]; [|done].
  destruct (ns_NormalizedAt spec <? rec); [done|].
  pose proof (record_run (ErrDatabase "insert observation normalization") (insert_normalization c fp)
    (ErrDatabase "read existing observation normalization") (find_normalization spec)
    (ErrDatabase "read existing observation normalization") ErrNormalizationConflict
    (ErrDatabase "finish observation normalization replay") (ErrDatabase "commit observation normalization")
    fp (done_with tt) (stored_normalization spec (ns_NormalizedAt spec) true) d
    (fun d => (Ok tt, d)) (fun d1 => eq_refl)) as <-.
  by destruct (run _ _).
Qed.

Lemma RecordNormalization_atomic spec : atomic (RecordNormalization spec).
Proof.
  unfold RecordNormalization. destruct (canonicalizeNormalization spec) as [[c fp]|e]; [|constructor].
  simpl. constructor. constructor. intros [rcv|]; [|constructor].
  destruct (ns_NormalizedAt spec <? rcv); [constructor|]. apply record_in_tx. constructor.
Qed.

(** ** Rows are never changed *)

(** Every row of [d] is in [d'] unchanged; scans are not written here. *)
Record grows (d d' : findings) : Prop := {
  grows_scans : scans d' = scans d;
  grows_observations : observations d ⊆ observations d';
  grows_locations : locations d ⊆ locations d';
  grows_fingerprints : fingerprints d ⊆ fingerprints d';
  grows_normalizations : normalizations d ⊆ normalizations d';
  grows_outcomes : outcomes d ⊆ outcomes d'
}.

#[global] Instance grows_preorder : PreOrder grows.
Proof.
  split; [by split|]. intros d1 d2 d3 [] []. split; [congruence|etrans; eassumption..].
Qed.

Lemma RecordObservation_grows spec d : grows d (snd (exec (RecordObservation spec) d)).
Proof.
  destruct (exec (RecordObservation spec) d) as [[out|e] d'] eqn:E.
  - apply RecordObservation_ok in E as (c & fp & rcv & r & _ & _ & _ & _ & _ & _ & _ & _ & _ & [(-> & _)|Hout]);
      [done|].
    destruct Hout as (_ & _ & Hnone & Hrun). apply insert_details_inserts in Hrun as (Ed' & Hl & Hf).
    simpl. split; try (by rewrite Ed').
    + rewrite Ed'. simpl. by apply insert_subseteq.
    + apply map_subseteq_spec. intros k v Hk. apply Hl. by left.
    + apply map_subseteq_spec. intros k v Hk. apply Hf. by left.
  - enough (d' = d) as -> by done. revert E. rewrite RecordObservation_exec.
    unfold record_outcome, same_fp, text_fingerprint. repeat case_match; congruence.
Qed.

Lemma RecordNormalization_grows spec d : grows d (snd (exec (RecordNormalization spec) d)).
Proof.
  rewrite RecordNormalization_exec. unfold record_outcome, same_fp, text_fingerprint, insert_normalization.
  repeat case_match; simplify_eq; simpl; try done.
  split; try done. simpl. apply insert_subseteq. by destruct (normalizations d !! _).
Qed.
End Recording.

End Finding.
