(* ===== verification/Normalizer.v ===== *)
(** * SARIF normalization (src/internal/normalization/sarif/normalizer.go)

    [Module Normalizer] models the versioned interpretation of one observation
    and shows that it is the one docs/normalization/sarif.md describes, and when
    the validation of the finding store accepts it. *)

From S2P Require Import Prelude GoStrings Finding.

Local Open Scope Z_scope.

Module Normalizer.
Import Finding.

Definition Name : string := "sarif".
Definition Version : string := "1".

(** [parsingsarif.Format] and [parsingsarif.ParserVersion]. *)
Definition Format : string := "sarif".
Definition SupportedParserVersion : string := "1".

Inductive error := ErrUnsupportedObservation.

(** [type Normalizer struct{}]; a nil receiver is [None]. *)
Inductive Normalizer := New.

Definition normalizeSeverity (source : string) : string :=
  if String.eqb source "none" then SeverityNotApplicable
  else if String.eqb source "note" then SeverityLow
  else if String.eqb source "warning" then SeverityMedium
  else if String.eqb source "error" then SeverityHigh
  else SeverityUnknown.

Definition unknown_location : NormalizedLocation := {|
  n_Kind := LocationUnknown; n_URI := ""; n_URIBaseID := "";
  n_StartLine := None; n_StartColumn := None; n_EndLine := None; n_EndColumn := None |}.

Definition artifact_location (l : Location) : NormalizedLocation := {|
  n_Kind := LocationArtifact; n_URI := URI l; n_URIBaseID := URIBaseID l;
  n_StartLine := StartLine l; n_StartColumn := StartColumn l;
  n_EndLine := EndLine l; n_EndColumn := EndColumn l |}.

Definition primaryArtifactLocation (ls : list Location) : option NormalizedLocation :=
  match ls with
  | [] => None
  | first :: rest =>
      let primary := argmin (fun candidate primary => Ordinal candidate <? Ordinal primary) first rest in
      if String.eqb (URI primary) "" then None else Some (artifact_location primary)
  end.

Definition Normalize (normalizer : option Normalizer) (o : ObservationSpec) (normalizedAt : time)
  : result error NormalizationSpec :=
  match normalizer with
  | None => Err ErrUnsupportedObservation
  | Some New =>
      guard! String.eqb (ParserName o) Format && String.eqb (ParserVersion o) SupportedParserVersion
        else ErrUnsupportedObservation in
      let rule := negb (String.eqb (SourceRuleID o) "") in
      Ok {| ns_WorkspaceID := WorkspaceID o; ns_ObservationID := ID o; ns_NormalizerName := Name;
            ns_NormalizerVersion := Version; ns_Category := CategoryUnknown;
            ns_Severity := normalizeSeverity (SourceSeverity o);
            ns_RuleKind := if rule then RuleSource else RuleUnknown;
            ns_RuleID := if rule then SourceRuleID o else "";
            ns_Location := default unknown_location (primaryArtifactLocation (Locations o));
            ns_NormalizedAt := normalizedAt |}
  end.

(** ** Properties *)

Lemma severity_known s : knownNormalizedSeverity (normalizeSeverity s) = true.
Proof. unfold normalizeSeverity. by split_cases. Qed.

(** The location chosen: the one with the least ordinal, when it names an
    artifact. *)
Definition primary_of (ls : list Location) (l : Location) : Prop :=
  l ∈ ls /\ forall l', l' ∈ ls -> Ordinal l <= Ordinal l'.

Lemma primary_spec ls :
  ls = [] /\ primaryArtifactLocation ls = None \/
  exists l, primary_of ls l /\
    primaryArtifactLocation ls = if String.eqb (URI l) "" then None else Some (artifact_location l).
Proof.
  destruct ls as [|a ls]; [by left|right]. unfold primaryArtifactLocation. eexists. split; [|done].
  destruct (argmin_minimal (fun x y : Location => Ordinal x <? Ordinal y) a ls) as [Ha Hl];
    [intros x y z ? ?; simp_bool; apply Z.ltb_ge; lia|intros x y ?; simp_bool; apply Z.ltb_ge; lia|].
  destruct (argmin_elem (fun x y : Location => Ordinal x <? Ordinal y) a ls) as [E|E];
    (split; [set_solver|]); intros l' [->|Hin]%elem_of_cons; simp_bool; try lia;
    rewrite Forall_forall in Hl; specialize (Hl _ Hin); simpl in Hl; simp_bool; lia.
Qed.

Lemma canonical_locations_valid o c fp l : canonicalizeObservation o = Ok (c, fp) -> l ∈ Locations o ->
  validLocation l = true.
Proof.
  unfold canonicalizeObservation. repeat (case_match; [|done]). simp_bool. intros _ Hl.
  match goal with H : forallb validLocation _ = true |- _ => rewrite forallb_forall in H; apply H end.
  rewrite <- list_elem_of_In. by rewrite merge_sort_Permutation.
Qed.

Lemma artifact_valid l : validLocation l = true -> URI l <> "" ->
  validNormalizedLocation (artifact_location l) = validNormalizedRegionOrder (artifact_location l).
Proof.
  intros Hv Hu. unfold validLocation in Hv. simp_bool. unfold validNormalizedLocation. simpl.
  repeat match goal with H : ?b = true |- context [?b] => rewrite H end.
  by destruct (String.eqb_spec (URI l) "").
Qed.

(** The ordinals of an accepted observation tell its locations apart. *)
Lemma canonical_primary_unique o c fp l l' : canonicalizeObservation o = Ok (c, fp) ->
  primary_of (Locations o) l -> primary_of (Locations o) l' -> l = l'.
Proof.
  intros Hc [Hl Hm] [Hl' Hm']. pose proof (canonical_ordinals _ _ _ Hc) as Hnd.
  assert (Ordinal l = Ordinal l') as Ho by (pose proof (Hm _ Hl'); pose proof (Hm' _ Hl); lia).
  apply list_elem_of_lookup in Hl as [i Hi], Hl' as [k Hk]. assert (i = k) as ->; [|congruence].
  apply (NoDup_lookup _ i k (Ordinal l) Hnd); rewrite list_lookup_fmap; [by rewrite Hi|by rewrite Hk, Ho].
Qed.

(** The mapping of docs/normalization/sarif.md; every other level is unknown. *)
Definition severity_table : list (string * string) :=
  [("error", "high"); ("warning", "medium"); ("note", "low"); ("none", "not_applicable")].

Lemma severity_tabulated s : (forall v, (s, v) ∈ severity_table -> normalizeSeverity s = v) /\
  (s ∉ map fst severity_table -> normalizeSeverity s = SeverityUnknown).
Proof.
  unfold normalizeSeverity, severity_table. split; [set_solver|]. cbn [map fst]. intros H.
  repeat match goal with |- context [String.eqb s ?k] => destruct (String.eqb_spec s k) as [->|]; [set_solver|] end. done.
Qed.

(** What the documentation says of the normalization of an observation. *)
Record documented (o : ObservationSpec) (t : time) (n : NormalizationSpec) : Prop := {
  dc_identity : ns_WorkspaceID n = WorkspaceID o /\ ns_ObservationID n = ID o /\
    ns_NormalizerName n = "sarif" /\ ns_NormalizerVersion n = "1" /\ ns_NormalizedAt n = t;
  dc_severity : forall v, (SourceSeverity o, v) ∈ severity_table -> ns_Severity n = v;
  dc_unknown : SourceSeverity o ∉ map fst severity_table -> ns_Severity n = "unknown";
  dc_category : ns_Category n = "unknown";
  dc_rule : if String.eqb (SourceRuleID o) "" then ns_RuleKind n = "unknown" /\ ns_RuleID n = ""
            else ns_RuleKind n = "source" /\ ns_RuleID n = SourceRuleID o;
  dc_nowhere : Locations o = [] -> ns_Location n = unknown_location;
  dc_location : forall l, primary_of (Locations o) l ->
    ns_Location n = if String.eqb (URI l) "" then unknown_location else artifact_location l
}.

Lemma Normalize_documented o c fp t : canonicalizeObservation o = Ok (c, fp) -> ParserName o = Format ->
  ParserVersion o = SupportedParserVersion -> exists n, Normalize (Some New) o t = Ok n /\ documented o t n.
Proof.
  intros Hc Hn Hv. unfold Normalize. rewrite Hn, Hv. eexists. split; [reflexivity|].
  destruct (severity_tabulated (SourceSeverity o)) as [Hs Hu]. split; simpl; try done.
  - by destruct (String.eqb (SourceRuleID o) "").
  - by intros ->.
  - intros l Hl. destruct (primary_spec (Locations o)) as [[E _]|(l' & Hl' & ->)].
    + destruct Hl as [Hl _]. rewrite E in Hl. by apply not_elem_of_nil in Hl.
    + rewrite (canonical_primary_unique _ _ _ _ _ Hc Hl Hl'). by destruct (String.eqb (URI l') "").
Qed.

(** What the store asks of a normalization besides the order of a region. *)
Lemma documented_valid o c fp t n : canonicalizeObservation o = Ok (c, fp) -> IsZero t = false -> documented o t n ->
  is_ok (canonicalizeNormalization n) = validNormalizedRegionOrder (ns_Location n).
Proof.
  intros Hc Ht [(Hw & Hi & Hn & Hv & Hat) Hs Hu Hca Hr Hno Hl].
  destruct (canonical_value _ _ _ Hc) as [Hid _]. unfold validIdentity in Hid. simp_bool.
  assert (validSource o = true) as Hso.
  { clear -Hc. revert Hc. unfold canonicalizeObservation. repeat (case_match; [|done]). done. }
  unfold validSource in Hso. simp_bool.
  assert (validNormalizedRule (ns_RuleKind n) (ns_RuleID n) = true) as Hrule.
  { unfold validOptionalText in *. destruct (String.eqb_spec (SourceRuleID o) ""), Hr as [-> ->]; [done|].
    unfold validNormalizedRule. cbn. by destruct (String.eqb_spec (SourceRuleID o) ""). }
  assert (knownNormalizedSeverity (ns_Severity n) = true) as Hsev.
  { destruct (decide (SourceSeverity o ∈ map fst severity_table)) as [Hin|Hout]; [|by rewrite (Hu Hout)].
    apply list_elem_of_fmap in Hin as ([x v] & Hx & Hin'). cbn in Hx. subst x. rewrite (Hs v Hin').
    unfold severity_table in Hin'. revert Hin'. clear. set_unfold. intros Hin. by destruct_or! Hin; simplify_eq. }
  unfold canonicalizeNormalization. rewrite Hw, Hi, Hn, Hv, Hat, Hca, Ht, Hrule, Hsev.
  repeat match goal with H : validOpaqueID _ = true |- _ => rewrite H end.
  cbn -[validNormalizedLocation validNormalizedRegionOrder].
  assert (validNormalizedLocation (ns_Location n) = validNormalizedRegionOrder (ns_Location n)) as ->;
    [|by destruct (validNormalizedRegionOrder _)].
  destruct (primary_spec (Locations o)) as [[E _]|(l & Hp & _)]; [by rewrite (Hno E)|]. rewrite (Hl l Hp).
  destruct (String.eqb_spec (URI l) ""); [done|]. apply artifact_valid; [|done].
  destruct Hp. by eapply canonical_locations_valid.
Qed.

(** C39.  Every observation the finding store takes for valid, from the
    supported parser, has the normalization the documentation describes: its
    identity and the normalizer's name and version, the severity of the table
    (unknown for every other level), an unknown category, the source rule
    when there is one, and the location with the least ordinal, of which there
    is at most one, unknown when there is none or it has no URI, later ones
    being never promoted.  It passes the store's validation
    (canonicalizeNormalization) exactly when the region of its location is
    ordered. *)
Theorem normalization_accepted o c fp t :
  canonicalizeObservation o = Ok (c, fp) -> ParserName o = Format ->
  ParserVersion o = SupportedParserVersion -> IsZero t = false ->
  exists n, Normalize (Some New) o t = Ok n /\ documented o t n /\
    is_ok (canonicalizeNormalization n) = validNormalizedRegionOrder (ns_Location n).
Proof.
  intros Hc Hn Hv Ht. destruct (Normalize_documented o c fp t Hc Hn Hv) as (n & Hx & Hd).
  exists n. split; [done|]. split; [done|]. by eapply documented_valid.
Qed.

End Normalizer.
