(* ===== verification/Correlation.v ===== *)
(** * Correlation outcomes (src/internal/correlation)

    [Module Correlation] models the canonical form of an uncorrelated outcome
    (types.go), the dispatch decision that produces one (dispatch.go) and its
    immutable record (postgres.go).  The last section composes the three
    recording operations of the finding and correlation stores over arbitrary
    connection failures. *)

From S2P Require Import Prelude GoStrings Encoding Txn Json Queue Records Finding.

Local Open Scope Z_scope.

Module Correlation.
Import Finding.

Inductive error :=
| ErrInvalid
| ErrOutcomeConflict
| ErrNormalizationNotFound
| ErrDatabase (action : string).

Definition algorithmNamePattern : string -> bool := match_head is_lower name_char 63.
Definition StateUncorrelated : string := "uncorrelated".

Definition ReasonTargetIdentityUnknown : string := "target_identity_unknown".
Definition ReasonAnalysisKindUnknown : string := "analysis_kind_unknown".
Definition ReasonScannerFamilyUnknown : string := "scanner_family_unknown".
Definition ReasonRuleIdentityUnknown : string := "rule_identity_unknown".
Definition ReasonPackageIdentityUnknown : string := "package_identity_unknown".
Definition ReasonVulnerabilityIdentityUnknown : string := "vulnerability_identity_unknown".
Definition ReasonLocationIdentityUnknown : string := "location_identity_unknown".
Definition ReasonSourceContextUnknown : string := "source_context_unknown".
Definition ReasonSourceContextUnsafe : string := "source_context_unsafe".

(** [reasonOrder], a Go map with the ranks of the nine codes. *)
Definition reasonOrder : list (string * Z) :=
  [(ReasonTargetIdentityUnknown, 0); (ReasonAnalysisKindUnknown, 1); (ReasonScannerFamilyUnknown, 2);
   (ReasonRuleIdentityUnknown, 3); (ReasonPackageIdentityUnknown, 4);
   (ReasonVulnerabilityIdentityUnknown, 5); (ReasonLocationIdentityUnknown, 6);
   (ReasonSourceContextUnknown, 7); (ReasonSourceContextUnsafe, 8)].

Definition lookup_reason (r : string) : option Z :=
  option_map snd (List.find (fun p => String.eqb r (fst p)) reasonOrder).

(** Indexing a Go map with an absent key gives the zero value. *)
Definition rank (r : string) : Z := default 0 (lookup_reason r).
Definition rank_le (a b : string) : Prop := rank a <= rank b.
#[global] Instance rank_le_dec : RelDecision rank_le.
Proof. intros a b. unfold rank_le. apply _. Defined.

Record UncorrelatedSpec := {
  WorkspaceID : string; ObservationID : string; NormalizerName : string; NormalizerVersion : string;
  Algorithm : string; AlgorithmVersion : string; Reasons : list string; EvaluatedAt : time
}.

Record StoredOutcome := {
  so_WorkspaceID : string; so_ObservationID : string; so_Algorithm : string; so_AlgorithmVersion : string;
  so_State : string; so_Reasons : list string; so_EvaluatedAt : time; so_Created : bool
}.

(** The canonical value: the fields of the specification without its time, the
    state, and the sorted reasons. *)
Record canonicalOutcome := { ca_spec : UncorrelatedSpec; ca_State : string; ca_Reasons : list string }.

Definition json_outcome (c : canonicalOutcome) : json :=
  let s := ca_spec c in
  JObj [("workspace_id", JStr (WorkspaceID s)); ("observation_id", JStr (ObservationID s));
        ("normalizer_name", JStr (NormalizerName s)); ("normalizer_version", JStr (NormalizerVersion s));
        ("algorithm", JStr (Algorithm s)); ("algorithm_version", JStr (AlgorithmVersion s));
        ("state", JStr (ca_State c)); ("reason_codes", JArr (map JStr (ca_Reasons c)))].

Definition validHeader (s : UncorrelatedSpec) : bool :=
  validOpaqueID (WorkspaceID s) && validOpaqueID (ObservationID s) &&
  algorithmNamePattern (NormalizerName s) && validText (NormalizerVersion s) 1 64 &&
  algorithmNamePattern (Algorithm s) && validText (AlgorithmVersion s) 1 64 &&
  negb (IsZero (EvaluatedAt s)).

Definition canonicalizeUncorrelated (s : UncorrelatedSpec) : result error (canonicalOutcome * string) :=
  guard! validHeader s && negb (zlen (Reasons s) =? 0) && (zlen (Reasons s) <=? zlen reasonOrder)
    else ErrInvalid in
  guard! forallb (fun r => negb (is_null (lookup_reason r))) (Reasons s) else ErrInvalid in
  let reasons := merge_sort rank_le (Reasons s) in
  guard! neighbours_differ String.eqb reasons else ErrInvalid in
  let c := {| ca_spec := s; ca_State := StateUncorrelated; ca_Reasons := reasons |} in
  Ok (c, sha256 (print (json_outcome c))).

(** ** Dispatch *)

Definition DispatchAlgorithm : string := "correlation-dispatch".
Definition DispatchAlgorithmVersion : string := "1".
Definition DispatchMappedAlgorithmVersion : string := "2".
Definition analysisKindPattern : string -> bool := match_head is_lower name_char 127.

Record DispatchSpec := {
  d_WorkspaceID : string; d_ObservationID : string; d_NormalizerName : string;
  d_NormalizerVersion : string; StableTargetIdentityKnown : bool; AnalysisKind : string;
  ScannerFamily : string; SourceContextKnown : bool; SourceContextSafe : bool; d_EvaluatedAt : time
}.

Definition unknown_kind (s : string) : bool := String.eqb s "" || String.eqb s "unknown".

(** The second group of reasons, once the target and the analysis kind are
    known. *)
Definition family_reasons (d : DispatchSpec) : result error (list string) :=
  guard! String.eqb (AnalysisKind d) "sast" else ErrInvalid in
  guard! unknown_kind (ScannerFamily d) || analysisKindPattern (ScannerFamily d) else ErrInvalid in
  Ok ((if unknown_kind (ScannerFamily d) then [ReasonScannerFamilyUnknown] else []) ++
      (if negb (SourceContextKnown d) then [ReasonSourceContextUnknown]
       else if negb (SourceContextSafe d) then [ReasonSourceContextUnsafe] else [])).

Definition NewDispatchUncorrelated (d : DispatchSpec) : result error UncorrelatedSpec :=
  let reasons := (if negb (StableTargetIdentityKnown d) then [ReasonTargetIdentityUnknown] else []) ++
                 (if unknown_kind (AnalysisKind d) then [ReasonAnalysisKindUnknown] else []) in
  guard! unknown_kind (AnalysisKind d) || analysisKindPattern (AnalysisKind d) else ErrInvalid in
  guard! negb (SourceContextSafe d && negb (SourceContextKnown d)) else ErrInvalid in
  try! rv := match reasons with
             | [] => rbind (family_reasons d) (fun rs => Ok (rs, DispatchMappedAlgorithmVersion))
             | _ => Ok (reasons, DispatchAlgorithmVersion)
             end in
  guard! negb (zlen (fst rv) =? 0) else ErrInvalid in
  let outcome := {| WorkspaceID := d_WorkspaceID d; ObservationID := d_ObservationID d;
                    NormalizerName := d_NormalizerName d; NormalizerVersion := d_NormalizerVersion d;
                    Algorithm := DispatchAlgorithm; AlgorithmVersion := snd rv; Reasons := fst rv;
                    EvaluatedAt := d_EvaluatedAt d |} in
  try! _checked := canonicalizeUncorrelated outcome in
  Ok outcome.

(** ** RecordUncorrelated *)

Section Store.
Context {pg : Postgres}.

Definition outcome_key (s : UncorrelatedSpec) : string * string * (string * string) :=
  (WorkspaceID s, ObservationID s, (Algorithm s, AlgorithmVersion s)).
Definition source_key (s : UncorrelatedSpec) : string * string * (string * string) :=
  (WorkspaceID s, ObservationID s, (NormalizerName s, NormalizerVersion s)).

(** The table's CHECK on reason_codes: between one and nine codes, equal to the
    known codes that occur in the array, in order. *)
Definition reasons_canonical (rs : list string) : bool :=
  negb (zlen rs =? 0) && (zlen rs <=? 9) &&
  bool_decide (rs = List.filter (fun r => existsb (String.eqb r) rs) (map fst reasonOrder)).

Definition insert_outcome (c : canonicalOutcome) (fp : string) (d : findings) : option (Z * findings) :=
  let s := ca_spec c in
  if negb (reasons_canonical (ca_Reasons c)) then None
  else if negb (is_null (outcomes d !! outcome_key s)) then Some (0, d)
  else Some (1, set_outcomes d
         (<[outcome_key s := {| ou_normalizer := (NormalizerName s, NormalizerVersion s);
                                ou_state := ca_State c; ou_reasons := ca_Reasons c;
                                ou_at := store_time (EvaluatedAt s); ou_fingerprint := fp |}]> (outcomes d))).

Definition selectStoredOutcome (s : UncorrelatedSpec) (d : findings) : option (StoredOutcome * string) :=
  option_map (fun r =>
    ({| so_WorkspaceID := WorkspaceID s; so_ObservationID := ObservationID s; so_Algorithm := Algorithm s;
        so_AlgorithmVersion := AlgorithmVersion s; so_State := ou_state r; so_Reasons := ou_reasons r;
        so_EvaluatedAt := ou_at r; so_Created := false |}, ou_fingerprint r))
    (outcomes d !! outcome_key s).

Definition created_outcome (s : UncorrelatedSpec) (c : canonicalOutcome) : StoredOutcome := {|
  so_WorkspaceID := WorkspaceID s; so_ObservationID := ObservationID s; so_Algorithm := Algorithm s;
  so_AlgorithmVersion := AlgorithmVersion s; so_State := StateUncorrelated; so_Reasons := ca_Reasons c;
  so_EvaluatedAt := EvaluatedAt s; so_Created := true |}.

Definition normalized_at (s : UncorrelatedSpec) (d : findings) : option time :=
  option_map no_at (normalizations d !! source_key s).

Definition RecordUncorrelated (spec : UncorrelatedSpec) : prog findings error StoredOutcome :=
  match canonicalizeUncorrelated spec with
  | Err e => fail e
  | Ok (c, fp) =>
      do! begin (ErrDatabase "begin recording correlation outcome") in
      let! found := query (ErrDatabase "read correlation source normalization") (normalized_at spec) in
      match found with
      | None => fail ErrNormalizationNotFound
      | Some normalizedAt =>
          if EvaluatedAt spec <? normalizedAt then fail ErrInvalid
          else
            record (ErrDatabase "insert correlation outcome") (insert_outcome c fp)
              (ErrDatabase "read existing correlation outcome") (selectStoredOutcome spec)
              ErrOutcomeConflict ErrOutcomeConflict
              (ErrDatabase "finish correlation outcome replay") (ErrDatabase "commit correlation outcome")
              fp (done_with tt) (created_outcome spec c)
      end
  end.
End Store.

(** ** Canonical reasons *)

Definition reason_codes : list string := map fst reasonOrder.

Lemma lookup_reason_known r : negb (is_null (lookup_reason r)) = true <-> r ∈ reason_codes.
Proof.
  unfold lookup_reason, reason_codes. rewrite list_elem_of_In, in_map_iff. split.
  - destruct (List.find _ _) as [[r' n]|] eqn:E; [|done]. intros _.
    apply find_some in E as [Hin Heq]. exists (r', n). simpl in *. simp_bool. by subst.
  - intros ([r' n] & <- & Hin). destruct (List.find _ reasonOrder) eqn:E; [done|].
    apply find_none with (x := (r', n)) in E; [|done]. simpl in E. by rewrite String.eqb_refl in E.
Qed.

Lemma rank_inj a b : a ∈ reason_codes -> b ∈ reason_codes -> rank a = rank b -> a = b.
Proof.
  unfold reason_codes. rewrite !list_elem_of_In. simpl. intros Ha Hb.
  repeat destruct Ha as [<-|Ha]; try done; repeat destruct Hb as [<-|Hb]; done.
Qed.

#[local] Instance rank_trans : Transitive rank_le.
Proof. intros a b c. unfold rank_le. lia. Qed.
#[local] Instance rank_total : Total rank_le.
Proof. intros a b. unfold rank_le. lia. Qed.

Lemma filter_codes_sorted f : StronglySorted rank_le (List.filter f reason_codes).
Proof.
  assert (forall l, StronglySorted rank_le l -> StronglySorted rank_le (List.filter f l)) as H.
  { induction 1 as [|a l Hs IH Ha]; simpl; [constructor|]. destruct (f a); [|done].
    constructor; [done|]. rewrite Forall_forall in *. intros x. rewrite list_elem_of_In, filter_In.
    rewrite <- list_elem_of_In. intros [? _]. auto. }
  apply H. unfold reason_codes. simpl. repeat constructor; unfold rank_le; vm_compute; discriminate.
Qed.

Lemma reason_codes_NoDup : NoDup reason_codes.
Proof. apply (bool_decide_eq_true (NoDup reason_codes)). vm_compute. reflexivity. Qed.

(** The known codes of a list, in canonical order. *)
Definition canonical_reasons (rs : list string) : list string :=
  List.filter (fun r => existsb (String.eqb r) rs) reason_codes.

Lemma elem_of_canonical rs r : r ∈ canonical_reasons rs <-> r ∈ reason_codes /\ r ∈ rs.
Proof.
  unfold canonical_reasons. rewrite list_elem_of_In, filter_In, <- list_elem_of_In, existsb_exists.
  split; intros [H1 H2]; split; try done.
  - destruct H2 as (x & Hx & He). simp_bool. subst. by rewrite list_elem_of_In.
  - exists r. by rewrite <- list_elem_of_In, String.eqb_refl.
Qed.

Lemma sorted_reasons rs : NoDup rs -> (forall r, r ∈ rs -> r ∈ reason_codes) ->
  merge_sort rank_le rs = canonical_reasons rs.
Proof.
  intros Hnd Hk. eapply (StronglySorted_unique_strong rank_le).
  - intros a b Ha Hb Hab Hba. rewrite merge_sort_Permutation in Ha. apply elem_of_canonical in Hb as [Hb _].
    apply rank_inj; [auto..|]. unfold rank_le in *. lia.
  - apply StronglySorted_merge_sort; apply _.
  - apply filter_codes_sorted.
  - rewrite merge_sort_Permutation. apply NoDup_Permutation; [done| |].
    + unfold canonical_reasons. apply NoDup_ListNoDup, List.NoDup_filter, NoDup_ListNoDup, reason_codes_NoDup.
    + intros r. rewrite elem_of_canonical. naive_solver.
Qed.

Lemma sorted_distinct rs : (forall r, r ∈ rs -> r ∈ reason_codes) ->
  neighbours_differ String.eqb (merge_sort rank_le rs) = true <-> NoDup rs.
Proof.
  intros Hk.
  assert (StronglySorted rank_le (merge_sort rank_le rs)) as Hs by (apply StronglySorted_merge_sort; apply _).
  rewrite <- (merge_sort_Permutation rank_le rs) at 2.
  assert (forall r, r ∈ merge_sort rank_le rs -> r ∈ reason_codes) as Hk'
    by (intros r; rewrite merge_sort_Permutation; auto).
  induction Hs as [|a l Hs IH Ha]; [by split; [constructor|]|].
  destruct l as [|b l]; [split; [intros _; apply NoDup_singleton|done]|].
  cbn [neighbours_differ]. rewrite andb_true_iff, negb_true_iff, String.eqb_neq, IH by set_solver.
  rewrite (NoDup_cons a). split; [|set_solver]. intros [Hab Hnd]. split; [|done].
  intros [->|Hin]%elem_of_cons; [done|]. apply Hab, rank_inj; [set_solver..|].
  inversion_clear Hs as [|? ? Hs' Hb]. rewrite Forall_forall in Ha, Hb.
  pose proof (Ha b ltac:(left)). pose proof (Hb a Hin). unfold rank_le in *. lia.
Qed.

Lemma NoDup_codes_length rs : NoDup rs -> (forall r, r ∈ rs -> r ∈ reason_codes) -> zlen rs <= zlen reasonOrder.
Proof.
  intros Hnd Hk. unfold zlen. pose proof (submseteq_length _ _ (NoDup_submseteq _ _ Hnd Hk)) as H.
  unfold reason_codes in H. rewrite length_map in H. lia.
Qed.

(** The canonical form on a valid header. *)
Definition valid_reasons (rs : list string) : Prop :=
  rs <> [] /\ NoDup rs /\ forall r, r ∈ rs -> r ∈ reason_codes.

Lemma canonicalize_ok s c fp : canonicalizeUncorrelated s = Ok (c, fp) <->
  validHeader s = true /\ valid_reasons (Reasons s) /\
  c = {| ca_spec := s; ca_State := StateUncorrelated; ca_Reasons := canonical_reasons (Reasons s) |} /\
  fp = sha256 (print (json_outcome c)).
Proof.
  unfold canonicalizeUncorrelated, valid_reasons.
  assert (forallb (fun r => negb (is_null (lookup_reason r))) (Reasons s) = true <->
          forall r, r ∈ Reasons s -> r ∈ reason_codes) as Hknown.
  { rewrite forallb_forall. setoid_rewrite lookup_reason_known. by setoid_rewrite list_elem_of_In. }
  assert (negb (zlen (Reasons s) =? 0) = true <-> Reasons s <> []) as Hne.
  { unfold zlen. by destruct (Reasons s). }
  split.
  - destruct (_ && _ && _) eqn:E1; [|done]. destruct (forallb _ _) eqn:E2; [|done].
    destruct (neighbours_differ _ _) eqn:E3; [|done]. intros [= <- <-].
    apply andb_prop in E1 as [[E1 E0]%andb_prop _]. pose proof (proj1 Hknown eq_refl) as Hk.
    rewrite sorted_distinct in E3 by done. rewrite Hne in E0. by rewrite (sorted_reasons _ E3 Hk).
  - intros (-> & (Hn & Hnd & Hk) & -> & ->).
    rewrite (proj2 Hne Hn), (proj2 Hknown Hk), (proj2 (sorted_distinct _ Hk) Hnd).
    rewrite (proj2 (Z.leb_le _ _) (NoDup_codes_length _ Hnd Hk)). simpl. by rewrite (sorted_reasons _ Hnd Hk).
Qed.

Lemma canonicalize_err s e : canonicalizeUncorrelated s = Err e -> e = ErrInvalid.
Proof. unfold canonicalizeUncorrelated. repeat case_match; congruence. Qed.

Lemma canonical_reasons_idem rs : canonical_reasons (canonical_reasons rs) = canonical_reasons rs.
Proof.
  unfold canonical_reasons at 1 3. apply filter_ext_in. intros r Hr. rewrite <- list_elem_of_In in Hr.
  apply eq_true_iff_eq. rewrite !existsb_exists. setoid_rewrite <- list_elem_of_In.
  setoid_rewrite String.eqb_eq. split; intros (x & Hx & <-); exists r; (split; [|done]).
  - by apply elem_of_canonical in Hx as [_ ?].
  - by apply elem_of_canonical.
Qed.

Lemma reasons_canonical_ok rs : valid_reasons rs -> reasons_canonical (canonical_reasons rs) = true.
Proof.
  intros (Hn & Hnd & Hk). unfold reasons_canonical. fold reason_codes.
  fold (canonical_reasons (canonical_reasons rs)). rewrite canonical_reasons_idem.
  assert (canonical_reasons rs ≡ₚ rs) as Hp by (rewrite <- sorted_reasons by done; apply merge_sort_Permutation).
  assert (zlen (canonical_reasons rs) = zlen rs) as -> by (unfold zlen; by rewrite Hp).
  pose proof (NoDup_codes_length rs Hnd Hk) as Hl. change (zlen reasonOrder) with 9 in Hl.
  rewrite (proj2 (Z.leb_le _ _) Hl), bool_decide_eq_true_2 by done.
  unfold zlen. by destruct rs.
Qed.

(** The reasons that are stored are the reasons given, in the one order
    the schema accepts: a specification with a valid header is accepted
    exactly when its reasons are known, distinct and at least one; what is
    kept is a permutation of them that satisfies the table's CHECK, and any
    other order of the same reasons has the same canonical reasons. *)
Theorem reasons_stored_canonically s : validHeader s = true ->
  match canonicalizeUncorrelated s with
  | Ok (c, _) =>
      valid_reasons (Reasons s) /\ ca_Reasons c ≡ₚ Reasons s /\ reasons_canonical (ca_Reasons c) = true /\
      forall rs', rs' ≡ₚ Reasons s -> canonical_reasons rs' = ca_Reasons c
  | Err e => e = ErrInvalid /\ ~ valid_reasons (Reasons s)
  end.
Proof.
  intros Hh. destruct (canonicalizeUncorrelated s) as [[c fp]|e] eqn:Ec.
  - apply canonicalize_ok in Ec as (_ & Hv & -> & _). simpl. split_and!; [done| |by apply reasons_canonical_ok|].
    + destruct Hv as (_ & Hnd & Hk). rewrite <- sorted_reasons by done. apply merge_sort_Permutation.
    + intros rs' Hp. unfold canonical_reasons. apply filter_ext. intros r. apply eq_true_iff_eq.
      rewrite !existsb_exists. setoid_rewrite <- list_elem_of_In. by setoid_rewrite Hp.
  - split; [by eapply canonicalize_err|]. intros Hv.
    rewrite (proj2 (canonicalize_ok s _ _) (conj Hh (conj Hv (conj eq_refl eq_refl)))) in Ec. done.
Qed.

(** ** Dispatch *)

(** Which reason stands for which blocker. *)
Definition blocked_by (d : DispatchSpec) (r : string) : Prop :=
  let mapped := StableTargetIdentityKnown d = true /\ AnalysisKind d = "sast" in
  r = ReasonTargetIdentityUnknown /\ StableTargetIdentityKnown d = false \/
  r = ReasonAnalysisKindUnknown /\ unknown_kind (AnalysisKind d) = true \/
  r = ReasonScannerFamilyUnknown /\ mapped /\ unknown_kind (ScannerFamily d) = true \/
  r = ReasonSourceContextUnknown /\ mapped /\ SourceContextKnown d = false \/
  r = ReasonSourceContextUnsafe /\ mapped /\ SourceContextKnown d = true /\ SourceContextSafe d = false.

(** The reasons chosen and the version that goes with them. *)
Lemma dispatch_decision d o : NewDispatchUncorrelated d = Ok o ->
  exists c fp, canonicalizeUncorrelated o = Ok (c, fp) /\
  (forall r, r ∈ Reasons o <-> blocked_by d r) /\ canonical_reasons (Reasons o) = Reasons o /\
  AlgorithmVersion o = (if StableTargetIdentityKnown d && negb (unknown_kind (AnalysisKind d))
                        then DispatchMappedAlgorithmVersion else DispatchAlgorithmVersion).
Proof.
  unfold NewDispatchUncorrelated, blocked_by, family_reasons.
  destruct (unknown_kind _ || analysisKindPattern (AnalysisKind d)); [|done].
  destruct (negb (_ && _)) eqn:Esafe; [|done]. destruct (StableTargetIdentityKnown d) eqn:?, (unknown_kind (AnalysisKind d)) eqn:Ek; simpl.
  2:{ destruct (String.eqb_spec (AnalysisKind d) "sast") as [Es|]; [|done].
      destruct (unknown_kind (ScannerFamily d) || _); [|done]. simpl.
      destruct (unknown_kind (ScannerFamily d)), (SourceContextKnown d), (SourceContextSafe d); simpl; try done;
        destruct (canonicalizeUncorrelated _) as [[c fp]|] eqn:Ec; try done; intros [= <-]; exists c, fp;
        simpl; (split_and!; [done| |by vm_compute|done]); intros r;
        rewrite ?elem_of_cons, elem_of_nil; intuition congruence. }
  all: destruct (canonicalizeUncorrelated _) as [[c fp]|] eqn:Ec; try done; intros [= <-]; exists c, fp;
    simpl; (split_and!; [done| |by vm_compute|done]); intros r; rewrite ?elem_of_cons, elem_of_nil.
  all: assert (AnalysisKind d = "sast" -> unknown_kind (AnalysisKind d) = false) by (by intros ->);
    intuition congruence.
Qed.

(** The dispatch decision reports exactly the blockers it evaluates, in
    canonical order: an outcome is produced only when something blocks, its
    reasons are the blockers of the first stage or, once target and kind are
    known, of the SAST family, its version says which stage, and what is then
    recorded are these reasons unchanged. *)
Theorem dispatch_reports_blockers d o : NewDispatchUncorrelated d = Ok o ->
  (exists r, blocked_by d r) /\ (forall r, r ∈ Reasons o <-> blocked_by d r) /\
  AlgorithmVersion o = (if StableTargetIdentityKnown d && negb (unknown_kind (AnalysisKind d))
                        then DispatchMappedAlgorithmVersion else DispatchAlgorithmVersion) /\
  exists c fp, canonicalizeUncorrelated o = Ok (c, fp) /\ ca_Reasons c = Reasons o.
Proof.
  intros Hd. apply dispatch_decision in Hd as (c & fp & Ec & Hr & Hc & Hv). pose proof Ec as Ec'.
  apply canonicalize_ok in Ec' as (_ & (Hne & _) & -> & _). split_and!; [|done|done|].
  - destruct (Reasons o) as [|r rs] eqn:E; [done|]. exists r. apply Hr. left.
  - by eexists _, fp.
Qed.

(** ** Recording *)

Section Recording.
Context {pg : Postgres}.

Lemma RecordUncorrelated_exec spec d : exec (RecordUncorrelated spec) d =
  match canonicalizeUncorrelated spec with
  | Err e => (Err e, d)
  | Ok (c, fp) =>
      match normalized_at spec d with
      | None => (Err ErrNormalizationNotFound, d)
      | Some normalizedAt =>
          if EvaluatedAt spec <? normalizedAt then (Err ErrInvalid, d)
          else record_outcome (insert_outcome c fp) (selectStoredOutcome spec)
                 (ErrDatabase "insert correlation outcome") ErrOutcomeConflict ErrOutcomeConflict fp
                 (fun d => (Ok tt, d)) (created_outcome spec c) d
      end
  end.
Proof.
  unfold exec, run_on, RecordUncorrelated.
  destruct (canonicalizeUncorrelated spec) as [[c fp]|e]; [|done].
  rewrite run_begin. unfold query. cbn [bind run next_fault faults tick tail working committed].
  destruct (normalized_at spec d) as [rec|]; [|done]. destruct (EvaluatedAt spec <? rec); [done|].
  pose proof (record_run (ErrDatabase "insert correlation outcome") (insert_outcome c fp)
    (ErrDatabase "read existing correlation outcome") (selectStoredOutcome spec)
    ErrOutcomeConflict ErrOutcomeConflict (ErrDatabase "finish correlation outcome replay")
    (ErrDatabase "commit correlation outcome") fp (done_with tt) (created_outcome spec c) d
    (fun d => (Ok tt, d)) (fun d1 => eq_refl)) as <-.
  by destruct (run _ _).
Qed.

Lemma RecordUncorrelated_atomic spec : atomic (RecordUncorrelated spec).
Proof.
  unfold RecordUncorrelated. destruct (canonicalizeUncorrelated spec) as [[c fp]|e]; [|constructor].
  simpl. constructor. constructor. intros [rcv|]; [|constructor].
  destruct (EvaluatedAt spec <? rcv); [constructor|]. apply record_in_tx. constructor.
Qed.

Lemma RecordUncorrelated_grows spec d : grows d (snd (exec (RecordUncorrelated spec) d)).
Proof.
  rewrite RecordUncorrelated_exec. unfold record_outcome, same_fp, text_fingerprint, insert_outcome.
  repeat case_match; simplify_eq; simpl; try done.
  split; try done. simpl. apply insert_subseteq. by destruct (outcomes d !! _).
Qed.

(** ** The recording operations together *)

Inductive recording :=
| Observe (s : ObservationSpec)
| Interpret (s : NormalizationSpec)
| Leave (s : UncorrelatedSpec).

(** One call on a connection that fails as [fs] says. *)
Definition perform (r : recording) (fs : list fault) (d : findings) : findings :=
  match r with
  | Observe s => snd (run_on (RecordObservation s) d fs)
  | Interpret s => snd (run_on (RecordNormalization s) d fs)
  | Leave s => snd (run_on (RecordUncorrelated s) d fs)
  end.

Lemma perform_grows r fs d : grows d (perform r fs d).
Proof.
  assert (forall E A (p : prog findings E A), atomic p -> grows d (snd (exec p d)) ->
            grows d (snd (run_on p d fs))) as H.
  { intros E A p Hp Hg. destruct (atomic_run p d fs Hp) as [->|[_ [->| ->]]]; done. }
  destruct r; simpl; apply H.
  - apply RecordObservation_atomic.
  - apply RecordObservation_grows.
  - apply RecordNormalization_atomic.
  - apply RecordNormalization_grows.
  - apply RecordUncorrelated_atomic.
  - apply RecordUncorrelated_grows.
Qed.

(** C38.  Scanner statements and what is derived from them are immutable: no
    sequence of recording calls, however the connections fail, changes or
    removes a row of any table. *)
Theorem records_immutable (ops : list (recording * list fault)) d :
  grows d (foldl (fun d op => perform (fst op) (snd op) d) d ops).
Proof.
  revert d. induction ops as [|[r fs] ops IH]; intros d; simpl; [done|].
  etrans; [apply (perform_grows r fs)|apply IH].
Qed.

(** The same decision evaluated again: reasons in any order, another time. *)
Definition reevaluated (s : UncorrelatedSpec) (rs : list string) (t : time) : UncorrelatedSpec := {|
  WorkspaceID := WorkspaceID s; ObservationID := ObservationID s; NormalizerName := NormalizerName s;
  NormalizerVersion := NormalizerVersion s; Algorithm := Algorithm s;
  AlgorithmVersion := AlgorithmVersion s; Reasons := rs; EvaluatedAt := t |}.

Lemma canonicalize_reevaluated s rs t c fp : canonicalizeUncorrelated s = Ok (c, fp) ->
  rs ≡ₚ Reasons s -> IsZero t = false ->
  canonicalizeUncorrelated (reevaluated s rs t) =
    Ok ({| ca_spec := reevaluated s rs t; ca_State := StateUncorrelated; ca_Reasons := ca_Reasons c |}, fp).
Proof.
  intros (Hh & (Hne & Hnd & Hk) & -> & ->)%canonicalize_ok Hp Ht. apply canonicalize_ok.
  assert (canonical_reasons rs = canonical_reasons (Reasons s)) as Hrs.
  { rewrite <- !sorted_reasons; [|done|done|by rewrite Hp|intros r; rewrite Hp; auto].
    apply (StronglySorted_unique_strong rank_le); [|apply StronglySorted_merge_sort; apply _..|].
    - intros a b. rewrite !merge_sort_Permutation, Hp. intros Ha Hb Hab Hba.
      apply rank_inj; [auto..|]. unfold rank_le in *. lia.
    - by rewrite !merge_sort_Permutation. }
  split_and!.
  - revert Hh. unfold validHeader. simpl. rewrite Ht, !andb_true_iff. tauto.
  - unfold valid_reasons. simpl. split_and!; [|by rewrite Hp|intros r; rewrite Hp; auto].
    intros ->. by apply Permutation_nil_l in Hp.
  - simpl. by rewrite Hrs.
  - done.
Qed.

Lemma RecordUncorrelated_ok spec d out d' : exec (RecordUncorrelated spec) d = (Ok out, d') ->
  exists c fp at_ r, canonicalizeUncorrelated spec = Ok (c, fp) /\ normalized_at spec d' = Some at_ /\
  at_ <= EvaluatedAt spec /\ outcomes d' !! outcome_key spec = Some r /\ ou_fingerprint r = fp /\
  so_Reasons out = ou_reasons r /\ so_State out = ou_state r.
Proof.
  rewrite RecordUncorrelated_exec. destruct (canonicalizeUncorrelated spec) as [[c fp]|e] eqn:Ec; [|done].
  destruct (normalized_at spec d) as [at_|] eqn:En; [|done]. destruct (EvaluatedAt spec <? at_) eqn:Et; [done|].
  simp_bool. pose proof Ec as Ec'. apply canonicalize_ok in Ec' as (_ & Hv & Hc & _).
  unfold record_outcome, same_fp, text_fingerprint, insert_outcome, selectStoredOutcome. rewrite Hc. cbn [ca_spec ca_Reasons ca_State].
  rewrite reasons_canonical_ok by done. simpl.
  destruct (outcomes d !! outcome_key spec) as [r|] eqn:Eo; simpl.
  - rewrite Eo. simpl. destruct (String.eqb_spec (ou_fingerprint r) fp) as [E|]; simpl; [|done].
    intros [= <- <-]. subst c. by eexists _, fp, at_, r.
  - intros [= <- <-]. subst c. eexists _, fp, at_, _. split_and!; [done|done|done|apply lookup_insert_eq|done|done|done].
Qed.

(** A decision on a key that is taken. *)
Lemma RecordUncorrelated_taken spec c fp at_ r d :
  canonicalizeUncorrelated spec = Ok (c, fp) -> normalized_at spec d = Some at_ -> at_ <= EvaluatedAt spec ->
  outcomes d !! outcome_key spec = Some r ->
  exec (RecordUncorrelated spec) d =
    (if String.eqb (ou_fingerprint r) fp
     then Ok {| so_WorkspaceID := WorkspaceID spec; so_ObservationID := ObservationID spec;
                so_Algorithm := Algorithm spec; so_AlgorithmVersion := AlgorithmVersion spec;
                so_State := ou_state r; so_Reasons := ou_reasons r; so_EvaluatedAt := ou_at r;
                so_Created := false |}
     else Err ErrOutcomeConflict, d).
Proof.
  intros Ec En Ht Ho. rewrite RecordUncorrelated_exec, Ec, En, (proj2 (Z.ltb_ge _ _)) by lia.
  pose proof Ec as Ec'. apply canonicalize_ok in Ec' as (_ & Hv & Hc & _).
  unfold record_outcome, same_fp, text_fingerprint, insert_outcome, selectStoredOutcome. rewrite Hc. cbn [ca_spec ca_Reasons].
  rewrite reasons_canonical_ok by done. simpl. rewrite Ho. simpl. rewrite Ho. simpl.
  by destruct (String.eqb _ _).
Qed.

(** Re-evaluation is idempotent and versioned: after an outcome has been
    recorded, the same decision at a later time, reasons in any order,
    returns the stored outcome and changes nothing, and a decision under the
    same algorithm version with another fingerprint is refused. *)
Theorem outcome_replay spec d out d' :
  exec (RecordUncorrelated spec) d = (Ok out, d') ->
  (forall rs t, rs ≡ₚ Reasons spec -> IsZero t = false -> EvaluatedAt spec <= t ->
     exists out', exec (RecordUncorrelated (reevaluated spec rs t)) d' = (Ok out', d') /\
       so_Reasons out' = so_Reasons out /\ so_State out' = so_State out /\ so_Created out' = false) /\
  (forall rs t c fp, canonicalizeUncorrelated (reevaluated spec rs t) = Ok (c, fp) ->
     (forall c0 fp0, canonicalizeUncorrelated spec = Ok (c0, fp0) -> fp0 <> fp) -> EvaluatedAt spec <= t ->
     exec (RecordUncorrelated (reevaluated spec rs t)) d' = (Err ErrOutcomeConflict, d')).
Proof.
  intros Hx. apply RecordUncorrelated_ok in Hx as (c0 & fp0 & at_ & r & Ec & Hn & Hat & Ho & Hfp & Hr & Hs). split.
  - intros rs t Hp Ht Hle. pose proof (canonicalize_reevaluated _ rs t _ _ Ec Hp Ht) as Ec'.
    eexists. rewrite (RecordUncorrelated_taken _ _ _ at_ r d' Ec'), Hfp, String.eqb_refl; [|done|simpl; lia|done].
    split; [reflexivity|]. by rewrite Hr, Hs.
  - intros rs t c fp Ec' Hne Hle. rewrite (RecordUncorrelated_taken _ _ _ at_ r d' Ec'); [|done|simpl; lia|done].
    specialize (Hne _ _ Ec). destruct (String.eqb_spec (ou_fingerprint r) fp); congruence.
Qed.
End Recording.

End Correlation.
