(* ===== verification/FindingExamples.v ===== *)
(** * A concrete observation

    One SARIF result recorded, redelivered, normalized and left uncorrelated;
    the theorems of Finding.v, Normalizer.v and Correlation.v applied to it. *)

From S2P Require Import Prelude GoStrings Encoding Txn Json Queue QueueExamples Records Finding.
From S2P Require Import Normalizer Correlation.

Local Open Scope Z_scope.

Module FindingExamples.
Import Finding Normalizer Correlation.
#[local] Existing Instance QueueExamples.demo_pg.

Definition noon : time := 63000000000 * Second.

Definition location (n : Z) (uri : string) : Location := {|
  Ordinal := n; l_SourcePointer := "/runs/0/results/0/locations/0"; URI := uri; URIBaseID := "%SRCROOT%";
  ArtifactIndex := Some 0; StartLine := Some 3; StartColumn := Some 1; EndLine := Some 3; EndColumn := Some 9 |}.
Definition print_of (k n v : string) : SourceFingerprint := {| fp_Kind := k; fp_Name := n; fp_Value := v |}.

Definition result_a : ObservationSpec := {|
  ID := "obs_a"; Finding.WorkspaceID := "ws_demo"; ScanID := "scan_a"; RawArtifactID := "raw_a";
  SourceResultIndex := 0; ParserName := "sarif"; ParserVersion := "1"; SourcePointer := "/runs/0/results/0";
  SourceGUID := ""; SourceCorrelationGUID := ""; SourceRuleID := "CWE-79"; SourceRuleIndex := Some 2;
  SourceSeverity := "warning"; SourceKind := "fail"; SourceBaselineState := ""; MessageID := "";
  MessageText := "unescaped output"; MessageMarkdown := ""; MessageArguments := ["x"];
  Locations := [location 1 "src/b.go"; location 0 "src/a.go"];
  Fingerprints := [print_of "partial" "line" "77"; print_of "complete" "h/v1" "abc"];
  ObservedAt := Some noon; RecordedAt := noon + 5 |}.

Definition empty_store : findings :=
  Findings {[("ws_demo", "scan_a") := {| sc_raw := "raw_a"; sc_received := noon |}]} ∅ ∅ ∅ ∅ ∅.

(** The same result delivered again by a retry of the import. *)
Definition again : ObservationSpec :=
  redelivered result_a (rev (Locations result_a)) (rev (Fingerprints result_a)) "obs_b" (noon + Hour).

Lemma rev_perm {A} (l : list A) : rev l ≡ₚ l.
Proof. symmetry. apply Permutation_rev. Qed.

Lemma canonical_order_insensitive_witness :
  validOpaqueID "obs_b" = validOpaqueID (ID result_a) /\ IsZero (noon + Hour) = IsZero (RecordedAt result_a) /\
  record_fingerprint (canonicalizeObservation again) = record_fingerprint (canonicalizeObservation result_a).
Proof.
  split; [reflexivity|]. split; [reflexivity|].
  apply canonical_order_insensitive; [apply rev_perm|apply rev_perm|reflexivity|reflexivity].
Defined.

Definition after_first : findings := snd (exec (RecordObservation result_a) empty_store).
Definition first_answer : StoredObservation := created_observation result_a noon.

Lemma observation_replay_witness :
  exec (RecordObservation result_a) empty_store = (Ok first_answer, after_first) /\
  exists out', exec (RecordObservation again) after_first = (Ok out', after_first) /\
    Finding.so_ID out' = "obs_a" /\ Finding.so_ReceivedAt out' = noon /\ Finding.so_Created out' = false.
Proof.
  assert (exec (RecordObservation result_a) empty_store = (Ok first_answer, after_first)) as E
    by (vm_compute; reflexivity).
  split; [exact E|].
  exact (observation_replay result_a _ _ "obs_b" (noon + Hour) empty_store first_answer after_first E
           (rev_perm _) (rev_perm _) eq_refl eq_refl ltac:(vm_compute; discriminate)).
Defined.

(** A healthy connection with one spare fault that is never reached. *)
Lemma observation_complete_witness :
  run_on (RecordObservation result_a) empty_store [Healthy] = (Ok first_answer, after_first) /\
  exists c fp rcv, canonicalizeObservation result_a = Ok (c, fp) /\
  observations empty_store !! ("ws_demo", "obs_a") = None /\
  observations after_first = <[("ws_demo", "obs_a") := new_observation_row c fp rcv]> (observations empty_store) /\
  (forall k v, locations after_first !! k = Some v <->
     locations empty_store !! k = Some v \/
     exists l, l ∈ Locations result_a /\ k = location_key result_a l /\ v = l) /\
  (forall k v, fingerprints after_first !! k = Some v <->
     fingerprints empty_store !! k = Some v \/
     exists f, f ∈ Fingerprints result_a /\ k = fingerprint_row_key result_a f /\ v = fp_Value f) /\
  scans after_first = scans empty_store /\ normalizations after_first = normalizations empty_store /\
  outcomes after_first = outcomes empty_store.
Proof.
  assert (run_on (RecordObservation result_a) empty_store [Healthy] = (Ok first_answer, after_first)) as E
    by (vm_compute; reflexivity).
  split; [exact E|]. exact (observation_complete result_a empty_store [Healthy] first_answer after_first E eq_refl).
Defined.

Definition canonical_a : canonicalObservation := {|
  co_spec := result_a; co_Locations := merge_sort ordinal_le (Locations result_a);
  co_Fingerprints := merge_sort fingerprint_le (Fingerprints result_a) |}.

Lemma normalization_accepted_witness :
  canonicalizeObservation result_a = Ok (canonical_a, sha256 (observation_text canonical_a)) /\
  exists n, Normalize (Some New) result_a (noon + 9) = Ok n /\
    documented result_a (noon + 9) n /\
    is_ok (canonicalizeNormalization n) = validNormalizedRegionOrder (ns_Location n).
Proof.
  assert (canonicalizeObservation result_a = Ok (canonical_a, sha256 (observation_text canonical_a))) as E
    by (vm_compute; reflexivity).
  split; [exact E|]. exact (normalization_accepted result_a _ _ (noon + 9) E eq_refl eq_refl eq_refl).
Defined.

Definition dispatch_a : DispatchSpec := {|
  d_WorkspaceID := "ws_demo"; d_ObservationID := "obs_a"; d_NormalizerName := "sarif";
  d_NormalizerVersion := "1"; StableTargetIdentityKnown := false; AnalysisKind := "";
  ScannerFamily := ""; SourceContextKnown := false; SourceContextSafe := false; d_EvaluatedAt := noon + 20 |}.

Definition outcome_a : UncorrelatedSpec := {|
  WorkspaceID := "ws_demo"; ObservationID := "obs_a"; NormalizerName := "sarif"; NormalizerVersion := "1";
  Algorithm := DispatchAlgorithm; AlgorithmVersion := "1";
  Reasons := [ReasonTargetIdentityUnknown; ReasonAnalysisKindUnknown]; EvaluatedAt := noon + 20 |}.

Lemma dispatch_reports_blockers_witness :
  NewDispatchUncorrelated dispatch_a = Ok outcome_a /\
  (exists r, blocked_by dispatch_a r) /\
  (forall r, r ∈ Reasons outcome_a <-> blocked_by dispatch_a r) /\ AlgorithmVersion outcome_a = "1" /\
  exists c fp, canonicalizeUncorrelated outcome_a = Ok (c, fp) /\ ca_Reasons c = Reasons outcome_a.
Proof.
  assert (NewDispatchUncorrelated dispatch_a = Ok outcome_a) as E by (vm_compute; reflexivity).
  split; [exact E|]. exact (dispatch_reports_blockers dispatch_a outcome_a E).
Defined.

Lemma reasons_stored_canonically_witness :
  validHeader outcome_a = true /\
  match canonicalizeUncorrelated (reevaluated outcome_a (rev (Reasons outcome_a)) noon) with
  | Ok (c, _) =>
      valid_reasons (rev (Reasons outcome_a)) /\ ca_Reasons c ≡ₚ rev (Reasons outcome_a) /\
      reasons_canonical (ca_Reasons c) = true /\
      forall rs', rs' ≡ₚ rev (Reasons outcome_a) -> canonical_reasons rs' = ca_Reasons c
  | Err e => e = Correlation.ErrInvalid /\ ~ valid_reasons (rev (Reasons outcome_a))
  end.
Proof.
  split; [vm_compute; reflexivity|].
  exact (reasons_stored_canonically (reevaluated outcome_a (rev (Reasons outcome_a)) noon)
           ltac:(vm_compute; reflexivity)).
Defined.

(** The observation with its normalization, then the outcome. *)
Definition normalization_a : NormalizationSpec := {|
  ns_WorkspaceID := "ws_demo"; ns_ObservationID := "obs_a"; ns_NormalizerName := "sarif";
  ns_NormalizerVersion := "1"; ns_Category := "unknown"; ns_Severity := "medium"; ns_RuleKind := "source";
  ns_RuleID := "CWE-79"; ns_Location := artifact_location (location 0 "src/a.go"); ns_NormalizedAt := noon + 9 |}.
Definition normalized_store : findings := snd (exec (RecordNormalization normalization_a) after_first).
Definition with_outcome : findings := snd (exec (RecordUncorrelated outcome_a) normalized_store).
Definition outcome_answer : StoredOutcome :=
  created_outcome outcome_a {| ca_spec := outcome_a; ca_State := StateUncorrelated; ca_Reasons := Reasons outcome_a |}.

Lemma outcome_replay_witness :
  exec (RecordUncorrelated outcome_a) normalized_store = (Ok outcome_answer, with_outcome) /\
  (exists out', exec (RecordUncorrelated (reevaluated outcome_a (rev (Reasons outcome_a)) (noon + Hour))) with_outcome
     = (Ok out', with_outcome) /\
     so_Reasons out' = Reasons outcome_a /\ so_State out' = StateUncorrelated /\ so_Created out' = false) /\
  exec (RecordUncorrelated (reevaluated outcome_a [ReasonSourceContextUnsafe] (noon + Hour))) with_outcome
    = (Err ErrOutcomeConflict, with_outcome).
Proof.
  assert (exec (RecordUncorrelated outcome_a) normalized_store = (Ok outcome_answer, with_outcome)) as E
    by (vm_compute; reflexivity).
  split; [exact E|]. pose proof (outcome_replay outcome_a normalized_store outcome_answer with_outcome E) as [H1 H2].
  split; [apply (H1 (rev (Reasons outcome_a)) (noon + Hour) (rev_perm _) eq_refl); vm_compute; discriminate|].
  destruct (canonicalizeUncorrelated (reevaluated outcome_a [ReasonSourceContextUnsafe] (noon + Hour)))
    as [[c fp]|e] eqn:Ec; [|vm_compute in Ec; discriminate].
  apply (H2 _ _ _ _ Ec); [|vm_compute; discriminate].
  intros c0 fp0 E0 Hfp. rewrite Hfp in E0. vm_compute in Ec, E0. congruence.
Defined.

(** Another statement under the same source key is a conflict. *)
Example conflicting_result :
  fst (exec (RecordObservation {| ID := "obs_c"; Finding.WorkspaceID := "ws_demo"; ScanID := "scan_a";
    RawArtifactID := "raw_a"; SourceResultIndex := 0; ParserName := "sarif"; ParserVersion := "1";
    SourcePointer := "/runs/0/results/0"; SourceGUID := ""; SourceCorrelationGUID := ""; SourceRuleID := "CWE-80";
    SourceRuleIndex := None; SourceSeverity := ""; SourceKind := ""; SourceBaselineState := ""; MessageID := "";
    MessageText := ""; MessageMarkdown := ""; MessageArguments := []; Locations := []; Fingerprints := [];
    ObservedAt := None; RecordedAt := noon + Hour |}) after_first) = Err ErrObservationConflict.
Proof. vm_compute. reflexivity. Qed.

End FindingExamples.
