(* ===== verification/Uploads.v ===== *)
(** * Raw-artifact uploads (src/internal/ingestion)

    [Module Uploads] models the upload lifecycle of an import: the tables
    imports and raw_artifacts with their constraints, and the three store
    operations of postgres.go that fence one streaming attempt
    ([BeginUpload]), publish its evidence ([CommitUpload]) or give it up
    ([EndUpload]). *)

From S2P Require Import Prelude GoStrings Encoding Txn Queue Catalog Blobstore.

Local Open Scope Z_scope.

Module Uploads.
Import JobQueue(char_length_between, opt_check).

(** The errors of the package, and the errors of other packages it wraps. *)
Inductive error :=
| ErrApplicationNotFound
| ErrAnalysisTargetNotFound
| ErrIdempotencyConflict
| ErrIdempotencyInProgress
| ErrImportNotFound
| ErrInvalid
| ErrTooLarge
| ErrCompletionConflict
| ErrUploadConflict
| ErrUploadExpired
| ErrUploadInProgress
| ErrUploadLeaseLost
| ErrUploadMismatch
| ErrUploadStorage
| ErrProcessingConflict
| ErrProcessingNotFound
| ErrParseOutputConflict
| ErrScanConflict
| ErrScanSourceNotFound
| ErrIntegrity                     (* read committed raw artifact: blobstore.ErrIntegrity *)
| ErrDatabase (action : string)
| ErrRandom                        (* crypto/rand failed *)
| ErrAuthorize (action : string)   (* the authorizer refused or failed *)
| ErrQueue (e : JobQueue.error)
| ErrCatalog (e : Catalog.error)
| ErrTargetInconsistent
| ErrBlob (e : Blobstore.error)
| ErrPanic                         (* the call does not return: an out-of-range slice *)
| ErrJoined (cause : error).       (* errors.Join(cause, record rejected upload: ...) *)

Inductive ImportState :=
| ImportAwaitingUpload | ImportUploading | ImportUploaded | ImportQueued | ImportProcessing
| ImportSucceeded | ImportFailed | ImportRejected | ImportAbandoned.

#[global] Instance ImportState_eq_dec : EqDecision ImportState.
Proof. solve_decision. Defined.

(** The last three states occur in the table only. *)
Inductive rawArtifactState :=
| rawArtifactPending | rawArtifactUploading | rawArtifactCommitted | rawArtifactRejected
| rawArtifactAbandoned | rawArtifactDeletionPending | rawArtifactDeleted.

#[global] Instance rawArtifactState_eq_dec : EqDecision rawArtifactState.
Proof. solve_decision. Defined.

Record UploadReceipt := {
  rc_ImportID : string; rc_State : ImportState; rc_SizeBytes : Z; rc_SHA256 : string; rc_UploadedAt : time
}.

Record beginUploadSpec := {
  bu_PrincipalID : string; bu_WorkspaceID : string; bu_ApplicationID : string; bu_ImportID : string;
  bu_ArtifactID : string; bu_StorageBackend : string; bu_StorageKey : string; bu_AttemptID : string;
  bu_StartedAt : time; bu_LeaseExpiresAt : time
}.

Record uploadSession := {
  us_WorkspaceID : string; us_ImportID : string; us_ArtifactID : string; us_StorageBackend : string;
  us_StorageKey : string; us_AttemptID : string; us_MaxBytes : Z; us_ExpectedSize : option Z;
  us_ExpectedSHA256 : string; us_Receipt : option UploadReceipt   (* [Some] when Committed *)
}.

Record commitUploadSpec := {
  cu_WorkspaceID : string; cu_ImportID : string; cu_ArtifactID : string; cu_AttemptID : string;
  cu_SizeBytes : Z; cu_SHA256 : string; cu_StorageVersion : string; cu_BackendVersion : string;
  cu_CommittedAt : time
}.

Record endUploadSpec := {
  eu_WorkspaceID : string; eu_ImportID : string; eu_ArtifactID : string; eu_AttemptID : string;
  eu_EndedAt : time; eu_RejectCode : string
}.

(** ** The tables *)

Record import_row := {
  im_application : string; im_creator : string; im_state : ImportState; im_format_name : string;
  im_format_version : option string; im_filename : option string; im_max_bytes : Z;
  im_expires : time; im_expected_size : option Z; im_expected_sha : option string;
  im_created : time; im_updated : time
}.

Record artifact_row := {
  ar_id : string; ar_state : rawArtifactState; ar_backend : string; ar_key : string;
  ar_attempt : option string; ar_lease : option time; ar_size : option Z; ar_sha : option string;
  ar_storage_version : option string; ar_backend_version : option string; ar_rejection : option string;
  ar_created : time; ar_updated : time; ar_committed : option time
}.

(** Both tables by (workspace, import): raw_artifacts has that pair UNIQUE. *)
Record uploads := Uploads {
  imports : gmap (string * string) import_row;
  artifacts : gmap (string * string) artifact_row
}.

(** raw_artifacts_*: the CHECK constraints and column widths. *)
Definition holds_evidence (s : rawArtifactState) : bool :=
  match s with rawArtifactCommitted | rawArtifactDeletionPending | rawArtifactDeleted => true | _ => false end.

Definition check_artifact (r : artifact_row) : bool :=
  char_length_between 3 128 (ar_id r) && match_head is_lower name_char 63 (ar_backend r) &&
  Blobstore.keyPattern (ar_key r) && opt_check (char_length_between 0 128) (ar_attempt r) &&
  opt_check (char_length_between 0 128) (ar_storage_version r) &&
  opt_check (char_length_between 0 1024) (ar_backend_version r) &&
  opt_check (char_length_between 0 64) (ar_rejection r) &&
  Bool.eqb (bool_decide (ar_state r = rawArtifactUploading))
           (negb (is_null (ar_attempt r)) && negb (is_null (ar_lease r))) &&
  opt_check (fun n => (0 <=? n) && (n <=? max_int64)) (ar_size r) &&
  opt_check (fun h => slen h =? 32) (ar_sha r) &&
  Bool.eqb (holds_evidence (ar_state r))
           (negb (is_null (ar_size r)) && negb (is_null (ar_sha r)) && negb (is_null (ar_storage_version r)) &&
            negb (is_null (ar_committed r))) &&
  Bool.eqb (bool_decide (ar_state r = rawArtifactRejected)) (negb (is_null (ar_rejection r))) &&
  (ar_created r <=? ar_updated r) && opt_check (fun t => ar_created r <=? t) (ar_committed r).

(** imports_updated_at_valid, the constraint an update can violate. *)
Definition check_import (r : import_row) : bool := im_created r <=? im_updated r.

Definition set_import_state (s : ImportState) (at_ : time) (r : import_row) : import_row := {|
  im_application := im_application r; im_creator := im_creator r; im_state := s;
  im_format_name := im_format_name r; im_format_version := im_format_version r; im_filename := im_filename r;
  im_max_bytes := im_max_bytes r; im_expires := im_expires r; im_expected_size := im_expected_size r;
  im_expected_sha := im_expected_sha r; im_created := im_created r; im_updated := at_ |}.

Section Store.
Context {pg : Postgres}.

(** UPDATE imports SET state, updated_at WHERE workspace, id and [cond]: the
    number of rows, or a violated constraint. *)
Definition update_import (key : string * string) (cond : import_row -> bool) (s : ImportState) (at_ : time)
  (d : uploads) : option (Z * uploads) :=
  match imports d !! key with
  | Some r =>
      if cond r then
        let r' := set_import_state s (store_time at_) r in
        if check_import r' then Some (1, Uploads (<[key := r']> (imports d)) (artifacts d)) else None
      else Some (0, d)
  | None => Some (0, d)
  end.

Definition update_artifact (key : string * string) (cond : artifact_row -> bool)
  (f : artifact_row -> artifact_row) (d : uploads) : option (Z * uploads) :=
  match artifacts d !! key with
  | Some r =>
      if cond r then
        if check_artifact (f r) then Some (1, Uploads (imports d) (<[key := f r]> (artifacts d))) else None
      else Some (0, d)
  | None => Some (0, d)
  end.

(** ** BeginUpload *)

Definition begin_key (s : beginUploadSpec) : string * string := (bu_WorkspaceID s, bu_ImportID s).

(** The import of the caller, with its artifact if there is one. *)
Definition find_upload (s : beginUploadSpec) (d : uploads) : option (import_row * option artifact_row) :=
  match imports d !! begin_key s with
  | Some r => if String.eqb (im_application r) (bu_ApplicationID s) && String.eqb (im_creator r) (bu_PrincipalID s)
              then Some (r, artifacts d !! begin_key s) else None
  | None => None
  end.

Definition session_for (s : beginUploadSpec) (im : import_row) (id backend key attempt : string)
  (receipt : option UploadReceipt) : uploadSession := {|
  us_WorkspaceID := bu_WorkspaceID s; us_ImportID := bu_ImportID s; us_ArtifactID := id;
  us_StorageBackend := backend; us_StorageKey := key; us_AttemptID := attempt;
  us_MaxBytes := im_max_bytes im; us_ExpectedSize := im_expected_size im;
  us_ExpectedSHA256 := hex_encode (null_string (im_expected_sha im)); us_Receipt := receipt |}.

(** The receipt of an uploaded import, if its evidence is complete. *)
Definition committed_receipt (s : beginUploadSpec) (a : option artifact_row) : option (artifact_row * UploadReceipt) :=
  match a with
  | Some a =>
      match ar_size a, ar_sha a, ar_committed a with
      | Some size, Some sha, Some at_ =>
          if bool_decide (ar_state a = rawArtifactCommitted) && (slen sha =? 32)
          then Some (a, {| rc_ImportID := bu_ImportID s; rc_State := ImportUploaded; rc_SizeBytes := size;
                           rc_SHA256 := hex_encode sha; rc_UploadedAt := at_ |})
          else None
      | _, _, _ => None
      end
  | None => None
  end.

Definition abandon_artifact (s : beginUploadSpec) (a : artifact_row) : artifact_row := {|
  ar_id := ar_id a; ar_state := rawArtifactAbandoned; ar_backend := ar_backend a; ar_key := ar_key a;
  ar_attempt := None; ar_lease := None; ar_size := ar_size a; ar_sha := ar_sha a;
  ar_storage_version := ar_storage_version a; ar_backend_version := ar_backend_version a;
  ar_rejection := ar_rejection a; ar_created := ar_created a; ar_updated := store_time (bu_StartedAt s);
  ar_committed := ar_committed a |}.

(** The expired reservation: both rows are abandoned and that is committed,
    although the caller gets an error. *)
Definition abandon (s : beginUploadSpec) (has_artifact : bool) : prog uploads error uploadSession :=
  do! (if has_artifact
       then statement (ErrDatabase "abandon expired raw artifact")
              (update_artifact (begin_key s) (fun a => negb (bool_decide (ar_state a = rawArtifactCommitted)))
                 (abandon_artifact s))
       else done_with 0) in
  do! statement (ErrDatabase "abandon expired import upload")
        (update_import (begin_key s) (fun _ => true) ImportAbandoned (bu_StartedAt s)) in
  do! commit (ErrDatabase "commit expired import upload") in
  fail ErrUploadExpired.

Definition new_artifact (s : beginUploadSpec) : artifact_row := {|
  ar_id := bu_ArtifactID s; ar_state := rawArtifactUploading; ar_backend := bu_StorageBackend s;
  ar_key := bu_StorageKey s; ar_attempt := Some (bu_AttemptID s);
  ar_lease := Some (store_time (bu_LeaseExpiresAt s)); ar_size := None; ar_sha := None;
  ar_storage_version := None; ar_backend_version := None; ar_rejection := None;
  ar_created := store_time (bu_StartedAt s); ar_updated := store_time (bu_StartedAt s);
  ar_committed := None |}.

(** PRIMARY KEY (workspace, id) and UNIQUE (storage_backend, storage_key). *)
Definition artifact_unique (s : beginUploadSpec) (d : uploads) : bool :=
  forallb (fun kr => negb (String.eqb (fst (fst kr)) (bu_WorkspaceID s) && String.eqb (ar_id (snd kr)) (bu_ArtifactID s)) &&
                     negb (String.eqb (ar_backend (snd kr)) (bu_StorageBackend s) &&
                           String.eqb (ar_key (snd kr)) (bu_StorageKey s))) (map_to_list (artifacts d)).

Definition insert_artifact (s : beginUploadSpec) (d : uploads) : option (Z * uploads) :=
  if check_artifact (new_artifact s) && artifact_unique s d && is_null (artifacts d !! begin_key s)
  then Some (1, Uploads (imports d) (<[begin_key s := new_artifact s]> (artifacts d))) else None.

Definition lease_artifact (s : beginUploadSpec) (a : artifact_row) : artifact_row := {|
  ar_id := ar_id a; ar_state := rawArtifactUploading; ar_backend := ar_backend a; ar_key := ar_key a;
  ar_attempt := Some (bu_AttemptID s); ar_lease := Some (store_time (bu_LeaseExpiresAt s));
  ar_size := ar_size a; ar_sha := ar_sha a; ar_storage_version := ar_storage_version a;
  ar_backend_version := ar_backend_version a; ar_rejection := ar_rejection a; ar_created := ar_created a;
  ar_updated := store_time (bu_StartedAt s); ar_committed := ar_committed a |}.

Definition leasable (id : string) (a : artifact_row) : bool :=
  String.eqb (ar_id a) id &&
  match ar_state a with rawArtifactPending | rawArtifactUploading => true | _ => false end.

(** Take or take over the attempt; the answer is the artifact it writes to. *)
Definition take_lease (s : beginUploadSpec) (a : option artifact_row)
  : prog uploads error (string * string * string) :=
  match a with
  | None =>
      do! statement (ErrDatabase "reserve raw artifact") (insert_artifact s) in
      done_with (bu_ArtifactID s, bu_StorageBackend s, bu_StorageKey s)
  | Some a =>
      let renew :=
        let! rows := statement (ErrDatabase "renew raw artifact upload lease")
                       (update_artifact (begin_key s) (leasable (ar_id a)) (lease_artifact s)) in
        if rows =? 1 then done_with (ar_id a, ar_backend a, ar_key a) else fail ErrUploadLeaseLost in
      match ar_state a with
      | rawArtifactUploading =>
          match ar_lease a with
          | Some t => if bu_StartedAt s <? t then fail ErrUploadInProgress else renew
          | None => renew
          end
      | rawArtifactPending => renew
      | _ => fail ErrUploadConflict
      end
  end.

Definition BeginUpload (s : beginUploadSpec) : prog uploads error uploadSession :=
  do! begin (ErrDatabase "begin raw artifact upload") in
  let! found := query (ErrDatabase "read import upload reservation") (find_upload s) in
  match found with
  | None => fail ErrImportNotFound
  | Some (im, a) =>
      match im_state im with
      | ImportUploaded =>
          match committed_receipt s a with
          | None => fail ErrIntegrity
          | Some (a, receipt) =>
              do! commit (ErrDatabase "finish upload replay lookup") in
              done_with (session_for s im (ar_id a) (ar_backend a) (ar_key a) "" (Some receipt))
          end
      | ImportAwaitingUpload | ImportUploading =>
          if negb (bu_StartedAt s <? im_expires im) then abandon s (negb (is_null a))
          else
            let! target := take_lease s a in
            do! statement (ErrDatabase "mark import uploading")
                  (update_import (begin_key s) (fun _ => true) ImportUploading (bu_StartedAt s)) in
            do! commit (ErrDatabase "commit raw artifact upload lease") in
            done_with (session_for s im (fst (fst target)) (snd (fst target)) (snd target) (bu_AttemptID s) None)
      | _ => fail ErrUploadConflict
      end
  end.

(** ** CommitUpload and EndUpload *)

(** The row of this attempt: state = 'uploading', the same artifact and the
    same attempt. *)
Definition fenced (id attempt : string) (a : artifact_row) : bool :=
  String.eqb (ar_id a) id && bool_decide (ar_state a = rawArtifactUploading) &&
  bool_decide (ar_attempt a = Some attempt).

Definition commit_artifact (c : commitUploadSpec) (digest : string) (a : artifact_row) : artifact_row := {|
  ar_id := ar_id a; ar_state := rawArtifactCommitted; ar_backend := ar_backend a; ar_key := ar_key a;
  ar_attempt := None; ar_lease := None; ar_size := Some (cu_SizeBytes c); ar_sha := Some digest;
  ar_storage_version := Some (cu_StorageVersion c); ar_backend_version := nullif_empty (cu_BackendVersion c);
  ar_rejection := ar_rejection a; ar_created := ar_created a; ar_updated := store_time (cu_CommittedAt c);
  ar_committed := Some (store_time (cu_CommittedAt c)) |}.

Definition is_uploading (r : import_row) : bool := bool_decide (im_state r = ImportUploading).

Definition CommitUpload (c : commitUploadSpec) : prog uploads error UploadReceipt :=
  let key := (cu_WorkspaceID c, cu_ImportID c) in
  match hex_decode (cu_SHA256 c) with
  | None => fail ErrInvalid
  | Some digest =>
      if negb (slen digest =? 32) || (cu_SizeBytes c <? 0) || String.eqb (cu_StorageVersion c) "" ||
         IsZero (cu_CommittedAt c)
      then fail ErrInvalid
      else
        do! begin (ErrDatabase "begin raw artifact commit") in
        let! rows := statement (ErrDatabase "commit raw artifact record")
                       (update_artifact key
                          (fun a => fenced (cu_ArtifactID c) (cu_AttemptID c) a &&
                                    match ar_lease a with
                                    | Some t => store_time (cu_CommittedAt c) <=? t
                                    | None => false
                                    end)
                          (commit_artifact c digest)) in
        if negb (rows =? 1) then fail ErrUploadLeaseLost
        else
          let! rows := statement (ErrDatabase "publish uploaded import")
                         (update_import key is_uploading ImportUploaded (cu_CommittedAt c)) in
          if negb (rows =? 1) then fail ErrUploadLeaseLost
          else
            do! commit (ErrDatabase "commit uploaded import") in
            done_with {| rc_ImportID := cu_ImportID c; rc_State := ImportUploaded;
                         rc_SizeBytes := cu_SizeBytes c; rc_SHA256 := cu_SHA256 c;
                         rc_UploadedAt := cu_CommittedAt c |}
  end.

Definition end_artifact (e : endUploadSpec) (a : artifact_row) : artifact_row := {|
  ar_id := ar_id a;
  ar_state := if String.eqb (eu_RejectCode e) "" then rawArtifactPending else rawArtifactRejected;
  ar_backend := ar_backend a; ar_key := ar_key a; ar_attempt := None; ar_lease := None;
  ar_size := ar_size a; ar_sha := ar_sha a; ar_storage_version := ar_storage_version a;
  ar_backend_version := ar_backend_version a; ar_rejection := nullif_empty (eu_RejectCode e);
  ar_created := ar_created a; ar_updated := store_time (eu_EndedAt e); ar_committed := ar_committed a |}.

Definition EndUpload (e : endUploadSpec) : prog uploads error unit :=
  let key := (eu_WorkspaceID e, eu_ImportID e) in
  let importState := if String.eqb (eu_RejectCode e) "" then ImportAwaitingUpload else ImportRejected in
  do! begin (ErrDatabase "begin ending raw artifact upload") in
  let! rows := statement (ErrDatabase "end raw artifact upload")
                 (update_artifact key (fenced (eu_ArtifactID e) (eu_AttemptID e)) (end_artifact e)) in
  if negb (rows =? 1) then fail ErrUploadLeaseLost
  else
    let! rows := statement (ErrDatabase "end import upload")
                   (update_import key is_uploading importState (eu_EndedAt e)) in
    if negb (rows =? 1) then fail ErrUploadLeaseLost
    else
      do! commit (ErrDatabase "commit end of raw artifact upload") in
      done_with tt.
End Store.

(** ** What each operation does *)

Section Effects.
Context {pg : Postgres}.

(** The rows of one import after a step. *)
Definition put (key : string * string) (im : import_row) (a : option artifact_row) (d : uploads) : uploads :=
  Uploads (<[key := im]> (imports d))
          (match a with Some a => <[key := a]> (artifacts d) | None => artifacts d end).

(** A live attempt of someone else: it has a lease that is not over. *)
Definition live_attempt (at_ : time) (a : artifact_row) : bool :=
  bool_decide (ar_state a = rawArtifactUploading) &&
  match ar_lease a with Some t => at_ <? t | None => false end.

Definition open_state (s : ImportState) : bool :=
  match s with ImportAwaitingUpload | ImportUploading => true | _ => false end.

(** The artifact a new attempt writes. *)
Definition leased_artifact (s : beginUploadSpec) (a : option artifact_row) : artifact_row :=
  match a with None => new_artifact s | Some a => lease_artifact s a end.

Lemma update_import_run key cond st at_ d n d' : update_import key cond st at_ d = Some (n, d') ->
  (n = 0 /\ d' = d) \/
  (n = 1 /\ exists r, imports d !! key = Some r /\ cond r = true /\
     d' = Uploads (<[key := set_import_state st (store_time at_) r]> (imports d)) (artifacts d)).
Proof.
  unfold update_import. destruct (imports d !! key) as [r|]; [|naive_solver].
  destruct (cond r) eqn:?; [|naive_solver]. destruct (check_import _); naive_solver.
Qed.

Lemma update_artifact_run key cond f d n d' : update_artifact key cond f d = Some (n, d') ->
  (n = 0 /\ d' = d) \/
  (n = 1 /\ exists a, artifacts d !! key = Some a /\ cond a = true /\ check_artifact (f a) = true /\
     d' = Uploads (imports d) (<[key := f a]> (artifacts d))).
Proof.
  unfold update_artifact. destruct (artifacts d !! key) as [a|]; [|naive_solver].
  destruct (cond a) eqn:?; [|naive_solver]. destruct (check_artifact _) eqn:?; naive_solver.
Qed.

(** take_lease inside its transaction. *)
Lemma take_lease_run s a c w : artifacts w !! begin_key s = a ->
  match run (take_lease s a) (Session c w []) with
  | (Err _, s') => committed s' = c
  | (Ok t, s') => s' = Session c (Uploads (imports w) (<[begin_key s := leased_artifact s a]> (artifacts w))) [] /\
      check_artifact (leased_artifact s a) = true /\
      t = (ar_id (leased_artifact s a), ar_backend (leased_artifact s a), ar_key (leased_artifact s a)) /\
      match a with
      | None => True
      | Some a => live_attempt (bu_StartedAt s) a = false /\
                  (ar_state a = rawArtifactPending \/ ar_state a = rawArtifactUploading)
      end
  end.
Proof.
  intros Ha. unfold take_lease. destruct a as [a|].
  - assert (live_attempt (bu_StartedAt s) a = false ->
      (ar_state a = rawArtifactPending \/ ar_state a = rawArtifactUploading) ->
      match run (let! rows := statement (ErrDatabase "renew raw artifact upload lease")
                       (update_artifact (begin_key s) (leasable (ar_id a)) (lease_artifact s)) in
        if rows =? 1 then done_with (ar_id a, ar_backend a, ar_key a) else fail ErrUploadLeaseLost)
        (Session c w []) with
      | (Err _, s') => committed s' = c
      | (Ok t, s') => s' = Session c (Uploads (imports w) (<[begin_key s := lease_artifact s a]> (artifacts w))) [] /\
          check_artifact (lease_artifact s a) = true /\ t = (ar_id a, ar_backend a, ar_key a) /\
          live_attempt (bu_StartedAt s) a = false /\
          (ar_state a = rawArtifactPending \/ ar_state a = rawArtifactUploading)
      end) as Hrenew.
    { intros Hl Hst. rewrite run_statement.
      destruct (update_artifact _ _ _ w) as [[n w']|] eqn:Eu; [|done].
      apply update_artifact_run in Eu as [[-> ->]|(-> & a' & Ha' & _ & Hc & ->)]; [done|]. simpl.
      assert (a' = a) as -> by congruence. split_and!; auto. }
    destruct (ar_state a) eqn:Es; try done.
    + apply Hrenew; [|by left]. unfold live_attempt. by rewrite Es.
    + destruct (ar_lease a) as [t|] eqn:El; [destruct (bu_StartedAt s <? t) eqn:Et; [done|]|];
        (apply Hrenew; [|by right]); unfold live_attempt; rewrite Es, El; by rewrite ?Et.
  - rewrite run_statement. unfold insert_artifact. destruct (_ && _ && _) eqn:Ec; [|done]. simpl.
    simp_bool. by split_and!.
Qed.

(** BeginUpload: it changes nothing, abandons an expired reservation, or hands
    out one attempt. *)
Inductive begin_effect (s : beginUploadSpec) (d : uploads) : result error uploadSession -> uploads -> Prop :=
| begin_refused e : begin_effect s d (Err e) d
| begin_replayed im a a' us receipt :
    find_upload s d = Some (im, a) -> im_state im = ImportUploaded -> committed_receipt s a = Some (a', receipt) ->
    us = session_for s im (ar_id a') (ar_backend a') (ar_key a') "" (Some receipt) -> begin_effect s d (Ok us) d
| begin_abandoned im a d1 :
    find_upload s d = Some (im, a) -> open_state (im_state im) = true -> im_expires im <= bu_StartedAt s ->
    (artifacts d1 = artifacts d /\ (a = None \/ exists r, a = Some r /\ ar_state r = rawArtifactCommitted) \/
     exists r, a = Some r /\ ar_state r <> rawArtifactCommitted /\ check_artifact (abandon_artifact s r) = true /\
       artifacts d1 = <[begin_key s := abandon_artifact s r]> (artifacts d)) ->
    imports d1 = <[begin_key s := set_import_state ImportAbandoned (store_time (bu_StartedAt s)) im]> (imports d) ->
    begin_effect s d (Err ErrUploadExpired) d1
| begin_leased im a us :
    find_upload s d = Some (im, a) -> open_state (im_state im) = true -> bu_StartedAt s < im_expires im ->
    check_artifact (leased_artifact s a) = true ->
    match a with
    | None => True
    | Some a => live_attempt (bu_StartedAt s) a = false /\
                (ar_state a = rawArtifactPending \/ ar_state a = rawArtifactUploading)
    end ->
    us = session_for s im (ar_id (leased_artifact s a)) (ar_backend (leased_artifact s a))
           (ar_key (leased_artifact s a)) (bu_AttemptID s) None ->
    check_import (set_import_state ImportUploading (store_time (bu_StartedAt s)) im) = true ->
    begin_effect s d (Ok us)
      (put (begin_key s) (set_import_state ImportUploading (store_time (bu_StartedAt s)) im)
           (Some (leased_artifact s a)) d).

Lemma find_upload_spec s d im a : find_upload s d = Some (im, a) ->
  imports d !! begin_key s = Some im /\ a = artifacts d !! begin_key s /\
  im_application im = bu_ApplicationID s /\ im_creator im = bu_PrincipalID s.
Proof.
  unfold find_upload. destruct (imports d !! begin_key s) as [r|]; [|done].
  destruct (_ && _) eqn:E; [|done]. intros [= <- <-]. by simp_bool.
Qed.

Lemma abandon_run s im a d : find_upload s d = Some (im, a) -> open_state (im_state im) = true ->
  im_expires im <= bu_StartedAt s ->
  let out := run (abandon s (negb (is_null a))) (Session d d []) in
  begin_effect s d (fst out) (committed (snd out)).
Proof.
  intros Hf Ho He. pose proof (find_upload_spec _ _ _ _ Hf) as (Him & Ha & _). unfold abandon. rewrite run_bind.
  assert (forall d1, imports d1 = imports d ->
    (artifacts d1 = artifacts d /\ (a = None \/ exists r, a = Some r /\ ar_state r = rawArtifactCommitted) \/
     exists r, a = Some r /\ ar_state r <> rawArtifactCommitted /\ check_artifact (abandon_artifact s r) = true /\
       artifacts d1 = <[begin_key s := abandon_artifact s r]> (artifacts d)) ->
    let out := run (do! statement (ErrDatabase "abandon expired import upload")
        (update_import (begin_key s) (fun _ => true) ImportAbandoned (bu_StartedAt s)) in
      do! commit (ErrDatabase "commit expired import upload") in @fail uploads error uploadSession ErrUploadExpired)
      (Session d d1 []) in
    begin_effect s d (fst out) (committed (snd out))) as Hrest.
  { intros d1 Hi Hd1. rewrite run_statement. unfold update_import. rewrite Hi, Him.
    destruct (check_import _); [|apply begin_refused]. simpl. eapply begin_abandoned; eauto. }
  destruct a as [r|]; simpl.
  - destruct (update_artifact _ _ _ d) as [[n d1]|] eqn:Eu; [|apply begin_refused].
    pose proof Eu as Eu'. unfold update_artifact in Eu. rewrite <- Ha in Eu.
    apply update_artifact_run in Eu' as [[-> ->]|(-> & r' & Hr & Hc & Hck & ->)].
    + apply Hrest; [done|]. left. split; [done|]. right. exists r. split; [done|].
      destruct (bool_decide _) eqn:Eb in Eu; [by apply bool_decide_eq_true in Eb|].
      simpl in Eu. by destruct (check_artifact _).
    + apply Hrest; [done|]. right. exists r. assert (r' = r) as -> by congruence.
      simp_bool. by split_and!.
  - apply Hrest; [done|]. left. auto.
Qed.

Lemma BeginUpload_effect s d : begin_effect s d (fst (exec (BeginUpload s) d)) (snd (exec (BeginUpload s) d)).
Proof.
  assert (exec (BeginUpload s) d =
    let out := run (BeginUpload s) (Session d d []) in (fst out, committed (snd out))) as ->.
  { unfold exec, run_on. by destruct (run _ _). }
  cbv zeta. cbn [fst snd]. unfold BeginUpload. rewrite run_begin. unfold query.
  cbn [bind run next_fault faults tick tail working committed].
  destruct (find_upload s d) as [[im a]|] eqn:Ef; [|apply begin_refused].
  pose proof (find_upload_spec _ _ _ _ Ef) as (Him & Ha & _).
  assert (open_state (im_state im) = true ->
    let out := run (if negb (bu_StartedAt s <? im_expires im) then abandon s (negb (is_null a))
          else
            let! target := take_lease s a in
            do! statement (ErrDatabase "mark import uploading")
                  (update_import (begin_key s) (fun _ => true) ImportUploading (bu_StartedAt s)) in
            do! commit (ErrDatabase "commit raw artifact upload lease") in
            done_with (session_for s im (fst (fst target)) (snd (fst target)) (snd target) (bu_AttemptID s) None))
      (Session d d []) in
    begin_effect s d (fst out) (committed (snd out))) as Hopen.
  { intros Ho. destruct (negb _) eqn:Et; simp_bool; [by apply (abandon_run s im a)|].
    rewrite run_bind. pose proof (take_lease_run s a d d (eq_sym Ha)) as Hl.
    destruct (run (take_lease s a) _) as [[t|e] ses]; [|rewrite <- Hl; apply begin_refused].
    destruct Hl as (-> & Hck & -> & Hlive). rewrite run_statement. unfold update_import. simpl. rewrite Him.
    destruct (check_import _) eqn:Eck; [|apply begin_refused]. simpl. by eapply begin_leased. }
  destruct (im_state im) eqn:Es; try apply begin_refused; try (by apply Hopen).
  destruct (committed_receipt s a) as [[a' rc]|] eqn:Er; [|apply begin_refused].
  simpl. by eapply begin_replayed.
Qed.

(** The receipt CommitUpload answers. *)
Definition receipt_of (c : commitUploadSpec) : UploadReceipt := {|
  rc_ImportID := cu_ImportID c; rc_State := ImportUploaded; rc_SizeBytes := cu_SizeBytes c;
  rc_SHA256 := cu_SHA256 c; rc_UploadedAt := cu_CommittedAt c |}.

Definition commit_key (c : commitUploadSpec) : string * string := (cu_WorkspaceID c, cu_ImportID c).

Lemma CommitUpload_effect c d : let '(r, d') := exec (CommitUpload c) d in
  ((exists e, r = Err e) /\ d' = d) \/
  exists im a digest, imports d !! commit_key c = Some im /\ artifacts d !! commit_key c = Some a /\
    im_state im = ImportUploading /\ fenced (cu_ArtifactID c) (cu_AttemptID c) a = true /\
    hex_decode (cu_SHA256 c) = Some digest /\ check_artifact (commit_artifact c digest a) = true /\
    r = Ok (receipt_of c) /\
    d' = put (commit_key c) (set_import_state ImportUploaded (store_time (cu_CommittedAt c)) im)
             (Some (commit_artifact c digest a)) d.
Proof.
  unfold exec, run_on, CommitUpload. fold (commit_key c).
  destruct (hex_decode _) as [digest|]; [|simpl; eauto]. destruct (_ || _ || _ || _); [simpl; eauto|].
  rewrite run_begin, run_statement.
  destruct (update_artifact _ _ _ d) as [[n d1]|] eqn:Ea; [|simpl; eauto].
  apply update_artifact_run in Ea as [[-> ->]|(-> & a & Ha & Hc & Hck & ->)]; [simpl; eauto|].
  cbn [negb Z.eqb Pos.eqb]. rewrite run_statement.
  destruct (update_import _ _ _ _ _) as [[n d1]|] eqn:Ei; [|simpl; eauto].
  apply update_import_run in Ei as [[-> ->]|(-> & im & Him & Hu & ->)]; [simpl; eauto|]. right.
  unfold is_uploading in Hu. simp_bool. exists im, a, digest. by split_and!.
Qed.

Definition end_key (e : endUploadSpec) : string * string := (eu_WorkspaceID e, eu_ImportID e).
Definition ended_state (e : endUploadSpec) : ImportState :=
  if String.eqb (eu_RejectCode e) "" then ImportAwaitingUpload else ImportRejected.

Lemma EndUpload_effect e d : let '(r, d') := exec (EndUpload e) d in
  ((exists x, r = Err x) /\ d' = d) \/
  exists im a, imports d !! end_key e = Some im /\ artifacts d !! end_key e = Some a /\
    im_state im = ImportUploading /\ fenced (eu_ArtifactID e) (eu_AttemptID e) a = true /\
    check_artifact (end_artifact e a) = true /\ r = Ok tt /\
    d' = put (end_key e) (set_import_state (ended_state e) (store_time (eu_EndedAt e)) im)
             (Some (end_artifact e a)) d.
Proof.
  unfold exec, run_on, EndUpload. fold (end_key e) (ended_state e). rewrite run_begin, run_statement.
  destruct (update_artifact _ _ _ d) as [[n d1]|] eqn:Ea; [|simpl; eauto].
  apply update_artifact_run in Ea as [[-> ->]|(-> & a & Ha & Hc & Hck & ->)]; [simpl; eauto|].
  cbn [negb Z.eqb Pos.eqb]. rewrite run_statement.
  destruct (update_import _ _ _ _ _) as [[n d1]|] eqn:Ei; [|simpl; eauto].
  apply update_import_run in Ei as [[-> ->]|(-> & im & Him & Hu & ->)]; [simpl; eauto|]. right.
  unfold is_uploading in Hu. simp_bool. exists im, a. by split_and!.
Qed.

(** ** Atomicity *)

Lemma take_lease_no_commit s a : no_commit (take_lease s a).
Proof.
  unfold take_lease.
  assert (no_commit (let! rows := statement (ErrDatabase "renew raw artifact upload lease")
    (update_artifact (begin_key s) (leasable (ar_id (default (new_artifact s) a))) (lease_artifact s)) in
    if rows =? 1 then done_with (ar_id (default (new_artifact s) a), ar_backend (default (new_artifact s) a),
      ar_key (default (new_artifact s) a)) else @fail uploads error _ ErrUploadLeaseLost)) as H.
  { simpl. constructor. intros n. destruct (n =? 1); constructor. }
  destruct a as [a|]; [|simpl; repeat constructor]. simpl in H. repeat case_match; (exact H || constructor).
Qed.

Lemma BeginUpload_atomic s : atomic (BeginUpload s).
Proof.
  unfold BeginUpload. simpl. constructor. constructor. intros [[im a]|]; [|constructor].
  assert (in_tx (abandon s (negb (is_null a)))) as Hab.
  { unfold abandon. apply in_tx_bind; [destruct (negb _); repeat constructor|]. intros n. simpl.
    constructor. intros m. constructor. }
  assert (in_tx (let! target := take_lease s a in
            do! statement (ErrDatabase "mark import uploading")
                  (update_import (begin_key s) (fun _ => true) ImportUploading (bu_StartedAt s)) in
            do! commit (ErrDatabase "commit raw artifact upload lease") in
            done_with (session_for s im (fst (fst target)) (snd (fst target)) (snd target) (bu_AttemptID s) None)))
    as Hle.
  { apply in_tx_bind; [apply take_lease_no_commit|]. intros t. simpl. constructor. intros m. constructor. }
  destruct (im_state im); try (destruct (negb (_ <? _)); [exact Hab|exact Hle]); try apply in_tx_ret.
  destruct (committed_receipt s a) as [[a' rc]|]; simpl; constructor.
Qed.

Lemma CommitUpload_atomic c : atomic (CommitUpload c).
Proof.
  unfold CommitUpload. destruct (hex_decode _); [|constructor]. destruct (_ || _ || _ || _); [constructor|].
  simpl. constructor. constructor. intros n. destruct (negb (n =? 1)); simpl; constructor.
  intros m. destruct (negb (m =? 1)); simpl; constructor.
Qed.

Lemma EndUpload_atomic e : atomic (EndUpload e).
Proof.
  unfold EndUpload. simpl. constructor. constructor. intros n. destruct (negb (n =? 1)); simpl; constructor.
  intros m. destruct (negb (m =? 1)); simpl; constructor.
Qed.

(** ** The upload lifecycle *)

Inductive operation :=
| OpBegin (s : beginUploadSpec)
| OpCommit (c : commitUploadSpec)
| OpEnd (e : endUploadSpec).

(** One call on a connection that fails as [fs] says: did it succeed, and the
    database after it. *)
Definition perform (op : operation) (fs : list fault) (d : uploads) : bool * uploads :=
  match op with
  | OpBegin s => let '(r, d') := run_on (BeginUpload s) d fs in (is_ok r, d')
  | OpCommit c => let '(r, d') := run_on (CommitUpload c) d fs in (is_ok r, d')
  | OpEnd e => let '(r, d') := run_on (EndUpload e) d fs in (is_ok r, d')
  end.

(** A failing connection leaves the database as it was or as a healthy call
    leaves it, and never turns a failure into a success. *)
Lemma perform_faults op fs d :
  perform op fs d = perform op [] d \/
  fst (perform op fs d) = false /\ (snd (perform op fs d) = d \/ snd (perform op fs d) = snd (perform op [] d)).
Proof.
  assert (forall A (p : prog uploads error A), atomic p ->
    let f fs := let '(r, d') := run_on p d fs in (is_ok r, d') in
    f fs = f [] \/ fst (f fs) = false /\ (snd (f fs) = d \/ snd (f fs) = snd (f []))) as H.
  { intros A p Hp. cbv zeta. destruct (atomic_run p d fs Hp) as [->|[[e He] Hd]]; [by left|right].
    unfold exec in *. destruct (run_on p d fs), (run_on p d []); simpl in *. by rewrite He. }
  destruct op; apply H; [apply BeginUpload_atomic|apply CommitUpload_atomic|apply EndUpload_atomic].
Qed.

(** The state of an import and the state of its artifact tell the same story. *)
Definition states_agree (s : ImportState) (a : option rawArtifactState) : bool :=
  match s, a with
  | ImportAwaitingUpload, (None | Some rawArtifactPending) => true
  | ImportUploading, Some rawArtifactUploading => true
  | ImportUploaded, Some rawArtifactCommitted => true
  | (ImportQueued | ImportProcessing | ImportSucceeded | ImportFailed), Some st => holds_evidence st
  | ImportRejected, Some rawArtifactRejected => true
  | ImportAbandoned, (None | Some rawArtifactAbandoned) => true
  | _, _ => false
  end.

Definition consistent (d : uploads) : Prop := forall key im, imports d !! key = Some im ->
  states_agree (im_state im) (ar_state <$> artifacts d !! key) = true.

(** Changing the rows of one import. *)
Lemma consistent_put key im a d : consistent d ->
  states_agree (im_state im) (ar_state <$> (match a with Some a => Some a | None => artifacts d !! key end)) = true ->
  consistent (put key im a d).
Proof.
  intros Hc Ha key' im'. unfold put. simpl. destruct (decide (key' = key)) as [->|Hne].
  - rewrite lookup_insert_eq. intros [= <-]. destruct a as [a|]; [by rewrite lookup_insert_eq|done].
  - rewrite lookup_insert_ne by done. intros H. destruct a as [a|]; [rewrite lookup_insert_ne by done|]; by apply Hc.
Qed.

Lemma uploads_eta d : d = Uploads (imports d) (artifacts d).
Proof. by destruct d. Qed.

Lemma begin_consistent s d : consistent d -> consistent (snd (exec (BeginUpload s) d)).
Proof.
  intros Hc. destruct (BeginUpload_effect s d) as [e|im a a' us rc|im a d1 Hf Ho He Hart Him1|im a us Hf Ho He Hck Hlive]; [done|done| |].
  - apply find_upload_spec in Hf as (Him & Ha & _). pose proof (Hc _ _ Him) as Hag. rewrite <- Ha in Hag.
    rewrite (uploads_eta d1), Him1.
    destruct Hart as [[-> Hor]|(r & -> & _ & _ & ->)].
    + apply (consistent_put (begin_key s) _ None); [done|]. simpl. rewrite <- Ha.
      destruct Hor as [->|(r & -> & Hr)]; [done|]. simpl in Hag. rewrite Hr in Hag. by destruct (im_state im).
    + by apply (consistent_put (begin_key s) _ (Some _)).
  - apply find_upload_spec in Hf as (Him & Ha & _). apply consistent_put; [done|]. by destruct a.
Qed.

Lemma operation_consistent op d : consistent d -> consistent (snd (perform op [] d)).
Proof.
  intros Hc. destruct op as [s|c|e]; unfold perform.
  - pose proof (begin_consistent s d Hc) as H. unfold exec in H. by destruct (run_on _ _ _).
  - pose proof (CommitUpload_effect c d) as H. unfold exec in H.
    destruct (run_on _ _ _) as [r d']. destruct H as [[_ ->]|(im & a & dg & _ & _ & _ & _ & _ & _ & _ & ->)]; [done|].
    by apply consistent_put.
  - pose proof (EndUpload_effect e d) as H. unfold exec in H.
    destruct (run_on _ _ _) as [r d']. destruct H as [[_ ->]|(im & a & _ & _ & _ & _ & _ & _ & ->)]; [done|].
    apply consistent_put; [done|]. unfold ended_state. simpl. by destruct (String.eqb _ _).
Qed.

Definition history := list (operation * list fault).
Definition replay (h : history) (d : uploads) : uploads := foldl (fun d op => snd (perform (fst op) (snd op) d)) d h.

Lemma perform_db op fs d : snd (perform op fs d) = d \/ snd (perform op fs d) = snd (perform op [] d).
Proof. destruct (perform_faults op fs d) as [->|[_ ?]]; [by right|done]. Qed.

(** The states the upload operations write. *)
Definition upload_state (s : ImportState) : bool :=
  match s with
  | ImportAwaitingUpload | ImportUploading | ImportUploaded | ImportRejected | ImportAbandoned => true
  | _ => false
  end.

(** An upload operation changes nothing, or one import whose upload is open. *)
Lemma perform_shape op d : snd (perform op [] d) = d \/
  exists key im st t, imports d !! key = Some im /\ open_state (im_state im) = true /\ upload_state st = true /\
    imports (snd (perform op [] d)) = <[key := set_import_state st t im]> (imports d) /\
    (forall k, k <> key -> artifacts (snd (perform op [] d)) !! k = artifacts d !! k).
Proof.
  destruct op as [s|c|e]; unfold perform.
  - pose proof (BeginUpload_effect s d) as H. unfold exec in H. destruct (run_on _ _ _) as [r d']. simpl in *.
    destruct H as [e|im a a' us rc|im a d1 Hf Ho He Hart Him1|im a us Hf Ho He Hck Hlive]; [by left|by left| |];
      right; apply find_upload_spec in Hf as (Him & _).
    + eexists (begin_key s), im, ImportAbandoned, _. split_and!; [done|done|done|exact Him1|].
      intros k Hk. destruct Hart as [[-> _]|(r & _ & _ & _ & ->)]; [done|by rewrite lookup_insert_ne].
    + eexists (begin_key s), im, ImportUploading, _. split_and!; [done..|]. intros k Hk. simpl. by rewrite lookup_insert_ne.
  - pose proof (CommitUpload_effect c d) as H. unfold exec in H. destruct (run_on _ _ _) as [r d'].
    destruct H as [[_ ->]|(im & a & dg & Him & _ & Hs & _ & _ & _ & _ & ->)]; [by left|right].
    eexists (commit_key c), im, ImportUploaded, _. split_and!; [done|by rewrite Hs|done|done|].
    intros k Hk. simpl. by rewrite lookup_insert_ne.
  - pose proof (EndUpload_effect e d) as H. unfold exec in H. destruct (run_on _ _ _) as [r d'].
    destruct H as [[_ ->]|(im & a & Him & _ & Hs & _ & _ & _ & ->)]; [by left|right].
    eexists (end_key e), im, (ended_state e), _. split_and!; [done|by rewrite Hs| |done|].
    + unfold ended_state. by destruct (String.eqb _ _).
    + intros k Hk. simpl. by rewrite lookup_insert_ne.
Qed.

(** Imports and their evidence never disagree: whatever sequence of
    upload attempts, publications and releases runs, on whatever connections,
    an import is uploading exactly while its artifact is, uploaded only with
    committed evidence, and rejected or abandoned together with it. *)
Theorem upload_consistency (h : history) d : consistent d -> consistent (replay h d).
Proof.
  revert d. induction h as [|[op fs] h IH]; intros d Hc; simpl; [done|]. apply IH.
  destruct (perform_db op fs d) as [->| ->]; [done|]. by apply operation_consistent.
Qed.

Lemma committed_kept op d key a : artifacts d !! key = Some a -> ar_state a = rawArtifactCommitted ->
  artifacts (snd (perform op [] d)) !! key = Some a.
Proof.
  intros Ha Hs. assert (forall k (r : artifact_row), k <> key -> <[k := r]> (artifacts d) !! key = Some a) as Hput.
  { intros k r Hne. by rewrite lookup_insert_ne. }
  destruct op as [s|c|e]; unfold perform.
  - pose proof (BeginUpload_effect s d) as H. unfold exec in H.
    destruct (run_on _ _ _) as [r d']. simpl in *.
    destruct H as [e|im o a' us rc|im o d1 Hf _ _ Hart _|im o us Hf _ _ _ Hlive]; [done|done| |];
      apply find_upload_spec in Hf as (_ & -> & _).
    + destruct Hart as [[-> _]|(r' & Hr & Hne & _ & ->)]; [done|].
      apply Hput. intros <-. congruence.
    + apply Hput. intros <-. rewrite Ha in Hlive. destruct Hlive as [_ [?|?]]; congruence.
  - pose proof (CommitUpload_effect c d) as H. unfold exec in H.
    destruct (run_on _ _ _) as [r d']. simpl in *.
    destruct H as [[_ ->]|(im & r' & dg & _ & Hr & _ & Hf & _ & _ & _ & ->)]; [done|].
    apply Hput. intros <-. unfold fenced in Hf. simp_bool. congruence.
  - pose proof (EndUpload_effect e d) as H. unfold exec in H.
    destruct (run_on _ _ _) as [r d']. simpl in *.
    destruct H as [[_ ->]|(im & r' & _ & Hr & _ & Hf & _ & _ & ->)]; [done|].
    apply Hput. intros <-. unfold fenced in Hf. simp_bool. congruence.
Qed.

(** Committed evidence is immutable: once an artifact is committed, no
    later attempt, publication or release, however its connection fails,
    changes its row. *)
Theorem evidence_immutable (h : history) d key a :
  artifacts d !! key = Some a -> ar_state a = rawArtifactCommitted ->
  artifacts (replay h d) !! key = Some a.
Proof.
  intros Ha Hs. revert d Ha. induction h as [|[op fs] h IH]; intros d Ha; simpl; [done|]. apply IH.
  destruct (perform_db op fs d) as [->| ->]; [done|]. by apply committed_kept.
Qed.

(** One attempt at a time: while an attempt holds an unexpired lease, no
    other BeginUpload on that import gets a session or changes anything, and
    a publication or release under any other attempt identifier fails and
    changes nothing, whatever the connection does. *)
Theorem upload_exclusive d key a attempt until fs :
  artifacts d !! key = Some a -> ar_state a = rawArtifactUploading ->
  ar_attempt a = Some attempt -> ar_lease a = Some until -> consistent d ->
  (forall s, begin_key s = key -> bu_StartedAt s < until ->
     (forall im, imports d !! key = Some im -> bu_StartedAt s < im_expires im) ->
     perform (OpBegin s) fs d = (false, d)) /\
  (forall c, commit_key c = key -> cu_AttemptID c <> attempt -> perform (OpCommit c) fs d = (false, d)) /\
  (forall e, end_key e = key -> eu_AttemptID e <> attempt -> perform (OpEnd e) fs d = (false, d)).
Proof.
  intros Ha Hst Hat Hlease Hcons.
  assert (forall op, perform op [] d = (false, d) -> perform op fs d = (false, d)) as Hf.
  { intros op H. destruct (perform_faults op fs d) as [->|[H1 H2]]; [done|]. rewrite H in H2. simpl in H2.
    destruct (perform op fs d). simpl in *. naive_solver. }
  split_and!.
  - intros s Hk Ht Hexp. apply Hf. unfold perform.
    pose proof (BeginUpload_effect s d) as H. unfold exec in H. destruct (run_on _ _ _) as [r d']. simpl in *.
    destruct H as [e|im o a' us rc Hfd Hup|im o d1 Hfd _ He|im o us Hfd _ _ _ Hlive]; [done|..];
      apply find_upload_spec in Hfd as (Him & -> & _); rewrite Hk in *.
    + pose proof (Hcons _ _ Him) as Hag. rewrite Ha, Hup in Hag. simpl in Hag. by rewrite Hst in Hag.
    + specialize (Hexp _ Him). lia.
    + rewrite Ha in Hlive. destruct Hlive as [Hlive _]. unfold live_attempt in Hlive.
      rewrite Hst, Hlease in Hlive. simpl in Hlive. simp_bool. lia.
  - intros c Hk Hne. apply Hf. unfold perform. pose proof (CommitUpload_effect c d) as H. unfold exec in H.
    destruct (run_on _ _ _) as [r d']. rewrite Hk in H.
    destruct H as [[[e ->] ->]|(im & a' & dg & _ & Ha' & _ & Hfe & _)]; [done|].
    unfold fenced in Hfe. simp_bool. congruence.
  - intros e Hk Hne. apply Hf. unfold perform. pose proof (EndUpload_effect e d) as H. unfold exec in H.
    destruct (run_on _ _ _) as [r d']. rewrite Hk in H.
    destruct H as [[[x ->] ->]|(im & a' & _ & Ha' & _ & Hfe & _)]; [done|].
    unfold fenced in Hfe. simp_bool. congruence.
Qed.

(** Evidence that the columns of the table can hold. *)
Definition publishable (c : commitUploadSpec) (digest : string) : bool :=
  (slen digest =? 32) && (0 <=? cu_SizeBytes c) && (cu_SizeBytes c <=? max_int64) &&
  negb (String.eqb (cu_StorageVersion c) "") && char_length_between 0 128 (cu_StorageVersion c) &&
  opt_check (char_length_between 0 1024) (nullif_empty (cu_BackendVersion c)) && negb (IsZero (cu_CommittedAt c)).

Lemma check_commit c digest a : check_artifact a = true -> ar_state a = rawArtifactUploading ->
  publishable c digest = true -> ar_created a <= store_time (cu_CommittedAt c) ->
  check_artifact (commit_artifact c digest a) = true.
Proof.
  intros Hck Hs Hp Ht. unfold check_artifact in *. rewrite Hs in Hck. unfold publishable in Hp.
  assert (is_null (ar_rejection a) = true) as Hr.
  { rewrite !andb_true_iff in Hck. destruct Hck as [[[_ Hr] _] _]. by destruct (ar_rejection a). }
  cbn -[char_length_between match_head Blobstore.keyPattern opt_check nullif_empty Z.leb max_int64 slen].
  simp_bool. rewrite Hr.
  repeat match goal with H : ?b = true |- context [?b] => rewrite H end.
  unfold opt_check. rewrite !(proj2 (Z.leb_le _ _)) by lia. cbn [negb andb Bool.eqb].
  rewrite (proj2 (Z.eqb_eq (slen digest) 32)) by done.
  match goal with H : char_length_between 0 128 (cu_StorageVersion c) = true |- _ => rewrite H end.
  by rewrite !bool_decide_eq_false_2.
Qed.

(** An upload is published once and for all: the session BeginUpload hands
    out can be committed with any evidence the table can hold, until its lease
    is over; the answer repeats that evidence, and from then on every upload
    attempt of the same caller is answered with the committed evidence and
    changes nothing. *)
Theorem upload_publishes s d us d1 c digest :
  exec (BeginUpload s) d = (Ok us, d1) -> us_Receipt us = None ->
  commit_key c = begin_key s -> cu_ArtifactID c = us_ArtifactID us -> cu_AttemptID c = us_AttemptID us ->
  hex_decode (cu_SHA256 c) = Some digest -> publishable c digest = true ->
  store_time (cu_CommittedAt c) <= store_time (bu_LeaseExpiresAt s) ->
  (forall im a, imports d1 !! begin_key s = Some im -> artifacts d1 !! begin_key s = Some a ->
     im_created im <= store_time (cu_CommittedAt c) /\ ar_created a <= store_time (cu_CommittedAt c)) ->
  exists d2, exec (CommitUpload c) d1 = (Ok (receipt_of c), d2) /\
    forall s', begin_key s' = begin_key s -> bu_ApplicationID s' = bu_ApplicationID s ->
      bu_PrincipalID s' = bu_PrincipalID s ->
      exists us', exec (BeginUpload s') d2 = (Ok us', d2) /\
        us_Receipt us' = Some {| rc_ImportID := bu_ImportID s'; rc_State := ImportUploaded;
          rc_SizeBytes := cu_SizeBytes c; rc_SHA256 := hex_encode digest;
          rc_UploadedAt := store_time (cu_CommittedAt c) |}.
Proof.
  intros Hb Hnone Hkey Hid Hat Hhex Hpub Hlease Htimes.
  pose proof (BeginUpload_effect s d) as He. rewrite Hb in He. cbn [fst snd] in He.
  remember (Ok us) as r eqn:Er. destruct He as [|? ? ? ? ? ? ? ? Hrec| |im a us0 Hf Ho Hx Hck Hlive Hus]; try done.
  { injection Er as ->. by rewrite Hrec in Hnone. }
  injection Er as ->. apply find_upload_spec in Hf as (Him & _ & Happ & Hcr).
  set (la := leased_artifact s a) in *. unfold put in Htimes. simpl in Htimes.
  rewrite !lookup_insert_eq in Htimes. destruct (Htimes _ _ eq_refl eq_refl) as [Hti Hta]. simpl in Hti.
  assert (ar_state la = rawArtifactUploading /\ ar_attempt la = Some (bu_AttemptID s) /\
          ar_lease la = Some (store_time (bu_LeaseExpiresAt s))) as (Ls & La & Ll) by (by destruct a).
  pose proof (check_commit c digest la Hck Ls Hpub Hta) as Hck'.
  assert (fenced (cu_ArtifactID c) (cu_AttemptID c) la = true) as Hfence.
  { unfold fenced. rewrite Hid, Hat, Hus, Ls, La. cbn [us_ArtifactID us_AttemptID session_for].
    by rewrite String.eqb_refl, !bool_decide_eq_true_2. }
  eexists. split.
  - unfold exec, run_on, CommitUpload. rewrite Hhex. fold (commit_key c). rewrite Hkey.
    unfold publishable in Hpub. simp_bool.
    rewrite (proj2 (Z.eqb_eq (slen digest) 32)), (proj2 (Z.ltb_ge _ _)), (proj2 (String.eqb_neq _ _)) by done.
    match goal with H : IsZero _ = false |- _ => rewrite H end. cbn [negb orb]. rewrite run_begin, run_statement.
    unfold update_artifact, put. cbn [imports artifacts]. rewrite lookup_insert_eq, Hfence, Ll.
    rewrite (proj2 (Z.leb_le _ _)) by done. cbn [andb]. rewrite Hck'. cbn [negb Z.eqb Pos.eqb].
    rewrite run_statement. unfold update_import. cbn [imports artifacts]. rewrite lookup_insert_eq.
    unfold is_uploading, check_import. cbn [im_state set_import_state im_created im_updated].
    rewrite bool_decide_eq_true_2 by done. rewrite (proj2 (Z.leb_le _ _)) by done. cbn [negb Z.eqb Pos.eqb].
    reflexivity.
  - intros s' Hk' Ha' Hp'. unfold exec, run_on, BeginUpload. rewrite run_begin. unfold query.
    cbn [bind run next_fault faults tick tail working committed]. unfold find_upload. rewrite Hk'.
    cbn [imports artifacts]. rewrite !lookup_insert_eq. cbn [im_application im_creator set_import_state].
    rewrite Ha', Hp', Happ, Hcr, !String.eqb_refl. cbn [andb im_state].
    unfold committed_receipt. cbn [ar_size ar_sha ar_committed commit_artifact ar_state].
    unfold publishable in Hpub. simp_bool. rewrite bool_decide_eq_true_2, (proj2 (Z.eqb_eq _ _)) by done.
    cbn [andb]. eexists. split; [reflexivity|]. done.
Qed.
End Effects.
End Uploads.
