(* ===== verification/UploadExamples.v ===== *)
(** * A concrete upload

    One reserved import, uploaded by a first attempt whose lease runs out and
    published by a second one; the theorems of Uploads.v applied to it. *)

From S2P Require Import Prelude GoStrings Encoding Txn Queue QueueExamples Blobstore Uploads.

Local Open Scope Z_scope.

Module UploadExamples.
Import Uploads.
#[local] Existing Instance QueueExamples.demo_pg.

Definition t0 : time := 63000000000 * Second.
Definition key_a : string := "blb_aaaaaaaaaaaaaaaaaaaaaaaaaaaaaaaaaaaaaaaaaaaaaaaaaaaa".

Definition import_a : import_row := {|
  im_application := "app_a"; im_creator := "usr_a"; im_state := ImportAwaitingUpload;
  im_format_name := "sarif"; im_format_version := Some "2.1.0"; im_filename := None; im_max_bytes := 4096;
  im_expires := t0 + Hour; im_expected_size := Some 3; im_expected_sha := None; im_created := t0;
  im_updated := t0 |}.
Definition artifact_a : artifact_row := {|
  ar_id := "art_a"; ar_state := rawArtifactPending; ar_backend := "filesystem"; ar_key := key_a;
  ar_attempt := None; ar_lease := None; ar_size := None; ar_sha := None; ar_storage_version := None;
  ar_backend_version := None; ar_rejection := None; ar_created := t0; ar_updated := t0; ar_committed := None |}.
Definition reserved : uploads :=
  Uploads {[("ws_a", "imp_a") := import_a]} {[("ws_a", "imp_a") := artifact_a]}.

Definition attempt (id : string) (at_ : time) : beginUploadSpec := {|
  bu_PrincipalID := "usr_a"; bu_WorkspaceID := "ws_a"; bu_ApplicationID := "app_a"; bu_ImportID := "imp_a";
  bu_ArtifactID := "art_new"; bu_StorageBackend := "filesystem"; bu_StorageKey := key_a; bu_AttemptID := id;
  bu_StartedAt := at_; bu_LeaseExpiresAt := at_ + 60 * Second |}.
Definition evidence (id : string) (at_ : time) : commitUploadSpec := {|
  cu_WorkspaceID := "ws_a"; cu_ImportID := "imp_a"; cu_ArtifactID := "art_a"; cu_AttemptID := id;
  cu_SizeBytes := 3; cu_SHA256 := hex_encode (sha256 "abc"); cu_StorageVersion := "sha256:v1";
  cu_BackendVersion := ""; cu_CommittedAt := at_ |}.
Definition release (id : string) (at_ : time) : endUploadSpec := {|
  eu_WorkspaceID := "ws_a"; eu_ImportID := "imp_a"; eu_ArtifactID := "art_a"; eu_AttemptID := id;
  eu_EndedAt := at_; eu_RejectCode := "" |}.

Lemma reserved_consistent : consistent reserved.
Proof. intros key im. simpl. intros [<- <-]%lookup_singleton_Some. by rewrite lookup_singleton_eq. Qed.

(** The first attempt's lease expires, a second one takes over and publishes,
    the first one tries to publish and to release. *)
Definition race : history :=
  [(OpBegin (attempt "upl_1" (t0 + Second)), []);
   (OpBegin (attempt "upl_2" (t0 + 90 * Second)), [Healthy; Healthy; Broken]);
   (OpBegin (attempt "upl_2" (t0 + 91 * Second)), []);
   (OpCommit (evidence "upl_1" (t0 + 92 * Second)), []);
   (OpCommit (evidence "upl_2" (t0 + 93 * Second)), [Healthy; Healthy; Healthy; Lost]);
   (OpEnd (release "upl_1" (t0 + 94 * Second)), [])].

Definition published : uploads := replay race reserved.

Example race_published :
  option_map im_state (imports published !! ("ws_a", "imp_a")) = Some ImportUploaded /\
  option_map ar_state (artifacts published !! ("ws_a", "imp_a")) = Some rawArtifactCommitted.
Proof. vm_compute. done. Qed.

Lemma upload_consistency_witness : consistent reserved /\ consistent published.
Proof. split; [apply reserved_consistent|]. apply upload_consistency. apply reserved_consistent. Defined.

Definition after_begin : uploads := snd (exec (BeginUpload (attempt "upl_1" (t0 + Second))) reserved).
Definition leased_a : artifact_row := lease_artifact (attempt "upl_1" (t0 + Second)) artifact_a.
Definition committed_a : artifact_row :=
  commit_artifact (evidence "upl_2" (t0 + 93 * Second)) (sha256 "abc")
    (lease_artifact (attempt "upl_2" (t0 + 91 * Second)) leased_a).

Lemma evidence_immutable_witness :
  artifacts published !! ("ws_a", "imp_a") = Some committed_a /\
  artifacts (replay race published) !! ("ws_a", "imp_a") = Some committed_a.
Proof.
  assert (artifacts published !! ("ws_a", "imp_a") = Some committed_a) as E by (vm_compute; reflexivity).
  split; [exact E|]. apply (evidence_immutable race published ("ws_a", "imp_a") committed_a E). reflexivity.
Defined.

Lemma upload_exclusive_witness :
  artifacts after_begin !! ("ws_a", "imp_a") = Some leased_a /\
  perform (OpBegin (attempt "upl_9" (t0 + 5 * Second))) [Healthy] after_begin = (false, after_begin) /\
  perform (OpCommit (evidence "upl_9" (t0 + 5 * Second))) [] after_begin = (false, after_begin) /\
  perform (OpEnd (release "upl_9" (t0 + 5 * Second))) [Lost] after_begin = (false, after_begin).
Proof.
  assert (artifacts after_begin !! ("ws_a", "imp_a") = Some leased_a) as E by (vm_compute; reflexivity).
  assert (consistent after_begin) as Hc
    by apply (begin_consistent (attempt "upl_1" (t0 + Second)) reserved reserved_consistent).
  assert (forall fs, _) as H by exact (fun fs => upload_exclusive after_begin ("ws_a", "imp_a") leased_a "upl_1"
    (t0 + 61 * Second) fs E eq_refl eq_refl eq_refl Hc).
  split; [exact E|]. split; [|split].
  - apply (proj1 (H [Healthy])); [reflexivity|vm_compute; reflexivity|].
    assert (imports after_begin !! ("ws_a", "imp_a") =
      Some (set_import_state ImportUploading (t0 + Second) import_a)) as Ei by (vm_compute; reflexivity).
    intros im Him. rewrite Ei in Him. injection Him as <-. vm_compute. reflexivity.
  - apply (proj1 (proj2 (H []))); [reflexivity|discriminate].
  - apply (proj2 (proj2 (H [Lost]))); [reflexivity|discriminate].
Defined.

Lemma upload_publishes_witness :
  exists us, exec (BeginUpload (attempt "upl_1" (t0 + Second))) reserved = (Ok us, after_begin) /\
  exists d2, exec (CommitUpload (evidence "upl_1" (t0 + 9 * Second))) after_begin =
      (Ok (receipt_of (evidence "upl_1" (t0 + 9 * Second))), d2) /\
    forall s', begin_key s' = ("ws_a", "imp_a") -> bu_ApplicationID s' = "app_a" -> bu_PrincipalID s' = "usr_a" ->
      exists us', exec (BeginUpload s') d2 = (Ok us', d2) /\
        us_Receipt us' = Some {| rc_ImportID := bu_ImportID s'; rc_State := ImportUploaded; rc_SizeBytes := 3;
          rc_SHA256 := hex_encode (sha256 "abc"); rc_UploadedAt := store_time (t0 + 9 * Second) |}.
Proof.
  exists (session_for (attempt "upl_1" (t0 + Second)) import_a "art_a" "filesystem" key_a "upl_1" None).
  assert (exec (BeginUpload (attempt "upl_1" (t0 + Second))) reserved =
    (Ok (session_for (attempt "upl_1" (t0 + Second)) import_a "art_a" "filesystem" key_a "upl_1" None), after_begin))
    as E by (vm_compute; reflexivity).
  split; [exact E|].
  refine (upload_publishes (attempt "upl_1" (t0 + Second)) reserved _ after_begin
            (evidence "upl_1" (t0 + 9 * Second)) (sha256 "abc") E eq_refl eq_refl eq_refl eq_refl _ _ _ _).
  - vm_compute. reflexivity.
  - vm_compute. reflexivity.
  - vm_compute. discriminate.
  - assert (imports after_begin !! ("ws_a", "imp_a") =
      Some (set_import_state ImportUploading (t0 + Second) import_a)) as Ei by (vm_compute; reflexivity).
    assert (artifacts after_begin !! ("ws_a", "imp_a") = Some leased_a) as Ea by (vm_compute; reflexivity).
    intros im a Him Ha. change (begin_key _) with ("ws_a", "imp_a") in Him, Ha.
    rewrite Ei in Him. rewrite Ea in Ha. injection Him as <-. injection Ha as <-. by vm_compute.
Defined.

End UploadExamples.
