(* ===== verification/Scans.v ===== *)
(** * Scans and parser output (src/internal/ingestion/scan.go, processing.go)

    [Module Scans] holds the data of an import's interpretation: the
    specification of one source run with its scope, the diagnostics of one
    parser version, their validation and canonical fingerprints, and the four
    tables they are stored in with the constraints of those tables.  The
    operations that write the tables are in Processing.v. *)

From S2P Require Import Prelude GoStrings Encoding Json Queue Uploads.

Local Open Scope Z_scope.

Module Scans.
Import JobQueue(char_length_between, opt_check).
Import Uploads.

Definition domainNamePattern : string -> bool := match_head is_lower name_char 127.

(** [ScanResult] and [ScanCompleteness] are string types: a caller can pass
    any value. *)
Definition ScanResultSucceeded : string := "succeeded".
Definition ScanResultFailed : string := "failed".
Definition ScanResultCancelled : string := "cancelled".
Definition ScanResultTimedOut : string := "timed_out".
Definition ScanResultUnknown : string := "unknown".
Definition ScanCompletenessFull : string := "full".
Definition ScanCompletenessPartial : string := "partial".
Definition ScanCompletenessIncremental : string := "incremental".
Definition ScanCompletenessUnknown : string := "unknown".

Definition knownScanResult (value : string) : bool :=
  String.eqb value ScanResultSucceeded || String.eqb value ScanResultFailed ||
  String.eqb value ScanResultCancelled || String.eqb value ScanResultTimedOut ||
  String.eqb value ScanResultUnknown.
Definition knownScanCompleteness (value : string) : bool :=
  String.eqb value ScanCompletenessFull || String.eqb value ScanCompletenessPartial ||
  String.eqb value ScanCompletenessIncremental || String.eqb value ScanCompletenessUnknown.

Record ScanScope := {
  sp_SchemaVersion : Z; sp_ScannerFamily : string; sp_ScannerInstanceID : string;
  sp_ScannerConfigurationID : string; sp_ScannerConfigurationHash : string; sp_AnalysisKind : string;
  sp_CoverageMetadata : string
}.

Record ScanSpec := {
  sn_ID : string; sn_WorkspaceID : string; sn_ImportID : string; sn_ApplicationID : string;
  sn_RawArtifactID : string; sn_AnalysisContextImportID : string; sn_SourceRunIndex : Z;
  sn_Result : string; sn_Completeness : string; sn_ScannerName : string; sn_ScannerFullName : string;
  sn_ScannerVersion : string; sn_ScannerSemanticVersion : string; sn_AutomationID : string;
  sn_AutomationGUID : string; sn_AutomationCorrelationGUID : string; sn_ParserName : string;
  sn_ParserVersion : string; sn_SourcePointer : string; sn_SourceStartedAt : option time;
  sn_SourceEndedAt : option time; sn_RecordedAt : time; sn_Scope : ScanScope
}.

Record StoredScan := {
  st_ID : string; st_WorkspaceID : string; st_ImportID : string; st_ApplicationID : string;
  st_RawArtifactID : string; st_AnalysisContextImportID : string; st_ReceivedAt : time;
  st_RecordedAt : time; st_Created : bool
}.

(** ** Canonical scans *)

Definition validScanIdentity (s : ScanSpec) : bool :=
  validOpaqueID (sn_ID s) && validOpaqueID (sn_WorkspaceID s) && validOpaqueID (sn_ImportID s) &&
  validOpaqueID (sn_ApplicationID s) && validOpaqueID (sn_RawArtifactID s) && (0 <=? sn_SourceRunIndex s) &&
  knownScanResult (sn_Result s) && knownScanCompleteness (sn_Completeness s) && negb (IsZero (sn_RecordedAt s)).

Definition validScanner (s : ScanSpec) : bool :=
  validText (sn_ScannerName s) 1 255 && validOptionalText (sn_ScannerFullName s) 512 &&
  validOptionalText (sn_ScannerVersion s) 128 && validOptionalText (sn_ScannerSemanticVersion s) 128 &&
  validOptionalText (sn_AutomationID s) 512 && validOptionalText (sn_AutomationGUID s) 128 &&
  validOptionalText (sn_AutomationCorrelationGUID s) 128 && domainNamePattern (sn_ParserName s) &&
  validText (sn_ParserVersion s) 1 64 && validText (sn_SourcePointer s) 1 1024.

Definition validScope (s : ScanScope) : bool :=
  (0 <? sp_SchemaVersion s) && domainNamePattern (sp_ScannerFamily s) &&
  validOptionalText (sp_ScannerInstanceID s) 128 && validOptionalText (sp_ScannerConfigurationID s) 128 &&
  validOptionalText (sp_ScannerConfigurationHash s) 128 && domainNamePattern (sp_AnalysisKind s).

Definition ordered_times (s : ScanSpec) : bool :=
  match sn_SourceStartedAt s, sn_SourceEndedAt s with
  | Some a, Some b => a <=? b
  | _, _ => true
  end.

(** [None] stands for ErrInvalid. *)
Definition canonicalJSONObject (value : string) (maxBytes : Z) : option string :=
  if slen value =? 0 then Some "{}"
  else if maxBytes <? slen value then None
  else match raw_object value with
  | Some members => let canonical := print_raw members in
                    if maxBytes <? slen canonical then None else Some canonical
  | None => None
  end.

Definition json_time (t : time) : json := JStr (rfc3339nano t).

(** The fields of canonicalScanSpec in order. *)
Definition json_scan (s : ScanSpec) : json :=
  JObj ([("workspace_id", JStr (sn_WorkspaceID s)); ("import_id", JStr (sn_ImportID s));
         ("application_id", JStr (sn_ApplicationID s)); ("raw_artifact_id", JStr (sn_RawArtifactID s))] ++
        omit_empty "analysis_context_import_id" (sn_AnalysisContextImportID s) ++
        [("source_run_index", JInt (sn_SourceRunIndex s)); ("result", JStr (sn_Result s));
         ("completeness", JStr (sn_Completeness s)); ("scanner_name", JStr (sn_ScannerName s))] ++
        omit_empty "scanner_full_name" (sn_ScannerFullName s) ++
        omit_empty "scanner_version" (sn_ScannerVersion s) ++
        omit_empty "scanner_semantic_version" (sn_ScannerSemanticVersion s) ++
        omit_empty "automation_id" (sn_AutomationID s) ++
        omit_empty "automation_guid" (sn_AutomationGUID s) ++
        omit_empty "automation_correlation_guid" (sn_AutomationCorrelationGUID s) ++
        [("parser_name", JStr (sn_ParserName s)); ("parser_version", JStr (sn_ParserVersion s));
         ("source_pointer", JStr (sn_SourcePointer s))] ++
        omit_none "source_started_at" json_time (sn_SourceStartedAt s) ++
        omit_none "source_ended_at" json_time (sn_SourceEndedAt s)).

Definition json_scope (application : string) (s : ScanScope) : json :=
  JObj ([("schema_version", JInt (sp_SchemaVersion s)); ("application_id", JStr application);
         ("scanner_family", JStr (sp_ScannerFamily s))] ++
        omit_empty "scanner_instance_id" (sp_ScannerInstanceID s) ++
        omit_empty "scanner_configuration_id" (sp_ScannerConfigurationID s) ++
        omit_empty "scanner_configuration_hash" (sp_ScannerConfigurationHash s) ++
        [("analysis_kind", JStr (sp_AnalysisKind s)); ("coverage_metadata", JRaw (sp_CoverageMetadata s))]).

(** The error of [json.Marshal] is dropped: a time it cannot print leaves no
    text at all. *)
Definition scan_text (s : ScanSpec) : string :=
  if marshals (sn_SourceStartedAt s) && marshals (sn_SourceEndedAt s) then print (json_scan s) else "".

Definition canonical_scope (s : ScanScope) (coverage : string) : ScanScope := {|
  sp_SchemaVersion := sp_SchemaVersion s; sp_ScannerFamily := sp_ScannerFamily s;
  sp_ScannerInstanceID := sp_ScannerInstanceID s; sp_ScannerConfigurationID := sp_ScannerConfigurationID s;
  sp_ScannerConfigurationHash := sp_ScannerConfigurationHash s; sp_AnalysisKind := sp_AnalysisKind s;
  sp_CoverageMetadata := coverage |}.

(** The canonical scan has the fields of the specification less its identity
    and recording time; the answer is the canonical scope and the two
    fingerprints. *)
Definition canonicalizeScanSpec (s : ScanSpec) : result error (ScanScope * (string * string)) :=
  guard! validScanIdentity s else ErrInvalid in
  guard! String.eqb (sn_AnalysisContextImportID s) "" ||
         String.eqb (sn_AnalysisContextImportID s) (sn_ImportID s) else ErrInvalid in
  guard! validScanner s else ErrInvalid in
  guard! ordered_times s else ErrInvalid in
  guard! validScope (sn_Scope s) else ErrInvalid in
  match canonicalJSONObject (sp_CoverageMetadata (sn_Scope s)) (Z.shiftl 64 10) with
  | None => Err ErrInvalid
  | Some coverage =>
      let scope := canonical_scope (sn_Scope s) coverage in
      Ok (scope, (sha256 (scan_text s), sha256 (print (json_scope (sn_ApplicationID s) scope))))
  end.

(** ** Parser output *)

Record ParseWarning := {
  pw_Code : string; pw_SourcePointer : string; pw_FieldCount : Z; pw_Fields : list string;
  pw_FieldsTruncated : bool
}.

Record ParseOutputSpec := {
  po_WorkspaceID : string; po_ImportID : string; po_RawArtifactID : string; po_FormatName : string;
  po_FormatVersion : string; po_ParserName : string; po_ParserVersion : string;
  po_Warnings : list ParseWarning; po_WarningsTruncated : bool; po_RecordedAt : time
}.

Definition len {A} (l : list A) : Z := Z.of_nat (length l).

Definition validField (field : string) : bool :=
  negb (String.eqb field "") && ValidString field && (slen field <=? Z.shiftl 1 20) && negb (has_nul field).

Definition validWarning (w : ParseWarning) : bool :=
  domainNamePattern (pw_Code w) && (slen (pw_Code w) <=? 64) && validText (pw_SourcePointer w) 0 1024 &&
  (0 <? pw_FieldCount w) && (len (pw_Fields w) <=? 64) && (len (pw_Fields w) <=? pw_FieldCount w) &&
  forallb validField (pw_Fields w).

Definition json_warning (w : ParseWarning) : json :=
  JObj [("code", JStr (pw_Code w)); ("source_pointer", JStr (pw_SourcePointer w));
        ("field_count", JInt (pw_FieldCount w)); ("fields", JArr (map JStr (pw_Fields w)));
        ("fields_truncated", JBool (pw_FieldsTruncated w))].

Definition json_output (s : ParseOutputSpec) : json :=
  JObj [("workspace_id", JStr (po_WorkspaceID s)); ("import_id", JStr (po_ImportID s));
        ("raw_artifact_id", JStr (po_RawArtifactID s)); ("format_name", JStr (po_FormatName s));
        ("format_version", JStr (po_FormatVersion s)); ("parser_name", JStr (po_ParserName s));
        ("parser_version", JStr (po_ParserVersion s)); ("warnings", JArr (map json_warning (po_Warnings s)));
        ("warnings_truncated", JBool (po_WarningsTruncated s))].

(** The warnings are copied; the answer is their fingerprint. *)
Definition canonicalizeParseOutput (s : ParseOutputSpec) : result error (list ParseWarning * string) :=
  guard! validOpaqueID (po_WorkspaceID s) && validOpaqueID (po_ImportID s) &&
         validOpaqueID (po_RawArtifactID s) && validText (po_FormatName s) 1 32 &&
         validText (po_FormatVersion s) 1 32 && domainNamePattern (po_ParserName s) &&
         validText (po_ParserVersion s) 1 64 && negb (IsZero (po_RecordedAt s)) &&
         (len (po_Warnings s) <=? 1000) else ErrInvalid in
  guard! forallb validWarning (po_Warnings s) else ErrInvalid in
  Ok (po_Warnings s, sha256 (print (json_output s))).

(** ** The tables *)

Record scan_row := {
  sr_spec : ScanSpec; sr_started : option time; sr_ended : option time; sr_received : time;
  sr_recorded : time; sr_fingerprint : string
}.

Record scope_row := {
  ss_application : string; ss_scope : ScanScope; ss_coverage : string; ss_fingerprint : string;
  ss_created : time
}.

Record output_row := {
  pr_artifact : string; pr_format : string * string; pr_warning_count : Z; pr_truncated : bool;
  pr_recorded : time; pr_fingerprint : string
}.

(** scans and scan_scopes by (workspace, id); parser outputs by (workspace,
    import) and (parser, version); warnings also by their index. *)
Record evidence := Evidence {
  scans : gmap (string * string) scan_row;
  scopes : gmap (string * string) scope_row;
  outputs : gmap (string * string * (string * string)) output_row;
  warnings : gmap (string * string * (string * string) * Z) ParseWarning
}.

Definition set_scans (m : gmap (string * string) scan_row) (d : evidence) : evidence :=
  Evidence m (scopes d) (outputs d) (warnings d).
Definition set_scopes (m : gmap (string * string) scope_row) (d : evidence) : evidence :=
  Evidence (scans d) m (outputs d) (warnings d).
Definition set_outputs (m : gmap (string * string * (string * string)) output_row) (d : evidence) : evidence :=
  Evidence (scans d) (scopes d) m (warnings d).
Definition set_warnings (m : gmap (string * string * (string * string) * Z) ParseWarning) (d : evidence) : evidence :=
  Evidence (scans d) (scopes d) (outputs d) m.

(** NULLIF(value, '') in a column with a length constraint. *)
Definition optional_length (hi : Z) (value : string) : bool :=
  String.eqb value "" || char_length_between 1 hi value.

(** The parser name of the tables is shorter than that of the code. *)
Definition columnNamePattern : string -> bool := match_head is_lower name_char 63.

(** scans_*: the CHECK constraints and column types. *)
Definition check_scan (r : scan_row) : bool :=
  let s := sr_spec r in
  char_length_between 3 128 (sn_ID s) && int4 (sn_SourceRunIndex s) && (0 <=? sn_SourceRunIndex s) &&
  knownScanResult (sn_Result s) && knownScanCompleteness (sn_Completeness s) &&
  char_length_between 1 255 (sn_ScannerName s) && optional_length 512 (sn_ScannerFullName s) &&
  optional_length 128 (sn_ScannerVersion s) && optional_length 128 (sn_ScannerSemanticVersion s) &&
  optional_length 512 (sn_AutomationID s) && optional_length 128 (sn_AutomationGUID s) &&
  optional_length 128 (sn_AutomationCorrelationGUID s) && columnNamePattern (sn_ParserName s) &&
  char_length_between 1 64 (sn_ParserVersion s) && char_length_between 1 1024 (sn_SourcePointer s) &&
  (match sr_started r, sr_ended r with Some a, Some b => a <=? b | _, _ => true end) &&
  (sr_received r <=? sr_recorded r) && (slen (sr_fingerprint r) =? 32) &&
  (String.eqb (sn_AnalysisContextImportID s) "" || String.eqb (sn_AnalysisContextImportID s) (sn_ImportID s)).

(** The unique source key of a scan. *)
Definition same_run (s s' : ScanSpec) : bool :=
  String.eqb (sn_WorkspaceID s) (sn_WorkspaceID s') && String.eqb (sn_ImportID s) (sn_ImportID s') &&
  (sn_SourceRunIndex s =? sn_SourceRunIndex s').

Definition find_run (s : ScanSpec) (d : evidence) : option scan_row :=
  head (rows_where (fun r => same_run s (sr_spec r)) (scans d)).

(** INSERT INTO scans ... ON CONFLICT (source key) DO NOTHING: constraints,
    the conflict, the primary key, then the foreign keys ([known]). *)
Definition insert_scan (r : scan_row) (known : bool) (d : evidence) : option (Z * evidence) :=
  let key := (sn_WorkspaceID (sr_spec r), sn_ID (sr_spec r)) in
  if negb (check_scan r) then None
  else if negb (is_null (find_run (sr_spec r) d)) then Some (0, d)
  else if negb (is_null (scans d !! key)) then None
  else if negb known then None
  else Some (1, set_scans (<[key := r]> (scans d)) d).

Section Store.
Context {pg : Postgres}.

(** scan_scopes_* *)
Definition check_scope (r : scope_row) : bool :=
  let s := ss_scope r in
  (0 <? sp_SchemaVersion s) && (sp_SchemaVersion s <? 2 ^ 15) && domainNamePattern (sp_ScannerFamily s) &&
  optional_length 128 (sp_ScannerInstanceID s) && optional_length 128 (sp_ScannerConfigurationID s) &&
  optional_length 128 (sp_ScannerConfigurationHash s) && columnNamePattern (sp_AnalysisKind s) &&
  jsonb_is_object (ss_coverage r) && (jsonb_size (ss_coverage r) <=? 65536) && (slen (ss_fingerprint r) =? 32).

Definition insert_scope (ws id application : string) (scope : ScanScope) (fp : string) (recordedAt : time)
  (d : evidence) : option (unit * evidence) :=
  match jsonb_in (sp_CoverageMetadata scope) with
  | None => None
  | Some coverage =>
      let r := {| ss_application := application; ss_scope := scope; ss_coverage := coverage;
                  ss_fingerprint := fp; ss_created := store_time recordedAt |} in
      if check_scope r && is_null (scopes d !! (ws, id)) &&
         match scans d !! (ws, id) with
         | Some sc => String.eqb (sn_ApplicationID (sr_spec sc)) application
         | None => false
         end
      then Some (tt, set_scopes (<[(ws, id) := r]> (scopes d)) d) else None
  end.

(** import_parse_outputs_*; the key is the workspace, the import, the parser
    and its version. *)
Definition output_key (s : ParseOutputSpec) : string * string * (string * string) :=
  (po_WorkspaceID s, po_ImportID s, (po_ParserName s, po_ParserVersion s)).

Definition new_output (s : ParseOutputSpec) (fp : string) : output_row := {|
  pr_artifact := po_RawArtifactID s; pr_format := (po_FormatName s, po_FormatVersion s);
  pr_warning_count := len (po_Warnings s); pr_truncated := po_WarningsTruncated s;
  pr_recorded := store_time (po_RecordedAt s); pr_fingerprint := fp |}.

Definition check_output (s : ParseOutputSpec) (fp : string) : bool :=
  char_length_between 1 32 (po_FormatName s) && char_length_between 1 32 (po_FormatVersion s) &&
  columnNamePattern (po_ParserName s) && char_length_between 1 64 (po_ParserVersion s) &&
  int4 (len (po_Warnings s)) && (slen fp =? 32).

(** [known] is the key to raw_artifacts. *)
Definition insert_output (s : ParseOutputSpec) (fp : string) (known : bool) (d : evidence) : option (Z * evidence) :=
  if negb (check_output s fp) then None
  else if negb (is_null (outputs d !! output_key s)) then Some (0, d)
  else if negb known then None
  else Some (1, set_outputs (<[output_key s := new_output s fp]> (outputs d)) d).

(** import_parse_warnings_* *)
Definition check_warning (index : Z) (w : ParseWarning) : bool :=
  int4 index && (0 <=? index) && columnNamePattern (pw_Code w) && char_length_between 0 1024 (pw_SourcePointer w) &&
  int4 (pw_FieldCount w) && (0 <? pw_FieldCount w) && (len (pw_Fields w) <=? 64).

Definition insert_warning (s : ParseOutputSpec) (iw : Z * ParseWarning) (d : evidence)
  : option (unit * evidence) :=
  let key := (output_key s, fst iw) in
  if check_warning (fst iw) (snd iw) && is_null (warnings d !! key) && negb (is_null (outputs d !! output_key s))
  then Some (tt, set_warnings (<[key := snd iw]> (warnings d)) d) else None.
End Store.

(** [for index, warning := range warnings] *)
Definition indexed {A} (l : list A) : list (Z * A) := imap (fun i a => (Z.of_nat i, a)) l.
End Scans.
