(* ===== verification/Ingestion.v ===== *)
(** * Import reservations and completion (src/internal/ingestion)

    [Module Ingestion] puts the tables of the ingestion package next to those
    of the packages it works with (catalog, uploads, job queue, scans) and models the
    two idempotent write operations of postgres.go: [Reserve], which creates an
    import with its artifact and analysis context, and [Complete], which
    publishes one operation together with its processing job.  The programs of
    the other components run on their part of the database through a lens. *)

From S2P Require Import Prelude GoStrings Encoding Txn Json Queue Records Idempotency Catalog Blobstore Uploads Scans.

Local Open Scope Z_scope.

Module Ingestion.
Import JobQueue(char_length_between, opt_check).
Import Idempotency Uploads.

Definition CapabilityImportsCreate : string := "imports:create".
Definition CapabilityImportsUpload : string := "imports:upload".
Definition CapabilityImportsProcess : string := "imports:process".
Definition apiMajorVersion : Z := 1.
Definition operationCreateImport : string := "imports.create".
Definition operationCompleteImport : string := "imports.complete".
Definition importProcessKind : string := "import.process".
Definition importProcessQueue : string := "ingestion".
Definition importProcessSchema : Z := 1.
Definition minimumRetention : duration := 24 * Hour.
Definition AnalysisKindSAST : string := "sast".
Definition AnalysisTargetRepository : string := "repository".
Definition AssertionSourceAPIClient : string := "api_client".

(** ** Requests and resources *)

Record ReportFormat := { rf_Name : string; rf_Version : string }.

Record AnalysisTargetRequest := { tr_Type : string; tr_ID : string }.
Record AnalysisContextRequest := { ac_AnalysisKind : string; ac_Target : AnalysisTargetRequest }.

Record AnalysisContext := {
  cx_AnalysisKind : string; cx_TargetType : string; cx_TargetID : string; cx_TargetRelationshipID : string;
  cx_AssertionSource : string; cx_AssertedByPrincipalID : string; cx_AcceptedAt : time
}.

Record ReserveRequest := {
  rq_PrincipalID : string; rq_WorkspaceID : string; rq_ApplicationID : string; rq_IdempotencyKey : string;
  rq_ReportFormat : ReportFormat; rq_OriginalFilename : string; rq_ExpectedSize : option Z;
  rq_ExpectedSHA256 : string; rq_AnalysisContext : option AnalysisContextRequest
}.

Record Import := {
  i_ID : string; i_WorkspaceID : string; i_ApplicationID : string; i_CreatedByPrincipalID : string;
  i_State : ImportState; i_ReportFormat : ReportFormat; i_OriginalFilename : string;
  i_ExpectedSize : option Z; i_ExpectedSHA256 : string; i_MaxBytes : Z; i_UploadExpiresAt : time;
  i_CreatedAt : time; i_UpdatedAt : time; i_AnalysisContext : option AnalysisContext
}.

Record Reservation := { rv_Import : Import; rv_Created : bool }.

Inductive OperationState :=
| OperationQueued | OperationRunning | OperationSucceeded | OperationFailed | OperationCancelled.

#[global] Instance OperationState_eq_dec : EqDecision OperationState.
Proof. solve_decision. Defined.

Record Operation := {
  o_ID : string; o_WorkspaceID : string; o_ImportID : string; o_CreatedByPrincipalID : string;
  o_Kind : string; o_State : OperationState; o_CreatedAt : time; o_UpdatedAt : time
}.

Record CompleteRequest := {
  cq_PrincipalID : string; cq_WorkspaceID : string; cq_ApplicationID : string; cq_ImportID : string;
  cq_IdempotencyKey : string
}.

Record Completion := { cp_Operation : Operation; cp_Created : bool }.

Record reserveSpec := {
  rs_Import : Import; rs_ArtifactID : string; rs_StorageBackend : string; rs_StorageKey : string;
  rs_PrincipalID : string; rs_APIMajorVersion : Z; rs_Operation : string; rs_IdempotencyKey : string;
  rs_RequestFingerprint : string; rs_RequestExceedsLimit : bool; rs_IdempotencyExpiresAt : time
}.

Record reservationReplaySpec := {
  rp_WorkspaceID : string; rp_PrincipalID : string; rp_APIMajorVersion : Z; rp_Operation : string;
  rp_IdempotencyKey : string; rp_RequestFingerprint : string
}.

Record completeSpec := {
  ct_Operation : Operation; ct_ApplicationID : string; ct_PrincipalID : string; ct_APIMajorVersion : Z;
  ct_IdempotencyOperation : string; ct_IdempotencyKey : string; ct_RequestFingerprint : string;
  ct_IdempotencyExpiresAt : time; ct_ProcessMaxAttempts : Z
}.

(** ** Validation and fingerprints *)

Definition validateAuthorizationScope (r : ReserveRequest) : bool :=
  validOpaqueID (rq_PrincipalID r) && validOpaqueID (rq_WorkspaceID r) && validOpaqueID (rq_ApplicationID r) &&
  idempotencyKeyPattern (rq_IdempotencyKey r).

Definition validateAnalysisContext (r : option AnalysisContextRequest) : bool :=
  match r with
  | None => true
  | Some c => String.eqb (ac_AnalysisKind c) AnalysisKindSAST &&
              String.eqb (tr_Type (ac_Target c)) AnalysisTargetRepository && validOpaqueID (tr_ID (ac_Target c))
  end.

Definition validateCompleteRequest (r : CompleteRequest) : bool :=
  validOpaqueID (cq_PrincipalID r) && validOpaqueID (cq_WorkspaceID r) && validOpaqueID (cq_ApplicationID r) &&
  validOpaqueID (cq_ImportID r) && idempotencyKeyPattern (cq_IdempotencyKey r).

(** The text of the job payload and of the completion fingerprint. *)
Definition import_payload (importID : string) : string := print (JObj [("import_id", JStr importID)]).

Definition fingerprintCompletion (r : CompleteRequest) : result error string :=
  guard! validateCompleteRequest r else ErrInvalid in
  Ok (sha256 (import_payload (cq_ImportID r))).

Definition validExpectedSHA256 (value : string) : bool :=
  match hex_decode value with
  | Some decoded => (slen decoded =? 32) && String.eqb (ToLower value) value
  | None => false
  end.

Definition json_context (c : AnalysisContextRequest) : json :=
  JObj [("analysis_kind", JStr (ac_AnalysisKind c));
        ("target", JObj [("type", JStr (tr_Type (ac_Target c))); ("id", JStr (tr_ID (ac_Target c)))])].

Definition json_request (r : ReserveRequest) : json :=
  JObj ([("application_id", JStr (rq_ApplicationID r));
         ("report_format", JObj (("name", JStr (rf_Name (rq_ReportFormat r))) ::
                                 omit_empty "version" (rf_Version (rq_ReportFormat r))))] ++
        omit_empty "original_filename" (rq_OriginalFilename r) ++
        match rq_ExpectedSize r with Some n => [("expected_size_bytes", JInt n)] | None => [] end ++
        omit_empty "expected_sha256" (rq_ExpectedSHA256 r) ++
        match rq_AnalysisContext r with Some c => [("analysis_context", json_context c)] | None => [] end).

Definition fingerprintRequest (r : ReserveRequest) : result error string :=
  guard! validateAnalysisContext (rq_AnalysisContext r) else ErrInvalid in
  guard! String.eqb (rf_Name (rq_ReportFormat r)) "sarif" &&
         (String.eqb (rf_Version (rq_ReportFormat r)) "" || String.eqb (rf_Version (rq_ReportFormat r)) "2.1.0")
    else ErrInvalid in
  guard! String.eqb (rq_OriginalFilename r) "" ||
         (ValidString (rq_OriginalFilename r) && negb (has_nul (rq_OriginalFilename r)) &&
          (RuneCountInString (rq_OriginalFilename r) <=? 255)) else ErrInvalid in
  guard! match rq_ExpectedSize r with Some n => 0 <=? n | None => true end else ErrInvalid in
  guard! String.eqb (rq_ExpectedSHA256 r) "" || validExpectedSHA256 (rq_ExpectedSHA256 r) else ErrInvalid in
  Ok (sha256 (print (json_request r))).

(** ** The database *)

(** import_analysis_contexts; the application is a column of its own. *)
Record context_row := { cx_application : string; cx_value : AnalysisContext }.

Record operation_row := {
  op_import : string; op_creator : string; op_kind : string; op_state : OperationState;
  op_result : option string; op_failure_code : option string; op_failure_title : option string;
  op_failure_detail : option string; op_created : time; op_updated : time; op_started : option time;
  op_finished : option time
}.

(** The tables of the ingestion package between those of the packages it
    works with.  [workspaces] is one table, which occurs in two parts. *)
Record ingestion := MkIngestion {
  catalog_db : Catalog.catalog;
  upload_db : uploads;
  queue_db : JobQueue.database;
  contexts : gmap (string * string) context_row;
  create_claims : claims;
  operations : gmap (string * string) operation_row;
  complete_claims : claims;
  evidence_db : Scans.evidence
}.

Definition set_catalog (x : Catalog.catalog) (d : ingestion) : ingestion :=
  MkIngestion x (upload_db d) (queue_db d) (contexts d) (create_claims d) (operations d) (complete_claims d) (evidence_db d).
Definition set_uploads (x : uploads) (d : ingestion) : ingestion :=
  MkIngestion (catalog_db d) x (queue_db d) (contexts d) (create_claims d) (operations d) (complete_claims d) (evidence_db d).
Definition set_queue (x : JobQueue.database) (d : ingestion) : ingestion :=
  MkIngestion (catalog_db d) (upload_db d) x (contexts d) (create_claims d) (operations d) (complete_claims d) (evidence_db d).
Definition set_contexts (x : gmap (string * string) context_row) (d : ingestion) : ingestion :=
  MkIngestion (catalog_db d) (upload_db d) (queue_db d) x (create_claims d) (operations d) (complete_claims d) (evidence_db d).
Definition set_create_claims (x : claims) (d : ingestion) : ingestion :=
  MkIngestion (catalog_db d) (upload_db d) (queue_db d) (contexts d) x (operations d) (complete_claims d) (evidence_db d).
Definition set_operations (x : gmap (string * string) operation_row) (d : ingestion) : ingestion :=
  MkIngestion (catalog_db d) (upload_db d) (queue_db d) (contexts d) (create_claims d) x (complete_claims d) (evidence_db d).
Definition set_complete_claims (x : claims) (d : ingestion) : ingestion :=
  MkIngestion (catalog_db d) (upload_db d) (queue_db d) (contexts d) (create_claims d) (operations d) x (evidence_db d).
Definition set_evidence (x : Scans.evidence) (d : ingestion) : ingestion :=
  MkIngestion (catalog_db d) (upload_db d) (queue_db d) (contexts d) (create_claims d) (operations d) (complete_claims d) x.

#[global, program] Instance upload_lens : Lens ingestion uploads := {| view := upload_db; put_back := set_uploads |}.
Solve Obligations with (by intros; try destruct s).
#[global, program] Instance queue_lens : Lens ingestion JobQueue.database :=
  {| view := queue_db; put_back := set_queue |}.
Solve Obligations with (by intros; try destruct s).
#[global, program] Instance catalog_lens : Lens ingestion Catalog.catalog :=
  {| view := catalog_db; put_back := set_catalog |}.
Solve Obligations with (by intros; try destruct s).

#[global, program] Instance evidence_lens : Lens ingestion Scans.evidence :=
  {| view := evidence_db; put_back := set_evidence |}.
Solve Obligations with (by intros; try destruct s).

Definition workspace_known (w : string) (d : ingestion) : bool :=
  bool_decide (w ∈ Catalog.workspaces (catalog_db d)).

Section Store.
Context {pg : Postgres}.

(** ** Reserve *)

Definition reserve_scope (s : reserveSpec) : scope :=
  Scope (i_WorkspaceID (rs_Import s)) (rs_PrincipalID s) (rs_APIMajorVersion s) (rs_Operation s)
        (rs_IdempotencyKey s).

Definition idempotencyLockKey (s : reserveSpec) : string := lock_key (reserve_scope s).

Definition claim_reservation (s : reserveSpec) (d : ingestion) : option (Z * ingestion) :=
  match insert_claim (reserve_scope s)
          (Claim (rs_RequestFingerprint s) (i_ID (rs_Import s)) (store_time (i_CreatedAt (rs_Import s)))
                 (store_time (rs_IdempotencyExpiresAt s)))
          (workspace_known (i_WorkspaceID (rs_Import s)) d) (create_claims d) with
  | Some (rows, t) => Some (rows, set_create_claims t d)
  | None => None
  end.

(** [scanImport]: the columns of an import joined with its context. *)
Definition scanImport (w id : string) (r : import_row) (c : option context_row) : Import := {|
  i_ID := id; i_WorkspaceID := w; i_ApplicationID := im_application r; i_CreatedByPrincipalID := im_creator r;
  i_State := im_state r;
  i_ReportFormat := {| rf_Name := im_format_name r; rf_Version := null_string (im_format_version r) |};
  i_OriginalFilename := null_string (im_filename r); i_ExpectedSize := im_expected_size r;
  i_ExpectedSHA256 := hex_encode (null_string (im_expected_sha r)); i_MaxBytes := im_max_bytes r;
  i_UploadExpiresAt := im_expires r; i_CreatedAt := im_created r; i_UpdatedAt := im_updated r;
  i_AnalysisContext := option_map cx_value c |}.

Definition selectReservation (s : scope) (d : ingestion) : option (Reservation * string) :=
  match create_claims d !! s with
  | Some c =>
      match imports (upload_db d) !! (sc_workspace s, cl_resource c) with
      | Some r => Some ({| rv_Import := scanImport (sc_workspace s) (cl_resource c) r
                                          (contexts d !! (sc_workspace s, cl_resource c));
                           rv_Created := false |}, cl_fingerprint c)
      | None => None
      end
  | None => None
  end.

Definition replay_scope (s : reservationReplaySpec) : scope :=
  Scope (rp_WorkspaceID s) (rp_PrincipalID s) (rp_APIMajorVersion s) (rp_Operation s) (rp_IdempotencyKey s).

(** [None] when there is nothing to replay. *)
Definition ReplayReservation (s : reservationReplaySpec) : prog ingestion error (option Reservation) :=
  if negb (validOpaqueID (rp_WorkspaceID s) && validOpaqueID (rp_PrincipalID s) &&
           (rp_APIMajorVersion s =? apiMajorVersion) && String.eqb (rp_Operation s) operationCreateImport &&
           idempotencyKeyPattern (rp_IdempotencyKey s))
  then fail ErrInvalid
  else
    let! found := autocommit (ErrDatabase "read import reservation replay")
                    (fun d => Some (selectReservation (replay_scope s) d, d)) in
    match found with
    | None => done_with None
    | Some (reservation, fingerprint) =>
        if negb (String.eqb fingerprint (rp_RequestFingerprint s)) then fail ErrIdempotencyConflict
        else done_with (Some reservation)
    end.

(** [optionalDigest]: NULL for an empty digest. *)
Definition optionalDigest (value : string) : result error (option string) :=
  if String.eqb value "" then Ok None
  else match hex_decode value with
  | Some digest => if slen digest =? 32 then Ok (Some digest) else Err ErrInvalid
  | None => Err ErrInvalid
  end.

Definition new_import (i : Import) (digest : option string) : import_row := {|
  im_application := i_ApplicationID i; im_creator := i_CreatedByPrincipalID i; im_state := i_State i;
  im_format_name := rf_Name (i_ReportFormat i); im_format_version := nullif_empty (rf_Version (i_ReportFormat i));
  im_filename := nullif_empty (i_OriginalFilename i); im_max_bytes := i_MaxBytes i;
  im_expires := store_time (i_UploadExpiresAt i); im_expected_size := i_ExpectedSize i;
  im_expected_sha := digest; im_created := store_time (i_CreatedAt i); im_updated := store_time (i_UpdatedAt i) |}.

(** The constraints of the imports table. *)
Definition check_new_import (id : string) (r : import_row) : bool :=
  char_length_between 3 128 id && char_length_between 3 128 (im_creator r) &&
  char_length_between 1 32 (im_format_name r) && opt_check (char_length_between 1 32) (im_format_version r) &&
  opt_check (char_length_between 1 255) (im_filename r) && opt_check (fun n => 0 <=? n) (im_expected_size r) &&
  opt_check (fun h => slen h =? 32) (im_expected_sha r) && (0 <? im_max_bytes r) &&
  opt_check (fun n => n <=? im_max_bytes r) (im_expected_size r) && (im_created r <? im_expires r) &&
  check_import r.

(** A violated imports_application_fk has an error of its own
    ([classifyPostgresError]); every other violation is a database error. *)
Definition application_known (i : Import) (d : ingestion) : bool :=
  bool_decide ((i_WorkspaceID i, i_ApplicationID i) ∈ Catalog.applications (catalog_db d)).

Definition insert_import (i : Import) (digest : option string) (d : ingestion) : option (bool * ingestion) :=
  let key := (i_WorkspaceID i, i_ID i) in
  let u := upload_db d in
  if negb (check_new_import (i_ID i) (new_import i digest)) || negb (is_null (imports u !! key)) then None
  else if negb (application_known i d) then Some (false, d)
  else Some (true, set_uploads (Uploads (<[key := new_import i digest]> (imports u)) (artifacts u)) d).

(** import_analysis_contexts: the constraints and the key to the catalog. *)
Definition check_context (c : AnalysisContext) : bool :=
  String.eqb (cx_AnalysisKind c) "sast" && String.eqb (cx_TargetType c) "repository" &&
  String.eqb (cx_AssertionSource c) "api_client" && char_length_between 3 128 (cx_AssertedByPrincipalID c).

Definition link_known (i : Import) (c : AnalysisContext) (d : ingestion) : bool :=
  match Catalog.relationships (catalog_db d) !! (i_WorkspaceID i, cx_TargetRelationshipID c) with
  | Some l => String.eqb (Catalog.a_ApplicationID l) (i_ApplicationID i) &&
              String.eqb (Catalog.a_RepositoryID l) (cx_TargetID c)
  | None => false
  end.

Definition stored_context (c : AnalysisContext) : AnalysisContext := {|
  cx_AnalysisKind := cx_AnalysisKind c; cx_TargetType := cx_TargetType c; cx_TargetID := cx_TargetID c;
  cx_TargetRelationshipID := cx_TargetRelationshipID c; cx_AssertionSource := cx_AssertionSource c;
  cx_AssertedByPrincipalID := cx_AssertedByPrincipalID c; cx_AcceptedAt := store_time (cx_AcceptedAt c) |}.

Definition insert_context (i : Import) (c : AnalysisContext) (d : ingestion) : option (unit * ingestion) :=
  let key := (i_WorkspaceID i, i_ID i) in
  if check_context c && link_known i c d && is_null (contexts d !! key) &&
     match imports (upload_db d) !! key with
     | Some r => String.eqb (im_application r) (i_ApplicationID i)
     | None => false
     end
  then Some (tt, set_contexts (<[key := {| cx_application := i_ApplicationID i; cx_value := stored_context c |}]>
                                 (contexts d)) d)
  else None.

Definition pending_artifact (s : reserveSpec) : artifact_row := {|
  ar_id := rs_ArtifactID s; ar_state := rawArtifactPending; ar_backend := rs_StorageBackend s;
  ar_key := rs_StorageKey s; ar_attempt := None; ar_lease := None; ar_size := None; ar_sha := None;
  ar_storage_version := None; ar_backend_version := None; ar_rejection := None;
  ar_created := store_time (i_CreatedAt (rs_Import s)); ar_updated := store_time (i_CreatedAt (rs_Import s));
  ar_committed := None |}.

(** The keys of raw_artifacts. *)
Definition artifact_free (s : reserveSpec) (u : uploads) : bool :=
  is_null (artifacts u !! (i_WorkspaceID (rs_Import s), i_ID (rs_Import s))) &&
  forallb (fun kr => negb (String.eqb (fst (fst kr)) (i_WorkspaceID (rs_Import s)) &&
                           String.eqb (ar_id (snd kr)) (rs_ArtifactID s)) &&
                     negb (String.eqb (ar_backend (snd kr)) (rs_StorageBackend s) &&
                           String.eqb (ar_key (snd kr)) (rs_StorageKey s))) (map_to_list (artifacts u)).

Definition insert_pending (s : reserveSpec) (d : ingestion) : option (unit * ingestion) :=
  let key := (i_WorkspaceID (rs_Import s), i_ID (rs_Import s)) in
  let u := upload_db d in
  if check_artifact (pending_artifact s) && artifact_free s u && negb (is_null (imports u !! key))
  then Some (tt, set_uploads (Uploads (imports u) (<[key := pending_artifact s]> (artifacts u))) d) else None.

(** What a fresh claim is followed by. *)
Definition reserve_rows (s : reserveSpec) : prog ingestion error unit :=
  let i := rs_Import s in
  if rs_RequestExceedsLimit s then fail ErrTooLarge
  else match optionalDigest (i_ExpectedSHA256 i) with
  | Err e => fail e
  | Ok digest =>
      let! known := statement (ErrDatabase "insert import reservation") (insert_import i digest) in
      if negb known then fail ErrApplicationNotFound
      else
        do! match i_AnalysisContext i with
            | Some c => statement (ErrDatabase "insert import analysis context") (insert_context i c)
            | None => done_with tt
            end in
        statement (ErrDatabase "insert raw artifact reservation") (insert_pending s)
  end.

Definition Reserve (locks : string -> bool) (s : reserveSpec) : prog ingestion error Reservation :=
  do! begin (ErrDatabase "begin import reservation") in
  let! lockAcquired := query (ErrDatabase "lock import idempotency scope")
                         (fun _ => locks ("open-aspm-import-idempotency:" +:+ idempotencyLockKey s)) in
  if negb lockAcquired then fail ErrIdempotencyInProgress
  else
    record (ErrDatabase "claim import idempotency key") (claim_reservation s)
      (ErrDatabase "read import reservation replay") (selectReservation (reserve_scope s))
      (ErrDatabase "read import reservation replay") ErrIdempotencyConflict
      (ErrDatabase "finish import reservation replay") (ErrDatabase "commit import reservation")
      (rs_RequestFingerprint s) (reserve_rows s)
      {| rv_Import := rs_Import s; rv_Created := true |}.

(** ** Complete *)

Definition complete_scope (s : completeSpec) : scope :=
  Scope (o_WorkspaceID (ct_Operation s)) (ct_PrincipalID s) (ct_APIMajorVersion s) (ct_IdempotencyOperation s)
        (ct_IdempotencyKey s).

Definition completionLockKey (s : completeSpec) : string := lock_key (complete_scope s).

Definition claim_completion (s : completeSpec) (d : ingestion) : option (Z * ingestion) :=
  match insert_claim (complete_scope s)
          (Claim (ct_RequestFingerprint s) (o_ID (ct_Operation s)) (store_time (o_CreatedAt (ct_Operation s)))
                 (store_time (ct_IdempotencyExpiresAt s)))
          (workspace_known (o_WorkspaceID (ct_Operation s)) d) (complete_claims d) with
  | Some (rows, t) => Some (rows, set_complete_claims t d)
  | None => None
  end.

(** The original answer: the state is queued and the update time is that of
    the completion, however far the operation has advanced. *)
Definition selectCompletion (s : completeSpec) (d : ingestion) : option (Completion * string) :=
  let w := o_WorkspaceID (ct_Operation s) in
  match complete_claims d !! complete_scope s with
  | Some c =>
      match operations d !! (w, cl_resource c) with
      | Some op =>
          match imports (upload_db d) !! (w, op_import op) with
          | Some im =>
              if String.eqb (im_application im) (ct_ApplicationID s) && String.eqb (im_creator im) (ct_PrincipalID s)
              then Some ({| cp_Operation := {| o_ID := cl_resource c; o_WorkspaceID := w; o_ImportID := op_import op;
                              o_CreatedByPrincipalID := op_creator op; o_Kind := op_kind op;
                              o_State := OperationQueued; o_CreatedAt := op_created op;
                              o_UpdatedAt := cl_completed c |}; cp_Created := false |}, cl_fingerprint c)
              else None
          | None => None
          end
      | None => None
      end
  | None => None
  end.

(** The import of the caller with the state of its artifact. *)
Definition find_completable (s : completeSpec) (d : ingestion) : option (ImportState * option rawArtifactState) :=
  let key := (o_WorkspaceID (ct_Operation s), o_ImportID (ct_Operation s)) in
  match imports (upload_db d) !! key with
  | Some im =>
      if String.eqb (im_application im) (ct_ApplicationID s) && String.eqb (im_creator im) (ct_PrincipalID s)
      then Some (im_state im, ar_state <$> artifacts (upload_db d) !! key) else None
  | None => None
  end.

Definition new_operation (o : Operation) : operation_row := {|
  op_import := o_ImportID o; op_creator := o_CreatedByPrincipalID o; op_kind := o_Kind o; op_state := o_State o;
  op_result := None; op_failure_code := None; op_failure_title := None; op_failure_detail := None;
  op_created := store_time (o_CreatedAt o); op_updated := store_time (o_UpdatedAt o); op_started := None;
  op_finished := None |}.

Definition finished_state (s : OperationState) : bool :=
  match s with OperationSucceeded | OperationFailed | OperationCancelled => true | _ => false end.

(** operations_*: the constraints of the table. *)
Definition check_operation (id : string) (r : operation_row) : bool :=
  char_length_between 3 128 id && char_length_between 3 128 (op_creator r) &&
  String.eqb (op_kind r) importProcessKind &&
  opt_check (fun j => jsonb_is_object j && (jsonb_size j <=? 65536)) (op_result r) &&
  Bool.eqb (bool_decide (op_state r = OperationSucceeded)) (negb (is_null (op_result r))) &&
  Bool.eqb (bool_decide (op_state r = OperationFailed))
           (negb (is_null (op_failure_code r)) && negb (is_null (op_failure_title r))) &&
  (bool_decide (op_state r = OperationFailed) ||
   (is_null (op_failure_code r) && is_null (op_failure_title r) && is_null (op_failure_detail r))) &&
  opt_check (match_head is_lower failure_char 127) (op_failure_code r) &&
  opt_check (char_length_between 0 255) (op_failure_title r) &&
  opt_check (char_length_between 0 2048) (op_failure_detail r) &&
  (negb (bool_decide (op_state r = OperationRunning)) || negb (is_null (op_started r))) &&
  Bool.eqb (finished_state (op_state r)) (negb (is_null (op_finished r))) &&
  (op_created r <=? op_updated r) && opt_check (fun t => op_created r <=? t) (op_started r) &&
  opt_check (fun t => (op_created r <=? t) && opt_check (fun s => s <=? t) (op_started r)) (op_finished r).

(** PRIMARY KEY (workspace, id), UNIQUE (workspace, import, kind) and the key
    to the import. *)
Definition operation_free (w id importID kind : string) (d : ingestion) : bool :=
  is_null (operations d !! (w, id)) && negb (is_null (imports (upload_db d) !! (w, importID))) &&
  forallb (fun kr => negb (String.eqb (fst (fst kr)) w && String.eqb (op_import (snd kr)) importID &&
                           String.eqb (op_kind (snd kr)) kind)) (map_to_list (operations d)).

Definition insert_operation (o : Operation) (d : ingestion) : option (unit * ingestion) :=
  if check_operation (o_ID o) (new_operation o) && operation_free (o_WorkspaceID o) (o_ID o) (o_ImportID o) (o_Kind o) d
  then Some (tt, set_operations (<[(o_WorkspaceID o, o_ID o) := new_operation o]> (operations d)) d) else None.

(** The processing job of an operation. *)
Definition process_job (s : completeSpec) : JobQueue.Spec := {|
  JobQueue.s_WorkspaceID := o_WorkspaceID (ct_Operation s); JobQueue.s_OperationID := o_ID (ct_Operation s);
  JobQueue.s_InitiatingPrincipalID := ct_PrincipalID s; JobQueue.s_SystemCapability := CapabilityImportsProcess;
  JobQueue.s_Queue := importProcessQueue; JobQueue.s_Kind := importProcessKind;
  JobQueue.s_SchemaVersion := importProcessSchema;
  JobQueue.s_Payload := import_payload (o_ImportID (ct_Operation s));
  JobQueue.s_IdempotencyKey := o_ID (ct_Operation s); JobQueue.s_Priority := 0; JobQueue.s_AvailableAt := 0;
  JobQueue.s_MaxAttempts := ct_ProcessMaxAttempts s |}.

Definition is_uploaded (r : import_row) : bool := bool_decide (im_state r = ImportUploaded).

(** The operation, its job and the state of the import, in the same
    transaction. *)
Definition publish_rows (q : JobQueue.env) (s : completeSpec) : prog ingestion error unit :=
  let o := ct_Operation s in
  do! statement (ErrDatabase "insert import operation") (insert_operation o) in
  do! zoom ErrQueue (JobQueue.EnqueueTx q (process_job s)) in
  let! rows := statement (ErrDatabase "queue import processing")
                 (zoom_statement (update_import (o_WorkspaceID o, o_ImportID o) is_uploaded ImportQueued
                                    (o_UpdatedAt o))) in
  if rows =? 1 then done_with tt else fail ErrCompletionConflict.

(** What a fresh claim is followed by. *)
Definition publish_completion (q : JobQueue.env) (s : completeSpec) : prog ingestion error unit :=
  let! found := query (ErrDatabase "read import for completion") (find_completable s) in
  match found with
  | None => fail ErrImportNotFound
  | Some (importState, artifactState) =>
      if negb (bool_decide (importState = ImportUploaded)) ||
         negb (bool_decide (artifactState = Some rawArtifactCommitted))
      then fail ErrCompletionConflict
      else publish_rows q s
  end.

Definition Complete (locks : string -> bool) (q : JobQueue.env) (s : completeSpec)
  : prog ingestion error Completion :=
  do! begin (ErrDatabase "begin import completion") in
  let! lockAcquired := query (ErrDatabase "lock import completion idempotency scope")
                         (fun _ => locks ("open-aspm-import-idempotency:" +:+ completionLockKey s)) in
  if negb lockAcquired then fail ErrIdempotencyInProgress
  else
    record (ErrDatabase "claim import completion idempotency key") (claim_completion s)
      (ErrDatabase "read import completion replay") (selectCompletion s)
      ErrImportNotFound ErrIdempotencyConflict
      (ErrDatabase "finish import completion replay") (ErrDatabase "commit import completion")
      (ct_RequestFingerprint s) (publish_completion q s)
      {| cp_Operation := ct_Operation s; cp_Created := true |}.
End Store.
End Ingestion.
