(* ===== verification/Processing.v ===== *)
(** * Import processing (src/internal/ingestion/processing_postgres.go, scan_postgres.go)

    [Module Processing] models what an import job does to the database: it
    resolves its target, moves the operation and its import into their
    processing states, records the parser output and the scans, and publishes
    the terminal result or failure of both in one transaction.
    ProcessingTheorems.v and PipelineTheorems.v have the theorems. *)

From S2P Require Import Prelude GoStrings Encoding Txn Json Queue Records Idempotency Catalog Blobstore Uploads Scans.
From S2P Require Import Ingestion.

Local Open Scope Z_scope.

Module Processing.
Import Uploads Scans Ingestion.

Record ProcessingIdentity := {
  pi_WorkspaceID : string; pi_OperationID : string; pi_ImportID : string; pi_PrincipalID : string;
  pi_JobCapability : string
}.

Record ProcessingTarget := {
  pt_WorkspaceID : string; pt_OperationID : string; pt_ImportID : string; pt_ApplicationID : string;
  pt_State : OperationState; pt_FailureCode : string
}.

Record ProcessingSource := {
  ps_Target : ProcessingTarget; ps_AnalysisContext : option AnalysisContext; ps_RawArtifactID : string;
  ps_ReportFormat : ReportFormat; ps_StorageBackend : string; ps_StorageKey : string;
  ps_StorageVersion : string; ps_BackendVersion : string; ps_SizeBytes : Z; ps_SHA256 : string;
  ps_MaxBytes : Z; ps_ReceivedAt : time
}.

Record ProcessingFailure := { pf_Code : string; pf_Title : string; pf_Detail : string }.

Definition validateProcessingIdentity (i : ProcessingIdentity) : bool :=
  validOpaqueID (pi_WorkspaceID i) && validOpaqueID (pi_OperationID i) && validOpaqueID (pi_ImportID i) &&
  validOpaqueID (pi_PrincipalID i) && String.eqb (pi_JobCapability i) CapabilityImportsProcess.

Definition processingFailureCodePattern : string -> bool := match_head is_lower failure_char 127.

Definition validFailure (f : ProcessingFailure) : bool :=
  processingFailureCodePattern (pf_Code f) && validText (pf_Title f) 1 255 &&
  (String.eqb (pf_Detail f) "" || ((slen (pf_Detail f) <=? 2048) && negb (has_nul (pf_Detail f)))).

Definition operation_key (i : ProcessingIdentity) : string * string := (pi_WorkspaceID i, pi_OperationID i).
Definition import_key (i : ProcessingIdentity) : string * string := (pi_WorkspaceID i, pi_ImportID i).

(** The operation of the identity joined with its import: the WHERE clause of
    every statement that reads them. *)
Definition find_processing (i : ProcessingIdentity) (d : ingestion) : option (operation_row * import_row) :=
  match operations d !! operation_key i, imports (upload_db d) !! import_key i with
  | Some op, Some im =>
      if String.eqb (op_import op) (pi_ImportID i) && String.eqb (op_creator op) (pi_PrincipalID i) &&
         String.eqb (op_kind op) importProcessKind
      then Some (op, im) else None
  | _, _ => None
  end.

Definition target_of (i : ProcessingIdentity) (op : operation_row) (im : import_row) : ProcessingTarget := {|
  pt_WorkspaceID := pi_WorkspaceID i; pt_OperationID := pi_OperationID i; pt_ImportID := pi_ImportID i;
  pt_ApplicationID := im_application im; pt_State := op_state op;
  pt_FailureCode := null_string (op_failure_code op) |}.

Definition ResolveProcessingTarget (i : ProcessingIdentity) : prog ingestion error ProcessingTarget :=
  if negb (validateProcessingIdentity i) then fail ErrInvalid
  else
    let! found := autocommit (ErrDatabase "resolve import processing target")
                    (fun d => Some (find_processing i d, d)) in
    match found with
    | None => fail ErrProcessingNotFound
    | Some (op, im) => done_with (target_of i op im)
    end.

(** ** UPDATE operations *)

(** The number of rows, or a violated constraint. *)
Definition update_operation {pg : Postgres} (key : string * string) (cond : OperationState -> bool)
  (f : operation_row -> operation_row) (d : ingestion) : option (Z * ingestion) :=
  match operations d !! key with
  | Some r =>
      if cond (op_state r) then
        if check_operation (snd key) (f r) then Some (1, set_operations (<[key := f r]> (operations d)) d) else None
      else Some (0, d)
  | None => Some (0, d)
  end.

(** state IN ('queued', 'running'), and its counterpart for imports. *)
Definition is_open (s : OperationState) : bool :=
  match s with OperationQueued | OperationRunning => true | _ => false end.
Definition is_running (s : OperationState) : bool := match s with OperationRunning => true | _ => false end.
Definition import_open (s : ImportState) : bool :=
  match s with ImportQueued | ImportProcessing => true | _ => false end.
Definition import_processing (s : ImportState) : bool :=
  match s with ImportProcessing => true | _ => false end.

Section Store.
Context {pg : Postgres}.

(** ** BeginProcessing *)

Definition start_operation (at_ : time) (r : operation_row) : operation_row := {|
  op_import := op_import r; op_creator := op_creator r; op_kind := op_kind r; op_state := OperationRunning;
  op_result := op_result r; op_failure_code := op_failure_code r; op_failure_title := op_failure_title r;
  op_failure_detail := op_failure_detail r; op_created := op_created r; op_updated := store_time at_;
  op_started := Some (coalesce (op_started r) (store_time at_)); op_finished := op_finished r |}.

(** The operation, its import, the committed artifact and the context. *)
Definition find_source (i : ProcessingIdentity) (d : ingestion)
  : option (operation_row * import_row * artifact_row * option context_row) :=
  match find_processing i d, artifacts (upload_db d) !! import_key i with
  | Some (op, im), Some a =>
      if bool_decide (ar_state a = rawArtifactCommitted) then Some (op, im, a, contexts d !! import_key i) else None
  | _, _ => None
  end.

(** The columns that are scanned into the source at once: a NULL in one of
    them is an error. *)
Definition scanned_source (i : ProcessingIdentity) (op : operation_row) (im : import_row) (a : artifact_row)
  : option ProcessingSource :=
  match ar_storage_version a, ar_size a, ar_committed a with
  | Some version, Some size, Some at_ => Some {|
      ps_Target := target_of i op im; ps_AnalysisContext := None; ps_RawArtifactID := ar_id a;
      ps_ReportFormat := {| rf_Name := im_format_name im; rf_Version := "" |};
      ps_StorageBackend := ar_backend a; ps_StorageKey := ar_key a; ps_StorageVersion := version;
      ps_BackendVersion := ""; ps_SizeBytes := size; ps_SHA256 := ""; ps_MaxBytes := im_max_bytes im;
      ps_ReceivedAt := at_ |}
  | _, _, _ => None
  end.

(** The rest of the source, filled in for an import that is processed. *)
Definition complete_source (im : import_row) (a : artifact_row) (c : option context_row) (s : ProcessingSource)
  : ProcessingSource := {|
  ps_Target := {| pt_WorkspaceID := pt_WorkspaceID (ps_Target s); pt_OperationID := pt_OperationID (ps_Target s);
                  pt_ImportID := pt_ImportID (ps_Target s); pt_ApplicationID := pt_ApplicationID (ps_Target s);
                  pt_State := OperationRunning; pt_FailureCode := pt_FailureCode (ps_Target s) |};
  ps_AnalysisContext := option_map cx_value c; ps_RawArtifactID := ps_RawArtifactID s;
  ps_ReportFormat := {| rf_Name := rf_Name (ps_ReportFormat s);
                        rf_Version := null_string (im_format_version im) |};
  ps_StorageBackend := ps_StorageBackend s; ps_StorageKey := ps_StorageKey s;
  ps_StorageVersion := ps_StorageVersion s; ps_BackendVersion := null_string (ar_backend_version a);
  ps_SizeBytes := ps_SizeBytes s; ps_SHA256 := hex_encode (null_string (ar_sha a));
  ps_MaxBytes := ps_MaxBytes s; ps_ReceivedAt := ps_ReceivedAt s |}.

Definition processable (op : operation_row) (im : import_row) (a : artifact_row) (s : ProcessingSource) : bool :=
  is_open (op_state op) && import_open (im_state im) && negb (String.eqb (ps_RawArtifactID s) "") &&
  (0 <=? ps_SizeBytes s) && (slen (null_string (ar_sha a)) =? 32).

Definition BeginProcessing (i : ProcessingIdentity) (startedAt : time) : prog ingestion error ProcessingSource :=
  if negb (validateProcessingIdentity i) || IsZero startedAt then fail ErrInvalid
  else
    do! begin (ErrDatabase "begin import processing") in
    let! found := query (ErrDatabase "lock import processing source") (find_source i) in
    match found with
    | None => fail ErrProcessingNotFound
    | Some (op, im, a, c) =>
        match scanned_source i op im a with
        | None => fail (ErrDatabase "lock import processing source")
        | Some source =>
            if finished_state (op_state op) then
              do! commit (ErrDatabase "finish terminal import processing lookup") in
              done_with source
            else if negb (processable op im a source) then fail ErrProcessingConflict
            else
              do! statement (ErrDatabase "mark operation running")
                    (update_operation (operation_key i) is_open (start_operation startedAt)) in
              do! statement (ErrDatabase "mark import processing")
                    (zoom_statement (update_import (import_key i) (fun r => import_open (im_state r))
                                       ImportProcessing startedAt)) in
              do! commit (ErrDatabase "commit import processing start") in
              done_with (complete_source im a c source)
        end
    end.

(** ** CompleteProcessing *)

Definition result_json (importID : string) (scansCreated : Z) : json :=
  JObj [("import_id", JStr importID); ("import_state", JStr "succeeded"); ("scans_created", JInt scansCreated)].

Definition succeed_operation (result : string) (at_ : time) (r : operation_row) : operation_row := {|
  op_import := op_import r; op_creator := op_creator r; op_kind := op_kind r; op_state := OperationSucceeded;
  op_result := Some result; op_failure_code := op_failure_code r; op_failure_title := op_failure_title r;
  op_failure_detail := op_failure_detail r; op_created := op_created r; op_updated := store_time at_;
  op_started := op_started r; op_finished := Some (store_time at_) |}.

(** The result column is jsonb. *)
Definition publish_result (key : string * string) (result : string) (at_ : time) (d : ingestion)
  : option (Z * ingestion) :=
  match jsonb_in result with
  | Some j => update_operation key is_running (succeed_operation j at_) d
  | None => None
  end.
End Store.

(** [json.Unmarshal] into the result structure: members are matched to fields
    without regard to case, null leaves a field alone, the last member wins,
    and a member of another type is an error. *)
Record operation_result := { or_ImportID : string; or_ImportState : string; or_ScansCreated : Z }.

Definition put_result_field (acc : option operation_result) (kv : string * json) : option operation_result :=
  match acc with
  | None => None
  | Some r =>
      let name := fold_name (fst kv) in
      if String.eqb name "import_id" then
        match snd kv with
        | JNull => Some r
        | JStr s => Some {| or_ImportID := s; or_ImportState := or_ImportState r; or_ScansCreated := or_ScansCreated r |}
        | _ => None
        end
      else if String.eqb name "import_state" then
        match snd kv with
        | JNull => Some r
        | JStr s => Some {| or_ImportID := or_ImportID r; or_ImportState := s; or_ScansCreated := or_ScansCreated r |}
        | _ => None
        end
      else if String.eqb name "scans_created" then
        match snd kv with
        | JNull => Some r
        | JNum n => match parse_int n with
                    | Some z => Some {| or_ImportID := or_ImportID r; or_ImportState := or_ImportState r;
                                        or_ScansCreated := z |}
                    | None => None
                    end
        | _ => None
        end
      else Some r
  end.

Definition unmarshal_result (text : string) : option operation_result :=
  let empty := {| or_ImportID := ""; or_ImportState := ""; or_ScansCreated := 0 |} in
  match decode_text text with
  | Some (JObj members) => foldl put_result_field (Some empty) members
  | Some JNull => Some empty
  | _ => None
  end.

(** The stored result is the one that is published again. *)
Definition same_result (i : ProcessingIdentity) (scansCreated : Z) (op : operation_row) (im : import_row) : bool :=
  match unmarshal_result (null_string (op_result op)) with
  | Some r => String.eqb (or_ImportID r) (pi_ImportID i) && String.eqb (or_ImportState r) "succeeded" &&
              (or_ScansCreated r =? scansCreated) && bool_decide (im_state im = ImportSucceeded)
  | None => false
  end.

Section Terminal.
Context {pg : Postgres}.

Definition CompleteProcessing (i : ProcessingIdentity) (scansCreated : Z) (finishedAt : time)
  : prog ingestion error unit :=
  if negb (validateProcessingIdentity i) || (scansCreated <? 0) || IsZero finishedAt then fail ErrInvalid
  else
    let result := print (result_json (pi_ImportID i) scansCreated) in
    do! begin (ErrDatabase "begin completing import processing") in
    let! found := query (ErrDatabase "lock successful import processing") (find_processing i) in
    match found with
    | None => fail ErrProcessingNotFound
    | Some (op, im) =>
        match op_state op with
        | OperationSucceeded =>
            if negb (same_result i scansCreated op im) then fail ErrProcessingConflict
            else commit (ErrDatabase "")
        | _ =>
            if negb (is_running (op_state op)) || negb (import_processing (im_state im))
            then fail ErrProcessingConflict
            else
              do! statement (ErrDatabase "complete processed import")
                    (zoom_statement (update_import (import_key i) (fun r => import_processing (im_state r))
                                       ImportSucceeded finishedAt)) in
              do! statement (ErrDatabase "complete import operation")
                    (publish_result (operation_key i) result finishedAt) in
              commit (ErrDatabase "commit successful import processing")
        end
    end.

(** ** FailProcessing *)

Definition fail_operation (f : ProcessingFailure) (at_ : time) (r : operation_row) : operation_row := {|
  op_import := op_import r; op_creator := op_creator r; op_kind := op_kind r; op_state := OperationFailed;
  op_result := None; op_failure_code := Some (pf_Code f); op_failure_title := Some (pf_Title f);
  op_failure_detail := nullif_empty (pf_Detail f); op_created := op_created r; op_updated := store_time at_;
  op_started := op_started r; op_finished := Some (store_time at_) |}.

(** The database takes no text that is not UTF-8; the other parameters are. *)
Definition publish_failure (key : string * string) (f : ProcessingFailure) (at_ : time) (d : ingestion)
  : option (Z * ingestion) :=
  if ValidString (pf_Detail f) then update_operation key is_open (fail_operation f at_) d else None.

Definition FailProcessing (i : ProcessingIdentity) (f : ProcessingFailure) (finishedAt : time)
  : prog ingestion error unit :=
  if negb (validateProcessingIdentity i) || negb (validFailure f) || IsZero finishedAt then fail ErrInvalid
  else
    do! begin (ErrDatabase "begin failing import processing") in
    let! found := query (ErrDatabase "lock failed import processing") (find_processing i) in
    match found with
    | None => fail ErrProcessingNotFound
    | Some (op, im) =>
        match op_state op with
        | OperationFailed =>
            if negb (String.eqb (null_string (op_failure_code op)) (pf_Code f)) ||
               negb (bool_decide (im_state im = ImportFailed))
            then fail ErrProcessingConflict
            else commit (ErrDatabase "")
        | _ =>
            if negb (is_open (op_state op)) || negb (import_open (im_state im))
            then fail ErrProcessingConflict
            else
              do! statement (ErrDatabase "fail processed import")
                    (zoom_statement (update_import (import_key i) (fun r => import_open (im_state r))
                                       ImportFailed finishedAt)) in
              do! statement (ErrDatabase "fail import operation")
                    (publish_failure (operation_key i) f finishedAt) in
              commit (ErrDatabase "commit failed import processing")
        end
    end.

(** ** RecordParseOutput *)

Definition artifact_known (ws import artifact : string) (d : ingestion) : bool :=
  match artifacts (upload_db d) !! (ws, import) with Some a => String.eqb (ar_id a) artifact | None => false end.

Definition store_output (s : ParseOutputSpec) (fp : string) (d : ingestion) : option (Z * ingestion) :=
  zoom_statement (insert_output s fp (artifact_known (po_WorkspaceID s) (po_ImportID s) (po_RawArtifactID s) d)) d.

Definition RecordParseOutput (s : ParseOutputSpec) : prog ingestion error unit :=
  match canonicalizeParseOutput s with
  | Err e => fail e
  | Ok (ws, fp) =>
      do! begin (ErrDatabase "begin recording parser output") in
      record (ErrDatabase "insert parser output") (store_output s fp)
        (ErrDatabase "read existing parser output")
        (fun d => option_map (fun r => (tt, pr_fingerprint r)) (outputs (evidence_db d) !! output_key s))
        (ErrDatabase "read existing parser output") ErrParseOutputConflict (ErrDatabase "")
        (ErrDatabase "commit parser output") fp
        (for_each (ErrDatabase "insert parser warning") (fun w => zoom_statement (insert_warning s w)) (indexed ws))
        tt
  end.

(** ** RecordScan *)

(** The time the evidence of the scan was committed. *)
Definition scan_source (s : ScanSpec) (d : ingestion) : option (option time) :=
  let key := (sn_WorkspaceID s, sn_ImportID s) in
  match imports (upload_db d) !! key, artifacts (upload_db d) !! key with
  | Some im, Some a =>
      if String.eqb (im_application im) (sn_ApplicationID s) && String.eqb (ar_id a) (sn_RawArtifactID s) &&
         bool_decide (ar_state a = rawArtifactCommitted) then Some (ar_committed a) else None
  | _, _ => None
  end.

Definition new_scan (s : ScanSpec) (receivedAt : time) (fp : string) : scan_row := {|
  sr_spec := s; sr_started := option_map store_time (sn_SourceStartedAt s);
  sr_ended := option_map store_time (sn_SourceEndedAt s); sr_received := receivedAt;
  sr_recorded := store_time (sn_RecordedAt s); sr_fingerprint := fp |}.

(** The foreign keys of scans. *)
Definition scan_known (s : ScanSpec) (d : ingestion) : bool :=
  match imports (upload_db d) !! (sn_WorkspaceID s, sn_ImportID s) with
  | Some im => String.eqb (im_application im) (sn_ApplicationID s)
  | None => false
  end && artifact_known (sn_WorkspaceID s) (sn_ImportID s) (sn_RawArtifactID s) d &&
  (String.eqb (sn_AnalysisContextImportID s) "" ||
   negb (is_null (contexts d !! (sn_WorkspaceID s, sn_AnalysisContextImportID s)))).

Definition store_scan (s : ScanSpec) (receivedAt : time) (fp : string) (d : ingestion) : option (Z * ingestion) :=
  zoom_statement (insert_scan (new_scan s receivedAt fp) (scan_known s d)) d.

Definition stored_scan (s : ScanSpec) (receivedAt recordedAt : time) (created : bool) : StoredScan := {|
  st_ID := sn_ID s; st_WorkspaceID := sn_WorkspaceID s; st_ImportID := sn_ImportID s;
  st_ApplicationID := sn_ApplicationID s; st_RawArtifactID := sn_RawArtifactID s;
  st_AnalysisContextImportID := sn_AnalysisContextImportID s; st_ReceivedAt := receivedAt;
  st_RecordedAt := recordedAt; st_Created := created |}.

(** The scan of the source run joined with its scope. *)
Definition selectStoredScan (s : ScanSpec) (d : ingestion) : option (StoredScan * (string * string)) :=
  match find_run s (evidence_db d) with
  | Some r =>
      match scopes (evidence_db d) !! (sn_WorkspaceID (sr_spec r), sn_ID (sr_spec r)) with
      | Some sc => Some (stored_scan (sr_spec r) (sr_received r) (sr_recorded r) false,
                         (sr_fingerprint r, ss_fingerprint sc))
      | None => None
      end
  | None => None
  end.

Definition store_scope (s : ScanSpec) (scope : ScanScope) (fp : string) : prog ingestion error unit :=
  statement (ErrDatabase "insert scan scope")
    (zoom_statement (insert_scope (sn_WorkspaceID s) (sn_ID s) (sn_ApplicationID s) scope fp (sn_RecordedAt s))).

Definition RecordScan (s : ScanSpec) : prog ingestion error StoredScan :=
  match canonicalizeScanSpec s with
  | Err e => fail e
  | Ok (scope, fps) =>
      do! begin (ErrDatabase "begin recording scan") in
      let! found := query (ErrDatabase "read scan source evidence") (scan_source s) in
      match found with
      | None => fail ErrScanSourceNotFound
      | Some None => fail (ErrDatabase "read scan source evidence")
      | Some (Some receivedAt) =>
          if sn_RecordedAt s <? receivedAt then fail ErrInvalid
          else
            record (ErrDatabase "insert scan") (store_scan s receivedAt (fst fps))
              (ErrDatabase "read existing scan") (selectStoredScan s) ErrScanConflict ErrScanConflict
              (ErrDatabase "finish scan replay") (ErrDatabase "commit scan") fps
              (store_scope s scope (snd fps))
              (stored_scan s receivedAt (sn_RecordedAt s) true)
      end
  end.
End Terminal.
End Processing.
