(* ===== verification/IngestionService.v ===== *)
(** * The ingestion service (src/internal/ingestion/service.go)

    [Module IngestionService] models the application service: every call is
    validated, authorized, fingerprinted and then carried out by the store
    (Uploads.v, Ingestion.v), and an upload streams its body into the blob
    store between the two transactions that fence it.  The authorizer, the
    catalog resolver and the blob store are interfaces; the clock, the random
    source, the advisory locks and the failures of the connection are inputs. *)

From S2P Require Import Prelude GoStrings Encoding Txn Json Queue Records Idempotency Catalog Blobstore Streams.
From S2P Require Import Uploads Scans Ingestion.

Local Open Scope Z_scope.

Module IngestionService.
Import Idempotency Uploads Ingestion.
Import Catalog(Authorizer, Authorize, AuthorizationRequest, Build_AuthorizationRequest).
Import Streams(stream, stream_read, reads, BlobWriter).

Record Config := {
  MaxUploadBytes : Z; UploadReservationTTL : duration; UploadTimeout : duration;
  IdempotencyRetention : duration; StorageBackend : string; ProcessMaxAttempts : Z
}.

Definition storageBackendPattern : string -> bool := match_head is_lower name_char 63.

(** [NewService]: the policies it accepts. *)
Definition validConfig (c : Config) : bool :=
  (0 <? MaxUploadBytes c) && (0 <? UploadReservationTTL c) && (0 <? UploadTimeout c) &&
  (minimumRetention <=? IdempotencyRetention c) && storageBackendPattern (StorageBackend c) &&
  (1 <=? ProcessMaxAttempts c) && (ProcessMaxAttempts c <=? 100).

(** What the world supplies to one call: the readings of the clock and of the
    database's clock, the draws from [crypto/rand], the free advisory locks. *)
Record call := {
  now : nat -> time; random : nat -> Z -> option string; locks : string -> bool; clock : nat -> time
}.

Definition truncate (t : time) : time := t - t mod Microsecond.
Definition timestamp (e : call) (k : nat) : time := truncate (now e k).

Definition randomIdentifier (e : call) (k : nat) (prefix : string) : result error string :=
  match random e k 20 with
  | Some bytes => Ok (encode_id prefix bytes)
  | None => Err ErrRandom
  end.

Definition newBlobKey (e : call) (k : nat) : result error Blobstore.Key :=
  map_err ErrBlob (Blobstore.NewKey (random e k 32)).

Section Service.
Context {pg : Postgres} {az : Authorizer}.

(** ** Complete *)

Definition complete_spec (c : Config) (e : call) (r : CompleteRequest) (operationID fingerprint : string)
  : completeSpec := {|
  ct_Operation := {| o_ID := operationID; o_WorkspaceID := cq_WorkspaceID r; o_ImportID := cq_ImportID r;
                     o_CreatedByPrincipalID := cq_PrincipalID r; o_Kind := importProcessKind;
                     o_State := OperationQueued; o_CreatedAt := timestamp e 0; o_UpdatedAt := timestamp e 0 |};
  ct_ApplicationID := cq_ApplicationID r; ct_PrincipalID := cq_PrincipalID r;
  ct_APIMajorVersion := apiMajorVersion; ct_IdempotencyOperation := operationCompleteImport;
  ct_IdempotencyKey := cq_IdempotencyKey r; ct_RequestFingerprint := fingerprint;
  ct_IdempotencyExpiresAt := timestamp e 0 + IdempotencyRetention c;
  ct_ProcessMaxAttempts := ProcessMaxAttempts c |}.

Definition ServiceComplete (c : Config) (q : JobQueue.env) (e : call) (r : CompleteRequest)
  : prog ingestion error Completion :=
  if negb (validateCompleteRequest r) then fail ErrInvalid
  else if negb (Authorize (Build_AuthorizationRequest (cq_PrincipalID r) (cq_WorkspaceID r) (cq_ApplicationID r)
                             CapabilityImportsUpload))
  then fail (ErrAuthorize "authorize import completion")
  else match fingerprintCompletion r with
  | Err err => fail err
  | Ok fingerprint =>
      match randomIdentifier e 0 "op_" with
      | Err err => fail err
      | Ok operationID => Complete (locks e) q (complete_spec c e r operationID fingerprint)
      end
  end.

(** ** Reserve *)

Definition replay_spec (r : ReserveRequest) (fingerprint : string) : reservationReplaySpec := {|
  rp_WorkspaceID := rq_WorkspaceID r; rp_PrincipalID := rq_PrincipalID r; rp_APIMajorVersion := apiMajorVersion;
  rp_Operation := operationCreateImport; rp_IdempotencyKey := rq_IdempotencyKey r;
  rp_RequestFingerprint := fingerprint |}.

(** The target that was resolved is the one that was asked for. *)
Definition consistent_target (r : ReserveRequest) (repository : string) (t : Catalog.ResolvedRepositoryTarget) : bool :=
  String.eqb (Catalog.t_WorkspaceID t) (rq_WorkspaceID r) &&
  String.eqb (Catalog.t_ApplicationID t) (rq_ApplicationID r) &&
  String.eqb (Catalog.t_RepositoryID t) repository && validOpaqueID (Catalog.t_RelationshipID t) &&
  negb (IsZero (Catalog.t_ValidFrom t)) && negb (IsZero (Catalog.t_ResolvedAt t)) &&
  (Catalog.t_ValidFrom t <=? Catalog.t_ResolvedAt t).

Definition analysis_context (r : ReserveRequest) (a : AnalysisContextRequest) (t : Catalog.ResolvedRepositoryTarget)
  : AnalysisContext := {|
  cx_AnalysisKind := ac_AnalysisKind a; cx_TargetType := tr_Type (ac_Target a);
  cx_TargetID := Catalog.t_RepositoryID t; cx_TargetRelationshipID := Catalog.t_RelationshipID t;
  cx_AssertionSource := AssertionSourceAPIClient; cx_AssertedByPrincipalID := rq_PrincipalID r;
  cx_AcceptedAt := Catalog.t_ResolvedAt t |}.

Definition reserve_spec (c : Config) (e : call) (r : ReserveRequest)
  (fingerprint importID artifactID storageKey : string) (context : option AnalysisContext) : reserveSpec := {|
  rs_Import := {| i_ID := importID; i_WorkspaceID := rq_WorkspaceID r; i_ApplicationID := rq_ApplicationID r;
                  i_CreatedByPrincipalID := rq_PrincipalID r; i_State := ImportAwaitingUpload;
                  i_ReportFormat := rq_ReportFormat r; i_OriginalFilename := rq_OriginalFilename r;
                  i_ExpectedSize := rq_ExpectedSize r; i_ExpectedSHA256 := rq_ExpectedSHA256 r;
                  i_MaxBytes := MaxUploadBytes c; i_UploadExpiresAt := timestamp e 0 + UploadReservationTTL c;
                  i_CreatedAt := timestamp e 0; i_UpdatedAt := timestamp e 0; i_AnalysisContext := context |};
  rs_ArtifactID := artifactID; rs_StorageBackend := StorageBackend c; rs_StorageKey := storageKey;
  rs_PrincipalID := rq_PrincipalID r; rs_APIMajorVersion := apiMajorVersion;
  rs_Operation := operationCreateImport; rs_IdempotencyKey := rq_IdempotencyKey r;
  rs_RequestFingerprint := fingerprint;
  rs_RequestExceedsLimit := match rq_ExpectedSize r with Some n => MaxUploadBytes c <? n | None => false end;
  rs_IdempotencyExpiresAt := timestamp e 0 + IdempotencyRetention c |}.

(** A target that is gone does not hide an earlier answer. *)
Definition replay_or_missing (s : reservationReplaySpec) : prog ingestion error Reservation :=
  let! replayed := ReplayReservation s in
  match replayed with
  | Some reservation => done_with reservation
  | None => fail ErrAnalysisTargetNotFound
  end.

(** The analysis context of a request, resolved against the catalog. *)
Definition resolve_context (e : call) (r : ReserveRequest) (s : reservationReplaySpec)
  (k : option AnalysisContext -> prog ingestion error Reservation) : prog ingestion error Reservation :=
  match rq_AnalysisContext r with
  | None => k None
  | Some a =>
      with_result
        (zoom ErrCatalog (Catalog.ResolveActiveRepositoryTarget (clock e)
           {| Catalog.rt_WorkspaceID := rq_WorkspaceID r; Catalog.rt_ApplicationID := rq_ApplicationID r;
              Catalog.rt_RepositoryID := tr_ID (ac_Target a) |}))
        (fun resolved =>
           match resolved with
           | Err (ErrCatalog Catalog.ErrRepositoryTargetNotFound) | Err (ErrCatalog Catalog.ErrInvalid) =>
               replay_or_missing s
           | Err err => fail err
           | Ok t =>
               if consistent_target r (tr_ID (ac_Target a)) t then k (Some (analysis_context r a t))
               else fail ErrTargetInconsistent
           end)
  end.

Definition ServiceReserve (c : Config) (e : call) (r : ReserveRequest) : prog ingestion error Reservation :=
  if negb (validateAuthorizationScope r) then fail ErrInvalid
  else if negb (Authorize (Build_AuthorizationRequest (rq_PrincipalID r) (rq_WorkspaceID r) (rq_ApplicationID r)
                             CapabilityImportsCreate))
  then fail (ErrAuthorize "authorize import reservation")
  else if negb (validateAnalysisContext (rq_AnalysisContext r)) then fail ErrInvalid
  else match fingerprintRequest r with
  | Err err => fail err
  | Ok fingerprint =>
      let! replayed := ReplayReservation (replay_spec r fingerprint) in
      match replayed with
      | Some reservation => done_with reservation
      | None =>
          match randomIdentifier e 0 "imp_", randomIdentifier e 1 "art_", newBlobKey e 2 with
          | Ok importID, Ok artifactID, Ok storageKey =>
              resolve_context e r (replay_spec r fingerprint)
                (fun context => Reserve (locks e)
                   (reserve_spec c e r fingerprint importID artifactID storageKey context))
          | Err err, _, _ | Ok _, Err err, _ | Ok _, Ok _, Err err => fail err
          end
      end
  end.
End Service.

(** ** Upload *)

Record UploadRequest := {
  ur_PrincipalID : string; ur_WorkspaceID : string; ur_ApplicationID : string; ur_ImportID : string;
  ur_DeclaredSize : option Z; ur_Content : option stream   (* a nil reader is [None] *)
}.

Definition validateUploadRequest (r : UploadRequest) : bool :=
  validOpaqueID (ur_PrincipalID r) && validOpaqueID (ur_WorkspaceID r) && validOpaqueID (ur_ApplicationID r) &&
  validOpaqueID (ur_ImportID r) && negb (is_null (ur_Content r)) &&
  match ur_DeclaredSize r with Some n => 0 <=? n | None => true end.

Definition parseStorageKey (value : string) : result error Blobstore.Key :=
  map_err ErrBlob (Blobstore.ParseKey value).

Definition differs (a : option Z) (n : Z) : bool := match a with Some m => negb (m =? n) | None => false end.
Definition exceeds (a : option Z) (n : Z) : bool := match a with Some m => n <? m | None => false end.

(** The body is read to its end against the evidence that is already there.
    [reads] bounds the number of reads, so the copy does not run out. *)
Definition verifyContent (ctx : nat -> Blobstore.ctx_state) (content : stream) (maxBytes : Z)
  (declaredSize expectedSize : option Z) (expectedSHA256 : string) (committed : Blobstore.Metadata)
  : result error unit :=
  guard! negb (exceeds declaredSize maxBytes || differs declaredSize (Blobstore.m_Size committed))
    else ErrUploadConflict in
  guard! negb (differs expectedSize (Blobstore.m_Size committed)) else ErrUploadMismatch in
  guard! String.eqb expectedSHA256 "" || String.eqb expectedSHA256 (Blobstore.m_SHA256 committed)
    else ErrUploadMismatch in
  match Blobstore.Copy stream_read ctx Blobstore.discard_buffer (reads content)
          (Blobstore.NewBoundedReader content maxBytes) "" with
  | Blobstore.CopyPanic | Blobstore.CopyOutOfFuel => Err ErrPanic
  | Blobstore.Copied _ (Some Blobstore.ErrTooLarge) _ => Err ErrUploadConflict
  | Blobstore.Copied _ (Some err) _ => Err (ErrBlob err)
  | Blobstore.Copied _ None reader =>
      match Blobstore.Result reader with
      | Err err => Err (ErrBlob err)
      | Ok (size, digest) =>
          guard! (size =? Blobstore.m_Size committed) && String.eqb digest (Blobstore.m_SHA256 committed)
            else ErrUploadConflict in
          Ok tt
      end
  end.

Section Upload.
Context {pg : Postgres} {az : Authorizer} {B : Type} `{BlobWriter B}.

(** The context of the upload each time it is looked at; the failures of the
    [k]-th call of the store and what others did to the tables before it. *)
Variable ctx : nat -> Blobstore.ctx_state.
Variable plan : nat -> list fault.
Variable others : nat -> uploads -> uploads.

Definition store_call {A} (k : nat) (p : prog uploads error A) (d : uploads) : result error A * uploads :=
  run_on p (others k d) (plan k).

Definition end_spec (s : uploadSession) (endedAt : time) (code : string) : endUploadSpec := {|
  eu_WorkspaceID := us_WorkspaceID s; eu_ImportID := us_ImportID s; eu_ArtifactID := us_ArtifactID s;
  eu_AttemptID := us_AttemptID s; eu_EndedAt := endedAt; eu_RejectCode := code |}.

Definition rejectAttempt (k : nat) (s : uploadSession) (endedAt : time) (code : string) (cause : error)
  (d : uploads) : error * uploads :=
  match store_call k (EndUpload (end_spec s endedAt code)) d with
  | (Ok _, d') => (cause, d')
  | (Err _, d') => (ErrJoined cause, d')
  end.

Definition releaseAttempt (k : nat) (s : uploadSession) (endedAt : time) (d : uploads) : uploads :=
  snd (store_call k (EndUpload (end_spec s endedAt "")) d).

Definition handleBlobWriteFailure (k : nat) (s : uploadSession) (endedAt : time) (err : Blobstore.error)
  (d : uploads) : error * uploads :=
  match err with
  | Blobstore.ErrTooLarge => rejectAttempt k s endedAt "size_limit_exceeded" ErrTooLarge d
  | Blobstore.ErrIntegrity => rejectAttempt k s endedAt "content_mismatch" ErrUploadMismatch d
  | Blobstore.ErrAlreadyExists => (ErrUploadInProgress, releaseAttempt k s endedAt d)
  | _ => (ErrBlob err, releaseAttempt k s endedAt d)
  end.

(** The evidence of a receipt, as far as the replay compares it. *)
Definition receipt_metadata (receipt : UploadReceipt) : Blobstore.Metadata := {|
  Blobstore.m_Key := ""; Blobstore.m_Size := rc_SizeBytes receipt; Blobstore.m_SHA256 := rc_SHA256 receipt;
  Blobstore.m_Version := ""; Blobstore.m_BackendVersion := "";
  Blobstore.m_CommittedAt := rc_UploadedAt receipt |}.

Definition verifyReplay (content : stream) (declared : option Z) (s : uploadSession) (receipt : UploadReceipt)
  : result error unit :=
  match verifyContent ctx content (us_MaxBytes s) declared (us_ExpectedSize s) (us_ExpectedSHA256 s)
          (receipt_metadata receipt) with
  | Ok _ => Ok tt
  | Err ErrPanic => Err ErrPanic
  | Err _ => Err ErrUploadConflict
  end.

(** The bytes reach the blob store, or are compared with what it has: the
    metadata of the evidence, or the answer to the caller. *)
Definition store_content (c : Config) (e : call) (content : stream) (declared : option Z) (s : uploadSession)
  (key : Blobstore.Key) (db : uploads * B) : result error Blobstore.Metadata * (uploads * B) :=
  let '(d, b) := db in
  match Streams.Stat key b with
  | (Ok metadata, b) =>
      match verifyContent ctx content (us_MaxBytes s) declared (us_ExpectedSize s) (us_ExpectedSHA256 s) metadata with
      | Err ErrPanic => (Err ErrPanic, (d, b))
      | Err err => (Err err, (releaseAttempt 1 s (timestamp e 1) d, b))
      | Ok _ => (Ok metadata, (d, b))
      end
  | (Err Blobstore.ErrNotFound, b) =>
      let options := {| Blobstore.MaxBytes := us_MaxBytes s; Blobstore.Timeout := UploadTimeout c;
                        Blobstore.ExpectedSize := match declared with Some n => Some n | None => us_ExpectedSize s end;
                        Blobstore.ExpectedSHA256 := us_ExpectedSHA256 s |} in
      match Streams.Put key content options b with
      | (Ok metadata, b) => (Ok metadata, (d, b))
      | (Err err, b) =>
          let '(answer, d) := handleBlobWriteFailure 1 s (timestamp e 1) err d in (Err answer, (d, b))
      end
  | (Err err, b) => (Err (ErrBlob err), (releaseAttempt 1 s (timestamp e 1) d, b))
  end.

Definition commit_spec (r : UploadRequest) (s : uploadSession) (m : Blobstore.Metadata) : commitUploadSpec := {|
  cu_WorkspaceID := ur_WorkspaceID r; cu_ImportID := ur_ImportID r; cu_ArtifactID := us_ArtifactID s;
  cu_AttemptID := us_AttemptID s; cu_SizeBytes := Blobstore.m_Size m; cu_SHA256 := Blobstore.m_SHA256 m;
  cu_StorageVersion := Blobstore.m_Version m; cu_BackendVersion := Blobstore.m_BackendVersion m;
  cu_CommittedAt := truncate (Blobstore.m_CommittedAt m) |}.

(** What happens under a session that this call holds. *)
Definition upload_session (c : Config) (e : call) (r : UploadRequest) (content : stream) (s : uploadSession)
  (db : uploads * B) : result error UploadReceipt * (uploads * B) :=
  let '(d, b) := db in
  let reject code cause :=
    let '(answer, d) := rejectAttempt 1 s (timestamp e 1) code cause d in (Err answer, (d, b)) in
  if negb (String.eqb (us_StorageBackend s) (StorageBackend c))
  then (Err ErrUploadStorage, (releaseAttempt 1 s (timestamp e 1) d, b))
  else if exceeds (ur_DeclaredSize r) (us_MaxBytes s) then reject "size_limit_exceeded" ErrTooLarge
  else if match ur_DeclaredSize r, us_ExpectedSize s with Some n, Some m => negb (n =? m) | _, _ => false end
  then reject "size_mismatch" ErrUploadMismatch
  else match parseStorageKey (us_StorageKey s) with
  | Err err => (Err err, (releaseAttempt 1 s (timestamp e 1) d, b))
  | Ok key =>
      match store_content c e content (ur_DeclaredSize r) s key (d, b) with
      | (Err err, db) => (Err err, db)
      | (Ok metadata, (d, b)) =>
          match store_call 1 (CommitUpload (commit_spec r s metadata)) d with
          | (Ok receipt, d) => (Ok receipt, (d, b))
          | (Err err, d) => (Err err, (releaseAttempt 2 s (timestamp e 2) d, b))
          end
      end
  end.

Definition begin_spec (c : Config) (e : call) (r : UploadRequest) (artifactID attemptID key : string)
  : beginUploadSpec := {|
  bu_PrincipalID := ur_PrincipalID r; bu_WorkspaceID := ur_WorkspaceID r; bu_ApplicationID := ur_ApplicationID r;
  bu_ImportID := ur_ImportID r; bu_ArtifactID := artifactID; bu_StorageBackend := StorageBackend c;
  bu_StorageKey := key; bu_AttemptID := attemptID; bu_StartedAt := timestamp e 0;
  bu_LeaseExpiresAt := timestamp e 0 + UploadTimeout c |}.

Definition Upload (c : Config) (e : call) (r : UploadRequest) (db : uploads * B)
  : result error UploadReceipt * (uploads * B) :=
  let '(d, b) := db in
  match ur_Content r with
  | None => (Err ErrInvalid, db)
  | Some content =>
  if negb (validateUploadRequest r) then (Err ErrInvalid, db)
  else if negb (Authorize (Build_AuthorizationRequest (ur_PrincipalID r) (ur_WorkspaceID r) (ur_ApplicationID r)
                             CapabilityImportsUpload))
  then (Err (ErrAuthorize "authorize import upload"), db)
  else match randomIdentifier e 0 "art_", randomIdentifier e 1 "upl_", newBlobKey e 2 with
  | Err err, _, _ | Ok _, Err err, _ | Ok _, Ok _, Err err => (Err err, db)
  | Ok artifactID, Ok attemptID, Ok key =>
      match store_call 0 (BeginUpload (begin_spec c e r artifactID attemptID key)) d with
      | (Err err, d) => (Err err, (d, b))
      | (Ok s, d) =>
          match us_Receipt s with
          | Some receipt =>
              match verifyReplay content (ur_DeclaredSize r) s receipt with
              | Err err => (Err err, (d, b))
              | Ok _ => (Ok receipt, (d, b))
              end
          | None => upload_session c e r content s (d, b)
          end
      end
  end
  end.
End Upload.
End IngestionService.
