(* ===== verification/ImportJob.v ===== *)
(** * The import job (src/internal/processing/importjob/processor.go)

    [Module ImportJob] models the handler of import.process jobs: it decodes
    the job, authorizes the delayed work again, starts the processing, reads
    and parses the committed evidence, records the parser output, the scans
    and, for every result, the observation, its normalization and its
    correlation outcome, and publishes the result or the failure.  The
    handler composes the models of the stores (Processing.v, Finding.v,
    Correlation.v), of the normalizer and of the SARIF parser on one database;
    the blob store and the authorizer are interfaces.  The clock, the random
    source, the failures of every connection and what other processes do to
    the database between two calls are inputs. *)

From S2P Require Import Prelude GoStrings Encoding Txn Json GoTime Unmarshal Queue Worker Records Catalog Blobstore Streams.
From S2P Require Import Sarif Finding Normalizer Correlation Uploads Scans Ingestion Processing IngestionService.

Local Open Scope Z_scope.

Module ImportJob.
Import Uploads Scans Ingestion Processing.
Import Catalog(AuthorizationRequest, Build_AuthorizationRequest).
Import Streams(stream, stream_read).
Import IngestionService(truncate).
Import Worker(Outcome, OutcomeSucceeded, OutcomeRetryable, OutcomePermanent, OutcomeCancelled).

(** ** The database

    The finding and correlation packages have tables of their own and read two
    columns of the scans. *)

Record database := Database { ingestion_db : ingestion; findings_db : Finding.findings }.

Definition scan_refs (e : evidence) : gmap (string * string) Finding.scan_row :=
  (fun r => {| Finding.sc_raw := sn_RawArtifactID (sr_spec r); Finding.sc_received := sr_received r |}) <$> scans e.

Definition findings_of (d : database) : Finding.findings :=
  let f := findings_db d in
  Finding.Findings (scan_refs (evidence_db (ingestion_db d))) (Finding.observations f) (Finding.locations f)
    (Finding.fingerprints f) (Finding.normalizations f) (Finding.outcomes f).

Definition set_ingestion (i : ingestion) (d : database) : database := Database i (findings_db d).
Definition set_findings (f : Finding.findings) (d : database) : database := Database (ingestion_db d) f.

(** ** Interfaces *)

(** [Open] of [blobstore.Store]: the stream, whether closing it fails, and the
    metadata of the blob. *)
Record ReadCloser := { content : stream; close_fails : bool }.

Class BlobReader (B : Type) := {
  Open : Blobstore.Key -> B -> result Blobstore.error (ReadCloser * Blobstore.Metadata) * B
}.

(** What the documentation of [Store] promises: the stream ends only after the
    bytes that the metadata describe. *)
Class ReaderContract (B : Type) `{BlobReader B} := {
  open_verifies : forall k b r m b', Open k b = (Ok (r, m), b') -> Streams.ending (content r) = Blobstore.EOF ->
    Blobstore.m_Size m = slen (Streams.body (content r)) /\
    Blobstore.m_SHA256 m = hex_encode (sha256 (Streams.body (content r)))
}.

(** [ingestion.Authorizer]: no error, [ErrForbidden], or another error. *)
Inductive decision := Allowed | Forbidden | Unavailable.

Record Config := { StorageBackend : string; ProcessingTimeout : duration; RetryMaximumAge : duration }.

(** [New] with every dependency present. *)
Definition validConfig (c : Config) : bool :=
  negb (String.eqb (StorageBackend c) "") && (0 <? ProcessingTimeout c) && (0 <? RetryMaximumAge c).

(** ** Jobs and outcomes *)

Definition ImportProcessJobKind : string := importProcessKind.
Definition ImportProcessJobSchema : Z := 1.

Definition outcome (kind code : string) : Outcome := {| Worker.o_Kind := kind; Worker.o_Code := code; Worker.RetryAfter := 0 |}.

(** The payload structure: unknown members are refused, and the text is one
    JSON value with nothing after it. *)
Definition payload_import (payload : string) : option string :=
  match decode_text payload with
  | None => None
  | Some v =>
      match members v with
      | None => None
      | Some m => if forallb (fun kv => String.eqb (fold_name (fst kv)) (fold_name "import_id")) m
                  then string_field "import_id" m else None
      end
  end.

Definition decodeJob (job : JobQueue.Job) : option ProcessingIdentity :=
  if negb (String.eqb (JobQueue.Kind job) ImportProcessJobKind) ||
     negb (JobQueue.SchemaVersion job =? ImportProcessJobSchema) ||
     negb (String.eqb (JobQueue.SystemCapability job) CapabilityImportsProcess) ||
     String.eqb (JobQueue.WorkspaceID job) "" || String.eqb (JobQueue.OperationID job) "" ||
     String.eqb (JobQueue.InitiatingPrincipalID job) "" then None
  else match payload_import (JobQueue.Payload job) with
  | Some importID =>
      if String.eqb importID "" then None
      else Some {| pi_WorkspaceID := JobQueue.WorkspaceID job; pi_OperationID := JobQueue.OperationID job;
                   pi_ImportID := importID; pi_PrincipalID := JobQueue.InitiatingPrincipalID job;
                   pi_JobCapability := JobQueue.SystemCapability job |}
  | None => None
  end.

Definition terminalOutcome (state : OperationState) (failureCode : string) : option Outcome :=
  match state with
  | OperationSucceeded => Some (outcome OutcomeSucceeded "")
  | OperationFailed =>
      Some (outcome OutcomePermanent (if String.eqb failureCode "" then "processing-failed" else failureCode))
  | OperationCancelled => Some (outcome OutcomeCancelled "")
  | _ => None
  end.

Definition matchingEvidence (source : ProcessingSource) (m : Blobstore.Metadata) : bool :=
  (Blobstore.m_Size m =? ps_SizeBytes source) && String.eqb (Blobstore.m_SHA256 m) (ps_SHA256 source) &&
  String.eqb (Blobstore.m_Version m) (ps_StorageVersion source) &&
  String.eqb (Blobstore.m_BackendVersion m) (ps_BackendVersion source).

(** [trackingReader]: the stream and the last error other than its end. *)
Definition tracked_read (n : Z) (r : stream * option Blobstore.error)
  : string * option Blobstore.error * (stream * option Blobstore.error) :=
  let '(bytes, e, source) := stream_read n (fst r) in
  (bytes, e, (source, if is_null e || Blobstore.is_EOF e then snd r else e)).

(** ** Mapping *)

Definition map_warning (w : Sarif.Warning) : ParseWarning := {|
  pw_Code := Sarif.w_Code w; pw_SourcePointer := Sarif.w_Path w; pw_FieldCount := Sarif.w_FieldCount w;
  pw_Fields := Sarif.w_Fields w; pw_FieldsTruncated := Sarif.w_FieldsTruncated w |}.

Definition workspace (s : ProcessingSource) : string := pt_WorkspaceID (ps_Target s).
Definition import_id (s : ProcessingSource) : string := pt_ImportID (ps_Target s).

Definition mapParseOutput (source : ProcessingSource) (document : Sarif.Document) (recordedAt : time)
  : ParseOutputSpec := {|
  po_WorkspaceID := workspace source; po_ImportID := import_id source; po_RawArtifactID := ps_RawArtifactID source;
  po_FormatName := Sarif.d_Format document; po_FormatVersion := Sarif.d_FormatVersion document;
  po_ParserName := Sarif.pa_Name (Sarif.d_Parser document);
  po_ParserVersion := Sarif.pa_Version (Sarif.d_Parser document);
  po_Warnings := map map_warning (Sarif.d_Warnings document);
  po_WarningsTruncated := Sarif.d_WarningsTruncated document; po_RecordedAt := recordedAt |}.

Definition parseSourceTime (value : string) : option time :=
  if String.eqb value "" then None else parse_rfc3339 value.

(** The result of a run by its invocations. *)
Definition scan_result (run : Sarif.Run) : string :=
  match Sarif.r_Invocations run with
  | [] => ScanResultUnknown
  | l => if forallb Sarif.in_ExecutionSuccessful l then ScanResultSucceeded else ScanResultFailed
  end.

(** The times of a run with one invocation, unless they are out of order. *)
Definition scan_times (run : Sarif.Run) : option time * option time :=
  match Sarif.r_Invocations run with
  | [i] =>
      let startedAt := parseSourceTime (Sarif.in_StartTimeUTC i) in
      let endedAt := parseSourceTime (Sarif.in_EndTimeUTC i) in
      match startedAt, endedAt with
      | Some a, Some b => if b <? a then (None, None) else (startedAt, endedAt)
      | _, _ => (startedAt, endedAt)
      end
  | _ => (None, None)
  end.

Definition mapScan (source : ProcessingSource) (document : Sarif.Document) (run : Sarif.Run) (id : string)
  (recordedAt : time) : ScanSpec :=
  let details := Sarif.r_AutomationDetails run in
  let detail f := match details with Some a => f a | None => "" end in
  {| sn_ID := id; sn_WorkspaceID := workspace source; sn_ImportID := import_id source;
     sn_ApplicationID := pt_ApplicationID (ps_Target source); sn_RawArtifactID := ps_RawArtifactID source;
     sn_AnalysisContextImportID := match ps_AnalysisContext source with Some _ => import_id source | None => "" end;
     sn_SourceRunIndex := Sarif.r_Index run; sn_Result := scan_result run;
     sn_Completeness := ScanCompletenessUnknown; sn_ScannerName := Sarif.t_Name (Sarif.r_Tool run);
     sn_ScannerFullName := Sarif.t_FullName (Sarif.r_Tool run);
     sn_ScannerVersion := Sarif.t_Version (Sarif.r_Tool run);
     sn_ScannerSemanticVersion := Sarif.t_SemanticVersion (Sarif.r_Tool run);
     sn_AutomationID := detail Sarif.ad_ID; sn_AutomationGUID := detail Sarif.ad_GUID;
     sn_AutomationCorrelationGUID := detail Sarif.ad_CorrelationGUID;
     sn_ParserName := Sarif.pa_Name (Sarif.d_Parser document);
     sn_ParserVersion := Sarif.pa_Version (Sarif.d_Parser document);
     sn_SourcePointer := Sarif.r_SourcePointer run; sn_SourceStartedAt := fst (scan_times run);
     sn_SourceEndedAt := snd (scan_times run); sn_RecordedAt := recordedAt;
     sn_Scope := {| sp_SchemaVersion := 1; sp_ScannerFamily := "unknown"; sp_ScannerInstanceID := "";
                    sp_ScannerConfigurationID := ""; sp_ScannerConfigurationHash := "";
                    sp_AnalysisKind := match ps_AnalysisContext source with
                                       | Some c => cx_AnalysisKind c
                                       | None => "unknown"
                                       end;
                    sp_CoverageMetadata := "" |} |}.

Definition map_location (l : Sarif.Location) : Finding.Location :=
  let part f := match Sarif.lo_Region l with Some r => f r | None => None end in
  {| Finding.Ordinal := Sarif.lo_Index l; Finding.l_SourcePointer := Sarif.lo_SourcePointer l;
     Finding.URI := Sarif.lo_URI l; Finding.URIBaseID := Sarif.lo_URIBaseID l;
     Finding.ArtifactIndex := Sarif.lo_ArtifactIndex l; Finding.StartLine := part Sarif.StartLine;
     Finding.StartColumn := part Sarif.StartColumn; Finding.EndLine := part Sarif.EndLine;
     Finding.EndColumn := part Sarif.EndColumn |}.

Definition map_fingerprint (kind : string) (v : Sarif.NamedValue) : Finding.SourceFingerprint := {|
  Finding.fp_Kind := kind; Finding.fp_Name := Sarif.nv_Name v; Finding.fp_Value := Sarif.nv_Value v |}.

Definition mapObservation (source : ProcessingSource) (document : Sarif.Document) (scanID : string)
  (result : Sarif.Result) (id : string) (recordedAt : time) : Finding.ObservationSpec := {|
  Finding.ID := id; Finding.WorkspaceID := workspace source; Finding.ScanID := scanID;
  Finding.RawArtifactID := ps_RawArtifactID source; Finding.SourceResultIndex := Sarif.re_Index result;
  Finding.ParserName := Sarif.pa_Name (Sarif.d_Parser document);
  Finding.ParserVersion := Sarif.pa_Version (Sarif.d_Parser document);
  Finding.SourcePointer := Sarif.re_SourcePointer result; Finding.SourceGUID := Sarif.re_GUID result;
  Finding.SourceCorrelationGUID := Sarif.re_CorrelationGUID result;
  Finding.SourceRuleID := Sarif.re_RuleID result; Finding.SourceRuleIndex := Sarif.re_RuleIndex result;
  Finding.SourceSeverity := Sarif.re_Level result; Finding.SourceKind := Sarif.re_Kind result;
  Finding.SourceBaselineState := Sarif.re_BaselineState result;
  Finding.MessageID := Sarif.m_ID (Sarif.re_Message result);
  Finding.MessageText := Sarif.m_Text (Sarif.re_Message result);
  Finding.MessageMarkdown := Sarif.m_Markdown (Sarif.re_Message result);
  Finding.MessageArguments := Sarif.m_Arguments (Sarif.re_Message result);
  Finding.Locations := map map_location (Sarif.re_Locations result);
  Finding.Fingerprints :=
    map (map_fingerprint Finding.FingerprintComplete) (Sarif.re_Fingerprints result) ++
    map (map_fingerprint Finding.FingerprintPartial) (Sarif.re_PartialFingerprints result);
  Finding.ObservedAt := None; Finding.RecordedAt := recordedAt |}.

(** [observation.ID = storedObservation.ID] *)
Definition with_id (id : string) (o : Finding.ObservationSpec) : Finding.ObservationSpec :=
  Finding.redelivered o (Finding.Locations o) (Finding.Fingerprints o) id (Finding.RecordedAt o).

Definition dispatch_spec (source : ProcessingSource) (scan : ScanSpec) (observationID : string)
  (n : Finding.StoredNormalization) (evaluatedAt : time) : Correlation.DispatchSpec := {|
  Correlation.d_WorkspaceID := workspace source; Correlation.d_ObservationID := observationID;
  Correlation.d_NormalizerName := Finding.sn_NormalizerName n;
  Correlation.d_NormalizerVersion := Finding.sn_NormalizerVersion n;
  Correlation.StableTargetIdentityKnown := negb (is_null (ps_AnalysisContext source));
  Correlation.AnalysisKind := sp_AnalysisKind (sn_Scope scan);
  Correlation.ScannerFamily := sp_ScannerFamily (sn_Scope scan);
  Correlation.SourceContextKnown := false; Correlation.SourceContextSafe := false;
  Correlation.d_EvaluatedAt := evaluatedAt |}.

(** ** The handler *)

Section Handler.
Context {pg : Postgres} {B : Type} `{BlobReader B}.
Variables (config : Config) (limits : Sarif.Limits) (authorize : AuthorizationRequest -> decision).

(** What the world does: the failures of the [k]-th call of a store and what
    others did to the database before it, the readings of the clock, the draws
    of twenty random bytes, the processing context each time the parser looks
    at it and whether its deadline has passed after a failed parse, and the
    buffers [io.ReadAll] reads a stream with. *)
Variables (plan : nat -> list fault) (others : nat -> database -> database).
Variables (now : nat -> time) (random : nat -> option string).
Variables (ctx : nat -> Blobstore.ctx_state) (timed_out : bool) (buffers : stream -> list Z).

Record world := World { db : database; blobs : B; calls : nat; readings : nat; draws : nat }.

(** One call of a store. *)
Definition ingest {A} (p : prog ingestion error A) (w : world) : result error A * world :=
  let d := others (calls w) (db w) in
  let '(r, i) := run_on p (ingestion_db d) (plan (calls w)) in
  (r, World (set_ingestion i d) (blobs w) (S (calls w)) (readings w) (draws w)).

Definition record_finding {E A} (p : prog Finding.findings E A) (w : world) : result E A * world :=
  let d := others (calls w) (db w) in
  let '(r, f) := run_on p (findings_of d) (plan (calls w)) in
  (r, World (set_findings f d) (blobs w) (S (calls w)) (readings w) (draws w)).

Definition read_clock (w : world) : time * world :=
  (now (readings w), World (db w) (blobs w) (calls w) (S (readings w)) (draws w)).

Definition timestamp (notBefore : time) (w : world) : time * world :=
  let '(t, w) := read_clock w in
  let value := truncate t in
  (if negb (IsZero notBefore) && (value <? notBefore) then truncate notBefore else value, w).

Definition identifier (prefix : string) (w : world) : option string * world :=
  (option_map (encode_id prefix) (random (draws w)),
   World (db w) (blobs w) (calls w) (readings w) (S (draws w))).

(** *** Failures *)

Definition failure (code title : string) : ProcessingFailure := {| pf_Code := code; pf_Title := title; pf_Detail := "" |}.

Definition permanent (i : ProcessingIdentity) (code title : string) (w : world) : Outcome * world :=
  let '(t, w) := timestamp 0 w in
  match ingest (FailProcessing i (failure code title) t) w with
  | (Ok _, w) | (Err ErrProcessingConflict, w) | (Err ErrProcessingNotFound, w) => (outcome OutcomePermanent code, w)
  | (Err _, w) => (outcome OutcomeRetryable "state-persistence-failed", w)
  end.

Definition retry (job : JobQueue.Job) (i : ProcessingIdentity) (code title : string) (w : world) : Outcome * world :=
  let '(t, w) := read_clock w in
  let exhausted := (0 <? JobQueue.MaxAttempts job) && (JobQueue.MaxAttempts job <=? JobQueue.AttemptCount job) in
  let tooOld := negb (IsZero (JobQueue.CreatedAt job)) &&
                (RetryMaximumAge config <=? Worker.Sub t (JobQueue.CreatedAt job)) in
  if exhausted || tooOld then permanent i code title w else (outcome OutcomeRetryable code, w).

Definition blobFailure (job : JobQueue.Job) (i : ProcessingIdentity) (err : Blobstore.error) (w : world)
  : Outcome * world :=
  match err with
  | Blobstore.ErrCanceled => (outcome OutcomeCancelled "", w)
  | Blobstore.ErrIntegrity | Blobstore.ErrInvalidKey =>
      permanent i "evidence-integrity-failed" "Stored evidence failed integrity verification" w
  | _ => retry job i "evidence-unavailable" "Stored evidence is temporarily unavailable" w
  end.

(** [strings.ReplaceAll(code, "_", "-")] *)
Definition dashes (s : string) : string := smap (fun c => if is_byte 95 c then chr 45 else c) s.

Definition parseFailure (job : JobQueue.Job) (i : ProcessingIdentity) (parseErr : Sarif.ParseError)
  (sourceErr : option Blobstore.error) (w : world) : Outcome * world :=
  match Sarif.Code parseErr with
  | Sarif.ErrorCancelled => (outcome OutcomeCancelled "", w)
  | Sarif.ErrorInputRead =>
      match sourceErr with
      | Some Blobstore.ErrIntegrity =>
          permanent i "evidence-integrity-failed" "Stored evidence failed integrity verification" w
      | _ => retry job i "evidence-read-failed" "Stored evidence could not be read" w
      end
  | code => permanent i ("sarif-" +:+ dashes (Sarif.code_text code)) "The SARIF report could not be processed" w
  end.

(** *** Steps that may return an outcome early *)

Definition handler (A : Type) : Type := world -> result Outcome A * world.
Definition hret {A} (a : A) : handler A := fun w => (Ok a, w).
Definition hbind {A C} (p : handler A) (k : A -> handler C) : handler C :=
  fun w => match p w with (Ok a, w) => k a w | (Err o, w) => (Err o, w) end.
Definition return_ {A} (f : world -> Outcome * world) : handler A := fun w => let '(o, w) := f w in (Err o, w).
(** A value that no outcome depends on. *)
Definition value {A} (f : world -> A * world) : handler A := fun w => let '(a, w) := f w in (Ok a, w).
(** A call whose errors are turned into outcomes. *)
Definition or_else {A E} (call : world -> result E A * world) (f : E -> world -> Outcome * world) : handler A :=
  fun w => match call w with (Ok a, w) => (Ok a, w) | (Err e, w) => return_ (f e) w end.

Local Notation "'let^' x := p 'in' k" := (hbind p (fun x => k)) (at level 10, x name, p at level 100, k at level 200).
Local Notation "'unless^' b 'do' f 'in' k" := (if b then k else return_ f)
  (at level 10, b at level 100, f at level 100, k at level 200).

Fixpoint for_all {A} (f : A -> handler unit) (l : list A) : handler unit :=
  match l with
  | [] => hret tt
  | a :: l => let^ _ := f a in for_all f l
  end.

Definition new_identifier (job : JobQueue.Job) (i : ProcessingIdentity) (prefix : string) : handler string :=
  let^ id := value (identifier prefix) in
  match id with
  | Some id => hret id
  | None => return_ (retry job i "identifier-generation-failed" "A secure record identifier could not be generated")
  end.

(** One result of a run: its observation, normalization and outcome. *)
Definition handle_result (job : JobQueue.Job) (i : ProcessingIdentity) (source : ProcessingSource)
  (document : Sarif.Document) (scan : ScanSpec) (scanID : string) (recordedAt : time) (r : Sarif.Result)
  : handler unit :=
  let^ observationID := new_identifier job i "obs_" in
  let observation := mapObservation source document scanID r observationID recordedAt in
  let^ stored := or_else (record_finding (Finding.RecordObservation observation))
    (fun err => match err with
                | Finding.ErrObservationConflict =>
                    permanent i "observation-output-conflict" "Observation output conflicts with retained history"
                | Finding.ErrInvalid =>
                    permanent i "observation-output-invalid" "Observation output is outside supported limits"
                | _ => retry job i "database-unavailable" "Observation output could not be stored"
                end) in
  let^ normalizedAt := value (timestamp (Finding.so_RecordedAt stored)) in
  match Normalizer.Normalize (Some Normalizer.New) (with_id (Finding.so_ID stored) observation) normalizedAt with
  | Err _ => return_ (permanent i "normalization-output-invalid" "Observation normalization failed")
  | Ok normalized =>
      let^ storedNormalization := or_else (record_finding (Finding.RecordNormalization normalized))
        (fun err => match err with
                    | Finding.ErrNormalizationConflict =>
                        permanent i "normalization-output-conflict" "Normalization output conflicts with retained history"
                    | Finding.ErrNormalizationInvalid | Finding.ErrObservationNotFound =>
                        permanent i "normalization-output-invalid" "Normalization output is outside supported limits"
                    | _ => retry job i "database-unavailable" "Normalization output could not be stored"
                    end) in
      let^ evaluatedAt := value (timestamp (Finding.sn_NormalizedAt storedNormalization)) in
      match Correlation.NewDispatchUncorrelated
              (dispatch_spec source scan (Finding.so_ID stored) storedNormalization evaluatedAt) with
      | Err _ => return_ (permanent i "correlation-output-invalid" "Correlation input is outside supported limits")
      | Ok outcome =>
          let^ _ := or_else (record_finding (Correlation.RecordUncorrelated outcome))
            (fun err => match err with
                        | Correlation.ErrOutcomeConflict =>
                            permanent i "correlation-output-conflict" "Correlation output conflicts with retained history"
                        | Correlation.ErrInvalid | Correlation.ErrNormalizationNotFound =>
                            permanent i "correlation-output-invalid" "Correlation output is outside supported limits"
                        | _ => retry job i "database-unavailable" "Correlation output could not be stored"
                        end) in
          hret tt
      end
  end.

(** One run: its scan and its results. *)
Definition handle_run (job : JobQueue.Job) (i : ProcessingIdentity) (source : ProcessingSource)
  (document : Sarif.Document) (recordedAt : time) (run : Sarif.Run) : handler unit :=
  let^ scanID := new_identifier job i "scan_" in
  let scan := mapScan source document run scanID recordedAt in
  let^ stored := or_else (ingest (RecordScan scan))
    (fun err => match err with
                | ErrScanConflict => permanent i "scan-output-conflict" "Scan output conflicts with retained history"
                | ErrInvalid => permanent i "scan-output-invalid" "Scan output is outside supported limits"
                | _ => retry job i "database-unavailable" "Scan output could not be stored"
                end) in
  for_all (handle_result job i source document scan (st_ID stored) recordedAt) (Sarif.r_Results run).

(** The import context is the one the service accepts. *)
Definition supported_context (c : option AnalysisContext) : bool :=
  match c with
  | None => true
  | Some c => String.eqb (cx_AnalysisKind c) AnalysisKindSAST && String.eqb (cx_TargetType c) AnalysisTargetRepository &&
              negb (String.eqb (cx_TargetID c) "") && negb (String.eqb (cx_TargetRelationshipID c) "") &&
              String.eqb (cx_AssertionSource c) AssertionSourceAPIClient &&
              negb (String.eqb (cx_AssertedByPrincipalID c) "") && negb (IsZero (cx_AcceptedAt c))
  end.

Definition supported_format (f : ReportFormat) : bool :=
  String.eqb (rf_Name f) Sarif.Format &&
  (String.eqb (rf_Version f) "" || String.eqb (rf_Version f) Sarif.FormatVersion).

Definition valid_evidence (s : ProcessingSource) : bool :=
  (0 <? ps_MaxBytes s) && (0 <=? ps_SizeBytes s) && (ps_SizeBytes s <=? ps_MaxBytes s) &&
  Blobstore.validSHA256 (ps_SHA256 s).

(** The stream is parsed and closed; [buffers] are enough to read it, so that
    the parser answers. *)
Definition parse_stream (r : ReadCloser) : result Sarif.ParseError Sarif.Document * option Blobstore.error :=
  match Sarif.Parse tracked_read (buffers (content r)) (Some limits) (Some ctx) (Some (content r, None)) with
  | Some (answer, Some (_, err)) => (answer, err)
  | _ => (Err (Sarif.newParseError Sarif.ErrorInputRead ""), None)
  end.

(** Resolving, authorizing and starting. *)
Definition begin_processing (job : JobQueue.Job) (i : ProcessingIdentity) : handler ProcessingSource :=
  let^ target := or_else (ingest (ResolveProcessingTarget i))
    (fun err => match err with
                | ErrProcessingNotFound | ErrInvalid => fun w => (outcome OutcomePermanent "processing-target-not-found", w)
                | _ => retry job i "database-unavailable" "Import processing storage is unavailable"
                end) in
  match authorize (Build_AuthorizationRequest (pi_PrincipalID i) (pi_WorkspaceID i) (pt_ApplicationID target)
                     (pi_JobCapability i)) with
  | Forbidden => return_ (permanent i "authorization-denied" "Import processing authorization was denied")
  | Unavailable => return_ (retry job i "authorization-unavailable" "Import processing authorization is unavailable")
  | Allowed =>
      match terminalOutcome (pt_State target) (pt_FailureCode target) with
      | Some o => return_ (fun w => (o, w))
      | None =>
          let^ startedAt := value (timestamp 0) in
          or_else (ingest (BeginProcessing i startedAt))
            (fun err => match err with
                        | ErrProcessingNotFound | ErrProcessingConflict | ErrInvalid =>
                            permanent i "processing-state-conflict" "Import processing state is inconsistent"
                        | _ => retry job i "database-unavailable" "Import processing storage is unavailable"
                        end)
      end
  end.

(** Reading and parsing the committed evidence. *)
Definition open_blob (key : Blobstore.Key) (w : world)
  : result Blobstore.error (ReadCloser * Blobstore.Metadata) * world :=
  let '(r, b) := Open key (blobs w) in (r, World (db w) b (calls w) (readings w) (draws w)).

Definition read_evidence (job : JobQueue.Job) (i : ProcessingIdentity) (source : ProcessingSource)
  : handler Sarif.Document :=
  unless^ supported_context (ps_AnalysisContext source)
    do permanent i "processing-state-conflict" "Import analysis context is inconsistent" in
  unless^ supported_format (ps_ReportFormat source)
    do permanent i "unsupported-report-format" "The report format is not supported" in
  unless^ String.eqb (ps_StorageBackend source) (StorageBackend config)
    do retry job i "storage-backend-unavailable" "The evidence storage backend is unavailable" in
  unless^ valid_evidence source
    do permanent i "evidence-integrity-failed" "Committed evidence metadata is invalid" in
  match Blobstore.ParseKey (ps_StorageKey source) with
  | Err _ => return_ (permanent i "evidence-reference-invalid" "The evidence reference is invalid")
  | Ok key =>
      let^ opened := or_else (open_blob key) (blobFailure job i) in
      unless^ matchingEvidence source (snd opened)
        do permanent i "evidence-integrity-failed" "Stored evidence did not match committed metadata" in
      match parse_stream (fst opened) with
      | (Err err, tracked) =>
          if timed_out then return_ (retry job i "processing-timeout" "Import processing exceeded its time limit")
          else return_ (parseFailure job i err tracked)
      | (Ok document, _) =>
          unless^ negb (close_fails (fst opened))
            do retry job i "evidence-read-failed" "Stored evidence could not be read" in
          hret document
      end
  end.

(** Recording the output and publishing the result. *)
Definition record_document (job : JobQueue.Job) (i : ProcessingIdentity) (source : ProcessingSource)
  (document : Sarif.Document) : handler unit :=
  let^ recordedAt := value (timestamp (ps_ReceivedAt source)) in
  let^ _ := or_else (ingest (RecordParseOutput (mapParseOutput source document recordedAt)))
    (fun err => match err with
                | ErrParseOutputConflict => permanent i "parser-output-conflict" "Parser output conflicts with retained history"
                | ErrInvalid => permanent i "parser-output-invalid" "Parser output is outside supported limits"
                | _ => retry job i "database-unavailable" "Parser output could not be stored"
                end) in
  let^ _ := for_all (handle_run job i source document recordedAt) (Sarif.d_Runs document) in
  let^ finishedAt := value (timestamp (ps_ReceivedAt source)) in
  or_else (ingest (CompleteProcessing i (Sarif.len (Sarif.d_Runs document)) finishedAt))
    (fun err => match err with
                | ErrProcessingConflict | ErrProcessingNotFound | ErrInvalid =>
                    permanent i "processing-state-conflict" "Import processing state is inconsistent"
                | _ => retry job i "database-unavailable" "Import processing result could not be stored"
                end).

Definition process_import (job : JobQueue.Job) (i : ProcessingIdentity) : handler unit :=
  let^ source := begin_processing job i in
  match terminalOutcome (pt_State (ps_Target source)) (pt_FailureCode (ps_Target source)) with
  | Some o => return_ (fun w => (o, w))
  | None =>
      let^ document := read_evidence job i source in
      record_document job i source document
  end.

Definition Handle (job : JobQueue.Job) (w : world) : Outcome * world :=
  match decodeJob job with
  | None => (outcome OutcomePermanent "invalid-import-job", w)
  | Some i =>
      match process_import job i w with
      | (Ok _, w) => (outcome OutcomeSucceeded "", w)
      | (Err o, w) => (o, w)
      end
  end.
End Handler.
End ImportJob.
