(* ===== verification/Pipeline.v ===== *)
(** * The ingestion pipeline as one system

    [Module Pipeline] runs every store operation of the ingestion package, of
    the catalog and of the job queue on one database, in any order, on
    connections that may fail at any call, and proves what holds in every
    state: imports, their evidence, their operations and their jobs agree;
    what was accepted is never lost or changed; and the two idempotent writes
    answer retries with the original. *)

From S2P Require Import Prelude GoStrings Encoding Txn Json JsonFacts Queue Lifecycle QueueRefinement QueueTheorems.
From S2P Require Import Records Idempotency Catalog Blobstore Uploads Scans Ingestion Processing.

Local Open Scope Z_scope.

Module Pipeline.
Import Idempotency Uploads Scans Ingestion Processing.

Section Effects.
Context {pg : Postgres}.

(** ** Reserve *)

Lemma reserve_rows_no_commit s : no_commit (reserve_rows s).
Proof.
  unfold reserve_rows. destruct (rs_RequestExceedsLimit s); [constructor|].
  destruct (optionalDigest _) as [dg|]; [|constructor]. simpl. constructor. intros known.
  destruct (negb known); [constructor|]. destruct (i_AnalysisContext _); simpl; repeat constructor.
Qed.

Lemma Reserve_exec lk s d : exec (Reserve lk s) d =
  if negb (lk ("open-aspm-import-idempotency:" +:+ idempotencyLockKey s)) then (Err ErrIdempotencyInProgress, d)
  else record_outcome (claim_reservation s) (selectReservation (reserve_scope s))
         (ErrDatabase "claim import idempotency key") (ErrDatabase "read import reservation replay")
         ErrIdempotencyConflict (rs_RequestFingerprint s) (run_in (reserve_rows s))
         {| rv_Import := rs_Import s; rv_Created := true |} d.
Proof.
  unfold exec, run_on, Reserve. rewrite run_begin. unfold query.
  cbn [bind run next_fault faults tick tail working committed].
  destruct (negb (lk _)); [done|].
  rewrite <- (record_run (ErrDatabase "claim import idempotency key") (claim_reservation s)
    (ErrDatabase "read import reservation replay") (selectReservation (reserve_scope s))
    (ErrDatabase "read import reservation replay") ErrIdempotencyConflict
    (ErrDatabase "finish import reservation replay") (ErrDatabase "commit import reservation")
    (rs_RequestFingerprint s) (reserve_rows s) {| rv_Import := rs_Import s; rv_Created := true |} d
    (run_in (reserve_rows s)) (fun d1 => no_commit_run _ d d1 (reserve_rows_no_commit s))).
  by destruct (run _ _).
Qed.

Lemma Reserve_atomic lk s : atomic (Reserve lk s).
Proof.
  unfold Reserve. simpl. constructor. constructor. intros b.
  destruct (negb b); [constructor|]. apply record_in_tx, reserve_rows_no_commit.
Qed.

Definition reserve_claim (s : reserveSpec) : claim :=
  Claim (rs_RequestFingerprint s) (i_ID (rs_Import s)) (store_time (i_CreatedAt (rs_Import s)))
        (store_time (rs_IdempotencyExpiresAt s)).

Definition reserve_key (s : reserveSpec) : string * string := (i_WorkspaceID (rs_Import s), i_ID (rs_Import s)).

Definition reserved_context (i : Import) : option context_row :=
  option_map (fun c => {| cx_application := i_ApplicationID i; cx_value := stored_context c |}) (i_AnalysisContext i).

(** The database after a fresh reservation. *)
Definition reserved (s : reserveSpec) (digest : option string) (d : ingestion) : ingestion :=
  MkIngestion (catalog_db d)
    (Uploads (<[reserve_key s := new_import (rs_Import s) digest]> (imports (upload_db d)))
             (<[reserve_key s := pending_artifact s]> (artifacts (upload_db d))))
    (queue_db d)
    (match reserved_context (rs_Import s) with Some c => <[reserve_key s := c]> (contexts d) | None => contexts d end)
    (<[reserve_scope s := reserve_claim s]> (create_claims d)) (operations d) (complete_claims d) (evidence_db d).

(** What has to hold for one. *)
Definition reservable (s : reserveSpec) (digest : option string) (d : ingestion) : Prop :=
  rs_RequestExceedsLimit s = false /\ optionalDigest (i_ExpectedSHA256 (rs_Import s)) = Ok digest /\
  create_claims d !! reserve_scope s = None /\ imports (upload_db d) !! reserve_key s = None /\
  artifacts (upload_db d) !! reserve_key s = None /\
  (i_AnalysisContext (rs_Import s) <> None -> contexts d !! reserve_key s = None) /\
  application_known (rs_Import s) d = true.

Lemma claim_reservation_cases s d rows d' : claim_reservation s d = Some (rows, d') ->
  check_claim (reserve_scope s) (reserve_claim s) = true /\
  ((rows = 0 /\ d' = d /\ is_Some (create_claims d !! reserve_scope s)) \/
   (rows = 1 /\ d' = set_create_claims (<[reserve_scope s := reserve_claim s]> (create_claims d)) d /\
    create_claims d !! reserve_scope s = None)).
Proof.
  unfold claim_reservation. fold (reserve_claim s). destruct (insert_claim _ _ _ _) as [[n t]|] eqn:Ei; [|done].
  intros [= <- <-]. apply insert_claim_cases in Ei as [Hck [(-> & -> & Hs)|(-> & -> & Hn & _)]]; split; [done| |done|].
  - left. split_and!; [done| |done]. by destruct d.
  - right. done.
Qed.

Lemma reserve_rows_ok s d u d' : run_in (reserve_rows s) d = (Ok u, d') ->
  create_claims d !! reserve_scope s = Some (reserve_claim s) ->
  exists digest, rs_RequestExceedsLimit s = false /\ optionalDigest (i_ExpectedSHA256 (rs_Import s)) = Ok digest /\
    imports (upload_db d) !! reserve_key s = None /\ artifacts (upload_db d) !! reserve_key s = None /\
    (i_AnalysisContext (rs_Import s) <> None -> contexts d !! reserve_key s = None) /\
    application_known (rs_Import s) d = true /\ d' = reserved s digest d.
Proof.
  intros Hr Hcl. unfold reserve_rows in Hr. destruct (rs_RequestExceedsLimit s); [done|].
  destruct (optionalDigest _) as [digest|]; [|done]. exists digest.
  rewrite run_in_bind in Hr; [|constructor; constructor|].
  2:{ intros known. destruct (negb known); [constructor|]. destruct (i_AnalysisContext _); simpl; repeat constructor. }
  rewrite run_in_statement in Hr. unfold insert_import in Hr. fold (reserve_key s) in Hr.
  destruct (negb _ || _) eqn:Ei; [done|]. destruct (application_known (rs_Import s) d) eqn:Ea; [|done]. simpl in Hr.
  simp_bool. destruct (imports (upload_db d) !! reserve_key s) eqn:Eim; [done|].
  rewrite run_in_bind in Hr; [|destruct (i_AnalysisContext _); constructor; constructor|repeat constructor].
  unfold reserved, reserved_context. destruct (i_AnalysisContext (rs_Import s)) as [c|] eqn:Ec; simpl option_map.
  - rewrite run_in_statement in Hr. unfold insert_context in Hr. fold (reserve_key s) in Hr.
    destruct (_ && _) eqn:Ex; [|done]. simp_bool. destruct (contexts _ !! _) eqn:Ecx; [done|].
    rewrite run_in_statement in Hr. unfold insert_pending in Hr. fold (reserve_key s) in Hr.
    destruct (_ && _) eqn:Ep; [|done]. simp_bool. injection Hr as <- <-. simpl in *.
    unfold artifact_free in *. fold (reserve_key s) in *. simp_bool. simpl in *.
    destruct (artifacts (upload_db d) !! reserve_key s) eqn:Ear; [done|].
    split_and!; try done. by rewrite (insert_id (create_claims d)).
  - rewrite run_in_done, run_in_statement in Hr. unfold insert_pending in Hr. fold (reserve_key s) in Hr.
    destruct (_ && _) eqn:Ep; [|done]. simp_bool. injection Hr as <- <-. simpl in *.
    unfold artifact_free in *. fold (reserve_key s) in *. simp_bool. simpl in *.
    destruct (artifacts (upload_db d) !! reserve_key s) eqn:Ear; [done|].
    split_and!; try done. by rewrite (insert_id (create_claims d)).
Qed.

(** A successful reservation: the original is returned and nothing changes,
    or everything is stored under a fresh claim. *)
Lemma Reserve_ok lk s d out d' : exec (Reserve lk s) d = (Ok out, d') ->
  (d' = d /\ selectReservation (reserve_scope s) d = Some (out, rs_RequestFingerprint s)) \/
  (exists digest, reservable s digest d /\ d' = reserved s digest d /\
     out = {| rv_Import := rs_Import s; rv_Created := true |}).
Proof.
  rewrite Reserve_exec. destruct (negb (lk _)); [done|]. intros Hx.
  apply record_outcome_ok in Hx as [(fp & Hi & Hf & Hs)|(rows & d1 & Hi & Hr & -> & Hx)].
  - apply claim_reservation_cases in Hi as [_ [(_ & -> & _)|(? & _)]]; [|done]. left. split; [done|].
    unfold same_fp, text_fingerprint in Hs. simp_bool. by subst.
  - apply claim_reservation_cases in Hi as [_ [(-> & _)|(_ & -> & Hn)]]; [done|]. right.
    apply reserve_rows_ok in Hx as (dg & H1 & H2 & H3 & H4 & H5 & H6 & ->); [|simpl; by rewrite lookup_insert_eq].
    exists dg. split_and!; try done. unfold reserved. simpl. by rewrite insert_insert_eq.
Qed.

(** ** Complete *)

Lemma EnqueueTx_no_commit q spec : no_commit (JobQueue.EnqueueTx q spec).
Proof.
  unfold JobQueue.EnqueueTx, JobQueue.enqueue. destruct (JobQueue.fingerprintSpec spec) as [[canonical fp]|]; [|constructor].
  destruct (JobQueue.randomID q "job_" 20); [|constructor]. simpl. constructor. intros rows. constructor.
  intros [r|]; simpl; [|constructor]. destruct (_ && _); constructor.
Qed.

(** Programs that only run statements. *)
Ltac no_commits :=
  repeat first [apply EnqueueTx_no_commit | apply zoom_no_commit | apply no_commit_bind | constructor
               | intros ? | case_match].

Lemma EnqueueTx_run_in q spec d : Lifecycle.invariant d ->
  run_in (JobQueue.EnqueueTx q spec) d = QueueSpec.enqueue_spec q spec d.
Proof.
  intros I. unfold run_in. rewrite QueueSpec.EnqueueTx_refines by done. by destruct (QueueSpec.enqueue_spec q spec d).
Qed.

Lemma publish_rows_no_commit q s : no_commit (publish_rows q s).
Proof. unfold publish_rows. no_commits. Qed.

Lemma publish_no_commit q s : no_commit (publish_completion q s).
Proof.
  unfold publish_completion. simpl. constructor. intros [[st ast]|]; [|constructor].
  destruct (_ || _); [constructor|]. apply publish_rows_no_commit.
Qed.

Lemma Complete_exec lk q s d : exec (Complete lk q s) d =
  if negb (lk ("open-aspm-import-idempotency:" +:+ completionLockKey s)) then (Err ErrIdempotencyInProgress, d)
  else record_outcome (claim_completion s) (selectCompletion s)
         (ErrDatabase "claim import completion idempotency key") ErrImportNotFound
         ErrIdempotencyConflict (ct_RequestFingerprint s) (run_in (publish_completion q s))
         {| cp_Operation := ct_Operation s; cp_Created := true |} d.
Proof.
  unfold exec, run_on, Complete. rewrite run_begin. unfold query.
  cbn [bind run next_fault faults tick tail working committed].
  destruct (negb (lk _)); [done|].
  rewrite <- (record_run (ErrDatabase "claim import completion idempotency key") (claim_completion s)
    (ErrDatabase "read import completion replay") (selectCompletion s) ErrImportNotFound ErrIdempotencyConflict
    (ErrDatabase "finish import completion replay") (ErrDatabase "commit import completion")
    (ct_RequestFingerprint s) (publish_completion q s) {| cp_Operation := ct_Operation s; cp_Created := true |} d
    (run_in (publish_completion q s)) (fun d1 => no_commit_run _ d d1 (publish_no_commit q s))).
  by destruct (run _ _).
Qed.

Lemma Complete_atomic lk q s : atomic (Complete lk q s).
Proof.
  unfold Complete. simpl. constructor. constructor. intros b.
  destruct (negb b); [constructor|]. apply record_in_tx, publish_no_commit.
Qed.

Definition complete_claim (s : completeSpec) : claim :=
  Claim (ct_RequestFingerprint s) (o_ID (ct_Operation s)) (store_time (o_CreatedAt (ct_Operation s)))
        (store_time (ct_IdempotencyExpiresAt s)).

Definition complete_key (s : completeSpec) : string * string :=
  (o_WorkspaceID (ct_Operation s), o_ImportID (ct_Operation s)).
Definition new_operation_key (s : completeSpec) : string * string :=
  (o_WorkspaceID (ct_Operation s), o_ID (ct_Operation s)).

(** The database after a fresh completion. *)
Definition completed (s : completeSpec) (im : import_row) (q : JobQueue.database) (d : ingestion) : ingestion :=
  MkIngestion (catalog_db d)
    (Uploads (<[complete_key s := set_import_state ImportQueued (store_time (o_UpdatedAt (ct_Operation s))) im]>
                (imports (upload_db d))) (artifacts (upload_db d)))
    q (contexts d) (create_claims d)
    (<[new_operation_key s := new_operation (ct_Operation s)]> (operations d))
    (<[complete_scope s := complete_claim s]> (complete_claims d)) (evidence_db d).

(** What has to hold for one: the caller's uploaded import with committed
    evidence and no operation, and the job that the queue answers with. *)
Record completable (q : JobQueue.env) (s : completeSpec) (im : import_row) (a : artifact_row)
  (job : JobQueue.Job * bool) (qd : JobQueue.database) (d : ingestion) : Prop := {
  cb_claim : complete_claims d !! complete_scope s = None;
  cb_import : imports (upload_db d) !! complete_key s = Some im;
  cb_state : im_state im = ImportUploaded;
  cb_caller : im_application im = ct_ApplicationID s /\ im_creator im = ct_PrincipalID s;
  cb_artifact : artifacts (upload_db d) !! complete_key s = Some a;
  cb_evidence : ar_state a = rawArtifactCommitted;
  cb_row : check_operation (o_ID (ct_Operation s)) (new_operation (ct_Operation s)) = true;
  cb_free : operation_free (o_WorkspaceID (ct_Operation s)) (o_ID (ct_Operation s)) (o_ImportID (ct_Operation s))
              (o_Kind (ct_Operation s)) d = true;
  cb_job : QueueSpec.enqueue_spec q (process_job s) (queue_db d) = (Ok job, qd)
}.

Lemma claim_completion_cases s d rows d' : claim_completion s d = Some (rows, d') ->
  check_claim (complete_scope s) (complete_claim s) = true /\
  ((rows = 0 /\ d' = d /\ is_Some (complete_claims d !! complete_scope s)) \/
   (rows = 1 /\ d' = set_complete_claims (<[complete_scope s := complete_claim s]> (complete_claims d)) d /\
    complete_claims d !! complete_scope s = None)).
Proof.
  unfold claim_completion. fold (complete_claim s). destruct (insert_claim _ _ _ _) as [[n t]|] eqn:Ei; [|done].
  intros [= <- <-]. apply insert_claim_cases in Ei as [Hck [(-> & -> & Hs)|(-> & -> & Hn & _)]]; split; [done| |done|].
  - left. split_and!; [done| |done]. by destruct d.
  - right. done.
Qed.

(** The statements that publish, when they all succeed. *)
Lemma publish_rows_ok q s im d u d' : Lifecycle.invariant (queue_db d) ->
  imports (upload_db d) !! complete_key s = Some im -> im_state im = ImportUploaded ->
  run_in (publish_rows q s) d = (Ok u, d') ->
  exists job qd, check_operation (o_ID (ct_Operation s)) (new_operation (ct_Operation s)) = true /\
    operation_free (o_WorkspaceID (ct_Operation s)) (o_ID (ct_Operation s)) (o_ImportID (ct_Operation s))
      (o_Kind (ct_Operation s)) d = true /\
    QueueSpec.enqueue_spec q (process_job s) (queue_db d) = (Ok job, qd) /\
    d' = set_uploads (Uploads (<[complete_key s := set_import_state ImportQueued (store_time (o_UpdatedAt (ct_Operation s))) im]>
                (imports (upload_db d))) (artifacts (upload_db d)))
           (set_queue qd (set_operations (<[new_operation_key s := new_operation (ct_Operation s)]> (operations d)) d)).
Proof.
  intros I Him Hst Hr. unfold publish_rows in Hr.
  rewrite run_in_bind, run_in_statement in Hr by no_commits. unfold insert_operation in Hr.
  destruct (_ && _) eqn:Eo; [|done]. apply andb_prop in Eo as [Eo1 Eo2].
  rewrite run_in_bind, run_in_zoom in Hr by no_commits.
  change (view (set_operations _ d)) with (queue_db d) in Hr. rewrite EnqueueTx_run_in in Hr by done.
  destruct (QueueSpec.enqueue_spec q (process_job s) (queue_db d)) as [[job|] qd] eqn:Eq; [|done].
  cbn [map_err fst snd] in Hr. rewrite run_in_bind, run_in_statement in Hr by no_commits.
  unfold zoom_statement, update_import in Hr. simpl in Hr. fold (complete_key s) in Hr.
  rewrite Him in Hr. unfold is_uploaded in Hr. rewrite bool_decide_eq_true_2 in Hr by done.
  destruct (check_import _); [|done]. injection Hr as <- <-. by exists job, qd.
Qed.

Lemma Complete_ok lk q s d out d' : Lifecycle.invariant (queue_db d) -> exec (Complete lk q s) d = (Ok out, d') ->
  (d' = d /\ selectCompletion s d = Some (out, ct_RequestFingerprint s)) \/
  (exists im a job qd, completable q s im a job qd d /\ d' = completed s im qd d /\
     out = {| cp_Operation := ct_Operation s; cp_Created := true |}).
Proof.
  intros I. rewrite Complete_exec. destruct (negb (lk _)); [done|]. intros Hx.
  apply record_outcome_ok in Hx as [(fp & Hi & Hf & Hs)|(rows & d1 & Hi & Hr & -> & Hx)].
  - apply claim_completion_cases in Hi as [_ [(_ & -> & _)|(? & _)]]; [|done]. left. split; [done|].
    unfold same_fp, text_fingerprint in Hs. simp_bool. by subst.
  - apply claim_completion_cases in Hi as [_ [(-> & _)|(_ & -> & Hn)]]; [done|]. right.
    unfold publish_completion in Hx. rewrite run_in_bind, run_in_query in Hx; [|no_commits|].
    2:{ intros [[st ast]|]; [|constructor]. destruct (_ || _); [constructor|]. apply publish_rows_no_commit. }
    unfold find_completable in Hx. simpl upload_db in Hx. fold (complete_key s) in Hx.
    destruct (imports (upload_db d) !! complete_key s) as [im|] eqn:Eim; [|done].
    destruct (_ && _) eqn:Ecaller; [|done]. destruct (negb _ || _) eqn:Est; [done|]. simp_bool.
    destruct (artifacts (upload_db d) !! complete_key s) as [a|] eqn:Ea; [|done].
    apply (publish_rows_ok q s im) in Hx as (job & qd & ? & ? & ? & ->); [|done..].
    exists im, a, job, qd. split_and!; try done. split; try done. by simplify_eq/=.
Qed.

(** ** Processing *)

(** The three transitions of an operation together with its import. *)
Inductive move :=
| MoveStart (at_ : time)
| MoveSucceed (result : string) (at_ : time)
| MoveFail (f : ProcessingFailure) (at_ : time).

Definition move_operation (m : move) : operation_row -> operation_row :=
  match m with
  | MoveStart t => start_operation t
  | MoveSucceed j t => succeed_operation j t
  | MoveFail f t => fail_operation f t
  end.

Definition move_import (m : move) (im : import_row) : import_row :=
  match m with
  | MoveStart t => set_import_state ImportProcessing (store_time t) im
  | MoveSucceed _ t => set_import_state ImportSucceeded (store_time t) im
  | MoveFail _ t => set_import_state ImportFailed (store_time t) im
  end.

(** From which states. *)
Definition move_allowed (m : move) (op : operation_row) (im : import_row) : bool :=
  match m with
  | MoveStart _ | MoveFail _ _ => is_open (op_state op) && import_open (im_state im)
  | MoveSucceed _ _ => is_running (op_state op) && import_processing (im_state im)
  end.

Definition moved (i : ProcessingIdentity) (m : move) (op : operation_row) (im : import_row) (d : ingestion) : ingestion :=
  set_operations (<[operation_key i := move_operation m op]> (operations d))
    (set_uploads (Uploads (<[import_key i := move_import m im]> (imports (upload_db d))) (artifacts (upload_db d))) d).

(** One transition of the pair: found, allowed, and within the constraints. *)
Record can_move (i : ProcessingIdentity) (m : move) (op : operation_row) (im : import_row) (d : ingestion) : Prop := {
  cm_found : find_processing i d = Some (op, im);
  cm_allowed : move_allowed m op im = true;
  cm_row : check_operation (pi_OperationID i) (move_operation m op) = true
}.

Lemma find_processing_spec i d op im : find_processing i d = Some (op, im) ->
  operations d !! operation_key i = Some op /\ imports (upload_db d) !! import_key i = Some im /\
  op_import op = pi_ImportID i /\ op_creator op = pi_PrincipalID i /\ op_kind op = importProcessKind.
Proof.
  unfold find_processing. destruct (operations d !! operation_key i) as [op'|]; [|done].
  destruct (imports _ !! import_key i) as [im'|]; [|done]. destruct (_ && _) eqn:E; [|done].
  intros [= -> ->]. by simp_bool.
Qed.

Lemma update_operation_hit key cond f d r : operations d !! key = Some r -> cond (op_state r) = true ->
  update_operation key cond f d =
  if check_operation (snd key) (f r) then Some (1, set_operations (<[key := f r]> (operations d)) d) else None.
Proof. intros Hr Hc. unfold update_operation. by rewrite Hr, Hc. Qed.

Lemma update_import_hit key (cond : import_row -> bool) st at_ d r : imports (upload_db d) !! key = Some r -> cond r = true ->
  zoom_statement (update_import key cond st at_) d =
  if check_import (set_import_state st (store_time at_) r)
  then Some (1, set_uploads (Uploads (<[key := set_import_state st (store_time at_) r]> (imports (upload_db d)))
                                     (artifacts (upload_db d))) d) else None.
Proof.
  intros Hr Hc. unfold zoom_statement, update_import. cbn [view upload_lens]. rewrite Hr, Hc. by destruct (check_import _).
Qed.

Lemma BeginProcessing_effect i t d r d' : exec (BeginProcessing i t) d = (r, d') ->
  (exists e, r = Err e /\ d' = d) \/
  (exists op im a c s0, find_source i d = Some (op, im, a, c) /\ scanned_source i op im a = Some s0 /\
     ((finished_state (op_state op) = true /\ r = Ok s0 /\ d' = d) \/
      (processable op im a s0 = true /\ r = Ok (complete_source im a c s0) /\
       can_move i (MoveStart t) op im d /\ d' = moved i (MoveStart t) op im d))).
Proof.
  unfold exec, run_on, BeginProcessing. destruct (_ || _) eqn:Ev; [intros [= <- <-]; left; eauto|].
  rewrite run_begin. unfold query. cbn [bind run next_fault faults tick tail working committed].
  destruct (find_source i d) as [[[[op im] a] c]|] eqn:Ef; [|intros [= <- <-]; left; eauto].
  destruct (scanned_source i op im a) as [s0|] eqn:Es; [|intros [= <- <-]; left; eauto].
  destruct (finished_state (op_state op)) eqn:Efin.
  { simpl. intros [= <- <-]. right. exists op, im, a, c, s0. split_and!; [done..|]. by left. }
  destruct (negb (processable op im a s0)) eqn:Ep; [intros [= <- <-]; left; eauto|]. simp_bool.
  assert (find_processing i d = Some (op, im)) as Hfp.
  { unfold find_source in Ef. destruct (find_processing i d) as [[op' im']|]; [|done].
    destruct (artifacts _ !! _); [|done]. destruct (bool_decide _); [|done]. by simplify_eq. }
  pose proof (find_processing_spec _ _ _ _ Hfp) as (Hop & Him & _).
  pose proof Ep as Eall. unfold processable in Eall. simp_bool.
  rewrite run_statement, (update_operation_hit _ _ _ _ op) by done.
  destruct (check_operation _ _) eqn:Eck; [|intros [= <- <-]; left; eauto].
  rewrite run_statement, (update_import_hit _ _ _ _ _ im) by done.
  destruct (check_import _); [|intros [= <- <-]; left; eauto]. simpl. intros [= <- <-].
  right. exists op, im, a, c, s0. split_and!; [done..|]. right. split_and!; [done|done| |done].
  split; [done| |done]. simpl. by apply andb_true_iff.
Qed.

Lemma CompleteProcessing_effect i n t d r d' : exec (CompleteProcessing i n t) d = (r, d') ->
  (exists e, r = Err e /\ d' = d) \/
  (exists op im, find_processing i d = Some (op, im) /\ r = Ok tt /\
     ((op_state op = OperationSucceeded /\ same_result i n op im = true /\ d' = d) \/
      (exists j, jsonb_in (print (result_json (pi_ImportID i) n)) = Some j /\
         can_move i (MoveSucceed j t) op im d /\ d' = moved i (MoveSucceed j t) op im d))).
Proof.
  unfold exec, run_on, CompleteProcessing. destruct (_ || _) eqn:Ev; [intros [= <- <-]; left; eauto|].
  rewrite run_begin. unfold query. cbn [bind run next_fault faults tick tail working committed].
  destruct (find_processing i d) as [[op im]|] eqn:Ef; [|intros [= <- <-]; left; eauto].
  pose proof (find_processing_spec _ _ _ _ Ef) as (Hop & Him & _).
  destruct (op_state op) eqn:Eop; try (intros [= <- <-]; left; eauto; fail).
  - destruct (import_processing (im_state im)) eqn:Eim; [|intros [= <- <-]; left; eauto]. cbn [is_running negb orb].
    rewrite run_statement, (update_import_hit _ _ _ _ _ im) by done.
    destruct (check_import _); [|intros [= <- <-]; left; eauto].
    rewrite run_statement. unfold publish_result. destruct (jsonb_in _) as [j|] eqn:Ej; [|intros [= <- <-]; left; eauto].
    rewrite (update_operation_hit _ _ _ _ op) by (done || by rewrite Eop).
    destruct (check_operation _ _) eqn:Eck; [|intros [= <- <-]; left; eauto]. simpl. intros [= <- <-].
    right. exists op, im. split_and!; [done..|]. right. exists j. split_and!; [done| |done].
    split; [done| |done]. simpl. by rewrite Eop, Eim.
  - destruct (same_result i n op im) eqn:Es; simpl; intros [= <- <-]; [|left; eauto].
    right. exists op, im. split_and!; [done..|]. by left.
Qed.

Lemma FailProcessing_effect i f t d r d' : exec (FailProcessing i f t) d = (r, d') ->
  (exists e, r = Err e /\ d' = d) \/
  (exists op im, find_processing i d = Some (op, im) /\ r = Ok tt /\
     ((op_state op = OperationFailed /\ op_failure_code op = Some (pf_Code f) /\ im_state im = ImportFailed /\ d' = d) \/
      (can_move i (MoveFail f t) op im d /\ d' = moved i (MoveFail f t) op im d))).
Proof.
  unfold exec, run_on, FailProcessing. destruct (_ || _) eqn:Ev; [intros [= <- <-]; left; eauto|].
  rewrite run_begin. unfold query. cbn [bind run next_fault faults tick tail working committed].
  destruct (find_processing i d) as [[op im]|] eqn:Ef; [|intros [= <- <-]; left; eauto].
  pose proof (find_processing_spec _ _ _ _ Ef) as (Hop & Him & _).
  assert (is_open (op_state op) = true -> import_open (im_state im) = true -> (let '(r0, s0) := run
    (do! statement (ErrDatabase "fail processed import")
           (zoom_statement (update_import (import_key i) (fun r => import_open (im_state r)) ImportFailed t)) in
     do! statement (ErrDatabase "fail import operation") (publish_failure (operation_key i) f t) in
     commit (ErrDatabase "commit failed import processing")) (Session d d []) in
     (r0, committed s0)) = (r, d') ->
    (exists e, r = Err e /\ d' = d) \/
    (r = Ok tt /\ can_move i (MoveFail f t) op im d /\ d' = moved i (MoveFail f t) op im d)) as Hmove.
  { intros Hopen Himp. rewrite run_statement, (update_import_hit _ _ _ _ _ im) by done.
    destruct (check_import _); [|intros [= <- <-]; left; eauto].
    rewrite run_statement. unfold publish_failure. destruct (ValidString _); [|intros [= <- <-]; left; eauto].
    rewrite (update_operation_hit _ _ _ _ op) by done.
    destruct (check_operation _ _) eqn:Eck; [|intros [= <- <-]; left; eauto]. simpl. intros [= <- <-].
    right. split_and!; [done| |done]. split; [done| |done]. simpl. by rewrite Hopen, Himp. }
  destruct (op_state op) eqn:Eop; try (intros [= <- <-]; left; eauto; fail).
  3:{ destruct (negb (String.eqb _ _) || _) eqn:Eb; simpl; intros [= <- <-]; [left; eauto|]. simp_bool.
      right. exists op, im. split_and!; [done..|]. left. split_and!; [done| |done|done].
      destruct (op_failure_code op) as [code|]; simpl in *; [congruence|].
      unfold validFailure, processingFailureCodePattern in *. simp_bool.
      match goal with H : "" = pf_Code f |- _ => rewrite <- H in *; done end. }
  all: destruct (import_open (im_state im)) eqn:Eim; cbn [is_open negb orb]; [|intros [= <- <-]; left; eauto].
  all: intros Hx; destruct (Hmove eq_refl eq_refl Hx) as [?|(-> & ? & ?)]; [by left|right; eauto 10].
Qed.
Lemma BeginProcessing_atomic i t : atomic (BeginProcessing i t).
Proof.
  unfold BeginProcessing. destruct (_ || _); [constructor|]. simpl. constructor. constructor.
  intros [[[[op im] a] c]|]; [|constructor]. destruct (scanned_source i op im a); [|constructor].
  destruct (finished_state _); [constructor|]. destruct (negb _); repeat (constructor || intros ?).
Qed.

Lemma CompleteProcessing_atomic i n t : atomic (CompleteProcessing i n t).
Proof.
  unfold CompleteProcessing. destruct (_ || _); [constructor|]. simpl. constructor. constructor.
  intros [[op im]|]; [|constructor]. destruct (op_state op), (import_processing (im_state im)), (same_result i n op im);
    repeat (constructor || intros ?).
Qed.

Lemma FailProcessing_atomic i f t : atomic (FailProcessing i f t).
Proof.
  unfold FailProcessing. destruct (_ || _); [constructor|]. simpl. constructor. constructor.
  intros [[op im]|]; [|constructor].
  destruct (op_state op), (import_open (im_state im)), (String.eqb (null_string (op_failure_code op)) (pf_Code f)), (bool_decide (im_state im = ImportFailed)); repeat (constructor || intros ?).
Qed.

(** ** Scans *)

Lemma store_scope_no_commit s scope fp : no_commit (store_scope s scope fp).
Proof. unfold store_scope. no_commits. Qed.

Lemma RecordScan_exec s d : exec (RecordScan s) d =
  match canonicalizeScanSpec s with
  | Err e => (Err e, d)
  | Ok (scope, fps) =>
      match scan_source s d with
      | None => (Err ErrScanSourceNotFound, d)
      | Some None => (Err (ErrDatabase "read scan source evidence"), d)
      | Some (Some receivedAt) =>
          if sn_RecordedAt s <? receivedAt then (Err ErrInvalid, d)
          else record_outcome (store_scan s receivedAt (fst fps)) (selectStoredScan s) (ErrDatabase "insert scan")
                 ErrScanConflict ErrScanConflict fps (run_in (store_scope s scope (snd fps)))
                 (stored_scan s receivedAt (sn_RecordedAt s) true) d
      end
  end.
Proof.
  unfold exec, run_on, RecordScan. destruct (canonicalizeScanSpec s) as [[scope fps]|e]; [|done].
  rewrite run_begin. unfold query. cbn [bind run next_fault faults tick tail working committed].
  destruct (scan_source s d) as [[rcv|]|]; [|done|done]. destruct (sn_RecordedAt s <? rcv); [done|].
  rewrite <- (record_run (ErrDatabase "insert scan") (store_scan s rcv (fst fps)) (ErrDatabase "read existing scan")
    (selectStoredScan s) ErrScanConflict ErrScanConflict (ErrDatabase "finish scan replay") (ErrDatabase "commit scan")
    fps (store_scope s scope (snd fps)) (stored_scan s rcv (sn_RecordedAt s) true) d
    (run_in (store_scope s scope (snd fps)))
    (fun d1 => no_commit_run _ d d1 (store_scope_no_commit s scope (snd fps)))).
  by destruct (run _ _).
Qed.

Lemma RecordScan_atomic s : atomic (RecordScan s).
Proof.
  unfold RecordScan. destruct (canonicalizeScanSpec s) as [[scope fps]|e]; [|constructor].
  simpl. constructor. constructor. intros [[rcv|]|]; [|constructor..].
  destruct (sn_RecordedAt s <? rcv); [constructor|]. apply record_in_tx, store_scope_no_commit.
Qed.

Definition scan_key (s : ScanSpec) : string * string := (sn_WorkspaceID s, sn_ID s).

Definition new_scope (s : ScanSpec) (scope : ScanScope) (coverage fp : string) : scope_row := {|
  ss_application := sn_ApplicationID s; ss_scope := scope; ss_coverage := coverage; ss_fingerprint := fp;
  ss_created := store_time (sn_RecordedAt s) |}.

(** The evidence after a fresh scan. *)
Definition scanned (s : ScanSpec) (r : scan_row) (sc : scope_row) (e : evidence) : evidence :=
  Evidence (<[scan_key s := r]> (scans e)) (<[scan_key s := sc]> (scopes e)) (outputs e) (warnings e).

(** A recorded scan: the run is stored with these fingerprints, by this call
    or by an earlier one. *)
Lemma RecordScan_ok s d out d' : exec (RecordScan s) d = (Ok out, d') ->
  exists scope fps rcv, canonicalizeScanSpec s = Ok (scope, fps) /\ scan_source s d = Some (Some rcv) /\
    rcv <= sn_RecordedAt s /\
    ((d' = d /\ selectStoredScan s d = Some (out, fps)) \/
     (exists coverage, jsonb_in (sp_CoverageMetadata scope) = Some coverage /\
        check_scan (new_scan s rcv (fst fps)) = true /\
        find_run s (evidence_db d) = None /\ scans (evidence_db d) !! scan_key s = None /\
        scopes (evidence_db d) !! scan_key s = None /\
        out = stored_scan s rcv (sn_RecordedAt s) true /\
        d' = set_evidence (scanned s (new_scan s rcv (fst fps)) (new_scope s scope coverage (snd fps)) (evidence_db d)) d)).
Proof.
  rewrite RecordScan_exec. destruct (canonicalizeScanSpec s) as [[scope fps]|e]; [|done].
  destruct (scan_source s d) as [[rcv|]|]; [|done|done]. destruct (sn_RecordedAt s <? rcv) eqn:Et; [done|].
  intros Hx. exists scope, fps, rcv. simp_bool. split_and!; [done|done|lia|].
  apply record_outcome_ok in Hx as [(fp & Hi & Hf & Hs)|(rows & d1 & Hi & Hr & -> & Hx)];
    unfold store_scan, zoom_statement, insert_scan in Hi; cbn [view evidence_lens] in Hi;
    change (sr_spec (new_scan s rcv (fst fps))) with s in Hi;
    destruct (check_scan _) eqn:Eck; try done; cbn [negb] in Hi;
    (destruct (find_run s (evidence_db d)) eqn:Erun; cbn [is_null negb] in Hi;
      [|destruct (scans (evidence_db d) !! _) eqn:Esc; try done; destruct (scan_known s d); try done]).
  - left. injection Hi as Hd. assert (d' = d) as -> by (rewrite <- Hd; by destruct d). split; [done|].
    unfold same_fp, pair_fingerprint in Hs. simp_bool. destruct fp, fps. simpl in *. by subst.
  - injection Hi as <- <-. done.
  - right. injection Hi as <- <-. unfold store_scope in Hx. rewrite run_in_statement in Hx.
    unfold zoom_statement, insert_scope in Hx. cbn in Hx.
    destruct (jsonb_in _) as [coverage|]; [|done]. destruct (_ && _) eqn:Eb; [|done]. simp_bool.
    destruct (scopes (evidence_db d) !! _) eqn:Escp; [done|]. injection Hx as <-.
    exists coverage. split_and!; done.
Qed.

(** ** Parser output *)

Definition find_output (s : ParseOutputSpec) (d : ingestion) : option (unit * string) :=
  option_map (fun r => (tt, pr_fingerprint r)) (outputs (evidence_db d) !! output_key s).

Definition store_warnings (s : ParseOutputSpec) (ws : list ParseWarning) : prog ingestion error unit :=
  for_each (ErrDatabase "insert parser warning") (fun w => zoom_statement (insert_warning s w)) (indexed ws).

Lemma RecordParseOutput_exec s d : exec (RecordParseOutput s) d =
  match canonicalizeParseOutput s with
  | Err e => (Err e, d)
  | Ok (ws, fp) =>
      record_outcome (store_output s fp) (find_output s) (ErrDatabase "insert parser output")
        (ErrDatabase "read existing parser output") ErrParseOutputConflict fp (run_in (store_warnings s ws)) tt d
  end.
Proof.
  unfold exec, run_on, RecordParseOutput. destruct (canonicalizeParseOutput s) as [[ws fp]|e]; [|done].
  rewrite run_begin.
  rewrite <- (record_run (ErrDatabase "insert parser output") (store_output s fp)
    (ErrDatabase "read existing parser output") (find_output s) (ErrDatabase "read existing parser output")
    ErrParseOutputConflict (ErrDatabase "") (ErrDatabase "commit parser output") fp (store_warnings s ws) tt d
    (run_in (store_warnings s ws)) (fun d1 => no_commit_run _ d d1 (for_each_no_commit _ _ _))).
  unfold find_output, store_warnings. by destruct (run _ _).
Qed.

Lemma RecordParseOutput_atomic s : atomic (RecordParseOutput s).
Proof.
  unfold RecordParseOutput. destruct (canonicalizeParseOutput s) as [[ws fp]|e]; [|constructor].
  simpl. constructor. apply record_in_tx, for_each_no_commit.
Qed.

Lemma store_warnings_ok s ws d u d' : run_in (store_warnings s ws) d = (Ok u, d') ->
  d' = set_evidence (set_warnings (warnings (evidence_db d')) (evidence_db d)) d /\
  forall k v, warnings (evidence_db d') !! k = Some v <->
    warnings (evidence_db d) !! k = Some v \/ exists iw, iw ∈ indexed ws /\ k = (output_key s, fst iw) /\ v = snd iw.
Proof.
  intros Hr. unfold store_warnings in Hr.
  apply (for_each_inserts (fun d => warnings (evidence_db d))
           (fun d m => set_evidence (set_warnings m (evidence_db d)) d)
           (fun iw => (output_key s, fst iw)) snd) in Hr as [E Hk]; [done|by intros []..| |].
  - by intros [? ? ? ? ? ? ? []].
  - intros iw w v w'. unfold zoom_statement, insert_warning. cbn [view evidence_lens].
    destruct (_ && _) eqn:Eb; [|done]. simp_bool. destruct (warnings (evidence_db w) !! _) eqn:Ew; [done|].
    by intros [= <- <-].
Qed.

(** Recorded parser output: stored earlier with the same fingerprint, or now
    with exactly its warnings. *)
Lemma RecordParseOutput_ok s d u d' : exec (RecordParseOutput s) d = (Ok u, d') ->
  exists fp, canonicalizeParseOutput s = Ok (po_Warnings s, fp) /\
    ((d' = d /\ exists r, outputs (evidence_db d) !! output_key s = Some r /\ pr_fingerprint r = fp) \/
     (outputs (evidence_db d) !! output_key s = None /\
      outputs (evidence_db d') = <[output_key s := new_output s fp]> (outputs (evidence_db d)) /\
      (forall k v, warnings (evidence_db d') !! k = Some v <->
         warnings (evidence_db d) !! k = Some v \/
         exists iw, iw ∈ indexed (po_Warnings s) /\ k = (output_key s, fst iw) /\ v = snd iw) /\
      d' = set_evidence (Evidence (scans (evidence_db d)) (scopes (evidence_db d)) (outputs (evidence_db d'))
                                  (warnings (evidence_db d'))) d)).
Proof.
  rewrite RecordParseOutput_exec. destruct (canonicalizeParseOutput s) as [[ws fp]|e] eqn:Ec; [|done].
  assert (ws = po_Warnings s) as ->.
  { unfold canonicalizeParseOutput in Ec. repeat (destruct (_ && _); [|done]).
    destruct (forallb _ _); [|done]. by injection Ec as <- _. }
  intros Hx. exists fp. split; [done|].
  apply record_outcome_ok in Hx as [(fp' & Hi & Hf & Hs)|(rows & d1 & Hi & Hr & _ & Hx)];
    unfold store_output, zoom_statement, insert_output in Hi; cbn [view evidence_lens] in Hi;
    destruct (negb (check_output s fp)); try done;
    (destruct (outputs (evidence_db d) !! output_key s) as [r|] eqn:Eo; cbn [is_null negb] in Hi;
     [|destruct (negb (artifact_known _ _ _ d)); try done]).
  - left. injection Hi as Hd. assert (d' = d) as -> by (rewrite <- Hd; by destruct d).
    split; [done|]. exists r. split; [done|]. unfold find_output in Hf. rewrite Eo in Hf. simpl in Hf.
    injection Hf as ? Hfp. unfold same_fp, text_fingerprint in Hs. simp_bool. congruence.
  - injection Hi as <- <-. done.
  - right. injection Hi as <- <-. apply store_warnings_ok in Hx as [E Hk]. simpl in E, Hk.
    assert (outputs (evidence_db d') = <[output_key s := new_output s fp]> (outputs (evidence_db d))) as Eout
      by (by rewrite E).
    split_and!; [done|done|done|]. rewrite Eout. exact E.
Qed.
End Effects.
End Pipeline.
