(* ===== verification/PipelineTheorems.v ===== *)
(** * What the pipeline guarantees

    [Module PipelineTheorems] lets any sequence of store calls run on one
    database, each on a connection with its own failures, and derives the
    invariant of every state and what no call ever takes back. *)

From S2P Require Import Prelude GoStrings Encoding Txn Json JsonFacts Queue Lifecycle QueueRefinement QueueTheorems.
From S2P Require Import Records Idempotency Catalog Blobstore Uploads Scans Ingestion Processing Pipeline.

Local Open Scope Z_scope.

Module PipelineTheorems.
Import Idempotency Uploads Scans Ingestion Processing Pipeline.

Section Theorems.
Context {pg : Postgres}.

(** ** Calls *)

Inductive call :=
| CallReserve (lk : string -> bool) (s : reserveSpec)
| CallUpload (op : Uploads.operation)
| CallComplete (lk : string -> bool) (q : JobQueue.env) (s : completeSpec)
| CallBegin (i : ProcessingIdentity) (at_ : time)
| CallSucceed (i : ProcessingIdentity) (scans : Z) (at_ : time)
| CallFail (i : ProcessingIdentity) (f : ProcessingFailure) (at_ : time)
| CallScan (s : ScanSpec)
| CallOutput (s : ParseOutputSpec)
| CallQueue (e : JobQueue.env) (op : QueueTheorems.operation)
| CallCatalog (op : Catalog.operation).

(** The service reserves imports that await their upload and publishes
    operations that are queued. *)
Definition issued (c : call) : bool :=
  match c with
  | CallReserve _ s => bool_decide (i_State (rs_Import s) = ImportAwaitingUpload)
  | CallComplete _ _ s => bool_decide (o_State (ct_Operation s) = OperationQueued)
  | _ => true
  end.

(** The committed database after one call. *)
Definition perform (c : call) (fs : list fault) (d : ingestion) : ingestion :=
  match c with
  | CallReserve lk s => snd (run_on (Reserve lk s) d fs)
  | CallUpload op => set_uploads (snd (Uploads.perform op fs (upload_db d))) d
  | CallComplete lk q s => snd (run_on (Complete lk q s) d fs)
  | CallBegin i t => snd (run_on (BeginProcessing i t) d fs)
  | CallSucceed i n t => snd (run_on (CompleteProcessing i n t) d fs)
  | CallFail i f t => snd (run_on (FailProcessing i f t) d fs)
  | CallScan s => snd (run_on (RecordScan s) d fs)
  | CallOutput s => snd (run_on (RecordParseOutput s) d fs)
  | CallQueue e op => set_queue (QueueTheorems.perform e op fs (queue_db d)) d
  | CallCatalog op => set_catalog (Catalog.perform op fs (catalog_db d)) d
  end.

Definition history : Type := list (call * list fault).
Definition issued_history (h : history) : Prop := Forall (fun cf => issued (fst cf) = true) h.
Definition replay (h : history) (d : ingestion) : ingestion := foldl (fun d cf => perform (fst cf) (snd cf) d) d h.

(** ** Changes *)

Record evidence_grows (e e' : evidence) : Prop := {
  eg_scans : scans e ⊆ scans e';
  eg_scopes : scopes e ⊆ scopes e';
  eg_outputs : outputs e ⊆ outputs e';
  eg_warnings : warnings e ⊆ warnings e'
}.

#[global] Instance evidence_grows_preorder : PreOrder evidence_grows.
Proof. split; [by split|]. intros ? ? ? [] []. split; by etrans. Qed.

(** Every scan is stored under its own key with its scope, and a source run has
    at most one. *)
Record evidence_ok (e : evidence) : Prop := {
  ek_keys : forall k r, scans e !! k = Some r -> k = scan_key (sr_spec r);
  ek_runs : forall k k' r r', scans e !! k = Some r -> scans e !! k' = Some r' ->
    same_run (sr_spec r) (sr_spec r') = true -> k = k';
  ek_scopes : forall k r, scans e !! k = Some r -> is_Some (scopes e !! k)
}.

(** What one call can do to the database. *)
Inductive change (d : ingestion) : ingestion -> Prop :=
| change_reserve s digest : reservable s digest d -> i_State (rs_Import s) = ImportAwaitingUpload ->
    change d (reserved s digest d)
| change_upload op : change d (set_uploads (snd (Uploads.perform op [] (upload_db d))) d)
| change_complete q s im a job qd : completable q s im a job qd d -> o_State (ct_Operation s) = OperationQueued ->
    change d (completed s im qd d)
| change_move i m op im : can_move i m op im d -> change d (moved i m op im d)
| change_evidence e : evidence_grows (evidence_db d) e -> (evidence_ok (evidence_db d) -> evidence_ok e) ->
    change d (set_evidence e d)
| change_queue q : rtc QueueTheorems.job_step (queue_db d) q -> change d (set_queue q d)
| change_catalog c : change d (set_catalog c d).

Lemma set_evidence_id d : set_evidence (evidence_db d) d = d.
Proof. by destruct d. Qed.
Lemma set_uploads_id d : set_uploads (upload_db d) d = d.
Proof. by destruct d. Qed.

Lemma atomic_change {A} (p : prog ingestion error A) d fs : atomic p ->
  (snd (exec p d) = d \/ change d (snd (exec p d))) ->
  snd (run_on p d fs) = d \/ change d (snd (run_on p d fs)).
Proof. intros Ha Hd. destruct (atomic_db p d fs Ha) as [->| ->]; auto. Qed.

Lemma same_run_spec s s' : same_run s s' = true <->
  sn_WorkspaceID s = sn_WorkspaceID s' /\ sn_ImportID s = sn_ImportID s' /\ sn_SourceRunIndex s = sn_SourceRunIndex s'.
Proof. unfold same_run. rewrite !andb_true_iff, !String.eqb_eq, Z.eqb_eq. tauto. Qed.

Lemma find_run_none s e : find_run s e = None -> forall k r, scans e !! k = Some r -> same_run s (sr_spec r) = false.
Proof.
  unfold find_run. intros Hn k r Hr. destruct (same_run s (sr_spec r)) eqn:E; [|done].
  assert (r ∈ rows_where (fun r => same_run s (sr_spec r)) (scans e)) as Hin by (apply elem_of_rows_where; eauto).
  destruct (rows_where _ _); [by apply not_elem_of_nil in Hin|done].
Qed.

Lemma scanned_ok s rcv fp sc e : find_run s e = None -> evidence_ok e ->
  evidence_ok (scanned s (new_scan s rcv fp) sc e).
Proof.
  intros Hn [K R S]. pose proof (find_run_none _ _ Hn) as Hno. split; simpl.
  - intros k r. rewrite lookup_insert_Some. intros [[<- <-]|[_ Hr]]; [done|auto].
  - intros k k' r r'. rewrite !lookup_insert_Some. intros [[<- <-]|[_ Hr]] [[<- <-]|[_ Hr']] Hs; [done|..|eauto].
    + simpl in Hs. by rewrite (Hno _ _ Hr') in Hs.
    + apply same_run_spec in Hs. assert (same_run s (sr_spec r) = true) as E by (apply same_run_spec; naive_solver).
      by rewrite (Hno _ _ Hr) in E.
  - intros k r. rewrite lookup_insert_Some. intros [[<- <-]|[Hne Hr]]; [rewrite lookup_insert_eq; eauto|].
    rewrite lookup_insert_ne by done. eauto.
Qed.

Lemma scan_change s d : snd (exec (RecordScan s) d) = d \/ change d (snd (exec (RecordScan s) d)).
Proof.
  destruct (exec (RecordScan s) d) as [[out|e] d'] eqn:E; simpl.
  - apply RecordScan_ok in E as (scope & fps & rcv & _ & _ & _ & [[-> _]|(cov & _ & _ & Hrun & Hn & Hs & _ & ->)]);
      [by left|right]. apply change_evidence; [split; simpl; [by apply insert_subseteq..|done|done]|].
    by apply scanned_ok.
  - left. revert E. rewrite RecordScan_exec. destruct (canonicalizeScanSpec s) as [[sc fps]|]; [|congruence].
    destruct (scan_source s d) as [[rcv|]|]; [|congruence..]. destruct (_ <? _); [congruence|].
    apply record_outcome_err.
Qed.

Lemma output_change s d : snd (exec (RecordParseOutput s) d) = d \/ change d (snd (exec (RecordParseOutput s) d)).
Proof.
  destruct (exec (RecordParseOutput s) d) as [[out|e] d'] eqn:E; simpl.
  - apply RecordParseOutput_ok in E as (fp & _ & [[-> _]|(Hn & Ho & Hw & ->)]); [by left|right].
    apply change_evidence; [|intros []; by split]. split; simpl; [done|done| |].
    + rewrite Ho. by apply insert_subseteq.
    + apply map_subseteq_spec. intros k v Hk. apply Hw. by left.
  - left. revert E. rewrite RecordParseOutput_exec. destruct (canonicalizeParseOutput s) as [[ws fp]|]; [|congruence].
    apply record_outcome_err.
Qed.

Lemma perform_change c fs d : issued c = true -> Lifecycle.invariant (queue_db d) ->
  perform c fs d = d \/ change d (perform c fs d).
Proof.
  intros Hi I. destruct c as [lk s|op|lk q s|i t|i n t|i f t|s|s|e op|op]; simpl in Hi |- *; simp_bool.
  - apply atomic_change; [apply Reserve_atomic|]. destruct (exec (Reserve lk s) d) as [[out|e] d'] eqn:E; simpl.
    + apply Reserve_ok in E as [[-> _]|(dg & Hr & -> & _)]; [by left|right; by apply change_reserve].
    + left. revert E. rewrite Reserve_exec. destruct (negb _); [congruence|]. apply record_outcome_err.
  - destruct (Uploads.perform_db op fs (upload_db d)) as [->| ->]; [left; apply set_uploads_id|right; apply change_upload].
  - apply atomic_change; [apply Complete_atomic|]. destruct (exec (Complete lk q s) d) as [[out|e] d'] eqn:E; simpl.
    + apply Complete_ok in E as [[-> _]|(im & a & job & qd & Hc & -> & _)]; [by left|right|done].
      by eapply change_complete.
    + left. revert E. rewrite Complete_exec. destruct (negb _); [congruence|]. apply record_outcome_err.
  - apply atomic_change; [apply BeginProcessing_atomic|]. destruct (exec _ d) as [r d'] eqn:E. simpl.
    apply BeginProcessing_effect in E as [(? & _ & ->)|(op & im & a & c & s0 & _ & _ & [(_ & _ & ->)|(_ & _ & Hm & ->)])];
      [by left|by left|right; by apply change_move].
  - apply atomic_change; [apply CompleteProcessing_atomic|]. destruct (exec _ d) as [r d'] eqn:E. simpl.
    apply CompleteProcessing_effect in E as [(? & _ & ->)|(op & im & _ & _ & [(_ & _ & ->)|(j & _ & Hm & ->)])];
      [by left|by left|right; by apply change_move].
  - apply atomic_change; [apply FailProcessing_atomic|]. destruct (exec _ d) as [r d'] eqn:E. simpl.
    apply FailProcessing_effect in E as [(? & _ & ->)|(op & im & _ & _ & [(_ & _ & _ & ->)|(Hm & ->)])];
      [by left|by left|right; by apply change_move].
  - apply atomic_change; [apply RecordScan_atomic|apply scan_change].
  - apply atomic_change; [apply RecordParseOutput_atomic|apply output_change].
  - right. by apply change_queue, QueueTheorems.perform_steps.
  - right. apply change_catalog.
Qed.

(** ** The invariant *)

(** The public state of an operation and the state of its import. *)
Definition operation_agrees (o : OperationState) (s : ImportState) : bool :=
  match o, s with
  | OperationQueued, ImportQueued | OperationRunning, ImportProcessing
  | OperationSucceeded, ImportSucceeded | OperationFailed, ImportFailed => true
  | _, _ => false
  end.

(** The states of an import that has been completed. *)
Definition published (s : ImportState) : bool :=
  match s with ImportQueued | ImportProcessing | ImportSucceeded | ImportFailed => true | _ => false end.

(** The job of an operation: the one under its idempotency key. *)
Definition has_job (w id : string) (q : JobQueue.database) : Prop :=
  exists jid r, JobQueue.jobs q !! jid = Some r /\ JobQueue.c_workspace_id (JobQueue.core r) = w /\
    JobQueue.c_queue (JobQueue.core r) = importProcessQueue /\
    JobQueue.c_kind (JobQueue.core r) = importProcessKind /\ JobQueue.c_idempotency_key (JobQueue.core r) = id.

Record consistent (d : ingestion) : Prop := {
  con_queue : Lifecycle.invariant (queue_db d);
  con_uploads : Uploads.consistent (upload_db d);
  con_rows : forall w id op, operations d !! (w, id) = Some op -> check_operation id op = true;
  con_agree : forall w id op, operations d !! (w, id) = Some op ->
    exists im, imports (upload_db d) !! (w, op_import op) = Some im /\
      operation_agrees (op_state op) (im_state im) = true;
  con_unique : forall w id id' op op', operations d !! (w, id) = Some op -> operations d !! (w, id') = Some op' ->
    op_import op = op_import op' -> id = id';
  con_published : forall w i im, imports (upload_db d) !! (w, i) = Some im -> published (im_state im) = true ->
    exists id op, operations d !! (w, id) = Some op /\ op_import op = i;
  con_jobs : forall w id op, operations d !! (w, id) = Some op -> has_job w id (queue_db d);
  con_contexts : forall k c, contexts d !! k = Some c -> is_Some (imports (upload_db d) !! k);
  con_create : forall sc c, create_claims d !! sc = Some c ->
    is_Some (imports (upload_db d) !! (sc_workspace sc, cl_resource c));
  con_complete : forall sc c, complete_claims d !! sc = Some c ->
    is_Some (operations d !! (sc_workspace sc, cl_resource c));
  con_evidence : evidence_ok (evidence_db d)
}.

Lemma operation_kind id op : check_operation id op = true -> op_kind op = importProcessKind.
Proof. unfold check_operation. rewrite !andb_true_iff. intros H. apply String.eqb_eq. tauto. Qed.

Lemma agrees_published o s : operation_agrees o s = true -> published s = true.
Proof. by destruct o, s. Qed.

Lemma has_job_later w id q q' : Lifecycle.invariant q -> rtc QueueTheorems.job_step q q' -> has_job w id q ->
  has_job w id q'.
Proof.
  intros I Hs (jid & r & Hr & H). destruct (QueueTheorems.job_steps_later q q' jid r I Hs Hr) as (r' & Hr' & Hl).
  exists jid, r'. split; [done|]. by rewrite (QueueTheorems.later_core _ _ Hl).
Qed.

Lemma has_job_enqueued q s d job qd : Lifecycle.invariant d ->
  QueueSpec.enqueue_spec q (process_job s) d = (Ok job, qd) -> Lifecycle.invariant qd ->
  has_job (o_WorkspaceID (ct_Operation s)) (o_ID (ct_Operation s)) qd.
Proof.
  intros I Hq I'. rewrite QueueSpec.enqueue_spec_unfold in Hq by done.
  destruct (JobQueue.fingerprintSpec _) as [[canonical fp]|]; [|done].
  destruct (JobQueue.randomID q "job_" 20) as [id|]; [|done].
  destruct (JobQueue.insert_job _ _ _ _ _ d) as [[rows d']|]; [|done].
  unfold QueueSpec.enqueue_answer in Hq. destruct (JobQueue.find_by_key (process_job s) d') as [r|] eqn:Ef; [|done].
  assert (d' = qd) as -> by (destruct (_ && _); congruence).
  apply QueueSpec.find_by_key_Some in Ef as [Hr Hk]; [|done]. exists (JobQueue.c_id (JobQueue.core r)), r.
  split; [done|]. unfold JobQueue.same_key in Hk. by simp_bool.
Qed.

(** A change of one operation and its import that keeps the states together. *)
Lemma moved_agree m op im : move_allowed m op im = true ->
  operation_agrees (op_state (move_operation m op)) (im_state (move_import m im)) = true.
Proof. by destruct m. Qed.

Lemma move_keeps m op im :
  op_import (move_operation m op) = op_import op /\ op_creator (move_operation m op) = op_creator op /\
  op_kind (move_operation m op) = op_kind op /\ op_created (move_operation m op) = op_created op /\
  (exists st t, move_import m im = set_import_state st t im).
Proof. destruct m; simpl; eauto 10. Qed.

Lemma consistent_move i m op im d : consistent d -> can_move i m op im d -> consistent (moved i m op im d).
Proof.
  intros C [Hf Ha Hrow]. pose proof (find_processing_spec _ _ _ _ Hf) as (Hop & Him & Himp & _ & _).
  destruct (move_keeps m op im) as (Ki & _ & _ & _ & _).
  assert (forall w id o, operations (moved i m op im d) !! (w, id) = Some o ->
    exists o0, operations d !! (w, id) = Some o0 /\ op_import o = op_import o0 /\
      ((w, id) = operation_key i /\ o = move_operation m op \/ (w, id) <> operation_key i /\ o = o0)) as Hops.
  { intros w id o. simpl. rewrite lookup_insert_Some. intros [[E <-]|[Hne Ho]].
    - exists op. rewrite <- E. split_and!; [done..|by left].
    - exists o. split_and!; [done..|]. right. split; [congruence|done]. }
  split; simpl.
  - apply C.
  - intros k r. simpl. rewrite lookup_insert_Some. intros [[<- <-]|[Hne Hr]]; [|by apply (con_uploads _ C)].
    pose proof (con_uploads _ C _ _ Him) as Hag. unfold move_allowed in Ha.
    destruct (artifacts (upload_db d) !! import_key i); [|by destruct m, (op_state op), (im_state im)].
    by destruct m, (op_state op), (im_state im).
  - intros w id o Ho. destruct (Hops _ _ _ Ho) as (o0 & Ho0 & _ & [[E ->]|[_ ->]]); [|by eapply con_rows].
    injection E as -> ->. done.
  - intros w id o Ho. destruct (Hops _ _ _ Ho) as (o0 & Ho0 & -> & [[E ->]|[Hne ->]]).
    + rewrite E in Ho0. assert (o0 = op) as -> by congruence. injection E as -> ->. rewrite Himp.
      exists (move_import m im). split; [apply lookup_insert_eq|by apply moved_agree].
    + destruct (con_agree _ C _ _ _ Ho0) as (im0 & Him0 & Hag). exists im0. split; [|done].
      rewrite lookup_insert_ne; [done|]. intros E. unfold import_key in E. injection E as <- E.
      apply Hne. unfold operation_key. f_equal. eapply (con_unique _ C); [exact Ho0|exact Hop|congruence].
  - intros w id id' o o' Ho Ho' E. destruct (Hops _ _ _ Ho) as (o0 & Ho0 & Ei & _).
    destruct (Hops _ _ _ Ho') as (o0' & Ho0' & Ei' & _). eapply (con_unique _ C); [done..|congruence].
  - intros w i0 r. rewrite lookup_insert_Some. intros Hr Hp.
    assert (exists id o, operations d !! (w, id) = Some o /\ op_import o = i0) as (id & o & Ho & Eo).
    { destruct Hr as [[E <-]|[_ Hr]]; [|by eapply con_published].
      unfold import_key in E. injection E as <- <-. exists (pi_OperationID i), op. done. }
    exists id. destruct (decide ((w, id) = operation_key i)) as [E|Hne].
    + exists (move_operation m op). rewrite E. split; [apply lookup_insert_eq|]. rewrite Ki. congruence.
    + exists o. by rewrite lookup_insert_ne.
  - intros w id o Ho. destruct (Hops _ _ _ Ho) as (o0 & Ho0 & _). by eapply con_jobs.
  - intros k c Hc. apply lookup_insert_is_Some'. right. by eapply con_contexts.
  - intros sc c Hc. apply (con_create _ C) in Hc as [r Hr]. apply lookup_insert_is_Some'. eauto.
  - intros sc c Hc. apply (con_complete _ C) in Hc as [r Hr]. apply lookup_insert_is_Some'. eauto.
  - apply C.
Qed.

Lemma consistent_reserve s digest d : consistent d -> reservable s digest d ->
  i_State (rs_Import s) = ImportAwaitingUpload -> consistent (reserved s digest d).
Proof.
  intros C (_ & _ & _ & Him & _ & _ & _) Hst.
  assert (forall k r, imports (upload_db d) !! k = Some r ->
    imports (upload_db (reserved s digest d)) !! k = Some r) as Hkeep.
  { intros k r Hr. simpl. rewrite lookup_insert_ne; [done|]. congruence. }
  split; simpl; try apply C.
  - intros k r. simpl. rewrite lookup_insert_Some. intros [[<- <-]|[Hne Hr]].
    + simpl. by rewrite Hst, lookup_insert_eq.
    + rewrite lookup_insert_ne by done. by apply (con_uploads _ C).
  - intros w id op Hop. destruct (con_agree _ C _ _ _ Hop) as (im & Hr & Hag). exists im. split; [by apply Hkeep|done].
  - intros w i im. rewrite lookup_insert_Some. intros [[_ <-]|[_ Hr]]; [simpl; by rewrite Hst|by apply (con_published _ C)].
  - intros k c Hc. destruct (reserved_context _); [|by apply lookup_insert_is_Some'; right; eapply con_contexts].
    apply lookup_insert_Some in Hc as [[<- _]|[_ Hc]]; apply lookup_insert_is_Some'; [by left|right; by eapply con_contexts].
  - intros sc c. rewrite lookup_insert_Some. intros [[<- <-]|[_ Hc]]; [simpl; rewrite lookup_insert_eq; eauto|].
    apply (con_create _ C) in Hc as [r Hr]. exists r. by apply Hkeep.
Qed.

Lemma consistent_upload op d : consistent d ->
  consistent (set_uploads (snd (Uploads.perform op [] (upload_db d))) d).
Proof.
  intros C. pose proof (Uploads.operation_consistent op _ (con_uploads _ C)) as Hu.
  destruct (Uploads.perform_shape op (upload_db d)) as [E|(key & im & st & t & Him & Ho & Hst & Hi & _)].
  { rewrite E. by rewrite set_uploads_id. }
  assert (forall k r, imports (upload_db d) !! k = Some r -> published (im_state r) = true ->
    imports (snd (Uploads.perform op [] (upload_db d))) !! k = Some r) as Hkeep.
  { intros k r Hr Hp. rewrite Hi, lookup_insert_ne; [done|]. intros <-. assert (im = r) as -> by congruence.
    by destruct (im_state r). }
  split; simpl; try apply C; [done|..].
  - intros w id o Hop. destruct (con_agree _ C _ _ _ Hop) as (r & Hr & Hag). exists r.
    split; [apply Hkeep; [done|by eapply agrees_published]|done].
  - intros w i r. rewrite Hi, lookup_insert_Some. intros [[_ <-]|[_ Hr]]; [simpl; by destruct st|by apply (con_published _ C)].
  - intros k c Hc. rewrite Hi. apply lookup_insert_is_Some'. right. by eapply con_contexts.
  - intros sc c Hc. rewrite Hi. apply lookup_insert_is_Some'. right. by apply (con_create _ C).
Qed.

Lemma operation_free_spec w id i kind d : operation_free w id i kind d = true ->
  operations d !! (w, id) = None /\
  forall id' op, operations d !! (w, id') = Some op -> op_kind op = kind -> op_import op <> i.
Proof.
  unfold operation_free. intros H. simp_bool. split; [by destruct (operations d !! _)|].
  intros id' op Hop <- <-. match goal with H : forallb _ _ = true |- _ => rewrite forallb_forall in H end.
  specialize (H0 ((w, id'), op)). rewrite <- list_elem_of_In, elem_of_map_to_list in H0. specialize (H0 Hop).
  simpl in H0. by rewrite !String.eqb_refl in H0.
Qed.

Lemma consistent_complete q s im a job qd d : consistent d -> completable q s im a job qd d ->
  o_State (ct_Operation s) = OperationQueued -> consistent (completed s im qd d).
Proof.
  intros C [_ Him Hst _ Ha Hev Hrow Hfree Hjob] Hq.
  apply operation_free_spec in Hfree as [Hnone Hfree]. fold (new_operation_key s) in Hnone.
  pose proof (operation_kind _ _ Hrow) as Hkind. simpl in Hkind.
  assert (rtc QueueTheorems.job_step (queue_db d) qd) as Hsteps.
  { pose proof (QueueTheorems.enqueue_steps q (process_job s) (queue_db d)) as H. by rewrite Hjob in H. }
  pose proof (QueueTheorems.job_steps_invariant _ _ (con_queue _ C) Hsteps) as I.
  assert (forall id' op, operations d !! (o_WorkspaceID (ct_Operation s), id') = Some op ->
    op_import op <> o_ImportID (ct_Operation s)) as Hother.
  { intros id' op Hop. eapply Hfree; [done|]. rewrite Hkind. eapply operation_kind, con_rows; [done|exact Hop]. }
  split; simpl.
  - done.
  - intros k r. simpl. rewrite lookup_insert_Some. intros [[<- <-]|[_ Hr]]; [|by apply (con_uploads _ C)].
    rewrite Ha. simpl. by rewrite Hev.
  - intros w id op. rewrite lookup_insert_Some. intros [[E <-]|[_ Hop]]; [by injection E as <- <-|by eapply con_rows].
  - intros w id op. rewrite lookup_insert_Some. intros [[E <-]|[Hne Hop]].
    + injection E as <- <-. exists (set_import_state ImportQueued (store_time (o_UpdatedAt (ct_Operation s))) im).
      split; [apply lookup_insert_eq|]. simpl. by rewrite Hq.
    + destruct (con_agree _ C _ _ _ Hop) as (im' & Him' & Hag). exists im'. split; [|done].
      rewrite lookup_insert_ne; [done|]. intros E. injection E as <- E. by apply Hother in Hop.
  - intros w id id' op op'. rewrite !lookup_insert_Some.
    intros [[E <-]|[_ Hop]] [[E' <-]|[_ Hop']]; simpl; intros Ei.
    + congruence.
    + injection E as <- <-. by apply Hother in Hop'.
    + injection E' as <- <-. by apply Hother in Hop.
    + by eapply con_unique.
  - intros w i r. rewrite lookup_insert_Some. intros [[E <-]|[_ Hr]] Hp.
    + injection E as <- <-. eexists _, _. split; [apply lookup_insert_eq|done].
    + destruct (con_published _ C _ _ _ Hr Hp) as (id & op & Hop & <-). exists id, op. split; [|done].
      rewrite lookup_insert_ne; [done|]. intros E. rewrite E in Hnone. congruence.
  - intros w id op. rewrite lookup_insert_Some. intros [[E <-]|[_ Hop]].
    + injection E as <- <-. eapply has_job_enqueued; [|exact Hjob|done]. apply C.
    + eapply has_job_later; [apply C|done|]. by eapply con_jobs.
  - intros k c Hc. apply lookup_insert_is_Some'. right. by eapply con_contexts.
  - intros sc c Hc. apply (con_create _ C) in Hc as [r Hr]. apply lookup_insert_is_Some'. eauto.
  - intros sc c. rewrite lookup_insert_Some. intros [[<- <-]|[_ Hc]]; [simpl; fold (new_operation_key s); rewrite lookup_insert_eq; eauto|].
    apply (con_complete _ C) in Hc as [r Hr]. apply lookup_insert_is_Some'. eauto.
  - apply C.
Qed.

Lemma change_consistent d d' : consistent d -> change d d' -> consistent d'.
Proof.
  intros C [s dg Hr Hs|op|q s im a job qd Hc Hs|i m op im Hm|e He Hok|q Hq|c].
  - by apply consistent_reserve.
  - by apply consistent_upload.
  - by eapply consistent_complete.
  - by apply consistent_move.
  - split; simpl; try apply C. apply Hok, C.
  - split; simpl; try apply C.
    + eapply QueueTheorems.job_steps_invariant; [apply C|done].
    + intros w id op Hop. eapply has_job_later; [apply C|done|]. by eapply con_jobs.
  - split; apply C.
Qed.

(** ** What is never taken back *)

(** The final states of an import. *)
Definition settled (s : ImportState) : bool :=
  match s with ImportSucceeded | ImportFailed | ImportRejected | ImportAbandoned => true | _ => false end.

(** The same import in another state; the final states are kept. *)
Definition import_later (r r' : import_row) : Prop :=
  r' = set_import_state (im_state r') (im_updated r') r /\ (settled (im_state r) = true -> r' = r) /\
  (published (im_state r) = true -> published (im_state r') = true).

Definition operation_later (o o' : operation_row) : Prop :=
  op_import o' = op_import o /\ op_creator o' = op_creator o /\ op_kind o' = op_kind o /\
  op_created o' = op_created o /\ (finished_state (op_state o) = true -> o' = o).

Record later (d d' : ingestion) : Prop := {
  lt_create : create_claims d ⊆ create_claims d';
  lt_complete : complete_claims d ⊆ complete_claims d';
  lt_contexts : forall k r, imports (upload_db d) !! k = Some r -> contexts d' !! k = contexts d !! k;
  lt_imports : forall k r, imports (upload_db d) !! k = Some r ->
    exists r', imports (upload_db d') !! k = Some r' /\ import_later r r';
  lt_evidence : forall k a, artifacts (upload_db d) !! k = Some a -> ar_state a = rawArtifactCommitted ->
    artifacts (upload_db d') !! k = Some a;
  lt_operations : forall k o, operations d !! k = Some o ->
    exists o', operations d' !! k = Some o' /\ operation_later o o';
  lt_queue : rtc QueueTheorems.job_step (queue_db d) (queue_db d');
  lt_records : evidence_grows (evidence_db d) (evidence_db d')
}.

Lemma import_later_refl r : import_later r r.
Proof. split_and!; [by destruct r|done..]. Qed.

Lemma operation_later_refl o : operation_later o o.
Proof. done. Qed.

#[global] Instance later_refl : Reflexive later.
Proof. intros d. split; try done; eauto using import_later_refl, operation_later_refl. Qed.

Lemma import_later_trans r1 r2 r3 : import_later r1 r2 -> import_later r2 r3 -> import_later r1 r3.
Proof.
  intros (E2 & F2 & P2) (E3 & F3 & P3). split_and!; [|intros Hs|eauto].
  - rewrite E3 at 1. rewrite E2 at 1. done.
  - pose proof (F2 Hs) as ->. auto.
Qed.

#[global] Instance later_trans : Transitive later.
Proof.
  intros d1 d2 d3 [A1 B1 C1 D1 E1 F1 G1 H1] [A2 B2 C2 D2 E2 F2 G2 H2]. split; try (by etrans); eauto.
  - intros k r Hr. destruct (D1 _ _ Hr) as (r2 & Hr2 & _). rewrite (C2 _ _ Hr2). eauto.
  - intros k r Hr. destruct (D1 _ _ Hr) as (r2 & Hr2 & L2). destruct (D2 _ _ Hr2) as (r3 & Hr3 & L3).
    exists r3. split; [done|]. by eapply import_later_trans.
  - intros k o Ho. destruct (F1 _ _ Ho) as (o2 & Ho2 & L2). destruct (F2 _ _ Ho2) as (o3 & Ho3 & L3).
    exists o3. split; [done|]. unfold operation_later in *. destruct L2 as (? & ? & ? & ? & Fr), L3 as (? & ? & ? & ? & Fr').
    split_and!; [congruence..|]. intros Hf. pose proof (Fr Hf) as ->. auto.
Qed.

(** Updating one import. *)
Lemma imports_later_put (m : gmap (string * string) import_row) key r st t : m !! key = Some r ->
  settled (im_state r) = false -> (published (im_state r) = true -> published st = true) ->
  forall k x, m !! k = Some x -> exists x', <[key := set_import_state st t r]> m !! k = Some x' /\ import_later x x'.
Proof.
  intros Hr Hs Hp k x Hx. destruct (decide (k = key)) as [->|Hne].
  - exists (set_import_state st t r). rewrite lookup_insert_eq. split; [done|].
    assert (x = r) as -> by congruence. split_and!; [done| |done]. by rewrite Hs.
  - exists x. rewrite lookup_insert_ne by done. split; [done|apply import_later_refl].
Qed.

Lemma later_move i m op im d : can_move i m op im d -> later d (moved i m op im d).
Proof.
  intros [Hf Ha _]. pose proof (find_processing_spec _ _ _ _ Hf) as (Hop & Him & _).
  destruct (move_keeps m op im) as (K1 & K2 & K3 & K4 & st & t & Em).
  split; simpl; try done.
  - rewrite Em. apply imports_later_put; [done| |].
    + unfold move_allowed in Ha. by destruct m, (op_state op), (im_state im).
    + intros _. apply (f_equal im_state) in Em. simpl in Em. rewrite <- Em. by destruct m.
  - intros k o Ho. destruct (decide (k = operation_key i)) as [->|Hne].
    + exists (move_operation m op). rewrite lookup_insert_eq. split; [done|]. assert (o = op) as -> by congruence.
      split_and!; try done. intros Hfin. unfold move_allowed in Ha. by destruct m, (op_state op), (im_state im).
    + exists o. by rewrite lookup_insert_ne.
Qed.

Lemma later_upload op d : consistent d -> later d (set_uploads (snd (Uploads.perform op [] (upload_db d))) d).
Proof.
  intros C. destruct (Uploads.perform_shape op (upload_db d)) as [E|(key & im & st & t & Him & Ho & Hst & Hi & _)].
  { rewrite E. by rewrite set_uploads_id. }
  split; simpl; try done.
  - rewrite Hi. apply imports_later_put; [done|..]; by destruct (im_state im).
  - intros k a. apply Uploads.committed_kept.
  - eauto using operation_later_refl.
Qed.

Lemma later_reserve s digest d : reservable s digest d -> later d (reserved s digest d).
Proof.
  intros (_ & _ & Hcl & Him & Har & Hcx & _). split; simpl; try done.
  - by apply insert_subseteq.
  - intros k r Hr. destruct (reserved_context _); [|done]. rewrite lookup_insert_ne; [done|]. congruence.
  - intros k r Hr. exists r. rewrite lookup_insert_ne by congruence. split; [done|apply import_later_refl].
  - intros k a Ha _. rewrite lookup_insert_ne; [done|]. congruence.
  - eauto using operation_later_refl.
Qed.

Lemma later_complete q s im a job qd d : completable q s im a job qd d -> later d (completed s im qd d).
Proof.
  intros [Hcl Him Hst _ _ _ _ Hfree Hjob]. apply operation_free_spec in Hfree as [Hnone _]. split; simpl; try done.
  - by apply insert_subseteq.
  - apply imports_later_put; [done|by rewrite Hst|done].
  - intros k o Ho. exists o. split; [|apply operation_later_refl]. rewrite lookup_insert_ne; [done|].
    intros <-. unfold new_operation_key in Ho. congruence.
  - pose proof (QueueTheorems.enqueue_steps q (process_job s) (queue_db d)) as H. by rewrite Hjob in H.
Qed.

Lemma change_later d d' : consistent d -> change d d' -> later d d'.
Proof.
  intros C [s dg Hr Hs|op|q s im a job qd Hc Hs|i m op im Hm|e He Hok|q Hq|c].
  - by apply later_reserve.
  - by apply later_upload.
  - by eapply later_complete.
  - by apply later_move.
  - split; simpl; try done; eauto using import_later_refl, operation_later_refl.
  - split; simpl; try done; eauto using import_later_refl, operation_later_refl.
  - split; simpl; try done; eauto using import_later_refl, operation_later_refl.
Qed.

Lemma replay_steps h d : issued_history h -> consistent d -> consistent (replay h d) /\ later d (replay h d).
Proof.
  intros Hh. revert d. induction Hh as [|[c fs] h Hc Hh IH]; intros d C; [done|]. cbn [replay foldl fst snd].
  destruct (perform_change c fs d Hc (con_queue _ C)) as [->|Hch]; [by apply IH|].
  destruct (IH _ (change_consistent _ _ C Hch)) as [C' L]. split; [exact C'|].
  etrans; [by apply change_later|exact L].
Qed.

(** After one healthy call. *)
Lemma after_call c d d1 : issued c = true -> consistent d -> perform c [] d = d1 -> consistent d1.
Proof. intros Hi C <-. by apply (replay_steps [(c, [])]); [constructor|]. Qed.

(** C1.  Imports, evidence, operations, jobs and claims agree in every state:
    whatever calls run in whatever order on whatever connections, an operation
    and its import are in matching states, an import that was completed has
    exactly one operation with a job in the queue, evidence backs every import
    past its upload, every claim has its resource, and every scan has its scope
    and is the only one of its run. *)
Theorem pipeline_consistent (h : history) d : issued_history h -> consistent d -> consistent (replay h d).
Proof. intros Hh C. by apply replay_steps. Qed.

(** C3.  Nothing that was accepted is taken back: whatever runs, claims, imports,
    analysis contexts, operations, jobs, scans and parser output stay, imports
    and operations only change their state, final states and committed
    evidence do not change at all. *)
Theorem pipeline_keeps (h : history) d : issued_history h -> consistent d -> later d (replay h d).
Proof. intros Hh C. by apply replay_steps. Qed.
End Theorems.
End PipelineTheorems.
