(* ===== verification/ProcessingTheorems.v ===== *)
(** * Processing: results are final and repeatable

    The theorems on the operations an import job calls: a published result or
    failure can be published again and nothing else, whatever happened in
    between; a scan and a parser output are stored once, completely, and
    redelivery finds them. *)

From S2P Require Import Prelude GoStrings Encoding Txn Json JsonFacts Queue Lifecycle QueueRefinement QueueTheorems.
From S2P Require Import Records Idempotency Catalog Blobstore Uploads Scans Ingestion Processing Pipeline.
From S2P Require Import PipelineTheorems.

Local Open Scope Z_scope.

Module ProcessingTheorems.
Import Idempotency Uploads Scans Ingestion Processing Pipeline PipelineTheorems.

(** ** The stored result *)

(** Members that PostgreSQL's jsonb type keeps as they are. *)
Definition flat (kv : string * json) : Prop :=
  ValidString (fst kv) = true /\ ((exists s, snd kv = JStr s /\ ValidString s = true) \/ exists n, snd kv = JInt n).

(** Documented behaviour of jsonb: an object without duplicate keys is read
    back with the same members, in an order of its own. *)
Definition jsonb_keeps_flat {pg : Postgres} : Prop := forall l j,
  Forall flat l -> NoDup (map fst l) -> jsonb_in (print (JObj l)) = Some j ->
  exists l', decode_text j = Some (JObj l') /\ l' ≡ₚ l.

Lemma permutation_three {A} (a b c : A) l : l ≡ₚ [a; b; c] ->
  l = [a; b; c] \/ l = [a; c; b] \/ l = [b; a; c] \/ l = [b; c; a] \/ l = [c; a; b] \/ l = [c; b; a].
Proof.
  intros H. pose proof (Permutation_length H) as Hlen. destruct l as [|x [|y [|z [|]]]]; try done.
  assert (x ∈ [a; b; c]) as Hx by (rewrite <- H; set_solver).
  rewrite !elem_of_cons, elem_of_nil in Hx. destruct Hx as [->|[->|[->|[]]]].
  - apply Permutation_cons_inv, Permutation_length_2_inv in H as [[= -> ->]|[= -> ->]]; tauto.
  - rewrite (Permutation_swap b a [c]) in H.
    apply Permutation_cons_inv, Permutation_length_2_inv in H as [[= -> ->]|[= -> ->]]; tauto.
  - assert ([a; b; c] ≡ₚ [c; a; b]) as E by (apply Permutation_sym, (Permutation_cons_append [a; b] c)). rewrite E in H.
    apply Permutation_cons_inv, Permutation_length_2_inv in H as [[= -> ->]|[= -> ->]]; tauto.
Qed.

Lemma unmarshal_published text l importID n : decode_text text = Some (JObj l) ->
  l ≡ₚ [("import_id", JStr importID); ("import_state", JStr "succeeded"); ("scans_created", JInt n)] -> in_int64 n ->
  unmarshal_result text = Some {| or_ImportID := importID; or_ImportState := "succeeded"; or_ScansCreated := n |}.
Proof.
  intros Hd Hl Hn. unfold unmarshal_result. rewrite Hd.
  apply permutation_three in Hl as [->|[->|[->|[->|[->| ->]]]]]; unfold JInt; cbn [foldl];
    unfold put_result_field; cbn [fst snd];
    change (fold_name "import_id") with "import_id"; change (fold_name "import_state") with "import_state";
    change (fold_name "scans_created") with "scans_created"; cbn [String.eqb Ascii.eqb Bool.eqb];
    rewrite parse_int_itoa by done; reflexivity.
Qed.

Section Theorems.
Context {pg : Postgres}.

Lemma result_flat importID n : ValidString importID = true ->
  Forall flat [("import_id", JStr importID); ("import_state", JStr "succeeded"); ("scans_created", JInt n)] /\
  NoDup (map fst [("import_id", JStr importID); ("import_state", JStr "succeeded"); ("scans_created", JInt n)]).
Proof.
  intros Hv. split.
  - apply Forall_cons_2; [split; [done|left; by exists importID]|].
    apply Forall_cons_2; [split; [done|left; by exists "succeeded"]|].
    apply Forall_cons_2; [split; [done|right; by exists n]|done].
  - cbn [map fst]. repeat constructor; set_solver.
Qed.

Lemma validOpaqueID_valid v : validOpaqueID v = true -> ValidString v = true.
Proof. unfold validOpaqueID. intros H. by simp_bool. Qed.

(** The pair found after a transition. *)
Lemma find_moved i m op im d : can_move i m op im d ->
  find_processing i (moved i m op im d) = Some (move_operation m op, move_import m im).
Proof.
  intros [Hf _ _]. pose proof (find_processing_spec _ _ _ _ Hf) as (_ & _ & Hi & Hc & Hk).
  destruct (move_keeps m op im) as (K1 & K2 & K3 & _ & _). unfold find_processing. simpl.
  by rewrite !lookup_insert_eq, K1, K2, K3, Hi, Hc, Hk, !String.eqb_refl.
Qed.

(** A pair in final states stays the pair that is found. *)
Lemma find_later i d d' op im : later d d' -> find_processing i d = Some (op, im) ->
  finished_state (op_state op) = true -> settled (im_state im) = true -> find_processing i d' = Some (op, im).
Proof.
  intros L Hf Ho Hs. pose proof (find_processing_spec _ _ _ _ Hf) as (Hop & Him & Hi & Hc & Hk).
  destruct (lt_operations _ _ L _ _ Hop) as (op' & Hop' & _ & _ & _ & _ & Hfro).
  destruct (lt_imports _ _ L _ _ Him) as (im' & Him' & _ & Hset & _).
  unfold find_processing. rewrite Hop', Him', (Hfro Ho), (Hset Hs), Hi, Hc, Hk. by rewrite !String.eqb_refl.
Qed.

(** After a successful publication. *)
Lemma published_result i n t d d1 : jsonb_keeps_flat -> in_int64 n -> exec (CompleteProcessing i n t) d = (Ok tt, d1) ->
  validateProcessingIdentity i = true /\ 0 <= n /\
  exists op im, find_processing i d1 = Some (op, im) /\ op_state op = OperationSucceeded /\
    im_state im = ImportSucceeded /\ same_result i n op im = true.
Proof.
  intros Hj Hn Hx. assert (validateProcessingIdentity i = true /\ 0 <= n) as [Hv Hpos].
  { unfold exec, run_on, CompleteProcessing in Hx. destruct (_ || _) eqn:E; [done|]. by simp_bool. }
  split; [done|]. split; [done|].
  apply CompleteProcessing_effect in Hx as [(? & ? & _)|(op & im & Hf & _ & [(Hs & Hr & ->)|(j & Hjs & Hm & ->)])]; [done|..].
  - exists op, im. split_and!; try done. unfold same_result in Hr. destruct (unmarshal_result _); [|done]. by simp_bool.
  - exists (move_operation (MoveSucceed j t) op), (move_import (MoveSucceed j t) im).
    split; [by apply find_moved|]. split_and!; [done..|]. unfold same_result. simpl.
    assert (ValidString (pi_ImportID i) = true) as Hvi.
    { apply validOpaqueID_valid. unfold validateProcessingIdentity in Hv. by simp_bool. }
    destruct (result_flat (pi_ImportID i) n Hvi) as [Hfl Hnd].
    destruct (Hj _ _ Hfl Hnd Hjs) as (l & Hd & Hl). rewrite (unmarshal_published _ _ _ _ Hd Hl Hn). simpl.
    by rewrite String.eqb_refl, Z.eqb_refl.
Qed.

(** C22.  A published result is final and repeatable: after CompleteProcessing
    succeeded, whatever calls ran in between, publishing the same number of
    scans again succeeds and changes nothing, another number or a failure is
    refused as a conflict and changes nothing, and starting again changes
    nothing. *)
Theorem result_final i n t d d1 (h : history) : jsonb_keeps_flat -> in_int64 n -> consistent d ->
  exec (CompleteProcessing i n t) d = (Ok tt, d1) -> issued_history h ->
  let d2 := replay h d1 in
  (forall t', t' <> 0 -> exec (CompleteProcessing i n t') d2 = (Ok tt, d2)) /\
  (forall n' t', n' <> n -> 0 <= n' -> t' <> 0 -> exec (CompleteProcessing i n' t') d2 = (Err ErrProcessingConflict, d2)) /\
  (forall f t', validFailure f = true -> t' <> 0 ->
     exec (FailProcessing i f t') d2 = (Err ErrProcessingConflict, d2)) /\
  (forall t', snd (exec (BeginProcessing i t') d2) = d2).
Proof.
  intros Hj Hn C0 Hx Hh d2. pose proof (after_call (CallSucceed i n t) d _ eq_refl C0 (f_equal snd Hx)) as C.
  destruct (published_result _ _ _ _ _ Hj Hn Hx) as (Hv & Hpos & op & im & Hf & Ho & Hs & Hr).
  assert (find_processing i d2 = Some (op, im)) as Hf2.
  { eapply find_later; [by apply replay_steps|done|by rewrite Ho|by rewrite Hs]. }
  assert (forall t', t' <> 0 -> IsZero t' = false) as Hz by (intros; by apply Z.eqb_neq).
  split_and!.
  - intros t' Ht. unfold exec, run_on, CompleteProcessing.
    rewrite Hv, (proj2 (Z.ltb_ge n 0)), Hz by done. cbn [negb orb]. rewrite run_begin. unfold query.
    cbn [bind run next_fault faults tick tail working committed]. rewrite Hf2, Ho, Hr. done.
  - intros n' t' Hne Hpos' Ht. unfold exec, run_on, CompleteProcessing.
    rewrite Hv, (proj2 (Z.ltb_ge n' 0)), Hz by done. cbn [negb orb]. rewrite run_begin. unfold query.
    cbn [bind run next_fault faults tick tail working committed]. rewrite Hf2, Ho.
    assert (same_result i n' op im = false) as ->; [|done].
    unfold same_result in *. destruct (unmarshal_result _) as [r|]; [|done]. simp_bool.
    rewrite (proj2 (Z.eqb_neq _ _)) by lia. by rewrite andb_false_r.
  - intros f t' Hvf Ht. unfold exec, run_on, FailProcessing. rewrite Hv, Hvf, Hz by done. cbn [negb orb].
    rewrite run_begin. unfold query. cbn [bind run next_fault faults tick tail working committed].
    rewrite Hf2, Ho. done.
  - intros t'. destruct (exec (BeginProcessing i t') d2) as [r d3] eqn:E. simpl.
    apply BeginProcessing_effect in E as [(? & _ & ->)|(op' & im' & a & c & s0 & Hsrc & _ & [(_ & _ & ->)|(_ & _ & [Hfd Ha _] & _)])];
      [done|done|]. rewrite Hf2 in Hfd. injection Hfd as <- <-. unfold move_allowed in Ha. by rewrite Ho in Ha.
Qed.

(** A published failure is final and repeatable in the same way. *)
Theorem failure_final i f t d d1 (h : history) : consistent d ->
  exec (FailProcessing i f t) d = (Ok tt, d1) -> issued_history h ->
  let d2 := replay h d1 in
  (forall f' t', validFailure f' = true -> t' <> 0 ->
     exec (FailProcessing i f' t') d2 =
       (if String.eqb (pf_Code f) (pf_Code f') then Ok tt else Err ErrProcessingConflict, d2)) /\
  (forall n t', 0 <= n -> t' <> 0 -> exec (CompleteProcessing i n t') d2 = (Err ErrProcessingConflict, d2)) /\
  (forall t', snd (exec (BeginProcessing i t') d2) = d2).
Proof.
  intros C0 Hx Hh d2. pose proof (after_call (CallFail i f t) d _ eq_refl C0 (f_equal snd Hx)) as C.
  assert (validateProcessingIdentity i = true) as Hv.
  { unfold exec, run_on, FailProcessing in Hx. destruct (_ || _) eqn:E; [done|]. by simp_bool. }
  assert (exists op im, find_processing i d1 = Some (op, im) /\ op_state op = OperationFailed /\
    op_failure_code op = Some (pf_Code f) /\ im_state im = ImportFailed) as (op & im & Hf & Ho & Hc & Hs).
  { apply FailProcessing_effect in Hx as [(? & ? & _)|(op & im & Hf & _ & [(Ho & Hc & Hs & ->)|(Hm & ->)])]; [done|by exists op, im|].
    eexists _, _. split; [by apply find_moved|done]. }
  assert (find_processing i d2 = Some (op, im)) as Hf2.
  { eapply find_later; [by apply replay_steps|done|by rewrite Ho|by rewrite Hs]. }
  assert (forall t', t' <> 0 -> IsZero t' = false) as Hz by (intros; by apply Z.eqb_neq).
  split_and!.
  - intros f' t' Hvf Ht. unfold exec, run_on, FailProcessing. rewrite Hv, Hvf, Hz by done. cbn [negb orb].
    rewrite run_begin. unfold query. cbn [bind run next_fault faults tick tail working committed].
    rewrite Hf2, Ho, Hc, Hs. simpl. by destruct (String.eqb _ _).
  - intros n t' Hpos Ht. unfold exec, run_on, CompleteProcessing.
    rewrite Hv, (proj2 (Z.ltb_ge n 0)), Hz by done. cbn [negb orb]. rewrite run_begin. unfold query.
    cbn [bind run next_fault faults tick tail working committed]. rewrite Hf2, Ho. done.
  - intros t'. destruct (exec (BeginProcessing i t') d2) as [r d3] eqn:E. simpl.
    apply BeginProcessing_effect in E as [(? & _ & ->)|(op' & im' & a & c & s0 & Hsrc & _ & [(_ & _ & ->)|(_ & _ & [Hfd Ha _] & _)])];
      [done|done|]. rewrite Hf2 in Hfd. injection Hfd as <- <-. unfold move_allowed in Ha. by rewrite Ho in Ha.
Qed.

(** ** Scans *)

(** A redelivered run: another identity and a later time. *)
Definition redelivered (id : string) (t : time) (s : ScanSpec) : ScanSpec := {|
  sn_ID := id; sn_WorkspaceID := sn_WorkspaceID s; sn_ImportID := sn_ImportID s;
  sn_ApplicationID := sn_ApplicationID s; sn_RawArtifactID := sn_RawArtifactID s;
  sn_AnalysisContextImportID := sn_AnalysisContextImportID s; sn_SourceRunIndex := sn_SourceRunIndex s;
  sn_Result := sn_Result s; sn_Completeness := sn_Completeness s; sn_ScannerName := sn_ScannerName s;
  sn_ScannerFullName := sn_ScannerFullName s; sn_ScannerVersion := sn_ScannerVersion s;
  sn_ScannerSemanticVersion := sn_ScannerSemanticVersion s; sn_AutomationID := sn_AutomationID s;
  sn_AutomationGUID := sn_AutomationGUID s; sn_AutomationCorrelationGUID := sn_AutomationCorrelationGUID s;
  sn_ParserName := sn_ParserName s; sn_ParserVersion := sn_ParserVersion s; sn_SourcePointer := sn_SourcePointer s;
  sn_SourceStartedAt := sn_SourceStartedAt s; sn_SourceEndedAt := sn_SourceEndedAt s; sn_RecordedAt := t;
  sn_Scope := sn_Scope s |}.

Lemma find_run_some s e k r : evidence_ok e -> scans e !! k = Some r -> same_run s (sr_spec r) = true ->
  find_run s e = Some r.
Proof.
  intros Hok Hr Hs. unfold find_run.
  assert (r ∈ rows_where (fun r => same_run s (sr_spec r)) (scans e)) as Hin by (apply elem_of_rows_where; eauto).
  destruct (rows_where _ _) as [|r' l] eqn:E; [by apply not_elem_of_nil in Hin|]. simpl.
  assert (r' ∈ rows_where (fun r => same_run s (sr_spec r)) (scans e)) as Hin' by (rewrite E; left).
  apply elem_of_rows_where in Hin' as [[k' Hr'] Hs']. apply same_run_spec in Hs, Hs'.
  assert (k = k') as ->; [|congruence].
  eapply (ek_runs _ Hok); [done..|]. apply same_run_spec. destruct Hs as (<- & <- & <-). exact Hs'.
Qed.

Lemma find_run_spec s e r : find_run s e = Some r ->
  exists k, scans e !! k = Some r /\ same_run s (sr_spec r) = true.
Proof.
  unfold find_run. intros H.
  assert (r ∈ rows_where (fun r => same_run s (sr_spec r)) (scans e)) as Hin; [|].
  { destruct (rows_where _ _); [done|]. injection H as ->. left. }
  apply elem_of_rows_where in Hin as [[k Hk] Hs]. eauto.
Qed.

(** The scan of a source run, with its scope, as it is stored. *)
Record run_stored (s : ScanSpec) (fps : string * string) (out : StoredScan) (d : ingestion) : Prop := {
  rn_found : exists r sc, find_run s (evidence_db d) = Some r /\ scopes (evidence_db d) !! scan_key (sr_spec r) = Some sc /\
    (sr_fingerprint r, ss_fingerprint sc) = fps /\
    (st_ID out, st_ImportID out, st_ReceivedAt out) = (sn_ID (sr_spec r), sn_ImportID (sr_spec r), sr_received r);
  rn_source : exists rcv, scan_source s d = Some (Some rcv) /\ rcv <= sn_RecordedAt s /\ check_scan (new_scan s rcv (fst fps)) = true
}.

Lemma selectStoredScan_run s d fps out0 : selectStoredScan s d = Some (out0, fps) ->
  exists r sc, find_run s (evidence_db d) = Some r /\ scopes (evidence_db d) !! scan_key (sr_spec r) = Some sc /\
    (sr_fingerprint r, ss_fingerprint sc) = fps /\ out0 = stored_scan (sr_spec r) (sr_received r) (sr_recorded r) false.
Proof.
  unfold selectStoredScan. destruct (find_run s _) as [r|]; [|done]. fold (scan_key (sr_spec r)).
  destruct (scopes _ !! _) as [sc|] eqn:E; [|done]. intros [= <- <-]. eauto 10.
Qed.

(** After a successful recording. *)
Lemma recorded_run s d out d1 : consistent d -> exec (RecordScan s) d = (Ok out, d1) ->
  exists scope fps, canonicalizeScanSpec s = Ok (scope, fps) /\ run_stored s fps out d1.
Proof.
  intros C0 Hx. pose proof (after_call (CallScan s) d _ eq_refl C0 (f_equal snd Hx)) as C.
  pose proof Hx as Hok. apply RecordScan_ok in Hok as (scope & fps & rcv & Hc & Hsrc & Hle & Hcase).
  exists scope, fps. split; [done|]. split.
  - destruct Hcase as [[-> Hsel]|(cov & _ & _ & Hno & Hfree & Hs & -> & ->)].
    + apply selectStoredScan_run in Hsel as (r & sc & ? & ? & ? & ->). exists r, sc. done.
    + eexists _, _. split; [eapply (find_run_some _ _ (scan_key s)); [apply C|apply lookup_insert_eq|]|].
      { by apply same_run_spec. }
      split; [apply lookup_insert_eq|]. by destruct fps.
  - exists rcv. split_and!; [|done|].
    + destruct Hcase as [[-> _]|(cov & _ & _ & _ & _ & _ & _ & ->)]; done.
    + revert Hx. rewrite RecordScan_exec, Hc, Hsrc, (proj2 (Z.ltb_ge _ _) Hle).
      unfold record_outcome, store_scan, zoom_statement, insert_scan.
      destruct (check_scan (new_scan s rcv (fst fps))); done.
Qed.

Lemma scan_source_later s d d' rcv : later d d' -> scan_source s d = Some rcv -> scan_source s d' = Some rcv.
Proof.
  intros L. unfold scan_source.
  destruct (imports (upload_db d) !! _) as [im|] eqn:Him; [|done].
  destruct (artifacts (upload_db d) !! _) as [a|] eqn:Ha; [|done]. destruct (_ && _) eqn:E; [|done].
  destruct (lt_imports _ _ L _ _ Him) as (im' & -> & Eim & _). simp_bool.
  rewrite (lt_evidence _ _ L _ _ Ha) by done. rewrite Eim. cbn [im_application set_import_state].
  by rewrite bool_decide_eq_true_2, !(proj2 (String.eqb_eq _ _)).
Qed.

Lemma run_stored_later s fps out d d' : evidence_ok (evidence_db d') -> later d d' -> run_stored s fps out d ->
  run_stored s fps out d'.
Proof.
  intros Hok L [(r & sc & Hr & Hsc & Hf & Ho) (rcv & Hsrc & Hle & Hck)]. split.
  - destruct (find_run_spec _ _ _ Hr) as (k & Hk & Hs). destruct (lt_records _ _ L) as [Hss Hsp _ _].
    exists r, sc. split_and!; [|by eapply lookup_weaken|done..].
    eapply find_run_some; [done|by eapply lookup_weaken|done].
  - exists rcv. split; [by eapply scan_source_later|done].
Qed.

Lemma redelivered_canonical id t s scope fps : canonicalizeScanSpec s = Ok (scope, fps) ->
  validOpaqueID id = true -> t <> 0 -> canonicalizeScanSpec (redelivered id t s) = Ok (scope, fps).
Proof.
  unfold canonicalizeScanSpec, validScanIdentity. intros Hc Hid Ht.
  change (validScanner (redelivered id t s)) with (validScanner s).
  change (scan_text (redelivered id t s)) with (scan_text s).
  change (ordered_times (redelivered id t s)) with (ordered_times s). cbn [redelivered sn_ID sn_RecordedAt
    sn_WorkspaceID sn_ImportID sn_ApplicationID sn_RawArtifactID sn_SourceRunIndex sn_Result sn_Completeness
    sn_AnalysisContextImportID sn_Scope]. rewrite Hid. assert (IsZero t = false) as -> by (by apply Z.eqb_neq).
  destruct (validOpaqueID (sn_ID s)); [|done]. destruct (IsZero (sn_RecordedAt s)); [by rewrite andb_false_r in Hc|done].
Qed.

Lemma redelivered_check id t s rcv fp : check_scan (new_scan s rcv fp) = true -> validOpaqueID id = true ->
  sn_RecordedAt s <= t -> check_scan (new_scan (redelivered id t s) rcv fp) = true.
Proof.
  unfold check_scan. cbn [new_scan sr_spec sr_started sr_ended sr_received sr_recorded sr_fingerprint redelivered sn_ID
    sn_RecordedAt sn_SourceRunIndex sn_Result sn_Completeness sn_ScannerName sn_ScannerFullName sn_ScannerVersion
    sn_ScannerSemanticVersion sn_AutomationID sn_AutomationGUID sn_AutomationCorrelationGUID sn_ParserName
    sn_ParserVersion sn_SourcePointer sn_SourceStartedAt sn_SourceEndedAt sn_AnalysisContextImportID sn_ImportID].
  intros Hck Hid Ht. rewrite (validOpaqueID_length _ Hid). pose proof (store_time_mono _ _ Ht) as Hm.
  destruct (rcv <=? store_time (sn_RecordedAt s)) eqn:E; [|by rewrite !andb_false_r in Hck]. apply Z.leb_le in E.
  rewrite (proj2 (Z.leb_le rcv (store_time t))) by lia.
  destruct (JobQueue.char_length_between 3 128 (sn_ID s)); [exact Hck|done].
Qed.

(** A run that is stored answers every later recording of it. *)
Lemma run_stored_answer s s' fps out d : consistent d -> run_stored s fps out d -> same_run s s' = true ->
  (forall r d', exec (RecordScan s') d = (Ok r, d') ->
     d' = d /\ st_ID r = st_ID out /\ st_Created r = false /\ exists scope, canonicalizeScanSpec s' = Ok (scope, fps)) /\
  (forall scope rcv, canonicalizeScanSpec s' = Ok (scope, fps) -> scan_source s' d = Some (Some rcv) ->
     rcv <= sn_RecordedAt s' -> check_scan (new_scan s' rcv (fst fps)) = true ->
     exists r, exec (RecordScan s') d = (Ok r, d)).
Proof.
  intros C [(r & sc & Hr & Hsc & Hf & Ho) _] Hs.
  assert (find_run s' (evidence_db d) = Some r) as Hr'.
  { destruct (find_run_spec _ _ _ Hr) as (k & Hk & Hsr). eapply find_run_some; [apply C|done|].
    apply same_run_spec in Hs, Hsr. apply same_run_spec. destruct Hs as (<- & <- & <-). exact Hsr. }
  assert (selectStoredScan s' d = Some (stored_scan (sr_spec r) (sr_received r) (sr_recorded r) false, fps)) as Hsel.
  { unfold selectStoredScan. rewrite Hr'. fold (scan_key (sr_spec r)). by rewrite Hsc, Hf. }
  split.
  - intros r0 d' Hx. apply RecordScan_ok in Hx as (scope & fps' & rcv & Hc & _ & _ & [[-> Hsel']|(cov & _ & _ & Hno & _)]);
      [|congruence]. rewrite Hsel in Hsel'. injection Hsel' as <- <-. split_and!; [done| |done|eauto].
    simpl. by injection Ho.
  - intros scope rcv Hc Hsrc Hle Hck. rewrite RecordScan_exec, Hc, Hsrc, (proj2 (Z.ltb_ge _ _) Hle).
    unfold record_outcome, store_scan, zoom_statement, insert_scan. cbn [view evidence_lens].
    change (sr_spec (new_scan s' rcv (fst fps))) with s'. rewrite Hck, Hr'. cbn [negb is_null Z.eqb].
    assert (put_back (evidence_db d) d = d) as -> by (by destruct d). rewrite Hsel.
    destruct fps as [fp1 fp2]. unfold same_fp, pair_fingerprint. cbn [fst snd]. rewrite !String.eqb_refl. simpl. eauto.
Qed.

(** Redelivery of a run is harmless: after a scan was recorded, whatever calls
    ran in between, recording the same run again under a fresh identity at a
    later time succeeds, changes nothing and answers the original scan; and
    whatever is ever accepted for that run has the fingerprints of the
    original and changes nothing. *)
Theorem scan_replay s d out d1 (h : history) : consistent d ->
  exec (RecordScan s) d = (Ok out, d1) -> issued_history h ->
  let d2 := replay h d1 in
  (forall id t, validOpaqueID id = true -> t <> 0 -> sn_RecordedAt s <= t ->
     exists again, exec (RecordScan (redelivered id t s)) d2 = (Ok again, d2) /\
       st_ID again = st_ID out /\ st_Created again = false) /\
  (forall s' other d3, same_run s s' = true -> exec (RecordScan s') d2 = (Ok other, d3) ->
     d3 = d2 /\ st_ID other = st_ID out /\ st_Created other = false /\
     exists scope scope' fps, canonicalizeScanSpec s = Ok (scope, fps) /\ canonicalizeScanSpec s' = Ok (scope', fps)).
Proof.
  intros C0 Hx Hh d2. pose proof (after_call (CallScan s) d _ eq_refl C0 (f_equal snd Hx)) as C1. cbn [snd] in C1.
  destruct (recorded_run _ _ _ _ C0 Hx) as (scope & fps & Hc & Hrun).
  destruct (replay_steps h d1 Hh C1) as [C2 L]. fold d2 in C2, L.
  pose proof (run_stored_later _ _ _ _ _ (con_evidence _ C2) L Hrun) as Hrun2. split.
  - intros id t Hid Ht Hle. destruct (run_stored_answer s (redelivered id t s) fps out d2 C2 Hrun2) as [Huniq Hans];
      [by apply same_run_spec|].
    destruct (rn_source _ _ _ _ Hrun2) as (rcv & Hsrc & Hrcv & Hck).
    destruct (Hans scope rcv) as [r Hr]; [by apply redelivered_canonical|done|simpl; lia|by apply redelivered_check|].
    exists r. split; [done|]. by destruct (Huniq _ _ Hr) as (_ & ? & ? & _).
  - intros s' other d3 Hs Hx'. destruct (run_stored_answer s s' fps out d2 C2 Hrun2 Hs) as [Huniq _].
    destruct (Huniq _ _ Hx') as (? & ? & ? & scope' & Hc'). split_and!; eauto.
Qed.

End Theorems.
End ProcessingTheorems.
