(* ===== verification/ImportJobFacts.v ===== *)
(** * Databases that only advance

    [Module ImportJobFacts] has what the theorems on the import job rest on: the
    calls that other processes may make between two calls of a handler, the
    order in which databases advance, the records that, once stored, stay, what
    the answers of the stores mean, and what the parser has read when it
    returns a document. *)

From S2P Require Import Prelude GoStrings Encoding Txn Json GoTime Unmarshal Queue Worker Records Catalog Blobstore Streams.
From S2P Require Import Sarif Finding Normalizer Correlation Uploads Scans Ingestion Processing.
From S2P Require Import IngestionService ImportJob Pipeline PipelineTheorems ProcessingTheorems.

Local Open Scope Z_scope.

Module ImportJobFacts.
Import Uploads Scans Ingestion Processing Pipeline PipelineTheorems ProcessingTheorems ImportJob.

Section Facts.
Context {pg : Postgres}.

(** ** The other users of the database *)

Inductive event :=
| Ingests (c : call) (fs : list fault)
| Records (r : Correlation.recording) (fs : list fault).

Definition happen (d : database) (e : event) : database :=
  match e with
  | Ingests c fs => set_ingestion (perform c fs (ingestion_db d)) d
  | Records r fs => set_findings (Correlation.perform r fs (findings_of d)) d
  end.

Definition happened (l : list event) (d : database) : database := foldl happen d l.
Definition issued_event (e : event) : bool := match e with Ingests c _ => issued c | Records _ _ => true end.

(** ** What lasts *)

(** Rows of the finding tables stay. *)
Record kept (f f' : Finding.findings) : Prop := {
  kept_observations : Finding.observations f ⊆ Finding.observations f';
  kept_locations : Finding.locations f ⊆ Finding.locations f';
  kept_fingerprints : Finding.fingerprints f ⊆ Finding.fingerprints f';
  kept_normalizations : Finding.normalizations f ⊆ Finding.normalizations f';
  kept_outcomes : Finding.outcomes f ⊆ Finding.outcomes f'
}.

#[global] Instance kept_preorder : PreOrder kept.
Proof. split; [by split|]. intros ? ? ? [] []. split; by etrans. Qed.

(** Every observation is stored with its locations and source fingerprints. *)
Definition detailed (f : Finding.findings) : Prop := forall k r, Finding.observations f !! k = Some r ->
  let s := Finding.co_spec (Finding.ob_value r) in
  (forall l, l ∈ Finding.co_Locations (Finding.ob_value r) -> Finding.locations f !! Finding.location_key s l = Some l) /\
  (forall x, x ∈ Finding.co_Fingerprints (Finding.ob_value r) ->
     Finding.fingerprints f !! Finding.fingerprint_row_key s x = Some (Finding.fp_Value x)).

Lemma detailed_kept f f' : kept f f' -> Finding.observations f' = Finding.observations f -> detailed f -> detailed f'.
Proof.
  intros [_ Hl Hf _ _] Ho Hd k r. rewrite Ho. intros Hr. destruct (Hd k r Hr) as [H1 H2].
  split; intros x Hx; (eapply lookup_weaken; [by auto|done]).
Qed.

Lemma observation_detailed spec f : detailed f -> detailed (snd (exec (Finding.RecordObservation spec) f)).
Proof.
  intros Hd. destruct (exec (Finding.RecordObservation spec) f) as [[out|e] f'] eqn:E; simpl.
  - apply Finding.RecordObservation_ok in E as (c & fp & rcv & r & _ & _ & _ & _ & _ & _ & _ & _ & _ & [(-> & _)|Hout]); [done|].
    destruct Hout as (-> & _ & Hnone & Hrun). apply Finding.insert_details_inserts in Hrun as (Ef & Hl & Hf).
    intros k r. rewrite Ef. simpl. rewrite lookup_insert_Some. intros [[_ <-]|[_ Hr]].
    + simpl. split; intros x Hx; [apply Hl|apply Hf]; eauto.
    + destruct (Hd k r Hr) as [H1 H2]. split; intros x Hx; [apply Hl|apply Hf]; eauto.
  - enough (f' = f) as -> by done. revert E. rewrite Finding.RecordObservation_exec.
    unfold record_outcome, same_fp, text_fingerprint. repeat case_match; congruence.
Qed.

(** The other two recordings leave the observations alone. *)
Lemma perform_detailed r fs f : detailed f -> detailed (Correlation.perform r fs f).
Proof.
  intros Hd.
  assert (kept f (Correlation.perform r fs f)) as Hk by (destruct (Correlation.perform_grows r fs f); by split).
  destruct r as [s|s|s]; simpl in *.
  - destruct (atomic_db _ f fs (Finding.RecordObservation_atomic s)) as [->| ->]; [done|]. by apply observation_detailed.
  - apply (detailed_kept f); [done| |done].
    destruct (atomic_db _ f fs (Finding.RecordNormalization_atomic s)) as [->| ->]; [done|].
    rewrite Finding.RecordNormalization_exec. unfold record_outcome, Finding.insert_normalization. by repeat case_match; simplify_eq.
  - apply (detailed_kept f); [done| |done].
    destruct (atomic_db _ f fs (Correlation.RecordUncorrelated_atomic s)) as [->| ->]; [done|].
    rewrite Correlation.RecordUncorrelated_exec. unfold record_outcome, Correlation.insert_outcome. by repeat case_match; simplify_eq.
Qed.

(** What holds of the database at any time. *)
Definition sound (d : database) : Prop := consistent (ingestion_db d) /\ detailed (findings_db d).

(** A sound database that has everything the first one had. *)
Record advances (d d' : database) : Prop := {
  ad_sound : sound d';
  ad_later : later (ingestion_db d) (ingestion_db d');
  ad_kept : kept (findings_db d) (findings_db d')
}.

Lemma advances_refl d : sound d -> advances d d.
Proof. by split. Qed.

Lemma advances_trans d1 d2 d3 : advances d1 d2 -> advances d2 d3 -> advances d1 d3.
Proof. intros [_ L1 K1] [C2 L2 K2]. split; [done|by etrans..]. Qed.

Lemma call_advances c fs d : issued c = true -> sound d ->
  advances d (set_ingestion (perform c fs (ingestion_db d)) d).
Proof.
  intros Hi [C Hd]. destruct (replay_steps [(c, fs)] (ingestion_db d)) as [C' L]; [by constructor|done|].
  by split.
Qed.

Lemma recording_advances r fs d : sound d -> advances d (set_findings (Correlation.perform r fs (findings_of d)) d).
Proof.
  intros [C Hd]. split; [split; [done|by apply perform_detailed]|done|].
  destruct (Correlation.perform_grows r fs (findings_of d)). by split.
Qed.

Lemma happened_advances l d : Forall (fun e => issued_event e = true) l -> sound d -> advances d (happened l d).
Proof.
  intros Hl. revert d. induction Hl as [|e l He Hl IH]; intros d C; [by apply advances_refl|].
  assert (advances d (happen d e)) as H1.
  { destruct e; simpl in *; [by apply call_advances|by apply recording_advances]. }
  eapply advances_trans; [exact H1|]. apply IH. apply H1.
Qed.

(** The operation of a job and its import, once found, stay. *)
Definition known (i : ProcessingIdentity) (d : database) : Prop := is_Some (find_processing i (ingestion_db d)).

Lemma find_processing_later i d d' op im : later d d' -> find_processing i d = Some (op, im) ->
  exists op' im', find_processing i d' = Some (op', im') /\ operation_later op op' /\ import_later im im'.
Proof.
  intros L Hf. pose proof (find_processing_spec _ _ _ _ Hf) as (Hop & Him & Hi & Hc & Hk).
  destruct (lt_operations _ _ L _ _ Hop) as (op' & Hop' & Hl).
  destruct (lt_imports _ _ L _ _ Him) as (im' & Him' & Hm). exists op', im'. split; [|done].
  pose proof Hl as (E1 & E2 & E3 & _ & _). unfold find_processing. rewrite Hop', Him', E1, E2, E3, Hi, Hc, Hk.
  by rewrite !String.eqb_refl.
Qed.

Lemma known_stays i d d' : advances d d' -> known i d -> known i d'.
Proof.
  intros [_ L _] [[op im] Hf]. destruct (find_processing_later _ _ _ _ _ L Hf) as (op' & im' & Hf' & _). by exists (op', im').
Qed.

(** The operation has reached a state from which it does not move. *)
Definition ended (st : OperationState -> Prop) (i : ProcessingIdentity) (d : database) : Prop :=
  exists op im, find_processing i (ingestion_db d) = Some (op, im) /\ finished_state (op_state op) = true /\
    settled (im_state im) = true /\ st (op_state op).

Lemma ended_stays st i d d' : advances d d' -> ended st i d -> ended st i d'.
Proof.
  intros [_ L _] (op & im & Hf & Ho & Hs & Hst). exists op, im.
  split; [|done]. by eapply find_later.
Qed.

(** ** Stored records

    A record is stored when its key holds the fingerprint of the specification:
    by an earlier delivery of the same content or by this one. *)

Definition output_stored (s : ParseOutputSpec) (d : database) : Prop := exists fp r,
  canonicalizeParseOutput s = Ok (po_Warnings s, fp) /\
  outputs (evidence_db (ingestion_db d)) !! output_key s = Some r /\ pr_fingerprint r = fp.

Definition scan_stored (s : ScanSpec) (id : string) (d : database) : Prop := exists scope fps k r sc,
  canonicalizeScanSpec s = Ok (scope, fps) /\ scans (evidence_db (ingestion_db d)) !! k = Some r /\
  scopes (evidence_db (ingestion_db d)) !! k = Some sc /\ same_run s (sr_spec r) = true /\
  (sr_fingerprint r, ss_fingerprint sc) = fps /\ sn_ID (sr_spec r) = id.

Definition observation_stored (s : Finding.ObservationSpec) (id : string) (d : database) : Prop := exists c fp k r,
  Finding.canonicalizeObservation s = Ok (c, fp) /\ Finding.observations (findings_db d) !! k = Some r /\
  Finding.same_source s (Finding.co_spec (Finding.ob_value r)) = true /\ Finding.ob_fingerprint r = fp /\
  Finding.ID (Finding.co_spec (Finding.ob_value r)) = id.

Definition normalization_stored (s : Finding.NormalizationSpec) (d : database) : Prop := exists c fp r,
  Finding.canonicalizeNormalization s = Ok (c, fp) /\
  Finding.normalizations (findings_db d) !! Finding.normalization_key s = Some r /\ Finding.no_fingerprint r = fp.

Definition outcome_stored (s : Correlation.UncorrelatedSpec) (d : database) : Prop := exists c fp r,
  Correlation.canonicalizeUncorrelated s = Ok (c, fp) /\
  Finding.outcomes (findings_db d) !! Correlation.outcome_key s = Some r /\ Finding.ou_fingerprint r = fp.

Lemma output_stays s d d' : advances d d' -> output_stored s d -> output_stored s d'.
Proof.
  intros [_ L _] (fp & r & Hc & Hr & Hf). destruct (lt_records _ _ L). exists fp, r.
  split_and!; [done|by eapply lookup_weaken|done].
Qed.

Lemma scan_stays s id d d' : advances d d' -> scan_stored s id d -> scan_stored s id d'.
Proof.
  intros [_ L _] (scope & fps & k & r & sc & Hc & Hr & Hs & H). destruct (lt_records _ _ L).
  exists scope, fps, k, r, sc. split; [done|]. do 2 (split; [by eapply lookup_weaken|]). done.
Qed.

Lemma observation_stays s id d d' : advances d d' -> observation_stored s id d -> observation_stored s id d'.
Proof.
  intros [_ _ K] (c & fp & k & r & Hc & Hr & H). destruct K. exists c, fp, k, r.
  split; [done|]. split; [by eapply lookup_weaken|done].
Qed.

Lemma normalization_stays s d d' : advances d d' -> normalization_stored s d -> normalization_stored s d'.
Proof.
  intros [_ _ K] (c & fp & r & Hc & Hr & H). destruct K. exists c, fp, r. split_and!; [done|by eapply lookup_weaken|done].
Qed.

Lemma outcome_stays s d d' : advances d d' -> outcome_stored s d -> outcome_stored s d'.
Proof.
  intros [_ _ K] (c & fp & r & Hc & Hr & H). destruct K. exists c, fp, r. split_and!; [done|by eapply lookup_weaken|done].
Qed.

(** What the answers of the stores mean. *)
Lemma RecordParseOutput_stored s d i u : exec (RecordParseOutput s) (ingestion_db d) = (Ok u, i) ->
  output_stored s (set_ingestion i d).
Proof.
  intros (fp & Hc & [(-> & r & Hr & Hf)|(_ & Ho & _ & _)])%RecordParseOutput_ok; [by exists fp, r|].
  exists fp, (new_output s fp). split_and!; [done| |done]. simpl. rewrite Ho. apply lookup_insert_eq.
Qed.

Lemma RecordScan_stored s d i out : consistent (ingestion_db d) -> exec (RecordScan s) (ingestion_db d) = (Ok out, i) ->
  scan_stored s (st_ID out) (set_ingestion i d).
Proof.
  intros C Hx. pose proof (after_call (CallScan s) _ _ eq_refl C (f_equal snd Hx)) as C'.
  destruct (recorded_run _ _ _ _ C Hx) as (scope & fps & Hc & [(r & sc & Hr & Hs & Hf & Hid) _]).
  destruct (find_run_spec _ _ _ Hr) as (k & Hk & Hsame). pose proof (ek_keys _ (con_evidence _ C') _ _ Hk) as ->.
  injection Hid as E _ _. rewrite E. by exists scope, fps, (scan_key (sr_spec r)), r, sc.
Qed.

Lemma RecordObservation_stored s f f' d out : exec (Finding.RecordObservation s) f = (Ok out, f') ->
  findings_db d = f' -> observation_stored s (Finding.so_ID out) d.
Proof.
  intros (c & fp & rcv & r & Hc & _ & _ & _ & _ & _ & Hfind & Hfp & _ & Hout)%Finding.RecordObservation_ok <-.
  unfold Finding.find_source in Hfind.
  assert (r ∈ rows_where (fun r => Finding.same_source s (Finding.co_spec (Finding.ob_value r)))
              (Finding.observations (findings_db d))) as Hin.
  { destruct (rows_where _ _); [done|]. injection Hfind as ->. left. }
  apply elem_of_rows_where in Hin as [[k Hk] Hs]. exists c, fp, k, r. split_and!; [done..|].
  destruct Hout as [[_ ->]|(-> & -> & _)]; [done|]. by apply Finding.canonical_value in Hc as [_ ->].
Qed.

Lemma RecordNormalization_stored s f f' d out : exec (Finding.RecordNormalization s) f = (Ok out, f') ->
  findings_db d = f' -> normalization_stored s d /\ exists at_ created, out = Finding.stored_normalization s at_ created.
Proof.
  rewrite Finding.RecordNormalization_exec. destruct (Finding.canonicalizeNormalization s) as [[c fp]|] eqn:Hc; [|done].
  destruct (Finding.observation_recorded s f); [|done]. destruct (_ <? _); [done|]. intros Hx <-. unfold normalization_stored.
  assert (c = s) as ->.
  { unfold Finding.canonicalizeNormalization in Hc. destruct (_ && _); [|done]. by injection Hc as <- _. }
  apply record_outcome_ok in Hx as [(fp' & Hi & Hf & Hs)|(rows & f1 & Hi & Hr & -> & [= <-])];
    (split; [exists s, fp|]).
  - unfold Finding.find_normalization in Hf. destruct (Finding.normalizations _ !! _) as [r|]; [|done].
    injection Hf as _ <-. exists r. split_and!; [done..|]. unfold same_fp, text_fingerprint in Hs. by simp_bool.
  - unfold Finding.find_normalization in Hf. destruct (Finding.normalizations _ !! _) as [r|]; [|done].
    injection Hf as <- _. eauto.
  - unfold Finding.insert_normalization in Hi. destruct (negb _); [done|]. destruct (negb _).
    + by injection Hi as <- _.
    + injection Hi as _ <-. eexists. split_and!; [done|apply lookup_insert_eq|done].
  - eauto.
Qed.

Lemma RecordUncorrelated_stored s f f' d out : exec (Correlation.RecordUncorrelated s) f = (Ok out, f') ->
  findings_db d = f' -> outcome_stored s d.
Proof.
  intros (c & fp & at_ & r & Hc & _ & _ & Hr & Hf & _)%Correlation.RecordUncorrelated_ok <-. by exists c, fp, r.
Qed.

(** An operation and an import in agreement are open or final together. *)
Lemma agrees_open o s : operation_agrees o s = true -> is_open o = import_open s /\ finished_state o = settled s /\
  is_open o = negb (finished_state o).
Proof. by destruct o, s. Qed.

Lemma consistent_pair i d op im : consistent d -> find_processing i d = Some (op, im) ->
  operation_agrees (op_state op) (im_state im) = true.
Proof.
  intros C Hf. pose proof (find_processing_spec _ _ _ _ Hf) as (Hop & Him & Hi & _).
  destruct (con_agree _ C _ _ _ Hop) as (im' & Him' & Ha). unfold import_key in Him. rewrite Hi, Him in Him'.
  by injection Him' as <-.
Qed.

(** ** Calls of the stores *)

Definition database_error (e : error) : Prop := exists action, e = ErrDatabase action.

Lemma database_error_dec e : database_error e \/ ~ database_error e.
Proof. destruct e; (left; by eexists) || (right; by intros []). Qed.

Ltac reports := repeat first [progress (simpl; intros) | apply report_ret | apply report_begin | apply report_stmt
  | apply report_auto | apply report_commit | by eexists | case_match].

Lemma FailProcessing_reports i f t : calls_report database_error (FailProcessing i f t).
Proof. unfold FailProcessing, begin, query, statement, commit. reports. Qed.

Lemma Resolve_reports i : calls_report database_error (ResolveProcessingTarget i).
Proof. unfold ResolveProcessingTarget, autocommit. reports. Qed.

(** A failure that is not stored because of the state of the operation: the
    operation is final, or not there. *)
Lemma FailProcessing_refused i f t d fs e d' : consistent d -> run_on (FailProcessing i f t) d fs = (Err e, d') ->
  validateProcessingIdentity i = true -> validFailure f = true -> IsZero t = false -> ~ database_error e ->
  d' = d /\ (e = ErrProcessingNotFound /\ find_processing i d = None \/
    e = ErrProcessingConflict /\ exists op im, find_processing i d = Some (op, im) /\ finished_state (op_state op) = true).
Proof.
  intros C Hx Hv Hf Ht He. destruct (run_on_error _ _ _ _ _ _ (FailProcessing_reports i f t) Hx) as [?|[d'' Hx']]; [done|].
  assert (d' = d) as ->.
  { pose proof (FailProcessing_effect _ _ _ _ _ _ Hx') as [(? & _ & ->)|(? & ? & _ & ? & _)]; [|done].
    destruct (atomic_db (FailProcessing i f t) d fs (FailProcessing_atomic i f t)) as [E|E]; rewrite Hx, ?Hx' in E; done. }
  split; [done|]. revert Hx'. unfold exec, run_on, FailProcessing. rewrite Hv, Hf, Ht. cbn [negb orb].
  rewrite run_begin. unfold query. cbn [bind run next_fault faults tick tail working committed].
  destruct (find_processing i d) as [[op im]|] eqn:Efp; [|intros [= <- _]; by left].
  destruct (agrees_open _ _ (consistent_pair _ _ _ _ C Efp)) as (Ho & Hs & Hn).
  pose proof (find_processing_spec _ _ _ _ Efp) as (Hop & Him & _).
  destruct (op_state op) eqn:Eop; simpl in Ho, Hs, Hn.
  1,2: rewrite <- Ho; cbn [is_open negb orb]; rewrite run_statement, (update_import_hit _ _ _ _ _ im) by (done || by rewrite <- Ho);
    destruct (check_import _); [|intros [= <- _]; destruct He; by eexists];
    rewrite run_statement; unfold publish_failure; destruct (ValidString _); [|intros [= <- _]; destruct He; by eexists];
    rewrite (update_operation_hit _ _ _ _ op) by (done || by rewrite Eop);
    destruct (check_operation _ _); [done|intros [= <- _]; destruct He; by eexists].
  all: assert (finished_state (op_state op) = true) as Hfin by (by rewrite Eop).
  2: destruct (negb (String.eqb _ _) || _); [|done].
  all: intros [= <- _]; right; eauto.
Qed.

(** A program that keeps the database consistent and takes nothing back. *)
Definition moves {A} (p : prog ingestion error A) : Prop := forall fs d, consistent d ->
  consistent (snd (run_on p d fs)) /\ later d (snd (run_on p d fs)).

Lemma moves_call {A} (p : prog ingestion error A) c : issued c = true ->
  (forall fs d, snd (run_on p d fs) = perform c fs d) -> moves p.
Proof. intros Hi Hp fs d C. rewrite Hp. apply (replay_steps [(c, fs)] d); [by constructor|done]. Qed.

Lemma resolve_reads i d fs : snd (run_on (ResolveProcessingTarget i) d fs) = d.
Proof.
  unfold run_on, ResolveProcessingTarget, autocommit. destruct (negb _); [done|]. simpl. unfold next_fault. simpl.
  destruct (match fs with [] => Healthy | x :: _ => x end); simpl; [|done..].
  by destruct (find_processing i d) as [[op im]|].
Qed.

Lemma moves_resolve i : moves (ResolveProcessingTarget i).
Proof. intros fs d C. by rewrite resolve_reads. Qed.

(** ** Reading the evidence *)

Lemma stream_read_keeps n s bytes e s' : Streams.stream_read n s = (bytes, e, s') ->
  (bytes = Streams.body s /\ e = Some (Streams.ending s)) \/
  (e = None /\ bytes +:+ Streams.body s' = Streams.body s /\ Streams.ending s' = Streams.ending s).
Proof.
  unfold Streams.stream_read, Streams.body. destruct (Streams.chunks s) as [|c l] eqn:E; [intros [= <- <- <-]; by left|].
  destruct (slen c <=? n).
  { destruct (Streams.together s && _) eqn:Et; intros [= <- <- <-]; [left|by right]. simp_bool. subst l.
    simpl. by rewrite append_nil_r. }
  intros [= <- <- <-]. right. split_and!; try done. cbn [Streams.chunks foldr].
  by rewrite <- append_assoc, Blobstore.stake_sdrop.
Qed.

(** What [io.ReadAll] returns without an error, on any context and with any
    buffers: the whole stream, unless the limit was reached. *)
Lemma ReadAll_tracked ctx bufs : forall remaining k s err data out rest k' s',
  Sarif.ReadAll tracked_read ctx bufs (remaining, (k, (s, err))) data = Some (out, None, (rest, (k', s'))) ->
  exists part, out = data +:+ part /\ slen part = remaining - rest /\
    (0 < rest -> part = Streams.body s /\ Streams.ending s = Blobstore.EOF).
Proof.
  induction bufs as [|n bufs IH]; intros remaining k s err data out rest k' s'; [done|]. cbn [Sarif.ReadAll].
  unfold Sarif.limitedRead. destruct (Z.leb_spec remaining 0).
  { intros [= <- <- <- <-]. exists "". change (slen "") with 0. split_and!; [done|lia|lia]. }
  unfold Sarif.contextRead. destruct (Blobstore.ContextError (ctx k)) as [x|] eqn:Ex.
  { destruct (Blobstore.is_EOF (Some x)) eqn:Ee; [|done]. unfold Blobstore.is_EOF in Ee. simp_bool.
    injection Ee as ->. by apply Blobstore.ContextError_not_EOF in Ex. }
  unfold tracked_read. cbn [fst snd].
  destruct (Streams.stream_read (Z.min n remaining) s) as [[bytes e] s1] eqn:Es.
  apply stream_read_keeps in Es as [(-> & ->)|(-> & Hcat & Hend)].
  - destruct (Blobstore.is_EOF (Some (Streams.ending s))) eqn:Ee; [|done]. intros [= <- <- <- <-].
    exists (Streams.body s). split_and!; [done|lia|]. intros _.
    unfold Blobstore.is_EOF in Ee. simp_bool. by injection Ee as ->.
  - intros (part & -> & Hl & Hp)%IH. exists (bytes +:+ part). rewrite append_assoc, slen_app. split_and!; [done|lia|].
    intros Hr. destruct (Hp Hr) as [-> He]. by rewrite Hcat, <- Hend.
Qed.

(** A document is that of the whole stream, which ended. *)
Lemma parse_stream_whole limits ctx buffers r doc err : parse_stream limits ctx buffers r = (Ok doc, err) ->
  exists k, Sarif.parseData ctx limits (Streams.body (content r)) k = Ok doc /\
    Streams.ending (content r) = Blobstore.EOF.
Proof.
  unfold parse_stream, Sarif.Parse. unfold Sarif.contextError at 1. destruct (Sarif.done_ctx (ctx 0%nat)); [done|].
  destruct (Sarif.ReadAll _ _ _ _ _) as [[[out [e|]] [rest [k s']]]|] eqn:Er; [|..|done].
  - destruct s'. unfold Sarif.contextError. by destruct (Sarif.done_ctx (ctx k)).
  - apply ReadAll_tracked in Er as (part & -> & Hl & Hp). destruct s' as [s' e']. intros [= Hd _]. exists k.
    change ("" +:+ part) with part in Hd. assert (0 < rest) as Hr.
    { unfold Sarif.parseData in Hd. destruct (Z.leb_spec (slen part) (Sarif.MaxBytes limits)); [lia|done]. }
    destruct (Hp Hr) as [-> ?]. done.
Qed.

(** With room in every buffer and as many buffers as the stream has reads, the
    parser answers. *)
Lemma parse_answers limits ctx bufs s : Forall (fun n => 1 <= n) bufs -> (Streams.reads s <= length bufs)%nat ->
  is_Some (Sarif.Parse tracked_read bufs (Some limits) (Some ctx) (Some (s, None))).
Proof.
  intros Hb Hs. unfold Sarif.Parse. unfold Sarif.contextError at 1. destruct (Sarif.done_ctx (ctx 0%nat)); [eauto|].
  assert (forall remaining k s err data, (Streams.reads s <= length bufs)%nat ->
    is_Some (Sarif.ReadAll tracked_read ctx bufs (remaining, (k, (s, err))) data)) as Hread.
  { clear s Hs. induction Hb as [|n bufs Hn Hb IH]; intros remaining k s err data Hs.
    { assert (1 <= Streams.reads s)%nat; [|simpl in Hs; lia]. unfold Streams.reads. induction (Streams.chunks s); simpl; lia. }
    cbn [Sarif.ReadAll]. unfold Sarif.limitedRead. destruct (Z.leb_spec remaining 0); [eauto|].
    unfold Sarif.contextRead. destruct (Blobstore.ContextError (ctx k)); [eauto|]. unfold tracked_read. cbn [fst snd].
    destruct (Streams.stream_read (Z.min n remaining) s) as [[bytes e] s1] eqn:Es.
    apply Streams.stream_read_progress in Es as [(-> & -> & _)|(-> & _ & _ & Hlt)]; [eauto| |lia].
    apply IH. simpl in Hs. lia. }
  destruct (Hread (Sarif.MaxBytes limits + 1) 1%nat s None "" Hs) as [[[data [e|]] [rest [k [s' e']]]] ->]; eauto.
Qed.
End Facts.
End ImportJobFacts.
