(* ===== verification/ImportJobTheorems.v ===== *)
(** * What an import job does

    [Module ImportJobTheorems] proves what the handler of import.process jobs
    guarantees while other workers and services use the same database and
    every connection may fail at any call: a job is reported as succeeded
    only when its evidence has been parsed and every record derived from it is
    stored; a permanent outcome is reported only when there is no operation or
    it has reached its final state for good; and the outcome is one the queue accepts. *)

From S2P Require Import Prelude GoStrings Encoding Txn Json GoTime Unmarshal Queue Worker Records Catalog Blobstore Streams.
From S2P Require Import Sarif Finding Normalizer Correlation Uploads Scans Ingestion Processing.
From S2P Require Import IngestionService ImportJob Pipeline PipelineTheorems ProcessingTheorems ImportJobFacts.

Local Open Scope Z_scope.

Module ImportJobTheorems.
Import Uploads Scans Ingestion Processing Pipeline PipelineTheorems ProcessingTheorems ImportJob ImportJobFacts.
Import Worker(Outcome, OutcomeSucceeded, OutcomeRetryable, OutcomePermanent, OutcomeCancelled).

Section Theorems.
Context {pg : Postgres}.

(** ** The handler on one database *)

Section Handling.
#[local] Set Default Proof Using "Type*".
Context {B : Type} `{BlobReader B}.
Variables (config : Config) (limits : Sarif.Limits) (authorize : Catalog.AuthorizationRequest -> decision).
Variables (plan : nat -> list fault) (events : nat -> list event).
Variables (now : nat -> time) (random : nat -> option string).
Variables (ctx : nat -> Blobstore.ctx_state) (timed_out : bool) (buffers : Streams.stream -> list Z).
Hypothesis events_issued : forall k, Forall (fun e => issued_event e = true) (events k).
Hypothesis clock_set : forall k, Microsecond <= now k.

Local Notation world := (@ImportJob.world B).
Local Notation others := (fun k => happened (events k)).
Local Notation ingest := (ImportJob.ingest plan others).
Local Notation record_finding := (ImportJob.record_finding plan others).

Lemma ingest_step {A} (p : prog ingestion error A) (w : world) : moves p -> sound (db w) ->
  let w' := snd (ingest p w) in exists d0, advances (db w) d0 /\ advances d0 (db w') /\
    d0 = happened (events (calls w)) (db w) /\
    run_on p (ingestion_db d0) (plan (calls w)) = (fst (ingest p w), ingestion_db (db w')).
Proof.
  intros Hp C. unfold ImportJob.ingest. set (d0 := happened _ _).
  assert (advances (db w) d0) as H0 by (by apply happened_advances).
  destruct (Hp (plan (calls w)) (ingestion_db d0) (proj1 (ad_sound _ _ H0))) as [C1 L1].
  destruct (run_on p (ingestion_db d0) (plan (calls w))) as [r i'] eqn:E. simpl in *. exists d0. split_and!; [done| |done|done].
  split; [split; [done|apply H0]|done|done].
Qed.

Lemma record_step {E A} (p : prog Finding.findings E A) r (w : world) : sound (db w) ->
  (forall fs f, snd (run_on p f fs) = Correlation.perform r fs f) ->
  let w' := snd (record_finding p w) in exists d0, advances (db w) d0 /\ advances d0 (db w') /\
    run_on p (findings_of d0) (plan (calls w)) = (fst (record_finding p w), findings_db (db w')).
Proof.
  intros C Hp. unfold ImportJob.record_finding. set (d0 := happened _ _).
  assert (advances (db w) d0) as H0 by (by apply happened_advances).
  pose proof (recording_advances r (plan (calls w)) d0 (ad_sound _ _ H0)) as H1. rewrite <- Hp in H1.
  destruct (run_on p (findings_of d0) (plan (calls w))) as [x f] eqn:E'. simpl in *. by exists d0.
Qed.

Lemma timestamp_positive t (w : world) : 0 <= t -> 0 < fst (timestamp now t w).
Proof.
  intros Ht. unfold timestamp. simpl. pose proof (clock_set (readings w)) as Hc. unfold IngestionService.truncate, Microsecond in *.
  pose proof (Z.mod_pos_bound (now (readings w)) 1000 ltac:(lia)).
  pose proof (Z.mod_le (now (readings w)) 1000). pose proof (Z.div_mod (now (readings w)) 1000 ltac:(lia)).
  assert (0 < now (readings w) - now (readings w) mod 1000) by nia.
  destruct (IsZero t); simpl; [lia|]. destruct (Z.ltb_spec (now (readings w) - now (readings w) mod 1000) t); [|lia].
  pose proof (Z.mod_pos_bound t 1000 ltac:(lia)). pose proof (Z.div_mod t 1000 ltac:(lia)).
  pose proof (Z.div_mod (now (readings w)) 1000 ltac:(lia)). nia.
Qed.

Lemma timestamp_db t (w : world) : db (snd (timestamp now t w)) = db w /\ calls (snd (timestamp now t w)) = calls w.
Proof. done. Qed.

(** *** Outcomes *)

Definition accepted_code (i : ProcessingIdentity) (code : string) (d : database) : Prop :=
  JobQueue.validCode code = true \/
  exists op im, find_processing i (ingestion_db d) = Some (op, im) /\ op_failure_code op = Some code.

(** The outcome fits the state of the operation. *)
Inductive outcome_ok (i : ProcessingIdentity) (o : Outcome) (d : database) : Prop :=
| ok_permanent : Worker.o_Kind o = OutcomePermanent -> accepted_code i (Worker.o_Code o) d -> ended (fun _ => True) i d ->
    outcome_ok i o d
| ok_retryable : Worker.o_Kind o = OutcomeRetryable -> JobQueue.validCode (Worker.o_Code o) = true -> outcome_ok i o d
| ok_cancelled : Worker.o_Kind o = OutcomeCancelled -> outcome_ok i o d
| ok_succeeded : Worker.o_Kind o = OutcomeSucceeded -> ended (fun s => s = OperationSucceeded) i d -> outcome_ok i o d.

(** A code and a title that both the queue and the operation take. *)
Definition reportable (code title : string) : bool :=
  JobQueue.validCode code && validFailure (failure code title).

(** There is no operation to settle. *)
Definition missing_target (i : ProcessingIdentity) (o : Outcome) (d : database) : Prop :=
  Worker.o_Kind o = OutcomePermanent /\ JobQueue.validCode (Worker.o_Code o) = true /\
  find_processing i (ingestion_db d) = None.

Lemma permanent_any i code title (w : world) : sound (db w) ->
  validateProcessingIdentity i = true -> reportable code title = true ->
  let r := permanent plan others now i code title w in
  advances (db w) (db (snd r)) /\ (outcome_ok i (fst r) (db (snd r)) \/ missing_target i (fst r) (db (snd r))) /\
  Worker.o_Kind (fst r) <> OutcomeSucceeded.
Proof.
  intros C Hv Hr. apply andb_prop in Hr as [Hc Hf]. unfold permanent.
  pose proof (timestamp_positive 0 w ltac:(done)) as Ht. destruct (timestamp_db 0 w) as [Hdb _].
  destruct (timestamp now 0 w) as [t w1]. cbn [fst snd] in Ht, Hdb. rewrite <- Hdb in C |- *.
  destruct (ingest_step (FailProcessing i (failure code title) t) w1
    (moves_call _ (CallFail i (failure code title) t) eq_refl ltac:(done)) C) as (d0 & H0 & H1 & _ & Hx).
  assert (IsZero t = false) as Hz by (apply Z.eqb_neq; lia).
  assert (forall P, ended P i d0 -> ended P i (db (snd (ingest (FailProcessing i (failure code title) t) w1)))) as Hend
    by (intros P; by apply ended_stays).
  pose proof (advances_trans _ _ _ H0 H1) as H01.
  destruct (ingest (FailProcessing i (failure code title) t) w1) as [[u|e] w2]; cbn [fst snd] in *.
  - split; [done|]. split; [|done]. left. apply ok_permanent; [done|by left|]. apply run_on_ok in Hx.
    apply FailProcessing_effect in Hx as [(? & ? & _)|(op & im & Hfp & _ & [(Ho & _ & Hs & E)|(Hm & E)])]; [done|..].
    + exists op, im. rewrite E. by rewrite Ho, Hs.
    + pose proof (find_moved _ _ _ _ _ Hm) as Hfm. rewrite <- E in Hfm. by eexists _, _.
  - destruct (database_error_dec e) as [[a ->]|He].
    { split; [done|]. split; [|done]. left. by apply ok_retryable. }
    apply (FailProcessing_refused _ _ _ _ _ _ _ (proj1 (ad_sound _ _ H0))) in Hx as [E [[-> Hn]|[-> (op & im & Hfp & Hfin)]]]; [..|done|done|done|done].
    + split; [done|]. split; [|done]. right. split_and!; [done|done|]. cbn [snd]. by rewrite E.
    + split; [done|]. split; [|done]. left. apply ok_permanent; [done|by left|]. apply Hend. exists op, im. split_and!; [done|done| |done].
      by rewrite <- (proj1 (proj2 (agrees_open _ _ (consistent_pair _ _ _ _ (proj1 (ad_sound _ _ H0)) Hfp)))).
Qed.

(** *** Reasoning about steps *)

(** The step leads from [w] to a later database, with a value that satisfies
    [Q] or an outcome that satisfies [R]. *)
Definition ends {A} (p : result Outcome A * world) (w : world) (Q : A -> world -> Prop) (R : Outcome -> world -> Prop)
  : Prop :=
  advances (db w) (db (snd p)) /\ match fst p with Ok a => Q a (snd p) | Err o => R o (snd p) end.

(** What the handler knows once the target has been resolved. *)
Record ready (i : ProcessingIdentity) (w : world) : Prop := {
  rd_consistent : sound (db w);
  rd_known : known i (db w);
  rd_valid : validateProcessingIdentity i = true
}.

Lemma ready_later i (w w' : world) : advances (db w) (db w') -> ready i w -> ready i w'.
Proof. intros H' [_ K V]. split; [apply H'|by eapply known_stays|done]. Qed.

(** A job that is not done. *)
Definition undone (i : ProcessingIdentity) (o : Outcome) (w : world) : Prop :=
  outcome_ok i o (db w) /\ Worker.o_Kind o <> OutcomeSucceeded.

Lemma ends_bind {A C} (p : handler A) (k : A -> handler C) (w : world) Q Q' R : ends (p w) w Q R ->
  (forall a w', advances (db w) (db w') -> Q a w' -> ends (k a w') w' Q' R) -> ends (hbind p k w) w Q' R.
Proof.
  unfold hbind. intros [Ha Hq] Hk. destruct (p w) as [[a|o] w']; cbn [fst snd] in *; [|done].
  destruct (Hk a w' Ha Hq) as [H1 H2]. split; [by eapply advances_trans|done].
Qed.

Lemma ends_ret {A} (a : A) (w : world) (Q : A -> world -> Prop) R : sound (db w) -> Q a w ->
  ends (hret a w) w Q R.
Proof. intros C Hq. split; [by apply advances_refl|done]. Qed.

Lemma ends_value {A} (f : world -> A * world) (w : world) (Q : A -> world -> Prop) R :
  sound (db w) -> db (snd (f w)) = db w -> Q (fst (f w)) (snd (f w)) -> ends (value f w) w Q R.
Proof.
  intros C Hd Hq. unfold value. destruct (f w) as [a w']. cbn [fst snd] in *. split; [|done]. simpl. rewrite Hd.
  by apply advances_refl.
Qed.

Lemma ends_permanent {A} i code title (w : world) (Q : A -> world -> Prop) : ready i w -> reportable code title = true ->
  ends (return_ (permanent plan others now i code title) w) w Q (undone i).
Proof.
  intros [C K V] Hr. destruct (permanent_any i code title w C V Hr) as (H1 & H2 & H3). unfold return_.
  destruct (permanent plan others now i code title w) as [o w']. split; [done|]. split; [|done].
  destruct H2 as [?|(_ & _ & Hn)]; [done|]. destruct (known_stays _ _ _ H1 K) as [x Hx]. cbn [snd] in *. by rewrite Hn in Hx.
Qed.

(** Before the target is known. *)
Lemma ends_retry_any {A} job i code title (w : world) (Q : A -> world -> Prop) : sound (db w) ->
  validateProcessingIdentity i = true -> reportable code title = true ->
  ends (return_ (retry config plan others now job i code title) w) w Q
    (fun o w' => (outcome_ok i o (db w') \/ missing_target i o (db w')) /\ Worker.o_Kind o <> OutcomeSucceeded).
Proof.
  intros C V Hr. unfold return_, retry, read_clock. set (w1 := World _ _ _ _ _). destruct (_ || _).
  - destruct (permanent_any i code title w1 C V Hr) as (H1 & H2 & H3).
    by destruct (permanent plan others now i code title w1) as [o w'].
  - apply andb_prop in Hr as [Hc _]. split; [by apply advances_refl|]. split; [left; by apply ok_retryable|done].
Qed.

Lemma ends_retry {A} job i code title (w : world) (Q : A -> world -> Prop) : ready i w -> reportable code title = true ->
  ends (return_ (retry config plan others now job i code title) w) w Q (undone i).
Proof.
  intros Hw Hr. unfold return_, retry, read_clock. set (w1 := World _ _ _ _ _).
  assert (ready i w1) as Hw1 by (by destruct Hw). destruct (_ || _).
  - exact (ends_permanent i code title w1 Q Hw1 Hr).
  - apply andb_prop in Hr as [Hc _]. split; [apply advances_refl, Hw|]. split; [by apply ok_retryable|done].
Qed.

Lemma ends_or_else {A E} (call : world -> result E A * world) f (w : world) (Q : A -> world -> Prop) R :
  advances (db w) (db (snd (call w))) -> (forall a, fst (call w) = Ok a -> Q a (snd (call w))) ->
  (forall e w', advances (db w) (db w') -> ends (return_ (A := A) (f e) w') w' Q R) ->
  ends (or_else call f w) w Q R.
Proof.
  intros Ha Hq Hf. unfold or_else. destruct (call w) as [[a|e] w']; cbn [fst snd] in *; [split; [done|by apply Hq]|].
  destruct (Hf e w' Ha) as [H1 H2]. split; [by eapply advances_trans|done].
Qed.

Lemma ends_for_all {A} (f : A -> handler unit) l (P : A -> world -> Prop) R : forall w : world,
  sound (db w) ->
  (forall a w', a ∈ l -> advances (db w) (db w') -> ends (f a w') w' (fun _ => P a) R) ->
  (forall a w1 w2, advances (db w1) (db w2) -> P a w1 -> P a w2) ->
  ends (for_all f l w) w (fun _ w' => Forall (fun a => P a w') l) R.
Proof.
  induction l as [|a l IH]; intros w C Hf HP; [by apply ends_ret|]. cbn [for_all].
  eapply ends_bind; [apply Hf; [left|by apply advances_refl]|]. intros [] w1 H1 Hp.
  assert (ends (for_all f l w1) w1 (fun _ w' => Forall (fun a => P a w') l) R) as [H2 H3].
  { apply IH; [apply H1| |done]. intros b w' Hb Hw'. apply Hf; [by right|]. by eapply advances_trans. }
  split; [done|]. destruct (for_all f l w1) as [[[]|o] w2]; cbn [fst snd] in *; [|done]. constructor; [eauto|done].
Qed.

Lemma ends_ingest {A} (p : prog ingestion error A) f (w : world) (Q : A -> world -> Prop) R : moves p -> sound (db w) ->
  (forall a d0 w', advances (db w) d0 -> exec p (ingestion_db d0) = (Ok a, ingestion_db (db w')) -> Q a w') ->
  (forall e w', advances (db w) (db w') -> ends (return_ (A := A) (f e) w') w' Q R) ->
  ends (or_else (ingest p) f w) w Q R.
Proof.
  intros Hp C Hq Hf. destruct (ingest_step p w Hp C) as (d0 & H0 & H1 & _ & Hx).
  apply ends_or_else; [by eapply advances_trans| |done].
  intros a Ha. rewrite Ha in Hx. apply run_on_ok in Hx. eauto.
Qed.

Lemma ends_record {E A} (p : prog Finding.findings E A) r f (w : world) (Q : A -> world -> Prop) R : sound (db w) ->
  (forall fs f, snd (run_on p f fs) = Correlation.perform r fs f) ->
  (forall a f0 w', exec p f0 = (Ok a, findings_db (db w')) -> Q a w') ->
  (forall e w', advances (db w) (db w') -> ends (return_ (A := A) (f e) w') w' Q R) ->
  ends (or_else (record_finding p) f w) w Q R.
Proof.
  intros C Hp Hq Hf. destruct (record_step p r w C Hp) as (d0 & H0 & H1 & Hx).
  apply ends_or_else; [by eapply advances_trans| |done].
  intros a Ha. rewrite Ha in Hx. apply run_on_ok in Hx. eauto.
Qed.

(** The outcome of every failed call. *)
Ltac fails := first [apply ends_permanent | apply ends_retry]; [first [assumption | by eapply ready_later; [eassumption|]]|reflexivity].

(** *** Recording the document *)

(** Everything that is derived from one result. *)
Definition result_stored (source : ProcessingSource) (document : Sarif.Document) (scan : ScanSpec) (scanID : string)
  (recordedAt : time) (r : Sarif.Result) (d : database) : Prop :=
  exists id stored t n normalizedAt created t' out,
    let observation := mapObservation source document scanID r id recordedAt in
    observation_stored observation stored d /\
    Normalizer.Normalize (Some Normalizer.New) (with_id stored observation) t = Ok n /\ normalization_stored n d /\
    Correlation.NewDispatchUncorrelated (dispatch_spec source scan stored (Finding.stored_normalization n normalizedAt created) t') = Ok out /\
    outcome_stored out d.

Definition run_recorded (source : ProcessingSource) (document : Sarif.Document) (recordedAt : time) (run : Sarif.Run)
  (d : database) : Prop :=
  exists id stored, scan_stored (mapScan source document run id recordedAt) stored d /\
    Forall (fun r => result_stored source document (mapScan source document run id recordedAt) stored recordedAt r d)
      (Sarif.r_Results run).

Definition document_recorded (source : ProcessingSource) (document : Sarif.Document) (d : database) : Prop :=
  exists recordedAt, output_stored (mapParseOutput source document recordedAt) d /\
    Forall (fun run => run_recorded source document recordedAt run d) (Sarif.d_Runs document).

Lemma result_stays source document scan scanID t r d d' : advances d d' ->
  result_stored source document scan scanID t r d -> result_stored source document scan scanID t r d'.
Proof.
  intros Ha (id & stored & t1 & n & x & y & t2 & out & H1 & H2 & H3 & H4 & H5). exists id, stored, t1, n, x, y, t2, out.
  split_and!; [by eapply observation_stays|done|by eapply normalization_stays|done|by eapply outcome_stays].
Qed.

Lemma run_stays source document t run d d' : advances d d' -> run_recorded source document t run d ->
  run_recorded source document t run d'.
Proof.
  intros Ha (id & stored & H1 & H2). exists id, stored. split; [by eapply scan_stays|].
  eapply Forall_impl; [exact H2|]. intros r. by apply result_stays.
Qed.

Lemma document_stays source document d d' : advances d d' -> document_recorded source document d ->
  document_recorded source document d'.
Proof.
  intros Ha (t & H1 & H2). exists t. split; [by eapply output_stays|].
  eapply Forall_impl; [exact H2|]. intros r. by apply run_stays.
Qed.

Lemma ends_identifier job i prefix (w : world) : ready i w ->
  ends (new_identifier config plan others now random job i prefix w) w (fun _ _ => True) (undone i).
Proof.
  intros Hw. unfold new_identifier. eapply ends_bind; [by apply (ends_value _ _ (fun _ _ => True)); [apply Hw|..]|].
  intros [id|] w' Hw' _; [apply ends_ret; [apply Hw'|done]|fails].
Qed.

Lemma ends_timestamp t (w : world) R : sound (db w) -> ends (value (timestamp now t) w) w (fun _ _ => True) R.
Proof. intros C. by apply ends_value. Qed.

Lemma ends_result job i source document scan scanID recordedAt r (w : world) : ready i w ->
  ends (handle_result config plan others now random job i source document scan scanID recordedAt r w) w
    (fun _ w' => result_stored source document scan scanID recordedAt r (db w')) (undone i).
Proof.
  intros Hw. unfold handle_result. eapply ends_bind; [by apply ends_identifier|]. intros id w1 H1 _.
  pose proof (ready_later _ _ _ H1 Hw) as Hw1. set (observation := mapObservation _ _ _ _ _ _).
  eapply ends_bind.
  { apply (ends_record _ (Correlation.Observe observation)) with
      (Q := fun stored w' => observation_stored observation (Finding.so_ID stored) (db w')); [apply Hw1|done| |].
    - intros stored f0 w' Hx. by eapply RecordObservation_stored.
    - intros e w' H'. destruct e; fails. }
  intros stored w2 H2 Hobs. pose proof (ready_later _ _ _ H2 Hw1) as Hw2.
  eapply ends_bind; [by apply ends_timestamp, Hw2|]. intros t w3 H3 _. pose proof (ready_later _ _ _ H3 Hw2) as Hw3.
  destruct (Normalizer.Normalize _ _ _) as [n|e] eqn:Hn; [|fails].
  eapply ends_bind.
  { apply (ends_record _ (Correlation.Interpret n)) with
      (Q := fun sn w' => normalization_stored n (db w') /\ exists x y, sn = Finding.stored_normalization n x y); [apply Hw3|done| |].
    - intros sn f0 w' Hx. by eapply RecordNormalization_stored.
    - intros e w' H'. destruct e; fails. }
  intros sn w4 H4 (Hnorm & at_ & created & ->). pose proof (ready_later _ _ _ H4 Hw3) as Hw4.
  eapply ends_bind; [by apply ends_timestamp, Hw4|]. intros t' w5 H5 _. pose proof (ready_later _ _ _ H5 Hw4) as Hw5.
  destruct (Correlation.NewDispatchUncorrelated _) as [out|e] eqn:Hout; [|fails].
  eapply ends_bind.
  { apply (ends_record _ (Correlation.Leave out)) with (Q := fun _ w' => outcome_stored out (db w')); [apply Hw5|done| |].
    - intros so f0 w' Hx. by eapply RecordUncorrelated_stored.
    - intros e w' H'. destruct e; fails. }
  intros so w6 H6 Hdone. apply ends_ret; [apply H6|].
  exists id, (Finding.so_ID stored), t, n, at_, created, t', out. split_and!; [|done| |done|done].
  - do 4 (eapply observation_stays; [eassumption|]). exact Hobs.
  - do 2 (eapply normalization_stays; [eassumption|]). exact Hnorm.
Qed.

Lemma ends_run job i source document recordedAt run (w : world) : ready i w ->
  ends (handle_run config plan others now random job i source document recordedAt run w) w
    (fun _ w' => run_recorded source document recordedAt run (db w')) (undone i).
Proof.
  intros Hw. unfold handle_run. eapply ends_bind; [by apply ends_identifier|]. intros id w1 H1 _.
  pose proof (ready_later _ _ _ H1 Hw) as Hw1. set (scan := mapScan _ _ _ _ _).
  eapply ends_bind.
  { apply ends_ingest with (Q := fun stored w' => scan_stored scan (st_ID stored) (db w')); [|apply Hw1| |].
    - by apply (moves_call _ (CallScan scan)).
    - intros stored d0 w' H0 Hx. apply RecordScan_stored in Hx; [exact Hx|apply H0].
    - intros e w' H'. destruct e; fails. }
  intros stored w2 H2 Hscan. pose proof (ready_later _ _ _ H2 Hw1) as Hw2.
  destruct (ends_for_all (handle_result config plan others now random job i source document scan (st_ID stored) recordedAt)
    (Sarif.r_Results run) (fun r w' => result_stored source document scan (st_ID stored) recordedAt r (db w'))
    (undone i) w2) as [H3 H4].
  - apply Hw2.
  - intros r w' _ H'. apply ends_result. by eapply ready_later.
  - intros r w3 w4. apply result_stays.
  - split; [exact H3|]. destruct (for_all _ _ _) as [[[]|o] w3]; cbn [fst snd] in *; [|exact H4].
    exists id, (st_ID stored). split; [by eapply scan_stays|exact H4].
Qed.

Lemma CompleteProcessing_ended i n t d0 d : exec (CompleteProcessing i n t) (ingestion_db d0) = (Ok tt, ingestion_db d) ->
  ended (fun s => s = OperationSucceeded) i d.
Proof.
  intros [(? & ? & _)|(op & im & Hf & _ & [(Ho & Hs & E)|(j & _ & Hm & E)])]%CompleteProcessing_effect; [done|..].
  - exists op, im. rewrite E. rewrite Ho. split_and!; [done|done| |done]. unfold same_result in Hs.
    destruct (unmarshal_result _); [|done]. simp_bool. match goal with H : im_state im = _ |- _ => by rewrite H end.
  - pose proof (find_moved _ _ _ _ _ Hm) as Hfm. rewrite <- E in Hfm. by eexists _, _.
Qed.

Lemma ends_document job i source document (w : world) : ready i w ->
  ends (record_document config plan others now random job i source document w) w
    (fun _ w' => ended (fun s => s = OperationSucceeded) i (db w') /\ document_recorded source document (db w')) (undone i).
Proof.
  intros Hw. unfold record_document. eapply ends_bind; [by apply ends_timestamp, Hw|]. intros t w1 H1 _.
  pose proof (ready_later _ _ _ H1 Hw) as Hw1. eapply ends_bind.
  { apply ends_ingest with (Q := fun _ w' => output_stored (mapParseOutput source document t) (db w')); [|apply Hw1| |].
    - by apply (moves_call _ (CallOutput (mapParseOutput source document t))).
    - intros u d0 w' H0 Hx. by apply RecordParseOutput_stored in Hx.
    - intros e w' H'. destruct e; fails. }
  intros [] w2 H2 Hout. pose proof (ready_later _ _ _ H2 Hw1) as Hw2. eapply ends_bind.
  { apply (ends_for_all (handle_run config plan others now random job i source document t) (Sarif.d_Runs document)
      (fun run w' => run_recorded source document t run (db w')) (undone i) w2).
    - apply Hw2.
    - intros run w' _ H'. apply ends_run. by eapply ready_later.
    - intros run w3 w4. apply run_stays. }
  intros [] w3 H3 Hruns. pose proof (ready_later _ _ _ H3 Hw2) as Hw3.
  eapply ends_bind; [by apply ends_timestamp, Hw3|]. intros t' w4 H4 _. pose proof (ready_later _ _ _ H4 Hw3) as Hw4.
  assert (document_recorded source document (db w4)) as Hdoc.
  { eapply document_stays; [exact H4|]. exists t. split; [by eapply output_stays|exact Hruns]. }
  destruct (ends_ingest (CompleteProcessing i (Sarif.len (Sarif.d_Runs document)) t')
    (fun err => match err with
                | ErrProcessingConflict | ErrProcessingNotFound | ErrInvalid =>
                    permanent plan others now i "processing-state-conflict" "Import processing state is inconsistent"
                | _ => retry config plan others now job i "database-unavailable" "Import processing result could not be stored"
                end) w4 (fun _ w' => ended (fun s => s = OperationSucceeded) i (db w')) (undone i)) as [H5 H6].
  - by apply (moves_call _ (CallSucceed i (Sarif.len (Sarif.d_Runs document)) t')).
  - apply Hw4.
  - intros [] d0 w' H0 Hx. by eapply CompleteProcessing_ended.
  - intros e w' H'. destruct e; fails.
  - split; [exact H5|]. destruct (or_else _ _ _) as [[[]|o] w5]; cbn [fst snd] in *; [|exact H6].
    split; [exact H6|by eapply document_stays].
Qed.

(** *** Resolving and starting *)

Lemma terminal_ok i op im d o : sound d -> find_processing i (ingestion_db d) = Some (op, im) ->
  terminalOutcome (op_state op) (null_string (op_failure_code op)) = Some o -> outcome_ok i o d.
Proof.
  intros [C _] Hf. pose proof (agrees_open _ _ (consistent_pair _ _ _ _ C Hf)) as (_ & Hs & _).
  assert (finished_state (op_state op) = true -> forall P : OperationState -> Prop, P (op_state op) -> ended P i d) as Hend.
  { intros Hfin P HP. exists op, im. by rewrite <- Hs. }
  destruct (op_state op) eqn:Eo; simpl; intros [= <-].
  - by apply ok_succeeded, Hend.
  - apply ok_permanent; [done| |by apply Hend]. unfold accepted_code. simpl.
    destruct (String.eqb_spec (null_string (op_failure_code op)) "") as [E|E]; [by left|]. right. exists op, im.
    split; [done|]. by destruct (op_failure_code op).
  - by apply ok_cancelled.
Qed.

(** The committed evidence that a source describes. *)
Definition evidence_of (i : ProcessingIdentity) (source : ProcessingSource) (d : database) : Prop := exists a,
  artifacts (upload_db (ingestion_db d)) !! import_key i = Some a /\ ar_state a = rawArtifactCommitted /\
  ps_RawArtifactID source = ar_id a /\ ps_StorageKey source = ar_key a /\ ar_size a = Some (ps_SizeBytes source) /\
  ps_SHA256 source = hex_encode (null_string (ar_sha a)) /\ workspace source = pi_WorkspaceID i /\
  import_id source = pi_ImportID i.

Lemma evidence_stays i source d d' : advances d d' -> evidence_of i source d -> evidence_of i source d'.
Proof.
  intros [_ L _] (a & Ha & Hs & H'). exists a. split; [by apply (lt_evidence _ _ L)|done].
Qed.

Lemma resolve_answer i d fs t d' : run_on (ResolveProcessingTarget i) d fs = (Ok t, d') ->
  validateProcessingIdentity i = true /\ exists op im, find_processing i d = Some (op, im) /\ t = target_of i op im.
Proof.
  intros Hx%run_on_ok. revert Hx. unfold exec, run_on, ResolveProcessingTarget, autocommit.
  destruct (validateProcessingIdentity i); [|done]. simpl.
  destruct (find_processing i d) as [[op im]|]; [|done]. intros [= <- _]. eauto.
Qed.

Lemma resolve_error i d fs e d' : run_on (ResolveProcessingTarget i) d fs = (Err e, d') ->
  e = ErrInvalid /\ validateProcessingIdentity i = false \/
  validateProcessingIdentity i = true /\ (e = ErrProcessingNotFound /\ find_processing i d = None \/ database_error e).
Proof.
  intros Hx. destruct (run_on_error _ _ _ _ _ _ (Resolve_reports i) Hx) as [He|[d'' Hx']].
  - right. split; [|by right]. revert Hx. unfold run_on, ResolveProcessingTarget.
    destruct (validateProcessingIdentity i); [done|]. intros [= <- _]. by destruct He.
  - revert Hx'. unfold exec, run_on, ResolveProcessingTarget, autocommit. destruct (validateProcessingIdentity i); simpl.
    + destruct (find_processing i d) as [[op im]|]; [done|]. intros [= <- _]. right. split; [done|]. by left.
    + intros [= <- _]. by left.
Qed.

Lemma find_source_found i d op im a c : find_source i d = Some (op, im, a, c) ->
  find_processing i d = Some (op, im) /\ artifacts (upload_db d) !! import_key i = Some a /\
  ar_state a = rawArtifactCommitted.
Proof.
  unfold find_source. destruct (find_processing i d) as [[op' im']|]; [|done].
  destruct (artifacts _ !! _) as [a'|]; [|done]. destruct (bool_decide _) eqn:E; [|done]. intros [= -> -> -> _]. by simp_bool.
Qed.

(** A source that is processed, and a source that is not. *)
Lemma begin_answer i t d d0 source : sound d0 -> exec (BeginProcessing i t) (ingestion_db d0) = (Ok source, ingestion_db d) ->
  match terminalOutcome (pt_State (ps_Target source)) (pt_FailureCode (ps_Target source)) with
  | Some o => outcome_ok i o d0 /\ ingestion_db d = ingestion_db d0
  | None => evidence_of i source d
  end.
Proof.
  intros S0 [(? & ? & _)|(op & im & a & c & s0 & Hsrc & Hsc & Hcase)]%BeginProcessing_effect; [done|].
  destruct (find_source_found _ _ _ _ _ _ Hsrc) as (Hf & Ha & Hst).
  unfold scanned_source in Hsc. destruct (ar_storage_version a) as [v|]; [|done].
  destruct (ar_size a) as [size|] eqn:Esize; [|done]. destruct (ar_committed a) as [at_|]; [|done]. injection Hsc as <-.
  destruct Hcase as [(Hfin & [= ->] & E)|(_ & [= ->] & Hm & E)]; simpl.
  - destruct (terminalOutcome (op_state op) _) as [o|] eqn:Et; [|by destruct (op_state op)].
    split; [by eapply terminal_ok|done].
  - exists a. rewrite E. split; [done|]. unfold workspace, import_id. by simpl.
Qed.

Lemma outcome_same i o d d' : ingestion_db d' = ingestion_db d -> outcome_ok i o d -> outcome_ok i o d'.
Proof.
  intros E [H1 H2 H3|H1 H2|H1|H1 H2].
  - apply ok_permanent; [done| |]; unfold accepted_code, ended in *; by rewrite E.
  - by apply ok_retryable.
  - by apply ok_cancelled.
  - apply ok_succeeded; [done|]. unfold ended in *. by rewrite E.
Qed.

(** *** Reading the evidence *)

(** The document is what the parser makes of bytes with the committed size and
    digest. *)
Definition evidence_parsed (source : ProcessingSource) (document : Sarif.Document) : Prop := exists data k,
  Sarif.parseData ctx limits data k = Ok document /\ slen data = ps_SizeBytes source /\
  hex_encode (sha256 data) = ps_SHA256 source.

Lemma ends_blob_failure {A} job i err (w : world) (Q : A -> world -> Prop) : ready i w ->
  ends (return_ (blobFailure config plan others now job i err) w) w Q (undone i).
Proof.
  intros Hw. destruct err; simpl; try (by fails).
  split; [apply advances_refl, Hw|]. split; [by apply ok_cancelled|done].
Qed.

Lemma ends_parse_failure {A} job i err tracked (w : world) (Q : A -> world -> Prop) : ready i w ->
  ends (return_ (parseFailure config plan others now job i err tracked) w) w Q (undone i).
Proof.
  intros Hw. unfold parseFailure. destruct (Sarif.Code err); try (by fails).
  - destruct tracked as [[]|]; by fails.
  - split; [apply advances_refl, Hw|]. split; [by apply ok_cancelled|done].
Qed.

Lemma ends_evidence `{!ReaderContract B} job i source (w : world) : ready i w ->
  ends (read_evidence config limits plan others now ctx timed_out buffers job i source w) w
    (fun document _ => evidence_parsed source document) (undone i).
Proof.
  intros Hw. unfold read_evidence.
  destruct (supported_context _); [|fails]. destruct (supported_format _); [|fails].
  destruct (String.eqb _ _); [|fails]. destruct (valid_evidence source); [|fails].
  destruct (Blobstore.ParseKey _) as [key|e]; [|fails].
  eapply ends_bind.
  { apply ends_or_else with (Q := fun opened _ => exists b b', Open key b = (Ok opened, b')).
    - unfold open_blob. destruct (Open key (blobs w)). apply advances_refl, Hw.
    - intros opened. unfold open_blob. destruct (Open key (blobs w)) as [r b'] eqn:E. simpl. intros ->. eauto.
    - intros e w' H'. apply ends_blob_failure. by eapply ready_later. }
  intros [r m] w1 H1 (b & b' & Hopen). pose proof (ready_later _ _ _ H1 Hw) as Hw1. cbn [fst snd].
  destruct (matchingEvidence source m) eqn:Hm; [|fails].
  destruct (parse_stream limits ctx buffers r) as [[document|err] tracked] eqn:Hp.
  - destruct (negb (close_fails r)); [|fails]. apply ends_ret; [apply Hw1|].
    apply parse_stream_whole in Hp as (k & Hd & He). destruct (open_verifies _ _ _ _ _ Hopen He) as [Hsize Hsha].
    unfold matchingEvidence in Hm. simp_bool. exists (Streams.body (content r)), k. split; [done|]. split; congruence.
  - destruct timed_out; [fails|]. by apply ends_parse_failure.
Qed.

(** *** The whole handler *)

Lemma ingest_shape {A} (p : prog ingestion error A) (w : world) : let w' := snd (ingest p w) in
  calls w' = S (calls w) /\ findings_db (db w') = findings_db (happened (events (calls w)) (db w)).
Proof. unfold ImportJob.ingest. by destruct (run_on p _ _). Qed.

Lemma same_database d d' : ingestion_db d = ingestion_db d' -> findings_db d = findings_db d' -> d = d'.
Proof. destruct d, d'. simpl. by intros -> ->. Qed.

(** How the handler ends early, having begun in [w]. *)
Definition turned_away (i : ProcessingIdentity) (w : world) (o : Outcome) (w' : world) : Prop :=
  let d1 := happened (events (calls w)) (db w) in
  outcome_ok i o (db w') /\
    (Worker.o_Kind o = OutcomeSucceeded -> db w' = d1 \/ db w' = happened (events (S (calls w))) d1) \/
  missing_target i o (db w') \/
  (Worker.o_Kind o = OutcomePermanent /\ JobQueue.validCode (Worker.o_Code o) = true /\
   validateProcessingIdentity i = false).

Lemma ends_undone {A} i (p : result Outcome A * world) (w0 w : world) Q : ends p w Q (undone i) -> ends p w Q (turned_away i w0).
Proof. intros [H1 H2]. split; [done|]. destruct (fst p); [done|]. destruct H2. left. naive_solver. Qed.

(** What is known of the source once processing has begun. *)
Definition begun (i : ProcessingIdentity) (w : world) (source : ProcessingSource) (w' : world) : Prop :=
  ready i w' /\
  match terminalOutcome (pt_State (ps_Target source)) (pt_FailureCode (ps_Target source)) with
  | Some o => turned_away i w o w'
  | None => evidence_of i source (db w')
  end.

Lemma ends_begin job i (w : world) : sound (db w) ->
  ends (begin_processing config authorize plan others now job i w) w (begun i w) (turned_away i w).
Proof.
  intros S. unfold begin_processing.
  destruct (ingest_step (ResolveProcessingTarget i) w (moves_resolve i) S) as (d1 & H0 & H1 & Ed1 & Hx).
  assert (db (snd (ingest (ResolveProcessingTarget i) w)) = d1) as Edb.
  { destruct (ingest_shape (ResolveProcessingTarget i) w) as [_ Hf]. apply same_database; [|by rewrite Hf, Ed1].
    pose proof (resolve_reads i (ingestion_db d1) (plan (calls w))) as Hr. by rewrite Hx in Hr. }
  apply ends_bind with (Q := fun t w' => db w' = d1 /\ calls w' = Datatypes.S (calls w) /\ ready i w' /\
    exists op im, find_processing i (ingestion_db d1) = Some (op, im) /\ t = target_of i op im).
  { destruct (ingest_shape (ResolveProcessingTarget i) w) as [Hcalls _]. unfold or_else.
    destruct (ingest (ResolveProcessingTarget i) w) as [[t|e] w1]; cbn [fst snd] in *; rewrite Edb in *.
    - apply resolve_answer in Hx as (Hv & op & im & Hf & ->). split; [cbn [snd]; by rewrite Edb|]. cbn [fst snd].
      split_and!; [done|done|split; rewrite ?Edb; [apply H0|by eexists|done]|eauto].
    - enough (ends (return_ (match e with
          | ErrProcessingNotFound | ErrInvalid => fun w => (outcome OutcomePermanent "processing-target-not-found", w)
          | _ => retry config plan others now job i "database-unavailable" "Import processing storage is unavailable"
          end) w1) w1 (fun t w' => db w' = d1 /\ calls w' = Datatypes.S (calls w) /\ ready i w' /\
            exists op im, find_processing i (ingestion_db d1) = Some (op, im) /\ t = target_of i op im) (turned_away i w)) as [Ha Hb].
      { split; [|exact Hb]. eapply advances_trans; [exact H0|]. by rewrite <- Edb. }
      assert (sound (db w1)) as Hs1 by (rewrite Edb; apply H0).
      apply resolve_error in Hx as [[-> Hv]|[Hv [[-> Hn]|[a ->]]]].
      + split; [exact (advances_refl _ Hs1)|]. do 2 right. done.
      + split; [exact (advances_refl _ Hs1)|]. right. left. split_and!; [done|done|].
        change (find_processing i (ingestion_db (db w1)) = None). by rewrite Edb.
      + destruct (ends_retry_any (A := ProcessingTarget) job i "database-unavailable" "Import processing storage is unavailable" w1
          (fun t w' => db w' = d1 /\ calls w' = Datatypes.S (calls w) /\ ready i w' /\
            exists op im, find_processing i (ingestion_db d1) = Some (op, im) /\ t = target_of i op im)) as [Ha Hb];
          [exact Hs1|done|reflexivity|]. split; [exact Ha|]. destruct (fst _); [exact Hb|].
        destruct Hb as [[?|?] ?]; [left; naive_solver|right; by left]. }
  intros t w1 Ha (E1 & Ec & Hw1 & op & im & Hf & ->).
  destruct (authorize _); [|apply ends_undone; fails|apply ends_undone; fails].
  destruct (terminalOutcome (pt_State (target_of i op im)) (pt_FailureCode (target_of i op im))) as [o|] eqn:Et.
  - split; [apply advances_refl, Hw1|]. left. split.
    + change (outcome_ok i o (db w1)). eapply terminal_ok; [apply Hw1|by rewrite E1|exact Et].
    + intros _. left. change (db w1 = happened (events (calls w)) (db w)). by rewrite E1.
  - eapply ends_bind; [apply (ends_value _ _ (fun _ w2 => db w2 = d1 /\ calls w2 = Datatypes.S (calls w))); [apply Hw1|done|by split]|].
    intros at_ w2 H2 [E2 Ec2]. pose proof (ready_later _ _ _ H2 Hw1) as Hw2.
    destruct (ingest_step (BeginProcessing i at_) w2 (moves_call _ (CallBegin i at_) eq_refl ltac:(done)) (rd_consistent _ _ Hw2))
      as (d2 & G0 & G1 & Ed2 & Hy). destruct (ingest_shape (BeginProcessing i at_) w2) as [_ Hfind].
    apply ends_or_else; [by eapply advances_trans| |intros e w' H'; apply ends_undone; destruct e; fails].
    intros source Hok. pose proof (ready_later _ (w2) (snd (ingest (BeginProcessing i at_) w2)) (advances_trans _ _ _ G0 G1) Hw2) as Hw3.
    split; [done|]. rewrite Hok in Hy. apply run_on_ok in Hy.
    pose proof (begin_answer i at_ _ _ source (ad_sound _ _ G0) Hy) as Hb. destruct (terminalOutcome (pt_State (ps_Target source)) _) as [o|]; [|exact Hb].
    destruct Hb as [Ho Esame]. left. split; [by eapply outcome_same|]. intros _. right.
    apply same_database; [by rewrite Esame, Ed2, E2, Ec2, Ed1|by rewrite Hfind, E2, Ec2, Ed1].
Qed.

Local Notation Handle := (ImportJob.Handle config limits authorize plan others now random ctx timed_out buffers).

(** Everything that follows from the evidence of the import is in the
    database, and its operation has succeeded. *)
Definition import_done (i : ProcessingIdentity) (d : database) : Prop :=
  exists source document, evidence_of i source d /\ evidence_parsed source document /\
    document_recorded source document d.

Lemma process_ends `{!ReaderContract B} job i (w : world) : sound (db w) ->
  ends (process_import config limits authorize plan others now random ctx timed_out buffers job i w) w
    (fun _ w' => ended (fun s => s = OperationSucceeded) i (db w') /\ import_done i (db w')) (turned_away i w).
Proof.
  intros S. unfold process_import. eapply ends_bind; [by apply ends_begin|]. intros source w1 H1 [Hw1 Hb].
  destruct (terminalOutcome _ _) as [o|]; [split; [apply advances_refl, Hw1|exact Hb]|].
  eapply ends_bind; [by apply ends_undone, ends_evidence|]. intros document w2 H2 Hp.
  pose proof (ready_later _ _ _ H2 Hw1) as Hw2.
  destruct (ends_undone i _ w _ _ (ends_document job i source document w2 Hw2)) as [H3 H4]. split; [exact H3|].
  destruct (record_document _ _ _ _ _ _ _ _ _ _) as [[[]|o] w3]; cbn [fst snd] in *; [|exact H4].
  destruct H4 as [He Hd]. split; [done|]. exists source, document. split_and!; [|done|done].
  do 2 (eapply evidence_stays; [eassumption|]). done.
Qed.

Lemma handle_advances `{!ReaderContract B} job (w : world) : sound (db w) -> advances (db w) (db (snd (Handle job w))).
Proof.
  intros Hs. unfold ImportJob.Handle. destruct (decodeJob job) as [i|]; [|by apply advances_refl].
  destruct (process_ends job i w Hs) as [Ha _]. by destruct (process_import _ _ _ _ _ _ _ _ _ _ _ _ _) as [[]].
Qed.

Lemma ended_succeeded i d : sound d -> ended (fun s => s = OperationSucceeded) i d ->
  exists op im, find_processing i (ingestion_db d) = Some (op, im) /\ op_state op = OperationSucceeded /\
    im_state im = ImportSucceeded.
Proof.
  intros [C _] (op & im & Hf & _ & _ & Ho). exists op, im. split; [done|]. split; [done|].
  pose proof (consistent_pair _ _ _ _ C Hf) as Ha. rewrite Ho in Ha. by destruct (im_state im).
Qed.

(** C2.  A job is reported as succeeded only when its work is stored: whatever the
    connections do and whatever other processes do in between, the operation
    and its import have then succeeded, and either the handler found them so
    and changed nothing, or the evidence with the committed size and digest
    was parsed and the parser output, the scan of every run and the
    observation, normalization and correlation outcome of every result are in
    the database. *)
Theorem import_recorded `{!ReaderContract B} job w o w' : sound (db w) -> Handle job w = (o, w') ->
  Worker.o_Kind o = OutcomeSucceeded ->
  let d1 := happened (events (calls w)) (db w) in
  exists i op im, decodeJob job = Some i /\ find_processing i (ingestion_db (db w')) = Some (op, im) /\
    op_state op = OperationSucceeded /\ im_state im = ImportSucceeded /\
    (db w' = d1 \/ db w' = happened (events (S (calls w))) d1 \/ import_done i (db w')).
Proof.
  intros Hs Hx Hk d1. unfold ImportJob.Handle in Hx. destruct (decodeJob job) as [i|]; [|by injection Hx as <- <-].
  exists i. destruct (process_ends job i w Hs) as [Ha Hq].
  destruct (process_import _ _ _ _ _ _ _ _ _ _ _ _ _) as [[[]|o'] w1]; cbn [fst snd] in *; injection Hx as <- <-.
  - destruct Hq as [He Hd]. destruct (ended_succeeded i _ (ad_sound _ _ Ha) He) as (op & im & ? & ? & ?).
    exists op, im. auto 10.
  - destruct Hq as [[Ho Hquiet]|[(Hp & _)|(Hp & _)]]; [|by rewrite Hk in Hp..].
    destruct Ho as [Hp _ _|Hp _|Hp|_ He]; try (by rewrite Hk in Hp).
    destruct (ended_succeeded i _ (ad_sound _ _ Ha) He) as (op & im & ? & ? & ?). exists op, im.
    destruct (Hquiet Hk); auto 10.
Qed.

(** The operation and its import are final, and no call changes them. *)
Definition ended_for_good (i : ProcessingIdentity) (d : database) : Prop :=
  exists op im, find_processing i (ingestion_db d) = Some (op, im) /\ finished_state (op_state op) = true /\
    settled (im_state im) = true /\
    forall l, Forall (fun e => issued_event e = true) l ->
      find_processing i (ingestion_db (happened l d)) = Some (op, im).

Lemma ended_good st i d : sound d -> ended st i d -> ended_for_good i d.
Proof.
  intros Hs (op & im & Hf & Ho & Him & _). exists op, im. split_and!; [done..|]. intros l Hl.
  eapply find_later; [|exact Hf|done..]. by apply (ad_later d), happened_advances.
Qed.

(** C5.  The handler gives a job up for good only when there is nothing left to
    settle: after a permanent outcome the job names no operation, or its
    operation and import are in final states that no later call, whatever its
    faults, changes.  This is about the permanent outcome alone: a failure
    that could not be stored is reported as retryable, and a job that is then
    dead-lettered, or cancelled, can leave its operation open. *)
Theorem import_abandoned `{!ReaderContract B} job w o w' : sound (db w) -> Handle job w = (o, w') ->
  Worker.o_Kind o = OutcomePermanent ->
  match decodeJob job with
  | None => w' = w
  | Some i => validateProcessingIdentity i = false \/ find_processing i (ingestion_db (db w')) = None \/
              ended_for_good i (db w')
  end.
Proof.
  intros Hs Hx Hk. unfold ImportJob.Handle in Hx. destruct (decodeJob job) as [i|]; [|by injection Hx as <- <-].
  destruct (process_ends job i w Hs) as [Ha Hq].
  destruct (process_import _ _ _ _ _ _ _ _ _ _ _ _ _) as [[[]|o'] w1]; cbn [fst snd] in *; injection Hx as <- <-; [done|].
  destruct Hq as [[Ho _]|[(_ & _ & Hn)|(_ & _ & Hn)]]; [|by right; left|by left].
  destruct Ho as [_ _ He|Hp _|Hp|Hp _]; [right; right|by rewrite Hk in Hp..]. eapply ended_good; [apply Ha|exact He].
Qed.

(** C20.  Whatever happens to it, a job leaves a sound database that has everything
    it had before, and an outcome that the queue accepts: its kind is known,
    and a code is one the queue takes or the failure code the operation was
    given. *)
Theorem import_safe `{!ReaderContract B} job w o w' : sound (db w) -> Handle job w = (o, w') ->
  advances (db w) (db w') /\
  (Worker.o_Kind o = OutcomeSucceeded \/ Worker.o_Kind o = OutcomeCancelled \/
   (Worker.o_Kind o = OutcomeRetryable \/ Worker.o_Kind o = OutcomePermanent) /\
   (JobQueue.validCode (Worker.o_Code o) = true \/
    exists i op im, decodeJob job = Some i /\ find_processing i (ingestion_db (db w')) = Some (op, im) /\
      op_failure_code op = Some (Worker.o_Code o))).
Proof.
  intros Hs Hx. split; [change w' with (snd (o, w')); rewrite <- Hx; by apply handle_advances|].
  unfold ImportJob.Handle in Hx. destruct (decodeJob job) as [i|].
  - destruct (process_ends job i w Hs) as [_ Hq].
    destruct (process_import _ _ _ _ _ _ _ _ _ _ _ _ _) as [[[]|o'] w1]; cbn [fst snd] in *; injection Hx as <- <-; [by left|].
    destruct Hq as [[[Hp [Hc|(op & im & Hc)] _|Hp Hc|Hp|Hp _] _]|[(Hp & Hc & _)|(Hp & Hc & _)]]; eauto 10.
  - injection Hx as <- <-. right. right. split; [by right|]. by left.
Qed.

(** Redelivery of a job whose operation is final repeats its outcome and
    changes nothing: on a connection that answers, for a principal that is
    still authorized, the only effect on the database is that of the others. *)
Theorem import_redelivered job i w op im o : decodeJob job = Some i -> validateProcessingIdentity i = true ->
  find_processing i (ingestion_db (db w)) = Some (op, im) -> sound (db w) ->
  terminalOutcome (op_state op) (null_string (op_failure_code op)) = Some o ->
  plan (calls w) = [] -> (forall r, authorize r = Allowed) ->
  exists w', Handle job w = (o, w') /\ db w' = happened (events (calls w)) (db w).
Proof.
  intros Hd Hv Hf Hs Ht Hplan Hauth. set (d1 := happened (events (calls w)) (db w)).
  assert (advances (db w) d1) as Ha by (by apply happened_advances).
  assert (find_processing i (ingestion_db d1) = Some (op, im)) as Hf1.
  { eapply find_later; [apply Ha|done|by destruct (op_state op)|].
    destruct (agrees_open _ _ (consistent_pair _ _ _ _ (proj1 Hs) Hf)) as (_ & <- & _). by destruct (op_state op). }
  exists (World d1 (blobs w) (S (calls w)) (readings w) (draws w)). split; [|done].
  unfold ImportJob.Handle, process_import, begin_processing, or_else, hbind, ImportJob.ingest. rewrite Hd. fold d1.
  rewrite Hplan. unfold run_on, ResolveProcessingTarget, autocommit. rewrite Hv. simpl. rewrite Hf1. simpl.
  rewrite Hauth. simpl. rewrite Ht. simpl. destruct d1. done.
Qed.
End Handling.
End Theorems.
End ImportJobTheorems.
