(* ===== verification/IngestionTheorems.v ===== *)
(** * The ingestion service: publication and idempotency

    The theorems on the two idempotent calls of the service.  [Module
    IngestionTheorems] shows what a fresh completion publishes, that retries of
    a completion or of a reservation are answered with the original whatever
    happened in between, and what two requests with the same fingerprint have in
    common. *)

From S2P Require Import Prelude GoStrings Encoding Txn Json JsonFacts Queue Lifecycle QueueRefinement QueueTheorems.
From S2P Require Import Records Idempotency Catalog Blobstore Streams Uploads Scans Ingestion Processing.
From S2P Require Import IngestionService Pipeline PipelineTheorems.

Local Open Scope Z_scope.

Module IngestionTheorems.
Import Idempotency Uploads Scans Ingestion Processing IngestionService Pipeline PipelineTheorems.
Import Catalog(Authorizer, Authorize, AuthorizationRequest, Build_AuthorizationRequest).

Section Theorems.
Context {pg : Postgres} {az : Authorizer}.

Lemma timestamp_multiple e k : timestamp e k mod Microsecond = 0.
Proof. unfold timestamp, truncate. by rewrite Zminus_mod, Z.mod_mod, Z.sub_diag by done. Qed.

Lemma timestamp_stored e k : store_time (timestamp e k) = timestamp e k.
Proof. apply store_time_exact, timestamp_multiple. Qed.

(** A claim that is kept for the configured time passes the constraints. *)
Lemma retention_ok c e : validConfig c = true ->
  store_time (timestamp e 0) + 24 * Hour <= store_time (timestamp e 0 + IdempotencyRetention c).
Proof.
  unfold validConfig, minimumRetention. intros Hc. simp_bool. rewrite timestamp_stored.
  etrans; [|apply store_time_mono, (Z.add_le_mono_l (24 * Hour)); done].
  rewrite store_time_exact; [done|]. by rewrite Zplus_mod, timestamp_multiple.
Qed.

(** ** Completion *)

Lemma fingerprint_length r fp : fingerprintCompletion r = Ok fp -> slen fp = 32.
Proof. unfold fingerprintCompletion. destruct (validateCompleteRequest r); [|done]. by intros [= <-]. Qed.

Definition upload_right (r : CompleteRequest) : bool :=
  Authorize (Build_AuthorizationRequest (cq_PrincipalID r) (cq_WorkspaceID r) (cq_ApplicationID r) CapabilityImportsUpload).

(** A completion that was answered went through the store. *)
Lemma ServiceComplete_ok c q e r d fs out d' : run_on (ServiceComplete c q e r) d fs = (Ok out, d') ->
  exists id fp, validateCompleteRequest r = true /\ upload_right r = true /\ fingerprintCompletion r = Ok fp /\
    randomIdentifier e 0 "op_" = Ok id /\ exec (Complete (locks e) q (complete_spec c e r id fp)) d = (Ok out, d').
Proof.
  intros Hx. apply run_on_ok in Hx. unfold ServiceComplete in Hx.
  destruct (validateCompleteRequest r); [|done]. fold (upload_right r) in Hx. cbn [negb] in Hx.
  destruct (upload_right r); [|done]. cbn [negb] in Hx.
  destruct (fingerprintCompletion r) as [fp|] eqn:Ef; [|done].
  destruct (randomIdentifier e 0 "op_") as [id|] eqn:Eid; [|done]. eauto 10.
Qed.

(** The job of a completion: under the operation's key, with the fingerprint of
    the processing request. *)
Definition processing_job (c : Config) (r : CompleteRequest) (id : string) (q : JobQueue.database) : Prop :=
  exists jid row canonical fp,
    JobQueue.jobs q !! jid = Some row /\
    JobQueue.c_workspace_id (JobQueue.core row) = cq_WorkspaceID r /\
    JobQueue.c_queue (JobQueue.core row) = importProcessQueue /\
    JobQueue.c_kind (JobQueue.core row) = importProcessKind /\
    JobQueue.c_idempotency_key (JobQueue.core row) = id /\
    JobQueue.fingerprintSpec {|
      JobQueue.s_WorkspaceID := cq_WorkspaceID r; JobQueue.s_OperationID := id;
      JobQueue.s_InitiatingPrincipalID := cq_PrincipalID r; JobQueue.s_SystemCapability := "imports:process";
      JobQueue.s_Queue := "ingestion"; JobQueue.s_Kind := "import.process"; JobQueue.s_SchemaVersion := 1;
      JobQueue.s_Payload := print (JObj [("import_id", JStr (cq_ImportID r))]); JobQueue.s_IdempotencyKey := id;
      JobQueue.s_Priority := 0; JobQueue.s_AvailableAt := 0; JobQueue.s_MaxAttempts := ProcessMaxAttempts c |} =
      Ok (canonical, fp) /\
    JobQueue.c_request_fingerprint (JobQueue.core row) = fp.

Lemma enqueued_job c q e r id fp d job qd : Lifecycle.invariant d ->
  QueueSpec.enqueue_spec q (process_job (complete_spec c e r id fp)) d = (Ok job, qd) -> Lifecycle.invariant qd ->
  processing_job c r id qd.
Proof.
  intros I Hq I'. set (spec := process_job (complete_spec c e r id fp)) in *.
  rewrite QueueSpec.enqueue_spec_unfold in Hq by done.
  destruct (JobQueue.fingerprintSpec spec) as [[canonical jfp]|] eqn:Efp; [|done].
  destruct (JobQueue.randomID q "job_" 20) as [jid|]; [|done].
  destruct (JobQueue.insert_job _ _ _ _ _ d) as [[rows d']|] eqn:Ei; [|done].
  unfold QueueSpec.enqueue_answer in Hq. destruct (JobQueue.find_by_key spec d') as [row|] eqn:Ef; [|done].
  assert (d' = qd) as -> by (destruct (_ && _); congruence).
  pose proof Ef as Ek. apply QueueSpec.find_by_key_Some in Ek as [Hr Hk]; [|done].
  exists (JobQueue.c_id (JobQueue.core row)), row, canonical, jfp. unfold JobQueue.same_key in Hk. simp_bool.
  split_and!; try done. destruct (_ && _) eqn:Eb; [done|]. apply andb_false_iff in Eb as [Eb|Eb]; simp_bool; [|done].
  rewrite QueueSpec.insert_job_cases in Ei by done. destruct (jsonb_in canonical) as [payload|]; [|done].
  cbv zeta in Ei. destruct (JobQueue.check_row _); [|done]. cbn [negb] in Ei.
  destruct (JobQueue.find_by_key spec d); [congruence|]. destruct (is_null _ && _); [|done].
  injection Ei as _ Eqd. rewrite <- Eqd in *. rewrite QueueSpec.find_inserted in Ef by done. by injection Ef as <-.
Qed.

(** C4.  A fresh completion publishes everything together, on any connection: the
    caller may upload to the application, the import is the caller's and was
    uploaded with committed evidence; afterwards the import is queued with the
    same evidence, exactly one new operation is queued for it under the answered
    identifier, and the queue has the job that processes this import. *)
Theorem completion_publishes c q e r d fs out d' : consistent d ->
  run_on (ServiceComplete c q e r) d fs = (Ok out, d') -> cp_Created out = true ->
  let w := cq_WorkspaceID r in let i := cq_ImportID r in let id := o_ID (cp_Operation out) in
  upload_right r = true /\
  cp_Operation out = {| o_ID := id; o_WorkspaceID := w; o_ImportID := i; o_CreatedByPrincipalID := cq_PrincipalID r;
    o_Kind := importProcessKind; o_State := OperationQueued; o_CreatedAt := timestamp e 0; o_UpdatedAt := timestamp e 0 |} /\
  exists im a,
    imports (upload_db d) !! (w, i) = Some im /\ im_state im = ImportUploaded /\
    im_application im = cq_ApplicationID r /\ im_creator im = cq_PrincipalID r /\
    artifacts (upload_db d) !! (w, i) = Some a /\ ar_state a = rawArtifactCommitted /\
    imports (upload_db d') = <[(w, i) := set_import_state ImportQueued (timestamp e 0) im]> (imports (upload_db d)) /\
    artifacts (upload_db d') = artifacts (upload_db d) /\
    (forall id' op, operations d !! (w, id') = Some op -> op_import op <> i) /\
    operations d !! (w, id) = None /\
    operations d' = <[(w, id) := new_operation (cp_Operation out)]> (operations d) /\
    processing_job c r id (queue_db d').
Proof.
  intros C Hx Hnew w i id. apply ServiceComplete_ok in Hx as (id0 & fp & Hv & Hau & Hfp & Hid & Hx).
  apply Complete_ok in Hx as [[_ Hsel]|(im & a & job & qd & Hc & Hd & Hout)]; [| |apply C].
  { unfold selectCompletion in Hsel. destruct (complete_claims d !! _); [|done]. destruct (operations d !! _); [|done].
    destruct (imports _ !! _); [|done]. destruct (_ && _); [|done]. by injection Hsel as <- _. }
  subst out. split; [done|]. split; [done|]. exists im, a.
  pose proof (consistent_complete _ _ _ _ _ _ _ C Hc eq_refl) as C'. rewrite <- Hd in C'.
  destruct Hc as [_ Him Hst [Happ Hcr] Ha Hev Hrow Hfree Hjob].
  apply operation_free_spec in Hfree as [Hnone Hother].
  assert (forall id' op, operations d !! (w, id') = Some op -> op_import op <> i) as Hno.
  { intros id' op Hop. eapply Hother; [done|]. change (o_Kind _) with importProcessKind.
    exact (operation_kind _ _ (con_rows _ C _ _ _ Hop)). }
  pose proof (con_queue _ C') as I'. subst d'. cbn [completed upload_db imports artifacts operations queue_db] in *.
  split_and!; try done.
  - rewrite <- (timestamp_stored e 0). done.
  - by eapply enqueued_job; [apply C|exact Hjob|].
Qed.

(** The answer to a retry. *)
Definition again (out : Completion) : Completion := {| cp_Operation := cp_Operation out; cp_Created := false |}.

Lemma selectCompletion_old s d out fp : selectCompletion s d = Some (out, fp) -> again out = out.
Proof.
  unfold selectCompletion. destruct (complete_claims d !! _); [|done]. destruct (operations d !! _); [|done].
  destruct (imports _ !! _); [|done]. destruct (_ && _); [|done]. by intros [= <- _].
Qed.

(** After a completion its answer can be read back. *)
Lemma completion_found c q e r id fp d out d1 : Lifecycle.invariant (queue_db d) ->
  exec (Complete (locks e) q (complete_spec c e r id fp)) d = (Ok out, d1) ->
  selectCompletion (complete_spec c e r id fp) d1 = Some (again out, fp).
Proof.
  intros I Hx. apply Complete_ok in Hx as [[-> Hsel]|(im & a & job & qd & Hc & -> & ->)]; [| |done].
  - by rewrite (selectCompletion_old _ _ _ _ Hsel).
  - destruct Hc as [_ Him _ [Happ Hcr] _ _ _ _ _]. unfold selectCompletion. cbn [completed complete_claims operations upload_db imports].
    rewrite lookup_insert_eq. cbn [complete_claim cl_resource]. fold (new_operation_key (complete_spec c e r id fp)).
    rewrite lookup_insert_eq. cbn [new_operation op_import]. fold (complete_key (complete_spec c e r id fp)).
    rewrite lookup_insert_eq. cbn [set_import_state im_application im_creator]. rewrite Happ, Hcr, !String.eqb_refl.
    unfold again. cbn. by rewrite timestamp_stored.
Qed.

Lemma selectCompletion_later s d d' x : later d d' -> selectCompletion s d = Some x -> selectCompletion s d' = Some x.
Proof.
  intros L. unfold selectCompletion. destruct (complete_claims d !! _) as [cl|] eqn:Ecl; [|done].
  rewrite (lookup_weaken _ _ _ _ Ecl (lt_complete _ _ L)).
  destruct (operations d !! _) as [op|] eqn:Eop; [|done].
  destruct (lt_operations _ _ L _ _ Eop) as (op' & -> & Hi & Hcr & Hk & Hct & _).
  destruct (imports (upload_db d) !! _) as [im|] eqn:Eim; [|done].
  destruct (lt_imports _ _ L _ _ Eim) as (im' & Him' & Hsame & _). rewrite Hi, Him', Hsame.
  cbn [set_import_state im_application im_creator]. by rewrite Hcr, Hk, Hct.
Qed.

Definition same_caller (r r' : CompleteRequest) : Prop :=
  cq_PrincipalID r' = cq_PrincipalID r /\ cq_WorkspaceID r' = cq_WorkspaceID r /\
  cq_ApplicationID r' = cq_ApplicationID r /\ cq_IdempotencyKey r' = cq_IdempotencyKey r.

Lemma completion_claim_ok c e r id fp : validConfig c = true -> validateCompleteRequest r = true ->
  validOpaqueID id = true -> slen fp = 32 ->
  check_claim (complete_scope (complete_spec c e r id fp)) (complete_claim (complete_spec c e r id fp)) = true.
Proof.
  intros Hc Hv Hid Hfp. unfold validateCompleteRequest in Hv. simp_bool.
  unfold check_claim, complete_scope, complete_claim. cbn [complete_spec ct_Operation ct_PrincipalID ct_APIMajorVersion
    ct_IdempotencyOperation ct_IdempotencyKey ct_RequestFingerprint ct_IdempotencyExpiresAt o_ID o_CreatedAt o_WorkspaceID
    sc_principal sc_version sc_operation sc_key cl_fingerprint cl_resource cl_completed cl_expires].
  rewrite validOpaqueID_length, Hfp by done.
  rewrite (char_length_weaken 3 128 0 128 id) by (done || by apply validOpaqueID_length).
  rewrite (proj2 (Z.leb_le _ _) (retention_ok c e Hc)).
  by repeat match goal with H : idempotencyKeyPattern _ = true |- _ => rewrite H end.
Qed.

(** C6.  Completion is idempotent: once a request has been answered, any valid
    retry under its key, on a connection that works and with its advisory lock
    free, whatever happened in between, is answered with the same
    operation (as it was when it was published) and changes nothing, and a
    request to complete something else under that key is refused and changes
    nothing. *)
Theorem completion_idempotent c c' q q' e e' r r' d fs out d1 (h : history) bytes fp fp' :
  validConfig c' = true -> consistent d -> run_on (ServiceComplete c q e r) d fs = (Ok out, d1) ->
  issued_history h -> same_caller r r' -> validateCompleteRequest r' = true ->
  random e' 0 20 = Some bytes -> slen bytes = 20 -> (forall k, locks e' k = true) ->
  fingerprintCompletion r = Ok fp -> fingerprintCompletion r' = Ok fp' ->
  exec (ServiceComplete c' q' e' r') (replay h d1) =
    (if String.eqb fp fp' then Ok (again out) else Err ErrIdempotencyConflict, replay h d1).
Proof.
  intros Hcfg C Hx Hh (Hp & Hw & Ha & Hk) Hv' Hrnd Hlen Hlk Hf Hf'.
  apply ServiceComplete_ok in Hx as (id & fp0 & Hv & Hau & Hfp0 & Hid & Hx). assert (fp0 = fp) as -> by congruence.
  set (s := complete_spec c e r id fp) in *.
  assert (consistent d1) as C1.
  { apply (after_call (CallComplete (locks e) q s) d); [done|done|]. exact (f_equal snd Hx). }
  destruct (replay_steps h d1 Hh C1) as [C2 L]. set (d2 := replay h d1) in *.
  pose proof (completion_found _ _ _ _ _ _ _ _ _ (con_queue _ C) Hx) as Hsel.
  apply (selectCompletion_later _ _ _ _ L) in Hsel. fold s in Hsel.
  unfold ServiceComplete. rewrite Hv'. fold (upload_right r').
  assert (upload_right r' = true) as -> by (unfold upload_right in *; by rewrite Hp, Hw, Ha).
  rewrite Hf'. unfold randomIdentifier. rewrite Hrnd. cbn [negb].
  set (s' := complete_spec c' e' r' (encode_id "op_" bytes) fp').
  assert (complete_scope s' = complete_scope s) as Hsc by (unfold complete_scope, s, s'; cbn; by rewrite Hp, Hw, Hk).
  assert (selectCompletion s' d2 = Some (again out, fp)) as Hsel'.
  { rewrite <- Hsel. unfold selectCompletion. rewrite Hsc. cbn [s s' complete_spec ct_Operation o_WorkspaceID ct_ApplicationID ct_PrincipalID].
    by rewrite Hp, Hw, Ha. }
  rewrite Complete_exec, Hlk. cbn [negb]. unfold record_outcome, claim_completion. fold (complete_claim s').
  assert (exists cl, complete_claims d2 !! complete_scope s' = Some cl) as [cl Hcl].
  { unfold selectCompletion in Hsel'. destruct (complete_claims d2 !! _); [eauto|done]. }
  rewrite (insert_claim_taken _ _ cl); [|apply completion_claim_ok; try done|done].
  2:{ apply Catalog.generated_id_valid; [done|vm_compute; split; discriminate|done]. }
  2:{ by eapply fingerprint_length. }
  cbn [Z.eqb]. assert (set_complete_claims (complete_claims d2) d2 = d2) as -> by (by destruct d2).
  rewrite Hsel'. unfold same_fp, text_fingerprint. change (ct_RequestFingerprint s') with fp'.
  by destruct (String.eqb fp fp').
Qed.

(** ** Reservation *)

(** The same import at another moment of its life.  The first answer has not
    been through the database, which rounds the two times that the service
    does not round itself. *)
Definition same_import (fresh : bool) (i i' : Import) : Prop :=
  let stored t := if fresh then store_time t else t in
  i' = {| i_ID := i_ID i; i_WorkspaceID := i_WorkspaceID i; i_ApplicationID := i_ApplicationID i;
          i_CreatedByPrincipalID := i_CreatedByPrincipalID i; i_State := i_State i';
          i_ReportFormat := i_ReportFormat i; i_OriginalFilename := i_OriginalFilename i;
          i_ExpectedSize := i_ExpectedSize i; i_ExpectedSHA256 := i_ExpectedSHA256 i; i_MaxBytes := i_MaxBytes i;
          i_UploadExpiresAt := stored (i_UploadExpiresAt i); i_CreatedAt := i_CreatedAt i;
          i_UpdatedAt := i_UpdatedAt i';
          i_AnalysisContext := if fresh then option_map stored_context (i_AnalysisContext i) else i_AnalysisContext i |}.

Lemma scanImport_new c e r fp id art key ctx digest d : consistent d ->
  validExpectedSHA256 (rq_ExpectedSHA256 r) || String.eqb (rq_ExpectedSHA256 r) "" = true ->
  let s := reserve_spec c e r fp id art key ctx in
  reservable s digest d ->
  same_import true (rs_Import s)
    (scanImport (rq_WorkspaceID r) id (new_import (rs_Import s) digest) (contexts (reserved s digest d) !! reserve_key s)).
Proof.
  intros C Hsha s (_ & Hdg & _ & Him & _ & _ & _).
  assert (contexts (reserved s digest d) !! reserve_key s = reserved_context (rs_Import s)) as ->.
  { cbn [reserved contexts]. destruct (reserved_context (rs_Import s)); [by rewrite lookup_insert_eq|].
    destruct (contexts d !! reserve_key s) eqn:E; [|done]. apply (con_contexts _ C) in E as [? E]. congruence. }
  assert (hex_encode (null_string digest) = rq_ExpectedSHA256 r) as Hhex.
  { revert Hdg. unfold optionalDigest. change (i_ExpectedSHA256 (rs_Import s)) with (rq_ExpectedSHA256 r).
    unfold validExpectedSHA256 in Hsha. destruct (String.eqb_spec (rq_ExpectedSHA256 r) "") as [->|]; [by intros [= <-]|].
    destruct (hex_decode _) as [dg|] eqn:Eh; [|done]. rewrite orb_false_r in Hsha. simp_bool.
    destruct (slen dg =? 32); [|done]. intros [= <-]. by apply hex_encode_decode. }
  unfold same_import, scanImport, reserved_context. cbn -[hex_encode null_string nullif_empty timestamp].
  rewrite Hhex, timestamp_stored, !null_string_nullif.
  destruct (rq_ReportFormat r), ctx; done.
Qed.

Lemma selectReservation_old sc d out fp : selectReservation sc d = Some (out, fp) -> rv_Created out = false.
Proof.
  unfold selectReservation. destruct (create_claims d !! _); [|done]. destruct (imports _ !! _); [|done].
  by intros [= <- _].
Qed.

(** A reservation that can be read back still can later, in a later state. *)
Lemma selectReservation_later sc d d' out fp : later d d' -> selectReservation sc d = Some (out, fp) ->
  exists i', selectReservation sc d' = Some ({| rv_Import := i'; rv_Created := false |}, fp) /\
    same_import false (rv_Import out) i'.
Proof.
  intros L. unfold selectReservation. destruct (create_claims d !! sc) as [cl|] eqn:Ecl; [|done].
  rewrite (lookup_weaken _ _ _ _ Ecl (lt_create _ _ L)).
  destruct (imports (upload_db d) !! _) as [im|] eqn:Eim; [|done]. intros [= <- <-].
  destruct (lt_imports _ _ L _ _ Eim) as (im' & -> & Hsame & _). rewrite (lt_contexts _ _ L _ _ Eim).
  eexists. split; [done|]. unfold same_import, scanImport. cbn. rewrite Hsame. done.
Qed.

Lemma same_import_trans fresh i i' i'' : same_import fresh i i' -> same_import false i' i'' -> same_import fresh i i''.
Proof. unfold same_import. intros E1 E2. rewrite E2 at 1. rewrite E1. destruct fresh; done. Qed.

Lemma same_import_refl i : same_import false i i.
Proof. by destruct i. Qed.

(** A replay on a healthy connection. *)
Lemma exec_replay s d (k : option Reservation -> prog ingestion error Reservation) :
  validOpaqueID (rp_WorkspaceID s) = true -> validOpaqueID (rp_PrincipalID s) = true ->
  rp_APIMajorVersion s = apiMajorVersion -> rp_Operation s = operationCreateImport ->
  idempotencyKeyPattern (rp_IdempotencyKey s) = true ->
  exec (bind (ReplayReservation s) k) d =
  match selectReservation (replay_scope s) d with
  | None => exec (k None) d
  | Some (out, fp) => if String.eqb fp (rp_RequestFingerprint s) then exec (k (Some out)) d
                      else (Err ErrIdempotencyConflict, d)
  end.
Proof.
  intros H1 H2 H3 H4 H5. unfold ReplayReservation. rewrite H1, H2, H3, H4, H5. unfold exec, run_on. simpl.
  destruct (selectReservation _ _) as [[out fp]|]; [|done]. by destruct (String.eqb _ _).
Qed.

Definition reservation_scope (r : ReserveRequest) : scope :=
  Scope (rq_WorkspaceID r) (rq_PrincipalID r) apiMajorVersion operationCreateImport (rq_IdempotencyKey r).

Definition create_right (r : ReserveRequest) : bool :=
  Authorize (Build_AuthorizationRequest (rq_PrincipalID r) (rq_WorkspaceID r) (rq_ApplicationID r) CapabilityImportsCreate).

Lemma exec_replay_request r fp d (k : option Reservation -> prog ingestion error Reservation) :
  validateAuthorizationScope r = true ->
  exec (bind (ReplayReservation (replay_spec r fp)) k) d =
  match selectReservation (reservation_scope r) d with
  | None => exec (k None) d
  | Some (out, fp') => if String.eqb fp' fp then exec (k (Some out)) d else (Err ErrIdempotencyConflict, d)
  end.
Proof. unfold validateAuthorizationScope. intros Hv. simp_bool. by rewrite exec_replay. Qed.

(** The catalog is only read: resolution ends in the continuation, in a replay
    or in an error. *)
Lemma resolve_context_exec e r fp k d : validateAuthorizationScope r = true ->
  (exists ctx, exec (resolve_context e r (replay_spec r fp) k) d = exec (k ctx) d) \/
  exec (resolve_context e r (replay_spec r fp) k) d = exec (replay_or_missing (replay_spec r fp)) d \/
  (exists err, exec (resolve_context e r (replay_spec r fp) k) d = (Err err, d)).
Proof.
  intros Hv. unfold resolve_context. destruct (rq_AnalysisContext r) as [a|]; [|eauto].
  unfold Catalog.ResolveActiveRepositoryTarget. destruct (negb _); [right; left; done|].
  unfold Catalog.resolveActiveRepositoryTarget, exec, run_on. simpl.
  assert (set_catalog (catalog_db d) d = d) as Hput by (by destruct d).
  destruct (head _) as [l|]; simpl; rewrite ?Hput; [|right; left; done].
  destruct (consistent_target _ _ _); [left; eauto|right; right; eauto].
Qed.

Lemma fingerprint_sha r fp : fingerprintRequest r = Ok fp ->
  validExpectedSHA256 (rq_ExpectedSHA256 r) || String.eqb (rq_ExpectedSHA256 r) "" = true.
Proof.
  unfold fingerprintRequest. rewrite (orb_comm (validExpectedSHA256 _)).
  destruct (String.eqb (rq_ExpectedSHA256 r) "" || validExpectedSHA256 (rq_ExpectedSHA256 r)); [done|].
  by repeat (match goal with |- context [if ?b then _ else Err ErrInvalid] => destruct b end).
Qed.

Lemma fingerprint_digest r fp : fingerprintRequest r = Ok fp -> fp = sha256 (print (json_request r)).
Proof.
  unfold fingerprintRequest. repeat (match goal with |- context [if ?b then _ else Err ErrInvalid] => destruct b; [|done] end).
  by intros [= <-].
Qed.

(** An answered reservation: an earlier one was found, or the store made one. *)
Lemma ServiceReserve_ok c e r d fs out d' : run_on (ServiceReserve c e r) d fs = (Ok out, d') ->
  exists fp, validateAuthorizationScope r = true /\ create_right r = true /\ fingerprintRequest r = Ok fp /\
    ((d' = d /\ selectReservation (reservation_scope r) d = Some (out, fp)) \/
     exists id art key ctx, exec (Reserve (locks e) (reserve_spec c e r fp id art key ctx)) d = (Ok out, d')).
Proof.
  intros Hx. apply run_on_ok in Hx. unfold ServiceReserve in Hx.
  destruct (validateAuthorizationScope r) eqn:Hv; [|done]. fold (create_right r) in Hx. cbn [negb] in Hx.
  destruct (create_right r); [|done]. cbn [negb] in Hx. destruct (validateAnalysisContext _); [|done]. cbn [negb] in Hx.
  destruct (fingerprintRequest r) as [fp|]; [|done]. exists fp. split_and!; [done..|].
  rewrite exec_replay_request in Hx by done.
  destruct (selectReservation (reservation_scope r) d) as [[o f]|] eqn:Es.
  { destruct (String.eqb_spec f fp) as [->|]; [|done]. injection Hx as <- <-. by left. }
  destruct (randomIdentifier e 0 "imp_") as [id|]; [|done]. destruct (randomIdentifier e 1 "art_") as [art|]; [|done].
  destruct (newBlobKey e 2) as [key|]; [|done].
  destruct (resolve_context_exec e r fp (fun context => Reserve (locks e) (reserve_spec c e r fp id art key context)) d Hv)
    as [[ctx Hr]|[Hr|[err Hr]]]; rewrite Hr in Hx; [right; eauto| |done].
  unfold replay_or_missing in Hx. rewrite exec_replay_request, Es in Hx by done. done.
Qed.

(** After a reservation it can be read back. *)
Lemma reservation_found c e r d fs out d' fp : consistent d -> run_on (ServiceReserve c e r) d fs = (Ok out, d') ->
  fingerprintRequest r = Ok fp -> consistent d' /\
  exists i', selectReservation (reservation_scope r) d' = Some ({| rv_Import := i'; rv_Created := false |}, fp) /\
    same_import (rv_Created out) (rv_Import out) i'.
Proof.
  intros C Hx Hf. apply ServiceReserve_ok in Hx as (fp' & Hv & _ & Hfp & Hcase). assert (fp' = fp) as -> by congruence.
  assert (forall o, selectReservation (reservation_scope r) d = Some (o, fp) ->
    exists i', selectReservation (reservation_scope r) d = Some ({| rv_Import := i'; rv_Created := false |}, fp) /\
      same_import (rv_Created o) (rv_Import o) i') as Hold.
  { intros o Ho. pose proof (selectReservation_old _ _ _ _ Ho) as Hc. exists (rv_Import o). rewrite Ho, Hc.
    split; [by destruct o; simpl in *; subst|apply same_import_refl]. }
  destruct Hcase as [[-> Hsel]|(id & art & key & ctx & Hx)]; [split; [done|by apply Hold]|].
  set (s := reserve_spec c e r fp id art key ctx) in *.
  split; [apply (after_call (CallReserve (locks e) s) d); [done|done|exact (f_equal snd Hx)]|].
  apply Reserve_ok in Hx as [[-> Hsel]|(digest & Hr & -> & ->)]; [by apply Hold|].
  eexists. split; [|exact (scanImport_new c e r fp id art key ctx digest d C (fingerprint_sha _ _ Hf) Hr)].
  unfold selectReservation. cbn [reserved create_claims upload_db imports].
  change (reservation_scope r) with (reserve_scope s). rewrite lookup_insert_eq.
  cbn [reserve_claim cl_resource cl_fingerprint]. change (sc_workspace (reserve_scope s), i_ID (rs_Import s)) with (reserve_key s).
  rewrite lookup_insert_eq. done.
Qed.

(** C7.  Reservation is idempotent: once a request has been answered, any retry
    under its key, whatever happened in between and whether or not its target
    still resolves, is answered with the same import in its current state,
    marked as not created, and changes nothing, and a different request under
    that key is refused and changes nothing.  (docs/api/ingestion-v1.md and
    docs/api/openapi.yaml promise the status, headers and body of the first
    answer instead; the code keeps none of them, which is among the findings.) *)
Theorem reservation_idempotent c c' e e' r r' d fs out d1 (h : history) fp fp' :
  consistent d -> run_on (ServiceReserve c e r) d fs = (Ok out, d1) -> issued_history h ->
  reservation_scope r' = reservation_scope r -> validateAuthorizationScope r' = true -> create_right r' = true ->
  fingerprintRequest r = Ok fp -> fingerprintRequest r' = Ok fp' ->
  exists i', same_import (rv_Created out) (rv_Import out) i' /\
    exec (ServiceReserve c' e' r') (replay h d1) =
      (if String.eqb fp fp' then Ok {| rv_Import := i'; rv_Created := false |} else Err ErrIdempotencyConflict,
       replay h d1).
Proof.
  intros C Hx Hh Hsc Hv Hau Hf Hf'. destruct (reservation_found _ _ _ _ _ _ _ _ C Hx Hf) as (C1 & i1 & Hsel & Hsame).
  destruct (replay_steps h d1 Hh C1) as [_ L].
  destruct (selectReservation_later _ _ _ _ _ L Hsel) as (i2 & Hsel2 & Hsame2).
  exists i2. split; [by eapply same_import_trans|]. unfold ServiceReserve. rewrite Hv. fold (create_right r'). rewrite Hau.
  assert (validateAnalysisContext (rq_AnalysisContext r') = true) as ->.
  { unfold fingerprintRequest in Hf'. by destruct (validateAnalysisContext _). }
  rewrite Hf'. cbn [negb]. rewrite exec_replay_request, Hsc, Hsel2 by done. by destruct (String.eqb fp fp').
Qed.

(** ** Fingerprints *)

(** Two different texts with the same digest. *)
Definition collide (x y : string) : Prop := x <> y /\ sha256 x = sha256 y.

(** The first member of that name. *)
Fixpoint field (k : string) (l : list (string * json)) : option json :=
  match l with
  | [] => None
  | (k', v) :: l => if String.eqb k' k then Some v else field k l
  end.

Lemma field_app k l l' : field k (l ++ l') = match field k l with Some v => Some v | None => field k l' end.
Proof. induction l as [|[k' v] l IH]; [done|]. simpl. by destruct (String.eqb k' k). Qed.

Lemma field_omit_empty k k' x : field k (omit_empty k' x) =
  if String.eqb k' k then option_map JStr (nullif_empty x) else None.
Proof. unfold omit_empty, nullif_empty. destruct (String.eqb x ""); simpl; by destruct (String.eqb k' k). Qed.

Lemma nullif_empty_inj x y : option_map JStr (nullif_empty x) = option_map JStr (nullif_empty y) -> x = y.
Proof.
  rewrite <- (null_string_nullif x) at 2. rewrite <- (null_string_nullif y) at 2.
  destruct (nullif_empty x), (nullif_empty y); simpl; congruence.
Qed.

(** The members of the request that is fingerprinted. *)
Definition members (v : json) : list (string * json) := match v with JObj l => l | _ => [] end.

Lemma request_fields r :
  field "application_id" (members (json_request r)) = Some (JStr (rq_ApplicationID r)) /\
  field "report_format" (members (json_request r)) =
    Some (JObj (("name", JStr (rf_Name (rq_ReportFormat r))) :: omit_empty "version" (rf_Version (rq_ReportFormat r)))) /\
  field "original_filename" (members (json_request r)) = option_map JStr (nullif_empty (rq_OriginalFilename r)) /\
  field "expected_size_bytes" (members (json_request r)) = option_map JInt (rq_ExpectedSize r) /\
  field "expected_sha256" (members (json_request r)) = option_map JStr (nullif_empty (rq_ExpectedSHA256 r)) /\
  field "analysis_context" (members (json_request r)) = option_map json_context (rq_AnalysisContext r).
Proof.
  unfold json_request. cbn [members]. rewrite !field_app, !field_omit_empty. cbn [field].
  cbn [String.eqb Ascii.eqb Bool.eqb]. destruct (rq_ExpectedSize r), (rq_AnalysisContext r); cbn [field String.eqb Ascii.eqb Bool.eqb];
    split_and!; try done; by destruct (option_map JStr _).
Qed.

Definition member_ok (n : Z) (kv : string * json) : Prop :=
  ValidString (fst kv) = true /\ encodable (snd kv) = true /\ nesting (snd kv) <= n.

Lemma object_ok n l : 0 <= n -> Forall (member_ok n) l -> encodable (JObj l) = true /\ nesting (JObj l) <= 1 + n.
Proof.
  intros Hn. induction 1 as [|kv l (Hk & He & Hd) _ [IHe IHn]]; [split; [done|simpl; lia]|].
  cbn [encodable nesting forallb map foldr] in *. rewrite Hk, He. split; [exact IHe|]. lia.
Qed.

Lemma string_ok n k x : 0 <= n -> ValidString k = true -> ValidString x = true -> member_ok n (k, JStr x).
Proof. done. Qed.

Lemma omit_empty_ok n k x : 0 <= n -> ValidString k = true -> ValidString x = true -> Forall (member_ok n) (omit_empty k x).
Proof. intros. unfold omit_empty. destruct (String.eqb x ""); repeat constructor; done. Qed.

Lemma sha_valid v : validExpectedSHA256 v || String.eqb v "" = true -> ValidString v = true.
Proof.
  intros H. apply orb_true_iff in H as [H|H]; [|by apply String.eqb_eq in H as ->].
  unfold validExpectedSHA256 in H. destruct (hex_decode v) as [t|] eqn:E; [|done]. simp_bool.
  rewrite <- (hex_encode_decode _ _ E) by done.
  refine (proj1 (runes_ascii _ (sforallb_impl _ _ _ _ (hex_encode_class t)))).
  intros [[] [] [] [] [] [] [] []]; vm_compute; done.
Qed.

Lemma validOpaqueID_text v : validOpaqueID v = true -> ValidString v = true.
Proof. unfold validOpaqueID. intros H. by simp_bool. Qed.

Lemma request_text_ok r fp : validateAuthorizationScope r = true -> fingerprintRequest r = Ok fp ->
  encodable (json_request r) = true /\ nesting (json_request r) <= max_nesting.
Proof.
  intros Hv Hf. pose proof (fingerprint_sha _ _ Hf) as Hsha. apply sha_valid in Hsha.
  unfold validateAuthorizationScope in Hv. unfold fingerprintRequest in Hf.
  destruct (validateAnalysisContext (rq_AnalysisContext r)) eqn:Hctx; [|done].
  destruct (String.eqb (rf_Name _) _ && _) eqn:Hfmt; [|done]. apply andb_prop in Hfmt as [Hfn Hfv]. apply String.eqb_eq in Hfn.
  destruct (String.eqb (rq_OriginalFilename r) "" || _) eqn:Hname; [|done].
  simp_bool. clear Hf. destruct (object_ok 2 (members (json_request r))) as [He Hn]; [done| |split; [exact He|]].
  2:{ etrans; [exact Hn|]. done. }
  unfold json_request. cbn [members]. rewrite !Forall_app. split_and!.
  - apply Forall_cons_2; [apply string_ok; [done..|by apply validOpaqueID_text]|]. apply Forall_cons_2; [|constructor].
    split; [done|]. apply (object_ok 1); [done|]. apply Forall_cons_2; [by apply string_ok; [..|rewrite Hfn]|].
    apply omit_empty_ok; [done..|]. apply orb_true_iff in Hfv as [E|E]; by apply String.eqb_eq in E as ->.
  - apply omit_empty_ok; [done..|]. apply orb_true_iff in Hname as [E|E]; [by apply String.eqb_eq in E as ->|by simp_bool].
  - destruct (rq_ExpectedSize r); repeat constructor; simpl; [apply itoa_literal|done].
  - by apply omit_empty_ok.
  - destruct (rq_AnalysisContext r) as [a|]; [|done]. apply Forall_cons_2; [|constructor]. split; [done|].
    apply (object_ok 1); [done|]. unfold validateAnalysisContext in Hctx.
    apply andb_prop in Hctx as [[Hkind Htype]%andb_prop Htarget]. apply String.eqb_eq in Hkind, Htype. rewrite Hkind, Htype.
    apply Forall_cons_2; [by apply string_ok|]. apply Forall_cons_2; [|constructor]. split; [done|].
    apply (object_ok 0); [done|]. apply Forall_cons_2; [by apply string_ok|].
    apply Forall_cons_2; [apply string_ok; [done..|by apply validOpaqueID_text]|constructor].
Qed.

(** C35.  A fingerprint stands for the request: two valid requests with the same
    fingerprint ask for the same application, report format, file name, size,
    digest and analysis context, unless the JSON texts of these two very
    requests are different and have the same SHA-256 digest. *)
Theorem fingerprint_faithful r r' fp :
  validateAuthorizationScope r = true -> validateAuthorizationScope r' = true ->
  (forall n, rq_ExpectedSize r = Some n \/ rq_ExpectedSize r' = Some n -> in_int64 n) ->
  fingerprintRequest r = Ok fp -> fingerprintRequest r' = Ok fp ->
  collide (print (json_request r)) (print (json_request r')) \/
  (rq_ApplicationID r = rq_ApplicationID r' /\ rq_ReportFormat r = rq_ReportFormat r' /\
   rq_OriginalFilename r = rq_OriginalFilename r' /\ rq_ExpectedSize r = rq_ExpectedSize r' /\
   rq_ExpectedSHA256 r = rq_ExpectedSHA256 r' /\ rq_AnalysisContext r = rq_AnalysisContext r').
Proof.
  intros Hv Hv' Hint Hf Hf'. destruct (request_text_ok _ _ Hv Hf) as [He Hn], (request_text_ok _ _ Hv' Hf') as [He' Hn'].
  destruct (decide (print (json_request r) = print (json_request r'))) as [Heq|Hne].
  2:{ left. split; [done|].
      by rewrite <- (fingerprint_digest _ _ Hf), <- (fingerprint_digest _ _ Hf'). }
  right. apply print_inj in Heq; [|done..].
  destruct (request_fields r) as (F1 & F2 & F3 & F4 & F5 & F6), (request_fields r') as (G1 & G2 & G3 & G4 & G5 & G6).
  rewrite Heq in *. rewrite G1 in F1. rewrite G2 in F2. rewrite G3 in F3. rewrite G4 in F4. rewrite G5 in F5. rewrite G6 in F6.
  injection F1 as F1. injection F2 as F2n F2v. apply nullif_empty_inj in F3, F5. split_and!; try done.
  - assert (rf_Version (rq_ReportFormat r') = rf_Version (rq_ReportFormat r)) as F2v'.
    { apply nullif_empty_inj. apply (f_equal (field "version")) in F2v. by rewrite !field_omit_empty in F2v. }
    destruct (rq_ReportFormat r), (rq_ReportFormat r'); simpl in *; congruence.
  - destruct (rq_ExpectedSize r) as [n|], (rq_ExpectedSize r') as [n'|]; try done. injection F4 as F4.
    apply (f_equal parse_int) in F4. rewrite !parse_int_itoa in F4 by eauto. congruence.
  - destruct (rq_AnalysisContext r) as [[k [t i]]|], (rq_AnalysisContext r') as [[k' [t' i']]|]; try done.
    injection F6 as -> -> ->. done.
Qed.

End Theorems.
End IngestionTheorems.
