(* ===== verification/UploadTheorems.v ===== *)
(** * Uploads: the bytes are the evidence

    The theorems on [Upload] of the ingestion service, between the database
    (Uploads.v) and any blob store that keeps its contract (Streams.v).  Every
    call of the store may fail, and others may work on the tables between two
    calls. *)

From S2P Require Import Prelude GoStrings Encoding Txn Json Queue Records Idempotency Catalog Blobstore Streams.
From S2P Require Import Uploads Scans Ingestion IngestionService.

Local Open Scope Z_scope.

Module UploadTheorems.
Import Idempotency Uploads Ingestion IngestionService.
Import Catalog(Authorizer, Authorize, AuthorizationRequest, Build_AuthorizationRequest).
Import JobQueue(char_length_between, opt_check).
Import Streams(stream, stream_read, reads, body, ending, BlobWriter, BlobContract).

(** A body that was read to its end, with its size and digest. *)
Definition whole (content : stream) (size : Z) (digest : string) : Prop :=
  ending content = Blobstore.EOF /\ size = slen (body content) /\ digest = hex_encode (sha256 (body content)).

Lemma differs_spec a n : differs a n = false -> forall m, a = Some m -> m = n.
Proof. intros H m ->. simpl in H. by simp_bool. Qed.

(** Comparing a body with evidence reads all of it. *)
Lemma verifyContent_ok ctx content max declared expected sha m : 0 < max < max_int64 ->
  verifyContent ctx content max declared expected sha m = Ok tt ->
  whole content (Blobstore.m_Size m) (Blobstore.m_SHA256 m) /\ Blobstore.m_Size m <= max /\
  (forall n, expected = Some n -> n = Blobstore.m_Size m) /\ (sha = "" \/ sha = Blobstore.m_SHA256 m).
Proof.
  intros Hmax. unfold verifyContent. destruct (negb (exceeds declared max || _)) eqn:E1; [|done].
  destruct (negb (differs expected _)) eqn:E2; [|done]. destruct (String.eqb sha "" || _) eqn:E3; [|done].
  pose proof (Blobstore.copy_result_ok stream_read ctx Blobstore.discard_buffer content max (reads content)
    Streams.stream_read_contract ltac:(done) Hmax) as Hres.
  destruct (Streams.copy_stream ctx Blobstore.discard_buffer max ltac:(done) Hmax content (reads content) ltac:(lia))
    as (w & e & rd & Ec & Hw & _). rewrite Ec in *. destruct Hres as [Hle Hres].
  destruct e as [[]|]; try done. rewrite Hres by done. destruct (Hw eq_refl) as [-> Hend].
  destruct (_ && _) eqn:Eb; [|done]. intros _. simp_bool. split_and!; [|lia|by apply differs_spec|].
  - unfold whole. by split_and!.
  - apply orb_true_iff in E3 as [E|E]; apply String.eqb_eq in E; auto.
Qed.

Section Theorems.
Context {pg : Postgres} {az : Authorizer} {B : Type} `{BlobContract B}.
Variable ctx : nat -> Blobstore.ctx_state.
Variable plan : nat -> list fault.
Variable others : nat -> uploads -> uploads.

(** The limits of an import, from the columns of its row. *)
Definition limits_ok (im : import_row) : Prop :=
  0 < im_max_bytes im < max_int64 /\ forall x, im_expected_sha im = Some x -> slen x = 32.

(** The bytes fit the reservation. *)
Definition fits (content : stream) (im : import_row) : Prop :=
  slen (body content) <= im_max_bytes im /\
  (forall n, im_expected_size im = Some n -> n = slen (body content)) /\
  (forall x, im_expected_sha im = Some x -> x = sha256 (body content)).

Lemma expected_digest im content : limits_ok im ->
  let sha := hex_encode (null_string (im_expected_sha im)) in
  sha = "" \/ sha = hex_encode (sha256 (body content)) ->
  forall x, im_expected_sha im = Some x -> x = sha256 (body content).
Proof.
  intros [_ Hlen] sha Hsha x Hx. specialize (Hlen x Hx). unfold sha in Hsha. rewrite Hx in Hsha.
  destruct Hsha as [E|E]; [|exact (hex_encode_inj x _ E)]. change (hex_encode x = "") in E.
  apply (f_equal slen) in E. rewrite hex_encode_length, Hlen in E. done.
Qed.

(** A session describes the reservation it was opened for. *)
Definition session_of (im : import_row) (s : uploadSession) : Prop :=
  us_MaxBytes s = im_max_bytes im /\ us_ExpectedSize s = im_expected_size im /\
  us_ExpectedSHA256 s = hex_encode (null_string (im_expected_sha im)).

(** What reaches the blob store, or is found there, is the body. *)
Lemma store_content_ok c e content declared s key db m db' im : limits_ok im -> session_of im s ->
  (forall n, us_ExpectedSize s = Some n -> declared = None \/ declared = Some n) ->
  store_content ctx plan others c e content declared s key db = (Ok m, db') ->
  whole content (Blobstore.m_Size m) (Blobstore.m_SHA256 m) /\ fits content im /\ fst db' = fst db.
Proof using Type*.
  intros Hlim (Hmax & Hsize & Hsha) Hdecl. destruct db as [d b]. unfold store_content.
  destruct (Streams.Stat key b) as [[m0|err] b1] eqn:Es.
  - destruct (verifyContent _ _ _ _ _ _ _) as [[]|err] eqn:Ev; [|by destruct err].
    intros [= <- <-]. rewrite Hmax, Hsize, Hsha in Ev. apply verifyContent_ok in Ev as (Hw & Hle & Hexp & Hx); [|apply Hlim].
    pose proof Hw as (_ & Esize & Edig). split; [done|]. split; [|done]. rewrite Esize in Hle, Hexp. rewrite Edig in Hx.
    split; [done|]. split; [done|]. by apply expected_digest.
  - destruct err; try (intros; done). destruct (Streams.Put _ _ _ _) as [[m1|err] b2] eqn:Ep.
    2:{ by destruct (handleBlobWriteFailure _ _ _ _ _ _ _). }
    intros [= <- <-]. apply Streams.put_describes in Ep as (Hend & Esize & Edig & Hle & Hver & _). simpl in Hle.
    split; [by split_and!|]. split; [|done]. rewrite Hmax in Hle. rewrite Esize in Hle. split; [done|].
    unfold Blobstore.VerifyExpected in Hver. cbn [Blobstore.ExpectedSize Blobstore.ExpectedSHA256] in Hver.
    destruct (match _ with Some _ => _ | None => true end) eqn:E1 in Hver; [|done].
    destruct (String.eqb _ _ || _) eqn:E2 in Hver; [|done]. split.
    + intros n Hn. rewrite <- Hsize in Hn. destruct (Hdecl n Hn) as [-> | ->].
      * rewrite Hn in E1. apply Z.eqb_eq in E1. congruence.
      * apply Z.eqb_eq in E1. congruence.
    + apply expected_digest; [done|]. rewrite <- Hsha. rewrite Edig in E2.
      apply orb_true_iff in E2 as [E|E]; apply String.eqb_eq in E; auto.
Qed.

(** The evidence row of a body. *)
Definition holds_body (content : stream) (a : artifact_row) : Prop :=
  ar_state a = rawArtifactCommitted /\ ar_size a = Some (slen (body content)) /\
  ar_sha a = Some (sha256 (body content)).

(** A commit that succeeded left the evidence of its metadata. *)
Lemma commit_evidence k r s m content d receipt d' :
  whole content (Blobstore.m_Size m) (Blobstore.m_SHA256 m) ->
  store_call plan others k (CommitUpload (commit_spec r s m)) d = (Ok receipt, d') ->
  rc_SizeBytes receipt = slen (body content) /\ rc_SHA256 receipt = hex_encode (sha256 (body content)) /\
  rc_ImportID receipt = ur_ImportID r /\
  exists a, artifacts d' !! (ur_WorkspaceID r, ur_ImportID r) = Some a /\ holds_body content a.
Proof using Type.
  intros (_ & Esize & Edig). unfold store_call. intros Hx. apply run_on_ok in Hx.
  pose proof (CommitUpload_effect (commit_spec r s m) (others k d)) as He. rewrite Hx in He.
  destruct He as [[[x ?] _]|(im & a & digest & _ & Ha & _ & _ & Hhex & _ & Hr & ->)]; [done|].
  injection Hr as ->. cbn [receipt_of commit_spec rc_SizeBytes rc_SHA256 rc_ImportID cu_SizeBytes cu_SHA256 cu_ImportID].
  split; [done|]. split; [done|]. split; [done|]. exists (commit_artifact (commit_spec r s m) digest a).
  split; [apply lookup_insert_eq|]. cbn [commit_spec cu_SHA256] in Hhex. rewrite Edig, hex_decode_encode in Hhex.
  assert (forall x y : string, Some x = Some y -> x = y) as Hinj by congruence. apply Hinj in Hhex as <-.
  split_and!; [done| |done]. cbn. by rewrite Esize.
Qed.

(** C8.  What is uploaded is what was sent: when [Upload] answers a receipt, for a
    first upload, a retry after a crash or a replay, on failing connections
    and with others at work, the body was read to its end without an error,
    its size and digest are those of the receipt, it fits the limits and
    expectations of the caller's own reservation, and the committed evidence
    holds exactly that size and digest. *)
Theorem upload_evidence c e r content d b receipt d' b' :
  (forall k im, imports (others 0 d) !! k = Some im -> limits_ok im) ->
  ur_Content r = Some content ->
  Upload ctx plan others c e r (d, b) = (Ok receipt, (d', b')) ->
  whole content (rc_SizeBytes receipt) (rc_SHA256 receipt) /\ rc_ImportID receipt = ur_ImportID r /\
  (exists im, imports (others 0 d) !! (ur_WorkspaceID r, ur_ImportID r) = Some im /\
     im_application im = ur_ApplicationID r /\ im_creator im = ur_PrincipalID r /\ fits content im) /\
  exists a, artifacts d' !! (ur_WorkspaceID r, ur_ImportID r) = Some a /\ holds_body content a.
Proof using Type*.
  intros Hlim Hc Hx. unfold Upload in Hx. rewrite Hc in Hx. destruct (negb (validateUploadRequest r)); [done|].
  destruct (negb (Authorize _)); [done|]. destruct (randomIdentifier e 0 "art_") as [art|]; [|done].
  destruct (randomIdentifier e 1 "upl_") as [att|]; [|done]. destruct (newBlobKey e 2) as [key|]; [|done].
  set (bs := begin_spec c e r art att key) in *.
  destruct (store_call plan others 0 (BeginUpload bs) d) as [[s|] d1] eqn:Eb; [|done].
  unfold store_call in Eb. apply run_on_ok in Eb. pose proof (BeginUpload_effect bs (others 0 d)) as He.
  rewrite Eb in He. cbn [fst snd] in He.
  remember (Ok s) as answer eqn:Ea. destruct He as [|im a a' us rc Hf Hst Hrc Hus| |im a us Hf _ _ _ _ Hus]; try done;
    injection Ea as ->; apply find_upload_spec in Hf as (Him & Ha & Happ & Hcr); pose proof (Hlim _ _ Him) as Hl.
  - subst s. cbn [us_Receipt session_for] in Hx.
    destruct (verifyReplay ctx content (ur_DeclaredSize r) _ rc) as [[]|] eqn:Ev; [|done]. injection Hx as <- <- <-.
    unfold verifyReplay in Ev. destruct (verifyContent _ _ _ _ _ _ _) as [[]|err] eqn:Evc; [|by destruct err].
    apply verifyContent_ok in Evc as (Hw & Hle & Hexp & Hsha); [|apply Hl].
    cbn [receipt_metadata Blobstore.m_Size Blobstore.m_SHA256] in *. pose proof Hw as (_ & Esize & Edig).
    unfold committed_receipt in Hrc. destruct a as [row|]; [|done].
    destruct (ar_size row) as [n|] eqn:En; [|done]. destruct (ar_sha row) as [sha|] eqn:Esh; [|done].
    destruct (ar_committed row); [|done]. destruct (_ && _) eqn:Est; [|done]. simp_bool.
    injection Hrc as <- <-. cbn [rc_SizeBytes rc_SHA256 rc_ImportID] in *. split; [done|]. split; [done|]. split.
    + exists im. split_and!; try done. rewrite Esize in Hle, Hexp. rewrite Edig in Hsha. split; [done|]. split; [done|].
      by apply expected_digest.
    + exists row. split; [done|]. split_and!; [done|by rewrite En, Esize|]. rewrite Esh. f_equal. by apply hex_encode_inj.
  - subst s. cbn [us_Receipt session_for] in Hx. unfold upload_session in Hx.
    destruct (negb (String.eqb _ _)); [done|]. destruct (exceeds _ _); [by destruct (rejectAttempt _ _ _ _ _ _ _ _)|].
    destruct (match ur_DeclaredSize r with Some _ => _ | None => false end) eqn:Ed; [by destruct (rejectAttempt _ _ _ _ _ _ _ _)|].
    destruct (parseStorageKey _) as [pk|]; [|done].
    destruct (store_content _ _ _ _ _ _ _ _ _ _) as [[m|] [d2 b2]] eqn:Esc; [|done].
    apply store_content_ok with (im := im) in Esc as (Hw & Hfits & _); [|done|done|].
    2:{ intros n Hn. destruct (ur_DeclaredSize r) as [dn|]; [|by left]. rewrite Hn in Ed. simp_bool. right. congruence. }
    destruct (store_call plan others 1 _ d2) as [[rc|] d3] eqn:Ecm; [|done]. injection Hx as <- <- <-.
    apply (commit_evidence 1 r _ _ content) in Ecm as (E1 & E2 & E3 & E4); [|done].
    split; [split_and!; [apply Hw|done|done]|]. split; [done|]. split; [|done]. by exists im.
Qed.
End Theorems.

(** ** No lease is left behind *)

Section Healthy.
Context {pg : Postgres} {az : Authorizer} {B : Type} `{BlobWriter B}.
Variable ctx : nat -> Blobstore.ctx_state.

Abbreviation no_plan := (fun _ : nat => @nil fault).
Abbreviation alone := (fun (_ : nat) (d : uploads) => d).

(** The rows of a held session. *)
Record held (s : uploadSession) (t : time) (im : import_row) (a : artifact_row) (d : uploads) : Prop := {
  hd_import : imports d !! (us_WorkspaceID s, us_ImportID s) = Some im;
  hd_uploading : im_state im = ImportUploading;
  hd_artifact : artifacts d !! (us_WorkspaceID s, us_ImportID s) = Some a;
  hd_fenced : fenced (us_ArtifactID s) (us_AttemptID s) a = true;
  hd_check : check_artifact a = true;
  hd_times : im_created im <= store_time t /\ ar_created a <= store_time t
}.

Lemma check_end e a : check_artifact a = true -> ar_state a = rawArtifactUploading ->
  ar_created a <= store_time (eu_EndedAt e) -> char_length_between 0 64 (eu_RejectCode e) = true ->
  check_artifact (end_artifact e a) = true.
Proof.
  intros Hck Hs Ht Hcode. unfold check_artifact in *. rewrite Hs in Hck.
  cbn -[char_length_between match_head Blobstore.keyPattern opt_check nullif_empty Z.leb max_int64 slen String.eqb holds_evidence].
  simp_bool. repeat match goal with H : ?b = true |- context [?b] => rewrite H end.
  rewrite (proj2 (Z.leb_le _ _)) by lia. unfold nullif_empty.
  match goal with H : eqb (holds_evidence _) _ = true |- _ => rename H into Hev; cbn [holds_evidence] in Hev end.
  by destruct (String.eqb (eu_RejectCode e) ""); cbn [opt_check holds_evidence]; rewrite ?Hcode, Hev.
Qed.

(** A held session can be ended. *)
Lemma end_held s t t' code im a d : held s t im a d -> t <= t' -> char_length_between 0 64 code = true ->
  exists im' a', exec (EndUpload (end_spec s t' code)) d = (Ok tt, put (us_WorkspaceID s, us_ImportID s) im' (Some a') d) /\
    ar_state a' <> rawArtifactUploading.
Proof.
  intros [Him Hst Ha Hf Hck [Ht1 Ht2]] Hle Hcode. pose proof (store_time_mono _ _ Hle) as Hmono.
  pose proof Hf as Hf0. unfold fenced in Hf0. simp_bool.
  exists (set_import_state (ended_state (end_spec s t' code)) (store_time t') im), (end_artifact (end_spec s t' code) a).
  split; [|cbn; by destruct (String.eqb code "")].
  unfold exec, run_on, EndUpload. cbn [end_spec eu_WorkspaceID eu_ImportID eu_ArtifactID eu_AttemptID eu_RejectCode eu_EndedAt].
  rewrite run_begin, run_statement. unfold update_artifact. rewrite Ha, Hf.
  rewrite check_end by (done || (cbn; lia)). cbn [Z.eqb Pos.eqb negb]. rewrite run_statement. unfold update_import.
  cbn [imports]. rewrite Him. unfold is_uploading. rewrite bool_decide_eq_true_2 by done.
  assert (check_import (set_import_state (ended_state (end_spec s t' code)) (store_time t') im) = true) as Hci.
  { apply Z.leb_le. cbn. lia. }
  unfold ended_state in Hci. cbn [end_spec eu_RejectCode] in Hci. by rewrite Hci.
Qed.

(** The state after a call that does not keep its lease. *)
Definition released (s : uploadSession) (d : uploads) : Prop :=
  forall a, artifacts d !! (us_WorkspaceID s, us_ImportID s) = Some a -> ar_state a <> rawArtifactUploading.

Lemma release_held k s t t' im a d : held s t im a d -> t <= t' ->
  released s (releaseAttempt no_plan alone k s t' d).
Proof.
  intros Hh Hle. destruct (end_held s t t' "" im a d Hh Hle eq_refl) as (im' & a' & Hx & Hs).
  unfold releaseAttempt, store_call. unfold exec in Hx. rewrite Hx. intros a0. cbn. rewrite lookup_insert_eq. congruence.
Qed.

Lemma reject_held k s t t' code cause im a d : held s t im a d -> t <= t' -> char_length_between 0 64 code = true ->
  released s (snd (rejectAttempt no_plan alone k s t' code cause d)).
Proof.
  intros Hh Hle Hcode. destruct (end_held s t t' code im a d Hh Hle Hcode) as (im' & a' & Hx & Hs).
  unfold rejectAttempt, store_call. unfold exec in Hx. rewrite Hx. intros a0. cbn. rewrite lookup_insert_eq. congruence.
Qed.

(** Reading a body to its end does not run out. *)
Lemma verifyContent_returns content max declared expected sha m : 0 < max < max_int64 ->
  verifyContent ctx content max declared expected sha m <> Err ErrPanic.
Proof using Type.
  intros Hmax. unfold verifyContent. destruct (negb (_ || _)); [|done].
  destruct (negb (differs expected _)); [|done]. destruct (String.eqb sha "" || _); [|done].
  pose proof (Blobstore.copy_result_ok stream_read ctx Blobstore.discard_buffer content max (reads content)
    Streams.stream_read_contract ltac:(done) Hmax) as Hres.
  destruct (Streams.copy_stream ctx Blobstore.discard_buffer max ltac:(done) Hmax content (reads content) ltac:(lia))
    as (w & e & rd & Ec & _). rewrite Ec in *. destruct Hres as [_ Hres].
  destruct e as [[]|]; try done. rewrite Hres by done. by destruct (_ && _).
Qed.

Lemma store_content_released c e content declared s key t im a d b out d' b' : held s t im a d ->
  t <= timestamp e 1 -> 0 < us_MaxBytes s < max_int64 ->
  store_content ctx no_plan alone c e content declared s key (d, b) = (out, (d', b')) ->
  (exists err, out = Err err /\ released s d') \/ (exists m, out = Ok m /\ d' = d).
Proof.
  intros Hh Hle Hmax. unfold store_content. destruct (Streams.Stat key b) as [[m|err] b1].
  - pose proof (verifyContent_returns content (us_MaxBytes s) declared (us_ExpectedSize s) (us_ExpectedSHA256 s) m Hmax) as Hp.
    destruct (verifyContent _ _ _ _ _ _ _) as [[]|err]; [|destruct err; try done]; intros [= <- <- <-]; eauto;
      left; eexists; (split; [done|]); eapply release_held; done.
  - pose proof (release_held 1 s t (timestamp e 1) im a d Hh Hle) as Hrel.
    destruct err; try (intros [= <- <- <-]; left; eexists; split; [done|exact Hrel]).
    destruct (Streams.Put _ _ _ b1) as [[m|err] b2]; [intros [= <- <- <-]; eauto|].
    destruct (handleBlobWriteFailure _ _ _ _ _ _ _) as [answer d2] eqn:Eh. intros [= <- <- <-]. left.
    eexists. split; [done|]. unfold handleBlobWriteFailure in Eh.
    destruct err; try (injection Eh as _ <-; exact Hrel);
      pose proof (f_equal snd Eh) as Eh'; cbn [snd] in Eh'; subst d2; by eapply reject_held.
Qed.

Lemma session_released c e r content s t im a d b out d' b' : held s t im a d ->
  us_WorkspaceID s = ur_WorkspaceID r -> us_ImportID s = ur_ImportID r ->
  t <= timestamp e 1 -> t <= timestamp e 2 -> 0 < us_MaxBytes s < max_int64 ->
  upload_session ctx no_plan alone c e r content s (d, b) = (out, (d', b')) -> released s d'.
Proof.
  intros Hh Hw Hi Hle Hle2 Hmax. unfold upload_session.
  destruct (negb (String.eqb _ _)); [intros [= <- <- <-]; by eapply release_held|].
  destruct (exceeds _ _).
  { destruct (rejectAttempt _ _ _ _ _ _ _ _) as [x d1] eqn:E. intros [= <- <- <-].
    pose proof (f_equal snd E) as E'. cbn [snd] in E'. subst d1. by eapply reject_held. }
  destruct (match ur_DeclaredSize r with Some _ => _ | None => false end).
  { destruct (rejectAttempt _ _ _ _ _ _ _ _) as [x d1] eqn:E. intros [= <- <- <-].
    pose proof (f_equal snd E) as E'. cbn [snd] in E'. subst d1. by eapply reject_held. }
  destruct (parseStorageKey _); [|intros [= <- <- <-]; by eapply release_held].
  destruct (store_content _ _ _ _ _ _ _ _ _ _) as [o [d1 b1]] eqn:Es.
  apply store_content_released with (t := t) (im := im) (a := a) in Es as [(err & -> & Hr)|(m & -> & ->)]; try done.
  { by intros [= <- <- <-]. }
  unfold store_call. pose proof (CommitUpload_effect (commit_spec r s m) d) as He. unfold exec in He.
  destruct (run_on _ d []) as [[rc|err] d2]; intros [= <- <- <-].
  - destruct He as [[[x ?] _]|(im0 & row0 & dg & _ & _ & _ & _ & _ & _ & _ & ->)]; [done|].
    intros a1. rewrite Hw, Hi. cbn. rewrite lookup_insert_eq. intros [= <-]. done.
  - destruct He as [[_ ->]|(? & ? & ? & _ & _ & _ & _ & _ & _ & ? & _)]; [|done]. by eapply release_held.
Qed.

(** C21.  No upload blocks the next: on a healthy connection, with nobody else
    at work on the database during the call, a clock that does not go back
    before the attempt began and limits below math.MaxInt64, whatever the blob
    store and the body do, an upload that returns has not left an attempt of
    its own behind; an artifact that is uploading afterwards was uploading
    before, under a lease of someone else, and nothing changed. *)
Theorem upload_no_leak c e r d b out d' b' a :
  (forall k im, imports d !! k = Some im -> 0 < im_max_bytes im < max_int64) ->
  timestamp e 0 <= timestamp e 1 -> timestamp e 0 <= timestamp e 2 ->
  Upload ctx no_plan alone c e r (d, b) = (out, (d', b')) ->
  artifacts d' !! (ur_WorkspaceID r, ur_ImportID r) = Some a -> ar_state a = rawArtifactUploading ->
  d' = d.
Proof.
  intros Hlim Ht1 Ht2 Hx Ha Hs. revert Hx. unfold Upload. destruct (ur_Content r) as [content|]; [|by intros [= <- <- <-]].
  destruct (negb (validateUploadRequest r)); [by intros [= <- <- <-]|]. destruct (negb (Authorize _)); [by intros [= <- <- <-]|].
  destruct (randomIdentifier e 0 "art_") as [art|]; [|by intros [= <- <- <-]].
  destruct (randomIdentifier e 1 "upl_") as [att|]; [|by intros [= <- <- <-]].
  destruct (newBlobKey e 2) as [key|]; [|by intros [= <- <- <-]]. set (bs := begin_spec c e r art att key) in *.
  unfold store_call. pose proof (BeginUpload_effect bs d) as He. unfold exec in He.
  destruct (run_on (BeginUpload bs) d []) as [answer d1]. cbn [fst snd] in He.
  assert (begin_key bs = (ur_WorkspaceID r, ur_ImportID r)) as Hkey by done.
  destruct He as [err|im a0 a' us rc Hf Hst Hrc Hus|im a0 d1 Hf Ho Hexp Hart Himp|im a0 us Hf Ho Hexp Hck Hlive Hus Hci].
  - by intros [= <- <- <-].
  - subst us. cbn [us_Receipt session_for]. destruct (verifyReplay _ _ _ _ _) as [[]|]; by intros [= <- <- <-].
  - intros [= <- <- <-]. apply find_upload_spec in Hf as (_ & Ea & _). rewrite Hkey in *.
    destruct Hart as [[E [-> |(r0 & -> & Hr0)]]|(r0 & _ & _ & _ & E)]; rewrite E in Ha.
    + congruence.
    + congruence.
    + rewrite lookup_insert_eq in Ha. by injection Ha as <-.
  - subst us. cbn [us_Receipt session_for]. intros Hx. exfalso. apply find_upload_spec in Hf as (Him & Ea & _).
    pose proof (Hlim _ _ Him) as Hmax. set (la := leased_artifact bs a0) in *.
    assert (ar_state la = rawArtifactUploading /\ ar_attempt la = Some att) as [Hla1 Hla2] by (by destruct a0).
    eapply session_released with (t := timestamp e 0) (im := set_import_state ImportUploading (store_time (bu_StartedAt bs)) im) (a := la) in Hx;
      [|split|done..]; cbn [session_for us_WorkspaceID us_ImportID us_ArtifactID us_AttemptID bs begin_spec bu_WorkspaceID bu_ImportID] in *.
    + by apply (Hx _ Ha).
    + apply lookup_insert_eq.
    + done.
    + apply lookup_insert_eq.
    + unfold fenced. rewrite String.eqb_refl, Hla1, Hla2. by rewrite !bool_decide_eq_true_2.
    + done.
    + apply Z.leb_le in Hci. cbn in Hci. split; [done|]. unfold check_artifact in Hck. fold la in Hck. simp_bool.
      destruct a0; done.
Qed.
End Healthy.
End UploadTheorems.
