(* ===== verification/IngestionExamples.v ===== *)
(** * A concrete import

    One application; an import is reserved, uploaded to a store in memory,
    completed and processed, and the theorems on the pipeline are applied to
    the states in between. *)

From S2P Require Import Prelude GoStrings Encoding Txn Json JsonFacts Queue Lifecycle QueueTheorems QueueExamples.
From S2P Require Import Records Idempotency Catalog Blobstore Streams Uploads Scans Ingestion Processing.
From S2P Require Import IngestionService Pipeline PipelineTheorems ProcessingTheorems IngestionTheorems UploadTheorems.
From Stdlib Require Import Ascii.

Local Open Scope Z_scope.

Module IngestionExamples.
Import Idempotency Uploads Scans Ingestion Processing IngestionService Pipeline PipelineTheorems.
Import ProcessingTheorems IngestionTheorems UploadTheorems.
#[local] Existing Instance QueueExamples.demo_pg.
#[local] Instance open_door : Catalog.Authorizer := {| Catalog.Authorize _ := true |}.

Definition t0 : time := 63000000000 * Second.
Definition config : Config := {|
  MaxUploadBytes := 4096; UploadReservationTTL := Hour; UploadTimeout := 60 * Second;
  IdempotencyRetention := 48 * Hour; StorageBackend := "memory"; ProcessMaxAttempts := 3 |}.

(** A call at time [t] whose random bytes are all [c]. *)
Definition call_at (t : time) (c : ascii) : IngestionService.call := {|
  now k := t + Z.of_nat k * Second; random _ n := Some (Nat.iter (Z.to_nat n) (String c) "");
  locks _ := true; clock _ := t |}.

Definition demo : ingestion :=
  MkIngestion (Catalog.MkCatalog {["ws_a"]} {[("ws_a", "app_a")]} ∅ ∅ ∅) (Uploads ∅ ∅)
    (JobQueue.Database ({["ws_a"]} ∪ ∅) ∅ ∅) ∅ ∅ ∅ ∅ (Evidence ∅ ∅ ∅ ∅).

Lemma demo_consistent : consistent demo.
Proof.
  split; simpl.
  - eapply QueueTheorems.steps_invariant; [apply QueueTheorems.empty_invariant|].
    apply rtc_once, (QueueTheorems.step_workspace QueueTheorems.empty_database "ws_a").
  - intros k im. simpl. by rewrite lookup_empty.
  - intros *. by rewrite lookup_empty.
  - intros *. by rewrite lookup_empty.
  - intros *. by rewrite lookup_empty.
  - intros *. by rewrite lookup_empty.
  - intros *. by rewrite lookup_empty.
  - intros *. by rewrite lookup_empty.
  - intros *. by rewrite lookup_empty.
  - intros *. by rewrite lookup_empty.
  - split; simpl; intros *; by rewrite lookup_empty.
Qed.

(** ** Reservation *)

Definition reserve_request (name : string) : ReserveRequest := {|
  rq_PrincipalID := "usr_a"; rq_WorkspaceID := "ws_a"; rq_ApplicationID := "app_a"; rq_IdempotencyKey := "reserve-1";
  rq_ReportFormat := {| rf_Name := "sarif"; rf_Version := "2.1.0" |}; rq_OriginalFilename := name;
  rq_ExpectedSize := Some 2; rq_ExpectedSHA256 := ""; rq_AnalysisContext := None |}.
Definition import_id : string := encode_id "imp_" "aaaaaaaaaaaaaaaaaaaa".
Definition reserved_db : ingestion :=
  snd (run_on (ServiceReserve config (call_at t0 "a") (reserve_request "report.sarif")) demo []).

Lemma reserved_answer : exists out,
  run_on (ServiceReserve config (call_at t0 "a") (reserve_request "report.sarif")) demo [] = (Ok out, reserved_db) /\
  rv_Created out && String.eqb (i_ID (rv_Import out)) import_id = true.
Proof. unfold reserved_db. apply (run_answer _ _ _ (fun out => rv_Created out && String.eqb (i_ID (rv_Import out)) import_id)). vm_compute. reflexivity. Qed.

(** ** Upload *)

Definition content : Streams.stream := Streams.Stream ["{"; ""; "}"] Blobstore.EOF true.
Definition upload_request : UploadRequest := {|
  ur_PrincipalID := "usr_a"; ur_WorkspaceID := "ws_a"; ur_ApplicationID := "app_a"; ur_ImportID := import_id;
  ur_DeclaredSize := None; ur_Content := Some content |}.
Definition live : nat -> Blobstore.ctx_state := fun _ => Blobstore.Live.
Definition no_faults : nat -> list fault := fun _ => [].
Definition nobody : nat -> uploads -> uploads := fun _ d => d.
Definition upload_in (d : uploads) : result error UploadReceipt * (uploads * Streams.memory) :=
  Upload live no_faults nobody config (call_at (t0 + Second) "b") upload_request
    (d, Streams.Memory ∅ (t0 + 2 * Second)).

(** The same upload as calls of the store. *)
Definition begin_call : beginUploadSpec :=
  begin_spec config (call_at (t0 + Second) "b") upload_request (encode_id "art_" "bbbbbbbbbbbbbbbbbbbb")
    (encode_id "upl_" "bbbbbbbbbbbbbbbbbbbb") (encode_id "blb_" "bbbbbbbbbbbbbbbbbbbbbbbbbbbbbbbb").
Definition commit_call : commitUploadSpec := {|
  cu_WorkspaceID := "ws_a"; cu_ImportID := import_id; cu_ArtifactID := encode_id "art_" "aaaaaaaaaaaaaaaaaaaa";
  cu_AttemptID := encode_id "upl_" "bbbbbbbbbbbbbbbbbbbb"; cu_SizeBytes := 2; cu_SHA256 := hex_encode (sha256 "{}");
  cu_StorageVersion := hex_encode (sha256 "{}"); cu_BackendVersion := ""; cu_CommittedAt := t0 + 2 * Second |}.
Definition upload_calls : history :=
  [(CallUpload (Uploads.OpBegin begin_call), []); (CallUpload (Uploads.OpCommit commit_call), [])].
Definition uploaded_db : ingestion := replay upload_calls reserved_db.

Example upload_is_calls : fst (snd (upload_in (upload_db reserved_db))) = upload_db uploaded_db.
Proof. vm_compute. reflexivity. Qed.

Lemma reserved_db_consistent : consistent reserved_db.
Proof.
  destruct reserved_answer as (out & Hx & _).
  destruct (fingerprintRequest (reserve_request "report.sarif")) as [fp|] eqn:Hf; [|by vm_compute in Hf].
  by destruct (reservation_found _ _ _ _ _ _ _ _ demo_consistent Hx Hf).
Qed.

Lemma upload_calls_issued : issued_history upload_calls.
Proof. by repeat constructor. Qed.

Lemma uploaded_consistent : consistent uploaded_db.
Proof. apply replay_steps; [apply upload_calls_issued|apply reserved_db_consistent]. Qed.

(** The two limits of every import that is there. *)
Lemma reserved_limits k im : imports (upload_db reserved_db) !! k = Some im ->
  0 < im_max_bytes im < max_int64 /\ im_expected_sha im = None.
Proof.
  assert (map_to_list (imports (upload_db reserved_db)) =
    [(("ws_a", import_id), new_import (rs_Import (reserve_spec config (call_at t0 "a") (reserve_request "report.sarif")
        "" import_id "" "" None)) None)]) as E by (vm_compute; reflexivity).
  intros Hk. apply elem_of_map_to_list in Hk. rewrite E in Hk. apply list_elem_of_singleton in Hk. injection Hk as _ ->.
  clear E. vm_compute. split; [split|]; reflexivity.
Qed.

Lemma upload_evidence_witness : exists receipt d' b',
  upload_in (upload_db reserved_db) = (Ok receipt, (d', b')) /\
  whole content (rc_SizeBytes receipt) (rc_SHA256 receipt) /\
  exists a, artifacts d' !! ("ws_a", import_id) = Some a /\ holds_body content a.
Proof.
  assert (exists receipt d' b', upload_in (upload_db reserved_db) = (Ok receipt, (d', b'))) as (rc & d' & b' & Hx).
  { destruct (upload_in (upload_db reserved_db)) as [[rc|] [d' b']] eqn:E; [eauto|].
    assert (match upload_in (upload_db reserved_db) with (Ok _, _) => true | _ => false end = true) as H by (vm_compute; reflexivity).
    rewrite E in H. discriminate H. }
  exists rc, d', b'. split; [exact Hx|].
  destruct (upload_evidence live no_faults nobody config (call_at (t0 + Second) "b") upload_request content
    (upload_db reserved_db) (Streams.Memory ∅ (t0 + 2 * Second)) rc d' b') as (Hw & _ & _ & Ha); [|reflexivity|exact Hx|].
  - intros k im Hk. destruct (reserved_limits k im Hk) as [Hm Hs]. split; [exact Hm|]. rewrite Hs. discriminate.
  - split; [exact Hw|exact Ha].
Defined.

(** A second upload while the first one holds its lease. *)
Definition leased : uploads := snd (run_on (BeginUpload begin_call) (upload_db reserved_db) []).
Definition second_upload : result error UploadReceipt * (uploads * Streams.memory) :=
  Upload live no_faults nobody config (call_at (t0 + 2 * Second) "c") upload_request
    (leased, Streams.Memory ∅ (t0 + 3 * Second)).

Lemma leased_limits k im : imports leased !! k = Some im -> 0 < im_max_bytes im < max_int64.
Proof.
  intros Hk. apply elem_of_map_to_list in Hk.
  assert (forallb (fun kr => (0 <? im_max_bytes (snd kr)) && (im_max_bytes (snd kr) <? max_int64))
            (map_to_list (imports leased)) = true) as H by (vm_compute; reflexivity).
  rewrite forallb_forall in H. apply list_elem_of_In, H in Hk. cbn [snd] in Hk. simp_bool. lia.
Qed.

Lemma upload_no_leak_witness : exists out d' b' a,
  second_upload = (out, (d', b')) /\ artifacts d' !! ("ws_a", import_id) = Some a /\
  ar_state a = rawArtifactUploading /\ d' = leased.
Proof.
  destruct second_upload as [out [d' b']] eqn:Hx.
  assert (exists a, artifacts d' !! ("ws_a", import_id) = Some a /\ ar_state a = rawArtifactUploading) as (a & Ha & Hs).
  { assert (option_map ar_state (artifacts (fst (snd second_upload)) !! ("ws_a", import_id)) = Some rawArtifactUploading) as H
      by (vm_compute; reflexivity).
    rewrite Hx in H. cbn [fst snd] in H. destruct (artifacts d' !! _) as [a|]; [|discriminate H].
    injection H as H. exists a. split; [reflexivity|exact H]. }
  exists out, d', b', a. split; [reflexivity|]. split; [exact Ha|]. split; [exact Hs|].
  refine (upload_no_leak live config (call_at (t0 + 2 * Second) "c") upload_request leased _ out d' b' a
    leased_limits _ _ Hx Ha Hs).
  - vm_compute. discriminate.
  - vm_compute. discriminate.
Defined.

(** ** Idempotent reservation *)

Lemma reservation_idempotent_witness : exists out i',
  run_on (ServiceReserve config (call_at t0 "a") (reserve_request "report.sarif")) demo [] = (Ok out, reserved_db) /\
  same_import true (rv_Import out) i' /\
  exec (ServiceReserve config (call_at (t0 + Hour) "z") (reserve_request "report.sarif")) uploaded_db =
    (Ok {| rv_Import := i'; rv_Created := false |}, uploaded_db).
Proof.
  destruct reserved_answer as (out & Hx & [Hc _]%andb_prop). exists out.
  destruct (fingerprintRequest (reserve_request "report.sarif")) as [fp|] eqn:Hf;
    [|assert (match fingerprintRequest (reserve_request "report.sarif") with Ok _ => true | _ => false end = true) as H
        by (vm_compute; reflexivity); rewrite Hf in H; discriminate H].
  destruct (reservation_idempotent config config (call_at t0 "a") (call_at (t0 + Hour) "z")
    (reserve_request "report.sarif") (reserve_request "report.sarif") demo [] out reserved_db upload_calls fp fp
    demo_consistent Hx upload_calls_issued eq_refl eq_refl eq_refl Hf Hf) as (i' & Hs & He).
  rewrite String.eqb_refl in He. rewrite Hc in Hs. exists i'. split; [exact Hx|]. split; [exact Hs|exact He].
Defined.

(** The answer of a replay is the import of now, and not the first answer. *)
Example replay_answers_now :
  map (fun d => match fst (exec (ServiceReserve config (call_at (t0 + Hour) "z") (reserve_request "report.sarif")) d) with
                | Ok out => Some (rv_Created out, i_State (rv_Import out))
                | Err _ => None
                end) [reserved_db; uploaded_db] =
  [Some (false, ImportAwaitingUpload); Some (false, ImportUploaded)].
Proof. vm_compute. reflexivity. Qed.

(** The same request of another principal under another key. *)
Definition other_request : ReserveRequest := {|
  rq_PrincipalID := "usr_b"; rq_WorkspaceID := "ws_a"; rq_ApplicationID := "app_a"; rq_IdempotencyKey := "reserve-2";
  rq_ReportFormat := {| rf_Name := "sarif"; rf_Version := "2.1.0" |}; rq_OriginalFilename := "a.sarif";
  rq_ExpectedSize := Some 2; rq_ExpectedSHA256 := ""; rq_AnalysisContext := None |}.

Lemma fingerprint_faithful_witness : exists fp,
  fingerprintRequest (reserve_request "a.sarif") = Ok fp /\ fingerprintRequest other_request = Ok fp /\
  (collide (print (json_request (reserve_request "a.sarif"))) (print (json_request other_request)) \/ rq_OriginalFilename (reserve_request "a.sarif") = rq_OriginalFilename other_request).
Proof.
  destruct (fingerprintRequest (reserve_request "a.sarif")) as [fp|] eqn:H1; [|vm_compute in H1; discriminate H1].
  assert (fingerprintRequest other_request = Ok fp) as H2 by (rewrite <- H1; reflexivity).
  exists fp. split; [reflexivity|]. split; [exact H2|].
  destruct (fingerprint_faithful (reserve_request "a.sarif") other_request fp) as [Hc|(_ & _ & Hn & _)];
    [reflexivity|reflexivity| |exact H1|exact H2|left; exact Hc|right; exact Hn].
  intros n [Hn|Hn]; injection Hn as <-; vm_compute; split; discriminate.
Defined.

(** ** Completion *)

Definition complete_request (id : string) : CompleteRequest := {|
  cq_PrincipalID := "usr_a"; cq_WorkspaceID := "ws_a"; cq_ApplicationID := "app_a"; cq_ImportID := id;
  cq_IdempotencyKey := "complete-1" |}.
Definition operation_id : string := encode_id "op_" "cccccccccccccccccccc".
Definition completed_db : ingestion :=
  snd (run_on (ServiceComplete config (QueueExamples.at_time (t0 + 3 * Second) "c") (call_at (t0 + 3 * Second) "c")
                 (complete_request import_id)) uploaded_db []).

Lemma completed_answer : exists out,
  run_on (ServiceComplete config (QueueExamples.at_time (t0 + 3 * Second) "c") (call_at (t0 + 3 * Second) "c")
            (complete_request import_id)) uploaded_db [] = (Ok out, completed_db) /\
  cp_Created out && String.eqb (o_ID (cp_Operation out)) operation_id = true.
Proof. unfold completed_db. apply (run_answer _ _ _ (fun out => cp_Created out && String.eqb (o_ID (cp_Operation out)) operation_id)). vm_compute. reflexivity. Qed.

Lemma completed_consistent : consistent completed_db.
Proof.
  destruct completed_answer as (out & Hx & _). apply ServiceComplete_ok in Hx as (id & fp & _ & _ & _ & _ & Hx).
  pose proof (after_call (CallComplete (locks (call_at (t0 + 3 * Second) "c")) (QueueExamples.at_time (t0 + 3 * Second) "c")
    (complete_spec config (call_at (t0 + 3 * Second) "c") (complete_request import_id) id fp)) uploaded_db completed_db
    eq_refl uploaded_consistent) as H.
  apply H. cbn [perform]. unfold exec in Hx. rewrite Hx. reflexivity.
Qed.

Lemma completion_publishes_witness : exists out,
  run_on (ServiceComplete config (QueueExamples.at_time (t0 + 3 * Second) "c") (call_at (t0 + 3 * Second) "c")
            (complete_request import_id)) uploaded_db [] = (Ok out, completed_db) /\
  processing_job config (complete_request import_id) (o_ID (cp_Operation out)) (queue_db completed_db).
Proof.
  destruct completed_answer as (out & Hx & [Hc _]%andb_prop). exists out. split; [exact Hx|].
  destruct (completion_publishes config (QueueExamples.at_time (t0 + 3 * Second) "c") (call_at (t0 + 3 * Second) "c")
    (complete_request import_id) uploaded_db [] out completed_db uploaded_consistent Hx Hc)
    as (_ & _ & im & a & _ & _ & _ & _ & _ & _ & _ & _ & _ & _ & _ & Hj).
  exact Hj.
Defined.

(** ** Processing *)

Definition identity : ProcessingIdentity := {|
  pi_WorkspaceID := "ws_a"; pi_OperationID := operation_id; pi_ImportID := import_id; pi_PrincipalID := "usr_a";
  pi_JobCapability := "imports:process" |}.
Definition begin_calls : history := [(CallBegin identity (t0 + 4 * Second), [])].
Definition running_db : ingestion := replay begin_calls completed_db.

Lemma completion_idempotent_witness : exists out,
  run_on (ServiceComplete config (QueueExamples.at_time (t0 + 3 * Second) "c") (call_at (t0 + 3 * Second) "c")
            (complete_request import_id)) uploaded_db [] = (Ok out, completed_db) /\
  exec (ServiceComplete config (QueueExamples.at_time (t0 + Hour) "d") (call_at (t0 + Hour) "d")
          (complete_request import_id)) running_db = (Ok (again out), running_db).
Proof.
  destruct completed_answer as (out & Hx & _). exists out. split; [exact Hx|].
  destruct (fingerprintCompletion (complete_request import_id)) as [fp|] eqn:Hf;
    [|assert (match fingerprintCompletion (complete_request import_id) with Ok _ => true | _ => false end = true) as H
        by (vm_compute; reflexivity); rewrite Hf in H; discriminate H].
  pose proof (completion_idempotent config config (QueueExamples.at_time (t0 + 3 * Second) "c")
    (QueueExamples.at_time (t0 + Hour) "d") (call_at (t0 + 3 * Second) "c") (call_at (t0 + Hour) "d")
    (complete_request import_id) (complete_request import_id) uploaded_db [] out completed_db begin_calls
    "dddddddddddddddddddd" fp fp eq_refl uploaded_consistent Hx ltac:(by repeat constructor)
    (conj eq_refl (conj eq_refl (conj eq_refl eq_refl))) ltac:(vm_compute; reflexivity) eq_refl eq_refl (fun _ => eq_refl) Hf Hf) as H.
  rewrite String.eqb_refl in H. exact H.
Defined.

Lemma running_consistent : consistent running_db.
Proof. apply replay_steps; [by repeat constructor|apply completed_consistent]. Qed.

Lemma demo_jsonb : jsonb_keeps_flat.
Proof.
  intros l j Hl _ Hj. assert (j = print (JObj l)) as -> by (by injection Hj). clear Hj. exists l.
  split; [|done]. apply (decode_print (JObj l)).
  - cbn [encodable]. apply forallb_forall. intros kv Hkv. rewrite <- list_elem_of_In in Hkv.
    rewrite Forall_forall in Hl. destruct (Hl kv Hkv) as [-> [(x & -> & Hx)|(n & ->)]]; [exact Hx|]. apply itoa_literal.
  - cbn [nesting]. assert (foldr Z.max 0 (map (fun kv => nesting (snd kv)) l) <= 0) as Hflat; [|unfold max_nesting; lia].
    induction Hl as [|kv l [_ [(x & E & _)|(n & E)]] _ IH]; [done|..]; simpl; rewrite E; simpl; lia.
Qed.

Definition succeeded_db : ingestion := snd (exec (CompleteProcessing identity 1 (t0 + 9 * Second)) running_db).

Lemma result_final_witness :
  exec (CompleteProcessing identity 1 (t0 + 9 * Second)) running_db = (Ok tt, succeeded_db) /\
  exec (CompleteProcessing identity 1 (t0 + Hour)) succeeded_db = (Ok tt, succeeded_db) /\
  exec (CompleteProcessing identity 2 (t0 + Hour)) succeeded_db = (Err ErrProcessingConflict, succeeded_db).
Proof.
  assert (exists u, exec (CompleteProcessing identity 1 (t0 + 9 * Second)) running_db = (Ok u, succeeded_db) /\
    (fun _ => true) u = true) as ([] & Hx & _)
    by (unfold succeeded_db, exec; apply (run_answer _ _ _ (fun _ => true)); vm_compute; reflexivity).
  split; [exact Hx|].
  pose proof (result_final identity 1 (t0 + 9 * Second) running_db succeeded_db [] demo_jsonb ltac:(vm_compute; split; discriminate)
    running_consistent Hx ltac:(constructor)) as H. cbn [replay foldl] in H. destruct H as (H1 & H2 & _).
  split; [apply H1; vm_compute; discriminate|apply H2; vm_compute; discriminate].
Defined.

(** ** Scans *)

Definition scan (id : string) (t : time) : ScanSpec := {|
  sn_ID := id; sn_WorkspaceID := "ws_a"; sn_ImportID := import_id; sn_ApplicationID := "app_a";
  sn_RawArtifactID := encode_id "art_" "aaaaaaaaaaaaaaaaaaaa"; sn_AnalysisContextImportID := ""; sn_SourceRunIndex := 0;
  sn_Result := "succeeded"; sn_Completeness := "unknown"; sn_ScannerName := "gosec"; sn_ScannerFullName := "";
  sn_ScannerVersion := ""; sn_ScannerSemanticVersion := ""; sn_AutomationID := ""; sn_AutomationGUID := "";
  sn_AutomationCorrelationGUID := ""; sn_ParserName := "sarif"; sn_ParserVersion := "1"; sn_SourcePointer := "/runs/0";
  sn_SourceStartedAt := None; sn_SourceEndedAt := None; sn_RecordedAt := t;
  sn_Scope := {| sp_SchemaVersion := 1; sp_ScannerFamily := "unknown"; sp_ScannerInstanceID := "";
                 sp_ScannerConfigurationID := ""; sp_ScannerConfigurationHash := ""; sp_AnalysisKind := "unknown";
                 sp_CoverageMetadata := "" |} |}.
Definition scanned_db : ingestion := snd (exec (RecordScan (scan "scn_a" (t0 + 5 * Second))) running_db).

Lemma scan_replay_witness : exists out again,
  exec (RecordScan (scan "scn_a" (t0 + 5 * Second))) running_db = (Ok out, scanned_db) /\
  exec (RecordScan (scan "scn_b" (t0 + Hour))) scanned_db = (Ok again, scanned_db) /\
  st_ID again = st_ID out /\ st_Created again = false.
Proof.
  assert (exists out, exec (RecordScan (scan "scn_a" (t0 + 5 * Second))) running_db = (Ok out, scanned_db) /\
    st_Created out = true) as (out & Hx & _)
    by (unfold scanned_db, exec; apply (run_answer _ _ _ st_Created); vm_compute; reflexivity).
  pose proof (scan_replay (scan "scn_a" (t0 + 5 * Second)) running_db out scanned_db [] running_consistent Hx
    ltac:(constructor)) as H. cbn [replay foldl] in H. destruct H as [H _].
  destruct (H "scn_b" (t0 + Hour)) as (again & He & Hi & Hc); [reflexivity|vm_compute; discriminate|vm_compute; discriminate|].
  exists out, again. split; [exact Hx|]. split; [exact He|]. split; [exact Hi|exact Hc].
Defined.

(** ** The pipeline *)

Definition whole_history : history :=
  [(CallScan (scan "scn_a" (t0 + 5 * Second)), []);
   (CallScan (scan "scn_b" (t0 + 6 * Second)), [Healthy; Healthy; Lost]);
   (CallSucceed identity 1 (t0 + 9 * Second), []);
   (CallFail identity {| pf_Code := "late"; pf_Title := "Late"; pf_Detail := "" |} (t0 + 10 * Second), [])].

Lemma whole_history_issued : issued_history whole_history.
Proof. by repeat constructor. Qed.

Lemma pipeline_consistent_witness : consistent running_db /\ consistent (replay whole_history running_db).
Proof.
  split; [exact running_consistent|].
  exact (pipeline_consistent whole_history running_db whole_history_issued running_consistent).
Defined.

Lemma pipeline_keeps_witness : later running_db (replay whole_history running_db) /\
  option_map op_state (operations (replay whole_history running_db) !! ("ws_a", operation_id)) = Some OperationSucceeded.
Proof.
  split; [|vm_compute; reflexivity].
  exact (pipeline_keeps whole_history running_db whole_history_issued running_consistent).
Defined.
End IngestionExamples.
