(* ===== verification/ImportJobExamples.v ===== *)
(** * A concrete import job

    The report of SarifExamples.v is reserved, uploaded and completed; the job
    that the completion put into the queue is handled, once with a broken
    connection in the middle and once without, and delivered again. *)

From S2P Require Import Prelude GoStrings Encoding Txn Json Queue QueueTheorems QueueExamples Worker Records Catalog Blobstore Streams.
From S2P Require Import Sarif SarifExamples Finding Normalizer Correlation Uploads Scans Ingestion Processing IngestionService.
From S2P Require Import ImportJob Pipeline PipelineTheorems ProcessingTheorems ImportJobFacts ImportJobTheorems IngestionExamples.

From Stdlib Require Import Ascii.

Local Open Scope Z_scope.

Module ImportJobExamples.
Import Uploads Scans Ingestion Processing Pipeline PipelineTheorems ProcessingTheorems ImportJob ImportJobFacts ImportJobTheorems.
Import IngestionService(reserve_spec, complete_spec).
Import Worker(OutcomeSucceeded, OutcomeRetryable, OutcomePermanent).
#[local] Existing Instance QueueExamples.demo_pg.

(** ** A blob store that holds texts *)

Definition shelf : Type := gmap string string.

Definition describe (k text : string) : Blobstore.Metadata := {|
  Blobstore.m_Key := k; Blobstore.m_Size := slen text; Blobstore.m_SHA256 := hex_encode (sha256 text);
  Blobstore.m_Version := hex_encode (sha256 text); Blobstore.m_BackendVersion := ""; Blobstore.m_CommittedAt := 0 |}.

#[local] Instance shelf_reader : BlobReader shelf := {|
  Open k b := match b !! k with
              | Some text => (Ok ({| content := Streams.Stream [text] Blobstore.EOF false; close_fails := false |}, describe k text), b)
              | None => (Err Blobstore.ErrNotFound, b)
              end |}.

#[local] Instance shelf_contract : ReaderContract shelf.
Proof.
  split. intros k b r m b'. cbn [Open shelf_reader]. destruct (b !! k) as [text|]; [|done]. intros [= <- <- <-] _.
  cbn [content describe Blobstore.m_Size Blobstore.m_SHA256 Streams.body Streams.chunks foldr]. by rewrite append_nil_r.
Qed.

(** ** The import *)

Definition t0 : time := IngestionExamples.t0.
Definition config : IngestionService.Config := IngestionExamples.config.
Definition import_id : string := encode_id "imp_" "aaaaaaaaaaaaaaaaaaaa".
Definition artifact_id : string := encode_id "art_" "aaaaaaaaaaaaaaaaaaaa".
Definition blob_key : string := encode_id "blb_" "aaaaaaaaaaaaaaaaaaaaaaaaaaaaaaaa".
Definition operation_id : string := encode_id "op_" "cccccccccccccccccccc".
Definition dq : string := String (chr 34) "".
Definition quoted (s : string) : string := dq +:+ s +:+ dq.
Definition member (name value : string) : string := quoted name +:+ ":" +:+ value.
Definition object (body : string) : string := "{" +:+ body +:+ "}".
Definition report_text : string := Eval vm_compute in
  object (member "version" (quoted "2.1.0") +:+ "," +:+ member "runs" ("[" +:+
    object (member "tool" (object (member "driver" (object (member "name" (quoted "s"))))) +:+ "," +:+
            member "results" ("[" +:+ object (member "ruleId" (quoted "R1") +:+ "," +:+
              member "message" (object (member "text" (quoted "found")))) +:+ "]")) +:+ "]")).
Definition report_sha256 : string := Eval vm_compute in hex_encode (sha256 report_text).

Definition reserve_call : reserveSpec :=
  reserve_spec config (IngestionExamples.call_at t0 "a"%char) {|
    rq_PrincipalID := "usr_a"; rq_WorkspaceID := "ws_a"; rq_ApplicationID := "app_a"; rq_IdempotencyKey := "reserve-1";
    rq_ReportFormat := {| rf_Name := "sarif"; rf_Version := "2.1.0" |}; rq_OriginalFilename := "report.sarif";
    rq_ExpectedSize := None; rq_ExpectedSHA256 := ""; rq_AnalysisContext := None |}
    (Nat.iter 32 (String "q"%char) "") import_id artifact_id blob_key None.
Definition begin_call : beginUploadSpec := {|
  bu_PrincipalID := "usr_a"; bu_WorkspaceID := "ws_a"; bu_ApplicationID := "app_a"; bu_ImportID := import_id;
  bu_ArtifactID := artifact_id; bu_StorageBackend := "memory"; bu_StorageKey := blob_key;
  bu_AttemptID := encode_id "upl_" "bbbbbbbbbbbbbbbbbbbb"; bu_StartedAt := t0 + Second; bu_LeaseExpiresAt := t0 + 60 * Second |}.
Definition commit_call : commitUploadSpec := {|
  cu_WorkspaceID := "ws_a"; cu_ImportID := import_id; cu_ArtifactID := artifact_id;
  cu_AttemptID := encode_id "upl_" "bbbbbbbbbbbbbbbbbbbb"; cu_SizeBytes := slen report_text;
  cu_SHA256 := report_sha256; cu_StorageVersion := report_sha256;
  cu_BackendVersion := ""; cu_CommittedAt := t0 + 2 * Second |}.
Definition complete_call : completeSpec :=
  complete_spec config (IngestionExamples.call_at (t0 + 3 * Second) "c"%char) {|
    cq_PrincipalID := "usr_a"; cq_WorkspaceID := "ws_a"; cq_ApplicationID := "app_a"; cq_ImportID := import_id;
    cq_IdempotencyKey := "complete-1" |} operation_id (Nat.iter 32 (String "k"%char) "").

Definition queue_at (t : time) : JobQueue.env := QueueExamples.at_time t "c"%char.
Definition import_calls : history :=
  [(CallReserve (fun _ => true) reserve_call, []); (CallUpload (Uploads.OpBegin begin_call), []);
   (CallUpload (Uploads.OpCommit commit_call), []);
   (CallComplete (fun _ => true) (queue_at (t0 + 3 * Second)) complete_call, [])].
Definition queued_db : ingestion := replay import_calls IngestionExamples.demo.

Definition empty_findings : Finding.findings := Finding.Findings ∅ ∅ ∅ ∅ ∅ ∅.
Definition database0 : database := Database queued_db empty_findings.

Lemma database0_sound : sound database0.
Proof.
  split.
  - apply replay_steps; [by repeat constructor|apply IngestionExamples.demo_consistent].
  - intros k r. simpl. by rewrite lookup_empty.
Qed.

(** The job that the completion published. *)
Definition job : JobQueue.Job :=
  match map_to_list (JobQueue.jobs (queue_db queued_db)) with
  | (_, r) :: _ => JobQueue.scanJob r
  | [] => {| JobQueue.ID := ""; JobQueue.WorkspaceID := ""; JobQueue.OperationID := "";
             JobQueue.InitiatingPrincipalID := ""; JobQueue.SystemCapability := ""; JobQueue.Queue := "";
             JobQueue.Kind := ""; JobQueue.SchemaVersion := 0; JobQueue.Payload := "";
             JobQueue.IdempotencyKey := ""; JobQueue.JobState := JobQueue.Queued; JobQueue.Priority := 0;
             JobQueue.AvailableAt := 0; JobQueue.AttemptCount := 0; JobQueue.MaxAttempts := 0;
             JobQueue.LeaseOwner := ""; JobQueue.LeaseExpiresAt := None; JobQueue.HeartbeatAt := None;
             JobQueue.CancellationRequestedAt := None; JobQueue.LastErrorClass := "";
             JobQueue.LastErrorCode := ""; JobQueue.CreatedAt := 0; JobQueue.StartedAt := None;
             JobQueue.CompletedAt := None; JobQueue.requestFingerprint := "" |}
  end.

(** ** The worker *)

Definition nobody (_ : nat) : list event := [].
Definition settings : ImportJob.Config := {|
  ImportJob.StorageBackend := "memory"; ImportJob.ProcessingTimeout := 60 * Second;
  ImportJob.RetryMaximumAge := 3600 * Second |}.
Definition clock (k : nat) : time := t0 + 4 * Second + Z.of_nat k * Microsecond.
Definition dice (k : nat) : option string :=
  Some (Nat.iter 19 (String "r"%char) (String (ascii_of_nat (65 + k)) "")).

Definition pages (s : Streams.stream) : list Z := repeat 4096 8.
Definition allow_all (_ : Catalog.AuthorizationRequest) : decision := Allowed.
Definition reliable (_ : nat) : list fault := [].

Definition handle (plan : nat -> list fault) (random : nat -> option string) (authorize : Catalog.AuthorizationRequest -> decision)
  : JobQueue.Job -> @world shelf -> Worker.Outcome * world :=
  Handle settings Sarif.DefaultLimits authorize plan (fun k => happened (nobody k)) clock random IngestionExamples.live false pages.

Definition shelf0 : shelf := {[blob_key := report_text]}.
Definition start : @world shelf := World database0 shelf0 0 0 0.
Definition recorded : Worker.Outcome * world := handle reliable dice allow_all job start.
Definition deny_all (_ : Catalog.AuthorizationRequest) : decision := Forbidden.

(** A connection that is lost when the observation is stored. *)
Definition flaky (k : nat) : list fault := if Nat.eqb k 4 then [Healthy; Broken] else [].
Definition interrupted : Worker.Outcome * world := handle flaky dice allow_all job start.
Definition resumed : Worker.Outcome * world := handle reliable dice allow_all job (snd interrupted).
Definition refused : Worker.Outcome * world := handle reliable dice deny_all job start.

Lemma nobody_issued : forall k, Forall (fun e => issued_event e = true) (nobody k).
Proof. constructor. Qed.
Lemma clock_ticks : forall k, Microsecond <= clock k.
Proof. intros k. unfold clock, t0, IngestionExamples.t0, Second, Microsecond. lia. Qed.

(** The interrupted attempt stores nothing for the result; the next one
    succeeds and stores it once. *)
Definition observations_in (w : @world shelf) : nat :=
  length (map_to_list (Finding.observations (findings_db (db w)))).

Example interruption_resumed :
  (Worker.o_Kind (fst interrupted), observations_in (snd interrupted)) = (OutcomeRetryable, 0%nat) /\
  (Worker.o_Kind (fst resumed), observations_in (snd resumed)) = (OutcomeSucceeded, 1%nat).
Proof. vm_compute. done. Qed.

Lemma import_recorded_witness : exists i op im, decodeJob job = Some i /\
  find_processing i (ingestion_db (db (snd recorded))) = Some (op, im) /\
  op_state op = OperationSucceeded /\ im_state im = ImportSucceeded /\
  import_done Sarif.DefaultLimits IngestionExamples.live i (db (snd recorded)).
Proof.
  destruct (import_recorded settings Sarif.DefaultLimits allow_all reliable nobody clock dice IngestionExamples.live false
    pages nobody_issued clock_ticks job start (fst recorded) (snd recorded)) as (i & op & im & ? & ? & ? & ? & Hd).
  - apply database0_sound.
  - apply surjective_pairing.
  - vm_compute. reflexivity.
  - exists i, op, im. do 4 (split; [assumption|]).
    assert (db (snd recorded) <> database0) as Hn.
    { intros Hx. apply (f_equal (fun d => length (map_to_list (Finding.observations (findings_db d))))) in Hx.
      revert Hx. vm_compute. discriminate. }
    destruct Hd as [Hd|[Hd|Hd]]; [elim (Hn Hd)..|exact Hd].
Defined.

Definition i0 : ProcessingIdentity := {|
  pi_WorkspaceID := "ws_a"; pi_OperationID := operation_id; pi_ImportID := import_id; pi_PrincipalID := "usr_a";
  pi_JobCapability := "imports:process" |}.

Lemma job_identity : decodeJob job = Some i0.
Proof. vm_compute. reflexivity. Qed.

(** A principal that lost its grant: the operation is failed, for good. *)
Lemma import_abandoned_witness : Worker.o_Kind (fst refused) = OutcomePermanent /\
  exists i, decodeJob job = Some i /\ ended_for_good i (db (snd refused)).
Proof.
  assert (Worker.o_Kind (fst refused) = OutcomePermanent) as Hk by (vm_compute; reflexivity).
  split; [exact Hk|].
  pose proof (import_abandoned settings Sarif.DefaultLimits deny_all reliable nobody clock dice IngestionExamples.live false
    pages nobody_issued clock_ticks job start (fst refused) (snd refused) database0_sound (surjective_pairing _) Hk) as Ha.
  rewrite job_identity in Ha. exists i0. split; [exact job_identity|].
  destruct Ha as [Ha|[Ha|Ha]]; [| |exact Ha]; exfalso; revert Ha; vm_compute; discriminate.
Defined.

Lemma import_safe_witness : advances database0 (db (snd interrupted)) /\
  JobQueue.validCode (Worker.o_Code (fst interrupted)) = true.
Proof.
  split; [|vm_compute; reflexivity].
  exact (proj1 (import_safe settings Sarif.DefaultLimits allow_all flaky nobody clock dice IngestionExamples.live false
    pages nobody_issued clock_ticks job start (fst interrupted) (snd interrupted) database0_sound (surjective_pairing _))).
Defined.

Lemma refused_sound : sound (db (snd refused)).
Proof.
  unfold refused, handle. exact (ad_sound _ _ (handle_advances settings Sarif.DefaultLimits deny_all reliable nobody clock dice
    IngestionExamples.live false pages nobody_issued clock_ticks job start database0_sound)).
Qed.

Definition closing (p : option (operation_row * import_row)) : option (option Worker.Outcome) :=
  option_map (fun '(op, _) => terminalOutcome (op_state op) (null_string (op_failure_code op))) p.

Lemma closing_found p o : closing p = Some (Some o) -> exists op im, p = Some (op, im) /\
  terminalOutcome (op_state op) (null_string (op_failure_code op)) = Some o.
Proof. destruct p as [[op im]|]; [|done]. intros [= H]. by exists op, im. Qed.

(** The job that failed is delivered once more, to a worker that is
    authorized: it fails again, and nothing is touched. *)
Lemma import_redelivered_witness : exists w', 
  handle reliable dice allow_all job (snd refused) = (outcome OutcomePermanent "authorization-denied", w') /\
  db w' = db (snd refused).
Proof.
  destruct (closing_found (find_processing i0 (ingestion_db (db (snd refused))))
    (outcome OutcomePermanent "authorization-denied")) as (op & im & Hf & Ht); [vm_compute; reflexivity|].
  destruct (import_redelivered settings Sarif.DefaultLimits allow_all reliable nobody clock dice IngestionExamples.live
    false pages nobody_issued clock_ticks job i0 (snd refused) op im (outcome OutcomePermanent "authorization-denied"))
    as (w' & Hh & Hd).
  - exact job_identity.
  - vm_compute. reflexivity.
  - exact Hf.
  - exact refused_sound.
  - exact Ht.
  - reflexivity.
  - intros r. reflexivity.
  - exists w'. split; [exact Hh|]. rewrite Hd. unfold nobody. reflexivity.
Defined.
End ImportJobExamples.
