(* ===== verification/Authorization.v ===== *)
(** * Capability authorization (src/internal/authorization)

    [Module Authorization] models the identity tables as lists of rows and
    [IsAllowed] as the nested EXISTS query of postgres.go; [Authorize] is the
    service around any [decisionStore].  The theorems state who is allowed,
    that a token only ever narrows a principal's rights, that no rows but
    those of the request's principal, workspace and token influence a decision,
    and that every failure denies. *)

From S2P Require Import Prelude GoStrings.

Local Open Scope Z_scope.

Module Authorization.

Inductive error := ErrDenied | ErrInvalid | ErrStore (action : string).

Record Request := {
  PrincipalID : string; WorkspaceID : string; Capability : string; ApplicationID : string; TokenID : string
}.

Record decisionSpec := { request : Request; EvaluatedAt : time }.

Definition capabilityPattern : string -> bool := match_head is_lower capability_char 127.

Definition validateRequest (r : Request) : bool :=
  validOpaqueID (PrincipalID r) && validOpaqueID (WorkspaceID r) && capabilityPattern (Capability r) &&
  (String.eqb (ApplicationID r) "" || validOpaqueID (ApplicationID r)) &&
  (String.eqb (TokenID r) "" || validOpaqueID (TokenID r)).

(** ** The identity tables *)

Record principal := { p_id : string; p_kind : string; p_state : string }.
Record membership := {
  mb_workspace : string; mb_principal : string; mb_state : string; mb_from : time; mb_until : option time
}.
Record service_account := { sa_workspace : string; sa_principal : string; sa_expires : option time }.
Record binding := {
  b_workspace : string; b_principal : string; b_role : string; b_scope : string;
  b_application : option string; b_from : time; b_until : option time
}.
Record api_token := {
  t_workspace : string; t_id : string; t_principal : string; t_prefix : string; t_verifier : string;
  t_key : string; t_scope_mode : string; t_created : time; t_expires : time;
  t_last_used : option time; t_revoked : option time
}.

(** Rows of the junction tables are (workspace, owner, value). *)
Record identity := {
  principals : list principal;
  memberships : list membership;
  applications : list (string * string);
  service_accounts : list service_account;
  bindings : list binding;
  role_capabilities : list (string * string * string);
  tokens : list api_token;
  token_capabilities : list (string * string * string);
  token_scopes : list (string * string * string)
}.

(** ** The query *)

(** [column IS NULL OR column > now] *)
Definition open_until (until : option time) (now : time) : bool :=
  match until with Some t => now <? t | None => true end.

Definition has (l : list (string * string * string)) (w owner value : string) : bool :=
  existsb (fun x => String.eqb (fst (fst x)) w && String.eqb (snd (fst x)) owner && String.eqb (snd x) value) l.

Definition application_known (db : identity) (w app : string) : bool :=
  String.eqb app "" || existsb (fun a => String.eqb (fst a) w && String.eqb (snd a) app) (applications db).

Definition account_live (db : identity) (w : string) (p : principal) (now : time) : bool :=
  negb (String.eqb (p_kind p) "service_account") ||
  existsb (fun a => String.eqb (sa_workspace a) w && String.eqb (sa_principal a) (p_id p) &&
                    open_until (sa_expires a) now) (service_accounts db).

Definition scope_covers (b : binding) (app : string) : bool :=
  (String.eqb app "" && String.eqb (b_scope b) "workspace") ||
  (negb (String.eqb app "") &&
   (String.eqb (b_scope b) "workspace" ||
    (String.eqb (b_scope b) "application" && bool_decide (b_application b = Some app)))).

Definition role_grants (db : identity) (w p cap app : string) (now : time) : bool :=
  existsb (fun b => String.eqb (b_workspace b) w && String.eqb (b_principal b) p &&
                    has (role_capabilities db) (b_workspace b) (b_role b) cap &&
                    (b_from b <=? now) && open_until (b_until b) now && scope_covers b app) (bindings db).

Definition token_covers (db : identity) (t : api_token) (app : string) : bool :=
  String.eqb (t_scope_mode t) "workspace" ||
  (String.eqb (t_scope_mode t) "explicit" && negb (String.eqb app "") &&
   has (token_scopes db) (t_workspace t) (t_id t) app).

Definition token_grants (db : identity) (w p cap app token : string) (now : time) : bool :=
  existsb (fun t => String.eqb (t_workspace t) w && String.eqb (t_principal t) p && String.eqb (t_id t) token &&
                    has (token_capabilities db) (t_workspace t) (t_id t) cap &&
                    (t_created t <=? now) && (now <? t_expires t) && is_null (t_revoked t) &&
                    token_covers db t app) (tokens db).

(** The conditions of WHERE on one joined pair of rows. *)
Definition row_allowed (db : identity) (r : Request) (now : time) (p : principal) (m : membership) : bool :=
  String.eqb (mb_principal m) (p_id p) && String.eqb (mb_workspace m) (WorkspaceID r) &&
  String.eqb (p_id p) (PrincipalID r) && String.eqb (p_state p) "active" &&
  String.eqb (mb_state m) "active" && (mb_from m <=? now) && open_until (mb_until m) now &&
  application_known db (mb_workspace m) (ApplicationID r) &&
  account_live db (mb_workspace m) p now &&
  role_grants db (mb_workspace m) (p_id p) (Capability r) (ApplicationID r) now &&
  (String.eqb (TokenID r) "" ||
   token_grants db (mb_workspace m) (p_id p) (Capability r) (ApplicationID r) (TokenID r) now).

Definition query_allowed (db : identity) (spec : decisionSpec) : bool :=
  existsb (fun p => existsb (row_allowed db (request spec) (EvaluatedAt spec) p) (memberships db))
          (principals db).

(** [IsAllowed] of the PostgreSQL store; [failure] is an error of the
    connection. *)
Definition IsAllowed (db : identity) (failure : bool) (spec : decisionSpec) : result error bool :=
  guard! validateRequest (request spec) && negb (IsZero (EvaluatedAt spec)) else ErrInvalid in
  guard! negb failure else ErrStore "query authorization decision" in
  Ok (query_allowed db spec).

(** ** The service *)

Class decisionStore := { store_IsAllowed : decisionSpec -> result error bool }.

Definition Truncate (t : time) (d : duration) : time := t - t mod d.

Definition Authorize {store : decisionStore} (now : time) (r : Request) : result error unit :=
  guard! validateRequest r else ErrInvalid in
  try! allowed := match store_IsAllowed {| request := r; EvaluatedAt := Truncate now Microsecond |} with
                  | Ok b => Ok b
                  | Err _ => Err (ErrStore "evaluate authorization")
                  end in
  guard! allowed : bool else ErrDenied in Ok tt.

Definition postgres_store (db : identity) (failure : bool) : decisionStore :=
  {| store_IsAllowed := IsAllowed db failure |}.

(** ** Who is allowed *)

(** A live, unrevoked token of the principal in the workspace that carries the
    capability and covers the application. *)
Definition token_allows (db : identity) (r : Request) (now : time) : Prop :=
  exists t, t ∈ tokens db /\ t_workspace t = WorkspaceID r /\ t_principal t = PrincipalID r /\
    t_id t = TokenID r /\ has (token_capabilities db) (WorkspaceID r) (TokenID r) (Capability r) = true /\
    t_created t <= now < t_expires t /\ t_revoked t = None /\
    (t_scope_mode t = "workspace" \/
     t_scope_mode t = "explicit" /\ ApplicationID r <> "" /\
     has (token_scopes db) (WorkspaceID r) (TokenID r) (ApplicationID r) = true).

(** A current binding of a role with the capability, for the workspace or for
    the named application. *)
Definition role_allows (db : identity) (r : Request) (now : time) : Prop :=
  exists b, b ∈ bindings db /\ b_workspace b = WorkspaceID r /\ b_principal b = PrincipalID r /\
    has (role_capabilities db) (WorkspaceID r) (b_role b) (Capability r) = true /\
    b_from b <= now /\ open_until (b_until b) now = true /\
    (b_scope b = "workspace" \/
     b_scope b = "application" /\ ApplicationID r <> "" /\ b_application b = Some (ApplicationID r)).

Lemma existsb_exists_elem {A} (f : A -> bool) l : existsb f l = true <-> exists x, x ∈ l /\ f x = true.
Proof. rewrite existsb_exists. by setoid_rewrite list_elem_of_In. Qed.

Lemma scope_covers_spec b app : scope_covers b app = true <->
  b_scope b = "workspace" \/ b_scope b = "application" /\ app <> "" /\ b_application b = Some app.
Proof.
  unfold scope_covers. rewrite !orb_true_iff, !andb_true_iff, !orb_true_iff, !andb_true_iff, !String.eqb_eq.
  rewrite negb_true_iff, String.eqb_neq, bool_decide_eq_true.
  destruct (decide (app = "")); naive_solver.
Qed.

Lemma role_grants_spec db r now :
  role_grants db (WorkspaceID r) (PrincipalID r) (Capability r) (ApplicationID r) now = true <->
  role_allows db r now.
Proof.
  unfold role_grants, role_allows. rewrite existsb_exists_elem. apply exist_proper. intros b.
  rewrite !andb_true_iff, !String.eqb_eq, Z.leb_le, scope_covers_spec. intuition congruence.
Qed.

Lemma token_covers_spec db t app : token_covers db t app = true <->
  t_scope_mode t = "workspace" \/
  t_scope_mode t = "explicit" /\ app <> "" /\ has (token_scopes db) (t_workspace t) (t_id t) app = true.
Proof.
  unfold token_covers. rewrite orb_true_iff, !andb_true_iff, !String.eqb_eq, negb_true_iff, String.eqb_neq. tauto.
Qed.

Lemma token_grants_spec db r now :
  token_grants db (WorkspaceID r) (PrincipalID r) (Capability r) (ApplicationID r) (TokenID r) now = true <->
  token_allows db r now.
Proof.
  unfold token_grants, token_allows. rewrite existsb_exists_elem. apply exist_proper. intros t.
  rewrite !andb_true_iff, !String.eqb_eq, Z.leb_le, Z.ltb_lt, token_covers_spec.
  destruct (t_revoked t); simpl; intuition (try congruence);
    left + right; intuition congruence.
Qed.

Definition member_allowed (db : identity) (r : Request) (now : time) (p : principal) (m : membership) : Prop :=
  p_id p = PrincipalID r /\ p_state p = "active" /\
  mb_principal m = PrincipalID r /\ mb_workspace m = WorkspaceID r /\ mb_state m = "active" /\
  mb_from m <= now /\ open_until (mb_until m) now = true /\
  application_known db (WorkspaceID r) (ApplicationID r) = true /\
  account_live db (WorkspaceID r) p now = true /\ role_allows db r now /\
  (TokenID r <> "" -> token_allows db r now).

Lemma row_allowed_spec db r now p m : row_allowed db r now p m = true <-> member_allowed db r now p m.
Proof.
  unfold row_allowed, member_allowed. rewrite <- role_grants_spec, <- token_grants_spec.
  rewrite !andb_true_iff, orb_true_iff, !String.eqb_eq, Z.leb_le. split.
  - intros ((((((((((H1 & H2) & H3) & H4) & H5) & H6) & H7) & H8) & H9) & H10) & H11).
    rewrite H2, H3 in *. split_and!; try done. naive_solver.
  - intros (H3 & H4 & H1 & H2 & H5 & H6 & H7 & H8 & H9 & H10 & H11).
    rewrite H2, H3. split_and!; try done. destruct (decide (TokenID r = "")); auto.
Qed.

Lemma query_allowed_spec db spec : query_allowed db spec = true <->
  exists p m, p ∈ principals db /\ m ∈ memberships db /\
              member_allowed db (request spec) (EvaluatedAt spec) p m.
Proof.
  unfold query_allowed. rewrite existsb_exists_elem. setoid_rewrite existsb_exists_elem.
  setoid_rewrite row_allowed_spec. naive_solver.
Qed.

Lemma Authorize_ok db failure now r :
  Authorize (store := postgres_store db failure) now r = Ok tt <->
  validateRequest r = true /\ failure = false /\ Truncate now Microsecond <> 0 /\
  query_allowed db {| request := r; EvaluatedAt := Truncate now Microsecond |} = true.
Proof.
  unfold Authorize, IsZero. simpl. unfold IsAllowed. simpl.
  destruct (validateRequest r); simpl; [|naive_solver].
  unfold IsZero. destruct (Z.eqb_spec (Truncate now Microsecond) 0); simpl; [naive_solver|].
  destruct failure; simpl; [naive_solver|].
  destruct (query_allowed _ _); simpl; naive_solver.
Qed.

(** Authorization is exactly the intersection of its scopes: a request is
    allowed if and only if it is well formed, the store answers, the principal
    and its membership of the workspace are active at the time of the
    decision, the application belongs to the workspace, a service account has
    not expired, a current role binding grants the capability for that scope,
    and the token, when there is one, does so too. *)
Theorem authorize_iff db failure now r :
  let t := Truncate now Microsecond in
  Authorize (store := postgres_store db failure) now r = Ok tt <->
  validateRequest r = true /\ failure = false /\ t <> 0 /\
  exists p m, p ∈ principals db /\ m ∈ memberships db /\ member_allowed db r t p m.
Proof. cbv zeta. rewrite Authorize_ok, query_allowed_spec. done. Qed.

Definition without_token (r : Request) : Request :=
  {| PrincipalID := PrincipalID r; WorkspaceID := WorkspaceID r; Capability := Capability r;
     ApplicationID := ApplicationID r; TokenID := "" |}.

(** A token only narrows: whatever a token is allowed to do, its
    principal is allowed to do without it. *)
Theorem token_only_narrows db failure now r :
  Authorize (store := postgres_store db failure) now r = Ok tt ->
  Authorize (store := postgres_store db failure) now (without_token r) = Ok tt.
Proof.
  rewrite !Authorize_ok, !query_allowed_spec. intros (Hv & -> & Ht & p & m & Hp & Hm & Ha).
  split_and!; try done.
  - unfold validateRequest in *. simpl. simp_bool. by rewrite H, H3, H2, H1.
  - exists p, m. split_and!; try done. unfold member_allowed in *. simpl. naive_solver.
Qed.

(** ** Isolation *)

(** The rows a request names: of the principals its own alone, of the tables
    of a workspace those of its workspace, and among them those of its
    principal and of its token where the rows have one. *)
Definition restrict (who w tok : string) (db : identity) : identity := {|
  principals := filter (fun p => p_id p = who) (principals db);
  memberships := filter (fun m => mb_workspace m = w /\ mb_principal m = who) (memberships db);
  applications := filter (fun a => fst a = w) (applications db);
  service_accounts := filter (fun a => sa_workspace a = w /\ sa_principal a = who) (service_accounts db);
  bindings := filter (fun b => b_workspace b = w /\ b_principal b = who) (bindings db);
  role_capabilities := filter (fun x => fst (fst x) = w) (role_capabilities db);
  tokens := filter (fun t => t_workspace t = w /\ t_principal t = who /\ t_id t = tok) (tokens db);
  token_capabilities := filter (fun x => fst x = (w, tok)) (token_capabilities db);
  token_scopes := filter (fun x => fst x = (w, tok)) (token_scopes db) |}.

Lemma existsb_filter {A} (P : A -> Prop) `{forall x, Decision (P x)} (f : A -> bool) l :
  (forall x, f x = true -> P x) -> existsb f (filter P l) = existsb f l.
Proof.
  intros Hf. induction l as [|x l IH]; [done|]. rewrite filter_cons. simpl.
  destruct (decide (P x)); simpl; rewrite IH; [done|].
  destruct (f x) eqn:E; [by apply Hf in E|done].
Qed.

Lemma has_filter (P : string * string * string -> Prop) `{forall x, Decision (P x)} l w owner value :
  P (w, owner, value) -> has (filter P l) w owner value = has l w owner value.
Proof.
  intros HP. unfold has. apply existsb_filter. intros [[w' o'] v'] Hx. cbn [fst snd] in Hx. simp_bool. by subst.
Qed.

Lemma existsb_pointwise {A} (f g : A -> bool) l : (forall x, f x = g x) -> existsb f l = existsb g l.
Proof. intros H. induction l as [|x l IH]; [done|]. simpl. by rewrite H, IH. Qed.

Lemma role_grants_restrict db w p tok cap app now :
  role_grants (restrict p w tok db) w p cap app now = role_grants db w p cap app now.
Proof.
  unfold role_grants. simpl. rewrite existsb_filter by (intros b Hb; by simp_bool).
  apply existsb_pointwise. intros b. destruct (String.eqb_spec (b_workspace b) w) as [->|]; [|done].
  by rewrite has_filter.
Qed.

Lemma token_grants_restrict db w p cap app tok now :
  token_grants (restrict p w tok db) w p cap app tok now = token_grants db w p cap app tok now.
Proof.
  unfold token_grants. simpl. rewrite existsb_filter by (intros b Hb; by simp_bool).
  apply existsb_pointwise. intros t. destruct (String.eqb_spec (t_workspace t) w) as [Hw|]; [|done].
  destruct (String.eqb_spec (t_id t) tok) as [Ht|]; [|by rewrite !andb_false_r].
  unfold token_covers. simpl. by rewrite Hw, Ht, !has_filter.
Qed.

Lemma application_known_restrict db p w tok app :
  application_known (restrict p w tok db) w app = application_known db w app.
Proof.
  unfold application_known. simpl. f_equal. apply existsb_filter. intros a Ha. by simp_bool.
Qed.

Lemma account_live_restrict db w p tok now :
  account_live (restrict (p_id p) w tok db) w p now = account_live db w p now.
Proof.
  unfold account_live. simpl. f_equal. apply existsb_filter. intros a Ha. by simp_bool.
Qed.

Lemma row_allowed_restrict db r now p m :
  row_allowed (restrict (PrincipalID r) (WorkspaceID r) (TokenID r) db) r now p m = row_allowed db r now p m.
Proof.
  unfold row_allowed. destruct (String.eqb_spec (mb_workspace m) (WorkspaceID r)) as [Hw|];
    [|by rewrite !andb_false_r].
  destruct (String.eqb_spec (p_id p) (PrincipalID r)) as [Hp|]; [|by rewrite !andb_false_r].
  by rewrite Hw, <- Hp, role_grants_restrict, token_grants_restrict, application_known_restrict,
    account_live_restrict.
Qed.

(** C36.  Workspaces, principals and tokens are isolated: a decision depends
    only on the row of the principal the request names, on that principal's
    rows in the workspace it names, on the token it names, and on that workspace's applications and
    roles.  Other principals, memberships, accounts, bindings and tokens,
    of the same workspace and of others, are irrelevant. *)
Theorem workspace_isolation db failure now r :
  Authorize (store := postgres_store (restrict (PrincipalID r) (WorkspaceID r) (TokenID r) db) failure) now r =
  Authorize (store := postgres_store db failure) now r.
Proof.
  unfold Authorize. simpl. unfold IsAllowed. simpl.
  assert (forall t, query_allowed (restrict (PrincipalID r) (WorkspaceID r) (TokenID r) db) {| request := r; EvaluatedAt := t |}
          = query_allowed db {| request := r; EvaluatedAt := t |}) as Hq; [|by rewrite Hq].
  intros t. unfold query_allowed. simpl. rewrite existsb_filter.
  - apply existsb_pointwise. intros p. rewrite existsb_filter; [apply existsb_pointwise; intros m; apply row_allowed_restrict|].
    intros m Hm%row_allowed_spec. unfold member_allowed in Hm. naive_solver.
  - intros p Hp. apply existsb_exists in Hp as (m & _ & Hm%row_allowed_spec). unfold member_allowed in Hm. tauto.
Qed.

(** Authorization fails closed: an invalid request, an unavailable store,
    a suspended principal or membership, or a token that has expired or been
    revoked is never allowed. *)
Theorem fails_closed db failure now r :
  let t := Truncate now Microsecond in
  validateRequest r = false \/ failure = true \/
  (forall p, p ∈ principals db -> p_id p = PrincipalID r -> p_state p <> "active") \/
  (forall m, m ∈ memberships db -> mb_principal m = PrincipalID r -> mb_workspace m = WorkspaceID r ->
     mb_state m <> "active") \/
  (TokenID r <> "" /\ forall x, x ∈ tokens db -> t_id x = TokenID r -> t_workspace x = WorkspaceID r ->
     t_expires x <= t \/ t_revoked x <> None) ->
  exists e, Authorize (store := postgres_store db failure) now r = Err e.
Proof.
  cbv zeta. intros H. destruct (Authorize now r) as [[]|e] eqn:E; [|eauto].
  apply Authorize_ok in E as (Hv & Hf & _ & Hq). apply query_allowed_spec in Hq as (p & m & Hp & Hm & Ha).
  exfalso. unfold member_allowed in Ha. simpl in Ha. destruct_and!.
  destruct H as [H|[H|[H|[H|[Htok H]]]]]; [congruence|congruence|naive_solver|naive_solver|].
  match goal with Ht : TokenID r <> "" -> token_allows _ _ _ |- _ => destruct (Ht Htok) as (x & Hx & Hrest) end.
  destruct_and!. destruct (H x Hx) as [?|?]; try done. lia.
Qed.

(** ** The theorems at work *)

Definition demo : identity := {|
  principals := [{| p_id := "usr_ada"; p_kind := "user"; p_state := "active" |}];
  memberships := [{| mb_workspace := "ws_one"; mb_principal := "usr_ada"; mb_state := "active";
                     mb_from := 0; mb_until := None |}];
  applications := [("ws_one", "app_web")];
  service_accounts := [];
  bindings := [{| b_workspace := "ws_one"; b_principal := "usr_ada"; b_role := "rol_dev";
                  b_scope := "application"; b_application := Some "app_web"; b_from := 0; b_until := None |}];
  role_capabilities := [("ws_one", "rol_dev", "imports:create")];
  tokens := [{| t_workspace := "ws_one"; t_id := "tok_ci"; t_principal := "usr_ada"; t_prefix := "";
                t_verifier := ""; t_key := ""; t_scope_mode := "explicit"; t_created := 0;
                t_expires := 100 * Second; t_last_used := None; t_revoked := None |}];
  token_capabilities := [("ws_one", "tok_ci", "imports:create")];
  token_scopes := [("ws_one", "tok_ci", "app_web")] |}.

Definition ci_request (app : string) : Request := {|
  PrincipalID := "usr_ada"; WorkspaceID := "ws_one"; Capability := "imports:create";
  ApplicationID := app; TokenID := "tok_ci" |}.

Example demo_decisions :
  Authorize (store := postgres_store demo false) (5 * Second) (ci_request "app_web") = Ok tt /\
  Authorize (store := postgres_store demo false) (5 * Second) (ci_request "") = Err ErrDenied /\
  Authorize (store := postgres_store demo false) (500 * Second) (ci_request "app_web") = Err ErrDenied.
Proof. vm_compute. done. Qed.

Lemma token_only_narrows_witness :
  Authorize (store := postgres_store demo false) (5 * Second) (without_token (ci_request "app_web")) = Ok tt.
Proof. apply token_only_narrows. vm_compute. reflexivity. Defined.

Lemma fails_closed_witness :
  exists e, Authorize (store := postgres_store demo false) (500 * Second) (ci_request "app_web") = Err e.
Proof.
  apply fails_closed. do 4 right. split; [done|]. intros x Hx _ _. left.
  apply list_elem_of_singleton in Hx as ->. vm_compute. discriminate.
Defined.

End Authorization.
