(* ===== verification/Base64.v ===== *)
(** * Raw URL-safe base64 and HMAC-SHA-256

    Executable definitions of [base64.RawURLEncoding] and
    [hmac.New(sha256.New, key)] as the authentication package uses them, with
    the round trip of the encoding. *)

From S2P Require Import Prelude GoStrings Encoding.
From Stdlib Require Import Ascii.

Local Open Scope Z_scope.

(** ** Encoding *)

(** A-Z a-z 0-9 - _ *)
Definition base64_symbol (b5 b4 b3 b2 b1 b0 : bool) : ascii :=
  let v := 32 * bit b5 + 16 * bit b4 + 8 * bit b3 + 4 * bit b2 + 2 * bit b1 + bit b0 in
  ascii_of_N (Z.to_N (if v <? 26 then 65 + v else if v <? 52 then 71 + v else if v <? 62 then v - 4
                      else if v =? 62 then 45 else 95)).

Fixpoint base64_bits (l : list bool) : string :=
  match l with
  | [] => ""
  | a :: b :: c :: d :: e :: f :: l => String (base64_symbol a b c d e f) (base64_bits l)
  | [a; b; c; d; e] => String (base64_symbol a b c d e false) ""
  | [a; b; c; d] => String (base64_symbol a b c d false false) ""
  | [a; b; c] => String (base64_symbol a b c false false false) ""
  | [a; b] => String (base64_symbol a b false false false false) ""
  | [a] => String (base64_symbol a false false false false false) ""
  end.

(** [base64.RawURLEncoding.EncodeToString]. *)
Definition base64_encode (s : string) : string := base64_bits (string_bits s).

(** ** Decoding *)

Definition six_bits (v : Z) : list bool := map (Z.testbit v) [5; 4; 3; 2; 1; 0].

Definition base64_value (c : ascii) : option (list bool) :=
  let v := byte_val c in
  if between 65 90 v then Some (six_bits (v - 65))
  else if between 97 122 v then Some (six_bits (v - 71))
  else if between 48 57 v then Some (six_bits (v + 4))
  else if v =? 45 then Some (six_bits 62)
  else if v =? 95 then Some (six_bits 63) else None.

(** The decoder skips line breaks and fails on every other byte outside the
    alphabet. *)
Fixpoint base64_symbols (s : string) : option (list (list bool)) :=
  match s with
  | "" => Some []
  | String c s =>
      if is_byte 10 c || is_byte 13 c then base64_symbols s
      else match base64_value c, base64_symbols s with
           | Some v, Some l => Some (v :: l)
           | _, _ => None
           end
  end.

Fixpoint bits_bytes (l : list bool) : string :=
  match l with
  | b7 :: b6 :: b5 :: b4 :: b3 :: b2 :: b1 :: b0 :: l => String (Ascii b0 b1 b2 b3 b4 b5 b6 b7) (bits_bytes l)
  | _ => ""
  end.

(** [base64.RawURLEncoding.DecodeString]: a last group of one symbol is an
    error; left-over bits are ignored. *)
Definition base64_decode (s : string) : option string :=
  match base64_symbols s with
  | Some l => if Z.of_nat (length l) `mod` 4 =? 1 then None else Some (bits_bytes (concat l))
  | None => None
  end.

(** ** Round trip *)

Lemma six_ind (P : list bool -> Prop) :
  (forall l, (length l < 6)%nat -> P l) ->
  (forall a b c d e f l, P l -> P (a :: b :: c :: d :: e :: f :: l)) -> forall l, P l.
Proof.
  intros Hs Hl l. remember (length l) as n eqn:Hn. revert l Hn.
  induction n as [n IH] using lt_wf_ind. intros l ->.
  destruct l as [|a [|b [|c [|d [|e [|f l]]]]]]; try (apply Hs; simpl; lia).
  apply Hl. apply (IH (length l)); [simpl; lia|done].
Qed.

Definition url_char (c : ascii) : bool :=
  is_upper c || is_lower c || is_digit c || is_byte 45 c || is_byte 95 c.

Lemma base64_symbol_spec a b c d e f : let s := base64_symbol a b c d e f in
  base64_value s = Some [a; b; c; d; e; f] /\ is_byte 10 s || is_byte 13 s = false /\ url_char s = true.
Proof. by destruct a, b, c, d, e, f. Qed.

Lemma base64_bits_class l : sforallb url_char (base64_bits l) = true.
Proof.
  induction l as [l Hl|a b c d e f l IH] using six_ind.
  - destruct l as [|a [|b [|c [|d [|e [|f l]]]]]]; try (simpl in Hl; lia); [done|..];
      cbn [base64_bits sforallb]; by rewrite (proj2 (proj2 (base64_symbol_spec _ _ _ _ _ _))).
  - cbn [base64_bits sforallb]. by rewrite (proj2 (proj2 (base64_symbol_spec _ _ _ _ _ _))), IH.
Qed.

Lemma base64_bits_length l : slen (base64_bits l) = (Z.of_nat (length l) + 5) / 6.
Proof.
  induction l as [l Hl|a b c d e f l IH] using six_ind.
  - destruct l as [|a [|b [|c [|d [|e [|f l]]]]]]; try done. simpl in Hl. lia.
  - cbn [base64_bits]. unfold slen in *. cbn [String.length length].
    replace (Z.of_nat (S (S (S (S (S (S (length l))))))) + 5) with (Z.of_nat (length l) + 5 + 1 * 6) by lia.
    rewrite Z.div_add, <- IH by lia. lia.
Qed.

(** Decoding the symbols gives the bits back, with fewer than six zeros. *)
Lemma base64_symbols_bits l : exists ls pad, base64_symbols (base64_bits l) = Some ls /\
  concat ls = l ++ pad /\ (length pad < 6)%nat /\ Z.of_nat (length ls) = (Z.of_nat (length l) + 5) / 6.
Proof.
  induction l as [l Hl|a b c d e f l (ls & pad & Hs & Hc & Hp & Hn)] using six_ind.
  - destruct l as [|a [|b [|c [|d [|e [|f l]]]]]]; try (simpl in Hl; lia);
      [by exists [], []|..]; cbn [base64_bits base64_symbols];
      rewrite (proj1 (proj2 (base64_symbol_spec _ _ _ _ _ _))), (proj1 (base64_symbol_spec _ _ _ _ _ _));
      eexists [_]; eexists; (split; [reflexivity|]); simpl; (split; [reflexivity|]); simpl; split; (lia || done).
  - cbn [base64_bits base64_symbols].
    rewrite (proj1 (proj2 (base64_symbol_spec _ _ _ _ _ _))), (proj1 (base64_symbol_spec _ _ _ _ _ _)), Hs.
    eexists (_ :: ls), pad. split; [reflexivity|]. simpl. rewrite Hc. split; [done|]. split; [done|].
    cbn [length]. replace (Z.of_nat (S (S (S (S (S (S (length l))))))) + 5)
      with (Z.of_nat (length l) + 5 + 1 * 6) by lia.
    rewrite Z.div_add, <- Hn by lia. lia.
Qed.

Lemma bits_bytes_string s pad : (length pad < 8)%nat -> bits_bytes (string_bits s ++ pad) = s.
Proof.
  intros Hp. induction s as [|[] s IH]; cbn [string_bits byte_bits app].
  - destruct pad as [|? [|? [|? [|? [|? [|? [|? [|? ?]]]]]]]]; try done. simpl in Hp. lia.
  - cbn [bits_bytes]. by rewrite IH.
Qed.

Lemma base64_roundtrip s : base64_decode (base64_encode s) = Some s.
Proof.
  unfold base64_decode, base64_encode.
  destruct (base64_symbols_bits (string_bits s)) as (ls & pad & -> & -> & Hp & ->).
  rewrite string_bits_length. rewrite (proj2 (Z.eqb_neq _ _)).
  - rewrite bits_bytes_string by lia. done.
  - pose proof (slen_nonneg s). Z.to_euclidean_division_equations. lia.
Qed.

(** ** HMAC *)

Definition block_size : Z := 64.

Definition xor_byte (v : Z) (c : ascii) : ascii := ascii_of_N (Z.to_N (Z.lxor (byte_val c) v)).

(** The key as one block: hashed when it is longer, padded with zeros. *)
Definition hmac_key (key : string) : string :=
  let k := if block_size <? slen key then sha256 key else key in
  k +:+ Nat.iter (Z.to_nat (block_size - slen k)) (String "000"%char) "".

Definition hmac_sha256 (key message : string) : string :=
  let k := hmac_key key in
  sha256 (smap (xor_byte 0x5c) k +:+ sha256 (smap (xor_byte 0x36) k +:+ message)).

Lemma hmac_length key message : slen (hmac_sha256 key message) = 32.
Proof. apply sha256_length. Qed.

(** RFC 4231, test case 2. *)
Example hmac_rfc4231 :
  hex_encode (hmac_sha256 "Jefe" "what do ya want for nothing?")
  = "5bdcc146bf60754e6a042426089575c75a003f089d2739839dec58b964ec3843".
Proof. vm_compute. reflexivity. Qed.

#[global] Arguments hmac_sha256 : simpl never.
