(* ===== verification/Authentication.v ===== *)
(** * Bearer tokens (src/internal/authentication)

    [Module Authentication] models the generation and verification of API
    tokens: the verifier configuration (types.go), the service (service.go)
    against any [tokenStore], and the PostgreSQL store (postgres.go) over the
    identity tables of Authorization.v. *)

From S2P Require Import Prelude GoStrings Encoding Txn Authorization Base64.
From Stdlib Require Import Ascii.

Local Open Scope Z_scope.

Module Authentication.
Import Authorization.

Definition prefixRandomBytes : Z := 12.
Definition secretBytes : Z := 32.
Definition minimumKeyBytes : Z := 32.

Inductive error :=
| ErrInvalid
| ErrUnauthenticated
| ErrKeyUnavailable                (* bearer token verifier key is unavailable *)
| ErrVerifierLength                (* stored API token verifier has invalid length *)
| ErrFailed (action : string).     (* fmt.Errorf("action: %w", err) *)

Definition keyIDPattern (s : string) : bool := match_class key_char 1 64 s.
Definition prefixPattern (s : string) : bool := match_prefixed "oaspm_" base32_char 20 s.

Record Config := { ActiveKeyID : string; Keys : gmap string string }.
Record Subject := { s_TokenID : string; s_PrincipalID : string; s_WorkspaceID : string }.
Record GeneratedToken := {
  Plaintext : string; Prefix : string; Verifier : string; VerifierKeyID : string
}.
Record tokenRecord := {
  r_ID : string; r_PrincipalID : string; r_WorkspaceID : string; r_Prefix : string;
  r_Verifier : string; r_VerifierKeyID : string; r_ExpiresAt : time; r_RevokedAt : option time
}.

Definition validateConfig (c : Config) : bool :=
  keyIDPattern (ActiveKeyID c) && negb (Z.of_nat (size (Keys c)) =? 0) &&
  forallb (fun kv => keyIDPattern (fst kv) && negb (slen (snd kv) <? minimumKeyBytes)) (map_to_list (Keys c)) &&
  negb (is_null (Keys c !! ActiveKeyID c)).

(** ** The service *)

(** The store interface; a nil store is [None]. *)
Class tokenStore := {
  FindByPrefix : string -> prog identity error tokenRecord;
  RecordUse : tokenRecord -> time -> prog identity error bool
}.

Record Service := { activeKeyID : string; keys : gmap string string }.

Definition NewService (store : option tokenStore) (c : Config) : result error Service :=
  guard! negb (is_null store) && validateConfig c else ErrInvalid in
  Ok {| activeKeyID := ActiveKeyID c; keys := Keys c |}.

Definition verifier (key plaintext : string) : string := hmac_sha256 key plaintext.

(** [random i n]: the [i]-th read of [n] random bytes. *)
Definition Generate (svc : Service) (random : nat -> Z -> option string) : result error GeneratedToken :=
  match random 0%nat prefixRandomBytes with
  | None => Err (ErrFailed "generate token prefix")
  | Some prefixBytes =>
      match random 1%nat secretBytes with
      | None => Err (ErrFailed "generate token secret")
      | Some secret =>
          let prefix := "oaspm_" +:+ ToLower (base32_encode prefixBytes) in
          let plaintext := prefix +:+ "." +:+ base64_encode secret in
          Ok {| Plaintext := plaintext; Prefix := prefix;
                Verifier := verifier (default "" (keys svc !! activeKeyID svc)) plaintext;
                VerifierKeyID := activeKeyID svc |}
      end
  end.

(** [strings.Cut] at a one-byte separator. *)
Fixpoint Cut (sep : ascii) (s : string) : option (string * string) :=
  match s with
  | "" => None
  | String c s => if Ascii.eqb c sep then Some ("", s)
                  else match Cut sep s with Some (a, b) => Some (String c a, b) | None => None end
  end.

Definition parseToken (plaintext : string) : option string :=
  if negb (slen plaintext =? slen "oaspm_" + 20 + 1 + 43) || negb (String.eqb (TrimSpace plaintext) plaintext)
  then None
  else match Cut "." plaintext with
  | None => None
  | Some (prefix, encodedSecret) =>
      if negb (prefixPattern prefix) then None
      else match base64_decode encodedSecret with
      | Some secret => if slen secret =? secretBytes then Some prefix else None
      | None => None
      end
  end.

Definition Authenticate {store : tokenStore} (svc : Service) (now : time) (plaintext : string)
  : prog identity error Subject :=
  match parseToken plaintext with
  | None => fail ErrUnauthenticated
  | Some prefix =>
      let! rec := map_error (fun e => match e with
                                      | ErrUnauthenticated => ErrUnauthenticated
                                      | _ => ErrFailed "load bearer token"
                                      end) (FindByPrefix prefix) in
      match keys svc !! r_VerifierKeyID rec with
      | None => fail ErrKeyUnavailable
      | Some key =>
          if negb (String.eqb (verifier key plaintext) (r_Verifier rec)) then fail ErrUnauthenticated
          else
            let usedAt := Truncate now Microsecond in
            let! active := map_error (fun _ => ErrFailed "record bearer token use") (RecordUse rec usedAt) in
            if negb active then fail ErrUnauthenticated
            else done_with {| s_TokenID := r_ID rec; s_PrincipalID := r_PrincipalID rec;
                              s_WorkspaceID := r_WorkspaceID rec |}
      end
  end.

(** ** The PostgreSQL store *)

Definition token_record (t : api_token) : tokenRecord := {|
  r_ID := t_id t; r_PrincipalID := t_principal t; r_WorkspaceID := t_workspace t; r_Prefix := t_prefix t;
  r_Verifier := t_verifier t; r_VerifierKeyID := t_key t; r_ExpiresAt := t_expires t;
  r_RevokedAt := t_revoked t |}.

Definition find_prefix (prefix : string) (d : identity) : option api_token :=
  List.find (fun t => String.eqb (t_prefix t) prefix) (tokens d).

Definition find_by_prefix (prefix : string) : prog identity error tokenRecord :=
  if negb (prefixPattern prefix) then fail ErrUnauthenticated
  else
    let! row := autocommit (ErrFailed "query API token") (fun d => Some (find_prefix prefix d, d)) in
    match row with
    | None => fail ErrUnauthenticated
    | Some t =>
        if negb (slen (t_verifier t) =? 32) then fail ErrVerifierLength else done_with (token_record t)
    end.

(** The WHERE of the UPDATE: the same token, live at [usedAt]. *)
Definition usable (rec : tokenRecord) (usedAt : time) (t : api_token) : bool :=
  String.eqb (t_workspace t) (r_WorkspaceID rec) && String.eqb (t_id t) (r_ID rec) &&
  String.eqb (t_principal t) (r_PrincipalID rec) && String.eqb (t_prefix t) (r_Prefix rec) &&
  (t_created t <=? usedAt) && (usedAt <? t_expires t) && is_null (t_revoked t).

(** last_used_at = GREATEST(COALESCE(last_used_at, $5), $5) *)
Definition use_token (usedAt : time) (t : api_token) : api_token := {|
  t_workspace := t_workspace t; t_id := t_id t; t_principal := t_principal t; t_prefix := t_prefix t;
  t_verifier := t_verifier t; t_key := t_key t; t_scope_mode := t_scope_mode t; t_created := t_created t;
  t_expires := t_expires t; t_last_used := Some (Z.max (coalesce (t_last_used t) usedAt) usedAt);
  t_revoked := t_revoked t |}.

Definition set_tokens (d : identity) (ts : list api_token) : identity := {|
  principals := principals d; memberships := memberships d; applications := applications d;
  service_accounts := service_accounts d; bindings := bindings d;
  role_capabilities := role_capabilities d; tokens := ts; token_capabilities := token_capabilities d;
  token_scopes := token_scopes d |}.

Definition mark_used (rec : tokenRecord) (usedAt : time) (d : identity) : identity :=
  set_tokens d (map (fun t => if usable rec usedAt t then use_token usedAt t else t) (tokens d)).

Definition record_use (rec : tokenRecord) (usedAt : time) : prog identity error bool :=
  if negb (prefixPattern (r_Prefix rec)) || String.eqb (r_ID rec) "" || String.eqb (r_PrincipalID rec) "" ||
     String.eqb (r_WorkspaceID rec) "" || IsZero usedAt
  then fail ErrInvalid
  else
    let! rows := autocommit (ErrFailed "update API token use")
                   (fun d => Some (countb (usable rec usedAt) (tokens d), mark_used rec usedAt d)) in
    done_with (rows =? 1).

#[global] Instance postgres_tokens : tokenStore := {|
  FindByPrefix := find_by_prefix; RecordUse := record_use |}.

#[local] Arguments prefixPattern : simpl never.
#[local] Arguments verifier : simpl never.
#[local] Arguments Truncate : simpl never.

(** ** Generated tokens parse *)

Lemma Cut_app sep a b : sforallb (fun c => negb (Ascii.eqb c sep)) a = true ->
  Cut sep (a +:+ String sep b) = Some (a, b).
Proof.
  induction a as [|c a IH]; intros H.
  - simpl. by rewrite Ascii.eqb_refl.
  - cbn [sforallb] in H. apply andb_prop in H as [Hc Ha]. apply negb_true_iff in Hc.
    change (String c a +:+ String sep b) with (String c (a +:+ String sep b)). cbn [Cut].
    by rewrite Hc, (IH Ha).
Qed.

Lemma base32_no_dot c : base32_char c = true -> negb (Ascii.eqb c ".") = true.
Proof. destruct c as [[] [] [] [] [] [] [] []]; vm_compute; done. Qed.

Lemma url_plain c : url_char c = true -> plain_char c = true.
Proof. destruct c as [[] [] [] [] [] [] [] []]; vm_compute; done. Qed.

(** What the random source promises: the buffer is filled. *)
Definition fills (random : nat -> Z -> option string) : Prop :=
  forall i n b, 0 <= n -> random i n = Some b -> slen b = n.

Lemma generated_parses svc random g : fills random -> Generate svc random = Ok g ->
  parseToken (Plaintext g) = Some (Prefix g) /\ prefixPattern (Prefix g) = true /\
  VerifierKeyID g = activeKeyID svc /\
  Verifier g = verifier (default "" (keys svc !! activeKeyID svc)) (Plaintext g).
Proof.
  intros Hf. unfold Generate. destruct (random 0%nat _) as [pb|] eqn:E0; [|done].
  destruct (random 1%nat _) as [sec|] eqn:E1; [|done]. intros [= <-]. cbn [Plaintext Prefix Verifier VerifierKeyID].
  apply Hf in E0, E1; [|done..]. pose proof (base32_encode_length pb) as Hl. rewrite E0 in Hl.
  change ((8 * prefixRandomBytes + 4) / 5) with 20 in Hl.
  assert (prefixPattern ("oaspm_" +:+ ToLower (base32_encode pb)) = true) as Hp.
  { unfold prefixPattern, match_prefixed. rewrite strip_prefix_app, encode_id_class, Hl. done. }
  split; [|done]. unfold parseToken.
  change ("." +:+ base64_encode sec) with (String "." (base64_encode sec)).
  assert (slen (base64_encode sec) = 43) as Hs.
  { unfold base64_encode. by rewrite base64_bits_length, string_bits_length, E1. }
  rewrite TrimSpace_ascii, String.eqb_refl.
  2:{ change (fun c => (byte_val c <? 128) && (32 <? byte_val c)) with plain_char.
      rewrite !sforallb_app. cbn [sforallb]. rewrite andb_true_iff. split.
      - apply andb_true_iff. split; [done|]. eapply sforallb_impl; [apply base32_char_plain|apply encode_id_class].
      - rewrite andb_true_l. eapply sforallb_impl; [apply url_plain|apply base64_bits_class]. }
  rewrite !slen_app. replace (slen (String "." (base64_encode sec))) with 44 by (unfold slen in *; cbn [String.length]; lia).
  rewrite Hl. cbn [negb orb]. change (negb (slen "oaspm_" + 20 + 44 =? slen "oaspm_" + 20 + 1 + 43)) with false.
  cbv iota. rewrite Cut_app.
  2:{ rewrite sforallb_app. apply andb_true_iff. split; [done|].
      eapply sforallb_impl; [apply base32_no_dot|apply encode_id_class]. }
  rewrite Hp. cbn [negb]. by rewrite base64_roundtrip, E1.
Qed.

(** ** Authentication on a healthy connection *)

Definition subject_of (t : api_token) : Subject := {|
  s_TokenID := t_id t; s_PrincipalID := t_principal t; s_WorkspaceID := t_workspace t |}.

Lemma parseToken_prefix p prefix : parseToken p = Some prefix -> prefixPattern prefix = true.
Proof. unfold parseToken. repeat case_match; simp_bool; congruence. Qed.

Lemma find_prefix_spec prefix d t : find_prefix prefix d = Some t -> t ∈ tokens d /\ t_prefix t = prefix.
Proof.
  intros [Hin Heq]%find_some. apply String.eqb_eq in Heq. split; [|done]. by apply list_elem_of_In.
Qed.

Lemma Authenticate_exec svc now p d : exec (Authenticate svc now p) d =
  match parseToken p with
  | None => (Err ErrUnauthenticated, d)
  | Some prefix =>
      match find_prefix prefix d with
      | None => (Err ErrUnauthenticated, d)
      | Some t =>
          if negb (slen (t_verifier t) =? 32) then (Err (ErrFailed "load bearer token"), d)
          else match keys svc !! t_key t with
          | None => (Err ErrKeyUnavailable, d)
          | Some key =>
              let usedAt := Truncate now Microsecond in
              if negb (String.eqb (verifier key p) (t_verifier t)) then (Err ErrUnauthenticated, d)
              else if String.eqb (t_id t) "" || String.eqb (t_principal t) "" ||
                      String.eqb (t_workspace t) "" || IsZero usedAt
              then (Err (ErrFailed "record bearer token use"), d)
              else (if countb (usable (token_record t) usedAt) (tokens d) =? 1
                    then Ok (subject_of t) else Err ErrUnauthenticated, mark_used (token_record t) usedAt d)
          end
      end
  end.
Proof.
  unfold exec, run_on, Authenticate. destruct (parseToken p) as [prefix|] eqn:Ep; [|done].
  pose proof (parseToken_prefix _ _ Ep) as Hp.
  cbn [FindByPrefix RecordUse postgres_tokens]. unfold find_by_prefix. rewrite Hp.
  cbn [negb]. rewrite run_bind, run_map_error, run_autocommit.
  destruct (find_prefix prefix d) as [t|] eqn:Ef; [|done].
  destruct (negb (slen (t_verifier t) =? 32)); [done|]. cbn [run done_with fst snd].
  cbn [r_VerifierKeyID r_Verifier token_record]. destruct (keys svc !! t_key t) as [key|]; [|done].
  cbv zeta. destruct (negb (String.eqb _ _)); [done|].
  unfold record_use. cbn [r_Prefix r_ID r_PrincipalID r_WorkspaceID token_record].
  rewrite (proj2 (find_prefix_spec _ _ _ Ef)), Hp. cbn [negb orb].
  destruct (String.eqb (t_id t) "" || _ || _ || _); [done|].
  rewrite run_bind, run_map_error, run_autocommit. cbn [run done_with fst snd].
  by destruct (countb _ _ =? 1).
Qed.

Lemma countb_one {A} (f : A -> bool) l : countb f l = 1 -> exists x, x ∈ l /\ f x = true.
Proof.
  unfold countb. destruct (List.filter f l) as [|x l'] eqn:E; [done|]. intros _. exists x.
  rewrite list_elem_of_In, <- filter_In, E. by left.
Qed.

(** C37.  Nothing but the right secret authenticates: if a subject is returned,
    whatever the connection did, the presented text is well formed, its prefix
    names a stored token, the stored verifier is the keyed digest of exactly
    that text under a configured key, and a row with that identity was live
    (created, unexpired, unrevoked) at the time of use; the only change is the
    last use of that token. *)
Theorem authentication_sound svc now p d fs s d' :
  run_on (Authenticate svc now p) d fs = (Ok s, d') ->
  exists t key, t ∈ tokens d /\ parseToken p = Some (t_prefix t) /\ keys svc !! t_key t = Some key /\
    t_verifier t = hmac_sha256 key p /\ s = subject_of t /\
    (exists u, u ∈ tokens d /\ subject_of u = s /\ t_prefix u = t_prefix t /\
       t_created u <= Truncate now Microsecond < t_expires u /\ t_revoked u = None) /\
    d' = mark_used (token_record t) (Truncate now Microsecond) d.
Proof.
  intros H%run_on_ok. rewrite Authenticate_exec in H.
  destruct (parseToken p) as [prefix|]; [|done]. destruct (find_prefix prefix d) as [t|] eqn:Ef; [|done].
  destruct (negb (slen _ =? 32)); [done|]. destruct (keys svc !! t_key t) as [key|] eqn:Ek; [|done].
  cbv zeta in H. destruct (negb (String.eqb _ _)) eqn:Ev; [done|]. destruct (_ || _ || _ || _); [done|].
  destruct (countb _ _ =? 1) eqn:Ec; [|done]. injection H as <- <-. apply find_prefix_spec in Ef as [Hin Hp].
  simp_bool. apply countb_one in Ec as (u & Hu & Huse). unfold usable in Huse. simpl in Huse. simp_bool.
  exists t, key. split_and!; try done; [by rewrite Hp|].
  exists u. split_and!; try done; [|by destruct (t_revoked u)].
  unfold subject_of. congruence.
Qed.

(** A generated token works: it parses to its own public prefix, and once
    its prefix, verifier and key identifier are stored in a row whose prefix
    and identity are unique, authenticating with the plaintext returns that
    row's subject at every moment at which the row is live. *)
Theorem generated_token_authenticates svc random g d t now :
  fills random -> Generate svc random = Ok g -> is_Some (keys svc !! activeKeyID svc) ->
  find_prefix (Prefix g) d = Some t -> t_verifier t = Verifier g -> t_key t = VerifierKeyID g ->
  t_id t <> "" -> t_principal t <> "" -> t_workspace t <> "" -> 0 < Truncate now Microsecond ->
  countb (usable (token_record t) (Truncate now Microsecond)) (tokens d) = 1 ->
  exec (Authenticate svc now (Plaintext g)) d =
    (Ok (subject_of t), mark_used (token_record t) (Truncate now Microsecond) d).
Proof.
  intros Hf Hg [key Hkey] Hfind Hv Hk H1 H2 H3 Ht Hc.
  destruct (generated_parses svc random g Hf Hg) as (Hp & Hpat & Hid & Hver).
  rewrite Authenticate_exec, Hp, Hfind, Hk, Hid, Hkey. rewrite Hkey in Hver. simpl in Hver.
  assert (slen (t_verifier t) = 32) as -> by (rewrite Hv, Hver; apply hmac_length).
  cbv zeta. rewrite Hv, Hver, String.eqb_refl. simpl.
  rewrite !(proj2 (String.eqb_neq _ _)) by done. unfold IsZero. rewrite (proj2 (Z.eqb_neq _ _)) by lia.
  simpl. by rewrite Hc.
Qed.

(** ** A token in use *)

Definition demo_service : Service := {|
  activeKeyID := "k1"; keys := {["k1" := "0123456789abcdef0123456789abcdef"]} |}.
Definition demo_random (i : nat) (n : Z) : option string :=
  Some (Nat.iter (Z.to_nat n) (String (if Nat.eqb i 0 then "a" else "b")%char) "").

Lemma demo_random_fills : fills demo_random.
Proof.
  intros i n b Hn. unfold demo_random. intros [= <-]. unfold slen.
  assert (forall k c, String.length (Nat.iter k (String c) "") = k) as -> by (intros k c; induction k; simpl; auto).
  lia.
Qed.

Definition demo_token : GeneratedToken :=
  match Generate demo_service demo_random with
  | Ok g => g | Err _ => {| Plaintext := ""; Prefix := ""; Verifier := ""; VerifierKeyID := "" |}
  end.
Definition demo_row : api_token := {|
  t_workspace := "ws_demo"; t_id := "tok_demo"; t_principal := "usr_demo"; t_prefix := Prefix demo_token;
  t_verifier := Verifier demo_token; t_key := "k1"; t_scope_mode := "workspace"; t_created := Hour;
  t_expires := 10 * Hour; t_last_used := None; t_revoked := None |}.
Definition demo_identity : identity := {|
  principals := []; memberships := []; applications := []; service_accounts := []; bindings := [];
  role_capabilities := []; tokens := [demo_row]; token_capabilities := []; token_scopes := [] |}.

Lemma generated_token_authenticates_witness :
  Generate demo_service demo_random = Ok demo_token /\
  exec (Authenticate demo_service (2 * Hour) (Plaintext demo_token)) demo_identity =
    (Ok (subject_of demo_row), mark_used (token_record demo_row) (Truncate (2 * Hour) Microsecond) demo_identity).
Proof.
  assert (Generate demo_service demo_random = Ok demo_token) as E by (vm_compute; reflexivity).
  split; [exact E|].
  refine (generated_token_authenticates demo_service demo_random demo_token demo_identity demo_row (2 * Hour)
            demo_random_fills E _ _ _ _ _ _ _ _ _).
  - eexists. reflexivity.
  - vm_compute. reflexivity.
  - reflexivity.
  - vm_compute. reflexivity.
  - by intros [=].
  - by intros [=].
  - by intros [=].
  - vm_compute. reflexivity.
  - vm_compute. reflexivity.
Defined.

Lemma authentication_sound_witness :
  run_on (Authenticate demo_service (2 * Hour) (Plaintext demo_token)) demo_identity [Healthy; Healthy] =
    (Ok (subject_of demo_row), mark_used (token_record demo_row) (2 * Hour) demo_identity) /\
  exists t key, t ∈ tokens demo_identity /\ parseToken (Plaintext demo_token) = Some (t_prefix t) /\
    keys demo_service !! t_key t = Some key /\ t_verifier t = hmac_sha256 key (Plaintext demo_token) /\
    subject_of demo_row = subject_of t /\
    (exists u, u ∈ tokens demo_identity /\ subject_of u = subject_of demo_row /\ t_prefix u = t_prefix t /\
       t_created u <= Truncate (2 * Hour) Microsecond < t_expires u /\ t_revoked u = None) /\
    mark_used (token_record demo_row) (2 * Hour) demo_identity =
    mark_used (token_record t) (Truncate (2 * Hour) Microsecond) demo_identity.
Proof.
  assert (run_on (Authenticate demo_service (2 * Hour) (Plaintext demo_token)) demo_identity [Healthy; Healthy] =
    (Ok (subject_of demo_row), mark_used (token_record demo_row) (2 * Hour) demo_identity)) as E
    by (vm_compute; reflexivity).
  split; [exact E|]. exact (authentication_sound _ _ _ _ _ _ _ E).
Defined.

(** A revoked token, and one character of the secret changed. *)
Definition revoked_identity : identity := set_tokens demo_identity [ {|
  t_workspace := "ws_demo"; t_id := "tok_demo"; t_principal := "usr_demo"; t_prefix := Prefix demo_token;
  t_verifier := Verifier demo_token; t_key := "k1"; t_scope_mode := "workspace"; t_created := Hour;
  t_expires := 10 * Hour; t_last_used := None; t_revoked := Some (Hour + Second) |} ].

Example revoked_refused :
  fst (exec (Authenticate demo_service (2 * Hour) (Plaintext demo_token)) revoked_identity)
  = Err ErrUnauthenticated.
Proof. vm_compute. reflexivity. Qed.

End Authentication.
