(* ===== verification/Bootstrap.v ===== *)
(** * The operator bootstrap (src/internal/bootstrap, identity, tenancy)

    [Module Bootstrap] models the one-time installation: the service that draws
    the identifiers and the first API token, the transaction that creates the
    first principal, workspace, role, application and token through the
    packages that own those tables, and the rotation of the token.  The tables
    of migrations 00012 and 00013 are finite maps with the constraints of the
    schema; [identity_of] is the view of them that the authorization and
    authentication queries read. *)

From S2P Require Import Prelude GoStrings Encoding Txn Queue Worker Records Catalog Authorization Base64 Authentication.

Local Open Scope Z_scope.

Module Bootstrap.
Import JobQueue(char_length_between).

Definition minimumTokenTTL : duration := 24 * Hour.
Definition maximumTokenTTL : duration := 365 * 24 * Hour.

Inductive error :=
| ErrAlreadyInitialized
| ErrInvalid
| ErrNotInitialized
| ErrNotEmpty
| ErrIdentityInvalid               (* identity.ErrInvalid *)
| ErrTenancyInvalid                (* tenancy.ErrInvalid *)
| ErrCatalog (e : Catalog.error)
| ErrTimeUnavailable               (* bootstrap rotation time is unavailable *)
| ErrGenerate (action : string) (e : Authentication.error)
| ErrRandom                        (* generate bootstrap identifier *)
| ErrDatabase (action : string).   (* fmt.Errorf("action: %w", err) of a failed call *)

Definition initialCapabilities : list string :=
  ["catalog:application-repositories:link"; "catalog:repositories:create"; "imports:create"; "imports:read-own";
   "imports:upload"].

Record Config := { TokenTTL : duration }.

(** [NewService] with both dependencies present. *)
Definition validConfig (c : Config) : bool :=
  negb (TokenTTL c <? minimumTokenTTL) && negb (maximumTokenTTL <? TokenTTL c).

Record Result := {
  WorkspaceID : string; ApplicationID : string; PrincipalID : string; TokenID : string; Token : string;
  TokenExpires : time
}.

Record installationSpec := {
  result_ : Result; RoleID : string; BindingID : string; TokenPrefix : string; Verifier : string; KeyID : string;
  CreatedAt : time; Capabilities : list string
}.

Record rotationSpec := {
  ro_TokenID : string; ro_Token : string; ro_TokenPrefix : string; ro_Verifier : string; ro_KeyID : string;
  ro_CreatedAt : time; ro_TokenExpires : time; ro_Capabilities : list string
}.

(** ** The tables *)

Record principal_row := { pr_kind : string; pr_state : string; pr_created : time; pr_updated : time }.
Record membership_row := { me_state : string; me_from : time; me_until : option time }.
Record account_row := {
  ac_display_name : string; ac_owner : option string; ac_expires : option time; ac_created : time
}.
Record role_row := { ro_name : string; ro_created : time }.
Record binding_row := {
  bi_principal : string; bi_role : string; bi_scope : string; bi_application : option string; bi_from : time;
  bi_until : option time
}.
Record token_row := {
  tk_principal : string; tk_prefix : string; tk_verifier : string; tk_key : string; tk_scope_mode : string;
  tk_created : time; tk_expires : time; tk_last_used : option time; tk_revoked : option time
}.
Record installation_row := {
  in_workspace : string; in_application : string; in_principal : string; in_role : string; in_created : time
}.

(** The rows of a workspace have keys (workspace, id); the capability and scope
    tables are sets of (workspace, owner, value).  The installations table has
    one row at most, by its singleton constraint. *)
Record database := Database {
  catalog_db : Catalog.catalog;
  principals : gmap string principal_row;
  memberships : gmap (string * string) membership_row;
  accounts : gmap (string * string) account_row;
  roles : gmap (string * string) role_row;
  role_capabilities : gset (string * string * string);
  bindings : gmap (string * string) binding_row;
  tokens : gmap (string * string) token_row;
  token_capabilities : gset (string * string * string);
  token_scopes : gset (string * string * string);
  installation : option installation_row
}.

Definition set_catalog (c : Catalog.catalog) (d : database) : database :=
  Database c (principals d) (memberships d) (accounts d) (roles d) (role_capabilities d) (bindings d) (tokens d)
    (token_capabilities d) (token_scopes d) (installation d).
Definition set_principals (p : gmap string principal_row) (d : database) : database :=
  Database (catalog_db d) p (memberships d) (accounts d) (roles d) (role_capabilities d) (bindings d) (tokens d)
    (token_capabilities d) (token_scopes d) (installation d).
Definition set_memberships (m : gmap (string * string) membership_row) (d : database) : database :=
  Database (catalog_db d) (principals d) m (accounts d) (roles d) (role_capabilities d) (bindings d) (tokens d)
    (token_capabilities d) (token_scopes d) (installation d).
Definition set_accounts (a : gmap (string * string) account_row) (d : database) : database :=
  Database (catalog_db d) (principals d) (memberships d) a (roles d) (role_capabilities d) (bindings d) (tokens d)
    (token_capabilities d) (token_scopes d) (installation d).
Definition set_roles (r : gmap (string * string) role_row) (d : database) : database :=
  Database (catalog_db d) (principals d) (memberships d) (accounts d) r (role_capabilities d) (bindings d) (tokens d)
    (token_capabilities d) (token_scopes d) (installation d).
Definition set_role_capabilities (c : gset (string * string * string)) (d : database) : database :=
  Database (catalog_db d) (principals d) (memberships d) (accounts d) (roles d) c (bindings d) (tokens d)
    (token_capabilities d) (token_scopes d) (installation d).
Definition set_bindings (b : gmap (string * string) binding_row) (d : database) : database :=
  Database (catalog_db d) (principals d) (memberships d) (accounts d) (roles d) (role_capabilities d) b (tokens d)
    (token_capabilities d) (token_scopes d) (installation d).
Definition set_tokens (t : gmap (string * string) token_row) (d : database) : database :=
  Database (catalog_db d) (principals d) (memberships d) (accounts d) (roles d) (role_capabilities d) (bindings d) t
    (token_capabilities d) (token_scopes d) (installation d).
Definition set_token_capabilities (c : gset (string * string * string)) (d : database) : database :=
  Database (catalog_db d) (principals d) (memberships d) (accounts d) (roles d) (role_capabilities d) (bindings d)
    (tokens d) c (token_scopes d) (installation d).
Definition set_installation (i : option installation_row) (d : database) : database :=
  Database (catalog_db d) (principals d) (memberships d) (accounts d) (roles d) (role_capabilities d) (bindings d)
    (tokens d) (token_capabilities d) (token_scopes d) i.

#[global, program] Instance catalog_lens : Lens database Catalog.catalog := {| view := catalog_db; put_back := set_catalog |}.
Solve Obligations with (by intros; try destruct s).

(** *** What the authorization and authentication queries see *)

Definition view_principal (e : string * principal_row) : Authorization.principal := {|
  Authorization.p_id := fst e; Authorization.p_kind := pr_kind (snd e); Authorization.p_state := pr_state (snd e) |}.
Definition view_membership (e : string * string * membership_row) : Authorization.membership := {|
  Authorization.mb_workspace := fst (fst e); Authorization.mb_principal := snd (fst e);
  Authorization.mb_state := me_state (snd e); Authorization.mb_from := me_from (snd e);
  Authorization.mb_until := me_until (snd e) |}.
Definition view_account (e : string * string * account_row) : Authorization.service_account := {|
  Authorization.sa_workspace := fst (fst e); Authorization.sa_principal := snd (fst e);
  Authorization.sa_expires := ac_expires (snd e) |}.
Definition view_binding (e : string * string * binding_row) : Authorization.binding := {|
  Authorization.b_workspace := fst (fst e); Authorization.b_principal := bi_principal (snd e);
  Authorization.b_role := bi_role (snd e); Authorization.b_scope := bi_scope (snd e);
  Authorization.b_application := bi_application (snd e); Authorization.b_from := bi_from (snd e);
  Authorization.b_until := bi_until (snd e) |}.
Definition view_token (e : string * string * token_row) : Authorization.api_token := {|
  Authorization.t_workspace := fst (fst e); Authorization.t_id := snd (fst e);
  Authorization.t_principal := tk_principal (snd e); Authorization.t_prefix := tk_prefix (snd e);
  Authorization.t_verifier := tk_verifier (snd e); Authorization.t_key := tk_key (snd e);
  Authorization.t_scope_mode := tk_scope_mode (snd e); Authorization.t_created := tk_created (snd e);
  Authorization.t_expires := tk_expires (snd e); Authorization.t_last_used := tk_last_used (snd e);
  Authorization.t_revoked := tk_revoked (snd e) |}.

Definition identity_of (d : database) : Authorization.identity := {|
  Authorization.principals := map view_principal (map_to_list (principals d));
  Authorization.memberships := map view_membership (map_to_list (memberships d));
  Authorization.applications := elements (Catalog.applications (catalog_db d));
  Authorization.service_accounts := map view_account (map_to_list (accounts d));
  Authorization.bindings := map view_binding (map_to_list (bindings d));
  Authorization.role_capabilities := elements (role_capabilities d);
  Authorization.tokens := map view_token (map_to_list (tokens d));
  Authorization.token_capabilities := elements (token_capabilities d);
  Authorization.token_scopes := elements (token_scopes d) |}.

(** ** Package identity *)

Record BootstrapPrincipal := {
  bp_PrincipalID : string; bp_WorkspaceID : string; bp_DisplayName : string; bp_CreatedAt : time
}.

Record BootstrapToken := {
  bt_ID : string; bt_PrincipalID : string; bt_WorkspaceID : string; bt_Prefix : string; bt_Verifier : string;
  bt_VerifierKeyID : string; bt_Capabilities : list string; bt_CreatedAt : time; bt_ExpiresAt : time
}.

Definition capabilityPattern : string -> bool := match_head is_lower capability_char 127.
Definition prefixPattern (s : string) : bool := match_prefixed "oaspm_" base32_char 20 s.
Definition keyIDPattern (s : string) : bool := match_class key_char 1 64 s.

(** The loop over the capabilities with the set of those seen. *)
Fixpoint valid_capabilities (seen : gset string) (l : list string) : bool :=
  match l with
  | [] => true
  | c :: l => capabilityPattern c && negb (bool_decide (c ∈ seen)) && valid_capabilities ({[c]} ∪ seen) l
  end.

Definition valid_principal (p : BootstrapPrincipal) : bool :=
  validOpaqueID (bp_PrincipalID p) && validOpaqueID (bp_WorkspaceID p) && validDisplayName (bp_DisplayName p) &&
  negb (IsZero (bp_CreatedAt p)).

Definition validateToken (t : BootstrapToken) : bool :=
  validOpaqueID (bt_ID t) && validOpaqueID (bt_PrincipalID t) && validOpaqueID (bt_WorkspaceID t) &&
  prefixPattern (bt_Prefix t) && keyIDPattern (bt_VerifierKeyID t) && negb (IsZero (bt_CreatedAt t)) &&
  (bt_CreatedAt t <? bt_ExpiresAt t) && negb (Z.of_nat (length (bt_Capabilities t)) =? 0) &&
  valid_capabilities ∅ (bt_Capabilities t).

Section Store.
Context {pg : Postgres}.

Definition insert_principal (p : BootstrapPrincipal) (d : database) : option (unit * database) :=
  let t := store_time (bp_CreatedAt p) in
  if char_length_between 3 128 (bp_PrincipalID p) && is_null (principals d !! bp_PrincipalID p)
  then Some (tt, set_principals (<[bp_PrincipalID p := {|
         pr_kind := "service_account"; pr_state := "active"; pr_created := t; pr_updated := t |}]> (principals d)) d)
  else None.

Definition CreateBootstrapPrincipal (p : BootstrapPrincipal) : prog database error unit :=
  if negb (valid_principal p) then fail ErrIdentityInvalid
  else statement (ErrDatabase "insert bootstrap principal") (insert_principal p).

Definition insert_account (p : BootstrapPrincipal) (d : database) : option (unit * database) :=
  let k := (bp_WorkspaceID p, bp_PrincipalID p) in
  if char_length_between 1 255 (bp_DisplayName p) && negb (is_null (memberships d !! k)) &&
     forallb (fun e => negb (String.eqb (snd (fst e)) (bp_PrincipalID p))) (map_to_list (accounts d))
  then Some (tt, set_accounts (<[k := {|
         ac_display_name := bp_DisplayName p; ac_owner := None; ac_expires := None;
         ac_created := store_time (bp_CreatedAt p) |}]> (accounts d)) d)
  else None.

Definition CreateBootstrapServiceAccount (p : BootstrapPrincipal) : prog database error unit :=
  if negb (valid_principal p) then fail ErrIdentityInvalid
  else statement (ErrDatabase "insert bootstrap service account") (insert_account p).

Definition new_token (t : BootstrapToken) : token_row := {|
  tk_principal := bt_PrincipalID t; tk_prefix := bt_Prefix t; tk_verifier := bt_Verifier t;
  tk_key := bt_VerifierKeyID t; tk_scope_mode := "workspace"; tk_created := store_time (bt_CreatedAt t);
  tk_expires := store_time (bt_ExpiresAt t); tk_last_used := None; tk_revoked := None |}.

(** The checks of the api_tokens table on one row. *)
Definition check_token (id : string) (r : token_row) : bool :=
  char_length_between 3 128 id && prefixPattern (tk_prefix r) && (slen (tk_verifier r) =? 32) &&
  keyIDPattern (tk_key r) && (String.eqb (tk_scope_mode r) "workspace" || String.eqb (tk_scope_mode r) "explicit") &&
  (tk_created r <? tk_expires r) &&
  match tk_last_used r with Some t => tk_created r <=? t | None => true end &&
  match tk_revoked r with Some t => tk_created r <=? t | None => true end.

Definition insert_token (t : BootstrapToken) (d : database) : option (unit * database) :=
  let k := (bt_WorkspaceID t, bt_ID t) in
  if check_token (bt_ID t) (new_token t) && is_null (tokens d !! k) &&
     forallb (fun e => negb (String.eqb (tk_prefix (snd e)) (bt_Prefix t))) (map_to_list (tokens d)) &&
     negb (is_null (memberships d !! (bt_WorkspaceID t, bt_PrincipalID t)))
  then Some (tt, set_tokens (<[k := new_token t]> (tokens d)) d) else None.

Definition insert_token_capability (w id capability : string) (d : database) : option (unit * database) :=
  if capabilityPattern capability && negb (bool_decide ((w, id, capability) ∈ token_capabilities d)) &&
     negb (is_null (tokens d !! (w, id)))
  then Some (tt, set_token_capabilities ({[(w, id, capability)]} ∪ token_capabilities d) d) else None.

Definition CreateBootstrapToken (t : BootstrapToken) : prog database error unit :=
  if negb (validateToken t) then fail ErrIdentityInvalid
  else
    do! statement (ErrDatabase "insert bootstrap API token") (insert_token t) in
    for_each (ErrDatabase "insert bootstrap token capability") (insert_token_capability (bt_WorkspaceID t) (bt_ID t))
      (bt_Capabilities t).

(** UPDATE ... SET revoked_at: the unrevoked tokens of a principal in a
    workspace; the statement fails when a row fails its checks. *)
Definition revocable (w p : string) (k : string * string) (r : token_row) : bool :=
  String.eqb (fst k) w && String.eqb (tk_principal r) p && is_null (tk_revoked r).

Definition revoke (t : time) (r : token_row) : token_row := {|
  tk_principal := tk_principal r; tk_prefix := tk_prefix r; tk_verifier := tk_verifier r; tk_key := tk_key r;
  tk_scope_mode := tk_scope_mode r; tk_created := tk_created r; tk_expires := tk_expires r;
  tk_last_used := tk_last_used r; tk_revoked := Some t |}.

Definition revoke_tokens (w p : string) (at_ : time) (d : database) : option (unit * database) :=
  let t := store_time at_ in
  if forallb (fun e => negb (revocable w p (fst e) (snd e)) || check_token (snd (fst e)) (revoke t (snd e)))
       (map_to_list (tokens d))
  then Some (tt, set_tokens (map_imap (fun k r => Some (if revocable w p k r then revoke t r else r)) (tokens d)) d)
  else None.

Definition RotateBootstrapToken (t : BootstrapToken) : prog database error unit :=
  if negb (validateToken t) then fail ErrIdentityInvalid
  else
    do! statement (ErrDatabase "revoke previous bootstrap API tokens")
          (revoke_tokens (bt_WorkspaceID t) (bt_PrincipalID t) (bt_CreatedAt t)) in
    CreateBootstrapToken t.

(** ** Package tenancy *)

Record BootstrapWorkspace := {
  bw_WorkspaceID : string; bw_PrincipalID : string; bw_RoleID : string; bw_BindingID : string; bw_RoleName : string;
  bw_Capabilities : list string; bw_CreatedAt : time
}.

Definition validName (value : string) : bool :=
  let length := RuneCountInString value in
  ValidString value && (1 <=? length) && (length <=? 128) && String.eqb (TrimSpace value) value && negb (has_nul value).

Definition validateBootstrap (s : BootstrapWorkspace) : bool :=
  validOpaqueID (bw_WorkspaceID s) && validOpaqueID (bw_PrincipalID s) && validOpaqueID (bw_RoleID s) &&
  validOpaqueID (bw_BindingID s) && validName (bw_RoleName s) && negb (IsZero (bw_CreatedAt s)) &&
  negb (Z.of_nat (length (bw_Capabilities s)) =? 0) && valid_capabilities ∅ (bw_Capabilities s).

Definition insert_workspace (w : string) (d : database) : option (unit * database) :=
  let c := catalog_db d in
  if char_length_between 3 128 w && negb (bool_decide (w ∈ Catalog.workspaces c))
  then Some (tt, set_catalog (Catalog.add_workspace w c) d) else None.

Definition insert_membership (w p : string) (t : time) (d : database) : option (unit * database) :=
  if bool_decide (w ∈ Catalog.workspaces (catalog_db d)) && negb (is_null (principals d !! p)) &&
     is_null (memberships d !! (w, p))
  then Some (tt, set_memberships (<[(w, p) := {|
         me_state := "active"; me_from := store_time t; me_until := None |}]> (memberships d)) d)
  else None.

Definition insert_role (w id name : string) (t : time) (d : database) : option (unit * database) :=
  if char_length_between 3 128 id && char_length_between 1 128 name &&
     bool_decide (w ∈ Catalog.workspaces (catalog_db d)) && is_null (roles d !! (w, id)) &&
     forallb (fun e => negb (String.eqb (fst (fst e)) w && String.eqb (ro_name (snd e)) name)) (map_to_list (roles d))
  then Some (tt, set_roles (<[(w, id) := {| ro_name := name; ro_created := store_time t |}]> (roles d)) d)
  else None.

Definition insert_role_capability (w role capability : string) (d : database) : option (unit * database) :=
  if capabilityPattern capability && negb (bool_decide ((w, role, capability) ∈ role_capabilities d)) &&
     negb (is_null (roles d !! (w, role)))
  then Some (tt, set_role_capabilities ({[(w, role, capability)]} ∪ role_capabilities d) d) else None.

(** The row of role_bindings_active_workspace_unique. *)
Definition same_active_binding (w p role : string) (e : string * string * binding_row) : bool :=
  String.eqb (fst (fst e)) w && String.eqb (bi_principal (snd e)) p && String.eqb (bi_role (snd e)) role &&
  String.eqb (bi_scope (snd e)) "workspace" && is_null (bi_until (snd e)).

Definition insert_binding (w id p role : string) (t : time) (d : database) : option (unit * database) :=
  if char_length_between 3 128 id && is_null (bindings d !! (w, id)) && negb (is_null (memberships d !! (w, p))) &&
     negb (is_null (roles d !! (w, role))) &&
     forallb (fun e => negb (same_active_binding w p role e)) (map_to_list (bindings d))
  then Some (tt, set_bindings (<[(w, id) := {|
         bi_principal := p; bi_role := role; bi_scope := "workspace"; bi_application := None;
         bi_from := store_time t; bi_until := None |}]> (bindings d)) d)
  else None.

Definition CreateBootstrapWorkspace (s : BootstrapWorkspace) : prog database error unit :=
  let w := bw_WorkspaceID s in
  if negb (validateBootstrap s) then fail ErrTenancyInvalid
  else
    do! statement (ErrDatabase "insert bootstrap workspace") (insert_workspace w) in
    do! statement (ErrDatabase "insert bootstrap membership") (insert_membership w (bw_PrincipalID s) (bw_CreatedAt s)) in
    do! statement (ErrDatabase "insert bootstrap role") (insert_role w (bw_RoleID s) (bw_RoleName s) (bw_CreatedAt s)) in
    do! for_each (ErrDatabase "insert bootstrap role capability") (insert_role_capability w (bw_RoleID s))
          (bw_Capabilities s) in
    statement (ErrDatabase "insert bootstrap role binding")
      (insert_binding w (bw_BindingID s) (bw_PrincipalID s) (bw_RoleID s) (bw_CreatedAt s)).

(** ** The store *)

Definition installation_exists (d : database) : bool := negb (is_null (installation d)).
Definition state_exists (d : database) : bool :=
  negb (bool_decide (Catalog.workspaces (catalog_db d) = ∅)) || negb (bool_decide (principals d = ∅)) ||
  negb (bool_decide (Catalog.applications (catalog_db d) = ∅)).

Definition principal_spec (s : installationSpec) : BootstrapPrincipal := {|
  bp_PrincipalID := PrincipalID (result_ s); bp_WorkspaceID := WorkspaceID (result_ s);
  bp_DisplayName := "Initial operator"; bp_CreatedAt := CreatedAt s |}.
Definition workspace_spec (s : installationSpec) : BootstrapWorkspace := {|
  bw_WorkspaceID := WorkspaceID (result_ s); bw_PrincipalID := PrincipalID (result_ s); bw_RoleID := RoleID s;
  bw_BindingID := BindingID s; bw_RoleName := "Initial operator"; bw_Capabilities := Capabilities s;
  bw_CreatedAt := CreatedAt s |}.
Definition token_spec (s : installationSpec) : BootstrapToken := {|
  bt_ID := TokenID (result_ s); bt_PrincipalID := PrincipalID (result_ s); bt_WorkspaceID := WorkspaceID (result_ s);
  bt_Prefix := TokenPrefix s; bt_Verifier := Verifier s; bt_VerifierKeyID := KeyID s;
  bt_Capabilities := Capabilities s; bt_CreatedAt := CreatedAt s; bt_ExpiresAt := TokenExpires (result_ s) |}.

Definition new_installation (s : installationSpec) : installation_row := {|
  in_workspace := WorkspaceID (result_ s); in_application := ApplicationID (result_ s);
  in_principal := PrincipalID (result_ s); in_role := RoleID s; in_created := store_time (CreatedAt s) |}.

Definition insert_installation (s : installationSpec) (d : database) : option (unit * database) :=
  let w := WorkspaceID (result_ s) in
  if is_null (installation d) && bool_decide (w ∈ Catalog.workspaces (catalog_db d)) &&
     bool_decide ((w, ApplicationID (result_ s)) ∈ Catalog.applications (catalog_db d)) &&
     negb (is_null (principals d !! PrincipalID (result_ s))) && negb (is_null (roles d !! (w, RoleID s)))
  then Some (tt, set_installation (Some (new_installation s)) d) else None.

Definition Initialize (s : installationSpec) : prog database error unit :=
  do! begin (ErrDatabase "begin operator bootstrap") in
  let! found := query (ErrDatabase "inspect bootstrap state") (fun d => (installation_exists d, state_exists d)) in
  if fst found then fail ErrAlreadyInitialized
  else if snd found then fail ErrNotEmpty
  else
    do! CreateBootstrapPrincipal (principal_spec s) in
    do! CreateBootstrapWorkspace (workspace_spec s) in
    do! CreateBootstrapServiceAccount (principal_spec s) in
    do! zoom ErrCatalog (Catalog.CreateBootstrapApplication (WorkspaceID (result_ s)) (ApplicationID (result_ s))
                           (CreatedAt s)) in
    do! CreateBootstrapToken (token_spec s) in
    do! statement (ErrDatabase "record operator bootstrap") (insert_installation s) in
    commit (ErrDatabase "commit operator bootstrap").

(** [clock] is what clock_timestamp() returns to the query. *)
Definition rotation_token (s : rotationSpec) (i : installation_row) (effectiveAt : time) : BootstrapToken := {|
  bt_ID := ro_TokenID s; bt_PrincipalID := in_principal i; bt_WorkspaceID := in_workspace i;
  bt_Prefix := ro_TokenPrefix s; bt_Verifier := ro_Verifier s; bt_VerifierKeyID := ro_KeyID s;
  bt_Capabilities := ro_Capabilities s; bt_CreatedAt := effectiveAt;
  bt_ExpiresAt := effectiveAt + Worker.Sub (ro_TokenExpires s) (ro_CreatedAt s) |}.

Definition RotateToken (clock : option time) (s : rotationSpec) : prog database error Result :=
  do! begin (ErrDatabase "begin bootstrap token rotation") in
  let! row := query (ErrDatabase "read operator bootstrap") installation in
  match row with
  | None => fail ErrNotInitialized
  | Some i =>
      match clock with
      | None => fail ErrTimeUnavailable
      | Some effectiveAt =>
          do! RotateBootstrapToken (rotation_token s i effectiveAt) in
          do! commit (ErrDatabase "commit bootstrap token rotation") in
          done_with {| WorkspaceID := in_workspace i; ApplicationID := in_application i;
                       PrincipalID := in_principal i; TokenID := ro_TokenID s; Token := ro_Token s;
                       TokenExpires := effectiveAt + Worker.Sub (ro_TokenExpires s) (ro_CreatedAt s) |}
      end
  end.

(** ** The service *)

(** What the world supplies to one call: the clock, the draws of random bytes
    and the answer of the token generator. *)
Record call := {
  now : time; random : nat -> Z -> option string; generated : result Authentication.error Authentication.GeneratedToken
}.

Definition timestamp (e : call) : time := Authorization.Truncate (now e) Microsecond.

Definition identifier (e : call) (k : nat) (prefix : string) : result error string :=
  match random e k 20 with
  | Some buffer => Ok (encode_id prefix buffer)
  | None => Err ErrRandom
  end.

Definition Generate (e : call) (action : string) : result error Authentication.GeneratedToken :=
  map_err (ErrGenerate action) (generated e).

Definition installation_spec (c : Config) (e : call) : result error installationSpec :=
  try! workspaceID := identifier e 0 "wsp_" in
  try! applicationID := identifier e 1 "app_" in
  try! principalID := identifier e 2 "prn_" in
  try! roleID := identifier e 3 "role_" in
  try! bindingID := identifier e 4 "bind_" in
  try! tokenID := identifier e 5 "tok_" in
  try! g := Generate e "generate bootstrap token" in
  Ok {| result_ := {| WorkspaceID := workspaceID; ApplicationID := applicationID; PrincipalID := principalID;
                      TokenID := tokenID; Token := Authentication.Plaintext g;
                      TokenExpires := timestamp e + TokenTTL c |};
        RoleID := roleID; BindingID := bindingID; TokenPrefix := Authentication.Prefix g;
        Verifier := Authentication.Verifier g; KeyID := Authentication.VerifierKeyID g;
        CreatedAt := timestamp e; Capabilities := initialCapabilities |}.

Definition ServiceInitialize (c : Config) (e : call) : prog database error Result :=
  match installation_spec c e with
  | Err x => fail x
  | Ok s => do! Initialize s in done_with (result_ s)
  end.

Definition rotation_spec (c : Config) (e : call) : result error rotationSpec :=
  try! tokenID := identifier e 0 "tok_" in
  try! g := Generate e "generate replacement bootstrap token" in
  Ok {| ro_TokenID := tokenID; ro_Token := Authentication.Plaintext g; ro_TokenPrefix := Authentication.Prefix g;
        ro_Verifier := Authentication.Verifier g; ro_KeyID := Authentication.VerifierKeyID g;
        ro_CreatedAt := timestamp e; ro_TokenExpires := timestamp e + TokenTTL c;
        ro_Capabilities := initialCapabilities |}.

Definition ServiceRotateToken (c : Config) (clock : option time) (e : call) : prog database error Result :=
  match rotation_spec c e with
  | Err x => fail x
  | Ok s => RotateToken clock s
  end.
End Store.
End Bootstrap.
