(* ===== verification/BootstrapTheorems.v ===== *)
(** * What the bootstrap installs

    [Module BootstrapTheorems] proves the guarantees of the operator bootstrap
    against the models of the packages that read its tables: exactly the
    initial operator is authorized after the installation and the token that
    was handed out authenticates; there is one installation, for ever; and a
    rotation leaves the new token as the only one of the operator. *)

From S2P Require Import Prelude GoStrings Encoding Txn Queue Worker Records Catalog Authorization Base64 Authentication.
From S2P Require Import Bootstrap.

Local Open Scope Z_scope.

Module BootstrapTheorems.
Import Bootstrap.

(** ** Referential integrity *)

Record integrity (d : database) : Prop := {
  int_members w p r : memberships d !! (w, p) = Some r -> is_Some (principals d !! p);
  int_accounts k r : accounts d !! k = Some r -> is_Some (memberships d !! k);
  int_roles w id r : roles d !! (w, id) = Some r -> w ∈ Catalog.workspaces (catalog_db d);
  int_role_capabilities w role c : (w, role, c) ∈ role_capabilities d -> is_Some (roles d !! (w, role));
  int_bindings w id r : bindings d !! (w, id) = Some r -> is_Some (memberships d !! (w, bi_principal r));
  int_tokens w id r : tokens d !! (w, id) = Some r -> is_Some (memberships d !! (w, tk_principal r));
  int_prefixes k k' r r' : tokens d !! k = Some r -> tokens d !! k' = Some r' -> tk_prefix r = tk_prefix r' -> k = k';
  int_token_rows k r : tokens d !! k = Some r -> check_token (snd k) r = true;
  int_token_capabilities w id c : (w, id, c) ∈ token_capabilities d -> is_Some (tokens d !! (w, id));
  int_token_scopes w id c : (w, id, c) ∈ token_scopes d -> is_Some (tokens d !! (w, id))
}.

(** A loop that adds to a set adds exactly its elements. *)
Section Adds.
Context {D E A K : Type} `{Countable K} (get : D -> gset K) (set : gset K -> D -> D) (key : A -> K)
  (f : A -> D -> option (unit * D)).
Hypothesis get_set : forall d m, get (set m d) = m.
Hypothesis set_set : forall d m m', set m' (set m d) = set m' d.
Hypothesis set_get : forall d, set (get d) d = d.
Hypothesis f_adds : forall a d u d', f a d = Some (u, d') -> d' = set ({[key a]} ∪ get d) d.

Lemma for_each_adds (e : E) l w u w' : run_in (for_each e f l) w = (Ok u, w') ->
  w' = set (list_to_set (map key l) ∪ get w) w.
Proof using Type*.
  revert w. induction l as [|a l IH]; intros w Hr.
  - injection Hr as <- <-. simpl. by rewrite (left_id_L ∅ (∪)), set_get.
  - change (for_each e f (a :: l)) with (bind (statement e (f a)) (fun _ => for_each e f l)) in Hr. rewrite run_in_bind, run_in_statement in Hr;
      [|repeat constructor|intros []; apply for_each_no_commit].
    destruct (f a w) as [[[] w1]|] eqn:Ef; [|done]. apply f_adds in Ef as ->.
    apply IH in Hr as ->. rewrite get_set, set_set. f_equal. simpl. set_solver.
Qed.
End Adds.

Section Theorems.
Context {pg : Postgres}.

(** ** The installation *)

(** Databases are equal table by table. *)
Lemma database_eq d d' : catalog_db d = catalog_db d' -> principals d = principals d' -> memberships d = memberships d' ->
  accounts d = accounts d' -> roles d = roles d' -> role_capabilities d = role_capabilities d' ->
  bindings d = bindings d' -> tokens d = tokens d' -> token_capabilities d = token_capabilities d' ->
  token_scopes d = token_scopes d' -> installation d = installation d' -> d = d'.
Proof. destruct d, d'. simpl. congruence. Qed.

Definition installed_token (s : installationSpec) : token_row := new_token (token_spec s).
Definition capability_rows (w owner : string) (l : list string) : gset (string * string * string) :=
  list_to_set (map (fun c => (w, owner, c)) l).

Definition installed (s : installationSpec) (c : Catalog.catalog) : database :=
  let w := WorkspaceID (result_ s) in let p := PrincipalID (result_ s) in let t := store_time (CreatedAt s) in
  Database
    (Catalog.set_applications (Catalog.add_workspace w c) {[(w, ApplicationID (result_ s))]})
    {[p := {| pr_kind := "service_account"; pr_state := "active"; pr_created := t; pr_updated := t |}]}
    {[(w, p) := {| me_state := "active"; me_from := t; me_until := None |}]}
    {[(w, p) := {| ac_display_name := "Initial operator"; ac_owner := None; ac_expires := None; ac_created := t |}]}
    {[(w, RoleID s) := {| ro_name := "Initial operator"; ro_created := t |}]}
    (capability_rows w (RoleID s) (Capabilities s))
    {[(w, BindingID s) := {| bi_principal := p; bi_role := RoleID s; bi_scope := "workspace"; bi_application := None;
                             bi_from := t; bi_until := None |}]}
    {[(w, TokenID (result_ s)) := installed_token s]}
    (capability_rows w (TokenID (result_ s)) (Capabilities s)) ∅ (Some (new_installation s)).

(** No principal, workspace or application: no row of any other table. *)
Lemma no_rows {K V} `{Countable K} (m : gmap K V) (P : K -> Prop) : (forall k v, m !! k = Some v -> P k) ->
  (forall k, ~ P k) -> m = ∅.
Proof. intros Hm Hp. apply map_empty. intros k. destruct (m !! k) eqn:E; [|done]. by destruct (Hp k (Hm _ _ E)). Qed.

Lemma no_values (m : gset (string * string * string)) (P : string * string -> Prop) :
  (forall w o c, (w, o, c) ∈ m -> P (w, o)) -> (forall k, ~ P k) -> m = ∅.
Proof. intros Hm Hp. apply set_eq. intros [[w o] c]. split; [|set_solver]. intros Hx. by destruct (Hp (w, o) (Hm _ _ _ Hx)). Qed.

Lemma empty_lookup {K V} `{Countable K} (m : gmap K V) : m = ∅ -> forall k, ~ is_Some (m !! k).
Proof. intros -> k. rewrite lookup_empty. by intros [? ?]. Qed.

Lemma empty_state d : integrity d -> state_exists d = false ->
  Catalog.workspaces (catalog_db d) = ∅ /\ Catalog.applications (catalog_db d) = ∅ /\ principals d = ∅ /\
  memberships d = ∅ /\ accounts d = ∅ /\ roles d = ∅ /\ role_capabilities d = ∅ /\ bindings d = ∅ /\
  tokens d = ∅ /\ token_capabilities d = ∅ /\ token_scopes d = ∅.
Proof.
  intros I He. unfold state_exists in He. apply orb_false_iff in He as [[Hw Hp]%orb_false_iff Ha].
  rewrite negb_false_iff, bool_decide_eq_true in Hw, Hp, Ha.
  assert (memberships d = ∅) as Hm.
  { apply (no_rows _ (fun k => is_Some (principals d !! snd k))); [intros [w p] r; apply (int_members d I)|].
    intros k. by apply empty_lookup. }
  assert (roles d = ∅) as Hr.
  { apply (no_rows _ (fun k => fst k ∈ Catalog.workspaces (catalog_db d))); [intros [w p] r; apply (int_roles d I)|].
    intros k. rewrite Hw. set_solver. }
  assert (tokens d = ∅) as Ht.
  { apply (no_rows _ (fun k => exists p, is_Some (memberships d !! (fst k, p)))).
    - intros [w id] r Hx. exists (tk_principal r). by apply (int_tokens d I w id).
    - intros k [p Hx]. by apply (empty_lookup _ Hm) in Hx. }
  split_and!; try done.
  - apply (no_rows _ (fun k => is_Some (memberships d !! k))); [apply (int_accounts d I)|by apply empty_lookup].
  - apply (no_values _ (fun k => is_Some (roles d !! k))); [apply (int_role_capabilities d I)|by apply empty_lookup].
  - apply (no_rows _ (fun k => exists p, is_Some (memberships d !! (fst k, p)))).
    + intros [w id] r Hx. exists (bi_principal r). by apply (int_bindings d I w id).
    + intros k [p Hx]. by apply (empty_lookup _ Hm) in Hx.
  - apply (no_values _ (fun k => is_Some (tokens d !! k))); [apply (int_token_capabilities d I)|by apply empty_lookup].
  - apply (no_values _ (fun k => is_Some (tokens d !! k))); [apply (int_token_scopes d I)|by apply empty_lookup].
Qed.

(** The procedures, statement by statement. *)
Lemma run_in_guarded {A} (b : bool) (e : error) (p : prog database error A) w a w' :
  run_in (if negb b then fail e else p) w = (Ok a, w') -> b = true /\ run_in p w = (Ok a, w').
Proof. by destruct b. Qed.

Lemma run_in_seq {A B} (p : prog database error A) (k : A -> prog database error B) w b w' :
  no_commit p -> (forall a, no_commit (k a)) -> run_in (bind p k) w = (Ok b, w') ->
  exists a w1, run_in p w = (Ok a, w1) /\ run_in (k a) w1 = (Ok b, w').
Proof. intros Hp Hk. rewrite run_in_bind by done. destruct (run_in p w) as [[a|e] w1]; [eauto|done]. Qed.

Lemma run_in_step {A} (e : error) (f : database -> option (A * database)) w a w' :
  run_in (statement e f) w = (Ok a, w') -> f w = Some (a, w').
Proof. rewrite run_in_statement. destruct (f w) as [[? ?]|]; [by intros [= -> ->]|done]. Qed.

Lemma statement_no_commit {A} (e : error) (f : database -> option (A * database)) : no_commit (statement e f).
Proof. repeat constructor. Qed.

Lemma principal_no_commit p : no_commit (CreateBootstrapPrincipal p).
Proof. unfold CreateBootstrapPrincipal. destruct (negb _); repeat constructor. Qed.
Lemma account_no_commit p : no_commit (CreateBootstrapServiceAccount p).
Proof. unfold CreateBootstrapServiceAccount. destruct (negb _); repeat constructor. Qed.
Lemma token_no_commit t : no_commit (CreateBootstrapToken t).
Proof.
  unfold CreateBootstrapToken. destruct (negb _); [constructor|].
  apply no_commit_bind; [apply statement_no_commit|intros []; apply for_each_no_commit].
Qed.
Lemma workspace_no_commit s : no_commit (CreateBootstrapWorkspace s).
Proof.
  unfold CreateBootstrapWorkspace. destruct (negb _); [constructor|].
  repeat (apply no_commit_bind; [apply statement_no_commit || apply for_each_no_commit|intros []]).
  apply statement_no_commit.
Qed.
Lemma application_no_commit w app t : no_commit (Catalog.CreateBootstrapApplication w app t).
Proof. unfold Catalog.CreateBootstrapApplication. destruct (_ || _); repeat constructor. Qed.
Lemma rotation_no_commit t : no_commit (RotateBootstrapToken t).
Proof.
  unfold RotateBootstrapToken. destruct (negb _); [constructor|].
  apply no_commit_bind; [apply statement_no_commit|intros []; apply token_no_commit].
Qed.

Lemma token_capabilities_added (e : error) w id l d u d' :
  run_in (for_each e (insert_token_capability w id) l) d = (Ok u, d') ->
  d' = set_token_capabilities (capability_rows w id l ∪ token_capabilities d) d.
Proof.
  apply (for_each_adds token_capabilities set_token_capabilities (fun c => (w, id, c))); try done; [by intros []|].
  intros c d0 [] d1. unfold insert_token_capability. destruct (_ && _ && _); [|done]. by intros [= <-].
Qed.

Lemma role_capabilities_added (e : error) w role l d u d' :
  run_in (for_each e (insert_role_capability w role) l) d = (Ok u, d') ->
  d' = set_role_capabilities (capability_rows w role l ∪ role_capabilities d) d.
Proof.
  apply (for_each_adds role_capabilities set_role_capabilities (fun c => (w, role, c))); try done; [by intros []|].
  intros c d0 [] d1. unfold insert_role_capability. destruct (_ && _ && _); [|done]. by intros [= <-].
Qed.

(** A token that was created: its row passed the checks of the table. *)
Lemma token_created t d u d' : run_in (CreateBootstrapToken t) d = (Ok u, d') ->
  validateToken t = true /\ check_token (bt_ID t) (new_token t) = true /\ tokens d !! (bt_WorkspaceID t, bt_ID t) = None /\
  (forall k r, tokens d !! k = Some r -> tk_prefix r <> bt_Prefix t) /\
  is_Some (memberships d !! (bt_WorkspaceID t, bt_PrincipalID t)) /\
  d' = set_token_capabilities (capability_rows (bt_WorkspaceID t) (bt_ID t) (bt_Capabilities t) ∪ token_capabilities d)
         (set_tokens (<[(bt_WorkspaceID t, bt_ID t) := new_token t]> (tokens d)) d).
Proof.
  intros Hr. apply run_in_guarded in Hr as [Hv Hr].
  apply run_in_seq in Hr as ([] & d1 & H1%run_in_step & H2%token_capabilities_added);
    [|apply statement_no_commit|intros []; apply for_each_no_commit].
  unfold insert_token in H1. destruct (_ && _ && _ && _) eqn:Ec; [|done]. injection H1 as <-.
  apply andb_true_iff in Ec as [[[Hc Hn]%andb_true_iff Hp]%andb_true_iff Hm]. split_and!; try done.
  - by destruct (tokens d !! _).
  - intros k r Hk Hx. rewrite forallb_forall in Hp. specialize (Hp (k, r)). simpl in Hp. rewrite Hx, String.eqb_refl in Hp.
    assert (negb true = true); [|done]. apply Hp. by apply list_elem_of_In, elem_of_map_to_list.
  - destruct (memberships d !! _); [eauto|done].
Qed.

Lemma run_seq {A B} (p : prog database error A) (k : A -> prog database error B) c w b x :
  no_commit p -> run (bind p k) (Session c w []) = (Ok b, x) ->
  exists a w1, run_in p w = (Ok a, w1) /\ run (k a) (Session c w1 []) = (Ok b, x).
Proof.
  intros Hp. rewrite run_bind, no_commit_run by done. destruct (run_in p w) as [[a|e] w1]; simpl; [eauto|done].
Qed.

Lemma workspace_created s d u d' : run_in (CreateBootstrapWorkspace s) d = (Ok u, d') ->
  memberships d = ∅ -> roles d = ∅ -> role_capabilities d = ∅ -> bindings d = ∅ ->
  let w := bw_WorkspaceID s in let t := store_time (bw_CreatedAt s) in
  validateBootstrap s = true /\
  d' = Database (Catalog.add_workspace w (catalog_db d)) (principals d)
         {[(w, bw_PrincipalID s) := {| me_state := "active"; me_from := t; me_until := None |}]} (accounts d)
         {[(w, bw_RoleID s) := {| ro_name := bw_RoleName s; ro_created := t |}]}
         (capability_rows w (bw_RoleID s) (bw_Capabilities s))
         {[(w, bw_BindingID s) := {| bi_principal := bw_PrincipalID s; bi_role := bw_RoleID s; bi_scope := "workspace";
                                     bi_application := None; bi_from := t; bi_until := None |}]}
         (tokens d) (token_capabilities d) (token_scopes d) (installation d).
Proof.
  intros Hr Hm Hro Hrc Hb w t. apply run_in_guarded in Hr as [Hv Hr]. split; [done|].
  apply run_in_seq in Hr as ([] & d1 & H1%run_in_step & Hr); [|apply statement_no_commit|].
  2:{ intros []. repeat (apply no_commit_bind; [apply statement_no_commit || apply for_each_no_commit|intros []]).
      apply statement_no_commit. }
  apply run_in_seq in Hr as ([] & d2 & H2%run_in_step & Hr); [|apply statement_no_commit|].
  2:{ intros []. repeat (apply no_commit_bind; [apply statement_no_commit || apply for_each_no_commit|intros []]).
      apply statement_no_commit. }
  apply run_in_seq in Hr as ([] & d3 & H3%run_in_step & Hr); [|apply statement_no_commit|].
  2:{ intros []. repeat (apply no_commit_bind; [apply statement_no_commit || apply for_each_no_commit|intros []]).
      apply statement_no_commit. }
  apply run_in_seq in Hr as ([] & d4 & H4%role_capabilities_added & H5%run_in_step);
    [|apply for_each_no_commit|intros []; apply statement_no_commit].
  unfold insert_workspace in H1. destruct (_ && _) in H1; [|done]. injection H1 as <-.
  unfold insert_membership in H2. destruct (_ && _) in H2; [|done]. injection H2 as <-.
  unfold insert_role in H3. destruct (_ && _) in H3; [|done]. injection H3 as <-. subst d4.
  unfold insert_binding in H5. destruct (_ && _) in H5; [|done]. injection H5 as _ <-.
  apply database_eq; cbn -[capability_rows union insert]; try done.
  - by rewrite Hm, insert_empty.
  - by rewrite Hro, insert_empty.
  - by rewrite Hrc, (right_id_L ∅ (∪)).
  - by rewrite Hb, insert_empty.
Qed.

(** What a successful installation wrote. *)
Lemma Initialize_ok s d u d' : integrity d -> exec (Initialize s) d = (Ok u, d') ->
  valid_principal (principal_spec s) = true /\ validateBootstrap (workspace_spec s) = true /\
  validOpaqueID (ApplicationID (result_ s)) = true /\ validateToken (token_spec s) = true /\
  check_token (TokenID (result_ s)) (installed_token s) = true /\
  d' = installed s (catalog_db d).
Proof.
  intros I Hx. unfold exec, run_on, Initialize in Hx. rewrite run_begin in Hx.
  destruct (run _ _) as [r x] eqn:Hrun in Hx. injection Hx as -> <-.
  apply run_seq in Hrun as (found & d0 & [= <- <-] & Hrun); [|repeat constructor]. cbn [fst snd] in Hrun.
  destruct (installation_exists d) eqn:Ei; [done|]. destruct (state_exists d) eqn:Es; [done|].
  destruct (empty_state d I Es) as (Hw & Ha & Hp & Hm & Hac & Hr & Hrc & Hb & Ht & Htc & Hts).
  apply run_seq in Hrun as ([] & d1 & H1 & Hrun); [|apply principal_no_commit].
  apply run_seq in Hrun as ([] & d2 & H2 & Hrun); [|apply workspace_no_commit].
  apply run_seq in Hrun as ([] & d3 & H3 & Hrun); [|apply account_no_commit].
  apply run_seq in Hrun as ([] & d4 & H4 & Hrun); [|apply zoom_no_commit, application_no_commit].
  apply run_seq in Hrun as ([] & d5 & H5 & Hrun); [|apply token_no_commit].
  apply run_seq in Hrun as ([] & d6 & H6%run_in_step & Hrun); [|apply statement_no_commit].
  injection Hrun as _ <-. cbn [committed].
  apply run_in_guarded in H1 as [Hv1 H1%run_in_step]. unfold insert_principal in H1.
  destruct (_ && _) in H1; [|done]. injection H1 as <-.
  apply workspace_created in H2 as [Hv2 ->]; [|by rewrite ?Hm, ?Hr, ?Hrc, ?Hb..].
  apply run_in_guarded in H3 as [Hv3 H3%run_in_step]. unfold insert_account in H3.
  destruct (_ && _) in H3; [|done]. injection H3 as <-.
  rewrite run_in_zoom in H4. unfold Catalog.CreateBootstrapApplication in H4. destruct (_ || _) eqn:Ev4 in H4; [done|].
  rewrite run_in_statement in H4. unfold Catalog.insert_application in H4. destruct (_ && _) in H4; [|done].
  injection H4 as <-. apply token_created in H5 as (Hv5 & Hc5 & _ & _ & _ & ->).
  unfold insert_installation in H6. destruct (_ && _) in H6; [|done]. injection H6 as <-.
  split_and!; try done.
  - simp_bool. done.
  - apply database_eq; cbn -[capability_rows union insert]; try done.
    + by rewrite Ha, (right_id_L ∅ (∪)).
    + by rewrite Hp, insert_empty.
    + by rewrite Hac, insert_empty.
    + by rewrite Ht, insert_empty.
    + by rewrite Htc, (right_id_L ∅ (∪)).
Qed.

(** ** What the queries see *)

Lemma has_elements (X : gset (string * string * string)) w o v : Authorization.has (elements X) w o v = true <-> (w, o, v) ∈ X.
Proof.
  unfold Authorization.has. rewrite Authorization.existsb_exists_elem. split.
  - intros ([[w' o'] v'] & Hx & Hb). simpl in Hb. simp_bool. subst. by apply elem_of_elements in Hx.
  - intros Hx. exists (w, o, v). split; [by apply elem_of_elements|]. simpl. by rewrite !String.eqb_refl.
Qed.

Lemma capability_rows_spec w o l c : (w, o, c) ∈ capability_rows w o l <-> c ∈ l.
Proof. unfold capability_rows. rewrite elem_of_list_to_set, list_elem_of_In, in_map_iff, list_elem_of_In. naive_solver. Qed.

Lemma capability_rows_owner w o w' o' l c : (w', o', c) ∈ capability_rows w o l -> w' = w /\ o' = o.
Proof. unfold capability_rows. rewrite elem_of_list_to_set, list_elem_of_In, in_map_iff. naive_solver. Qed.

Lemma tokens_view d t : t ∈ Authorization.tokens (identity_of d) <->
  exists k r, tokens d !! k = Some r /\ t = view_token (k, r).
Proof.
  simpl. rewrite list_elem_of_In, in_map_iff. split.
  - intros ([k r] & <- & Hx). exists k, r. split; [|done]. by apply elem_of_map_to_list, list_elem_of_In.
  - intros (k & r & Hk & ->). exists (k, r). split; [done|]. by apply list_elem_of_In, elem_of_map_to_list.
Qed.

(** A token is found by its prefix, which is unique. *)
Lemma prefix_found d k r : integrity d -> tokens d !! k = Some r ->
  Authentication.find_prefix (tk_prefix r) (identity_of d) = Some (view_token (k, r)).
Proof.
  intros I Hk. destruct (Authentication.find_prefix _ _) as [t|] eqn:Ef.
  - apply Authentication.find_prefix_spec in Ef as [Ht Hp]. apply tokens_view in Ht as (k' & r' & Hk' & ->).
    simpl in Hp. assert (k' = k) as -> by (by eapply (int_prefixes d I)). congruence.
  - unfold Authentication.find_prefix in Ef. apply (find_none _ _) with (x := view_token (k, r)) in Ef.
    + simpl in Ef. by rewrite String.eqb_refl in Ef.
    + apply list_elem_of_In, tokens_view. eauto.
Qed.

Lemma countb_unique {A} (f : A -> bool) l x : NoDup l -> x ∈ l -> f x = true ->
  (forall y, y ∈ l -> f y = true -> y = x) -> countb f l = 1.
Proof.
  intros Hnd (l1 & l2 & ->)%list_elem_of_split Hf Hu. unfold countb.
  apply NoDup_app in Hnd as (_ & Hd & [Hx _]%NoDup_cons).
  assert (forall l, (forall y, y ∈ l -> f y = true -> False) -> List.filter f l = []) as Hn.
  { induction l as [|y l IH]; intros Hl; [done|]. simpl. destruct (f y) eqn:E; [destruct (Hl y); set_solver|].
    apply IH. intros z Hz. apply Hl. set_solver. }
  rewrite List.filter_app. simpl. rewrite Hf, (Hn l1), (Hn l2); [done|..]; intros y Hy Ey.
  - assert (y = x) as -> by (apply Hu; [set_solver|done]). done.
  - assert (y = x) as -> by (apply Hu; [set_solver|done]). by destruct (Hd x Hy); left.
Qed.

#[local] Instance view_token_inj : Inj (=) (=) view_token.
Proof. intros [[w i] []] [[w' i'] []]. unfold view_token. simpl. by intros [= -> -> -> -> -> -> -> -> -> -> ->]. Qed.

(** At any moment of its life a stored token is the one row that its use
    updates. *)
Lemma token_usable d k r t : tokens d !! k = Some r -> tk_created r <= t < tk_expires r -> tk_revoked r = None ->
  countb (Authentication.usable (Authentication.token_record (view_token (k, r))) t) (Authorization.tokens (identity_of d)) = 1.
Proof.
  intros Hk Ht Hr. apply countb_unique with (x := view_token (k, r)).
  - apply (NoDup_fmap_2 view_token), NoDup_map_to_list.
  - apply tokens_view. eauto.
  - unfold Authentication.usable. simpl. rewrite !String.eqb_refl, Hr. simpl. apply andb_true_iff. split; [|done].
    apply andb_true_iff. split; [apply Z.leb_le|apply Z.ltb_lt]; lia.
  - intros y Hy Hu. apply tokens_view in Hy as ([w i] & r' & Hk' & ->). unfold Authentication.usable in Hu. simpl in Hu. simp_bool.
    destruct k as [w' i']. simpl in *. subst. congruence.
Qed.

(** The plaintext of a generated token authenticates while its row is live. *)
Lemma stored_token_authenticates svc random g d k r now : integrity d -> Authentication.fills random ->
  Authentication.Generate svc random = Ok g ->
  is_Some (Authentication.keys svc !! Authentication.activeKeyID svc) -> tokens d !! k = Some r ->
  tk_prefix r = Authentication.Prefix g -> tk_verifier r = Authentication.Verifier g ->
  tk_key r = Authentication.VerifierKeyID g -> fst k <> "" -> snd k <> "" -> tk_principal r <> "" ->
  tk_created r <= Authorization.Truncate now Microsecond < tk_expires r -> tk_revoked r = None ->
  0 < Authorization.Truncate now Microsecond ->
  fst (exec (Authentication.Authenticate svc now (Authentication.Plaintext g)) (identity_of d)) =
  Ok {| Authentication.s_TokenID := snd k; Authentication.s_PrincipalID := tk_principal r;
        Authentication.s_WorkspaceID := fst k |}.
Proof.
  intros I Hf Hg Hkey Hk Hp Hv Hid H1 H2 H3 Ht Hr Hpos.
  rewrite (Authentication.generated_token_authenticates svc random g (identity_of d) (view_token (k, r)) now); try done.
  - rewrite <- Hp. by apply prefix_found.
  - by apply token_usable.
Qed.

Lemma installed_integrity s c : check_token (TokenID (result_ s)) (installed_token s) = true -> integrity (installed s c).
Proof.
  intros Hc. split; cbn -[capability_rows union]; try set_solver.
  - intros w p r [[= <- <-] _]%lookup_singleton_Some. rewrite lookup_singleton_eq. eauto.
  - intros k r [<- _]%lookup_singleton_Some. rewrite lookup_singleton_eq. eauto.
  - intros w id r [[= <- <-] _]%lookup_singleton_Some. set_solver.
  - intros w role x [-> ->]%capability_rows_owner. rewrite lookup_singleton_eq. eauto.
  - intros w id r [[= <- <-] <-]%lookup_singleton_Some. simpl. rewrite lookup_singleton_eq. eauto.
  - intros w id r [[= <- <-] <-]%lookup_singleton_Some. simpl. rewrite lookup_singleton_eq. eauto.
  - intros k k' r r' [<- _]%lookup_singleton_Some [<- _]%lookup_singleton_Some. done.
  - intros k r [<- <-]%lookup_singleton_Some. exact Hc.
  - intros w id x [-> ->]%capability_rows_owner. rewrite lookup_singleton_eq. eauto.
Qed.

(** The identity tables of a fresh installation. *)
Definition operator (s : installationSpec) : Authorization.principal := {|
  Authorization.p_id := PrincipalID (result_ s); Authorization.p_kind := "service_account"; Authorization.p_state := "active" |}.

(** Exactly the requests of the operator, in its workspace, for the initial
    capabilities. *)
Definition operator_request (s : installationSpec) (r : Authorization.Request) (t : time) : Prop :=
  Authorization.PrincipalID r = PrincipalID (result_ s) /\ Authorization.WorkspaceID r = WorkspaceID (result_ s) /\
  Authorization.Capability r ∈ Capabilities s /\
  (Authorization.ApplicationID r = "" \/ Authorization.ApplicationID r = ApplicationID (result_ s)) /\
  store_time (CreatedAt s) <= t /\
  (Authorization.TokenID r = "" \/
   Authorization.TokenID r = TokenID (result_ s) /\ t < store_time (TokenExpires (result_ s))).

Lemma installed_allows s c r t :
  (exists p m, p ∈ Authorization.principals (identity_of (installed s c)) /\
               m ∈ Authorization.memberships (identity_of (installed s c)) /\
               Authorization.member_allowed (identity_of (installed s c)) r t p m) <->
  operator_request s r t.
Proof.
  unfold identity_of, installed. cbn -[capability_rows union elements]. rewrite !map_to_list_singleton, elements_singleton.
  unfold Authorization.member_allowed, Authorization.role_allows, Authorization.token_allows, Authorization.application_known,
    Authorization.account_live. cbn -[capability_rows union elements]. unfold operator_request.
  setoid_rewrite list_elem_of_singleton. setoid_rewrite has_elements. split.
  - intros (p & m & -> & -> & Hp & _ & _ & Hw & _ & Hfrom & _ & Happ & _ & (b & -> & _ & _ & Hcap & _) & Htok).
    cbn in Hp, Hw, Hfrom, Hcap. rewrite <- Hw in Hcap. apply capability_rows_spec in Hcap.
    split_and!; try done.
    + destruct (decide (Authorization.ApplicationID r = "")); [by left|right].
      rewrite !orb_true_iff, andb_true_iff, !String.eqb_eq in Happ. naive_solver.
    + destruct (decide (Authorization.TokenID r = "")) as [|Hn]; [by left|right].
      destruct (Htok Hn) as (x & -> & _ & _ & Hid & _ & [_ Hlt] & _). done.
  - intros (Hp & Hw & Hcap & Happ & Hfrom & Htok). eexists _, _. do 2 (split; [done|]). cbn -[capability_rows].
    rewrite Hp, Hw, !String.eqb_refl. cbn -[capability_rows]. split_and!; try done.
    + destruct Happ as [->| ->]; [done|]. rewrite String.eqb_refl. by destruct (String.eqb _ "").
    + eexists. split; [done|]. cbn -[capability_rows]. split_and!; try done; [by apply capability_rows_spec|by left].
    + intros Hn. destruct Htok as [Htok|[-> Hlt]]; [by destruct Hn|]. eexists. split; [done|]. cbn -[capability_rows].
      split_and!; try done; [by apply capability_rows_spec|by left].
Qed.

(** ** Initialization *)

Lemma opaque_nonempty id : validOpaqueID id = true -> id <> "".
Proof. by intros H ->. Qed.

Lemma token_ids t : validateToken t = true ->
  validOpaqueID (bt_ID t) = true /\ validOpaqueID (bt_PrincipalID t) = true /\ validOpaqueID (bt_WorkspaceID t) = true.
Proof. unfold validateToken. intros Hv. by simp_bool. Qed.

Lemma bootstrap_timestamp_multiple e : timestamp e mod Microsecond = 0.
Proof. unfold timestamp, Authorization.Truncate. by rewrite Zminus_mod, Z.mod_mod, Z.sub_diag by done. Qed.

Lemma truncate_mono t t' : t <= t' -> Authorization.Truncate t Microsecond <= Authorization.Truncate t' Microsecond.
Proof.
  unfold Authorization.Truncate, Microsecond. intros Ht.
  pose proof (Z.div_mod t 1000 ltac:(done)). pose proof (Z.div_mod t' 1000 ltac:(done)).
  pose proof (Z.div_le_mono t t' 1000 ltac:(done) Ht). lia.
Qed.

Lemma installation_spec_ok c e s : installation_spec c e = Ok s ->
  CreatedAt s = timestamp e /\ Capabilities s = initialCapabilities /\
  TokenExpires (result_ s) = timestamp e + TokenTTL c /\
  exists g, generated e = Ok g /\ Token (result_ s) = Authentication.Plaintext g /\
    TokenPrefix s = Authentication.Prefix g /\ Verifier s = Authentication.Verifier g /\
    KeyID s = Authentication.VerifierKeyID g.
Proof.
  unfold installation_spec, Generate. do 6 (destruct (identifier e _ _); [|done]).
  destruct (generated e) as [g|]; [|done]. simpl. intros [= <-]. simpl. split_and!; try done. by exists g.
Qed.

Lemma ServiceInitialize_ok c e d fs out d' : integrity d -> run_on (ServiceInitialize c e) d fs = (Ok out, d') ->
  exists s, installation_spec c e = Ok s /\ out = result_ s /\
    valid_principal (principal_spec s) = true /\ validateBootstrap (workspace_spec s) = true /\
    validOpaqueID (ApplicationID (result_ s)) = true /\ validateToken (token_spec s) = true /\
    check_token (TokenID (result_ s)) (installed_token s) = true /\ d' = installed s (catalog_db d).
Proof.
  intros I Hx%run_on_ok. unfold ServiceInitialize in Hx. destruct (installation_spec c e) as [s|] eqn:Es; [|done].
  exists s. split; [done|]. unfold exec, run_on in Hx. rewrite run_bind in Hx.
  destruct (run (Initialize s) _) as [[[]|x] w] eqn:Er; [|done]. injection Hx as <- <-. split; [done|].
  eapply Initialize_ok; [done|]. unfold exec, run_on. by rewrite Er.
Qed.

(** The plaintext an initialization hands out authenticates. *)
Lemma initialized_authenticates c svc rnd e d fs out d' t :
  integrity d -> Microsecond <= now e -> Authentication.fills rnd -> generated e = Authentication.Generate svc rnd ->
  is_Some (Authentication.keys svc !! Authentication.activeKeyID svc) ->
  run_on (ServiceInitialize c e) d fs = (Ok out, d') ->
  timestamp e <= Authorization.Truncate t Microsecond < store_time (TokenExpires out) ->
  fst (exec (Authentication.Authenticate svc t (Token out)) (identity_of d')) =
  Ok {| Authentication.s_TokenID := TokenID out; Authentication.s_PrincipalID := PrincipalID out;
        Authentication.s_WorkspaceID := WorkspaceID out |}.
Proof.
  intros I Hnow Hfill Hgen Hkey Hx Ht.
  apply ServiceInitialize_ok in Hx as (s & Hs & -> & Hv1 & Hv2 & Happ & Hv5 & Hck & ->); [|done].
  apply installation_spec_ok in Hs as (Hat & Hcaps & Hexp & g & Hg & Htok & Hpre & Hver & Hkid).
  rewrite Hgen in Hg. pose proof (bootstrap_timestamp_multiple e) as Hmul. pose proof (truncate_mono _ _ Hnow) as Hpos.
  change (Authorization.Truncate Microsecond Microsecond) with Microsecond in Hpos. fold (timestamp e) in Hpos.
  assert (store_time (CreatedAt s) = timestamp e) as Hst by (by rewrite Hat; apply store_time_exact).
  destruct (token_ids _ Hv5) as (Hi1 & Hi2 & Hi3). cbn in Hi1, Hi2, Hi3. rewrite Htok.
  refine (stored_token_authenticates svc rnd g _ (WorkspaceID (result_ s), TokenID (result_ s)) (installed_token s) t
            (installed_integrity s _ Hck) Hfill Hg Hkey _ Hpre Hver Hkid _ _ _ _ eq_refl _); simpl;
    try (by apply opaque_nonempty).
  - apply lookup_singleton_eq.
  - by rewrite Hst.
  - unfold Microsecond in *. lia.
Qed.

(** C19.  The bootstrap installs one operator and nothing else: after a successful
    initialization exactly the initial operator is authorized, in its own
    workspace, for the workspace or the initial application, for the five
    initial capabilities, from the creation on and, when the token is named,
    until it expires; no other request is allowed, whatever it names.  The
    plaintext that was handed out authenticates as the operator for the same
    time. *)
Theorem initialize_grants c svc rnd e d fs out d' :
  integrity d -> Microsecond <= now e -> Authentication.fills rnd -> generated e = Authentication.Generate svc rnd ->
  is_Some (Authentication.keys svc !! Authentication.activeKeyID svc) ->
  run_on (ServiceInitialize c e) d fs = (Ok out, d') ->
  (forall t r, let at_ := Authorization.Truncate t Microsecond in
     Authorization.Authorize (store := Authorization.postgres_store (identity_of d') false) t r = Ok tt <->
     Authorization.PrincipalID r = PrincipalID out /\ Authorization.WorkspaceID r = WorkspaceID out /\
     Authorization.Capability r ∈ initialCapabilities /\
     (Authorization.ApplicationID r = "" \/ Authorization.ApplicationID r = ApplicationID out) /\
     timestamp e <= at_ /\
     (Authorization.TokenID r = "" \/ Authorization.TokenID r = TokenID out /\ at_ < store_time (TokenExpires out))) /\
  (forall t, timestamp e <= Authorization.Truncate t Microsecond < store_time (TokenExpires out) ->
     fst (exec (Authentication.Authenticate svc t (Token out)) (identity_of d')) =
     Ok {| Authentication.s_TokenID := TokenID out; Authentication.s_PrincipalID := PrincipalID out;
           Authentication.s_WorkspaceID := WorkspaceID out |}).
Proof.
  intros I Hnow Hfill Hgen Hkey Hx. pose proof Hx as Hx'.
  apply ServiceInitialize_ok in Hx as (s & Hs & -> & Hv1 & Hv2 & Happ & Hv5 & Hck & ->); [|done].
  apply installation_spec_ok in Hs as (Hat & Hcaps & Hexp & g & Hg & Htok & Hpre & Hver & Hkid).
  rewrite Hgen in Hg. pose proof (bootstrap_timestamp_multiple e) as Hmul. pose proof (truncate_mono _ _ Hnow) as Hpos.
  change (Authorization.Truncate Microsecond Microsecond) with Microsecond in Hpos. fold (timestamp e) in Hpos.
  assert (store_time (CreatedAt s) = timestamp e) as Hst by (by rewrite Hat; apply store_time_exact).
  destruct (token_ids _ Hv5) as (Hi1 & Hi2 & Hi3). cbn in Hi1, Hi2, Hi3. split.
  - intros t r. cbv zeta. rewrite Authorization.Authorize_ok, Authorization.query_allowed_spec. cbn -[identity_of].
    rewrite installed_allows. unfold operator_request. rewrite Hst, Hcaps. split; [naive_solver|].
    intros (Hp & Hw & Hc & Ha & Ht & Hk). split_and!; try done; [|unfold Microsecond in *; lia].
    unfold Authorization.validateRequest. rewrite Hp, Hw, Hi2, Hi3.
    assert (Authorization.capabilityPattern (Authorization.Capability r) = true) as ->.
    { revert Hc. unfold initialCapabilities. rewrite !elem_of_cons. intros Hc. by destruct_or! Hc; [rewrite Hc..|set_solver]. }
    destruct Ha as [->| ->], Hk as [->|[-> _]]; rewrite ?Happ, ?Hi1, ?orb_true_r; done.
  - intros t. by eapply initialized_authenticates.
Qed.

(** ** One transaction, which answers once it has committed *)

Inductive settles {A} : prog database error A -> Prop :=
| settles_ret r : settles (Ret r)
| settles_stmt B e f (k : B -> prog database error A) : (forall b, settles (k b)) -> settles (Stmt e f k)
| settles_commit e a : settles (Commit e (Ret (Ok a))).

Lemma settles_bind {A B} (p : prog database error A) (k : A -> prog database error B) :
  no_commit p -> (forall a, settles (k a)) -> settles (bind p k).
Proof. intros Hp Hk. induction Hp as [[a|x]|]; simpl; [auto|constructor|constructor; auto]. Qed.

Lemma settles_done {A B} (p : prog database error A) (g : A -> B) : settles p -> settles (bind p (fun a => done_with (g a))).
Proof. induction 1 as [[a|x]|X x f k Hk IH|x a]; simpl; constructor; auto. Qed.

Lemma settles_run {A} (p : prog database error A) c w fs : settles p -> let out := run p (Session c w fs) in
  committed (snd out) = c \/ exists a, run p (Session c w []) = (Ok a, Session (committed (snd out)) (committed (snd out)) []).
Proof.
  intros Hp. revert w fs. induction Hp as [r|X e f k Hk IH|e a]; intros w fs; simpl; [by left|..];
    unfold next_fault, tick; simpl; destruct (match fs with [] => Healthy | x :: _ => x end); simpl; eauto.
  destruct (f w) as [[b w']|]; [apply IH|by left].
Qed.

(** Nothing happened, or the call went through as on a healthy connection. *)
Lemma transaction_outcome {A} (p : prog database error A) e k d fs : p = Begin e k -> settles k ->
  snd (run_on p d fs) = d \/ exists a, exec p d = (Ok a, snd (run_on p d fs)).
Proof.
  intros -> Hk. unfold exec, run_on. simpl. unfold next_fault, tick. simpl.
  destruct (match fs with [] => Healthy | x :: _ => x end); simpl; [|by left..].
  destruct (settles_run k d d (tail fs) Hk) as [H|[a H]].
  - left. destruct (run k _). done.
  - right. exists a. rewrite H. simpl. destruct (run k (Session d d (tail fs))). done.
Qed.

Ltac settle := repeat first
  [ apply settles_commit | apply settles_bind; [|intros []]
  | apply statement_no_commit | apply principal_no_commit | apply workspace_no_commit | apply account_no_commit
  | apply token_no_commit | apply rotation_no_commit | apply zoom_no_commit, application_no_commit | constructor ].

Lemma Initialize_transaction s : exists e k, Initialize s = Begin e k /\ settles k.
Proof.
  unfold Initialize. eexists _, _. split; [reflexivity|].
  apply settles_bind; [repeat constructor|]. intros [[] []]; [constructor..|]. settle.
Qed.

Lemma RotateToken_transaction clock s : exists e k, RotateToken clock s = Begin e k /\ settles k.
Proof.
  unfold RotateToken. eexists _, _. split; [reflexivity|].
  apply settles_bind; [repeat constructor|]. intros [i|]; [|constructor]. destruct clock; [|constructor]. settle.
Qed.

(** ** Rotation *)

(** What happens to the tokens that are there. *)
Definition rotated_row (t : BootstrapToken) (k : string * string) (r : token_row) : token_row :=
  if revocable (bt_WorkspaceID t) (bt_PrincipalID t) k r then revoke (store_time (bt_CreatedAt t)) r else r.

Definition rotated_tokens (t : BootstrapToken) (d : database) : gmap (string * string) token_row :=
  <[(bt_WorkspaceID t, bt_ID t) := new_token t]> (map_imap (fun k r => Some (rotated_row t k r)) (tokens d)).

Definition rotated (t : BootstrapToken) (d : database) : database :=
  set_token_capabilities (capability_rows (bt_WorkspaceID t) (bt_ID t) (bt_Capabilities t) ∪ token_capabilities d)
    (set_tokens (rotated_tokens t d) d).

Record may_rotate (t : BootstrapToken) (d : database) : Prop := {
  mr_valid : validateToken t = true;
  mr_row : check_token (bt_ID t) (new_token t) = true;
  mr_fresh : tokens d !! (bt_WorkspaceID t, bt_ID t) = None;
  mr_prefix k r : tokens d !! k = Some r -> tk_prefix r <> bt_Prefix t;
  mr_rows k r : tokens d !! k = Some r -> check_token (snd k) r = true -> check_token (snd k) (rotated_row t k r) = true;
  mr_member : is_Some (memberships d !! (bt_WorkspaceID t, bt_PrincipalID t))
}.

Lemma revoked_lookup t d k : (map_imap (fun k r => Some (rotated_row t k r)) (tokens d)) !! k =
  rotated_row t k <$> tokens d !! k.
Proof. rewrite map_lookup_imap. by destruct (tokens d !! k). Qed.

Lemma rotated_prefix t k r : tk_prefix (rotated_row t k r) = tk_prefix r.
Proof. unfold rotated_row. by destruct (revocable _ _ _ _). Qed.
Lemma rotated_principal t k r : tk_principal (rotated_row t k r) = tk_principal r.
Proof. unfold rotated_row. by destruct (revocable _ _ _ _). Qed.

Lemma token_rotated t d u d' : run_in (RotateBootstrapToken t) d = (Ok u, d') -> may_rotate t d /\ d' = rotated t d.
Proof.
  intros Hr. apply run_in_guarded in Hr as [Hv Hr].
  apply run_in_seq in Hr as ([] & d1 & H1%run_in_step & H2); [|apply statement_no_commit|intros []; apply token_no_commit].
  apply token_created in H2 as (_ & Hck & Hn & Hp & Hm & ->). unfold revoke_tokens in H1.
  destruct (forallb _ _) eqn:Hf; [|done].
  assert (d1 = set_tokens (map_imap (fun k r => Some (rotated_row t k r)) (tokens d)) d) as -> by (by injection H1 as <-).
  split; [|done]. simpl in Hn, Hp, Hm.
  rewrite revoked_lookup, fmap_None in Hn. split; try done.
  - intros k r Hk. rewrite <- (rotated_prefix t k r). apply (Hp k). by rewrite revoked_lookup, Hk.
  - intros k r Hk Hc. rewrite forallb_forall in Hf. unfold rotated_row.
    specialize (Hf (k, r) (proj1 (list_elem_of_In _ _) (proj2 (elem_of_map_to_list _ _ _) Hk))). simpl in Hf.
    by destruct (revocable _ _ _ _).
Qed.

Lemma RotateToken_ok clock s d out d' : exec (RotateToken clock s) d = (Ok out, d') ->
  exists i t, installation d = Some i /\ clock = Some t /\ may_rotate (rotation_token s i t) d /\
    d' = rotated (rotation_token s i t) d /\
    out = {| WorkspaceID := in_workspace i; ApplicationID := in_application i; PrincipalID := in_principal i;
             TokenID := ro_TokenID s; Token := ro_Token s;
             TokenExpires := t + Worker.Sub (ro_TokenExpires s) (ro_CreatedAt s) |}.
Proof.
  intros Hx. unfold exec, run_on, RotateToken in Hx. rewrite run_begin in Hx.
  destruct (run _ _) as [r x] eqn:Hrun in Hx. injection Hx as -> <-.
  apply run_seq in Hrun as (row & d0 & [= <- <-] & Hrun); [|repeat constructor].
  destruct (installation d) as [i|]; [|done]. destruct clock as [t|]; [|done].
  apply run_seq in Hrun as ([] & d1 & [Hm ->]%token_rotated & Hrun); [|apply rotation_no_commit].
  injection Hrun as <- <-. by exists i, t.
Qed.

Lemma rotated_integrity t d : integrity d -> may_rotate t d -> integrity (rotated t d).
Proof.
  intros I [Hv Hck Hn Hp Hrow Hm].
  assert (forall k r, rotated_tokens t d !! k = Some r ->
    (k = (bt_WorkspaceID t, bt_ID t) /\ r = new_token t) \/
    (exists r0, tokens d !! k = Some r0 /\ r = rotated_row t k r0)) as Hlook.
  { intros k r. unfold rotated_tokens.
    rewrite lookup_insert_Some, revoked_lookup, fmap_Some. naive_solver. }
  assert (forall k, is_Some (tokens d !! k) -> is_Some (rotated_tokens t d !! k)) as Hkeep.
  { intros k [r Hk]. unfold rotated_tokens.
    destruct (decide ((bt_WorkspaceID t, bt_ID t) = k)) as [<-|]; [rewrite lookup_insert_eq; eauto|].
    rewrite lookup_insert_ne, revoked_lookup, Hk by done. eauto. }
  split; cbn -[rotated_tokens capability_rows union]; try apply I.
  - intros w id r [[[= -> ->] ->]|(r0 & Hr & ->)]%Hlook; [done|]. rewrite rotated_principal. by apply (int_tokens d I w id).
  - intros k k' r r' [[-> ->]|(r0 & Hr & ->)]%Hlook [[-> ->]|(r0' & Hr' & ->)]%Hlook; rewrite ?rotated_prefix; try done.
    + intros Hx. by destruct (Hp _ _ Hr').
    + intros Hx. by destruct (Hp _ _ Hr).
    + by apply (int_prefixes d I).
  - intros k r [[-> ->]|(r0 & Hr & ->)]%Hlook; [done|]. apply (Hrow _ _ Hr), (int_token_rows d I _ _ Hr).
  - intros w id c [[-> ->]%capability_rows_owner|Hx]%elem_of_union; [|apply Hkeep; by eapply (int_token_capabilities d I)].
    unfold rotated_tokens. rewrite lookup_insert_eq. eauto.
  - intros w id c Hx. apply Hkeep. by eapply (int_token_scopes d I).
Qed.

(** ** Histories *)

(** The calls that reach these tables: those of the bootstrap service, and the
    catalog's. *)
Inductive operation :=
| CallInitialize (c : Config) (e : call)
| CallRotate (c : Config) (clock : option time) (e : call)
| CallCatalog (op : Catalog.operation).

Definition perform (op : operation) (fs : list fault) (d : database) : database :=
  match op with
  | CallInitialize c e => snd (run_on (ServiceInitialize c e) d fs)
  | CallRotate c clock e => snd (run_on (ServiceRotateToken c clock e) d fs)
  | CallCatalog op => set_catalog (Catalog.perform op fs (catalog_db d)) d
  end.

Definition history : Type := list (operation * list fault).
Definition replay (h : history) (d : database) : database := foldl (fun d op => perform (fst op) (snd op) d) d h.

(** Everything but the tokens and the catalog is as it was. *)
Record same_operator (d d' : database) : Prop := {
  so_principals : principals d' = principals d;
  so_memberships : memberships d' = memberships d;
  so_accounts : accounts d' = accounts d;
  so_roles : roles d' = roles d;
  so_role_capabilities : role_capabilities d' = role_capabilities d;
  so_bindings : bindings d' = bindings d;
  so_installation : installation d' = installation d
}.

#[local] Instance same_operator_preorder : PreOrder same_operator.
Proof. split; [by intros d; split|]. intros a b c [] []. split; congruence. Qed.

Lemma ServiceInitialize_outcome c e d fs : snd (run_on (ServiceInitialize c e) d fs) = d \/
  exists out, exec (ServiceInitialize c e) d = (Ok out, snd (run_on (ServiceInitialize c e) d fs)).
Proof.
  unfold ServiceInitialize. destruct (installation_spec c e) as [s|]; [|by left].
  destruct (Initialize_transaction s) as (x & k & Ek & Hk).
  apply (transaction_outcome _ x (bind k (fun _ => done_with (result_ s)))); [by rewrite Ek|by apply settles_done].
Qed.

Lemma initialize_refused c e d fs : installation_exists d = true ->
  snd (run_on (ServiceInitialize c e) d fs) = d /\
  forall s, installation_spec c e = Ok s -> exec (ServiceInitialize c e) d = (Err ErrAlreadyInitialized, d).
Proof.
  intros Hi. assert (forall s, installation_spec c e = Ok s ->
    exec (ServiceInitialize c e) d = (Err ErrAlreadyInitialized, d)) as Hx.
  { intros s Hs. unfold ServiceInitialize. rewrite Hs. unfold exec, run_on, Initialize. simpl. by rewrite Hi. }
  split; [|done]. destruct (ServiceInitialize_outcome c e d fs) as [Ho|[out Ho]]; [done|].
  destruct (installation_spec c e) as [s|] eqn:Es; [by rewrite (Hx s) in Ho|]. unfold ServiceInitialize. by rewrite Es.
Qed.

Lemma bootstrap_perform_step op fs d : integrity d -> integrity (perform op fs d) /\
  (installation_exists d = true -> same_operator d (perform op fs d)).
Proof.
  intros I. destruct op as [c e|c clock e|op]; simpl.
  - split; [|intros Hi; by rewrite (proj1 (initialize_refused c e d fs Hi))].
    destruct (ServiceInitialize_outcome c e d fs) as [->|[out Ho]]; [done|].
    apply (ServiceInitialize_ok _ _ _ []) in Ho as (s & _ & _ & _ & _ & _ & _ & Hck & ->); [|done]. by apply installed_integrity.
  - unfold ServiceRotateToken. destruct (rotation_spec c e) as [s|]; [|by split].
    destruct (RotateToken_transaction clock s) as (y & k & Ek & Hk).
    destruct (transaction_outcome _ y k d fs Ek Hk) as [->|[a Hs]]; [by split|].
    apply RotateToken_ok in Hs as (i & t & _ & _ & Hm & -> & _). split; [by apply rotated_integrity|by split].
  - split; [|by split]. destruct I. split; simpl; try done.
    intros w id r Hr. apply (Catalog.g_workspaces _ _ (proj2 (Catalog.perform_step op fs (catalog_db d)))). eauto.
Qed.

Lemma bootstrap_replay_step (h : history) d : integrity d -> integrity (replay h d) /\
  (installation_exists d = true -> same_operator d (replay h d)).
Proof.
  revert d. induction h as [|[op fs] h IH]; intros d I; simpl; [by split|].
  destruct (bootstrap_perform_step op fs d I) as [I1 H1]. destruct (IH _ I1) as [I2 H2]. split; [done|]. intros Hi.
  etrans; [by apply H1|]. apply H2. unfold installation_exists in *. by rewrite (so_installation _ _ (H1 Hi)).
Qed.

(** C30.  The installation happens once: whatever calls of the bootstrap service
    and of the catalog follow, on whatever connections, the identity tables
    stay consistent, the operator, its membership, account, role, capabilities
    and binding and the installation record are exactly those of the first
    initialization, and another one is refused without an effect. *)
Theorem bootstrap_once (h : history) d : integrity d -> installation_exists d = true ->
  let d1 := replay h d in integrity d1 /\ same_operator d d1 /\
  (forall c e fs, snd (run_on (ServiceInitialize c e) d1 fs) = d1) /\
  (forall c e s, installation_spec c e = Ok s -> exec (ServiceInitialize c e) d1 = (Err ErrAlreadyInitialized, d1)).
Proof.
  intros I Hi d1. destruct (bootstrap_replay_step h d I) as [I1 H1]. specialize (H1 Hi).
  assert (installation_exists d1 = true) as Hi1.
  { unfold d1, installation_exists in *. by rewrite (so_installation _ _ H1). }
  split_and!; [done|done|..].
  - intros c e fs. by apply initialize_refused.
  - intros c e s Hs. by apply (proj2 (initialize_refused c e d1 [] Hi1) s).
Qed.

(** ** What a rotation leaves *)

Lemma rotation_spec_ok c e s : rotation_spec c e = Ok s ->
  ro_TokenExpires s = ro_CreatedAt s + TokenTTL c /\
  exists g, generated e = Ok g /\ ro_Token s = Authentication.Plaintext g /\
    ro_TokenPrefix s = Authentication.Prefix g /\ ro_Verifier s = Authentication.Verifier g /\
    ro_KeyID s = Authentication.VerifierKeyID g.
Proof.
  unfold rotation_spec, Generate. destruct (identifier e _ _); [|done].
  destruct (generated e) as [g|]; [|done]. simpl. intros [= <-]. simpl. split; [done|]. by exists g.
Qed.

Lemma ttl_kept c t : validConfig c = true -> Worker.Sub (t + TokenTTL c) t = TokenTTL c.
Proof.
  unfold validConfig, minimumTokenTTL, maximumTokenTTL, Hour. intros Hc. simp_bool. unfold Worker.Sub.
  replace (t + TokenTTL c - t) with (TokenTTL c) by lia. unfold min_int64, max_int64.
  change (2 ^ 63) with 9223372036854775808. unfold Second in *. by rewrite !(proj2 (Z.ltb_ge _ _)) by lia.
Qed.

(** Of the tokens of the operator, only the new one is live. *)
Lemma rotated_live t d k r : may_rotate t d -> rotated_tokens t d !! k = Some r ->
  fst k = bt_WorkspaceID t -> tk_principal r = bt_PrincipalID t -> tk_revoked r = None ->
  k = (bt_WorkspaceID t, bt_ID t) /\ r = new_token t.
Proof.
  intros Hm. unfold rotated_tokens. rewrite lookup_insert_Some, revoked_lookup, fmap_Some.
  intros [[<- <-]|(_ & r0 & Hr & ->)] Hw Hp Hv; [done|]. rewrite rotated_principal in Hp. revert Hv. unfold rotated_row, revocable.
  rewrite Hw, Hp, !String.eqb_refl. simpl. by destruct (tk_revoked r0) eqn:E; simpl; rewrite ?E.
Qed.

(** The plaintext a rotation hands out authenticates. *)
Lemma rotated_authenticates c svc rnd clock e d fs out d' t :
  integrity d -> validConfig c = true -> Authentication.fills rnd -> generated e = Authentication.Generate svc rnd ->
  is_Some (Authentication.keys svc !! Authentication.activeKeyID svc) ->
  0 < clock -> clock mod Microsecond = 0 ->
  run_on (ServiceRotateToken c (Some clock) e) d fs = (Ok out, d') ->
  clock <= Authorization.Truncate t Microsecond < store_time (TokenExpires out) ->
  fst (exec (Authentication.Authenticate svc t (Token out)) (identity_of d')) =
  Ok {| Authentication.s_TokenID := TokenID out; Authentication.s_PrincipalID := PrincipalID out;
        Authentication.s_WorkspaceID := WorkspaceID out |}.
Proof.
  intros I Hc Hfill Hgen Hkey Hpos Hmul Hx%run_on_ok. unfold ServiceRotateToken in Hx.
  destruct (rotation_spec c e) as [s|] eqn:Hs; [|done].
  apply RotateToken_ok in Hx as (i & t' & Hi & [= <-] & Hm & -> & ->).
  apply rotation_spec_ok in Hs as (Hexp & g & Hg & Htok & Hpre & Hver & Hkid). rewrite Hgen in Hg.
  cbn [WorkspaceID PrincipalID TokenID Token TokenExpires]. rewrite Hexp, ttl_kept by done.
  set (T := rotation_token s i clock) in *. assert (store_time (bt_CreatedAt T) = clock) as Hst by (by apply store_time_exact).
  destruct (token_ids T (mr_valid T d Hm)) as (Hi1 & Hi2 & Hi3). intros Ht. rewrite Htok.
  refine (stored_token_authenticates svc rnd g _ (in_workspace i, ro_TokenID s) (new_token T) t
            (rotated_integrity T d I Hm) Hfill Hg Hkey _ Hpre Hver Hkid _ _ _ _ eq_refl _);
    try (by apply opaque_nonempty).
  - apply lookup_insert_eq.
  - cbn [new_token tk_created tk_expires]. rewrite Hst. unfold T at 1. cbn [rotation_token bt_ExpiresAt].
    by rewrite Hexp, ttl_kept.
  - lia.
Qed.

(** C29.  Rotation replaces the operator's token: after a successful rotation every
    token the operator had is revoked at the time of the rotation and the
    tokens of others are untouched; whatever secret is presented, whoever
    authenticates as the operator does so with the new token, and the
    plaintext that was handed out authenticates from the rotation until the
    configured time has passed. *)
Theorem rotate_revokes c svc rnd clock e d fs out d' :
  integrity d -> validConfig c = true -> Authentication.fills rnd -> generated e = Authentication.Generate svc rnd ->
  is_Some (Authentication.keys svc !! Authentication.activeKeyID svc) ->
  0 < clock -> clock mod Microsecond = 0 ->
  run_on (ServiceRotateToken c (Some clock) e) d fs = (Ok out, d') ->
  let w := WorkspaceID out in let p := PrincipalID out in
  TokenExpires out = clock + TokenTTL c /\
  (forall k r, tokens d !! k = Some r -> tokens d' !! k = Some (if revocable w p k r then revoke clock r else r)) /\
  (forall svc' t text fs' s x, run_on (Authentication.Authenticate svc' t text) (identity_of d') fs' = (Ok s, x) ->
     Authentication.s_PrincipalID s = p -> Authentication.s_WorkspaceID s = w -> Authentication.s_TokenID s = TokenID out) /\
  (forall t, clock <= Authorization.Truncate t Microsecond < store_time (TokenExpires out) ->
     fst (exec (Authentication.Authenticate svc t (Token out)) (identity_of d')) =
     Ok {| Authentication.s_TokenID := TokenID out; Authentication.s_PrincipalID := p; Authentication.s_WorkspaceID := w |}).
Proof.
  intros I Hc Hfill Hgen Hkey Hpos Hmul Hx0. pose proof Hx0 as Hx%run_on_ok. unfold ServiceRotateToken in Hx.
  destruct (rotation_spec c e) as [s|] eqn:Hs; [|done].
  apply RotateToken_ok in Hx as (i & t & Hi & [= <-] & Hm & -> & ->).
  apply rotation_spec_ok in Hs as (Hexp & g & Hg & Htok & Hpre & Hver & Hkid). rewrite Hgen in Hg.
  cbn [WorkspaceID PrincipalID TokenID Token TokenExpires]. rewrite Hexp, ttl_kept by done.
  set (T := rotation_token s i clock) in *. assert (store_time (bt_CreatedAt T) = clock) as Hst by (by apply store_time_exact).
  destruct (token_ids T (mr_valid T d Hm)) as (Hi1 & Hi2 & Hi3). split_and!; [done|..].
  - intros k r Hk. unfold rotated. cbn -[rotated_tokens]. unfold rotated_tokens. rewrite lookup_insert_ne.
    + rewrite revoked_lookup, Hk. simpl. unfold rotated_row. by rewrite Hst.
    + intros <-. by rewrite (mr_fresh T d Hm) in Hk.
  - intros svc' t text fs' a x Hx%run_on_ok Hp Hw. rewrite Authentication.Authenticate_exec in Hx.
    destruct (Authentication.parseToken text); [|done]. destruct (Authentication.find_prefix _ _) as [u|]; [|done].
    destruct (negb _); [done|]. destruct (Authentication.keys svc' !! _); [|done]. cbv zeta in Hx.
    destruct (negb _); [done|]. destruct (_ || _ || _ || _); [done|]. destruct (countb _ _ =? 1) eqn:Ec; [|done].
    injection Hx as <- _. simp_bool. apply Authentication.countb_one in Ec as (v & Hv & Hu).
    apply tokens_view in Hv as (k & r & Hk & ->). unfold Authentication.usable in Hu. simpl in Hu, Hp, Hw. simp_bool.
    destruct (rotated_live T d k r Hm Hk) as [-> _]; simpl; [congruence|congruence|by destruct (tk_revoked r)|].
    simpl in *. congruence.
  - intros t Ht. eapply rotated_authenticates in Hx0; try done. cbn [TokenExpires]. by rewrite Hexp, ttl_kept.
Qed.
End Theorems.
End BootstrapTheorems.
