(* ===== verification/BootstrapExamples.v ===== *)
(** * A concrete installation

    An empty database is initialized and its token rotated. *)

From S2P Require Import Prelude GoStrings Encoding Txn Queue QueueExamples Worker Records Catalog Authorization Base64 Authentication.
From S2P Require Import Bootstrap BootstrapTheorems.
From Stdlib Require Import Ascii.

Local Open Scope Z_scope.

Module BootstrapExamples.
Import Bootstrap BootstrapTheorems.
#[local] Existing Instance QueueExamples.demo_pg.

Definition fresh : database :=
  Database (Catalog.MkCatalog ∅ ∅ ∅ ∅ ∅) ∅ ∅ ∅ ∅ ∅ ∅ ∅ ∅ ∅ None.

Lemma fresh_integrity : integrity fresh.
Proof. split; simpl; try (intros *; rewrite ?lookup_empty; done); set_solver. Qed.

Definition t0 : time := 63000000000 * Second.
Definition ttl : Config := {| TokenTTL := 30 * 24 * Hour |}.
Definition draw (c : ascii) (_ : nat) (n : Z) : option string := Some (Nat.iter (Z.to_nat n) (String c) "").

(** The token generator of the service of Authentication.v; a second one draws
    other bytes. *)
Definition demo_service : Authentication.Service := Authentication.demo_service.
Definition other_random (i : nat) (n : Z) : option string := draw "c"%char i n.

Lemma draw_fills c : Authentication.fills (draw c).
Proof.
  intros i n b Hn. unfold draw. intros [= <-]. unfold slen.
  assert (forall k, String.length (Nat.iter k (String c) "") = k) as -> by (induction k; simpl; auto). lia.
Qed.

Definition first_token : result Authentication.error Authentication.GeneratedToken := Eval vm_compute in
  Authentication.Generate demo_service Authentication.demo_random.
Definition second_token : result Authentication.error Authentication.GeneratedToken := Eval vm_compute in
  Authentication.Generate demo_service other_random.

Definition first_call : call := {| now := t0; random := draw "a"%char; generated := first_token |}.
Definition second_call : call := {| now := t0 + Hour; random := draw "b"%char; generated := second_token |}.

Definition initialized : result error Result * database := exec (ServiceInitialize ttl first_call) fresh.
Definition rotated_once : result error Result * database :=
  exec (ServiceRotateToken ttl (Some (t0 + Hour)) second_call) (snd initialized).

Definition answer (r : result error Result) : Result :=
  match r with
  | Ok out => out
  | Err _ => {| WorkspaceID := ""; ApplicationID := ""; PrincipalID := ""; TokenID := ""; Token := ""; TokenExpires := 0 |}
  end.

Definition answered (r : result error Result) : bool := match r with Ok _ => true | Err _ => false end.

Lemma answered_ok (x : result error Result * database) : answered (fst x) = true -> x = (Ok (answer (fst x)), snd x).
Proof. by destruct x as [[]]. Qed.

Lemma initialized_ok : initialized = (Ok (answer (fst initialized)), snd initialized).
Proof. apply answered_ok. vm_compute. reflexivity. Qed.

Lemma rotated_ok : rotated_once = (Ok (answer (fst rotated_once)), snd rotated_once).
Proof. apply answered_ok. vm_compute. reflexivity. Qed.

Lemma initialized_integrity : integrity (snd initialized).
Proof.
  destruct (bootstrap_perform_step (CallInitialize ttl first_call) [] fresh fresh_integrity) as [H _].
  cbn [perform] in H. unfold initialized, exec. exact H.
Qed.

(** The operator may upload from its first second; it may not read the queue,
    and nobody else may do anything. *)
Definition may (p cap : string) : Authorization.Request := {|
  Authorization.PrincipalID := p; Authorization.WorkspaceID := WorkspaceID (answer (fst initialized));
  Authorization.Capability := cap; Authorization.ApplicationID := ""; Authorization.TokenID := "" |}.

Lemma initialize_grants_witness :
  let allowed r := Authorization.Authorize (store := Authorization.postgres_store (identity_of (snd initialized)) false) t0 r = Ok tt in
  allowed (may (PrincipalID (answer (fst initialized))) "imports:upload") /\
  ~ allowed (may "usr_other" "imports:upload") /\
  ~ allowed (may (PrincipalID (answer (fst initialized))) "jobs:read").
Proof.
  pose proof (initialize_grants ttl demo_service Authentication.demo_random first_call fresh [] (answer (fst initialized))
    (snd initialized) fresh_integrity) as H.
  specialize (H ltac:(unfold first_call, t0, Second, Microsecond; simpl; lia) Authentication.demo_random_fills).
  specialize (H ltac:(vm_compute; reflexivity) ltac:(eexists; reflexivity) initialized_ok). destruct H as [H _].
  cbv zeta. split; [|split].
  - apply H. split; [reflexivity|]. split; [reflexivity|]. split.
    { change ("imports:upload" ∈ initialCapabilities). apply (bool_decide_unpack _). vm_compute. exact I. }
    split; [left; reflexivity|]. split; [vm_compute; discriminate|left; reflexivity].
  - rewrite H. intros [Hp _]. revert Hp. vm_compute. discriminate.
  - rewrite H. intros (_ & _ & Hc & _). revert Hc. change (~ ("jobs:read" ∈ initialCapabilities)).
    apply (bool_decide_unpack _). vm_compute. exact I.
Defined.

Lemma second_spec : exists s, installation_spec ttl second_call = Ok s.
Proof. eexists. vm_compute. reflexivity. Qed.

Lemma bootstrap_once_witness :
  exec (ServiceInitialize ttl second_call) (replay [(CallRotate ttl (Some (t0 + Hour)) second_call, [])] (snd initialized)) =
  (Err ErrAlreadyInitialized, replay [(CallRotate ttl (Some (t0 + Hour)) second_call, [])] (snd initialized)).
Proof.
  destruct (bootstrap_once [(CallRotate ttl (Some (t0 + Hour)) second_call, [])] (snd initialized)) as (_ & _ & _ & H).
  - exact initialized_integrity.
  - vm_compute. reflexivity.
  - destruct second_spec as [s Hs]. exact (H _ _ _ Hs).
Defined.

Lemma rotate_revokes_witness : exists r,
  tokens (snd rotated_once) !! (WorkspaceID (answer (fst initialized)), TokenID (answer (fst initialized))) = Some r /\
  tk_revoked r = Some (t0 + Hour).
Proof.
  pose proof (rotate_revokes ttl demo_service other_random (t0 + Hour) second_call (snd initialized) []
    (answer (fst rotated_once)) (snd rotated_once)) as H.
  specialize (H initialized_integrity eq_refl (draw_fills _)).
  specialize (H ltac:(vm_compute; reflexivity) ltac:(eexists; reflexivity) eq_refl eq_refl rotated_ok).
  destruct H as (_ & H & _). eexists. split; [apply H; vm_compute; reflexivity|reflexivity].
Defined.

(** The first token is stamped with the clock of the service, its revocation
    with the clock of the database: when the database is a second behind, the
    token cannot be rotated in the second after the installation. *)
Example rotation_clock_behind :
  fst (exec (ServiceRotateToken ttl (Some (t0 - Second)) second_call) (snd initialized)) =
  Err (ErrDatabase "revoke previous bootstrap API tokens").
Proof. vm_compute. reflexivity. Qed.
End BootstrapExamples.
