(* ===== verification/Server.v ===== *)
(** * The HTTP server (src/internal/server/server.go)

    [Module Server] models the routing surface, with what [http.ServeMux] does
    for its two patterns, and the life of [Serve]: the goroutine that waits
    for the context and the call of [httpServer.Serve] as a state machine, one
    event for each thing either of them does. *)

From S2P Require Import Prelude GoStrings Encoding Json GoPath.
From Stdlib Require Import Ascii.

Local Open Scope Z_scope.

Module Server.

Record Config := { ListenAddress : string; ShutdownTimeout : duration }.

Definition defaultListenAddress : string := "127.0.0.1:8080".
Definition defaultShutdownPeriod : duration := 10 * Second.

Definition DefaultConfig : Config :=
  {| ListenAddress := defaultListenAddress; ShutdownTimeout := defaultShutdownPeriod |}.

(** ** Routing *)

(** A request by its method, the request target, the escaped path of its URL,
    the query and whether its protocol is HTTP/1.1 at least. *)
Record request := {
  Method : string; RequestURI : string; EscapedPath : string; RawQuery : string; ProtoAtLeast11 : bool
}.

Record response := { Status : Z; Header : gmap string string; Body : string }.

Definition quote : string := String (ascii_of_nat 34) "".
Definition newline : string := String (ascii_of_nat 10) "".

Definition health (header : gmap string string) : response := {|
  Status := 200;
  Header := <["Content-Type" := "application/json"]> header;
  Body := "{" +:+ quote +:+ "status" +:+ quote +:+ ":" +:+ quote +:+ "ok" +:+ quote +:+ "}" +:+ newline |}.

(** [http.Error]: the headers it sets and the text with a line break. *)
Definition http_Error (text : string) (code : Z) (header : gmap string string) : response := {|
  Status := code;
  Header := <["X-Content-Type-Options" := "nosniff"]>
              (<["Content-Type" := "text/plain; charset=utf-8"]> (delete "Content-Length" header));
  Body := text +:+ newline |}.

(** [http.cleanPath]: the canonical path, with the slash at its end kept. *)
Definition cleanPath (p : string) : string :=
  if String.eqb p "" then "/"
  else
    let p := if HasPrefix p "/" then p else "/" +:+ p in
    let np := Clean p in
    if String.eqb (default "" (last (split_slash p))) "" && negb (String.eqb np "/") then np +:+ "/" else np.

(** [url.PathUnescape] of one segment; as it is when it is not well escaped. *)
Fixpoint unescape (s : string) : option string :=
  match s with
  | "" => Some ""
  | String c s =>
      if is_byte 37 c then
        match s with
        | String a (String b s) =>
            match hex_value a, hex_value b, unescape s with
            | Some x, Some y, Some t => Some (String (ascii_of_N (Z.to_N (16 * x + y))) t)
            | _, _, _ => None
            end
        | _ => None
        end
      else option_map (String c) (unescape s)
  end.

Definition pathUnescape (s : string) : string := default s (unescape s).

(** The paths of the two patterns. *)
Definition routes : list (list string) := [["health"; "live"]; ["health"; "ready"]].

(** A path matches a pattern of literals segment by segment. *)
Definition matches_path (path : string) : bool :=
  match split_slash path with
  | "" :: segments => bool_decide (map pathUnescape segments ∈ routes)
  | _ => false
  end.

(** A pattern for GET also matches HEAD. *)
Definition matches_method (m : string) : bool := String.eqb m "GET" || String.eqb m "HEAD".

Section Handler.
(** [http.Redirect] to the canonical path: the response it writes over the
    headers that are set already. *)
Context (Redirect : request -> string -> gmap string string -> response).

(** [mux.ServeHTTP] *)
Definition route (r : request) (path : string) (header : gmap string string) : response :=
  if matches_path path then
    if matches_method (Method r) then health header
    else http_Error "Method Not Allowed" 405 (<["Allow" := "GET, HEAD"]> header)
  else http_Error "404 page not found" 404 header.

Definition ServeHTTP (r : request) (header : gmap string string) : response :=
  if String.eqb (RequestURI r) "*" then {|
    Status := 400; Header := if ProtoAtLeast11 r then <["Connection" := "close"]> header else header; Body := "" |}
  else if String.eqb (Method r) "CONNECT" then route r (EscapedPath r) header
  else
    let path := cleanPath (EscapedPath r) in
    if negb (String.eqb path (EscapedPath r)) then Redirect r path header
    else route r path header.

Definition NewHandler (r : request) : response :=
  ServeHTTP r (<["X-Content-Type-Options" := "nosniff"]> (<["Cache-Control" := "no-store"]> ∅)).
End Handler.

(** ** The life of a server *)

Inductive error :=
| ErrListen (address cause : string)
| ErrShutdown (causes : list string)    (* errors.Join of Shutdown and Close *)
| ErrServe (cause : string).

(** What [httpServer.Serve] returns: it never returns nil. *)
Inductive serve_error := ErrServerClosed | ServeFailed (cause : string).

Inductive main_state := Serving | Waiting (serveErr : option string) | Returned (r : result error unit).
Inductive waiter_state := Selecting | ShuttingDown | Closing (cause : string) | Finished.

(** [closed] is set by [Shutdown], before it waits; [shutdownResult] is the
    channel of capacity one. *)
Record state := {
  main : main_state; waiter : waiter_state; done : bool; serveFinished : bool; closed : bool;
  shutdownResult : option (option (list string)); stopped_logged : bool
}.

Definition started : state := {|
  main := Serving; waiter := Selecting; done := false; serveFinished := false; closed := false; shutdownResult := None;
  stopped_logged := false |}.

Definition set_main (m : main_state) (s : state) : state := {|
  main := m; waiter := waiter s; done := done s; serveFinished := serveFinished s; closed := closed s;
  shutdownResult := shutdownResult s; stopped_logged := stopped_logged s |}.

Definition set_waiter (x : waiter_state) (s : state) : state := {|
  main := main s; waiter := x; done := done s; serveFinished := serveFinished s; closed := closed s;
  shutdownResult := shutdownResult s; stopped_logged := stopped_logged s |}.

Inductive event :=
| ContextDone
| ServeReturns (e : serve_error)
| SelectDone
| SelectFinished
| ShutdownReturns (e : option string)
| CloseReturns (e : option string)
| Receive.

(** A send blocks while the channel is full. *)
Definition send (r : option (list string)) (s : state) : option state :=
  match shutdownResult s with
  | Some _ => None
  | None => Some {| main := main s; waiter := Finished; done := done s; serveFinished := serveFinished s; closed := closed s;
                    shutdownResult := Some r; stopped_logged := stopped_logged s |}
  end.

(** What [Serve] returns of the two errors. *)
Definition outcome (serveErr : option string) (shutdownErr : option (list string)) : result error unit :=
  match shutdownErr, serveErr with
  | Some causes, _ => Err (ErrShutdown causes)
  | None, Some cause => Err (ErrServe cause)
  | None, None => Ok tt
  end.

(** [None]: the event cannot happen now.  [Serve] returns [ErrServerClosed]
    once the server is closed only. *)
Definition step (e : event) (s : state) : option state :=
  match e, main s, waiter s with
  | ContextDone, _, _ => Some {|
      main := main s; waiter := waiter s; done := true; serveFinished := serveFinished s; closed := closed s;
      shutdownResult := shutdownResult s; stopped_logged := stopped_logged s |}
  | ServeReturns x, Serving, _ =>
      match x, closed s with
      | ErrServerClosed, false => None
      | _, _ => Some {|
          main := Waiting (match x with ErrServerClosed => None | ServeFailed cause => Some cause end); waiter := waiter s;
          done := done s; serveFinished := true; closed := closed s; shutdownResult := shutdownResult s;
          stopped_logged := stopped_logged s |}
      end
  | SelectDone, _, Selecting =>
      if done s then Some {|
        main := main s; waiter := ShuttingDown; done := done s; serveFinished := serveFinished s; closed := true;
        shutdownResult := shutdownResult s; stopped_logged := stopped_logged s |}
      else None
  | SelectFinished, _, Selecting => if serveFinished s then send None s else None
  | ShutdownReturns None, _, ShuttingDown => send None s
  | ShutdownReturns (Some cause), _, ShuttingDown => Some (set_waiter (Closing cause) s)
  | CloseReturns e, _, Closing cause => send (Some (cause :: option_list e)) s
  | Receive, Waiting serveErr, _ =>
      match shutdownResult s with
      | Some shutdownErr => Some {|
          main := Returned (outcome serveErr shutdownErr); waiter := waiter s; done := done s; serveFinished := serveFinished s;
          closed := closed s; shutdownResult := None;
          stopped_logged := match outcome serveErr shutdownErr with Ok _ => true | Err _ => stopped_logged s end |}
      | None => None
      end
  | _, _, _ => None
  end.

Fixpoint run (events : list event) (s : state) : option state :=
  match events with [] => Some s | e :: events => match step e s with Some s => run events s | None => None end end.

(** [Run]: a listener first. *)
Definition Run (config : Config) (listen : string -> result string unit) (events : list event) : option (result error unit) :=
  match listen (ListenAddress config) with
  | Err cause => Some (Err (ErrListen (ListenAddress config) cause))
  | Ok _ => match run events started with Some {| main := Returned r |} => Some r | _ => None end
  end.

End Server.
