(* ===== verification/ServerTheorems.v ===== *)
(** * What the HTTP server promises

    Which responses there are, and that [Serve] ends: no order of the events
    of its two goroutines blocks it, and what it returns says what happened. *)

From S2P Require Import Prelude GoStrings Encoding Json GoPath Server.

Local Open Scope Z_scope.

Module ServerTheorems.
Import Server.

(** ** Serving *)

(** Where both goroutines can be at the same time. *)
Record consistent (s : state) : Prop := {
  co_finished : serveFinished s = match main s with Serving => false | _ => true end;
  co_closed : closed s = true -> done s = true;
  co_shutting : match waiter s with ShuttingDown | Closing _ => closed s = true | _ => True end;
  co_open : waiter s = Selecting -> closed s = false;
  co_waiting : main s = Waiting None -> closed s = true;
  co_channel : match waiter s, main s with
    | Finished, Returned _ => shutdownResult s = None
    | Finished, _ => is_Some (shutdownResult s)
    | _, Returned _ => False
    | _, _ => shutdownResult s = None
    end;
  co_early : waiter s = Finished -> closed s = false -> serveFinished s = true;
  co_failed : forall causes, shutdownResult s = Some (Some causes) -> done s = true /\ causes <> [];
  co_returned : match main s with
    | Returned (Ok _) => closed s = true /\ stopped_logged s = true
    | Returned (Err (ErrShutdown causes)) => done s = true /\ causes <> [] /\ stopped_logged s = false
    | Returned (Err (ErrListen _ _)) => False
    | _ => stopped_logged s = false
    end
}.

Lemma consistent_started : consistent started.
Proof. by split. Qed.

(** What a step that is not blocked can be. *)
Ltac events e :=
  destruct e as [|[|?]| | |[?|]|?|]; unfold step, send, outcome; cbn; intros; repeat case_match; simplify_eq; cbn in *.

Lemma step_consistent e s s' : consistent s -> step e s = Some s' -> consistent s'.
Proof.
  destruct s as [m x d f c ch l]. intros [H1 H2 H3 H0 H4 H5 H6 H7 H8] Hs. cbn in *. revert Hs.
  events e; split; cbn in *; try (done || naive_solver).
Qed.

Lemma run_consistent l : forall s s', consistent s -> run l s = Some s' -> consistent s'.
Proof.
  induction l as [|e l IH]; intros s s' Hs; cbn [run]; [by intros [= <-]|].
  destruct (step e s) as [s1|] eqn:E; [|done]. eauto using step_consistent.
Qed.

(** What is left to do. *)
Definition remaining (s : state) : nat :=
  (match main s with Serving => 2 | Waiting _ => 1 | Returned _ => 0 end +
   match waiter s with Selecting => 3 | ShuttingDown => 2 | Closing _ => 1 | Finished => 0 end)%nat.

Definition own_event (e : event) : bool := match e with ContextDone => false | _ => true end.

Definition own_events (l : list event) : nat := length (List.filter own_event l).

Lemma step_remaining e s s' : step e s = Some s' ->
  (remaining s' + (if own_event e then 1 else 0) <= remaining s)%nat.
Proof. destruct s as [m x d f c ch l]. unfold remaining. events e; lia. Qed.

Lemma run_remaining l : forall s s', run l s = Some s' -> (remaining s' + own_events l <= remaining s)%nat.
Proof.
  unfold own_events. induction l as [|e l IH]; intros s s'; cbn [run List.filter].
  - intros [= <-]. simpl. lia.
  - destruct (step e s) as [s1|] eqn:E; [|done]. intros Hr%IH. apply step_remaining in E.
    destruct (own_event e); simpl; lia.
Qed.

(** Nothing blocks for ever once the context is done or the server failed. *)
Lemma step_enabled s : consistent s -> done s = true \/ serveFinished s = true -> (forall r, main s <> Returned r) ->
  exists e s', own_event e = true /\ step e s = Some s' /\ (done s' = true \/ serveFinished s' = true).
Proof.
  destruct s as [m x d f c ch l]. intros [H1 H2 H3 H0 H4 H5 H6 H7 H8] Hgo Hm. cbn in *.
  destruct x; [destruct d|..].
  - exists SelectDone. eexists. cbn. eauto.
  - destruct f; [|by destruct Hgo]. exists SelectFinished. eexists. cbn. unfold send. cbn.
    destruct m; try done; rewrite H5; eauto.
  - exists (ShutdownReturns None). eexists. cbn. unfold send. cbn. destruct m; try done; rewrite H5; eauto.
  - exists (CloseReturns None). eexists. cbn. unfold send. cbn. destruct m; try done; rewrite H5; eauto.
  - destruct m as [|e|r].
    + exists (ServeReturns ErrServerClosed). destruct c; [|by rewrite H6 in H1]. eexists. cbn. eauto.
    + exists Receive. destruct H5 as [x ->]. eexists. cbn. eauto.
    + by destruct (Hm r).
Qed.

Lemma can_return n : forall s, (remaining s <= n)%nat -> consistent s -> done s = true \/ serveFinished s = true ->
  exists l s' r, Forall (fun e => own_event e = true) l /\ run l s = Some s' /\ main s' = Returned r.
Proof.
  induction n as [|n IH]; intros s Hn Hs Hgo.
  - exists [], s. destruct s as [[] [] d f c ch l]; unfold remaining in Hn; cbn in *; try lia. eauto.
  - destruct (main s) eqn:Em; [..|by exists [], s, r].
    all: destruct (step_enabled s Hs Hgo) as (e & s1 & He & Hstep & Hgo1); [by rewrite Em|].
    all: pose proof (step_remaining _ _ _ Hstep) as Hr; rewrite He in Hr.
    all: destruct (IH s1) as (l & s' & r & Ho & Hl & Hm); [lia|by eapply step_consistent|done|].
    all: exists (e :: l), s', r; cbn [run]; rewrite Hstep; split; [by constructor|done].
Qed.

(** Once [httpServer.Serve] has returned, the waiting goroutine is told. *)
Lemma finished_told s : consistent s -> done s = true \/ main s <> Serving -> done s = true \/ serveFinished s = true.
Proof. intros Hs [H|H]; [by left|right]. rewrite (co_finished _ Hs). by destruct (main s). Qed.

(** The error a failed [Serve] is reported with is the one it returned. *)
Definition serve_failed (s : state) (cause : string) : Prop :=
  main s = Waiting (Some cause) \/ main s = Returned (Err (ErrServe cause)).

Lemma step_failed e s s' cause : step e s = Some s' -> serve_failed s' cause ->
  serve_failed s cause \/ e = ServeReturns (ServeFailed cause).
Proof.
  destruct s as [m x d f c ch l]. unfold serve_failed. events e; naive_solver.
Qed.

Lemma run_failed l : forall s s' cause, run l s = Some s' -> serve_failed s' cause ->
  serve_failed s cause \/ ServeReturns (ServeFailed cause) ∈ l.
Proof.
  induction l as [|e l IH]; intros s s' cause; cbn [run]; [intros [= <-]; by left|].
  destruct (step e s) as [s1|] eqn:E; [|done]. intros Hr Hf. destruct (IH _ _ _ Hr Hf) as [H|H]; [|right; by right].
  destruct (step_failed _ _ _ _ E H) as [?| ->]; [by left|right; by left].
Qed.

(** A shutdown that went well is what leaves nil behind. *)
Definition shut_cleanly (s : state) : Prop :=
  closed s = true /\ (shutdownResult s = Some None \/ main s = Returned (Ok tt)).

Lemma step_cleanly e s s' : consistent s -> step e s = Some s' -> shut_cleanly s' ->
  shut_cleanly s \/ e = ShutdownReturns None.
Proof.
  destruct s as [m x d f c ch l]. intros [H1 H2 H3 H0 H4 H5 H6 H7 H8]. cbn in *. unfold shut_cleanly.
  events e; naive_solver.
Qed.

Lemma run_cleanly l : forall s s', consistent s -> run l s = Some s' -> shut_cleanly s' ->
  shut_cleanly s \/ ShutdownReturns None ∈ l.
Proof.
  induction l as [|e l IH]; intros s s' Hs; cbn [run]; [intros [= <-]; by left|].
  destruct (step e s) as [s1|] eqn:E; [|done]. intros Hr Hf.
  destruct (IH _ _ (step_consistent _ _ _ Hs E) Hr Hf) as [H|H]; [|right; by right].
  destruct (step_cleanly _ _ _ Hs E H) as [?| ->]; [by left|right; by left].
Qed.

(** C34.  A server that is told to stop or fails ends, and its answer tells how: whatever the order in which
    the context ends, [httpServer.Serve] returns, the shutdown succeeds or
    fails and the results are passed on, (a) the two goroutines do at most
    five things; (b) once the context is done or [httpServer.Serve] has
    returned, for whatever reason, and until [Serve] itself has returned, one of
    the two goroutines can go on, and [Serve] can return by what they do alone,
    without the context ending;
    (c) nil is returned, and the stop is logged, only after a shutdown without an error that
    the context asked for; an error of the shutdown only when the context asked
    for it; and an error of serving is the one the server failed with. *)
Theorem serve_ends l s : run l started = Some s ->
  (own_events l <= 5)%nat /\
  (done s = true \/ main s <> Serving ->
     ((forall r, main s <> Returned r) -> exists e s', own_event e = true /\ step e s = Some s') /\
     exists l' s' r, Forall (fun e => own_event e = true) l' /\ run l' s = Some s' /\ main s' = Returned r) /\
  match main s with
  | Returned (Ok _) => done s = true /\ ShutdownReturns None ∈ l /\ stopped_logged s = true
  | Returned (Err (ErrShutdown causes)) => done s = true /\ causes <> [] /\ stopped_logged s = false
  | Returned (Err (ErrServe cause)) => ServeReturns (ServeFailed cause) ∈ l /\ stopped_logged s = false
  | Returned (Err (ErrListen _ _)) => False
  | _ => stopped_logged s = false
  end.
Proof.
  intros Hr. pose proof (run_consistent _ _ _ consistent_started Hr) as Hs. pose proof (run_remaining _ _ _ Hr) as Hm.
  change (remaining started) with 5%nat in Hm. split; [lia|]. split.
  - intros Hgo%(finished_told _ Hs). split; [|by eapply can_return]. intros Hret. destruct (step_enabled s Hs Hgo Hret) as (e & s' & ? & ? & _). eauto.
  - pose proof (co_returned _ Hs) as Hret. destruct (main s) as [| |[[]|[]]] eqn:Em; try done.
    + destruct Hret as [Hc Hl]. split_and!; [by apply (co_closed _ Hs)| |done].
      destruct (run_cleanly l _ _ consistent_started Hr) as [[? _]|]; [by split; [|right]|done..].
    + split; [|done]. destruct (run_failed l _ _ cause Hr) as [[H|H]|H]; [by right|done..].
Qed.

Lemma serve_ends_witness : exists s,
  run [ContextDone; SelectDone; ServeReturns ErrServerClosed; ShutdownReturns None; Receive] started = Some s /\
  main s = Returned (Ok tt) /\ stopped_logged s = true.
Proof.
  eexists. split; [reflexivity|]. split; [reflexivity|].
  apply (serve_ends [ContextDone; SelectDone; ServeReturns ErrServerClosed; ShutdownReturns None; Receive] _ eq_refl).
Defined.

(** A server that fails while the context ends: both branches of the select
    are ready, and either way the failure is not lost. *)
Example both_ready :
  let races := [[SelectFinished; Receive]; [SelectDone; ShutdownReturns None; Receive]] in
  map (fun l => option_map main (run ([ServeReturns (ServeFailed "accept"); ContextDone] ++ l) started)) races =
  [Some (Returned (Err (ErrServe "accept"))); Some (Returned (Err (ErrServe "accept")))].
Proof. vm_compute. done. Qed.

(** Connections that stay open past the timeout: the server is closed, and the
    caller is told. *)
Example hanging_connections :
  Run DefaultConfig (fun _ => Ok tt)
    [ContextDone; SelectDone; ShutdownReturns (Some "context deadline exceeded"); ServeReturns ErrServerClosed;
     CloseReturns None; Receive] = Some (Err (ErrShutdown ["context deadline exceeded"])) /\
  Run DefaultConfig (fun _ => Err "address already in use") [] =
    Some (Err (ErrListen "127.0.0.1:8080" "address already in use")).
Proof. vm_compute. done. Qed.

(** ** The routing surface *)

Section Surface.
Context (Redirect : request -> string -> gmap string string -> response).

(** [http.Redirect] sets the location and the type of its text, and answers
    with a redirection. *)
Hypothesis redirect_headers : forall r p h k, k <> "Location" -> k <> "Content-Type" -> Header (Redirect r p h) !! k = h !! k.
Hypothesis redirect_status : forall r p h, 300 <= Status (Redirect r p h) < 400.

(** Every response forbids caching and sniffing; whatever is asked, a success
    is the same text, and it is a GET or HEAD of one of the two paths. *)
Theorem handler_surface r : let a := NewHandler Redirect r in
  Header a !! "Cache-Control" = Some "no-store" /\ Header a !! "X-Content-Type-Options" = Some "nosniff" /\
  (Status a < 300 -> a = health (<["X-Content-Type-Options" := "nosniff"]> (<["Cache-Control" := "no-store"]> ∅)) /\
     matches_method (Method r) = true /\ matches_path (EscapedPath r) = true).
Proof using redirect_headers redirect_status.
  unfold NewHandler, ServeHTTP, route. destruct (String.eqb (RequestURI r) "*"); [by destruct (ProtoAtLeast11 r)|].
  destruct (String.eqb (Method r) "CONNECT"); cbv zeta.
  - destruct (matches_path (EscapedPath r)), (matches_method (Method r)); cbn; split_and!; done.
  - destruct (String.eqb_spec (cleanPath (EscapedPath r)) (EscapedPath r)) as [->|]; cbn [negb].
    + destruct (matches_path (EscapedPath r)), (matches_method (Method r)); cbn; split_and!; done.
    + rewrite !redirect_headers by done. split_and!; [done..|]. destruct (redirect_status r (cleanPath (EscapedPath r)) (<["X-Content-Type-Options" := "nosniff"]> (<["Cache-Control" := "no-store"]> ∅))). lia.
Qed.
End Surface.

(** A [Redirect] that writes the location alone. *)
Definition redirect (r : request) (path : string) (h : gmap string string) : response :=
  {| Status := 307; Header := <["Location" := path]> h; Body := "" |}.

Definition asked (m path : string) : request :=
  {| Method := m; RequestURI := path; EscapedPath := path; RawQuery := ""; ProtoAtLeast11 := true |}.

Lemma handler_surface_witness :
  Header (NewHandler redirect (asked "GET" "/health/live")) !! "Cache-Control" = Some "no-store".
Proof.
  apply (handler_surface redirect).
  - intros r p h k Hl _. cbn. by rewrite lookup_insert_ne.
  - intros r p h. cbn. lia.
Defined.

Example surface :
  map (fun r => Status (NewHandler redirect r))
    [asked "GET" "/health/live"; asked "HEAD" "/health/ready"; asked "GET" "/health/%6Cive"; asked "POST" "/health/live";
     asked "GET" "/health/live/"; asked "GET" "/"; asked "GET" "/health//live"; asked "GET" "/health/../health/ready";
     asked "OPTIONS" "*"; asked "CONNECT" "/health/../health/ready"] =
  [200; 200; 200; 405; 404; 404; 307; 307; 400; 404].
Proof. vm_compute. done. Qed.

End ServerTheorems.
