(* ===== verification/Migrations.v ===== *)
(** * Connections and schema migrations (src/internal/database/migrate.go)

    [Module Migrations] models the package that opens connections and runs the
    embedded migrations.  The driver and goose are parameters: what a call of
    them answers and, for goose, what it does to the schema. *)

From S2P Require Import Prelude GoStrings.

Local Open Scope Z_scope.

Module Migrations.

Record Status := { Current : Z; Target : Z; Pending : bool }.

Inductive error :=
| ErrText (text : string)
| ErrWrapped (action cause : string).   (* fmt.Errorf("action: %w", err) *)

(** [goose.Provider] over a database of type [P]. *)
Class Provider (P : Type) := {
  Ping : P -> result string unit;
  ProviderUp : P -> result string Z * P;          (* how many migrations it applied *)
  GetVersions : P -> result string (Z * Z);
  HasPending : P -> result string bool
}.

(** What the driver and the set-up of goose answer. *)
Record driver := {
  sql_Open : string -> result string unit;
  PingContext : result string unit;
  fs_Sub : result string unit;
  NewPostgresSessionLocker : result string unit;
  NewProvider : result string unit;
  CloseDB : result string unit
}.

Section Migrator.
Context {P : Type} `{!Provider P} (drv : driver).

Definition newMigrator : result error unit :=
  match fs_Sub drv with
  | Err e => Err (ErrWrapped "open embedded migrations" e)
  | Ok _ =>
      match NewPostgresSessionLocker drv with
      | Err e => Err (ErrWrapped "configure migration lock" e)
      | Ok _ =>
          match NewProvider drv with
          | Err e => Err (ErrWrapped "load migrations" e)
          | Ok _ => Ok tt
          end
      end
  end.

(** [Open] and [Connect] with the number of open connection pools: [db.Close]
    gives one back, whatever it answers. *)
Definition Open (databaseURL : string) (schema : P) (pools : Z) : result error unit * Z :=
  if String.eqb (TrimSpace databaseURL) "" then (Err (ErrText "database URL is empty"), pools)
  else
    match sql_Open drv databaseURL with
    | Err _ => (Err (ErrText "open PostgreSQL connection failed"), pools)
    | Ok _ =>
        let pools := pools + 1 in
        match newMigrator with
        | Err e => (Err e, pools - 1)
        | Ok _ =>
            match Ping schema with
            | Err e => (Err (ErrWrapped "connect to PostgreSQL" e), pools - 1)
            | Ok _ => (Ok tt, pools)
            end
        end
    end.

Definition Connect (databaseURL : string) (pools : Z) : result error unit * Z :=
  if String.eqb (TrimSpace databaseURL) "" then (Err (ErrText "database URL is empty"), pools)
  else
    match sql_Open drv databaseURL with
    | Err e => (Err (ErrWrapped "open PostgreSQL connection" e), pools)
    | Ok _ =>
        let pools := pools + 1 in
        match PingContext drv with
        | Err _ => (Err (ErrText "connect to PostgreSQL failed"), pools - 1)
        | Ok _ => (Ok tt, pools)
        end
    end.

Definition MigratorStatus (schema : P) : result error Status :=
  match GetVersions schema with
  | Err e => Err (ErrWrapped "read migration versions" e)
  | Ok (current, target) =>
      match HasPending schema with
      | Err e => Err (ErrWrapped "read migration status" e)
      | Ok pending => Ok {| Current := current; Target := target; Pending := pending |}
      end
  end.

(** The number of migrations that were applied is returned even when the
    status cannot be read afterwards. *)
Definition Up (schema : P) : result error Status * Z * P :=
  match ProviderUp schema with
  | (Err e, schema) => (Err (ErrWrapped "apply migrations" e), 0, schema)
  | (Ok n, schema) => (MigratorStatus schema, n, schema)
  end.

Definition Close (pools : Z) : result string unit * Z := (CloseDB drv, pools - 1).

(** ** Pools *)

(** A pool is left open exactly when the caller is given it. *)
Lemma Open_pools databaseURL schema pools a pools' : Open databaseURL schema pools = (a, pools') ->
  pools' = pools + (if is_ok a then 1 else 0).
Proof. destruct a; cbn [is_ok]; unfold Open; repeat case_match; intros; simplify_eq; lia. Qed.

Lemma Connect_pools databaseURL pools a pools' : Connect databaseURL pools = (a, pools') ->
  pools' = pools + (if is_ok a then 1 else 0).
Proof. destruct a; cbn [is_ok]; unfold Connect; repeat case_match; intros; simplify_eq; lia. Qed.
End Migrator.

End Migrations.
