(* ===== verification/Command.v ===== *)
(** * The command line (src/internal/command, src/internal/version, src/cmd)

    [Module Command] models the program from its arguments and environment to
    its exit code: what it writes, what it logs, which connections it opens
    and what it does to the database.  The bootstrap, the migrations and the
    server are those of the other files. *)

From S2P Require Import Prelude GoStrings Encoding Txn Json Queue Authorization Base64 Authentication Bootstrap Server Migrations.
From Stdlib Require Import Ascii.

Local Open Scope Z_scope.

Module Command.

Definition exitOK : Z := 0.
Definition exitFailure : Z := 1.
Definition exitUsage : Z := 2.

Definition quote : string := Server.quote.
Definition newline : string := Server.newline.
Definition tab : string := String (ascii_of_nat 9) "".
Definition line (text : string) : string := text +:+ newline.

(** ** Versions *)

Record Info := { Version : string; Commit : string; Date : string }.

Definition Info_String (info : Info) : string :=
  "open-aspm " +:+ Version info +:+ " (commit=" +:+ Commit info +:+ ", date=" +:+ Date info +:+ ")".

(** ** What the program reaches *)

Inductive cause :=
| DatabaseError (e : Migrations.error)
| AuthenticationError (e : Authentication.error)
| BootstrapError (e : Bootstrap.error)
| ServerError (e : Server.error)
| CloseError (e : string).

Inductive level := LevelWarn | LevelError.

Record entry := { at_level : level; message : string; error_ : cause }.

Record world {P : Type} := World {
  identity : Bootstrap.database; schema : P; pools : Z; stdout : string; stderr : string; logs : list entry
}.
Arguments world : clear implicits.
Arguments World {P} _ _ _ _ _ _.

Definition print {P} (text : string) (w : world P) : world P :=
  World (identity w) (schema w) (pools w) (stdout w +:+ text) (stderr w) (logs w).
Definition complain {P} (text : string) (w : world P) : world P :=
  World (identity w) (schema w) (pools w) (stdout w) (stderr w +:+ text) (logs w).
Definition log {P} (l : level) (text : string) (c : cause) (w : world P) : world P :=
  World (identity w) (schema w) (pools w) (stdout w) (stderr w)
    (logs w ++ [{| at_level := l; message := text; error_ := c |}]).
Definition set_pools {P} (n : Z) (w : world P) : world P :=
  World (identity w) (schema w) n (stdout w) (stderr w) (logs w).
Definition set_identity {P} (d : Bootstrap.database) (w : world P) : world P :=
  World d (schema w) (pools w) (stdout w) (stderr w) (logs w).
Definition set_schema {P} (s : P) (w : world P) : world P :=
  World (identity w) s (pools w) (stdout w) (stderr w) (logs w).

(** ** Flags of the server *)

Inductive classified := NotFlag | Terminator | BadSyntax | Flag (name : string) (value : option string).

(** One argument as [FlagSet.parseOne] takes it. *)
Definition classify (s : string) : classified :=
  match s with
  | String a (String b rest) =>
      if negb (is_byte 45 a) then NotFlag
      else if is_byte 45 b && String.eqb rest "" then Terminator
      else
        let name := if is_byte 45 b then rest else String b rest in
        match name with
        | "" => BadSyntax
        | String c _ =>
            if is_byte 45 c || is_byte 61 c then BadSyntax
            else match Authentication.Cut "=" name with
                 | Some (name, value) => Flag name (Some value)
                 | None => Flag name None
                 end
        end
  | _ => NotFlag
  end.

Inductive parsed := Help | BadFlag (text : string) | Parsed (config : Server.Config) (rest : list string).

Section Flags.
(** [time.ParseDuration] and [strconv.Quote]. *)
Context (ParseDuration : string -> option duration) (Quote : string -> string).

Definition set_flag (name value : string) (c : Server.Config) : option (result string Server.Config) :=
  if String.eqb name "listen" then
    Some (Ok {| Server.ListenAddress := value; Server.ShutdownTimeout := Server.ShutdownTimeout c |})
  else if String.eqb name "shutdown-timeout" then
    Some match ParseDuration value with
         | Some d => Ok {| Server.ListenAddress := Server.ListenAddress c; Server.ShutdownTimeout := d |}
         | None => Err ("invalid value " +:+ Quote value +:+ " for flag -" +:+ name +:+ ": parse error")
         end
  else None.

Fixpoint Parse (args : list string) (c : Server.Config) : parsed :=
  match args with
  | [] => Parsed c []
  | s :: rest =>
      match classify s with
      | NotFlag => Parsed c args
      | Terminator => Parsed c rest
      | BadSyntax => BadFlag ("bad flag syntax: " +:+ s)
      | Flag name value =>
          match set_flag name "" c, value, rest with
          | None, _, _ =>
              if String.eqb name "help" || String.eqb name "h" then Help
              else BadFlag ("flag provided but not defined: -" +:+ name)
          | Some _, Some v, _ =>
              match set_flag name v c with Some (Ok c) => Parse rest c | Some (Err text) => BadFlag text | None => Help end
          | Some _, None, v :: rest =>
              match set_flag name v c with Some (Ok c) => Parse rest c | Some (Err text) => BadFlag text | None => Help end
          | Some _, None, [] => BadFlag ("flag needs an argument: -" +:+ name)
          end
      end
  end.
End Flags.

Definition server_usage : string :=
  line "Usage: open-aspm server [options]" +:+ newline +:+
  line "  -listen string" +:+ "    " +:+ tab +:+
  line ("HTTP listen address (default " +:+ quote +:+ Server.defaultListenAddress +:+ quote +:+ ")") +:+
  line "  -shutdown-timeout duration" +:+ "    " +:+ tab +:+ line "graceful shutdown timeout (default 10s)".

Definition usage : string :=
  line "Open ASPM" +:+ newline +:+ line "Usage:" +:+ line "  open-aspm <command> [options]" +:+ newline +:+ line "Commands:" +:+
  tab +:+ line "bootstrap Initialize the first workspace or rotate its operator token" +:+
  tab +:+ line "migrate   Inspect or apply PostgreSQL schema migrations" +:+
  line "  server    Run the HTTP server" +:+ line "  version   Print build version information" +:+
  line "  help      Show this help" +:+ newline +:+
  line ("Run " +:+ quote +:+ "open-aspm server --help" +:+ quote +:+ " for server options.") +:+
  line "Set OPEN_ASPM_DATABASE_URL before running migration commands.".

(** ** The commands *)

(** What surrounds one run of the program. *)
Record surroundings := {
  Getenv : string -> string;
  drv : Migrations.driver;
  build : Info;
  now : time;                                   (* the clock of the service *)
  random : nat -> Z -> option string;           (* the draws of identifiers *)
  token_random : nat -> Z -> option string;     (* the draws of the token *)
  clock : option time;                          (* clock_timestamp() *)
  connection : list fault;                      (* what the connection does *)
  Format : time -> string;                      (* Format(time.RFC3339) in the zone of the time *)
  duration_of : string -> option duration;
  quoted : string -> string;
  listen : string -> result string unit;
  events : list Server.event
}.

Section Program.
Context {pg : Postgres} {P : Type} `{!Migrations.Provider P} (env : surroundings).

Definition defaultKeyID : string := "bootstrap-v1".

(** The deferred [Close]; its failure is a warning. *)
Definition close (warning : string) (w : world P) : world P :=
  let '(a, n) := Migrations.Close (drv env) (pools w) in
  let w := set_pools n w in
  match a with Err e => log LevelWarn warning (CloseError e) w | Ok _ => w end.

Definition tokenTTL : duration := 30 * 24 * Hour.

Definition report (r : Bootstrap.Result) : string :=
  line ("workspace_id=" +:+ Bootstrap.WorkspaceID r) +:+ line ("application_id=" +:+ Bootstrap.ApplicationID r) +:+
  line ("principal_id=" +:+ Bootstrap.PrincipalID r) +:+ line ("token_id=" +:+ Bootstrap.TokenID r) +:+
  line ("api_token=" +:+ Bootstrap.Token r) +:+ line ("token_expires_at=" +:+ Format env (Bootstrap.TokenExpires r)).

(** The two services on the connection. *)
Definition operator_call (svc : Authentication.Service) : Bootstrap.call := {|
  Bootstrap.now := now env; Bootstrap.random := random env;
  Bootstrap.generated := Authentication.Generate svc (token_random env) |}.

Definition run_service (sub : string) (svc : Authentication.Service) (d : Bootstrap.database)
  : result Bootstrap.error Bootstrap.Result * Bootstrap.database :=
  let config := {| Bootstrap.TokenTTL := tokenTTL |} in
  if String.eqb sub "init" then run_on (Bootstrap.ServiceInitialize config (operator_call svc)) d (connection env)
  else run_on (Bootstrap.ServiceRotateToken config (clock env) (operator_call svc)) d (connection env).

(** With a connection. *)
Definition bootstrap_connected (sub keyID key : string) (w : world P) : Z * world P :=
  match Authentication.NewService (Some Authentication.postgres_tokens)
          {| Authentication.ActiveKeyID := keyID; Authentication.Keys := {[keyID := key]} |} with
  | Err e => (exitFailure, log LevelError "bootstrap token configuration failed" (AuthenticationError e) w)
  | Ok svc =>
      if negb (Bootstrap.validConfig {| Bootstrap.TokenTTL := tokenTTL |}) then
        (exitFailure, log LevelError "bootstrap service setup failed" (BootstrapError Bootstrap.ErrInvalid) w)
      else
        let '(a, d) := run_service sub svc (identity w) in
        let w := set_identity d w in
        match a with
        | Err e => (exitFailure, log LevelError "operator bootstrap failed" (BootstrapError e) w)
        | Ok r =>
            (exitOK, complain (line "Store api_token securely now; it cannot be retrieved later.") (print (report r) w))
        end
  end.

Definition key_id : string :=
  let keyID := Getenv env "OPEN_ASPM_TOKEN_VERIFIER_KEY_ID" in if String.eqb keyID "" then defaultKeyID else keyID.

Definition runBootstrap (args : list string) (w : world P) : Z * world P :=
  match args with
  | [sub] =>
      if negb (String.eqb sub "init") && negb (String.eqb sub "token") then
        (exitUsage, complain (line "Usage: open-aspm bootstrap <init|token>") w)
      else
        let databaseURL := Getenv env "OPEN_ASPM_DATABASE_URL" in
        if String.eqb databaseURL "" then (exitUsage, complain (line "OPEN_ASPM_DATABASE_URL is required") w)
        else
          match base64_decode (Getenv env "OPEN_ASPM_TOKEN_VERIFIER_KEY") with
          | Some key =>
              if slen key <? 32 then
                (exitUsage, complain (line "OPEN_ASPM_TOKEN_VERIFIER_KEY must be unpadded base64url encoding of at least 32 bytes") w)
              else
                match Migrations.Connect (drv env) databaseURL (pools w) with
                | (Err e, n) =>
                    (exitFailure, log LevelError "bootstrap database connection failed" (DatabaseError e) (set_pools n w))
                | (Ok _, n) =>
                    let '(code, w) := bootstrap_connected sub key_id key (set_pools n w) in
                    (code, close "bootstrap database close failed" w)
                end
          | None =>
              (exitUsage, complain (line "OPEN_ASPM_TOKEN_VERIFIER_KEY must be unpadded base64url encoding of at least 32 bytes") w)
          end
  | _ => (exitUsage, complain (line "Usage: open-aspm bootstrap <init|token>") w)
  end.

Definition migrate_connected (sub : string) (w : world P) : Z * world P :=
  if String.eqb sub "status" then
    match Migrations.MigratorStatus (schema w) with
    | Err e => (exitFailure, log LevelError "database migration status failed" (DatabaseError e) w)
    | Ok s =>
        (exitOK, print (line ("database version: " +:+ itoa (Migrations.Current s) +:+ "; target: " +:+ itoa (Migrations.Target s) +:+
                              "; pending: " +:+ (if Migrations.Pending s then "true" else "false"))) w)
    end
  else
    let '(a, applied, s) := Migrations.Up (schema w) in
    let w := set_schema s w in
    match a with
    | Err e => (exitFailure, log LevelError "database migration failed" (DatabaseError e) w)
    | Ok status =>
        (exitOK, print (line ("database migrated: version " +:+ itoa (Migrations.Current status) +:+ "; applied: " +:+ itoa applied)) w)
    end.

Definition runMigrate (args : list string) (w : world P) : Z * world P :=
  match args with
  | [sub] =>
      if negb (String.eqb sub "up") && negb (String.eqb sub "status") then
        (exitUsage, complain (line "Usage: open-aspm migrate <up|status>") w)
      else
        let databaseURL := Getenv env "OPEN_ASPM_DATABASE_URL" in
        if String.eqb databaseURL "" then (exitUsage, complain (line "OPEN_ASPM_DATABASE_URL is required") w)
        else
          match Migrations.Open (drv env) databaseURL (schema w) (pools w) with
          | (Err e, n) => (exitFailure, log LevelError "database migration failed" (DatabaseError e) (set_pools n w))
          | (Ok _, n) =>
              let '(code, w) := migrate_connected sub (set_pools n w) in (code, close "database close failed" w)
          end
  | _ => (exitUsage, complain (line "Usage: open-aspm migrate <up|status>") w)
  end.

(** [None]: the server is still running. *)
Definition runServer (args : list string) (w : world P) : option Z * world P :=
  match Parse (duration_of env) (quoted env) args Server.DefaultConfig with
  | Help => (Some exitOK, complain server_usage w)
  | BadFlag text => (Some exitUsage, complain (line text +:+ server_usage) w)
  | Parsed _ (a :: _) => (Some exitUsage, complain (line ("unexpected server argument " +:+ quoted env a)) w)
  | Parsed config [] =>
      if Server.ShutdownTimeout config <=? 0 then (Some exitUsage, complain (line "shutdown-timeout must be greater than zero") w)
      else
        match Server.Run config (listen env) (events env) with
        | None => (None, w)
        | Some (Err e) => (Some exitFailure, log LevelError "server failed" (ServerError e) w)
        | Some (Ok _) => (Some exitOK, w)
        end
  end.

Definition finished (a : Z * world P) : option Z * world P := (Some (fst a), snd a).

Definition Run (args : list string) (w : world P) : option Z * world P :=
  match args with
  | [] => (Some exitOK, print usage w)
  | command :: args =>
      if String.eqb command "help" || String.eqb command "-h" || String.eqb command "--help" then (Some exitOK, print usage w)
      else if String.eqb command "version" then (Some exitOK, print (line (Info_String (build env))) w)
      else if String.eqb command "server" then runServer args w
      else if String.eqb command "migrate" then finished (runMigrate args w)
      else if String.eqb command "bootstrap" then finished (runBootstrap args w)
      else (Some exitUsage, complain (line ("unknown command " +:+ quoted env command) +:+ newline +:+ usage) w)
  end.
End Program.

End Command.
