(* ===== verification/CommandTheorems.v ===== *)
(** * What the command line promises *)

From S2P Require Import Prelude GoStrings Encoding Txn Json Queue Authorization Base64 Authentication Bootstrap BootstrapTheorems.
From S2P Require Import Server Migrations Command.

Local Open Scope Z_scope.

Module CommandTheorems.
Import Command.

Section Theorems.
Context {pg : Postgres} {P : Type} `{!Migrations.Provider P} (env : surroundings).

(** ** What every command leaves *)

(** The rules of a command: pools are closed, nothing is printed and nothing
    changed where it says so, and the code is one of the three. *)
Record orderly (code : Z) (w w' : world P) : Prop := {
  or_code : code = exitOK \/ code = exitFailure \/ code = exitUsage;
  or_pools : pools w' = pools w;
  or_stdout : code <> exitOK -> stdout w' = stdout w;
  or_usage : code = exitUsage -> identity w' = identity w /\ schema w' = schema w /\ logs w' = logs w;
  or_logged : code = exitFailure -> exists l e, logs w' = logs w ++ l /\ In e l /\ at_level e = LevelError
}.

(** Closing afterwards gives back the pool a body was run with. *)
Lemma close_orderly warning code w w' : orderly code (set_pools (pools w + 1) w) w' -> code <> exitUsage ->
  orderly code w (close env warning w').
Proof.
  intros [Hc Hp Ho _ Hl] Hu. unfold close, Migrations.Close. destruct (Migrations.CloseDB (drv env)); split; cbn in *; try done; try lia.
  intros (l & x & Hlog & Hx & Hlevel)%Hl. eexists (l ++ _), x. rewrite Hlog, <- (assoc_L (++)). split; [done|].
  split; [|done]. apply in_or_app. by left.
Qed.

Lemma logged_last l text c (old : list entry) :
  exists l' e, old ++ [{| at_level := l; message := text; error_ := c |}] = old ++ l' /\ In e l' /\ at_level e = l.
Proof. eexists _, _. split; [done|]. split; [by left|done]. Qed.

Lemma bootstrap_connected_orderly sub keyID key w code w' : bootstrap_connected env sub keyID key w = (code, w') ->
  orderly code w w' /\ code <> exitUsage.
Proof.
  unfold bootstrap_connected. destruct (Authentication.NewService _ _) as [svc|e].
  2: { intros [= <- <-]. split; [|done]. split; cbn; auto; [done|]. intros _. apply logged_last. }
  destruct (negb _); [intros [= <- <-]; split; [|done]; split; cbn; auto; [done|]; intros _; apply logged_last|].
  destruct (run_service env sub svc (identity w)) as [[r|e] d]; intros [= <- <-]; (split; [|done]); split; cbn; auto; try done.
  intros _. apply logged_last.
Qed.

Lemma migrate_connected_orderly sub w code w' : migrate_connected sub w = (code, w') -> orderly code w w' /\ code <> exitUsage.
Proof.
  unfold migrate_connected. destruct (String.eqb sub "status").
  - destruct (Migrations.MigratorStatus (schema w)); intros [= <- <-]; (split; [|done]); split; cbn; auto; try done.
    intros _. apply logged_last.
  - destruct (Migrations.Up (schema w)) as [[[s|e] n] x]; intros [= <- <-]; (split; [|done]); split; cbn; auto; try done.
    intros _. apply logged_last.
Qed.

Lemma complain_orderly text (w : world P) : orderly exitUsage w (complain text w).
Proof. split; cbn; auto. done. Qed.

Lemma failed_connection text c n (w : world P) : n = pools w -> orderly exitFailure w (log LevelError text c (set_pools n w)).
Proof. intros ->. split; cbn; auto; [done|]. intros _. apply logged_last. Qed.

Lemma runBootstrap_orderly args w code w' : runBootstrap env args w = (code, w') -> orderly code w w'.
Proof.
  unfold runBootstrap. destruct args as [|sub [|? ?]]; try (intros [= <- <-]; apply complain_orderly).
  destruct (negb _ && _); [intros [= <- <-]; apply complain_orderly|]. cbv zeta.
  destruct (String.eqb (Getenv env _) ""); [intros [= <- <-]; apply complain_orderly|].
  destruct (base64_decode _) as [key|]; [|intros [= <- <-]; apply complain_orderly].
  destruct (slen key <? 32); [intros [= <- <-]; apply complain_orderly|].
  destruct (Migrations.Connect _ _ _) as [a n] eqn:Ec. pose proof (Migrations.Connect_pools _ _ _ _ _ Ec) as Hn.
  destruct a as [|e]; cbn [is_ok] in Hn; [|intros [= <- <-]; apply failed_connection; lia]. subst n.
  destruct (bootstrap_connected _ _ _ _ _) as [code1 w1] eqn:Eb. intros [= <- <-].
  apply bootstrap_connected_orderly in Eb as [Ho Hu]. by apply close_orderly.
Qed.

Lemma runMigrate_orderly args w code w' : runMigrate env args w = (code, w') -> orderly code w w'.
Proof.
  unfold runMigrate. destruct args as [|sub [|? ?]]; try (intros [= <- <-]; apply complain_orderly).
  destruct (negb _ && _); [intros [= <- <-]; apply complain_orderly|]. cbv zeta.
  destruct (String.eqb (Getenv env _) ""); [intros [= <- <-]; apply complain_orderly|].
  destruct (Migrations.Open _ _ _ _) as [a n] eqn:Ec. pose proof (Migrations.Open_pools _ _ _ _ _ _ Ec) as Hn.
  destruct a as [|e]; cbn [is_ok] in Hn; [|intros [= <- <-]; apply failed_connection; lia]. subst n.
  destruct (migrate_connected _ _) as [code1 w1] eqn:Eb. intros [= <- <-].
  apply migrate_connected_orderly in Eb as [Ho Hu]. by apply close_orderly.
Qed.

Lemma printed_orderly text (w : world P) : orderly exitOK w (print text w).
Proof. split; cbn; auto; done. Qed.

Lemma runServer_orderly args w code w' : runServer env args w = (Some code, w') -> orderly code w w'.
Proof.
  unfold runServer. destruct (Parse _ _ _ _) as [|text|c [|a l]]; try (intros [= <- <-]; apply complain_orderly).
  - intros [= <- <-]. split; cbn; auto; done.
  - destruct (_ <=? 0); [intros [= <- <-]; apply complain_orderly|].
    destruct (Server.Run _ _ _) as [[u|e]|]; intros [= <- <-]; split; cbn; auto; try done.
    intros _. apply logged_last.
Qed.

(** Every run of the program that ends is orderly: the exit code is 0, 1 or 2;
    every connection pool it opened is closed again, whatever failed; a run
    that does not succeed prints nothing on the standard output, so no token
    and no version; a run that is refused for its arguments or environment has
    not touched the database or the log; and a failure is logged as an
    error. *)
Theorem command_orderly args (w : world P) code w' : Run env args w = (Some code, w') ->
  (code = exitOK \/ code = exitFailure \/ code = exitUsage) /\ pools w' = pools w /\
  (code <> exitOK -> stdout w' = stdout w) /\
  (code = exitUsage -> identity w' = identity w /\ schema w' = schema w /\ logs w' = logs w) /\
  (code = exitFailure -> exists l e, logs w' = logs w ++ l /\ In e l /\ at_level e = LevelError).
Proof.
  intros Hr. assert (orderly code w w') as [H1 H2 H3 H4 H5]; [|done]. revert Hr. unfold Run.
  destruct args as [|command args]; [intros [= <- <-]; apply printed_orderly|].
  destruct (_ || _ || _); [intros [= <- <-]; apply printed_orderly|].
  destruct (String.eqb command "version"); [intros [= <- <-]; apply printed_orderly|].
  destruct (String.eqb command "server"); [apply runServer_orderly|]. unfold finished.
  destruct (String.eqb command "migrate"); [destruct (runMigrate env args w) eqn:E; intros [= <- <-]; by eapply runMigrate_orderly|].
  destruct (String.eqb command "bootstrap"); [destruct (runBootstrap env args w) eqn:E; intros [= <- <-]; by eapply runBootstrap_orderly|].
  intros [= <- <-]. apply complain_orderly.
Qed.

(** ** The operator's token *)

Lemma close_identity warning (w : world P) : identity (close env warning w) = identity w /\ stdout (close env warning w) = stdout w.
Proof. unfold close, Migrations.Close. by destruct (Migrations.CloseDB (drv env)). Qed.

Definition verifying (key : string) : Authentication.Service :=
  {| Authentication.activeKeyID := key_id env; Authentication.keys := {[key_id env := key]} |}.

(** A bootstrap that succeeds ran its service with the key of the environment. *)
Lemma runBootstrap_printed sub (w w' : world P) : runBootstrap env [sub] w = (exitOK, w') ->
  exists key out, (sub = "init" \/ sub = "token") /\
    base64_decode (Getenv env "OPEN_ASPM_TOKEN_VERIFIER_KEY") = Some key /\ 32 <= slen key /\
    run_service env sub (verifying key) (identity w) = (Ok out, identity w') /\ stdout w' = stdout w +:+ report env out.
Proof.
  unfold runBootstrap. destruct (negb _ && _) eqn:Esub; [done|]. cbv zeta. destruct (String.eqb (Getenv env _) ""); [done|].
  destruct (base64_decode _) as [key|]; [|done]. destruct (slen key <? 32) eqn:Elen; [done|].
  destruct (Migrations.Connect _ _ _) as [[|e] n]; [|done]. unfold bootstrap_connected.
  destruct (Authentication.NewService _ _) as [svc|e] eqn:Esvc; [|done].
  assert (svc = verifying key) as ->.
  { revert Esvc. unfold Authentication.NewService. case_match; intros; by simplify_eq. }
  destruct (negb (Bootstrap.validConfig _)); [done|]. cbn [identity set_pools].
  destruct (run_service env sub (verifying key) (identity w)) as [[out|e] d] eqn:Er; [|done]. intros [= <-].
  exists key, out. destruct (close_identity "bootstrap database close failed"
    (complain (line "Store api_token securely now; it cannot be retrieved later.")
       (print (report env out) (set_identity d (set_pools n w))))) as [-> ->].
  simp_bool. split_and!; try done. by destruct (String.eqb_spec sub "init"), (String.eqb_spec sub "token"); auto.
Qed.

Lemma rotation_needs_clock c e d fs out d' : ~ run_on (Bootstrap.ServiceRotateToken c None e) d fs = (Ok out, d').
Proof.
  intros Hr%run_on_ok. revert Hr. unfold Bootstrap.ServiceRotateToken, exec, run_on.
  destruct (Bootstrap.rotation_spec c e); [|done]. unfold Bootstrap.RotateToken. rewrite run_begin. unfold query. cbn.
  by destruct (Bootstrap.installation d).
Qed.

(** When a bootstrap that succeeded issued its token. *)
Definition issued (sub : string) : time :=
  if String.eqb sub "init" then Authorization.Truncate (now env) Microsecond else default 0 (clock env).

(** C28.  The token that the program prints works: when [bootstrap init] or
    [bootstrap token] exits with 0, whatever the connection did on the way,
    the verifier key of the environment has at least 32 bytes, exactly one
    report was printed, and with that key the printed token authenticates as
    the printed operator in the printed workspace from the moment it was
    issued until the printed expiry. *)
Theorem printed_token_works sub (w w' : world P) :
  BootstrapTheorems.integrity (identity w) -> Microsecond <= now env -> Authentication.fills (token_random env) ->
  (forall c, clock env = Some c -> 0 < c /\ c mod Microsecond = 0) ->
  Run env ["bootstrap"; sub] w = (Some exitOK, w') ->
  exists key out, base64_decode (Getenv env "OPEN_ASPM_TOKEN_VERIFIER_KEY") = Some key /\ 32 <= slen key /\
    stdout w' = stdout w +:+ report env out /\
    forall t, issued sub <= Authorization.Truncate t Microsecond < store_time (Bootstrap.TokenExpires out) ->
      fst (exec (Authentication.Authenticate (verifying key) t (Bootstrap.Token out)) (Bootstrap.identity_of (identity w'))) =
      Ok {| Authentication.s_TokenID := Bootstrap.TokenID out; Authentication.s_PrincipalID := Bootstrap.PrincipalID out;
            Authentication.s_WorkspaceID := Bootstrap.WorkspaceID out |}.
Proof.
  intros I Hnow Hfill Hclock. change (Run env ["bootstrap"; sub] w) with (finished (runBootstrap env [sub] w)). unfold finished.
  destruct (runBootstrap env [sub] w) as [code w1] eqn:E. intros [= -> <-].
  apply runBootstrap_printed in E as (key & out & Hsub & Hkey & Hlen & Hrun & Hout). exists key, out. split_and!; try done.
  intros t Ht. assert (is_Some (({[key_id env := key]} : gmap string string) !! key_id env)) as Hsome.
  { rewrite lookup_singleton_eq. eauto. }
  destruct Hsub as [->| ->]; unfold run_service in Hrun; cbn in Hrun.
  - by eapply BootstrapTheorems.initialized_authenticates in Hrun.
  - unfold issued in Ht. cbn in Ht. destruct (clock env) as [c|] eqn:Ec.
    + destruct (Hclock c eq_refl). by eapply BootstrapTheorems.rotated_authenticates in Hrun.
    + by apply rotation_needs_clock in Hrun.
Qed.
End Theorems.
End CommandTheorems.
