(* ===== verification/CommandExamples.v ===== *)
(** * The program run from its command line

    Concrete runs with a schema that is a version number, and the theorems on
    them. *)

From S2P Require Import Prelude GoStrings Encoding Txn Json Queue QueueExamples Authorization Base64 Authentication Bootstrap.
From S2P Require Import BootstrapTheorems BootstrapExamples Server Migrations Command CommandTheorems.
From Stdlib Require Import Ascii.

Local Open Scope Z_scope.

Module CommandExamples.
Import Command CommandTheorems.
#[local] Existing Instance QueueExamples.demo_pg.

#[local] Instance goose : Migrations.Provider Z := {|
  Migrations.Ping _ := Ok tt; Migrations.ProviderUp v := (Ok (13 - v), 13); Migrations.GetVersions v := Ok (v, 13);
  Migrations.HasPending v := Ok (v <? 13) |}.

Definition drv_ok : Migrations.driver := {|
  Migrations.sql_Open _ := Ok tt; Migrations.PingContext := Ok tt; Migrations.fs_Sub := Ok tt;
  Migrations.NewPostgresSessionLocker := Ok tt; Migrations.NewProvider := Ok tt; Migrations.CloseDB := Err "broken pipe" |}.

Definition key_text : string := Eval vm_compute in base64_encode "0123456789abcdef0123456789abcdef".

Definition getenv (name : string) : string :=
  if String.eqb name "OPEN_ASPM_DATABASE_URL" then "postgres://localhost/aspm"
  else if String.eqb name "OPEN_ASPM_TOKEN_VERIFIER_KEY" then key_text else "".

Definition env : surroundings := {|
  Getenv := getenv; drv := drv_ok; build := {| Version := "dev"; Commit := "unknown"; Date := "unknown" |};
  now := BootstrapExamples.t0; random := BootstrapExamples.draw "a"%char; token_random := Authentication.demo_random;
  clock := Some (BootstrapExamples.t0 + Hour); connection := []; Format _ := "2026-01-01T00:00:00Z";
  duration_of s := if String.eqb s "5s" then Some (5 * Second) else if String.eqb s "0s" then Some 0 else None;
  quoted s := s; listen _ := Ok tt;
  events := [Server.ContextDone; Server.SelectDone; Server.ServeReturns Server.ErrServerClosed; Server.ShutdownReturns None;
             Server.Receive] |}.

Definition start : world Z := World BootstrapExamples.fresh 9 0 "" "" [].

Definition codes (runs : list (list string)) : list (option Z) := map (fun args => fst (Run env args start)) runs.

Example exit_codes :
  codes [[]; ["--help"]; ["version"]; ["nonsense"]; ["migrate"]; ["migrate"; "down"]; ["migrate"; "up"]; ["bootstrap"; "token"];
         ["bootstrap"; "init"]; ["server"]; ["server"; "-h"]; ["server"; "--listen=:80"; "-shutdown-timeout"; "5s"];
         ["server"; "-shutdown-timeout=0s"]; ["server"; "-shutdown-timeout"]; ["server"; "--"; "x"]; ["server"; "---x"];
         ["server"; "-port"; "80"]] =
  [Some 0; Some 0; Some 0; Some 2; Some 2; Some 2; Some 0; Some 1; Some 0; Some 0; Some 0; Some 0; Some 2; Some 2; Some 2; Some 2;
   Some 2].
Proof. vm_compute. done. Qed.

(** A migration that is applied, its report, and a pool that would not close. *)
Example migrated :
  let w := snd (Run env ["migrate"; "up"] start) in
  schema w = 13 /\ stdout w = line "database migrated: version 13; applied: 4" /\ pools w = 0 /\
  map message (logs w) = ["database close failed"] /\
  stdout (snd (Run env ["migrate"; "status"] start)) = line "database version: 9; target: 13; pending: true".
Proof. vm_compute. done. Qed.

Definition no_command : list string := ["bootstrap"; "token"].

(** A rotation before the installation fails and leaves no token behind. *)
Lemma command_orderly_witness :
  fst (Run env no_command start) = Some exitFailure /\ stdout (snd (Run env no_command start)) = "" /\
  pools (snd (Run env no_command start)) = 0.
Proof.
  assert (Run env no_command start = (Some exitFailure, snd (Run env no_command start))) as E.
  { rewrite (surjective_pairing (Run env no_command start)) at 1. f_equal. }
  destruct (command_orderly env no_command start exitFailure _ E) as (_ & Hp & Ho & _).
  split; [by rewrite E|]. split; [by apply Ho|exact Hp].
Defined.

Definition installing : option Z * world Z := Run env ["bootstrap"; "init"] start.

Lemma printed_token_works_witness : exists key out,
  base64_decode key_text = Some key /\ 32 <= slen key /\ stdout (snd installing) = stdout start +:+ report env out /\
  forall t, issued env "init" <= Authorization.Truncate t Microsecond < store_time (Bootstrap.TokenExpires out) ->
    fst (exec (Authentication.Authenticate (verifying env key) t (Bootstrap.Token out)) (Bootstrap.identity_of (identity (snd installing)))) =
    Ok {| Authentication.s_TokenID := Bootstrap.TokenID out; Authentication.s_PrincipalID := Bootstrap.PrincipalID out;
          Authentication.s_WorkspaceID := Bootstrap.WorkspaceID out |}.
Proof.
  apply (printed_token_works env "init" start (snd installing)).
  - exact BootstrapExamples.fresh_integrity.
  - vm_compute. discriminate.
  - exact Authentication.demo_random_fills.
  - intros c [= <-]. split; vm_compute; reflexivity.
  - rewrite (surjective_pairing (Run env ["bootstrap"; "init"] start)) at 1. unfold installing. f_equal.
Defined.

End CommandExamples.
